(* ===== verification/_CoqProject ===== *)
-Q . S2P
Prelude.v
UnicodeTables.v
GoString.v
GoSort.v
GoFloat.v
GoFormat.v
Sha256.v
Json.v
JsonDecode.v
JsonRoundTrip.v
JsonLex.v
JsonTree.v
HashChain.v
ChainFile.v
Privacy.v
Protocol.v
Wire.v
Sqlite.v
Duration.v
Config.v
ModelCatalog.v
Settlement.v
Scheduler.v
SchedulerProofs.v
SettlementProofs.v
Challenge.v
LedgerFiles.v
City.v
Reputation.v
CityProofs.v
CityFile.v
QuotaProofs.v
Idempotency.v
NodeConn.v
Metrics.v
Requests.v
RequestsProofs.v
Services.v
Handlers.v
AdminHandlers.v
Router.v
AdminJson.v
HandlerProofs.v
PayoutProofs.v
QuotaSystem.v
NodeSessions.v
Backend.v
HostMemory.v
EchoBackend.v
Ollama.v
Agent.v
AgentProofs.v
Link.v
Startup.v
Recovery.v
Js.v
JsNumber.v
JsJson.v
Html.v
Dashboard.v
DashboardProofs.v
DashboardActions.v
DashboardForms.v
DashboardMarkup.v
DashboardFlow.v
