(* ===== verification/Prelude.v ===== *)
(** * mi: a verification library for the coordinator and the node agent

    The program under [src/] is a gateway between consumers of language models and the
    machines that run them.  The coordinator authenticates a consumer, reserves tokens
    against a quota, picks a node, streams the node's answer back, charges for what it
    measured and records the charge in a hash chain.  A node agent keeps a websocket to the
    coordinator and hands its requests to a local runtime.  This library models both
    processes and proves what they promise.

    ** Parts of the program and files of the library

    Foundations, shared by all components:
    - [Prelude]: fallible results, 64-bit integers with wrap-around, instants, runs of a step
      relation ([steps]), record updates, the tactics and hint databases.
    - [UnicodeTables], [GoString], [GoSort], [GoFloat], [GoFormat], [Sha256]: what the code uses
      of Go's standard library, executable.
    - [Json], [JsonDecode], [JsonRoundTrip], [JsonLex], [JsonTree]: encoding/json both ways, on
      bytes: the texts it writes, the grammar and the setters it reads with, what a torn text can
      be, and the tactics [write_members] and [read_members] with which a component proves that its
      structs survive.  Zones and the texts of floats are the classes [Zone] and [FloatText] with
      their laws.
    - [HashChain]: the chain that both ledgers keep, once, against the classes [ChainEvent]
      and [ChainLaws]; [ChainFile]: the bytes of the file behind it, against [Codec].

    Components of the coordinator, each with its state as a record and an operation per
    method; a mutex held from start to end of a method makes the method one step:
    - [Privacy], [Protocol], [Config], [ModelCatalog]: internal/privacy, internal/protocol and
      internal/openai, internal/config, internal/modelcatalog.
    - [Scheduler], [SchedulerProofs]: internal/scheduler/registry.go, the registry of nodes,
      reservations, the dispatch loops with their failover.
    - [City], [CityProofs], [QuotaProofs]: internal/city/market.go, accounts, secrets, quotas,
      usage and the two stores.  The operations are written against the class [Persist]; its
      instances are the abstract disk of [City] and, in [CityFile], the bytes of the state file
      and the temporary file it is renamed from.
    - [Settlement], [SettlementProofs], [Challenge], [LedgerFiles]: the two ledgers,
      internal/settlement and internal/challenge, and their files byte for byte.
    - [Reputation]: internal/reputation, the scores that feed back into the registry.
    - [Idempotency]: internal/idempotency, the table of keys.
    - [Wire], [Sqlite], [Duration]: the messages of internal/protocol as the bytes that
      internal/wsutil exchanges; internal/sqlitestore up to the driver; the durations of the
      configuration ([time.ParseDuration]).

    The coordinator process, coordinator/cmd/coordinator:
    - [Requests], [RequestsProofs], [Metrics]: the pure functions of main.go.
    - [Services]: services.go.  A Go interface is a type of calls with answers, a component an
      instance of the class [Service], and a handler a tree of calls ([Prog]).
    - [Handlers], [AdminHandlers]: every endpoint of main.go, the websocket session and the
      background jobs; [Router]: the table of routes under [http.ServeMux], from a request line to
      the endpoint; [AdminJson]: the bodies and replies of the administration as bytes.
    - [NodeConn]: the goroutines that share one node's connection, as a step relation.
    - [HandlerProofs], [PayoutProofs], [QuotaSystem], [NodeSessions]: theorems on handlers
      alone, and on handlers and components together.
    - [Startup], [Recovery]: [main], from the stores on disk to the first request, and the way
      out; whole lives of the process, with crashes between any two steps.

    The administration page, coordinator/cmd/coordinator/dashboard.go:
    - [Js], [JsNumber], [JsJson]: what its script uses of JavaScript: strings, numbers and their
      texts, [encodeURIComponent], [JSON.stringify] and [JSON.parse]; the class [Browser] has what the
      standard leaves to the browser.  [Html]: the tokenizer and the tree of the markup it sets.
    - [Dashboard], [DashboardForms]: the script, function by function, and the page as a machine of
      events; [DashboardMarkup]: the markup of its body.
    - [DashboardProofs], [DashboardActions], [DashboardFlow]: what a browser reads in the tables,
      where a click leads, and what a form and its reply come to.

    The node process:
    - [Backend]: internal/backend, the interface [Runtime] and its contract [faithful];
      [EchoBackend] and [Ollama] implement it.
    - [HostMemory]: internal/system, the free memory a heartbeat reports.
    - [Agent], [AgentProofs]: node-agent/cmd/node-agent, the agent as a step relation over any
      number of connections and goroutines.
    - [Link]: an agent and the coordinator at the two ends of one socket.

    ** How the parts meet

    A request is a [Prog]: each call it makes is one critical section of one component, so
    requests that run at the same time interleave between calls.  [QuotaSystem.sys_step] is a
    pool of such requests over one [World]; everything else that can happen to the market is
    itself a request, and everything else that can happen to the rest of the world is a step
    of its own.  The one call that spans many critical sections is a dispatch: its script
    ([Attempt]) says for each round what the node did and what other goroutines did to the
    registry meanwhile.  [NodeConn] looks inside a round, at the channels between the reader
    of a connection and the requests waiting on it, and [Agent] at the other end of the
    websocket; [AgentProofs.answer_end_to_end] joins the two, and [Link.link_answers] runs them
    together.  The page and the coordinator meet in [DashboardActions] and [DashboardFlow]: a click or
    a form becomes a request line and a body, the router and the token check lead it to a handler,
    the handler runs on a [World], and the bytes of its reply change the page.

    ** What is proved

    - Money and quotas: the whole coordinator refines the budget machine of each account
      ([QuotaSystem.coordinator_keeps_budgets]): an account passes its limit by no more than recordings
      pass their reservations, which the code does not prevent ([recording_passes_limit]) and which does not
      happen with nodes and clients that keep to their limits; every request is accounted for on every path
      ([HandlerProofs.requests_accounted]); what is charged is what was measured
      ([RequestsProofs.measured_within_budget], [SettlementProofs.settlement_amounts]); the
      decision on a quota is exact where its sum does not wrap ([QuotaProofs]); a key is charged once and once
      more for each takeover of a stale claim ([Idempotency]); over whole lives of the process with crashes, what
      was saved bounds what is granted ([Recovery.durable_budgets]).
    - Histories: both chains verify in every reachable state, read back after a restart, and
      are fixed by their last hash, or a SHA-256 collision is exhibited.
    - Stores: what is persisted loads again, for the file and the database alike, and a
      restarted coordinator continues where it stopped ([Startup.coordinator_restart]).  On bytes:
      the market over its file refines the market over an abstract disk
      ([CityFile.state_file_refines]) and an interrupted save leaves the old file
      ([CityFile.state_file_round_trip]); the ledgers' files read back as far as they are whole
      ([LedgerFiles]).
    - Access: endpoints are guarded; a disabled account stays out over all later operations and a restart,
      the built-in "local" only under conditions ([disabling_local_opens], [local_account_reenabled]);
      where the market is enabled and requires provider tokens, disabled providers stay out and a node
      serves only tiers its provider was allowed.
    - Scheduling: a node's slots are oversubscribed by no more than a reconnection, a removal or a
      heartbeat made its count forget, and not at all without these; a reservation takes a cheapest node,
      failover stops at the first token, dispatch terminates.
    - Streams: a request receives its own messages, in order, whole ([NodeConn]); the agent
      answers once and keeps its counter ([AgentProofs]); what the runtime says is what the
      coordinator returns.
    - Texts: metrics and payout files read back whatever the names in them contain; a message that
      fits the websocket's read limit is read as it was written ([Wire.wire_round_trip]); a
      duration is read exactly ([Duration]).
    - The page: no report can add markup to it ([DashboardProofs.dashboard_no_injection]), its
      tables say what the reports say, its buttons that are not disabled, and its forms, reach the accounts they name
      ([DashboardActions.dashboard_actions], [DashboardFlow.account_form]), and a one-time secret
      stays where it is shown ([DashboardFlow.one_time_secret]).
    Theorems that show a flaw of the code, or the bound of a guarantee, stand beside the
    guarantee they limit: [quota_estimate_wraps], [recording_passes_limit], [node_overruns],
    [heartbeat_frees_reserved_slot], [reconnect_forgets_slots], [long_prompt_not_read], [disabling_local_opens],
    [sync_failure_breaks_chain], [rotated_key_returns], [local_account_reenabled],
    [failed_rotation_locks_out], [shadowed_alias_listed], [stale_claim_completes_twice],
    [full_buffer_blocks], [stale_session_removes], [disabled_provider_joins],
    [failed_stream_succeeds], [capacity_overrun], [zero_pass_rate_hidden], [negative_heartbeat_kept],
    [form_kept] and [failed_copy_reported].

    ** Bounds and fuel

    Integers are Go's 64-bit ones and wrap; a theorem that needs a sum not to wrap says so.  What the code
    relies on clients and nodes to do without checking it (outputs within the limit sent, no registration over held
    slots) is a switch of the step relation ([obliging], [careful]): theorems hold for both positions,
    and say what each gives.  The read limit of a websocket is [read_limit], the library's documented default.
    The dispatch loops recurse on the script of attempts, and [dispatch_terminates] and
    [embedding_dispatch_total] show that one attempt per registrable node id is enough.
    [digits_from] has 20 digits, enough for 64 bits.  [shortest] tries the powers of ten from
    10^309 down to 10^-390; the smallest positive binary64 number is 2^-1074, and the interval
    that rounds to it contains a multiple of 10^-324.  Runtimes, handlers and agents are trees,
    which are finite along every path; the number of requests, connections and steps is not bounded.

    ** Outside the model

    Sockets, HTTP and TLS themselves, timers and signals; the YAML decoder, the SQL driver and
    the calls of the file system, whose results and failures are arguments.  A crash keeps what a
    completed call wrote: nothing is said of writes the operating system loses when the power
    fails.  The bodies of the consumers' requests are the values they decode to, and the replies of
    an ollama server the objects they hold.  A nil slice and an empty one are the same list,
    which is written as [null] where the field may be nil and read back as the empty list.  A
    runtime's response is finite.  Of the
    page, the style sheet, and of the browser the clock, the formats of its locale, the clipboard
    and the dialogs are outside or outcomes of an event; the limit of an account passes through
    a JavaScript number, so [account_form] is about limits below 2^53.  Sorts are by insertion, as
    Go sorts short slices, and no theorem depends on the order of ties.  Random identifiers are
    taken from outside; [NodeConn] assumes that those of requests in progress differ. *)

From stdpp Require Export base tactics numbers list gmap sets strings fin_maps.
From Stdlib Require Export ZArith Lia Ascii.

#[export] Set Default Goal Selector "!".

Declare Scope go_scope.
Delimit Scope go_scope with go.
#[global] Open Scope Z_scope.
#[global] Open Scope go_scope.

(** ** Fallible calls: Go's [(value, error)] returns *)

(** A call returns a value or an error; the zero value that Go returns beside a
    non-nil error is never read by the callers modelled here. *)
Inductive res (E A : Type) : Type :=
| Ok (a : A)
| Err (e : E).
Arguments Ok {E A} a.
Arguments Err {E A} e.

Definition res_bind {E A B} (x : res E A) (k : A -> res E B) : res E B :=
  match x with Ok a => k a | Err e => Err e end.

Definition res_map {E A B} (f : A -> B) (x : res E A) : res E B :=
  match x with Ok a => Ok (f a) | Err e => Err e end.

Definition is_ok {E A} (x : res E A) : bool :=
  match x with Ok _ => true | Err _ => false end.

Notation "'let*' x ':=' c 'in' k" := (res_bind c (fun x => k))
  (at level 10, x pattern, c at level 100, k at level 200) : go_scope.

#[export] Instance res_eq_dec {E A} `{EqDecision E, EqDecision A} : EqDecision (res E A).
Proof. solve_decision. Defined.

Lemma res_bind_ok {E A B} (x : res E A) (k : A -> res E B) b :
  res_bind x k = Ok b <-> exists a, x = Ok a /\ k a = Ok b.
Proof. destruct x; simpl; naive_solver. Qed.

(** ** Machine integers: Go's 64-bit [int] and [int64] *)

Definition min_int64 : Z := -9223372036854775808.
Definition max_int64 : Z := 9223372036854775807.
Definition in_int64 (z : Z) : Prop := min_int64 <= z <= max_int64.

(** Two's complement wrap-around. *)
Definition wrap64 (z : Z) : Z := (z + 9223372036854775808) mod 18446744073709551616 - 9223372036854775808.

Definition add64 (a b : Z) : Z := wrap64 (a + b).
Definition sub64 (a b : Z) : Z := wrap64 (a - b).
Definition mul64 (a b : Z) : Z := wrap64 (a * b).
(** Go's [/] truncates toward zero; the divisors of the program are never 0 or -1. *)
Definition quo64 (a b : Z) : Z := Z.quot a b.

#[global] Arguments wrap64 : simpl never.
#[global] Arguments add64 : simpl never.
#[global] Arguments sub64 : simpl never.
#[global] Arguments mul64 : simpl never.
#[global] Arguments quo64 : simpl never.

Infix "+w" := add64 (at level 50, left associativity) : go_scope.
Infix "-w" := sub64 (at level 50, left associativity) : go_scope.
Infix "*w" := mul64 (at level 40, left associativity) : go_scope.
Infix "/w" := quo64 (at level 40, left associativity) : go_scope.

#[export] Instance in_int64_dec z : Decision (in_int64 z).
Proof. unfold in_int64. apply _. Defined.

Lemma wrap64_range z : in_int64 (wrap64 z).
Proof.
  unfold in_int64, wrap64, min_int64, max_int64.
  pose proof (Z.mod_pos_bound (z + 9223372036854775808) 18446744073709551616). lia.
Qed.

Lemma wrap64_id z : in_int64 z -> wrap64 z = z.
Proof.
  unfold in_int64, wrap64, min_int64, max_int64. intros H.
  rewrite Z.mod_small; lia.
Qed.

Lemma wrap64_add a b : wrap64 (wrap64 a + b) = wrap64 (a + b).
Proof.
  unfold wrap64. f_equal.
  replace ((a + 9223372036854775808) mod 18446744073709551616 - 9223372036854775808 + b + 9223372036854775808)
    with ((a + 9223372036854775808) mod 18446744073709551616 + b) by lia.
  rewrite Zplus_mod_idemp_l. f_equal. lia.
Qed.

Lemma add64_id a b : in_int64 (a + b) -> a +w b = a + b.
Proof. apply wrap64_id. Qed.

Lemma sub64_id a b : in_int64 (a - b) -> a -w b = a - b.
Proof. apply wrap64_id. Qed.

Lemma mul64_id a b : in_int64 (a * b) -> a *w b = a * b.
Proof. apply wrap64_id. Qed.

(** Saturation, as [time.Time.Sub] does on overflow. *)
Definition clamp64 (z : Z) : Z := Z.max min_int64 (Z.min max_int64 z).

Lemma clamp64_id z : in_int64 z -> clamp64 z = z.
Proof. unfold clamp64, in_int64, min_int64, max_int64. lia. Qed.

(** Arithmetic on 64-bit values: unfold the range and call [lia]. *)
Ltac ilia := unfold in_int64, min_int64, max_int64 in *; lia.

(** Remove a wrap-around whose argument is in range. *)
Ltac nowrap :=
  repeat first
    [ rewrite add64_id by ilia
    | rewrite sub64_id by ilia
    | rewrite mul64_id by ilia ].

Create HintDb go.
Create Rewrite HintDb go.
#[export] Hint Resolve wrap64_range : go.

(** ** Time: nanoseconds since Go's zero [time.Time] *)

(** [time.Time{}] is 0; instants are exact and the monotonic reading is not
    distinguished from the wall clock. *)
Definition Time := Z.
Definition time_zero : Time := 0.
Definition time_is_zero (t : Time) : bool := Z.eqb t 0.
Definition time_sub (a b : Time) : Z := clamp64 (a - b).
Definition time_before (a b : Time) : bool := Z.ltb a b.
Definition time_after (a b : Time) : bool := Z.ltb b a.
Definition second : Z := 1000000000.
Definition millisecond : Z := 1000000.
Definition duration_ms (d : Z) : Z := d /w millisecond.

(** ** Small tools *)

(** Case on the first [match] or [if] of the goal, keeping the equation. *)
Ltac case_goal :=
  match goal with
  | |- context [match ?x with _ => _ end] =>
      lazymatch x with
      | context [match _ with _ => _ end] => fail
      | _ => let E := fresh "E" in destruct x eqn:E
      end
  end.

(** Case on the first [match] or [if] of a hypothesis. *)
Ltac case_hyp H :=
  match type of H with
  | context [match ?x with _ => _ end] =>
      lazymatch x with
      | context [match _ with _ => _ end] => fail
      | _ => let E := fresh "E" in destruct x eqn:E
      end
  end.

(** Boolean tests as propositions. *)
Ltac bsimpl :=
  repeat match goal with
  | H : negb _ = true |- _ => apply negb_true_iff in H
  | H : negb _ = false |- _ => apply negb_false_iff in H
  | H : _ && _ = true |- _ => apply andb_true_iff in H; destruct H
  | H : _ || _ = false |- _ => apply orb_false_iff in H; destruct H
  | H : bool_decide _ = true |- _ => apply bool_decide_eq_true in H
  | H : bool_decide _ = false |- _ => apply bool_decide_eq_false in H
  | H : Z.eqb _ _ = true |- _ => apply Z.eqb_eq in H
  | H : Z.eqb _ _ = false |- _ => apply Z.eqb_neq in H
  | H : Z.ltb _ _ = true |- _ => apply Z.ltb_lt in H
  | H : Z.ltb _ _ = false |- _ => apply Z.ltb_ge in H
  | H : Z.leb _ _ = true |- _ => apply Z.leb_le in H
  | H : Z.leb _ _ = false |- _ => apply Z.leb_gt in H
  end.

(** Go's [s == t] on strings. *)
Definition str_eqb (s t : string) : bool := bool_decide (s = t).
Infix "=s" := str_eqb (at level 70, no associativity) : go_scope.

Lemma str_eqb_true s t : (s =s t) = true <-> s = t.
Proof. apply bool_decide_eq_true. Qed.
Lemma str_eqb_false s t : (s =s t) = false <-> s <> t.
Proof. apply bool_decide_eq_false. Qed.
Lemma str_eqb_refl s : (s =s s) = true.
Proof. by apply str_eqb_true. Qed.
#[export] Hint Rewrite str_eqb_refl : go.

(** Go's map index: the zero value when the key is absent. *)
Definition map_get {A} (d : A) (m : gmap string A) (k : string) : A := default d (m !! k).

(** Reflexive-transitive closure of a step relation with labels. *)
Section Traces.
Context {S L : Type} (step : S -> L -> S -> Prop).

Inductive steps : S -> list L -> S -> Prop :=
| steps_nil s : steps s [] s
| steps_snoc s1 tr s2 l s3 : steps s1 tr s2 -> step s2 l s3 -> steps s1 (tr ++ [l]) s3.

Lemma steps_invariant (I : S -> Prop) s tr s' :
  I s -> (forall a l b, I a -> step a l b -> I b) -> steps s tr s' -> I s'.
Proof. intros Hi Hp. induction 1; eauto. Qed.

Lemma steps_app s1 tr1 s2 tr2 s3 : steps s1 tr1 s2 -> steps s2 tr2 s3 -> steps s1 (tr1 ++ tr2) s3.
Proof.
  intros H1 H2. induction H2.
  - by rewrite app_nil_r.
  - rewrite app_assoc. econstructor; eauto.
Qed.
End Traces.

(** ** Record update

    [r <| field ::= f |>] and [r <| field := v |>] assign one field of a Go struct
    and keep the others.  An instance of [Settable] lists the fields once. *)

Class Settable (R : Type) := mk_eta : R -> R.
Class Setter {R T : Type} (p : R -> T) := set : (T -> T) -> R -> R.

Ltac solve_setter :=
  match goal with
  | |- @Setter ?R ?T ?p =>
      let i := constr:(_ : Settable R) in
      let e := eval red in i in
      match eval pattern p in e with
      | ?g _ => exact (fun (f : T -> T) (r : R) => g (fun r' => f (p r')) r)
      end
  end.
#[export] Hint Extern 1 (Setter _) => solve_setter : typeclass_instances.

Arguments set {R T} p {_} f r /.
Notation "r <| p ::= f |>" := (set p f r)
  (at level 1, p at next level, f at level 200, left associativity) : go_scope.
Notation "r <| p := v |>" := (set p (fun _ => v) r)
  (at level 1, p at next level, v at level 200, left associativity) : go_scope.
