(* ===== verification/GoString.v ===== *)
(** * Go strings: bytes, UTF-8 runes, case mapping, trimming, sorting

    A Go string is a sequence of bytes, here a [string] of [ascii] characters.
    The definitions follow [unicode/utf8], [strings] and [unicode]: decoding
    yields U+FFFD with width one on an invalid byte, [ToLower] maps rune by rune
    and re-encodes, [TrimSpace] removes Unicode white space at both ends,
    [EqualFold] compares rune by rune under simple case folding.  [sort.Strings]
    is bytewise lexicographic order; [sort_slice] is the insertion sort that
    [sort.Slice] runs, with the lemmas that make its result unique. *)

From stdpp Require Import sorting.
From S2P Require Import Prelude UnicodeTables.

(** ** Bytes *)

Definition byte_val (c : ascii) : Z := Z.of_N (N_of_ascii c).
Definition byte_of (z : Z) : ascii := ascii_of_N (Z.to_N z).

Fixpoint bytes (s : string) : list Z :=
  match s with
  | EmptyString => []
  | String c s' => byte_val c :: bytes s'
  end.

Fixpoint of_bytes (l : list Z) : string :=
  match l with
  | [] => EmptyString
  | b :: l' => String (byte_of b) (of_bytes l')
  end.

(** Go's [len(s)]. *)
Definition slen (s : string) : Z := Z.of_nat (String.length s).

Lemma byte_val_range c : 0 <= byte_val c < 256.
Proof. unfold byte_val. pose proof (N_ascii_bounded c). lia. Qed.

Lemma byte_of_val c : byte_of (byte_val c) = c.
Proof. unfold byte_of, byte_val. by rewrite N2Z.id, ascii_N_embedding. Qed.

Lemma byte_val_of z : 0 <= z < 256 -> byte_val (byte_of z) = z.
Proof.
  intros H. unfold byte_of, byte_val. rewrite N_ascii_embedding by lia. lia.
Qed.

Lemma of_bytes_bytes s : of_bytes (bytes s) = s.
Proof. induction s as [|c s IH]; simpl; [done|]. by rewrite byte_of_val, IH. Qed.

Lemma bytes_of_bytes l : Forall (fun b => 0 <= b < 256) l -> bytes (of_bytes l) = l.
Proof. induction 1 as [|b l Hb _ IH]; simpl; [done|]. by rewrite byte_val_of, IH. Qed.

Lemma bytes_inj s t : bytes s = bytes t -> s = t.
Proof. intros H. rewrite <- (of_bytes_bytes s), <- (of_bytes_bytes t). by rewrite H. Qed.

Lemma bytes_app s t : bytes (s +:+ t) = bytes s ++ bytes t.
Proof. induction s as [|c s IH]; simpl; [done|]. by rewrite IH. Qed.

Lemma length_bytes s : length (bytes s) = String.length s.
Proof. induction s; simpl; auto. Qed.

Lemma slen_nonneg s : 0 <= slen s.
Proof. unfold slen. lia. Qed.

(** ** UTF-8: [utf8.DecodeRuneInString] *)

Definition rune_error : Z := 65533.

Definition is_cont (b : Z) : bool := (128 <=? b) && (b <=? 191).

(** The first byte's class: sequence length and the range of the second byte. *)
Definition first_class (b : Z) : option (nat * Z * Z) :=
  if (194 <=? b) && (b <=? 223) then Some (2%nat, 128, 191)
  else if b =? 224 then Some (3%nat, 160, 191)
  else if b =? 237 then Some (3%nat, 128, 159)
  else if (225 <=? b) && (b <=? 239) then Some (3%nat, 128, 191)
  else if b =? 240 then Some (4%nat, 144, 191)
  else if (241 <=? b) && (b <=? 243) then Some (4%nat, 128, 191)
  else if b =? 244 then Some (4%nat, 128, 143)
  else None.

(** The rune at the head of a non-empty string and its width in bytes. *)
Definition decode_rune (l : list Z) : Z * nat :=
  match l with
  | [] => (rune_error, 0%nat)
  | b0 :: l1 =>
      if b0 <? 128 then (b0, 1%nat)
      else match first_class b0 with
      | None => (rune_error, 1%nat)
      | Some (n, lo, hi) =>
          match n, l1 with
          | 2%nat, b1 :: _ =>
              if (lo <=? b1) && (b1 <=? hi) then (Z.land b0 31 * 64 + Z.land b1 63, 2%nat)
              else (rune_error, 1%nat)
          | 3%nat, b1 :: b2 :: _ =>
              if (lo <=? b1) && (b1 <=? hi) && is_cont b2
              then (Z.land b0 15 * 4096 + Z.land b1 63 * 64 + Z.land b2 63, 3%nat)
              else (rune_error, 1%nat)
          | 4%nat, b1 :: b2 :: b3 :: _ =>
              if (lo <=? b1) && (b1 <=? hi) && is_cont b2 && is_cont b3
              then (Z.land b0 7 * 262144 + Z.land b1 63 * 4096 + Z.land b2 63 * 64 + Z.land b3 63, 4%nat)
              else (rune_error, 1%nat)
          | _, _ => (rune_error, 1%nat)
          end
      end
  end.

(** The runes of a string with their raw bytes, as [for _, r := range s] visits
    them; [skip] counts the bytes of the current rune still to pass over. *)
Fixpoint segments_from (skip : nat) (l : list Z) : list (Z * list Z) :=
  match l with
  | [] => []
  | _ :: l' =>
      match skip with
      | S k => segments_from k l'
      | O => let '(r, w) := decode_rune l in
             (r, take w l) :: segments_from (Nat.pred w) l'
      end
  end.

Definition segments (s : string) : list (Z * list Z) := segments_from 0 (bytes s).
Definition runes (s : string) : list Z := fst <$> segments s.

(** [utf8.RuneCountInString]. *)
Definition rune_count (s : string) : Z := Z.of_nat (length (runes s)).

(** [utf8.AppendRune]: surrogates and out-of-range values encode U+FFFD. *)
Definition encode_rune (r : Z) : list Z :=
  if (0 <=? r) && (r <? 128) then [r]
  else if (128 <=? r) && (r <? 2048) then [192 + r / 64; 128 + r mod 64]
  else if (r <? 0) || (1114111 <? r) || ((55296 <=? r) && (r <=? 57343)) then [239; 191; 189]
  else if r <? 65536 then [224 + r / 4096; 128 + r / 64 mod 64; 128 + r mod 64]
  else [240 + r / 262144; 128 + r / 4096 mod 64; 128 + r / 64 mod 64; 128 + r mod 64].

(** ** Case mapping *)

Fixpoint lookup_ranges (t : list (Z * Z * Z * Z)) (r : Z) : Z :=
  match t with
  | [] => r
  | (lo, hi, stride, delta) :: t' =>
      if (lo <=? r) && (r <=? hi) && ((r - lo) mod stride =? 0) then r + delta
      else lookup_ranges t' r
  end.

(** [unicode.ToLower]. *)
Definition rune_to_lower (r : Z) : Z :=
  if r <? 128 then (if (65 <=? r) && (r <=? 90) then r + 32 else r)
  else lookup_ranges to_lower_ranges r.

(** The representative of a rune's [unicode.SimpleFold] orbit. *)
Definition rune_fold (r : Z) : Z :=
  if r <? 128 then (if (65 <=? r) && (r <=? 90) then r + 32 else r)
  else lookup_ranges fold_ranges r.

Definition is_ascii (s : string) : bool := forallb (fun b => b <? 128) (bytes s).

(** [strings.ToLower]: byte by byte on ASCII, [strings.Map] otherwise. *)
Definition to_lower (s : string) : string :=
  if is_ascii s then of_bytes (rune_to_lower <$> bytes s)
  else of_bytes (flat_map (fun r => encode_rune (rune_to_lower r)) (runes s)).

(** [strings.EqualFold]. *)
Definition equal_fold (s t : string) : bool :=
  bool_decide ((rune_fold <$> runes s) = (rune_fold <$> runes t)).

(** ** Appending *)

Lemma sapp_cons c (a b : string) : String c a +:+ b = String c (a +:+ b).
Proof. done. Qed.

Lemma sapp_nil (b : string) : "" +:+ b = b.
Proof. done. Qed.

Lemma sapp_assoc (a b c : string) : (a +:+ b) +:+ c = a +:+ (b +:+ c).
Proof. induction a as [|x a IH]; [done|]. by rewrite !sapp_cons, IH. Qed.

Lemma sapp_nil_r (a : string) : a +:+ "" = a.
Proof. induction a as [|x a IH]; [done|]. by rewrite sapp_cons, IH. Qed.

Lemma sapp_empty (a b : string) : a +:+ b = "" <-> a = "" /\ b = "".
Proof. destruct a; rewrite ?sapp_cons, ?sapp_nil; naive_solver. Qed.

(** Appends in normal form: characters in front, nested to the right. *)
Create Rewrite HintDb sapp.
#[export] Hint Rewrite sapp_cons sapp_nil sapp_assoc sapp_nil_r : sapp.

Lemma length_sapp (a b : string) : String.length (a +:+ b) = (String.length a + String.length b)%nat.
Proof. induction a as [|x a IH]; [done|]. rewrite sapp_cons. simpl. by rewrite IH. Qed.

(** ** Trimming *)

(** [unicode.IsSpace]. *)
Definition is_space (r : Z) : bool :=
  ((9 <=? r) && (r <=? 13)) || (r =? 32) || (r =? 133) || (r =? 160) || (r =? 5760)
  || ((8192 <=? r) && (r <=? 8202)) || (r =? 8232) || (r =? 8233) || (r =? 8239)
  || (r =? 8287) || (r =? 12288).

Fixpoint drop_spaces (l : list (Z * list Z)) : list (Z * list Z) :=
  match l with
  | (r, raw) :: l' => if is_space r then drop_spaces l' else l
  | [] => []
  end.

(** [strings.TrimSpace]. *)
Definition trim_space (s : string) : string :=
  of_bytes (flat_map snd (rev (drop_spaces (rev (drop_spaces (segments s)))))).

(** [strings.Fields]: the maximal runs of non-space runes. *)
Fixpoint fields_from (cur : list Z) (l : list (Z * list Z)) : list string :=
  match l with
  | [] => match cur with [] => [] | _ => [of_bytes cur] end
  | (r, raw) :: l' =>
      if is_space r then
        match cur with [] => fields_from [] l' | _ => of_bytes cur :: fields_from [] l' end
      else fields_from (cur ++ raw) l'
  end.
Definition fields (s : string) : list string := fields_from [] (segments s).

(** [strings.Split(s, ",")]. *)
Fixpoint split_comma_from (cur : string) (s : string) : list string :=
  match s with
  | EmptyString => [cur]
  | String c s' =>
      if bool_decide (c = ","%char) then cur :: split_comma_from EmptyString s'
      else split_comma_from (cur +:+ String c EmptyString) s'
  end.
Definition split_comma (s : string) : list string := split_comma_from EmptyString s.

Definition has_prefix (p s : string) : bool := String.prefix p s.

(** [strings.Contains]. *)
Fixpoint contains (s sub : string) : bool :=
  has_prefix sub s || match s with EmptyString => false | String _ s' => contains s' sub end.

(** ** Numerals and hexadecimal *)

Definition hex_digit (z : Z) : ascii := byte_of (if z <? 10 then 48 + z else 87 + z).

(** [hex.EncodeToString]. *)
Fixpoint hex_of_bytes (l : list Z) : string :=
  match l with
  | [] => EmptyString
  | b :: l' => String (hex_digit (b / 16)) (String (hex_digit (b mod 16)) (hex_of_bytes l'))
  end.

(** Decimal digits, least significant first removed by division. *)
Fixpoint digits_from (fuel : nat) (z : Z) (acc : list Z) : list Z :=
  match fuel with
  | O => acc
  | S n => if z <? 10 then (48 + z) :: acc else digits_from n (z / 10) ((48 + z mod 10) :: acc)
  end.

(** [strconv.FormatInt(z, 10)]: 20 digits are enough for 64 bits. *)
Definition itoa_bytes (z : Z) : list Z :=
  if z <? 0 then 45 :: digits_from 20 (- z) [] else digits_from 20 z [].
Definition itoa (z : Z) : string := of_bytes (itoa_bytes z).

(** ** ASCII strings: decoding, trimming and lower-casing do nothing to them *)

Lemma bytes_range s : Forall (fun b => 0 <= b < 256) (bytes s).
Proof. induction s as [|c s IH]; simpl; [constructor|]. constructor; [apply byte_val_range|done]. Qed.

(** A byte above 127 never starts an ASCII rune. *)
Lemma decode_rune_high b l : 128 <= b -> Forall (fun b => 0 <= b < 256) l -> 128 <= fst (decode_rune (b :: l)).
Proof.
  intros Hb Hl. unfold decode_rune. rewrite (proj2 (Z.ltb_ge b 128)) by lia. unfold first_class.
  change 31 with (Z.ones 5). change 63 with (Z.ones 6). change 15 with (Z.ones 4). change 7 with (Z.ones 3).
  rewrite !Z.land_ones by lia. unfold rune_error.
  repeat case_goal; simpl fst; bsimpl; simplify_eq; try rewrite !Z.land_ones by lia; try lia.
  all: change (2 ^ 3) with 8; change (2 ^ 4) with 16; change (2 ^ 5) with 32; change (2 ^ 6) with 64.
  all: Z.to_euclidean_division_equations; lia.
Qed.

Lemma segments_from_cons b l :
  segments_from 0 (b :: l)
  = (fst (decode_rune (b :: l)), take (snd (decode_rune (b :: l))) (b :: l))
    :: segments_from (Nat.pred (snd (decode_rune (b :: l)))) l.
Proof. change (segments_from 0 (b :: l)) with
  (let '(r, w) := decode_rune (b :: l) in (r, take w (b :: l)) :: segments_from (Nat.pred w) l).
  by destruct (decode_rune (b :: l)). Qed.

Lemma decode_rune_low b l : b < 128 -> decode_rune (b :: l) = (b, 1%nat).
Proof. intros Hb. unfold decode_rune. by rewrite (proj2 (Z.ltb_lt b 128)). Qed.

Lemma segments_from_ascii l :
  Forall (fun b => b < 128) l -> segments_from 0 l = (fun b => (b, [b])) <$> l.
Proof.
  induction 1 as [|b l Hb Hl IH]; [done|].
  rewrite segments_from_cons, decode_rune_low by done. simpl. by rewrite IH.
Qed.

Lemma runes_ascii s : Forall (fun b => b < 128) (bytes s) -> runes s = bytes s.
Proof.
  intros H. unfold runes, segments. rewrite segments_from_ascii by done.
  rewrite <- list_fmap_compose. by apply list_fmap_id.
Qed.

(** Conversely, a string all of whose runes are ASCII has only ASCII bytes. *)
Lemma runes_ascii_bytes s : Forall (fun r => r < 128) (runes s) -> Forall (fun b => b < 128) (bytes s).
Proof.
  unfold runes, segments. pose proof (bytes_range s) as Hr. revert Hr. generalize (bytes s) as l.
  induction l as [|b l IH]; intros Hr Hl; [constructor|]. apply Forall_cons in Hr as [Hb Hr].
  rewrite segments_from_cons, fmap_cons, Forall_cons in Hl. destruct Hl as [Hlt Hl].
  destruct (decide (b < 128)) as [Hlo|Hge].
  - rewrite decode_rune_low in Hl by done. constructor; [done|]. by apply IH.
  - pose proof (decode_rune_high b l ltac:(lia) Hr). cbn [fst] in Hlt. lia.
Qed.

Lemma drop_spaces_none l : Forall (fun p => is_space p.1 = false) l -> drop_spaces l = l.
Proof. destruct 1 as [|[r raw] l Hr _]; simpl in *; [done|]. by rewrite Hr. Qed.

Lemma trim_space_none s :
  Forall (fun b => b < 128 /\ is_space b = false) (bytes s) -> trim_space s = s.
Proof.
  intros H. unfold trim_space, segments.
  rewrite segments_from_ascii by (eapply Forall_impl; [done|]; by intros b []).
  assert (Hs : Forall (fun p : Z * list Z => is_space p.1 = false) ((fun b => (b, [b])) <$> bytes s)).
  { apply Forall_fmap. eapply Forall_impl; [done|]. by intros b []. }
  rewrite (drop_spaces_none (_ <$> _)) by done. rewrite drop_spaces_none by (by apply List.Forall_rev).
  rewrite rev_involutive. rewrite <- (of_bytes_bytes s) at 2. f_equal.
  clear. induction (bytes s) as [|b l IH]; simpl; [done|]. by f_equal.
Qed.

Lemma drop_spaces_all l k : Forall (fun p => is_space p.1 = true) l -> drop_spaces (l ++ k) = drop_spaces k.
Proof. induction 1 as [|[r raw] l Hr _ IH]; simpl in *; [done|]. by rewrite Hr. Qed.

(** Trimming a text without white space out of the ASCII white space around it. *)
Lemma trim_space_around before s after :
  Forall (fun b => b < 128 /\ is_space b = true) (bytes before) ->
  Forall (fun b => b < 128 /\ is_space b = false) (bytes s) ->
  Forall (fun b => b < 128 /\ is_space b = true) (bytes after) ->
  trim_space (before +:+ s +:+ after) = s.
Proof.
  intros Hb Hs Ha. unfold trim_space, segments. rewrite !bytes_app.
  assert (Hlow : forall v l, Forall (fun b => b < 128 /\ is_space b = v) l -> Forall (fun b => b < 128) l)
    by (intros v l H; eapply Forall_impl; [exact H|]; by intros b []).
  assert (Hin : forall v l, Forall (fun b => b < 128 /\ is_space b = v) l ->
            Forall (fun p : Z * list Z => is_space p.1 = v) ((fun b => (b, [b])) <$> l))
    by (intros v l H; apply Forall_fmap; eapply Forall_impl; [exact H|]; by intros b []).
  rewrite segments_from_ascii by (rewrite !Forall_app; split_and!; by eapply Hlow).
  rewrite !fmap_app, drop_spaces_all by by apply Hin.
  assert (Hend : drop_spaces (rev ((fun b => (b, [b])) <$> bytes after) ++ rev ((fun b => (b, [b])) <$> bytes s))
                 = rev ((fun b => (b, [b])) <$> bytes s)).
  { rewrite drop_spaces_all by by apply List.Forall_rev, Hin. apply drop_spaces_none, List.Forall_rev, Hin, Hs. }
  assert (Hmid : drop_spaces (((fun b => (b, [b])) <$> bytes s) ++ ((fun b => (b, [b])) <$> bytes after))
                 = if decide (bytes s = []) then [] else ((fun b => (b, [b])) <$> bytes s) ++ ((fun b => (b, [b])) <$> bytes after)).
  { destruct Hs as [|x l [Hx Hsp] _]; [|].
    - simpl. rewrite <- (app_nil_r (_ <$> bytes after)). by rewrite drop_spaces_all by by apply Hin.
    - simpl. by rewrite Hsp. }
  rewrite Hmid. destruct (decide (bytes s = [])) as [E|_].
  - simpl. apply bytes_inj. by rewrite E.
  - rewrite rev_app_distr, Hend, rev_involutive. rewrite <- (of_bytes_bytes s) at 2. f_equal.
    clear. induction (bytes s) as [|b l IH]; simpl; [done|]. by f_equal.
Qed.

Lemma to_lower_letters s t :
  of_bytes (rune_to_lower <$> bytes s) = t -> Forall (fun b => b < 128) (bytes s) -> to_lower s = t.
Proof.
  intros Ht H. unfold to_lower. replace (is_ascii s) with true; [done|].
  symmetry. apply forallb_forall. intros b Hb. rewrite Forall_forall in H. apply Z.ltb_lt, H. by apply list_elem_of_In.
Qed.

Lemma to_lower_none s :
  Forall (fun b => b < 128 /\ rune_to_lower b = b) (bytes s) -> to_lower s = s.
Proof.
  intros H. unfold to_lower. replace (is_ascii s) with true.
  2: { symmetry. apply forallb_forall. intros b Hb. rewrite Forall_forall in H.
       apply Z.ltb_lt, H. by apply list_elem_of_In. }
  rewrite <- (of_bytes_bytes s) at 2. f_equal. rewrite <- (list_fmap_id (bytes s)) at 2.
  apply list_fmap_ext. intros i b Hb. apply list_elem_of_lookup_2 in Hb.
  rewrite Forall_forall in H. by apply H.
Qed.
