(* ===== verification/GoSort.v ===== *)
(** * Sorting: Go's [sort.Slice] and [sort.Strings]

    [sort_slice less l] is the insertion sort that [sort.Slice] uses on short
    slices.  Longer slices go through pattern-defeating quicksort, which is not
    stable; the lemmas therefore state what any sort promises: the result is a
    permutation, sorted by [less], and unique when the keys differ.  Where ties
    matter (the scheduler's candidates) the client's theorems quantify over the
    order in which the elements reach the sort. *)

From Stdlib Require Import Sorted Permutation.
From S2P Require Import Prelude GoString.

Section SortSlice.
Context {A : Type} (less : A -> A -> bool).

Fixpoint insert_sorted (x : A) (l : list A) : list A :=
  match l with
  | [] => [x]
  | y :: l' => if less x y then x :: l else y :: insert_sorted x l'
  end.

(** Elements are inserted from left to right, each after its equals. *)
Definition sort_slice (l : list A) : list A :=
  fold_left (fun acc x => insert_sorted x acc) l [].

Definition le_of (a b : A) : Prop := less b a = false.

Lemma insert_sorted_perm x l : insert_sorted x l ≡ₚ x :: l.
Proof.
  induction l as [|y l IH]; simpl; [done|].
  destruct (less x y); [done|]. rewrite IH. constructor.
Qed.

Lemma sort_slice_perm l : sort_slice l ≡ₚ l.
Proof.
  unfold sort_slice. rewrite <- (app_nil_r l) at 2. generalize (@nil A).
  induction l as [|x l IH]; intros acc; simpl; [done|].
  rewrite IH, insert_sorted_perm. by rewrite Permutation_middle.
Qed.

Lemma elem_of_sort_slice x l : x ∈ sort_slice l <-> x ∈ l.
Proof. by rewrite sort_slice_perm. Qed.

Lemma sort_slice_length l : length (sort_slice l) = length l.
Proof. by rewrite sort_slice_perm. Qed.

(** [less] need only be a strict weak order on the elements at hand. *)
Context (P : A -> Prop).
Hypothesis less_asym : forall a b, P a -> P b -> less a b = true -> less b a = false.
Hypothesis le_of_trans : forall a b c, P a -> P b -> P c -> le_of a b -> le_of b c -> le_of a c.

Lemma insert_sorted_sorted x l :
  P x -> Forall P l -> StronglySorted le_of l -> StronglySorted le_of (insert_sorted x l).
Proof.
  intros Hx. induction l as [|y l IH]; simpl; intros HP Hs.
  - repeat constructor.
  - apply Forall_cons in HP as [Hy HP]. inversion_clear Hs as [|? ? Hs' Hall].
    destruct (less x y) eqn:E.
    + constructor; [by constructor|]. constructor; [by apply less_asym|].
      rewrite Forall_forall in Hall, HP |- *. intros z Hz.
      eapply le_of_trans; eauto. by apply less_asym.
    + constructor; [by apply IH|]. rewrite insert_sorted_perm. by constructor.
Qed.

Lemma sort_slice_sorted l : Forall P l -> StronglySorted le_of (sort_slice l).
Proof.
  unfold sort_slice.
  assert (Hgen : forall acc, Forall P l -> Forall P acc -> StronglySorted le_of acc ->
    StronglySorted le_of (fold_left (fun acc x => insert_sorted x acc) l acc)).
  { induction l as [|x l IH]; intros acc Hl Hacc Hs; simpl; [done|].
    apply Forall_cons in Hl as [Hx Hl]. apply IH; [done| |by apply insert_sorted_sorted].
    rewrite insert_sorted_perm. by constructor. }
  intros Hl. apply Hgen; [done|by constructor|by constructor].
Qed.

Lemma sort_slice_head_min x l l' :
  Forall P l -> sort_slice l = x :: l' -> forall y, y ∈ l -> y = x \/ less y x = false.
Proof.
  intros HP Heq y Hy. pose proof (sort_slice_sorted l HP) as Hs.
  apply elem_of_sort_slice in Hy. rewrite Heq in Hs, Hy.
  inversion_clear Hs as [|? ? _ Hall]. apply elem_of_cons in Hy as [->|Hy]; [by left|].
  right. rewrite Forall_forall in Hall. by apply Hall.
Qed.
End SortSlice.

(** A sorted permutation is unique when [less] separates distinct elements. *)
Lemma sorted_perm_unique {A} (less : A -> A -> bool) (l1 l2 : list A) :
  StronglySorted (le_of less) l1 -> StronglySorted (le_of less) l2 -> l1 ≡ₚ l2 ->
  (forall a b, a ∈ l1 -> b ∈ l1 -> le_of less a b -> le_of less b a -> a = b) ->
  l1 = l2.
Proof.
  intros H1. revert l2. induction H1 as [|x l1 H1 IH Hx]; intros l2 H2 Hp Hanti.
  - by apply Permutation_nil in Hp.
  - destruct l2 as [|y l2]; [by symmetry in Hp; apply Permutation_nil_cons in Hp|].
    inversion_clear H2 as [|? ? H2' Hy].
    assert (x = y) as ->.
    { assert (y ∈ x :: l1) as Hyin by (rewrite Hp; left).
      assert (x ∈ y :: l2) as Hxin by (rewrite <- Hp; left).
      apply elem_of_cons in Hyin as [->|Hyin]; [done|].
      apply elem_of_cons in Hxin as [->|Hxin]; [done|].
      rewrite Forall_forall in Hx, Hy.
      apply Hanti; [left|by right|by apply Hx|by apply Hy]. }
    f_equal. apply IH; [done|by apply Permutation_cons_inv in Hp|].
    intros a b Ha Hb. apply Hanti; by right.
Qed.

(** ** String order *)

Fixpoint lex_ltb (l1 l2 : list Z) : bool :=
  match l1, l2 with
  | _, [] => false
  | [], _ :: _ => true
  | a :: l1', b :: l2' => (a <? b) || ((a =? b) && lex_ltb l1' l2')
  end.

(** Go's [s < t]: bytewise lexicographic. *)
Definition str_ltb (s t : string) : bool := lex_ltb (bytes s) (bytes t).

Lemma lex_ltb_irrefl l : lex_ltb l l = false.
Proof. induction l; simpl; [done|]. rewrite IHl. lia. Qed.

Lemma lex_ltb_asym l1 l2 : lex_ltb l1 l2 = true -> lex_ltb l2 l1 = false.
Proof.
  revert l2. induction l1 as [|a l1 IH]; intros [|b l2]; simpl; try done.
  specialize (IH l2). destruct (lex_ltb l1 l2), (lex_ltb l2 l1);
    try (specialize (IH eq_refl)); try done; lia.
Qed.

Lemma lex_ltb_trans l1 l2 l3 : lex_ltb l1 l2 = true -> lex_ltb l2 l3 = true -> lex_ltb l1 l3 = true.
Proof.
  revert l2 l3. induction l1 as [|a l1 IH]; intros [|b l2] [|c l3]; simpl; try done.
  specialize (IH l2 l3). destruct (lex_ltb l1 l2), (lex_ltb l2 l3), (lex_ltb l1 l3);
    try (specialize (IH eq_refl eq_refl)); try done; lia.
Qed.

Lemma lex_ltb_total l1 l2 : lex_ltb l1 l2 = false -> lex_ltb l2 l1 = false -> l1 = l2.
Proof.
  revert l2. induction l1 as [|a l1 IH]; intros [|b l2]; simpl; try done.
  intros H1 H2. bsimpl. assert (a = b) as -> by lia.
  rewrite Z.eqb_refl in *. simpl in *. f_equal. by apply IH.
Qed.

Lemma str_ltb_irrefl s : str_ltb s s = false.
Proof. apply lex_ltb_irrefl. Qed.
Lemma str_ltb_asym s t : str_ltb s t = true -> str_ltb t s = false.
Proof. apply lex_ltb_asym. Qed.
Lemma str_ltb_total s t : str_ltb s t = false -> str_ltb t s = false -> s = t.
Proof. intros H1 H2. by apply bytes_inj, lex_ltb_total. Qed.
Lemma str_le_trans r s t : str_ltb s r = false -> str_ltb t s = false -> str_ltb t r = false.
Proof.
  intros H1 H2. destruct (str_ltb t r) eqn:E; [|done].
  destruct (str_ltb s t) eqn:E'.
  - unfold str_ltb in *. by rewrite (lex_ltb_trans _ _ _ E' E) in H1.
  - by rewrite (str_ltb_total s t E' H2) in H1; rewrite H1 in E.
Qed.

(** [sort.Strings] and [slices.Sort] on strings. *)
Definition sort_strings (l : list string) : list string := sort_slice str_ltb l.

(** [sort.Slice(l, func(i, j) { return l[i].key < l[j].key })]. *)
Definition sort_by {A} (key : A -> string) (l : list A) : list A :=
  sort_slice (fun a b => str_ltb (key a) (key b)) l.

Section SortBy.
Context {A : Type} (key : A -> string).
Local Abbreviation lessk := (fun a b => str_ltb (key a) (key b)).

Lemma sort_by_perm l : sort_by key l ≡ₚ l.
Proof. apply sort_slice_perm. Qed.

Lemma elem_of_sort_by x l : x ∈ sort_by key l <-> x ∈ l.
Proof. apply elem_of_sort_slice. Qed.

Lemma sort_by_sorted l : StronglySorted (le_of lessk) (sort_by key l).
Proof.
  apply (sort_slice_sorted _ (fun _ => True)); [| |by apply Forall_true].
  - intros a b _ _. apply str_ltb_asym.
  - intros a b c _ _ _. apply str_le_trans.
Qed.

(** Elements with distinct keys are sorted into one order, whatever order a
    map iteration delivers them in. *)
Lemma sort_by_unique l1 l2 :
  l1 ≡ₚ l2 -> (forall a b, a ∈ l1 -> b ∈ l1 -> key a = key b -> a = b) ->
  sort_by key l1 = sort_by key l2.
Proof.
  intros Hp Hinj. apply (sorted_perm_unique lessk); try apply sort_by_sorted.
  - by rewrite !sort_by_perm.
  - intros a b Ha Hb H1 H2. rewrite elem_of_sort_by in Ha, Hb.
    apply Hinj; [done|done|]. by apply str_ltb_total.
Qed.
End SortBy.

Lemma sort_strings_perm l : sort_strings l ≡ₚ l.
Proof. apply sort_slice_perm. Qed.
Lemma elem_of_sort_strings x l : x ∈ sort_strings l <-> x ∈ l.
Proof. apply elem_of_sort_slice. Qed.
Lemma sort_strings_sorted l : StronglySorted (le_of str_ltb) (sort_strings l).
Proof. apply (sort_by_sorted id). Qed.
Lemma sort_strings_unique l1 l2 : l1 ≡ₚ l2 -> sort_strings l1 = sort_strings l2.
Proof. intros Hp. by apply (sort_by_unique id). Qed.

#[export] Hint Resolve sort_strings_perm sort_by_perm : go.
#[export] Hint Rewrite @elem_of_sort_by elem_of_sort_strings : go.

(** The keys of a Go set, sorted. *)
Definition sorted_keys (s : gset string) : list string := sort_strings (elements s).

Lemma elem_of_sorted_keys x s : x ∈ sorted_keys s <-> x ∈ s.
Proof. unfold sorted_keys. by rewrite elem_of_sort_strings, elem_of_elements. Qed.

Lemma sorted_keys_nodup s : NoDup (sorted_keys s).
Proof. unfold sorted_keys. rewrite sort_strings_perm. apply NoDup_elements. Qed.
