(* ===== verification/GoFloat.v ===== *)
(** * Go's [float64]: IEEE 754 binary64 with the kernel's primitive floats

    Each Go operation is one correctly rounded operation.  The Go language allows
    an implementation to fuse [x*y + z]; the definitions here round every
    operation, as the amd64 compiler does.  Converting an out-of-range or NaN
    float to [int64] is implementation-defined and gives the smallest [int64], as
    on amd64. *)

From Stdlib Require Export Floats.
From S2P Require Import Prelude GoSort.

Abbreviation float := PrimFloat.float.

(** [float64(n)] for an integer: round to nearest even. *)
Definition float_of_Z (n : Z) : float :=
  SF2Prim (SpecFloat.binary_normalize FloatOps.prec FloatOps.emax n 0 false).

(** [int64(f)]: truncation toward zero. *)
Definition Z_of_float (f : float) : Z :=
  match Prim2SF f with
  | S754_zero _ => 0
  | S754_finite s m e =>
      let a := if 0 <=? e then Z.pos m * 2 ^ e else Z.quot (Z.pos m) (2 ^ (- e)) in
      let z := if s then - a else a in
      if bool_decide (in_int64 z) then z else min_int64
  | _ => min_int64
  end.

Definition fadd (a b : float) : float := PrimFloat.add a b.
Definition fsub (a b : float) : float := PrimFloat.sub a b.
Definition fmul (a b : float) : float := PrimFloat.mul a b.
Definition fdiv (a b : float) : float := PrimFloat.div a b.
Definition flt (a b : float) : bool := PrimFloat.ltb a b.
Definition fle (a b : float) : bool := PrimFloat.leb a b.
Definition fgt (a b : float) : bool := PrimFloat.ltb b a.

Infix "+f" := fadd (at level 50, left associativity) : go_scope.
Infix "-f" := fsub (at level 50, left associativity) : go_scope.
Infix "*f" := fmul (at level 40, left associativity) : go_scope.
Infix "/f" := fdiv (at level 40, left associativity) : go_scope.

Definition f0 : float := 0%float.

(** [time.Duration.Seconds]. *)
Definition duration_seconds (d : Z) : float :=
  float_of_Z (Z.quot d second) +f float_of_Z (Z.rem d second) /f float_of_Z second.

(** ** The order on floats that are not NaN *)

Definition not_nan (f : float) : Prop := Prim2SF f <> S754_nan.

(** Comparison is lexicographic on this key. *)
Definition sf_key (f : spec_float) : list Z :=
  match f with
  | S754_nan => []
  | S754_infinity true => [-2; 0; 0]
  | S754_infinity false => [2; 0; 0]
  | S754_zero _ => [0; 0; 0]
  | S754_finite true m e => [-1; - e; - Z.pos m]
  | S754_finite false m e => [1; e; Z.pos m]
  end.

Lemma lex3 a1 a2 a3 b1 b2 b3 :
  lex_ltb [a1; a2; a3] [b1; b2; b3]
  = (a1 <? b1) || ((a1 =? b1) && ((a2 <? b2) || ((a2 =? b2) && (a3 <? b3)))).
Proof. simpl. by rewrite andb_false_r, orb_false_r. Qed.

Lemma sf_ltb_key x y :
  x <> S754_nan -> y <> S754_nan -> SFltb x y = lex_ltb (sf_key x) (sf_key y).
Proof.
  intros Hx Hy.
  destruct x as [[]|[]| |[] m1 e1], y as [[]|[]| |[] m2 e2]; try done;
    unfold SFltb; cbn [SFcompare sf_key]; rewrite lex3;
    change (Pos.compare_cont Eq m1 m2) with (Pos.compare m1 m2);
    destruct (Z.compare_spec e1 e2); destruct (Pos.compare_spec m1 m2); subst; cbn; try done; lia.
Qed.

Lemma flt_key a b :
  not_nan a -> not_nan b -> flt a b = lex_ltb (sf_key (Prim2SF a)) (sf_key (Prim2SF b)).
Proof.
  intros Ha Hb. unfold flt. rewrite FloatAxioms.ltb_spec. by apply sf_ltb_key.
Qed.

Lemma lex_le_trans l1 l2 l3 : lex_ltb l2 l1 = false -> lex_ltb l3 l2 = false -> lex_ltb l3 l1 = false.
Proof.
  intros H1 H2. destruct (lex_ltb l3 l1) eqn:E; [|done].
  destruct (lex_ltb l2 l3) eqn:E'.
  - by rewrite (lex_ltb_trans _ _ _ E' E) in H1.
  - rewrite (lex_ltb_total _ _ E' H2) in H1. congruence.
Qed.

Lemma flt_asym a b : not_nan a -> not_nan b -> flt a b = true -> flt b a = false.
Proof. intros Ha Hb. rewrite !flt_key by done. apply lex_ltb_asym. Qed.

Lemma fle_trans a b c :
  not_nan a -> not_nan b -> not_nan c -> flt b a = false -> flt c b = false -> flt c a = false.
Proof. intros Ha Hb Hc. rewrite !flt_key by done. apply lex_le_trans. Qed.

(** A boolean test for [not_nan]. *)
Definition is_nan (f : float) : bool :=
  match Prim2SF f with S754_nan => true | _ => false end.

Lemma is_nan_false f : is_nan f = false -> not_nan f.
Proof. unfold is_nan, not_nan. by destruct (Prim2SF f). Qed.
