(* ===== verification/GoFormat.v ===== *)
(** * Formatting numbers: Go's [strconv.FormatFloat]

    [format_float] is [FormatFloat(f, 'f', -1, 64)]: the shortest decimal that reads back as
    the same float, the nearest one of that length, ties to an even last digit, written
    without an exponent.  [format_float2] is [FormatFloat(f, 'f', 2, 64)]. *)

From S2P Require Import Prelude GoString GoSort GoFloat.

(** A decimal [q * 10^s] as text. *)
Definition zeros (n : Z) : list Z := replicate (Z.to_nat n) 48.
Definition decimal_bytes (q s : Z) : list Z :=
  let ds := digits_from 320 q [] in
  if 0 <=? s then ds ++ zeros s
  else
    let ds := zeros (- s + 1 - Z.of_nat (length ds)) ++ ds in
    let point := (length ds - Z.to_nat (- s))%nat in
    take point ds ++ 46 :: drop point ds.

Definition signed (s : bool) (l : list Z) : list Z := if s then 45 :: l else l.

(** The multiples of [10^s] around [v/d] within the interval of the floats that round to it,
    [lo/d] to [hi/d], its ends included when [closed]; the nearest, if there is one. *)
Definition decimal_at (s v lo hi d : Z) (closed : bool) : option Z :=
  let '(v, lo, hi, d) := if 0 <=? s then (v, lo, hi, d * 10 ^ s) else (v * 10 ^ (- s), lo * 10 ^ (- s), hi * 10 ^ (- s), d) in
  let inside q := if closed then (lo <=? q * d) && (q * d <=? hi) else (lo <? q * d) && (q * d <? hi) in
  let q := v / d in
  let below := (0 <? q) && inside q in
  let above := inside (q + 1) in
  let rest := 2 * (v - q * d) in
  if below && above then Some (if (rest <? d) || ((rest =? d) && Z.even q) then q else q + 1)
  else if below then Some q
  else if above then Some (q + 1)
  else None.

(** The largest power of ten with a decimal in the interval gives the fewest digits. *)
Fixpoint shortest (fuel : nat) (s v lo hi d : Z) (closed : bool) : Z * Z :=
  match fuel with
  | O => (v, 0)
  | S n => match decimal_at s v lo hi d closed with Some q => (q, s) | None => shortest n (s - 1) v lo hi d closed end
  end.

(** Four times the float and the ends of its rounding interval, over a common denominator. *)
Definition rounding_interval (m e : Z) : Z * Z * Z * Z :=
  let v := 4 * m in
  let hi := 4 * m + 2 in
  let lo := if (m =? 2 ^ 52) && (-1074 <? e) then 4 * m - 1 else 4 * m - 2 in
  if 2 <=? e then (v * 2 ^ (e - 2), lo * 2 ^ (e - 2), hi * 2 ^ (e - 2), 1) else (v, lo, hi, 2 ^ (2 - e)).

Definition format_float_bytes (f : float) : list Z :=
  match Prim2SF f with
  | S754_nan => bytes "NaN"
  | S754_infinity s => bytes (if s then "-Inf" else "+Inf")
  | S754_zero s => signed s [48]
  | S754_finite sign m e =>
      let '(v, lo, hi, d) := rounding_interval (Z.pos m) e in
      let '(q, s) := shortest 700 309 v lo hi d (Z.even (Z.pos m)) in
      signed sign (decimal_bytes q s)
  end.
Definition format_float (f : float) : string := of_bytes (format_float_bytes f).

(** Two decimals, exact ties to even. *)
Definition format_float2_bytes (f : float) : list Z :=
  match Prim2SF f with
  | S754_nan => bytes "NaN"
  | S754_infinity s => bytes (if s then "-Inf" else "+Inf")
  | S754_zero s => signed s (bytes "0.00")
  | S754_finite sign m e =>
      let '(n, d) := if 0 <=? e then (Z.pos m * 2 ^ e * 100, 1) else (Z.pos m * 100, 2 ^ (- e)) in
      let q := n / d in
      let rest := 2 * (n - q * d) in
      let q := if (rest <? d) || ((rest =? d) && Z.even q) then q else q + 1 in
      signed sign (decimal_bytes q (-2))
  end.
Definition format_float2 (f : float) : string := of_bytes (format_float2_bytes f).

Example format_float_tenth : format_float (PrimFloat.div 1 10) = "0.1".
Proof. vm_compute. reflexivity. Qed.
Example format_float_third : format_float (PrimFloat.div 1 3) = "0.3333333333333333".
Proof. vm_compute. reflexivity. Qed.
Example format_float_large : format_float (float_of_Z (10 ^ 23)) = "100000000000000000000000".
Proof. vm_compute. reflexivity. Qed.
Example format_float_half : format_float (PrimFloat.opp (PrimFloat.div 247 2)) = "-123.5".
Proof. vm_compute. reflexivity. Qed.
Example format_float2_ties : format_float2 (PrimFloat.div 1 8) = "0.12" /\ format_float2 (PrimFloat.div 3 8) = "0.38"
  /\ format_float2 (float_of_Z 42) = "42.00".
Proof. vm_compute. split_and!; reflexivity. Qed.

(** ** A number is printed in ASCII, without line breaks *)

Definition printable (l : list Z) : Prop := Forall (fun b => 32 <= b < 128) l.

#[export] Instance printable_dec l : Decision (printable l).
Proof. unfold printable. apply _. Defined.

Lemma printable_app l1 l2 : printable (l1 ++ l2) <-> printable l1 /\ printable l2.
Proof. apply Forall_app. Qed.

Lemma printable_cons b l : printable (b :: l) <-> 32 <= b < 128 /\ printable l.
Proof. unfold printable. split; [by inversion 1|intros []; by constructor]. Qed.

Lemma digits_printable fuel z acc : 0 <= z -> printable acc -> printable (digits_from fuel z acc).
Proof.
  revert z acc. induction fuel as [|n IH]; intros z acc Hz Ha; [done|]. simpl. destruct (z <? 10) eqn:E; bsimpl.
  - apply printable_cons. split; [lia|done].
  - apply IH; [apply Z.div_pos; lia|]. apply printable_cons. split; [|done].
    pose proof (Z.mod_pos_bound z 10). lia.
Qed.

Lemma itoa_printable z : printable (itoa_bytes z).
Proof.
  unfold itoa_bytes. destruct (z <? 0) eqn:E; bsimpl; [apply printable_cons; split; [lia|]|];
    (apply digits_printable; [lia|constructor]).
Qed.

Lemma decimal_printable q s : 0 <= q -> printable (decimal_bytes q s).
Proof.
  intros Hq. assert (Hd : printable (digits_from 320 q [])) by (apply digits_printable; [done|constructor]).
  assert (Hz : forall n, printable (zeros n)) by (intros n; apply Forall_replicate; lia).
  unfold decimal_bytes. destruct (0 <=? s); [by apply printable_app|].
  set (ds := zeros _ ++ _). assert (printable ds) by (by apply printable_app).
  apply printable_app. split; [by apply Forall_take|]. apply printable_cons. split; [lia|]. by apply Forall_drop.
Qed.

Lemma shortest_nonneg fuel s v lo hi d closed : 0 <= v -> 0 < d -> 0 <= fst (shortest fuel s v lo hi d closed).
Proof.
  intros Hv Hd. revert s. induction fuel as [|n IH]; intros s; [done|]. simpl.
  destruct (decimal_at s v lo hi d closed) as [q|] eqn:E; [|apply IH]. simpl. revert E. unfold decimal_at.
  set (x := if 0 <=? s then _ else _). assert (Hx : 0 <= x.1.1.1 /\ 0 < x.2).
  { subst x. destruct (0 <=? s) eqn:Es; bsimpl; simpl; [split; [done|]; apply Z.mul_pos_pos; [done|]; apply Z.pow_pos_nonneg; lia|].
    split; [|done]. apply Z.mul_nonneg_nonneg; [done|]. apply Z.pow_nonneg. lia. }
  destruct x as [[[v' lo'] hi'] d']. simpl in Hx. assert (0 <= v' / d') by (apply Z.div_pos; lia).
  repeat case_goal; intros [= <-]; lia.
Qed.

Lemma format_float_printable f : printable (format_float_bytes f).
Proof.
  unfold format_float_bytes. destruct (Prim2SF f) as [s|s| |sign m e];
    [apply (bool_decide_unpack _); by destruct s..|apply (bool_decide_unpack _); done|].
  destruct (rounding_interval (Z.pos m) e) as [[[v lo] hi] d] eqn:Er.
  assert (Hvd : 0 <= v /\ 0 < d).
  { unfold rounding_interval in Er. destruct (2 <=? e) eqn:Ee; bsimpl; injection Er as <- _ _ <-.
    - split; [|lia]. apply Z.mul_nonneg_nonneg; [lia|]. apply Z.pow_nonneg. lia.
    - split; [lia|]. apply Z.pow_pos_nonneg; lia. }
  pose proof (shortest_nonneg 700 309 v lo hi d (Z.even (Z.pos m)) (proj1 Hvd) (proj2 Hvd)) as Hq.
  destruct (shortest _ _ _ _ _ _ _) as [q s]. simpl in Hq.
  unfold signed. destruct sign; [apply printable_cons; split; [lia|]|]; by apply decimal_printable.
Qed.
