(* ===== verification/Sha256.v ===== *)
(** * SHA-256: Go's [crypto/sha256]

    FIPS 180-4 on 32-bit words held in [Z].  The ledgers hash their events with
    it and the market stores API keys and tokens as hex digests. *)

From S2P Require Import Prelude GoString.

Definition w32 (z : Z) : Z := Z.land z 4294967295.
Definition rotr (n x : Z) : Z := Z.lor (Z.shiftr x n) (w32 (Z.shiftl x (32 - n))).

(** Fractional parts of the cube roots of the first 64 primes. *)
Definition sha_k : list Z :=
  [ 1116352408; 1899447441; 3049323471; 3921009573; 961987163; 1508970993; 2453635748; 2870763221;
    3624381080; 310598401; 607225278; 1426881987; 1925078388; 2162078206; 2614888103; 3248222580;
    3835390401; 4022224774; 264347078; 604807628; 770255983; 1249150122; 1555081692; 1996064986;
    2554220882; 2821834349; 2952996808; 3210313671; 3336571891; 3584528711; 113926993; 338241895;
    666307205; 773529912; 1294757372; 1396182291; 1695183700; 1986661051; 2177026350; 2456956037;
    2730485921; 2820302411; 3259730800; 3345764771; 3516065817; 3600352804; 4094571909; 275423344;
    430227734; 506948616; 659060556; 883997877; 958139571; 1322822218; 1537002063; 1747873779;
    1955562222; 2024104815; 2227730452; 2361852424; 2428436474; 2756734187; 3204031479; 3329325298 ].

(** Fractional parts of the square roots of the first 8 primes. *)
Definition sha_h0 : list Z :=
  [ 1779033703; 3144134277; 1013904242; 2773480762; 1359893119; 2600822924; 528734635; 1541459225 ].

Definition sig0 (x : Z) : Z := Z.lxor (Z.lxor (rotr 7 x) (rotr 18 x)) (Z.shiftr x 3).
Definition sig1 (x : Z) : Z := Z.lxor (Z.lxor (rotr 17 x) (rotr 19 x)) (Z.shiftr x 10).
Definition bsig0 (x : Z) : Z := Z.lxor (Z.lxor (rotr 2 x) (rotr 13 x)) (rotr 22 x).
Definition bsig1 (x : Z) : Z := Z.lxor (Z.lxor (rotr 6 x) (rotr 11 x)) (rotr 25 x).
Definition ch (x y z : Z) : Z := Z.lxor (Z.land x y) (Z.land (w32 (Z.lnot x)) z).
Definition maj (x y z : Z) : Z := Z.lxor (Z.lxor (Z.land x y) (Z.land x z)) (Z.land y z).

(** Message padding: 0x80, zeros, and the bit length in eight bytes. *)
Definition be_bytes (n : nat) (z : Z) : list Z :=
  (fun i => Z.land (Z.shiftr z (8 * Z.of_nat i)) 255) <$> rev (seq 0 n).

Definition sha_pad (msg : list Z) : list Z :=
  let n := Z.of_nat (length msg) in
  msg ++ [128] ++ replicate (Z.to_nat ((55 - n) mod 64)) 0 ++ be_bytes 8 (8 * n).

Fixpoint words (l : list Z) : list Z :=
  match l with
  | a :: b :: c :: d :: l' =>
      Z.lor (Z.lor (Z.shiftl a 24) (Z.shiftl b 16)) (Z.lor (Z.shiftl c 8) d) :: words l'
  | _ => []
  end.

(** The message schedule, newest word first. *)
Fixpoint schedule_from (n : nat) (w : list Z) : list Z :=
  match n with
  | O => w
  | S n' =>
      let at_ i := nth i w 0 in
      schedule_from n' (w32 (sig1 (at_ 1%nat) + at_ 6%nat + sig0 (at_ 14%nat) + at_ 15%nat) :: w)
  end.
Definition schedule (block : list Z) : list Z := rev (schedule_from 48 (rev (words block))).

Definition sha_round (st : list Z) (kw : Z * Z) : list Z :=
  match st with
  | [a; b; c; d; e; f; g; h] =>
      let t1 := h + bsig1 e + ch e f g + kw.1 + kw.2 in
      let t2 := bsig0 a + maj a b c in
      [w32 (t1 + t2); a; b; c; w32 (d + t1); e; f; g]
  | _ => st
  end.

Definition sha_block (h : list Z) (block : list Z) : list Z :=
  zip_with (fun a b => w32 (a + b)) h (fold_left sha_round (zip sha_k (schedule block)) h).

Fixpoint sha_blocks (fuel : nat) (h : list Z) (l : list Z) : list Z :=
  match fuel, l with
  | S n, _ :: _ => sha_blocks n (sha_block h (take 64 l)) (drop 64 l)
  | _, _ => h
  end.

(** [sha256.Sum256]: the padded message has at most one block per byte plus two. *)
Definition sha256 (msg : list Z) : list Z :=
  flat_map (be_bytes 4) (sha_blocks (length msg + 2) sha_h0 (sha_pad msg)).

(** [hex.EncodeToString(sum[:])]. *)
Definition sha256_hex (msg : list Z) : string := hex_of_bytes (sha256 msg).

(** The digest is 32 bytes, whatever the message. *)
Lemma sha_round_length st kw : length st = 8%nat -> length (sha_round st kw) = 8%nat.
Proof. intros H. do 9 (destruct st as [|? st]; [done|]). done. Qed.

Lemma sha_blocks_length fuel h l : length h = 8%nat -> length (sha_blocks fuel h l) = 8%nat.
Proof.
  assert (Hfold : forall kws st, length st = 8%nat -> length (fold_left sha_round kws st) = 8%nat).
  { induction kws as [|kw kws IH]; intros st Hst; simpl; [done|]. by apply IH, sha_round_length. }
  revert h l. induction fuel as [|n IH]; intros h l Hh; simpl; [done|].
  destruct l; [done|]. apply IH. unfold sha_block. rewrite length_zip_with, Hfold by done. lia.
Qed.

Lemma be_bytes_range n z : Forall (fun b => 0 <= b < 256) (be_bytes n z).
Proof.
  unfold be_bytes. apply Forall_fmap, Forall_forall. intros i _. simpl.
  change 255 with (Z.ones 8). rewrite Z.land_ones by lia. apply Z.mod_pos_bound. lia.
Qed.

Lemma sha256_bytes msg : length (sha256 msg) = 32%nat /\ Forall (fun b => 0 <= b < 256) (sha256 msg).
Proof.
  unfold sha256. generalize (sha_blocks_length (length msg + 2) sha_h0 (sha_pad msg) eq_refl).
  generalize (sha_blocks (length msg + 2) sha_h0 (sha_pad msg)). intros l Hl. split.
  - assert (H : forall l, length (flat_map (be_bytes 4) l) = (4 * length l)%nat).
    { induction l0 as [|x l0 IH]; simpl; [done|]. rewrite IH. lia. }
    rewrite H, Hl. done.
  - clear Hl. induction l as [|x l IH]; [constructor|]. cbn [flat_map]. apply Forall_app. split; [apply be_bytes_range|done].
Qed.

(** A hex digest: 64 characters among 0-9 and a-f. *)
Definition hex_char (b : Z) : Prop := 48 <= b <= 57 \/ 97 <= b <= 102.
Definition is_digest (s : string) : Prop := length (bytes s) = 64%nat /\ Forall hex_char (bytes s).

Lemma hex_digit_char z : 0 <= z < 16 -> hex_char (byte_val (hex_digit z)).
Proof. intros H. unfold hex_char, hex_digit. destruct (z <? 10) eqn:E; bsimpl; rewrite byte_val_of by lia; lia. Qed.

Lemma hex_of_bytes_chars l : Forall (fun b => 0 <= b < 256) l ->
  length (bytes (hex_of_bytes l)) = (2 * length l)%nat /\ Forall hex_char (bytes (hex_of_bytes l)).
Proof.
  induction 1 as [|b l Hr Hf [IH1 IH2]]; [done|]. cbn [hex_of_bytes bytes length]. split; [lia|].
  constructor; [|constructor; [|done]]; apply hex_digit_char.
  - split; [apply Z.div_pos; lia|apply Z.div_lt_upper_bound; lia].
  - apply Z.mod_pos_bound. lia.
Qed.

Lemma sha256_hex_digest msg : is_digest (sha256_hex msg).
Proof.
  unfold sha256_hex, is_digest. destruct (sha256_bytes msg) as [Hl Hb]. destruct (hex_of_bytes_chars _ Hb) as [-> ?]. by rewrite Hl.
Qed.

#[global] Arguments sha256 : simpl never.
#[global] Arguments sha256_hex : simpl never.
#[global] Opaque sha256.

(** FIPS test vectors. *)
Example sha256_abc :
  sha256_hex (bytes "abc") = "ba7816bf8f01cfea414140de5dae2223b00361a396177a9cb410ff61f20015ad".
Proof. vm_compute. reflexivity. Qed.

Example sha256_empty :
  sha256_hex [] = "e3b0c44298fc1c149afbf4c8996fb92427ae41e4649b934ca495991b7852b855".
Proof. vm_compute. reflexivity. Qed.

Example sha256_two_blocks :
  sha256_hex (bytes "abcdbcdecdefdefgefghfghighijhijkijkljklmklmnlmnomnopnopq")
  = "248d6a61d20638b8e5c026930c3e6039a33ce45964ff2167f6ecedd419db06c1".
Proof. vm_compute. reflexivity. Qed.
