(* ===== verification/Json.v ===== *)
(** * The JSON text of the ledgers' events: what [json.Marshal] writes

    Strings are escaped as [encoding/json] does with HTML escaping on: the quote and the
    backslash, control characters, [<], [>], [&], U+2028 and U+2029 are escaped, an
    invalid byte becomes [\ufffd], everything else is copied.  Integers are decimal,
    booleans are words, instants are RFC 3339 in UTC with up to nine fractional
    digits and no trailing zeros.  An object is its fields in order, those that
    [omitempty] drops left out. *)

From S2P Require Import Prelude GoString Sha256.

(** ** Scalars *)

Definition quote : Z := 34.

(** The escaped form of one rune, given its raw bytes. *)
Definition json_escape (seg : Z * list Z) : list Z :=
  let '(r, raw) := seg in
  if r <? 128 then
    if (r =? 34) || (r =? 92) then [92; r]
    else if r =? 8 then [92; 98]
    else if r =? 12 then [92; 102]
    else if r =? 10 then [92; 110]
    else if r =? 13 then [92; 114]
    else if r =? 9 then [92; 116]
    else if (r <? 32) || (r =? 60) || (r =? 62) || (r =? 38)
      then [92; 117; 48; 48; byte_val (hex_digit (r / 16)); byte_val (hex_digit (r mod 16))]
    else [r]
  else match raw with
  | [_] => bytes "\ufffd"
  | _ => if r =? 8232 then bytes "\u2028" else if r =? 8233 then bytes "\u2029" else raw
  end.

Definition json_string (s : string) : list Z := quote :: flat_map json_escape (segments s) ++ [quote].
#[global] Arguments json_string : simpl never.
Definition json_bool (b : bool) : list Z := bytes (if b then "true" else "false").
Definition json_int (z : Z) : list Z := itoa_bytes z.

(** ** Instants *)

Definition nanos_per_day : Z := 86400000000000.

(** Year, month and day of a day number; day 0 is 0001-01-01 (Gregorian). *)
Definition civil (day : Z) : Z * Z * Z :=
  let z := day + 306 in
  let era := z / 146097 in
  let doe := z mod 146097 in
  let yoe := (doe - doe / 1460 + doe / 36524 - doe / 146096) / 365 in
  let doy := doe - (365 * yoe + yoe / 4 - yoe / 100) in
  let mp := (5 * doy + 2) / 153 in
  let d := doy - (153 * mp + 2) / 5 + 1 in
  let m := if mp <? 10 then mp + 3 else mp - 9 in
  (yoe + era * 400 + (if m <=? 2 then 1 else 0), m, d).

(** [n] decimal digits with leading zeros. *)
Fixpoint pad_digits (n : nat) (z : Z) : list Z :=
  match n with
  | O => []
  | S k => pad_digits k (z / 10) ++ [48 + z mod 10]
  end.

Fixpoint strip_zeros (rev_digits : list Z) : list Z :=
  match rev_digits with
  | d :: l => if d =? 48 then strip_zeros l else rev_digits
  | [] => []
  end.

(** The fraction of a second, empty when it is zero. *)
Definition fraction (nanos : Z) : list Z :=
  match strip_zeros (rev (pad_digits 9 nanos)) with
  | [] => []
  | l => 46 :: rev l
  end.

(** Date, time of day and fraction of the instant that a clock shows. *)
Definition date_text (t : Time) : list Z :=
  let '(y, m, d) := civil (t / nanos_per_day) in
  let s := t mod nanos_per_day / second in
  pad_digits 4 y ++ [45] ++ pad_digits 2 m ++ [45] ++ pad_digits 2 d ++ [84]
  ++ pad_digits 2 (s / 3600) ++ [58] ++ pad_digits 2 (s / 60 mod 60) ++ [58] ++ pad_digits 2 (s mod 60)
  ++ fraction (t mod second).

(** [Z07:00] of an offset from UTC in seconds. *)
Definition zone_text (offset : Z) : list Z :=
  if offset =? 0 then [90]
  else (if offset <? 0 then 45 else 43) :: pad_digits 2 (Z.abs offset / 3600) ++ [58] ++ pad_digits 2 (Z.abs offset / 60 mod 60).

(** [t.UTC().Format(time.RFC3339Nano)]. *)
Definition rfc3339 (t : Time) : list Z := date_text t ++ [90].

(** [t.Format(time.RFC3339Nano)] in a zone: the clock of the zone, then the offset. *)
Definition rfc3339_at (offset : Z) (t : Time) : list Z := date_text (t + offset * second) ++ zone_text offset.

(** [time.Time.MarshalJSON] fails outside the years 0 to 9999. *)
Definition time_in_range (t : Time) : bool :=
  let '(y, _, _) := civil (t / nanos_per_day) in (0 <=? y) && (y <=? 9999).

Definition json_time (t : Time) : list Z := quote :: rfc3339 t ++ [quote].

(** ** Objects *)

(** A field: its name and, unless it is omitted, its value. *)
Definition field : Type := string * option (list Z).

Definition omitempty_string (s : string) : option (list Z) := if s =s "" then None else Some (json_string s).
Definition omitempty_int (z : Z) : option (list Z) := if z =? 0 then None else Some (json_int z).

Definition json_fields (fs : list field) : list (list Z) :=
  omap (fun f => match f.2 with Some v => Some (json_string f.1 ++ 58 :: v) | None => None end) fs.

Fixpoint comma_sep (l : list (list Z)) : list Z :=
  match l with
  | [] => []
  | [x] => x
  | x :: l' => x ++ 44 :: comma_sep l'
  end.

Definition json_object (fs : list field) : list Z := 123 :: comma_sep (json_fields fs) ++ [125].

(** ** Tests *)

Example rfc3339_epoch : of_bytes (rfc3339 (62135596800 * second)) = "1970-01-01T00:00:00Z".
Proof. vm_compute. reflexivity. Qed.
Example rfc3339_leap : of_bytes (rfc3339 (63844847999 * second + 120000000)) = "2024-02-29T23:59:59.12Z".
Proof. vm_compute. reflexivity. Qed.
Example rfc3339_zero : of_bytes (rfc3339 0) = "0001-01-01T00:00:00Z".
Proof. vm_compute. reflexivity. Qed.
Example json_escapes : of_bytes (json_string (of_bytes [97; 34; 10; 60; 1; 195; 169; 255; 226; 128; 168])) 
  = String (byte_of 34) (("a\" +:+ String (byte_of 34) "\n\u003c\u0001") +:+ of_bytes [195; 169] +:+ "\ufffd\u2028" +:+ String (byte_of 34) "").
Proof. vm_compute. reflexivity. Qed.

(** ** Reading an event's text back *)

(** Equal texts with a decimal number in the same place hold the same number. *)
Definition is_digit (b : Z) : Prop := 48 <= b <= 57.

Fixpoint digits_value (acc : Z) (l : list Z) : Z :=
  match l with [] => acc | b :: l' => digits_value (10 * acc + (b - 48)) l' end.

Lemma digits_from_spec fuel z acc :
  0 <= z < 10 ^ Z.of_nat fuel -> (0 < fuel)%nat ->
  exists ds, digits_from fuel z acc = ds ++ acc /\ Forall is_digit ds /\ forall a, digits_value a ds = a * 10 ^ Z.of_nat (length ds) + z.
Proof.
  revert z acc. induction fuel as [|n IH]; intros z acc Hz Hf; [lia|]. simpl. destruct (z <? 10) eqn:E; bsimpl.
  - exists [48 + z]. split; [done|]. split; [repeat constructor; unfold is_digit; lia|].
    intros a. simpl. lia.
  - assert (Hn : (0 < n)%nat). { destruct n; [|lia]. simpl in Hz. lia. }
    assert (Hz' : 0 <= z / 10 < 10 ^ Z.of_nat n).
    { rewrite Nat2Z.inj_succ, Z.pow_succ_r in Hz by lia. split; [apply Z.div_pos; lia|]. apply Z.div_lt_upper_bound; lia. }
    destruct (IH (z / 10) ((48 + z mod 10) :: acc) Hz' Hn) as (ds & -> & Hd & Hv).
    exists (ds ++ [48 + z mod 10]). rewrite <- app_assoc. split; [done|]. split.
    + apply Forall_app. split; [done|]. repeat constructor; unfold is_digit; pose proof (Z.mod_pos_bound z 10); lia.
    + intros a. assert (Happ : forall l a x, digits_value a (l ++ [x]) = 10 * digits_value a l + (x - 48)).
      { clear. induction l as [|y l IH]; intros a x; simpl; [done|]. by rewrite IH. }
      rewrite Happ, Hv, length_app. simpl. rewrite Nat2Z.inj_add, Z.pow_add_r by lia. simpl.
      pose proof (Z.div_mod z 10). lia.
Qed.

Lemma itoa_bytes_spec z :
  0 <= z <= max_int64 -> Forall is_digit (itoa_bytes z) /\ digits_value 0 (itoa_bytes z) = z.
Proof.
  intros Hz. unfold itoa_bytes. rewrite (proj2 (Z.ltb_ge z 0)) by lia.
  destruct (digits_from_spec 20 z []) as (ds & -> & Hd & Hv); [|lia|].
  - unfold max_int64 in Hz. change (10 ^ Z.of_nat 20) with 100000000000000000000. lia.
  - rewrite app_nil_r. split; [done|]. by rewrite Hv.
Qed.

Lemma digits_prefix_unique (d1 d2 r1 r2 : list Z) x :
  Forall is_digit d1 -> Forall is_digit d2 -> ~ is_digit x -> d1 ++ x :: r1 = d2 ++ x :: r2 -> d1 = d2 /\ r1 = r2.
Proof.
  revert d2. induction d1 as [|a d1 IH]; intros [|b d2] H1 H2 Hx H; simpl in *.
  - by injection H as ->.
  - injection H as <- _. apply Forall_cons in H2 as [? _]. done.
  - injection H as -> _. apply Forall_cons in H1 as [? _]. done.
  - injection H as -> H. apply Forall_cons in H1 as [_ H1], H2 as [_ H2]. destruct (IH d2) as [-> ->]; done.
Qed.

Lemma int_field_unique pre z1 z2 r1 r2 :
  0 <= z1 <= max_int64 -> 0 <= z2 <= max_int64 ->
  pre ++ json_int z1 ++ 44 :: r1 = pre ++ json_int z2 ++ 44 :: r2 -> z1 = z2 /\ r1 = r2.
Proof.
  intros H1 H2 H%app_inv_head. destruct (itoa_bytes_spec z1 H1) as [D1 V1], (itoa_bytes_spec z2 H2) as [D2 V2].
  assert (Hc : ~ is_digit 44) by (unfold is_digit; lia). unfold json_int in H.
  destruct (digits_prefix_unique _ _ _ _ _ D1 D2 Hc H) as [Heq ->].
  split; [|done]. by rewrite <- V1, <- V2, Heq.
Qed.

(** Equal texts that end alike agree on a trailing part of the same length. *)
Lemma suffix_unique {A} (a1 a2 b1 b2 s : list A) :
  length b1 = length b2 -> a1 ++ b1 ++ s = a2 ++ b2 ++ s -> b1 = b2.
Proof.
  rewrite !app_assoc. intros Hl H%app_inv_tail. by apply app_inj_2 in H as [_ ?].
Qed.

(** A digest is written as it is, between quotes. *)
Lemma json_string_digest s :
  Forall hex_char (bytes s) -> json_string s = quote :: bytes s ++ [quote].
Proof.
  intros Hs. unfold json_string, segments. rewrite segments_from_ascii.
  2: { eapply Forall_impl; [exact Hs|]. unfold hex_char. lia. }
  f_equal. f_equal. induction Hs as [|b l Hb Hl IH]; [done|].
  rewrite fmap_cons. cbn [flat_map]. rewrite IH. unfold json_escape.
  assert (Hesc : json_escape (b, [b]) = [b]); [|by unfold json_escape in Hesc; rewrite Hesc].
  unfold json_escape, hex_char in *.
  rewrite (proj2 (Z.ltb_lt b 128)) by lia.
  repeat (rewrite (proj2 (Z.eqb_neq b _)) by lia). rewrite (proj2 (Z.ltb_ge b 32)) by lia. done.
Qed.

Lemma comma_sep_cons x l : l <> [] -> comma_sep (x :: l) = x ++ 44 :: comma_sep l.
Proof. by destruct l. Qed.

Lemma comma_sep_app l1 l2 : l1 <> [] -> l2 <> [] -> comma_sep (l1 ++ l2) = comma_sep l1 ++ 44 :: comma_sep l2.
Proof.
  intros H1 H2. induction l1 as [|x l1 IH]; [done|]. destruct l1 as [|y l1]; [by destruct l2|].
  rewrite <- app_comm_cons, !comma_sep_cons by done. rewrite IH by done. by rewrite <- app_assoc.
Qed.

(** Both sides of an equation of texts, nested to the right. *)
Ltac cons_norm := repeat (rewrite <- app_assoc || rewrite <- app_comm_cons || cbn [app]); reflexivity.

(** An object whose first field is a number. *)
Lemma json_object_first name v fs :
  json_fields fs <> [] ->
  exists rest, json_object ((name, Some v) :: fs) = (123 :: json_string name ++ [58]) ++ v ++ 44 :: rest.
Proof.
  intros Hne. exists (comma_sep (json_fields fs) ++ [125]). unfold json_object.
  change (json_fields ((name, Some v) :: fs)) with ((json_string name ++ 58 :: v) :: json_fields fs).
  rewrite comma_sep_cons by done. cons_norm.
Qed.

(** An object's last two fields, the former a string. *)
Lemma json_object_last fs n1 s n2 v :
  json_fields fs <> [] ->
  exists pre, json_object (fs ++ [(n1, Some (json_string s)); (n2, Some v)])
    = pre ++ json_string s ++ 44 :: json_string n2 ++ 58 :: v ++ [125].
Proof.
  intros Hne. unfold json_object, json_fields. rewrite omap_app.
  exists (123 :: comma_sep (json_fields fs) ++ 44 :: json_string n1 ++ [58]).
  rewrite comma_sep_app; [|done|done]. cbn [omap list_omap snd fst comma_sep].
  cons_norm.
Qed.

Lemma json_string_digest_unique s1 s2 a1 a2 suf :
  is_digest s1 -> is_digest s2 -> a1 ++ json_string s1 ++ suf = a2 ++ json_string s2 ++ suf -> s1 = s2.
Proof.
  intros [L1 H1] [L2 H2] Heq. rewrite !json_string_digest in Heq by done.
  apply suffix_unique in Heq; [|simpl; rewrite !length_app; simpl; lia].
  injection Heq as Heq. apply app_inv_tail in Heq. by apply bytes_inj.
Qed.
