(* ===== verification/JsonDecode.v ===== *)
(** * Reading JSON: Go's [encoding/json] decoder and [time.Parse] of RFC 3339

    [parse] is the grammar [json.Unmarshal] checks first (RFC 8259, at most 10000 levels
    deep); strings are kept as the bytes between their quotes.  [unquote] decodes them:
    escapes, surrogate pairs, an invalid byte or a lone surrogate becoming U+FFFD.  A struct
    is decoded member by member into the field of the same name, or else of the same name up
    to case; [null] changes nothing and unknown members are skipped.  The error of a decoder is
    its presence.  [parse_rfc3339] is what [time.Time.UnmarshalJSON] accepts. *)

From S2P Require Import Prelude GoString Json.

(** ** Text to tree *)

Inductive json :=
| JNull
| JBool (b : bool)
| JNumber (text : list Z)
| JString (raw : list Z)
| JArray (items : list json)
| JObject (members : list (list Z * json)).

Definition is_ws (b : Z) : bool := (b =? 32) || (b =? 9) || (b =? 10) || (b =? 13).

Fixpoint skip_ws (l : list Z) : list Z :=
  match l with b :: l' => if is_ws b then skip_ws l' else l | [] => [] end.

Definition is_dig (b : Z) : bool := (48 <=? b) && (b <=? 57).
Definition is_hex (b : Z) : bool := is_dig b || ((97 <=? b) && (b <=? 102)) || ((65 <=? b) && (b <=? 70)).

(** The characters that may follow a backslash, [u] aside. *)
Definition is_esc (b : Z) : bool :=
  (b =? 34) || (b =? 92) || (b =? 47) || (b =? 98) || (b =? 102) || (b =? 110) || (b =? 114) || (b =? 116).

Definition cons_raw (pre : list Z) (x : option (list Z * list Z)) : option (list Z * list Z) :=
  match x with Some (raw, rest) => Some (pre ++ raw, rest) | None => None end.

(** After the opening quote: the bytes up to the closing quote, and what follows it. *)
Fixpoint scan_string (l : list Z) : option (list Z * list Z) :=
  match l with
  | [] => None
  | b :: l =>
      if b =? 34 then Some ([], l)
      else if b =? 92 then
        match l with
        | c :: l =>
            if is_esc c then cons_raw [92; c] (scan_string l)
            else if c =? 117 then
              match l with
              | h1 :: h2 :: h3 :: h4 :: l =>
                  if is_hex h1 && is_hex h2 && is_hex h3 && is_hex h4
                  then cons_raw [92; 117; h1; h2; h3; h4] (scan_string l) else None
              | _ => None
              end
            else None
        | [] => None
        end
      else if b <? 32 then None
      else cons_raw [b] (scan_string l)
  end.

Fixpoint span_digits (l : list Z) : list Z * list Z :=
  match l with
  | b :: l' => if is_dig b then let '(ds, rest) := span_digits l' in (b :: ds, rest) else ([], l)
  | [] => ([], [])
  end.

(** At least one digit. *)
Definition scan_digits (l : list Z) : option (list Z * list Z) :=
  match span_digits l with ([], _) => None | p => Some p end.

Definition scan_int (l : list Z) : option (list Z * list Z) :=
  match l with
  | b :: rest => if b =? 48 then Some ([48], rest) else scan_digits l
  | [] => None
  end.

Definition scan_frac (l : list Z) : option (list Z * list Z) :=
  match l with
  | b :: rest => if b =? 46 then cons_raw [46] (scan_digits rest) else Some ([], l)
  | [] => Some ([], [])
  end.

Definition scan_exp (l : list Z) : option (list Z * list Z) :=
  match l with
  | b :: rest =>
      if (b =? 101) || (b =? 69) then
        match rest with
        | s :: rest' => if (s =? 43) || (s =? 45) then cons_raw [b; s] (scan_digits rest') else cons_raw [b] (scan_digits rest)
        | [] => None
        end
      else Some ([], l)
  | [] => Some ([], [])
  end.

Definition scan_number (l : list Z) : option (list Z * list Z) :=
  let '(sign, l) := match l with b :: rest => if b =? 45 then ([45], rest) else ([], l) | [] => ([], []) end in
  match scan_int l with
  | None => None
  | Some (i, l) =>
      match scan_frac l with
      | None => None
      | Some (f, l) => match scan_exp l with None => None | Some (e, l) => Some (sign ++ i ++ f ++ e, l) end
      end
  end.

Definition expect (word : list Z) (v : json) (l : list Z) : option (json * list Z) :=
  if bool_decide (take (length word) l = word) then Some (v, drop (length word) l) else None.

Definition max_depth : Z := 10000.

(** A value at the head of the text.  Each call reads at least one byte before the next, so the
    length of the text is enough fuel. *)
Fixpoint parse_value (fuel : nat) (depth : Z) (l : list Z) : option (json * list Z) :=
  match fuel with
  | O => None
  | S fuel =>
      match skip_ws l with
      | [] => None
      | b :: rest =>
          if b =? 34 then match scan_string rest with Some (raw, rest) => Some (JString raw, rest) | None => None end
          else if b =? 123 then
            if max_depth <=? depth then None
            else match skip_ws rest with
            | c :: rest' => if c =? 125 then Some (JObject [], rest') else parse_members fuel (depth + 1) [] rest
            | [] => None
            end
          else if b =? 91 then
            if max_depth <=? depth then None
            else match skip_ws rest with
            | c :: rest' => if c =? 93 then Some (JArray [], rest') else parse_items fuel (depth + 1) [] rest
            | [] => None
            end
          else if b =? 116 then expect (bytes "true") (JBool true) (b :: rest)
          else if b =? 102 then expect (bytes "false") (JBool false) (b :: rest)
          else if b =? 110 then expect (bytes "null") JNull (b :: rest)
          else match scan_number (b :: rest) with Some (text, rest) => Some (JNumber text, rest) | None => None end
      end
  end
with parse_members (fuel : nat) (depth : Z) (done : list (list Z * json)) (l : list Z) : option (json * list Z) :=
  match fuel with
  | O => None
  | S fuel =>
      match skip_ws l with
      | q :: l =>
          if q =? 34 then
            match scan_string l with
            | Some (key, l) =>
                match skip_ws l with
                | colon :: l =>
                    if colon =? 58 then
                      match parse_value fuel depth l with
                      | Some (v, l) =>
                          match skip_ws l with
                          | c :: l =>
                              if c =? 125 then Some (JObject (done ++ [(key, v)]), l)
                              else if c =? 44 then parse_members fuel depth (done ++ [(key, v)]) l
                              else None
                          | [] => None
                          end
                      | None => None
                      end
                    else None
                | [] => None
                end
            | None => None
            end
          else None
      | [] => None
      end
  end
with parse_items (fuel : nat) (depth : Z) (done : list json) (l : list Z) : option (json * list Z) :=
  match fuel with
  | O => None
  | S fuel =>
      match parse_value fuel depth l with
      | Some (v, l) =>
          match skip_ws l with
          | c :: l =>
              if c =? 93 then Some (JArray (done ++ [v]), l)
              else if c =? 44 then parse_items fuel depth (done ++ [v]) l
              else None
          | [] => None
          end
      | None => None
      end
  end.

Definition parse (l : list Z) : option json :=
  match parse_value (S (length l)) 0 l with
  | Some (v, rest) => match skip_ws rest with [] => Some v | _ => None end
  | None => None
  end.

(** ** Strings *)

Definition hex_value (b : Z) : Z := if b <=? 57 then b - 48 else if b <=? 70 then b - 55 else b - 87.

(** [getu4] after the backslash and the [u]. *)
Definition u4 (l : list Z) : option Z :=
  match l with
  | a :: b :: c :: d :: _ =>
      if is_hex a && is_hex b && is_hex c && is_hex d
      then Some (((hex_value a * 16 + hex_value b) * 16 + hex_value c) * 16 + hex_value d) else None
  | _ => None
  end.

Definition unescape (c : Z) : Z :=
  if c =? 98 then 8 else if c =? 102 then 12 else if c =? 110 then 10 else if c =? 114 then 13
  else if c =? 116 then 9 else c.

(** The second half of a surrogate pair, where there is one. *)
Definition low_surrogate (l : list Z) : option Z :=
  match l with
  | b :: u :: l =>
      if (b =? 92) && (u =? 117) then
        match u4 l with Some r => if (56320 <=? r) && (r <=? 57343) then Some r else None | None => None end
      else None
  | _ => None
  end.

(** The bytes one element of a string stands for, and its length. *)
Definition unquote_one (l : list Z) : list Z * nat :=
  match l with
  | [] => ([], 0%nat)
  | b :: l1 =>
      if b =? 92 then
        match l1 with
        | [] => ([], 1%nat)
        | c :: l2 =>
            if c =? 117 then
              let r := default 0 (u4 l2) in
              if (55296 <=? r) && (r <=? 56319) then
                match low_surrogate (drop 4 l2) with
                | Some low => (encode_rune ((r - 55296) * 1024 + (low - 56320) + 65536), 12%nat)
                | None => (encode_rune rune_error, 6%nat)
                end
              else (encode_rune r, 6%nat)
            else ([unescape c], 2%nat)
        end
      else if b <? 128 then ([b], 1%nat)
      else let '(r, w) := decode_rune l in (encode_rune r, w)
  end.

Fixpoint unquote_from (skip : nat) (l : list Z) : list Z :=
  match l with
  | [] => []
  | _ :: l' =>
      match skip with
      | S k => unquote_from k l'
      | O => let '(out, w) := unquote_one l in out ++ unquote_from (Nat.pred w) l'
      end
  end.

Definition unquote (raw : list Z) : string := of_bytes (unquote_from 0 raw).

(** ** Numbers and instants *)

(** [strconv.ParseInt(text, 10, 64)] of a JSON number. *)
Definition parse_int64 (text : list Z) : option Z :=
  let '(negative, ds) := match text with b :: rest => if b =? 45 then (true, rest) else (false, text) | [] => (false, []) end in
  let z := digits_value 0 ds in
  let z := if negative then - z else z in
  if forallb is_dig ds && bool_decide (ds <> []) && bool_decide (in_int64 z) then Some z else None.

Definition leap (y : Z) : bool := (y mod 4 =? 0) && (negb (y mod 100 =? 0) || (y mod 400 =? 0)).

Definition days_in (m y : Z) : Z :=
  if m =? 2 then (if leap y then 29 else 28)
  else if (m =? 4) || (m =? 6) || (m =? 9) || (m =? 11) then 30 else 31.

(** The day number of a date; day 0 is 0001-01-01. *)
Definition day_number (y m d : Z) : Z :=
  let y := if m <=? 2 then y - 1 else y in
  let mp := if m <=? 2 then m + 9 else m - 3 in
  let era := y / 400 in
  let yoe := y mod 400 in
  era * 146097 + (yoe * 365 + yoe / 4 - yoe / 100 + ((153 * mp + 2) / 5 + d - 1)) - 306.

(** Digits as a number between two bounds. *)
Definition num (lo hi : Z) (ds : list Z) : option Z :=
  let v := digits_value 0 ds in
  if forallb is_dig ds && (lo <=? v) && (v <=? hi) then Some v else None.

(** The digits of a fraction as nanoseconds; those after the ninth are dropped. *)
Definition nanos (ds : list Z) : Z := digits_value 0 (take 9 (ds ++ replicate 9 48)).

(** A fraction, if there is one. *)
Definition parse_fraction (l : list Z) : Z * list Z :=
  match l with
  | p :: rest =>
      if p =? 46 then match span_digits rest with ([], _) => (0, l) | (ds, rest) => (nanos ds, rest) end else (0, l)
  | [] => (0, [])
  end.

(** The offset from UTC in seconds. *)
Definition parse_zone (l : list Z) : option Z :=
  match l with
  | [z] => if z =? 90 then Some 0 else None
  | [s; h1; h2; colon; m1; m2] =>
      match num 0 23 [h1; h2], num 0 59 [m1; m2] with
      | Some h, Some m =>
          if ((s =? 43) || (s =? 45)) && (colon =? 58)
          then Some (if s =? 45 then - (h * 3600 + m * 60) else h * 3600 + m * 60) else None
      | _, _ => None
      end
  | _ => None
  end.

Definition parse_rfc3339 (l : list Z) : option Time :=
  match l with
  | y1 :: y2 :: y3 :: y4 :: p1 :: m1 :: m2 :: p2 :: d1 :: d2 :: t :: h1 :: h2 :: c1 :: i1 :: i2 :: c2 :: s1 :: s2 :: rest =>
      match num 0 9999 [y1; y2; y3; y4], num 1 12 [m1; m2], num 0 23 [h1; h2], num 0 59 [i1; i2], num 0 59 [s1; s2] with
      | Some y, Some m, Some h, Some i, Some s =>
          match num 1 (days_in m y) [d1; d2] with
          | Some d =>
              if (p1 =? 45) && (p2 =? 45) && (t =? 84) && (c1 =? 58) && (c2 =? 58) then
                let '(ns, rest) := parse_fraction rest in
                match parse_zone rest with
                | Some offset =>
                    Some ((day_number y m d * 86400 + h * 3600 + i * 60 + s - offset) * second + ns)
                | None => None
                end
              else None
          | None => None
          end
      | _, _, _, _, _ => None
      end
  | _ => None
  end.

(** ** Structs *)

(** How a member's value changes a struct; [None] is an error. *)
Definition setter (S : Type) : Type := json -> S -> option S.

Section Setters.
Context {S : Type}.

Definition as_string (set : string -> S -> S) : setter S := fun j s =>
  match j with JString raw => Some (set (unquote raw) s) | JNull => Some s | _ => None end.

Definition as_int (set : Z -> S -> S) : setter S := fun j s =>
  match j with
  | JNumber text => match parse_int64 text with Some z => Some (set z s) | None => None end
  | JNull => Some s
  | _ => None
  end.

Definition as_bool (set : bool -> S -> S) : setter S := fun j s =>
  match j with JBool b => Some (set b s) | JNull => Some s | _ => None end.

(** [time.Time.UnmarshalJSON] reads the bytes between the quotes as they are. *)
Definition as_time (set : Time -> S -> S) : setter S := fun j s =>
  match j with
  | JString raw => match parse_rfc3339 raw with Some t => Some (set t s) | None => None end
  | JNull => Some s
  | _ => None
  end.

(** The field a member belongs to. *)
Definition find_field (fields : list (string * setter S)) (key : string) : option (setter S) :=
  match find (fun f => f.1 =s key) fields with
  | Some f => Some f.2
  | None => snd <$> find (fun f => equal_fold f.1 key) fields
  end.

Definition set_member (fields : list (string * setter S)) (s : option S) (member : list Z * json) : option S :=
  match s with
  | None => None
  | Some s => match find_field fields (unquote member.1) with Some set => set member.2 s | None => Some s end
  end.

Definition decode_struct (fields : list (string * setter S)) : setter S := fun j s =>
  match j with JObject members => fold_left (set_member fields) members (Some s) | JNull => Some s | _ => None end.
End Setters.

(** [json.Unmarshal] into a struct that is [zero]. *)
Definition unmarshal {S} (fields : list (string * setter S)) (zero : S) (l : list Z) : option S :=
  match parse l with Some j => decode_struct fields j zero | None => None end.

(** ** Tests *)

Definition q : string := String (byte_of 34) "".

Definition demo_fields : list (string * setter (string * Z * bool)) :=
  [("name", as_string (fun v s => (v, s.1.2, s.2))); ("count", as_int (fun v s => (s.1.1, v, s.2)));
   ("ok", as_bool (fun v s => (s.1.1, s.1.2, v)))].

Example decode_demo :
  unmarshal demo_fields ("", 0, false)
    (bytes (" {" +:+ q +:+ "NAME" +:+ q +:+ ": " +:+ q +:+ "a\u00e9\ud83d\ude00\n" +:+ q +:+ ", " +:+ q +:+ "x" +:+ q +:+ ":[1,{}, null], "
            +:+ q +:+ "count" +:+ q +:+ ":-12," +:+ q +:+ "ok" +:+ q +:+ ":true } "))
  = Some ("a" +:+ of_bytes [195; 169; 240; 159; 152; 128; 10], -12, true).
Proof. vm_compute. reflexivity. Qed.

Example reject_trailing : unmarshal demo_fields ("", 0, false) (bytes "{} x") = None.
Proof. vm_compute. reflexivity. Qed.
Example reject_float : unmarshal demo_fields ("", 0, false) (bytes ("{" +:+ q +:+ "count" +:+ q +:+ ":1.5}")) = None.
Proof. vm_compute. reflexivity. Qed.
Example reject_leading_zero : parse (bytes "01") = None.
Proof. vm_compute. reflexivity. Qed.
Example reject_open : parse (bytes "[1,[2]") = None.
Proof. vm_compute. reflexivity. Qed.
Example lone_surrogate : unquote (bytes "\ud83dx") = of_bytes [239; 191; 189; 120].
Proof. vm_compute. reflexivity. Qed.
Example time_offset : parse_rfc3339 (bytes "1970-01-01T01:00:00.5+01:00") = Some (62135596800 * second + 500000000).
Proof. vm_compute. reflexivity. Qed.
Example time_no_day : parse_rfc3339 (bytes "2023-02-29T00:00:00Z") = None.
Proof. vm_compute. reflexivity. Qed.
