(* ===== verification/JsonRoundTrip.v ===== *)
(** * What is written reads back: [Json] and [JsonDecode]

    A string of valid UTF-8, a 64-bit integer, an instant of the years 1 to 9999, and an object
    of such members are read back as what they were. *)

From Stdlib Require Import ZifyBool.
From S2P Require Import Prelude GoString Json JsonDecode.

(** ** Strings *)

(** [utf8.ValidString]: no byte stands for U+FFFD. *)
Definition valid_segment (seg : Z * list Z) : bool := (fst seg <? 128) || (2 <=? Z.of_nat (length (snd seg))).
Definition valid_utf8 (s : string) : bool := forallb valid_segment (segments s).

(** The bytes of a rune that is not an error mean that rune wherever they stand, and are the
    ones it is encoded with. *)
Definition stable (seg : Z * list Z) : Prop :=
  let '(r, raw) := seg in
  (forall rest, decode_rune (raw ++ rest) = (r, length raw)) /\ encode_rune r = raw /\ raw <> [].

Lemma land_mask b n : 0 <= n -> Z.land b (2 ^ n - 1) = b mod 2 ^ n.
Proof. intros Hn. rewrite Z.sub_1_r, <- Z.ones_equiv. by apply Z.land_ones. Qed.

Ltac masks :=
  change 31 with (2 ^ 5 - 1); change 15 with (2 ^ 4 - 1); change 7 with (2 ^ 3 - 1); change 63 with (2 ^ 6 - 1);
  rewrite !land_mask by lia; change (2 ^ 5) with 32; change (2 ^ 4) with 16; change (2 ^ 3) with 8; change (2 ^ 6) with 64.

(** [lia] with quotients and remainders. *)
Ltac dlia := Z.div_mod_to_equations; lia.

(** Choose the branch of [encode_rune] by arithmetic. *)
Ltac choose_branch :=
  repeat match goal with
  | |- (if ?c then _ else _) = _ =>
      first [replace c with true by dlia | replace c with false by dlia]
  end.

(** Equal lists of bytes, byte by byte. *)
Ltac by_bytes := repeat (apply (f_equal2 cons); [dlia|]); reflexivity.

Lemma stable_low b : 0 <= b < 128 -> stable (b, [b]).
Proof.
  intros Hb. split_and!; [|unfold encode_rune; by replace ((0 <=? b) && (b <? 128)) with true by lia|done].
  intros rest. change ([b] ++ rest) with (b :: rest). by rewrite decode_rune_low by lia.
Qed.

(** One class of first bytes: [decode_rune] on it, with its tests decided. *)
Lemma stable_high l r w :
  Forall (fun b => 0 <= b < 256) l -> decode_rune l = (r, w) -> (2 <= w)%nat -> stable (r, take w l).
Proof.
  destruct l as [|b0 l]; intros Hl; [intros [= <- <-]; lia|]. unfold decode_rune.
  destruct (b0 <? 128) eqn:E0; [intros [= <- <-]; lia|]. apply Forall_cons in Hl as [H0 Hl].
  destruct (first_class b0) as [[[n lo] hi]|] eqn:Ec; [|intros [= <- <-]; lia].
  assert (Hn : (n = 2%nat /\ 194 <= b0 <= 223 /\ lo = 128 /\ hi = 191
    \/ n = 3%nat /\ (b0 = 224 /\ lo = 160 /\ hi = 191 \/ b0 = 237 /\ lo = 128 /\ hi = 159
               \/ 225 <= b0 <= 239 /\ b0 <> 237 /\ lo = 128 /\ hi = 191)
    \/ n = 4%nat /\ (b0 = 240 /\ lo = 144 /\ hi = 191 \/ 241 <= b0 <= 243 /\ lo = 128 /\ hi = 191
               \/ b0 = 244 /\ lo = 128 /\ hi = 143))).
  { unfold first_class in Ec. repeat case_hyp Ec; simplify_eq; lia. }
  assert (Hfirst : first_class b0 = Some (n, lo, hi)) by done.
  destruct Hn as [(-> & Hb0)|[(-> & Hb0)|(-> & Hb0)]].
  - destruct l as [|b1 l]; [intros [= <- <-]; lia|]. apply Forall_cons in Hl as [H1 Hl].
    destruct ((lo <=? b1) && (b1 <=? hi)) eqn:E1; [|intros [= <- <-]; lia]. intros [= <- <-] _. split_and!; [| |done].
    + intros rest. simpl. unfold decode_rune. by rewrite E0, Hfirst, E1.
    + simpl. masks. unfold encode_rune. choose_branch. by_bytes.
  - destruct l as [|b1 [|b2 l]]; [intros [= <- <-]; lia..|]. apply Forall_cons in Hl as [H1 Hl], Hl as [H2 Hl].
    destruct ((lo <=? b1) && (b1 <=? hi) && is_cont b2) eqn:E1; [|intros [= <- <-]; lia]. intros [= <- <-] _.
    split_and!; [| |done].
    + intros rest. simpl. unfold decode_rune. by rewrite E0, Hfirst, E1.
    + unfold is_cont in E1. simpl. masks. unfold encode_rune. choose_branch. by_bytes.
  - destruct l as [|b1 [|b2 [|b3 l]]]; [intros [= <- <-]; lia..|].
    apply Forall_cons in Hl as [H1 Hl], Hl as [H2 Hl], Hl as [H3 Hl].
    destruct ((lo <=? b1) && (b1 <=? hi) && is_cont b2 && is_cont b3) eqn:E1; [|intros [= <- <-]; lia]. intros [= <- <-] _.
    split_and!; [| |done].
    + intros rest. simpl. unfold decode_rune. by rewrite E0, Hfirst, E1.
    + unfold is_cont in E1. simpl. masks. unfold encode_rune. choose_branch. by_bytes.
Qed.

Lemma segments_from_skip k l : segments_from k l = segments_from 0 (drop k l).
Proof.
  revert l. induction k as [|k IH]; intros l; [by rewrite drop_0|]. destruct l as [|b l]; [done|]. simpl drop. by rewrite <- IH.
Qed.

Lemma decode_rune_width b l : (1 <= snd (decode_rune (b :: l)))%nat.
Proof.
  unfold decode_rune. destruct (b <? 128); [simpl; lia|]. destruct (first_class b) as [[[n lo] hi]|]; [|simpl; lia].
  repeat case_goal; simpl; lia.
Qed.

(** The runes of valid text make up the text. *)
Lemma segments_stable l :
  Forall (fun b => 0 <= b < 256) l -> forallb valid_segment (segments_from 0 l) = true ->
  Forall stable (segments_from 0 l) /\ flat_map snd (segments_from 0 l) = l.
Proof.
  induction l as [l IH] using (induction_ltof1 _ (@length Z)). unfold ltof in IH.
  destruct l as [|b l]; intros Hl Hv; [done|]. rewrite segments_from_cons, segments_from_skip in *.
  pose proof (decode_rune_width b l) as Hw. destruct (decode_rune (b :: l)) as [r w] eqn:E. cbn [fst snd] in *.
  cbn [forallb] in Hv. apply andb_true_iff in Hv as [Hv1 Hv2].
  assert (Hb : 0 <= b < 256) by (by inversion Hl).
  assert (Hs : stable (r, take w (b :: l))).
  { destruct (decide (2 <= w)%nat) as [Hw2|Hw2]; [by apply stable_high|]. assert (w = 1%nat) as -> by lia.
    unfold valid_segment in Hv1. simpl in Hv1. rewrite orb_false_r in Hv1. simpl.
    destruct (decide (b < 128)) as [Hlow|Hhigh].
    - rewrite decode_rune_low in E by done. injection E as <-. by apply stable_low; lia.
    - apply Forall_cons in Hl as [_ Hl]. pose proof (decode_rune_high b l ltac:(lia) Hl) as Hh. rewrite E in Hh. simpl in Hh. lia. }
  destruct (IH (drop (Nat.pred w) l)) as [IH1 IH2].
  - rewrite length_drop. simpl. lia.
  - apply Forall_cons in Hl as [_ Hl]. by apply Forall_drop.
  - done.
  - split; [by constructor|]. cbn [flat_map snd]. rewrite IH2. destruct w as [|w]; [lia|]. simpl. by rewrite take_drop.
Qed.

Lemma ascii_valid s : Forall (fun b => b < 128) (bytes s) -> valid_utf8 s = true.
Proof.
  intros Hs. unfold valid_utf8, segments. rewrite segments_from_ascii by done. apply forallb_forall.
  intros seg Hseg. apply list_elem_of_In, list_elem_of_fmap in Hseg as (b & -> & Hb). rewrite Forall_forall in Hs.
  unfold valid_segment. simpl. specialize (Hs b Hb). lia.
Qed.

(** Runes that are not errors are the runes of their bytes; so what is cut out of valid text at
    runes is valid. *)
Lemma stable_segments segs : Forall stable segs -> segments_from 0 (flat_map snd segs) = segs.
Proof.
  induction 1 as [|[r raw] segs (Hd & _ & Hne) _ IH]; [done|]. cbn [flat_map snd]. specialize (Hd (flat_map snd segs)).
  destruct raw as [|b raw]; [done|]. rewrite <- app_comm_cons in *. rewrite segments_from_cons, segments_from_skip, Hd.
  cbn [fst snd length Nat.pred]. rewrite drop_app_length, IH. do 2 f_equal. rewrite app_comm_cons.
  exact (take_app_length (b :: raw) (flat_map snd segs)).
Qed.

Lemma drop_spaces_drop l : exists k, drop_spaces l = drop k l.
Proof.
  induction l as [|[r raw] l [k IH]]; [by exists 0%nat|]. cbn [drop_spaces]. destruct (is_space r); [by exists (S k)|by exists 0%nat].
Qed.

Lemma drop_in {A} k (l : list A) x : x ∈ drop k l -> x ∈ l.
Proof. intros Hx. rewrite <- (take_drop k l). apply elem_of_app. by right. Qed.

Lemma trim_space_valid s : valid_utf8 s = true -> valid_utf8 (trim_space s) = true.
Proof.
  intros Hv. pose proof Hv as Hf. destruct (segments_stable (bytes s) (bytes_range s) Hv) as [Hst Heq]. unfold valid_utf8, trim_space in *.
  destruct (drop_spaces_drop (segments s)) as [k1 ->]. destruct (drop_spaces_drop (rev (drop k1 (segments s)))) as [k2 ->].
  set (part := rev (drop k2 (rev (drop k1 (segments s))))).
  assert (Hin : forall x, x ∈ part -> x ∈ segments s).
  { intros x Hx. unfold part in Hx. apply list_elem_of_In, in_rev, list_elem_of_In, drop_in in Hx.
    apply list_elem_of_In, in_rev, list_elem_of_In in Hx. by apply drop_in in Hx. }
  assert (Hp : Forall stable part).
  { apply Forall_forall. intros x Hx. unfold segments in *. rewrite Forall_forall in Hst. by apply Hst, Hin. }
  assert (Hr : Forall (fun b => 0 <= b < 256) (flat_map snd part)).
  { apply Forall_forall. intros b Hb. apply list_elem_of_In, in_flat_map in Hb as (x & Hx & Hb). apply list_elem_of_In, Hin in Hx.
    pose proof (bytes_range s) as Hall. rewrite Forall_forall in Hall. apply Hall. rewrite <- Heq. apply list_elem_of_In, in_flat_map.
    exists x. split; [by apply list_elem_of_In|done]. }
  unfold segments at 1. rewrite bytes_of_bytes by done. rewrite stable_segments by done. apply forallb_forall. intros x Hx.
  rewrite forallb_forall in Hf. apply Hf, list_elem_of_In, Hin. by apply list_elem_of_In.
Qed.

(** ** Escapes *)

Lemma is_hex_nibble z : 0 <= z < 16 -> is_hex (byte_val (hex_digit z)) = true /\ hex_value (byte_val (hex_digit z)) = z.
Proof.
  intros Hz. unfold hex_digit. destruct (z <? 10) eqn:E; rewrite byte_val_of by lia; unfold is_hex, is_dig, hex_value.
  - replace (48 + z <=? 57) with true by lia. split; lia.
  - replace (87 + z <=? 57) with false by lia. replace (87 + z <=? 70) with false by lia. split; lia.
Qed.

(** What an escaped rune looks like to the scanner: it passes over it, and [unquote] reads the
    rune's own bytes. *)
Definition readable (raw out : list Z) : Prop :=
  (forall rest, scan_string (raw ++ rest) = cons_raw raw (scan_string rest))
  /\ (forall rest, unquote_one (raw ++ rest) = (out, length raw)) /\ raw <> [].

Lemma scan_plain b rest : 32 <= b -> b <> 34 -> b <> 92 -> scan_string (b :: rest) = cons_raw [b] (scan_string rest).
Proof.
  intros H1 H2 H3. cbn [scan_string]. rewrite (proj2 (Z.eqb_neq b 34)), (proj2 (Z.eqb_neq b 92)), (proj2 (Z.ltb_ge b 32)) by lia. done.
Qed.

Lemma cons_raw_app a b x : cons_raw a (cons_raw b x) = cons_raw (a ++ b) x.
Proof. destruct x as [[raw rest]|]; [|done]. simpl. by rewrite app_assoc. Qed.

Lemma scan_high raw rest :
  Forall (fun b => 128 <= b) raw -> scan_string (raw ++ rest) = cons_raw raw (scan_string rest).
Proof.
  induction 1 as [|b raw Hb _ IH]; [simpl; by destruct (scan_string rest) as [[]|]|].
  rewrite <- app_comm_cons, scan_plain by lia. by rewrite IH, cons_raw_app.
Qed.

Lemma readable_short c out :
  is_esc c = true -> c <> 117 -> unescape c = out -> readable [92; c] [out].
Proof.
  intros Hc Hu Ho. split_and!; [|intros rest; simpl; by rewrite (proj2 (Z.eqb_neq c 117)), Ho by done|done].
  intros rest. simpl. by rewrite Hc.
Qed.

Lemma readable_u4 h1 h2 h3 h4 r :
  is_hex h1 && is_hex h2 && is_hex h3 && is_hex h4 = true ->
  ((hex_value h1 * 16 + hex_value h2) * 16 + hex_value h3) * 16 + hex_value h4 = r -> r < 55296 ->
  readable [92; 117; h1; h2; h3; h4] (encode_rune r).
Proof.
  intros Hh Hr Hs. split_and!; [intros rest; simpl; by rewrite Hh| |done].
  intros rest. cbn -[encode_rune]. rewrite Hh, Hr. cbn -[encode_rune].
  replace ((55296 <=? r) && (r <=? 56319)) with false by lia. done.
Qed.

Lemma readable_plain b : 32 <= b < 128 -> b <> 34 -> b <> 92 -> readable [b] [b].
Proof.
  intros Hb H1 H2. split_and!; [intros rest; by apply scan_plain; lia| |done].
  intros rest. simpl. rewrite (proj2 (Z.eqb_neq b 92)), (proj2 (Z.ltb_lt b 128)) by lia. done.
Qed.

Lemma encode_high r : 128 <= r -> Forall (fun b => 128 <= b) (encode_rune r) /\ (2 <= length (encode_rune r))%nat.
Proof.
  intros Hr. unfold encode_rune. replace ((0 <=? r) && (r <? 128)) with false by lia.
  repeat case_goal; (split; [|simpl; lia]); repeat apply List.Forall_cons; try apply List.Forall_nil; dlia.
Qed.

Lemma readable_high r raw : stable (r, raw) -> 128 <= r -> readable raw raw.
Proof.
  intros (Hd & He & Hne) Hr. destruct (encode_high r Hr) as [Hh _]. rewrite He in Hh.
  split_and!; [intros rest; by apply scan_high| |done].
  intros rest. specialize (Hd rest). destruct raw as [|b raw]; [done|]. apply Forall_cons in Hh as [Hb _].
  rewrite <- app_comm_cons in *. cbn [unquote_one]. rewrite (proj2 (Z.eqb_neq b 92)), (proj2 (Z.ltb_ge b 128)), Hd, He by lia. done.
Qed.

Lemma stable_nonneg r raw : stable (r, raw) -> 0 <= r.
Proof.
  intros (Hd & He & _). destruct (decide (0 <= r)) as [|Hr]; [done|exfalso]. specialize (Hd []).
  unfold encode_rune in He. replace ((0 <=? r) && (r <? 128)) with false in He by lia.
  replace ((128 <=? r) && (r <? 2048)) with false in He by lia. replace (r <? 0) with true in He by lia.
  simpl in He. rewrite <- He in Hd. vm_compute in Hd. injection Hd as <-. lia.
Qed.

(** Every rune, escaped or not, reads back as its bytes. *)
Lemma readable_escape seg : stable seg -> readable (json_escape seg) (snd seg).
Proof.
  destruct seg as [r raw]. intros Hs. pose proof (stable_nonneg _ _ Hs) as H0. unfold json_escape. cbn [snd].
  destruct (r <? 128) eqn:Er.
  - assert (raw = [r]) as ->.
    { destruct Hs as (_ & <- & _). unfold encode_rune. by replace ((0 <=? r) && (r <? 128)) with true by lia. }
    assert (Hshort : forall c, is_esc c = true -> c <> 117 -> unescape c = r -> readable [92; c] [r])
      by (intros; by apply readable_short).
    destruct ((r =? 34) || (r =? 92)) eqn:E1.
    { apply Hshort; [unfold is_esc; lia|lia|]. unfold unescape. repeat (rewrite (proj2 (Z.eqb_neq r _)) by lia). done. }
    destruct (r =? 8) eqn:E2; [apply Hshort; [done|lia|unfold unescape; simpl; lia]|].
    destruct (r =? 12) eqn:E3; [apply Hshort; [done|lia|unfold unescape; simpl; lia]|].
    destruct (r =? 10) eqn:E4; [apply Hshort; [done|lia|unfold unescape; simpl; lia]|].
    destruct (r =? 13) eqn:E5; [apply Hshort; [done|lia|unfold unescape; simpl; lia]|].
    destruct (r =? 9) eqn:E6; [apply Hshort; [done|lia|unfold unescape; simpl; lia]|].
    destruct ((r <? 32) || (r =? 60) || (r =? 62) || (r =? 38)) eqn:E7; [|apply readable_plain; lia].
    destruct (is_hex_nibble (r / 16) ltac:(dlia)) as [X1 V1], (is_hex_nibble (r mod 16) ltac:(dlia)) as [X2 V2].
    replace [r] with (encode_rune r) by (unfold encode_rune; by replace ((0 <=? r) && (r <? 128)) with true by lia).
    apply readable_u4; [by rewrite X1, X2|rewrite V1, V2; change (hex_value 48) with 0; dlia|lia].
  - destruct Hs as (Hd & He & Hne). destruct (encode_high r ltac:(lia)) as [_ Hlen]. rewrite He in Hlen.
    destruct raw as [|b1 [|b2 raw]]; [done|simpl in Hlen; lia|].
    destruct (r =? 8232) eqn:E1; [apply Z.eqb_eq in E1; rewrite <- He, E1; by apply (readable_u4 50 48 50 56)|].
    destruct (r =? 8233) eqn:E2; [apply Z.eqb_eq in E2; rewrite <- He, E2; by apply (readable_u4 50 48 50 57)|].
    apply (readable_high r); [done|lia].
Qed.

Lemma unquote_from_skip k l : unquote_from k l = unquote_from 0 (drop k l).
Proof.
  revert l. induction k as [|k IH]; intros l; [by rewrite drop_0|]. destruct l as [|b l]; [done|]. simpl drop. by rewrite <- IH.
Qed.

Lemma unquote_from_readable raw out rest :
  readable raw out -> unquote_from 0 (raw ++ rest) = out ++ unquote_from 0 rest.
Proof.
  intros (_ & Hu & Hne). destruct raw as [|b raw]; [done|]. specialize (Hu rest). rewrite <- app_comm_cons in *.
  cbn [unquote_from]. rewrite Hu, unquote_from_skip. cbn [length Nat.pred]. by rewrite drop_app_length.
Qed.

(** The escaped form of a list of runes. *)
Lemma scan_escaped segs rest :
  Forall stable segs -> scan_string (flat_map json_escape segs ++ 34 :: rest) = Some (flat_map json_escape segs, rest).
Proof.
  induction 1 as [|seg segs Hs _ IH]; [done|]. cbn [flat_map]. destruct (readable_escape _ Hs) as [Hscan _].
  by rewrite <- app_assoc, Hscan, IH.
Qed.

Lemma unquote_escaped segs : Forall stable segs -> unquote_from 0 (flat_map json_escape segs) = flat_map snd segs.
Proof.
  induction 1 as [|seg segs Hs _ IH]; [done|]. cbn [flat_map]. by rewrite (unquote_from_readable _ _ _ (readable_escape _ Hs)), IH.
Qed.

(** What stands between the quotes of [json_string s]. *)
Definition escaped (s : string) : list Z := flat_map json_escape (segments s).

Lemma scan_json_string s rest : valid_utf8 s = true -> scan_string (escaped s ++ 34 :: rest) = Some (escaped s, rest).
Proof. intros Hv. apply scan_escaped. by apply segments_stable; [apply bytes_range|]. Qed.

Lemma unquote_json_string s : valid_utf8 s = true -> unquote (escaped s) = s.
Proof.
  intros Hv. destruct (segments_stable (bytes s) (bytes_range s) Hv) as [Hs Hc]. unfold unquote, escaped, segments.
  rewrite unquote_escaped by done. rewrite Hc. apply of_bytes_bytes.
Qed.

(** ** Numbers *)

(** What may follow a number. *)
Definition ends_number (rest : list Z) : bool :=
  match rest with
  | b :: _ => negb (is_dig b) && negb (b =? 46) && negb (b =? 101) && negb (b =? 69)
  | [] => true
  end.

Lemma is_dig_digit b : is_digit b <-> is_dig b = true.
Proof. unfold is_digit, is_dig. lia. Qed.

Lemma span_digits_app ds rest :
  forallb is_dig ds = true -> match rest with b :: _ => is_dig b = false | [] => True end -> span_digits (ds ++ rest) = (ds, rest).
Proof.
  intros Hds Hrest. induction ds as [|d ds IH]; simpl in *.
  - destruct rest as [|b rest]; [done|]. simpl. by rewrite Hrest.
  - apply andb_true_iff in Hds as [-> Hds]. by rewrite IH.
Qed.

(** No number is written with a leading zero. *)
Lemma digits_from_head fuel z acc :
  0 < z < 10 ^ Z.of_nat fuel -> exists d ds, digits_from fuel z acc = d :: ds /\ d <> 48.
Proof.
  revert z acc. induction fuel as [|n IH]; intros z acc Hz; [simpl in Hz; lia|]. cbn [digits_from]. destruct (z <? 10) eqn:E.
  - exists (48 + z), acc. split; [done|lia].
  - rewrite Nat2Z.inj_succ, Z.pow_succ_r in Hz by lia. apply IH. dlia.
Qed.

Lemma forallb_digits ds : Forall is_digit ds -> forallb is_dig ds = true.
Proof. rewrite forallb_forall, List.Forall_forall. intros H d Hd. by apply is_dig_digit, H. Qed.

(** The digits of a number of at most 20 digits. *)
Lemma natural_digits z :
  0 <= z < 10 ^ 20 ->
  forallb is_dig (digits_from 20 z []) = true /\ digits_value 0 (digits_from 20 z []) = z
  /\ forall rest, ends_number rest = true -> scan_int (digits_from 20 z [] ++ rest) = Some (digits_from 20 z [], rest).
Proof.
  intros Hz. destruct (digits_from_spec 20 z []) as (ds & Heq & Hd & Hv); [simpl; lia|lia|].
  rewrite app_nil_r in Heq. apply forallb_digits in Hd. split_and!; [by rewrite Heq|by rewrite Heq, Hv|].
  intros rest Hrest. destruct (decide (z = 0)) as [->|Hne]; [done|].
  destruct (digits_from_head 20 z []) as (d & ds' & Hh & Hne48); [simpl; lia|].
  rewrite <- Heq in Hd. rewrite Hh in *. rewrite <- app_comm_cons. unfold scan_int.
  rewrite (proj2 (Z.eqb_neq d 48)) by done. unfold scan_digits. rewrite app_comm_cons, span_digits_app; [done|done|].
  destruct rest as [|b rest]; [done|]. unfold ends_number in Hrest. lia.
Qed.

Lemma ends_number_frac rest : ends_number rest = true -> scan_frac rest = Some ([], rest) /\ scan_exp rest = Some ([], rest).
Proof.
  destruct rest as [|b rest]; [done|]. unfold ends_number, scan_frac, scan_exp. intros H.
  rewrite (proj2 (Z.eqb_neq b 46)) by lia. by replace ((b =? 101) || (b =? 69)) with false by lia.
Qed.

Lemma itoa_bytes_neg z : z < 0 -> itoa_bytes z = 45 :: digits_from 20 (- z) [].
Proof. intros Hz. unfold itoa_bytes. by rewrite (proj2 (Z.ltb_lt z 0)). Qed.

Lemma itoa_bytes_pos z : 0 <= z -> itoa_bytes z = digits_from 20 z [].
Proof. intros Hz. unfold itoa_bytes. by rewrite (proj2 (Z.ltb_ge z 0)). Qed.

(** A number's first byte: a digit, or a sign before one. *)
Lemma digits_first ds b l : forallb is_dig ds = true -> ds = b :: l -> 48 <= b <= 57.
Proof. intros H ->. simpl in H. unfold is_dig in H. lia. Qed.

Lemma scan_natural z rest : 0 <= z < 10 ^ 20 -> ends_number rest = true -> scan_number (json_int z ++ rest) = Some (json_int z, rest).
Proof.
  intros Hz Hrest. unfold json_int. destruct (ends_number_frac rest Hrest) as [Hf He].
  rewrite itoa_bytes_pos by lia. destruct (natural_digits z) as (Hd & _ & Hs); [lia|]. specialize (Hs rest Hrest).
  unfold scan_number. revert Hs Hd. destruct (digits_from 20 z []) as [|d ds] eqn:E; intros Hs Hd; [|].
  - destruct rest as [|b rest]; [done|]. cbn [app] in Hs. unfold scan_int, scan_digits, span_digits, ends_number in *. by repeat case_hyp Hs.
  - pose proof (digits_first _ _ _ Hd eq_refl). rewrite <- app_comm_cons in *. rewrite (proj2 (Z.eqb_neq d 45)) by lia.
    cbv iota beta. rewrite Hs, Hf, He. by rewrite !app_nil_r.
Qed.

Lemma scan_json_int z rest :
  in_int64 z -> ends_number rest = true -> scan_number (json_int z ++ rest) = Some (json_int z, rest).
Proof.
  unfold in_int64, min_int64, max_int64. intros Hz Hrest. destruct (decide (z < 0)) as [Hneg|Hpos]; [|apply scan_natural; [lia|done]].
  unfold json_int. destruct (ends_number_frac rest Hrest) as [Hf He].
  rewrite itoa_bytes_neg by done. destruct (natural_digits (- z)) as (_ & _ & Hs); [lia|].
  unfold scan_number. rewrite <- app_comm_cons. cbn -[digits_from scan_int scan_frac scan_exp].
  rewrite Hs, Hf, He by done. by rewrite !app_nil_r.
Qed.

Lemma parse_json_int z : in_int64 z -> parse_int64 (json_int z) = Some z.
Proof.
  intros Hz. assert (Hr := Hz). unfold in_int64, min_int64, max_int64, json_int, parse_int64 in *. destruct (decide (z < 0)) as [Hneg|Hpos].
  - rewrite itoa_bytes_neg by done. destruct (natural_digits (- z)) as (Hd & Hv & Hs); [lia|]. cbn -[digits_from digits_value].
    rewrite Hd, Hv, Z.opp_involutive. destruct (digits_from 20 (- z) []) eqn:E; [by specialize (Hs [] eq_refl)|].
    rewrite bool_decide_eq_true_2 by done. rewrite bool_decide_eq_true_2 by done. done.
  - rewrite itoa_bytes_pos by lia. destruct (natural_digits z) as (Hd & Hv & Hs); [lia|].
    destruct (digits_from 20 z []) as [|d ds] eqn:E; [by specialize (Hs [] eq_refl)|].
    pose proof (digits_first _ _ _ Hd eq_refl). rewrite (proj2 (Z.eqb_neq d 45)) by lia.
    rewrite Hd, Hv. rewrite bool_decide_eq_true_2 by done. rewrite bool_decide_eq_true_2 by done. done.
Qed.

(** ** Instants *)

(** The year within a cycle of 400, counted from March, and the day within that year. *)
Lemma year_of_era doe yoe doy :
  0 <= doe <= 146096 ->
  yoe = (doe - doe / 1460 + doe / 36524 - doe / 146096) / 365 -> doy = doe - (365 * yoe + yoe / 4 - yoe / 100) ->
  0 <= yoe <= 399 /\ 0 <= doy <= 365.
Proof. intros H -> ->. dlia. Qed.

(** Only a leap year has a 366th day, the 29th of its February. *)
Lemma leap_of_era doe yoe :
  0 <= doe <= 146096 ->
  yoe = (doe - doe / 1460 + doe / 36524 - doe / 146096) / 365 -> doe - (365 * yoe + yoe / 4 - yoe / 100) = 365 ->
  (yoe + 1) mod 4 = 0 /\ ((yoe + 1) mod 100 <> 0 \/ (yoe + 1) mod 400 = 0).
Proof. intros H Hy Hd. dlia. Qed.

Lemma month_of_year doy mp d :
  0 <= doy <= 365 -> mp = (5 * doy + 2) / 153 -> d = doy - (153 * mp + 2) / 5 + 1 ->
  0 <= mp <= 11 /\ 1 <= d <= 31 /\ (mp = 11 -> d <= 29 /\ (d = 29 -> doy = 365)) /\ (mp = 1 \/ mp = 3 \/ mp = 6 \/ mp = 8 -> d <= 30).
Proof. intros H -> ->. dlia. Qed.

(** [civil] names an existing date, that of the day. *)
Lemma civil_date day :
  let '(y, m, d) := civil day in 1 <= m <= 12 /\ 1 <= d <= days_in m y /\ day_number y m d = day.
Proof.
  unfold civil. set (era := (day + 306) / 146097). set (doe := (day + 306) mod 146097).
  assert (Hdoe : 0 <= doe <= 146096) by (pose proof (Z.mod_pos_bound (day + 306) 146097); subst doe; lia).
  assert (Hday : day = era * 146097 + doe - 306) by (pose proof (Z.div_mod (day + 306) 146097); subst era doe; lia).
  clearbody era doe.
  set (yoe := (doe - doe / 1460 + doe / 36524 - doe / 146096) / 365).
  set (doy := doe - (365 * yoe + yoe / 4 - yoe / 100)). set (mp := (5 * doy + 2) / 153).
  set (d := doy - (153 * mp + 2) / 5 + 1).
  destruct (year_of_era doe yoe doy Hdoe eq_refl eq_refl) as [Hyoe Hdoy].
  pose proof (leap_of_era doe yoe Hdoe eq_refl) as Hleap. fold doy in Hleap.
  destruct (month_of_year doy mp d Hdoy eq_refl eq_refl) as (Hmp & Hd & Hfeb & H30).
  assert (Hdoy' : doy = doe - (365 * yoe + yoe / 4 - yoe / 100)) by done. assert (Hd' : d = doy - (153 * mp + 2) / 5 + 1) by done.
  clearbody d. clearbody mp. clearbody doy. clearbody yoe.
  destruct (mp <? 10) eqn:Em; (split; [lia|split]).
  - unfold days_in. replace (mp + 3 <=? 2) with false by lia. replace (mp + 3 =? 2) with false by lia. case_goal; bsimpl; lia.
  - unfold day_number. replace (mp + 3 <=? 2) with false by lia. replace (mp + 3 - 3) with mp by lia.
    replace ((yoe + era * 400 + 0) / 400) with era by dlia. replace ((yoe + era * 400 + 0) mod 400) with yoe by dlia. lia.
  - unfold days_in, leap. replace (mp - 9 <=? 2) with true by lia. destruct (mp - 9 =? 2) eqn:E2.
    + case_goal; [lia|]. destruct (decide (d = 29)) as [Hd29|]; [|lia].
      destruct Hleap as [L4 L]; [apply Hfeb; lia|]. rewrite andb_false_iff, orb_false_iff in E. dlia.
    + case_goal; bsimpl; lia.
  - unfold day_number. replace (mp - 9 <=? 2) with true by lia. replace (mp - 9 + 9) with mp by lia.
    replace ((yoe + era * 400 + 1 - 1) / 400) with era by dlia. replace ((yoe + era * 400 + 1 - 1) mod 400) with yoe by dlia. lia.
Qed.

Lemma digits_value_snoc a l x : digits_value a (l ++ [x]) = 10 * digits_value a l + (x - 48).
Proof. revert a. induction l as [|y l IH]; intros a; simpl; [done|]. by rewrite IH. Qed.

Lemma pad_digits_spec n v :
  0 <= v < 10 ^ Z.of_nat n ->
  length (pad_digits n v) = n /\ forallb is_dig (pad_digits n v) = true /\ digits_value 0 (pad_digits n v) = v.
Proof.
  revert v. induction n as [|n IH]; intros v Hv; [simpl in Hv; split_and!; [done|done|simpl; lia]|].
  rewrite Nat2Z.inj_succ, Z.pow_succ_r in Hv by lia. destruct (IH (v / 10)) as (Hl & Hd & He); [dlia|].
  cbn [pad_digits]. rewrite length_app, forallb_app, Hl, Hd, digits_value_snoc, He. cbn [length forallb]. unfold is_dig.
  split_and!; [lia|dlia|dlia].
Qed.

Lemma num_pad n lo hi v :
  0 <= v < 10 ^ Z.of_nat n -> lo <= v <= hi -> num lo hi (pad_digits n v) = Some v.
Proof.
  intros Hv Hb. destruct (pad_digits_spec n v Hv) as (_ & Hd & He). unfold num. rewrite Hd, He.
  by replace (true && (lo <=? v) && (v <=? hi)) with true by lia.
Qed.

(** The digits themselves: a pattern for them is met. *)
Lemma two_digits v : pad_digits 2 v = [48 + v / 10 mod 10; 48 + v mod 10].
Proof. done. Qed.
Lemma four_digits v : pad_digits 4 v = [48 + v / 10 / 10 / 10 mod 10; 48 + v / 10 / 10 mod 10; 48 + v / 10 mod 10; 48 + v mod 10].
Proof. done. Qed.

Lemma strip_zeros_spec l : exists k, l = replicate k 48 ++ strip_zeros l.
Proof.
  induction l as [|d l [k IH]]; [by exists 0%nat|]. simpl. destruct (d =? 48) eqn:E; [|by exists 0%nat].
  apply Z.eqb_eq in E as ->. exists (S k). simpl. by rewrite IH at 1.
Qed.

Lemma replicate_rev {A} k (x : A) : rev (replicate k x) = replicate k x.
Proof. induction k as [|k IH]; [done|]. simpl. rewrite IH. by rewrite <- replicate_S_end. Qed.

(** The fraction of a second comes back, its zeros put back. *)
Lemma parse_fraction_of ns b rest : 0 <= ns < second -> is_dig b = false -> b <> 46 ->
  parse_fraction (fraction ns ++ b :: rest) = (ns, b :: rest).
Proof.
  unfold second. intros Hns Hb Hb46. destruct (pad_digits_spec 9 ns) as (Hl & Hd & He); [simpl; lia|]. unfold fraction.
  destruct (strip_zeros_spec (rev (pad_digits 9 ns))) as [k Hk].
  apply (f_equal (@rev Z)) in Hk. rewrite rev_involutive, rev_app_distr, replicate_rev in Hk.
  set (ds := strip_zeros (rev (pad_digits 9 ns))) in *.
  assert (Hall : forallb is_dig (rev ds) = true) by (rewrite Hk, forallb_app in Hd; by apply andb_true_iff in Hd as [Hd _]).
  assert (Hn : nanos (rev ds) = ns).
  { unfold nanos. assert (Hlen : length (rev ds) = (9 - k)%nat /\ (k <= 9)%nat).
    { rewrite Hk, length_app, length_replicate in Hl. lia. } destruct Hlen as [Hlen Hk9].
    rewrite firstn_app, Hlen. rewrite (take_ge (rev ds)) by lia. replace (9 - (9 - k))%nat with k by lia.
    rewrite take_replicate. replace (k `min` 9)%nat with k by lia. by rewrite <- Hk, He. }
  destruct ds as [|d ds'] eqn:Eds; [cbn [app parse_fraction]; rewrite (proj2 (Z.eqb_neq b 46) Hb46); by rewrite <- Hn|]. rewrite <- Eds in *.
  change ((46 :: rev ds) ++ b :: rest) with (46 :: rev ds ++ b :: rest). unfold parse_fraction. simpl (46 =? 46). cbv iota.
  rewrite span_digits_app by done. destruct (rev ds) as [|d0 l0] eqn:Er; [|by rewrite Hn].
  apply (f_equal (@rev Z)) in Er. rewrite rev_involutive in Er. simpl in Er. by rewrite Eds in Er.
Qed.

(** A day's time of day. *)
Lemma clock s : 0 <= s < 86400 -> 0 <= s / 3600 <= 23 /\ 0 <= s / 60 mod 60 <= 59 /\ 0 <= s mod 60 <= 59
  /\ s / 3600 * 3600 + s / 60 mod 60 * 60 + s mod 60 = s.
Proof. dlia. Qed.

(** What an offset's text is read as. *)
Definition offset_ok (offset : Z) : Prop := -86400 < offset < 86400 /\ offset mod 60 = 0.

Lemma parse_zone_text offset : offset_ok offset ->
  parse_zone (zone_text offset) = Some offset /\ exists b rest, zone_text offset = b :: rest /\ is_dig b = false /\ b <> 46.
Proof.
  intros [Hb Hm]. unfold zone_text. destruct (offset =? 0) eqn:E0; [split; [simpl; f_equal; lia|by eexists _, _]|].
  split; [|eexists _, _; split; [done|]; unfold is_dig; case_goal; lia].
  rewrite !two_digits. cbn [app parse_zone]. rewrite <- !two_digits. rewrite !num_pad by (simpl; dlia). cbv iota beta.
  change (58 =? 58) with true. destruct (offset <? 0) eqn:E; simpl; f_equal; dlia.
Qed.

(** An instant is read back as it was, in whatever zone it was written. *)
Theorem parse_date_text offset t b rest :
  time_in_range (t + offset * second) = true -> parse_zone (b :: rest) = Some offset -> is_dig b = false -> b <> 46 ->
  parse_rfc3339 (date_text (t + offset * second) ++ b :: rest) = Some t.
Proof.
  intros Hr Hz Hb Hb46. set (u := t + offset * second) in *. replace t with (u - offset * second) by (subst u; lia). clearbody u. revert Hr.
  unfold time_in_range, date_text. pose proof (civil_date (u / nanos_per_day)) as Hc.
  destruct (civil (u / nanos_per_day)) as [[y m] d]. destruct Hc as (Hm & Hd & Hday). intros Hy.
  assert (Hdays : days_in m y <= 31) by (unfold days_in; repeat case_goal; lia).
  set (s := u mod nanos_per_day / second).
  assert (Hs : 0 <= s < 86400) by (subst s; unfold nanos_per_day, second; dlia).
  assert (Hu : u = (day_number y m d * 86400 + s) * second + u mod second) by (rewrite Hday; subst s; unfold nanos_per_day, second; dlia).
  destruct (clock s Hs) as (Hh & Hi & Hsec & Hsum). clearbody s.
  rewrite four_digits, !two_digits. cbn [app]. unfold parse_rfc3339. rewrite <- four_digits, <- !two_digits.
  rewrite !num_pad by (simpl; lia). cbv iota beta. simpl (_ && _). cbv iota.
  rewrite <- ?app_assoc, parse_fraction_of by (done || unfold second; dlia). rewrite Hz. f_equal. lia.
Qed.

Theorem parse_rfc3339_of t : time_in_range t = true -> parse_rfc3339 (rfc3339 t) = Some t.
Proof.
  intros Ht. pose proof (parse_date_text 0 t 90 []) as H. rewrite Z.mul_0_l, Z.add_0_r in H. by apply H.
Qed.

Theorem parse_rfc3339_at offset t :
  time_in_range (t + offset * second) = true -> offset_ok offset -> parse_rfc3339 (rfc3339_at offset t) = Some t.
Proof.
  intros Ht Ho. destruct (parse_zone_text offset Ho) as (Hz & b & rest & He & Hb & Hb46). unfold rfc3339_at. rewrite He in *.
  by apply parse_date_text.
Qed.

(** ** Objects of scalars *)

Inductive scalar := VString (s : string) | VInt (z : Z) | VBool (b : bool) | VTime (t : Time).

Definition scalar_text (v : scalar) : list Z :=
  match v with VString s => json_string s | VInt z => json_int z | VBool b => json_bool b | VTime t => json_time t end.

(** The tree of a scalar's text. *)
Definition scalar_json (v : scalar) : json :=
  match v with
  | VString s => JString (escaped s) | VInt z => JNumber (json_int z) | VBool b => JBool b | VTime t => JString (rfc3339 t)
  end.

(** The scalars that are read back as they are. *)
Definition scalar_ok (v : scalar) : Prop :=
  match v with VString s => valid_utf8 s = true | VInt z => in_int64 z | VBool _ => True | VTime t => time_in_range t = true end.

(** Bytes a string holds as they are. *)
Definition plain (b : Z) : Prop := 32 <= b < 128 /\ b <> 34 /\ b <> 92.

Lemma scan_plain_all l rest : Forall plain l -> scan_string (l ++ 34 :: rest) = Some (l, rest).
Proof.
  induction 1 as [|b l (? & ? & ?) _ IH]; [done|]. rewrite <- app_comm_cons, scan_plain by lia. by rewrite IH.
Qed.

Lemma plain_digits l : forallb is_dig l = true -> Forall plain l.
Proof.
  rewrite forallb_forall, List.Forall_forall. intros H b Hb. specialize (H b Hb). unfold is_dig in H. unfold plain. lia.
Qed.

Lemma plain_fraction ns : 0 <= ns < second -> Forall plain (fraction ns).
Proof.
  unfold second. intros Hns. destruct (pad_digits_spec 9 ns) as (_ & Hd & _); [simpl; lia|]. unfold fraction.
  destruct (strip_zeros_spec (rev (pad_digits 9 ns))) as [k Hk].
  apply (f_equal (@rev Z)) in Hk. rewrite rev_involutive, rev_app_distr in Hk. rewrite Hk, forallb_app in Hd.
  apply andb_true_iff in Hd as [Hd _]. destruct (strip_zeros _) as [|d ds]; [done|].
  apply List.Forall_cons; [unfold plain; lia|]. by apply plain_digits.
Qed.

Lemma plain_pad n v : 0 <= v < 10 ^ Z.of_nat n -> Forall plain (pad_digits n v).
Proof. intros Hv. by apply plain_digits, pad_digits_spec. Qed.

Lemma plain_date_text t : time_in_range t = true -> Forall plain (date_text t).
Proof.
  unfold time_in_range, date_text. pose proof (civil_date (t / nanos_per_day)) as Hc.
  destruct (civil (t / nanos_per_day)) as [[y m] d]. destruct Hc as (Hm & Hd & _). intros Hy.
  assert (Hdays : days_in m y <= 31) by (unfold days_in; repeat case_goal; lia).
  set (s := t mod nanos_per_day / second).
  assert (Hs : 0 <= s < 86400) by (subst s; unfold nanos_per_day, second; dlia).
  destruct (clock s Hs) as (Hh & Hi & Hsec & _). clearbody s.
  assert (Hsep : forall b, b = 45 \/ b = 84 \/ b = 58 -> Forall plain [b]) by (intros; apply Forall_singleton; unfold plain; lia).
  rewrite !Forall_app. split_and!; first [apply plain_pad; simpl; lia | apply Hsep; lia | apply plain_fraction; unfold second; dlia].
Qed.

Lemma plain_rfc3339 t : time_in_range t = true -> Forall plain (rfc3339 t).
Proof. intros Ht. apply Forall_app. split; [by apply plain_date_text|]. apply Forall_singleton. unfold plain. lia. Qed.

Lemma plain_rfc3339_at offset t : time_in_range (t + offset * second) = true -> offset_ok offset -> Forall plain (rfc3339_at offset t).
Proof.
  intros Ht [Ho _]. apply Forall_app. split; [by apply plain_date_text|]. unfold zone_text.
  destruct (offset =? 0); [apply Forall_singleton; unfold plain; lia|]. apply List.Forall_cons; [unfold plain; case_goal; lia|].
  rewrite !Forall_app. split_and!; [apply plain_pad; simpl; dlia|apply Forall_singleton; unfold plain; lia|apply plain_pad; simpl; dlia].
Qed.

(** The head of a text that does not begin with white space. *)
Lemma skip_ws_head b l : is_ws b = false -> skip_ws (b :: l) = b :: l.
Proof. intros H. simpl. by rewrite H. Qed.

Lemma natural_head z : 0 <= z < 10 ^ 20 -> exists b l, json_int z = b :: l /\ 48 <= b <= 57.
Proof.
  intros Hz. unfold json_int. rewrite itoa_bytes_pos by lia. destruct (natural_digits z) as (Hd & _ & Hs); [lia|].
  destruct (digits_from 20 z []) as [|d ds]; [by specialize (Hs [] eq_refl)|]. exists d, ds. split; [done|]. by eapply digits_first.
Qed.

Lemma json_int_head z : in_int64 z -> exists b l, json_int z = b :: l /\ (b = 45 \/ 48 <= b <= 57).
Proof.
  unfold in_int64, min_int64, max_int64. intros Hz. destruct (decide (z < 0)).
  - unfold json_int. rewrite itoa_bytes_neg by done. eauto.
  - destruct (natural_head z) as (b & l & H & Hb); [lia|]. exists b, l. auto.
Qed.

Lemma json_string_shape s rest : json_string s ++ rest = 34 :: escaped s ++ 34 :: rest.
Proof. unfold json_string. rewrite <- app_comm_cons, <- app_assoc. done. Qed.

Lemma parse_quoted fuel depth raw l rest :
  scan_string l = Some (raw, rest) -> parse_value (S fuel) depth (34 :: l) = Some (JString raw, rest).
Proof. intros H. cbn [parse_value]. rewrite skip_ws_head by done. change (34 =? 34) with true. cbv iota. by rewrite H. Qed.

(** A scalar's text is read as its tree. *)
Lemma parse_scalar fuel depth v rest :
  (0 < fuel)%nat -> scalar_ok v -> ends_number rest = true ->
  parse_value fuel depth (scalar_text v ++ rest) = Some (scalar_json v, rest).
Proof.
  intros Hf Hv Hrest. destruct fuel as [|fuel]; [lia|]. destruct v as [s|z|b|t]; cbn [scalar_ok scalar_text scalar_json] in *.
  - rewrite json_string_shape. apply parse_quoted. by apply scan_json_string.
  - destruct (json_int_head z Hv) as (b & l & Hb & Hc). pose proof (scan_json_int z rest Hv Hrest) as Hscan.
    rewrite Hb in *. rewrite <- app_comm_cons in *. cbn [parse_value]. rewrite skip_ws_head by (unfold is_ws; lia).
    repeat (rewrite (proj2 (Z.eqb_neq b _)) by lia). by rewrite Hscan.
  - by destruct b.
  - unfold json_time. rewrite <- app_comm_cons, <- app_assoc. apply parse_quoted. by apply scan_plain_all, plain_rfc3339.
Qed.

(** The members of an object, those that are omitted left out. *)
Definition member_fields (ms : list (string * option scalar)) : list field := (fun m : string * option scalar => (m.1, scalar_text <$> m.2)) <$> ms.

Definition present (ms : list (string * option scalar)) : list (string * scalar) := omap (fun m : string * option scalar => pair m.1 <$> m.2) ms.

Definition member_tree (m : string * scalar) : list Z * json := (escaped m.1, scalar_json m.2).

Definition member_ok (m : string * scalar) : Prop := valid_utf8 m.1 = true /\ scalar_ok m.2.

Lemma json_fields_present ms :
  json_fields (member_fields ms) = (fun m => json_string m.1 ++ 58 :: scalar_text m.2) <$> present ms.
Proof.
  induction ms as [|[n [v|]] ms IH]; [done| |]; cbn [member_fields fmap list_fmap json_fields omap list_omap present fst snd option_fmap option_map];
    unfold json_fields, member_fields, present in IH; by rewrite IH.
Qed.

Lemma parse_present fuel depth acc ms rest :
  (length ms < fuel)%nat -> Forall member_ok ms -> ms <> [] ->
  parse_members fuel depth acc (comma_sep ((fun m => json_string m.1 ++ 58 :: scalar_text m.2) <$> ms) ++ 125 :: rest)
  = Some (JObject (acc ++ (member_tree <$> ms)), rest).
Proof.
  revert fuel acc. induction ms as [|[n v] ms IH]; intros fuel acc Hf Hok Hne; [done|].
  apply Forall_cons in Hok as [[Hn Hv] Hok]. destruct fuel as [|fuel]; [simpl in Hf; lia|]. rewrite fmap_cons. cbn [fst snd] in *.
  set (tail := match ms with [] => 125 :: rest | _ => 44 :: comma_sep ((fun m => json_string m.1 ++ 58 :: scalar_text m.2) <$> ms) ++ 125 :: rest end).
  assert (Htail : comma_sep ((json_string n ++ 58 :: scalar_text v) :: ((fun m => json_string m.1 ++ 58 :: scalar_text m.2) <$> ms)) ++ 125 :: rest
    = 34 :: escaped n ++ 34 :: 58 :: scalar_text v ++ tail).
  { subst tail. destruct ms as [|m ms]; [cbn [fmap list_fmap comma_sep]|rewrite fmap_cons, comma_sep_cons by done];
      (repeat rewrite <- app_assoc; rewrite json_string_shape; cons_norm). }
  rewrite Htail. cbn [parse_members]. rewrite skip_ws_head by done. change (34 =? 34) with true. cbv iota.
  rewrite scan_json_string by done. rewrite skip_ws_head by done. change (58 =? 58) with true. cbv iota.
  rewrite parse_scalar; [|simpl in Hf; lia|done|by subst tail; destruct ms]. subst tail. destruct ms as [|m ms]; [done|].
  rewrite skip_ws_head by done. change (44 =? 125) with false. change (44 =? 44) with true. cbv iota.
  rewrite IH; [|simpl in *; lia|done|done].
  rewrite <- app_assoc. done.
Qed.

Lemma comma_sep_length (l : list (list Z)) : Forall (fun x => x <> []) l -> (length l <= length (comma_sep l))%nat.
Proof.
  induction 1 as [|x l Hx _ IH]; [simpl; lia|]. destruct (decide (l = [])) as [->|Hne]; [destruct x; [done|simpl; lia]|].
  rewrite comma_sep_cons, length_app by done. cbn [length]. lia.
Qed.

(** The names and values of the members that are there. *)
Definition member_texts (ms : list (string * scalar)) : list (list Z) :=
  (fun m => json_string m.1 ++ 58 :: scalar_text m.2) <$> ms.

Lemma member_texts_head ms : ms <> [] -> exists l, comma_sep (member_texts ms) = 34 :: l.
Proof.
  destruct ms as [|[n v] ms]; [done|intros _]. unfold member_texts. rewrite fmap_cons. cbn [fst snd].
  destruct ms as [|m ms]; [cbn [fmap list_fmap comma_sep]|rewrite fmap_cons, comma_sep_cons, <- app_assoc by done];
    rewrite json_string_shape; eauto.
Qed.

(** An object's text is read as its members. *)
Lemma parse_object ms :
  Forall member_ok (present ms) ->
  parse (json_object (member_fields ms)) = Some (JObject (member_tree <$> present ms)).
Proof.
  intros Hok. unfold json_object. rewrite json_fields_present. fold (member_texts (present ms)).
  destruct (decide (present ms = [])) as [Hne|Hne]; [by rewrite Hne|]. unfold parse.
  destruct (member_texts_head _ Hne) as [l Hl].
  assert (Hp : parse_members (length (123 :: comma_sep (member_texts (present ms)) ++ [125])) 1 []
    (comma_sep (member_texts (present ms)) ++ [125]) = Some (JObject (member_tree <$> present ms), [])).
  { unfold member_texts. rewrite parse_present; [done| |done|done]. fold (member_texts (present ms)).
    cbn [length]. rewrite length_app. pose proof (comma_sep_length (member_texts (present ms))) as Hlen.
    unfold member_texts in Hlen at 2. rewrite length_fmap in Hlen. cbn [length]. apply Nat.le_lt_trans with (2 := Nat.lt_succ_diag_r _).
    etransitivity; [apply Hlen|lia]. apply Forall_fmap, Forall_forall. by intros [n v] _. }
  revert Hp. generalize (length (123 :: comma_sep (member_texts (present ms)) ++ [125])) as fuel. intros fuel Hp.
  cbn [parse_value]. rewrite skip_ws_head by done. change (123 =? 34) with false. change (123 =? 123) with true.
  change (max_depth <=? 0) with false. cbv iota. change (0 + 1) with 1. rewrite Hp.
  rewrite Hl, <- app_comm_cons, skip_ws_head by done. done.
Qed.

(** ** Structs *)

Definition opt_string (s : string) : option scalar := if s =s "" then None else Some (VString s).
Definition opt_int (z : Z) : option scalar := if z =? 0 then None else Some (VInt z).

(** Decoding the members that are there, in order. *)
Definition decode_present {S} (fields : list (string * setter S)) (ms : list (string * option scalar)) (s : S) : option S :=
  fold_left (set_member fields) (member_tree <$> present ms) (Some s).

Section Structs.
Context {S : Type} (fields : list (string * setter S)).

Lemma decode_member n v (set : setter S) ms s s' :
  valid_utf8 n = true -> find_field fields n = Some set -> set (scalar_json v) s = Some s' ->
  decode_present fields ((n, Some v) :: ms) s = decode_present fields ms s'.
Proof.
  intros Hn Hf Hset. unfold decode_present, present. cbn [omap list_omap snd fst fmap option_fmap option_map]. rewrite fmap_cons.
  cbn [fold_left]. unfold set_member at 2. cbn [member_tree fst snd]. rewrite unquote_json_string, Hf, Hset by done. done.
Qed.

Lemma decode_omitted n ms s : decode_present fields ((n, None) :: ms) s = decode_present fields ms s.
Proof. done. Qed.

Lemma decode_string n set ms s v :
  valid_utf8 n = true -> find_field fields n = Some (as_string set) -> valid_utf8 v = true ->
  decode_present fields ((n, Some (VString v)) :: ms) s = decode_present fields ms (set v s).
Proof. intros Hn Hf Hv. eapply decode_member; [done|done|]. simpl. by rewrite unquote_json_string. Qed.

Lemma decode_opt_string n set ms s v :
  valid_utf8 n = true -> find_field fields n = Some (as_string set) -> valid_utf8 v = true -> set "" s = s ->
  decode_present fields ((n, opt_string v) :: ms) s = decode_present fields ms (set v s).
Proof.
  intros Hn Hf Hv H0. unfold opt_string. destruct (v =s "") eqn:E; [|by apply decode_string].
  apply str_eqb_true in E as ->. by rewrite decode_omitted, H0.
Qed.

Lemma decode_int n set ms s v :
  valid_utf8 n = true -> find_field fields n = Some (as_int set) -> in_int64 v ->
  decode_present fields ((n, Some (VInt v)) :: ms) s = decode_present fields ms (set v s).
Proof. intros Hn Hf Hv. eapply decode_member; [done|done|]. simpl. by rewrite parse_json_int. Qed.

Lemma decode_opt_int n set ms s v :
  valid_utf8 n = true -> find_field fields n = Some (as_int set) -> in_int64 v -> set 0 s = s ->
  decode_present fields ((n, opt_int v) :: ms) s = decode_present fields ms (set v s).
Proof.
  intros Hn Hf Hv H0. unfold opt_int. destruct (v =? 0) eqn:E; [|by apply decode_int].
  apply Z.eqb_eq in E as ->. by rewrite decode_omitted, H0.
Qed.

Lemma decode_bool n set ms s v :
  valid_utf8 n = true -> find_field fields n = Some (as_bool set) ->
  decode_present fields ((n, Some (VBool v)) :: ms) s = decode_present fields ms (set v s).
Proof. intros Hn Hf. by eapply decode_member. Qed.

Lemma decode_time n set ms s v :
  valid_utf8 n = true -> find_field fields n = Some (as_time set) -> time_in_range v = true ->
  decode_present fields ((n, Some (VTime v)) :: ms) s = decode_present fields ms (set v s).
Proof. intros Hn Hf Hv. eapply decode_member; [done|done|]. cbn [as_time scalar_json]. by rewrite parse_rfc3339_of. Qed.

Lemma unmarshal_members ms zero :
  Forall member_ok (present ms) -> unmarshal fields zero (json_object (member_fields ms)) = decode_present fields ms zero.
Proof. intros Hok. unfold unmarshal. by rewrite parse_object. Qed.
End Structs.

Lemma unmarshal_needs_json {S} (fields : list (string * setter S)) zero l : parse l = None -> unmarshal fields zero l = None.
Proof. unfold unmarshal. by intros ->. Qed.
