(* ===== verification/JsonLex.v ===== *)
(** * What a torn line can become: the brackets of JSON text

    [lex] follows a text byte by byte and keeps only how deeply nested it is and whether it is
    inside a string.  A text that [parse] accepts ends where it began ([parse_balanced]).  An
    object cut short leaves the reader inside a bracket or a string, and pieces of further objects
    never bring it back out ([torn_unreadable]): a line that a failed write tore stays unreadable
    whatever is appended to it. *)

From Stdlib Require Import ZifyBool.
From S2P Require Import Prelude GoString Json JsonDecode JsonRoundTrip.

(** Where a byte stands: between tokens, directly after a string or not, in a string, after a
    backslash, or in the [k] hexadecimal digits of an escape; or past what JSON allows. *)
Inductive lexical := Out (depth : Z) (after_string : bool) | In (depth : Z) | Esc (depth : Z) | Hex (depth : Z) (k : nat) | Dead.

Definition lex_step (s : lexical) (b : Z) : lexical :=
  match s with
  | Out d after =>
      if b =? 34 then (if after then Dead else In d)
      else if (b =? 123) || (b =? 91) then (if after then Dead else Out (d + 1) false)
      else if (b =? 125) || (b =? 93) then Out (d - 1) false
      else if (b =? 58) || (b =? 44) then Out d false
      else if is_ws b then Out d after
      else if after then Dead else Out d false
  | In d => if b =? 34 then Out d true else if b =? 92 then Esc d else if b <? 32 then Dead else In d
  | Esc d => if is_esc b then In d else if b =? 117 then Hex d 3 else Dead
  | Hex d k => if is_hex b then (match k with O => In d | S k => Hex d k end) else Dead
  | Dead => Dead
  end.

Definition lex (s : lexical) (l : list Z) : lexical := fold_left lex_step l s.

Lemma lex_app_json s l1 l2 : lex s (l1 ++ l2) = lex (lex s l1) l2.
Proof. apply fold_left_app. Qed.

Lemma lex_cons_json s b l : lex s (b :: l) = lex (lex_step s b) l.
Proof. done. Qed.

Lemma lex_dead l : lex Dead l = Dead.
Proof. by induction l. Qed.

(** ** Staying inside *)

(** The nesting is at least [d]; past what JSON allows, any nesting will do. *)
Definition deep (d : Z) (s : lexical) : bool :=
  match s with Out d' _ | In d' | Esc d' | Hex d' _ => d <=? d' | Dead => true end.

(** Before each byte of [l] the nesting is at least [d]; after the last, the state is [s']. *)
Fixpoint stays (d : Z) (s : lexical) (l : list Z) (s' : lexical) : Prop :=
  match l with
  | [] => s = s'
  | b :: l => deep d s = true /\ stays d (lex_step s b) l s'
  end.

Lemma stays_app d s l1 s1 l2 s2 : stays d s l1 s1 -> stays d s1 l2 s2 -> stays d s (l1 ++ l2) s2.
Proof. revert s. induction l1 as [|b l1 IH]; intros s; simpl; [by intros ->|]. intros [H H1] H2. split; [done|]. by apply IH. Qed.

Lemma stays_cons d s b l s' : deep d s = true -> stays d (lex_step s b) l s' -> stays d s (b :: l) s'.
Proof. done. Qed.

Lemma stays_lex d s l s' : stays d s l s' -> lex s l = s'.
Proof. revert s. induction l as [|b l IH]; intros s; simpl; [done|]. intros [_ H]. by apply IH. Qed.

Lemma stays_prefix d s l1 l2 s' : l2 <> [] -> stays d s (l1 ++ l2) s' -> deep d (lex s l1) = true.
Proof.
  intros Hne. revert s. induction l1 as [|b l1 IH]; intros s; simpl; [by destruct l2 as [|? ?]; [|intros []]|]. intros [_ H]. by apply IH.
Qed.

Lemma deep_weaken d d' s : d <= d' -> deep d' s = true -> deep d s = true.
Proof. destruct s; simpl; [lia..|done]. Qed.

Lemma stays_weaken d d' s l s' : d <= d' -> stays d' s l s' -> stays d s l s'.
Proof.
  intros Hd. revert s. induction l as [|b l IH]; intros s; simpl; [done|]. intros [H1 H2]. split; [by apply (deep_weaken d d')|by apply IH].
Qed.

Lemma stays_one d s b s' : deep d s = true -> lex_step s b = s' -> stays d s [b] s'.
Proof. done. Qed.

(** ** What the parser reads is balanced *)

Lemma skip_ws_stays l : exists pre, l = pre ++ skip_ws l /\ forall d x, stays d (Out d x) pre (Out d x).
Proof.
  induction l as [|b l (pre & Hl & Hlex)]; [by exists []|]. simpl. destruct (is_ws b) eqn:E; [|by exists []].
  exists (b :: pre). split; [by rewrite <- app_comm_cons, <- Hl|]. intros d x. apply stays_cons; [simpl; lia|]. unfold lex_step.
  unfold is_ws in E. repeat (rewrite (proj2 (Z.eqb_neq b _)) by lia). cbn [orb].
  replace (is_ws b) with true by (unfold is_ws; lia). apply Hlex.
Qed.

Lemma skip_ws_next l b rest : skip_ws l = b :: rest ->
  exists pre, l = pre ++ b :: rest /\ forall d x, stays d (Out d x) pre (Out d x).
Proof. intros H. destruct (skip_ws_stays l) as (pre & Hl & Hlex). exists pre. by rewrite <- H. Qed.

Lemma scan_string_stays l raw rest : scan_string l = Some (raw, rest) ->
  exists pre, l = pre ++ rest /\ forall d, stays d (In d) pre (Out d true).
Proof.
  revert raw. induction l as [l IH] using (induction_ltof1 _ (@length Z)). unfold ltof in IH. intros raw.
  destruct l as [|b l]; [done|]. cbn [scan_string]. destruct (b =? 34) eqn:Eq.
  { intros [= _ ->]. exists [b]. split; [done|]. intros d. apply stays_one; simpl; [lia|]. by rewrite Eq. }
  assert (Hnext : forall pre l', b :: l = pre ++ l' -> (0 < length pre)%nat -> (forall d, stays d (In d) pre (In d)) ->
    forall k, cons_raw k (scan_string l') = Some (raw, rest) -> exists p, b :: l = p ++ rest /\ forall d, stays d (In d) p (Out d true)).
  { intros pre l' Heq Hpos Hlex k Hs. destruct (scan_string l') as [[r' rest']|] eqn:E; [|done]. injection Hs as _ ->.
    destruct (IH l') with (2 := E) as (p & -> & Hp).
    { apply (f_equal (@length Z)) in Heq. rewrite length_app in Heq. lia. }
    exists (pre ++ p). split; [by rewrite <- app_assoc|]. intros d. by eapply stays_app. }
  assert (Hdeep : forall d, (d <=? d) = true) by (intros; lia).
  destruct (b =? 92) eqn:Eb.
  - destruct l as [|c l]; [done|]. destruct (is_esc c) eqn:Ee.
    { apply (Hnext [b; c] l eq_refl); [simpl; lia|]. intros d. cbn [stays lex_step deep]. rewrite Eq, Eb. cbn [lex_step deep]. by rewrite Ee. }
    destruct (c =? 117) eqn:Eu; [|done]. destruct l as [|h1 [|h2 [|h3 [|h4 l]]]]; try done.
    destruct (is_hex h1 && is_hex h2 && is_hex h3 && is_hex h4) eqn:Eh; [|done].
    apply (Hnext [b; c; h1; h2; h3; h4] l eq_refl); [simpl; lia|]. intros d.
    rewrite !andb_true_iff in Eh. destruct Eh as (((H1 & H2) & H3) & H4). cbn [stays lex_step].
    rewrite Eq, Eb. cbn [lex_step]. rewrite Ee, Eu.
    repeat (cbn [lex_step]; match goal with H : is_hex _ = true |- _ => rewrite H; clear H end). cbn [deep]. by rewrite !Hdeep.
  - destruct (b <? 32) eqn:E32; [done|]. apply (Hnext [b] l eq_refl); [simpl; lia|]. intros d. cbn [stays lex_step deep]. by rewrite Eq, Eb, E32.
Qed.

(** Bytes of numbers and words. *)
Definition wordy (b : Z) : bool := is_dig b || ((97 <=? b) && (b <=? 122)) || (b =? 45) || (b =? 43) || (b =? 46) || (b =? 69).

Lemma wordy_stays l d : forallb wordy l = true -> stays d (Out d false) l (Out d false).
Proof.
  induction l as [|b l IH]; [done|]. intros [Hb Hl]%andb_true_iff. apply stays_cons; [simpl; lia|].
  replace (lex_step (Out d false) b) with (Out d false); [by apply IH|]. unfold wordy, is_dig in Hb. unfold lex_step.
  rewrite (proj2 (Z.eqb_neq b 34)) by lia. replace ((b =? 123) || (b =? 91)) with false by lia.
  replace ((b =? 125) || (b =? 93)) with false by lia. replace ((b =? 58) || (b =? 44)) with false by lia. by destruct (is_ws b).
Qed.

Lemma wordy_digits ds : forallb is_dig ds = true -> forallb wordy ds = true.
Proof. rewrite !forallb_forall. intros H b Hb. unfold wordy. by rewrite (H b Hb). Qed.

Lemma span_digits_split l ds rest : span_digits l = (ds, rest) -> l = ds ++ rest /\ forallb wordy ds = true.
Proof.
  revert ds. induction l as [|b l IH]; intros ds; simpl; [by intros [= <- <-]|]. destruct (is_dig b) eqn:E; [|by intros [= <- <-]].
  destruct (span_digits l) as [ds' r]. intros [= <- <-]. destruct (IH ds' eq_refl) as [-> H]. split; [done|]. simpl. unfold wordy at 1. by rewrite E.
Qed.

(** What a piece of a number reads. *)
Definition reads (scan : list Z -> option (list Z * list Z)) : Prop :=
  forall l raw rest, scan l = Some (raw, rest) -> l = raw ++ rest /\ forallb wordy raw = true.

Lemma scan_digits_reads : reads scan_digits.
Proof.
  intros l raw rest. unfold scan_digits. destruct (span_digits l) as [ds r] eqn:E. destruct ds as [|d ds]; [done|].
  intros [= <- <-]. by apply span_digits_split.
Qed.

Lemma cons_raw_reads pre l raw rest :
  forallb wordy pre = true -> cons_raw pre (scan_digits l) = Some (raw, rest) -> pre ++ l = raw ++ rest /\ forallb wordy raw = true.
Proof.
  intros Hp. destruct (scan_digits l) as [[r rest']|] eqn:E; [|done]. intros [= <- <-].
  destruct (scan_digits_reads _ _ _ E) as [-> Hr]. by rewrite forallb_app, Hp, Hr, <- app_assoc.
Qed.

Lemma scan_int_reads : reads scan_int.
Proof.
  intros [|b l] raw rest; [done|]. unfold scan_int. destruct (b =? 48) eqn:E; [|by apply scan_digits_reads].
  apply Z.eqb_eq in E as ->. by intros [= <- <-].
Qed.

Lemma scan_frac_reads : reads scan_frac.
Proof.
  intros [|b l] raw rest; [by intros [= <- <-]|]. unfold scan_frac. destruct (b =? 46) eqn:E; [|by intros [= <- <-]].
  apply Z.eqb_eq in E as ->. intros H. by apply (cons_raw_reads [46] l).
Qed.

Lemma scan_exp_reads : reads scan_exp.
Proof.
  intros [|b l] raw rest; [by intros [= <- <-]|]. unfold scan_exp. destruct ((b =? 101) || (b =? 69)) eqn:E; [|by intros [= <- <-]].
  assert (Hb : wordy b = true) by (unfold wordy; lia). destruct l as [|s l]; [done|].
  destruct ((s =? 43) || (s =? 45)) eqn:Es.
  - intros H. apply (cons_raw_reads [b; s] l); [simpl; rewrite Hb; unfold wordy; lia|done].
  - intros H. apply (cons_raw_reads [b] (s :: l)); [simpl; by rewrite Hb|done].
Qed.

Lemma scan_number_reads : reads scan_number.
Proof.
  intros l raw rest. unfold scan_number.
  assert (Hsign : exists sign l', (match l with b :: r => if b =? 45 then ([45], r) else ([], l) | [] => ([], []) end) = (sign, l')
    /\ l = sign ++ l' /\ forallb wordy sign = true).
  { destruct l as [|b l]; [by exists [], []|]. destruct (b =? 45) eqn:E; [apply Z.eqb_eq in E as ->; by exists [45], l|by exists [], (b :: l)]. }
  destruct Hsign as (sign & l' & -> & -> & Hs). cbv beta iota.
  destruct (scan_int l') as [[i l1]|] eqn:E1; [|done]. destruct (scan_int_reads _ _ _ E1) as [-> H1].
  destruct (scan_frac l1) as [[f l2]|] eqn:E2; [|done]. destruct (scan_frac_reads _ _ _ E2) as [-> H2].
  destruct (scan_exp l2) as [[e l3]|] eqn:E3; [|done]. destruct (scan_exp_reads _ _ _ E3) as [-> H3].
  intros [= <- <-]. rewrite !forallb_app, Hs, H1, H2, H3, <- !app_assoc. done.
Qed.

Lemma quote_stays d l s : stays d (In d) l s -> stays d (Out d false) (34 :: l) s.
Proof. intros H. apply stays_cons; [simpl; lia|done]. Qed.

Lemma expect_reads word v l r rest :
  forallb wordy word = true -> expect word v l = Some (r, rest) -> exists pre, l = pre ++ rest /\ forallb wordy pre = true.
Proof.
  unfold expect. case_bool_decide as Hw; [|done]. intros Hword [= _ <-]. exists word. split; [|done].
  by rewrite <- Hw at 1; rewrite take_drop.
Qed.

(** [l] is the text of a value followed by [rest]. *)
Definition value_then (l rest : list Z) : Prop :=
  exists pre, l = pre ++ rest /\ forall d, exists x, stays d (Out d false) pre (Out d x).

Definition value_balanced (fuel : nat) : Prop :=
  forall depth l v rest, parse_value fuel depth l = Some (v, rest) -> value_then l rest.

(** What is read after an opened bracket ends with the one that closes it. *)
Definition closes (p : option (json * list Z)) (l : list Z) : Prop :=
  forall v rest, p = Some (v, rest) ->
  exists pre, l = pre ++ rest /\ forall d, stays (d + 1) (Out (d + 1) false) pre (Out d false).

Lemma close_stays b d x : b = 125 \/ b = 93 -> stays (d + 1) (Out (d + 1) x) [b] (Out d false).
Proof. intros [-> | ->]; (apply stays_one; simpl; [lia|]); by replace (d + 1 - 1) with d by lia. Qed.

Lemma separator_stays b d x l s : b = 58 \/ b = 44 -> stays d (Out d false) l s -> stays d (Out d x) (b :: l) s.
Proof. intros [-> | ->] H; (apply stays_cons; [simpl; lia|done]). Qed.

(** A closing bracket or a comma after a value. *)
Lemma next_closes pre l (b : Z) rest (close : Z) (last : json * list Z) (more : option (json * list Z)) :
  (close = 125 \/ close = 93) ->
  (forall d, exists x, stays d (Out d false) pre (Out d x)) ->
  skip_ws l = b :: rest -> snd last = rest -> closes more rest ->
  closes (if b =? close then Some last else if b =? 44 then more else None) (pre ++ l).
Proof.
  intros Hclose Hpre Hl Hlast Hmore v out. destruct (skip_ws_next _ _ _ Hl) as (ws & -> & Hws).
  destruct (b =? close) eqn:E1.
  - apply Z.eqb_eq in E1 as ->. intros [= ->]. simpl in Hlast. subst out. exists (pre ++ ws ++ [close]).
    split; [by rewrite <- !app_assoc|]. intros d. destruct (Hpre (d + 1)) as [x Hx].
    eapply stays_app; [exact Hx|]. eapply stays_app; [apply Hws|by apply close_stays].
  - destruct (b =? 44) eqn:E2; [|done]. apply Z.eqb_eq in E2 as ->. intros Hm. destruct (Hmore _ _ Hm) as (p & -> & Hp).
    exists (pre ++ ws ++ 44 :: p). split; [by rewrite <- !app_assoc|]. intros d. destruct (Hpre (d + 1)) as [x Hx].
    eapply stays_app; [exact Hx|]. eapply stays_app; [apply Hws|]. apply separator_stays; [by right|apply Hp].
Qed.

Lemma members_balanced fuel depth acc l :
  (forall k, (k < fuel)%nat -> value_balanced k) -> closes (parse_members fuel depth acc l) l.
Proof.
  revert depth acc l. induction fuel as [|fuel IH]; intros depth acc l Hv; [done|]. cbn [parse_members].
  destruct (skip_ws l) as [|q l1] eqn:E1; [done|]. destruct (q =? 34) eqn:Eq; [|done]. apply Z.eqb_eq in Eq as ->.
  destruct (skip_ws_next _ _ _ E1) as (w1 & -> & Hw1).
  destruct (scan_string l1) as [[key l2]|] eqn:E2; [|done]. destruct (scan_string_stays _ _ _ E2) as (ps & -> & Hps).
  destruct (skip_ws l2) as [|c l3] eqn:E3; [done|]. destruct (c =? 58) eqn:Ec; [|done]. apply Z.eqb_eq in Ec as ->.
  destruct (skip_ws_next _ _ _ E3) as (w3 & -> & Hw3).
  destruct (parse_value fuel depth l3) as [[v l4]|] eqn:E4; [|done]. destruct (Hv fuel ltac:(lia) _ _ _ _ E4) as (pv & -> & Hpv).
  destruct (skip_ws l4) as [|b l5] eqn:E5; [done|].
  replace (w1 ++ 34 :: ps ++ w3 ++ 58 :: pv ++ l4) with ((w1 ++ 34 :: ps ++ w3 ++ 58 :: pv) ++ l4) by by rewrite <- !app_assoc; simpl; rewrite <- !app_assoc.
  apply (next_closes _ _ b l5 125 (_, l5)); [by left| |done|done|apply IH; intros; apply Hv; lia].
  intros d. destruct (Hpv d) as [x Hx]. exists x. eapply stays_app; [apply Hw1|]. apply quote_stays. eapply stays_app; [apply Hps|].
  eapply stays_app; [apply Hw3|]. apply separator_stays; [by left|done].
Qed.

Lemma items_balanced fuel depth acc l :
  (forall k, (k < fuel)%nat -> value_balanced k) -> closes (parse_items fuel depth acc l) l.
Proof.
  revert depth acc l. induction fuel as [|fuel IH]; intros depth acc l Hv; [done|]. cbn [parse_items].
  destruct (parse_value fuel depth l) as [[v l4]|] eqn:E4; [|done]. destruct (Hv fuel ltac:(lia) _ _ _ _ E4) as (pv & -> & Hpv).
  destruct (skip_ws l4) as [|b l5] eqn:E5; [done|].
  apply (next_closes _ _ b l5 93 (_, l5)); [by right|apply Hpv|done|done|apply IH; intros; apply Hv; lia].
Qed.

(** An opened bracket, closed at once or after what [p] reads. *)
Lemma opened_closes close l (p : list Z -> option (json * list Z)) empty :
  (close = 125 \/ close = 93) -> closes (p l) l ->
  closes (match skip_ws l with c :: l' => if c =? close then Some (empty, l') else p l | [] => None end) l.
Proof.
  intros Hclose Hp v rest. destruct (skip_ws l) as [|c l'] eqn:E; [done|]. destruct (c =? close) eqn:Ec; [|by apply Hp].
  apply Z.eqb_eq in Ec as ->. intros [= _ <-]. destruct (skip_ws_next _ _ _ E) as (w' & -> & Hw').
  exists (w' ++ [close]). split; [by rewrite <- app_assoc|]. intros d. eapply stays_app; [apply Hw'|by apply close_stays].
Qed.

Lemma opened_balanced w open l r v rest :
  (open = 123 \/ open = 91) -> (forall d x, stays d (Out d x) w (Out d x)) -> closes r l -> r = Some (v, rest) ->
  value_then (w ++ open :: l) rest.
Proof.
  intros Hopen Hw Hr Heq. destruct (Hr _ _ Heq) as (pre & -> & Hpre). exists (w ++ open :: pre). split; [by rewrite <- app_assoc|].
  intros d. exists false. eapply stays_app; [apply Hw|]. apply stays_cons; [simpl; lia|].
  replace (lex_step (Out d false) open) with (Out (d + 1) false) by by destruct Hopen as [-> | ->].
  apply stays_weaken with (d + 1); [lia|]. apply Hpre.
Qed.

Lemma parse_value_balanced fuel : value_balanced fuel.
Proof.
  induction fuel as [fuel IH] using lt_wf_ind. destruct fuel as [|fuel]; [done|]. intros depth l v rest. cbn [parse_value].
  destruct (skip_ws l) as [|b l1] eqn:E; [done|]. destruct (skip_ws_next _ _ _ E) as (w & -> & Hw). clear E.
  assert (Hwordy : forall pre, b :: l1 = pre ++ rest -> forallb wordy pre = true -> value_then (w ++ b :: l1) rest).
  { intros pre Heq Hp. exists (w ++ pre). rewrite <- app_assoc, <- Heq. split; [done|]. intros d. exists false.
    eapply stays_app; [apply Hw|by apply wordy_stays]. }
  assert (Hexpect : forall word j, forallb wordy word = true -> expect word j (b :: l1) = Some (v, rest) -> value_then (w ++ b :: l1) rest).
  { intros word j Hword He. destruct (expect_reads _ _ _ _ _ Hword He) as (pre & Hl & Hp). by eapply Hwordy. }
  destruct (b =? 34) eqn:E34.
  { apply Z.eqb_eq in E34 as ->. destruct (scan_string l1) as [[raw r]|] eqn:Es; [|done]. intros [= _ <-].
    destruct (scan_string_stays _ _ _ Es) as (ps & -> & Hps). exists (w ++ 34 :: ps). split; [by rewrite <- app_assoc|].
    intros d. exists true. eapply stays_app; [apply Hw|]. by apply quote_stays. }
  destruct (b =? 123) eqn:E123.
  { apply Z.eqb_eq in E123 as ->. destruct (max_depth <=? depth); [done|]. apply (opened_balanced w 123); [by left|done|].
    apply (opened_closes 125 l1 (parse_members fuel (depth + 1) [])); [by left|]. apply members_balanced. intros; apply IH; lia. }
  destruct (b =? 91) eqn:E91.
  { apply Z.eqb_eq in E91 as ->. destruct (max_depth <=? depth); [done|]. apply (opened_balanced w 91); [by right|done|].
    apply (opened_closes 93 l1 (parse_items fuel (depth + 1) [])); [by right|]. apply items_balanced. intros; apply IH; lia. }
  destruct (b =? 116); [by apply Hexpect|]. destruct (b =? 102); [by apply Hexpect|]. destruct (b =? 110); [by apply Hexpect|].
  destruct (scan_number (b :: l1)) as [[text r]|] eqn:En; [|done]. intros [= _ <-].
  destruct (scan_number_reads _ _ _ En) as [Heq Hp]. by eapply Hwordy.
Qed.

(** A text that is read ends outside every bracket and string. *)
Lemma parse_balanced l j : parse l = Some j -> exists x, lex (Out 0 false) l = Out 0 x.
Proof.
  unfold parse. destruct (parse_value _ 0 l) as [[v rest]|] eqn:E; [|done]. destruct (parse_value_balanced _ _ _ _ _ E) as (pre & Hl & Hp).
  destruct (skip_ws_stays rest) as (ws & Hr & Hws). destruct (skip_ws rest) as [|]; [|done]. intros _. rewrite app_nil_r in Hr.
  destruct (Hp 0) as [x Hx]. exists x. rewrite Hl, lex_app_json, (stays_lex _ _ _ _ Hx), Hr. by apply (stays_lex 0).
Qed.

Lemma skip_ws_all l : skip_ws l = [] -> forallb is_ws l = true.
Proof. induction l as [|b l IH]; [done|]. simpl. by destruct (is_ws b). Qed.

(** An object with no blank after it is closed by its last byte, not earlier. *)
Lemma parse_object_closes l ms :
  parse (123 :: l) = Some (JObject ms) -> last l = Some 125 -> forall d, stays (d + 1) (Out (d + 1) false) l (Out d false).
Proof.
  unfold parse. generalize (length (123 :: l)) as fuel. intros fuel. cbn [parse_value]. rewrite skip_ws_head by done.
  change (123 =? 34) with false. change (123 =? 123) with true. change (max_depth <=? 0) with false. cbv iota.
  assert (Hc : closes (match skip_ws l with
    | c :: rest' => if c =? 125 then Some (JObject [], rest') else parse_members fuel (0 + 1) [] l | [] => None end) l).
  { apply (opened_closes 125 l (parse_members fuel (0 + 1) [])); [by left|]. apply members_balanced. intros; apply parse_value_balanced. }
  destruct (match skip_ws l with [] => _ | _ => _ end) as [[v rest]|]; [|done]. destruct (Hc _ _ eq_refl) as (pre & Hl & Hp).
  intros Hrest Hlast d. destruct (skip_ws rest) eqn:Er; [|done]. apply skip_ws_all in Er. destruct rest as [|b rest _] using rev_ind.
  - rewrite Hl, app_nil_r. apply Hp.
  - exfalso. rewrite Hl, app_assoc, last_snoc in Hlast. injection Hlast as ->. rewrite forallb_app, andb_true_iff in Er. by destruct Er.
Qed.

(** ** Pieces of objects *)

(** The text of an object with a named first member, as [json.Marshal] writes it. *)
Definition object_text (t : list Z) : Prop :=
  exists c l ms, t = 123 :: 34 :: c :: l /\ wordy c = true /\ last (c :: l) = Some 125 /\ parse t = Some (JObject ms).

(** Inside a bracket or string, what begins an object does not lead out. *)
Lemma piece_stays_deep s q t : object_text t -> q `prefix_of` t -> deep 1 s = true -> deep 1 (lex s q) = true.
Proof.
  intros (c & l & ms & -> & Hc & Hlast & Hparse) [tail Hq] Hs. assert (Hcl := parse_object_closes _ _ Hparse Hlast).
  destruct q as [|b q]; [done|]. injection Hq as <- Hq. rewrite lex_cons_json.
  destruct s as [d [|]|d|d|d k|]; simpl lex_step; try by rewrite lex_dead.
  - specialize (Hcl d). rewrite Hq in Hcl. destruct tail as [|b tail].
    + rewrite app_nil_r in Hcl. by rewrite (stays_lex _ _ _ _ Hcl).
    + apply stays_prefix in Hcl; [|done]. eapply deep_weaken; [|exact Hcl]. simpl in Hs. lia.
  - destruct q as [|q1 [|q2 q]]; [done|injection Hq as <- Hq; done|]. injection Hq as <- <- Hq. rewrite !lex_cons_json.
    replace (lex_step (lex_step (In d) 34) c) with Dead; [by rewrite lex_dead|]. simpl.
    unfold wordy, is_dig in Hc. rewrite (proj2 (Z.eqb_neq c 34)) by lia. replace ((c =? 123) || (c =? 91)) with false by lia.
    replace ((c =? 125) || (c =? 93)) with false by lia. replace ((c =? 58) || (c =? 44)) with false by lia.
    by replace (is_ws c) with false by (unfold is_ws; lia).
Qed.

Lemma pieces_stay_deep s qs :
  Forall (fun q => exists t, object_text t /\ q `prefix_of` t) qs -> deep 1 s = true -> deep 1 (lex s (concat qs)) = true.
Proof.
  intros H. revert s. induction H as [|q qs (t & Ht & Hq) _ IH]; intros s Hs; [done|]. simpl. rewrite lex_app_json. apply IH. by eapply piece_stays_deep.
Qed.

(** An object cut short, and whatever beginnings of objects follow it, are no JSON text. *)
Lemma torn_unreadable p t qs :
  object_text t -> p `prefix_of` t -> p <> [] -> p <> t ->
  Forall (fun q => exists t, object_text t /\ q `prefix_of` t) qs -> parse (p ++ concat qs) = None.
Proof.
  intros Ht Hp Hne Hstrict Hqs. destruct (parse (p ++ concat qs)) as [j|] eqn:E; [exfalso|done].
  apply parse_balanced in E as [x E]. rewrite lex_app_json in E.
  assert (Hd : deep 1 (lex (Out 0 false) p) = true).
  { destruct Ht as (c & l & ms & -> & Hc & Hlast & Hparse). pose proof (parse_object_closes _ _ Hparse Hlast 0) as Hcl.
    destruct Hp as [tail Htail]. destruct p as [|b p]; [done|]. injection Htail as <- Htail. rewrite Htail in Hcl.
    apply stays_prefix in Hcl; [done|]. intros ->. rewrite app_nil_r in Htail. by rewrite Htail in Hstrict. }
  pose proof (pieces_stay_deep _ _ Hqs Hd) as Hd'. rewrite E in Hd'. done.
Qed.

(** ** Objects of scalars *)

Definition visible (l : list Z) : Prop := Forall (fun b => 32 <= b) l.

Lemma escape_visible seg : stable seg -> visible (json_escape seg).
Proof.
  destruct seg as [r raw]. intros Hs. pose proof (stable_nonneg _ _ Hs) as H0. unfold json_escape, visible.
  destruct (r <? 128) eqn:Er.
  - repeat case_goal; bsimpl; repeat apply List.Forall_cons; try apply List.Forall_nil; try lia;
      unfold hex_digit; case_goal; rewrite byte_val_of; dlia.
  - destruct Hs as (_ & He & _). destruct (encode_high r ltac:(lia)) as [Hh _]. rewrite He in Hh.
    assert (Hraw : Forall (fun b => 32 <= b) raw) by (eapply Forall_impl; [exact Hh|simpl; lia]).
    assert (Hlit : forall k, forallb (fun b => 32 <=? b) (bytes k) = true -> Forall (fun b => 32 <= b) (bytes k)).
    { intros k Hk. rewrite forallb_forall in Hk. apply List.Forall_forall. intros b Hb. specialize (Hk b Hb). lia. }
    destruct raw as [|? [|? ?]]; repeat case_goal; try exact Hraw; by apply Hlit.
Qed.

Lemma plain_visible l : Forall plain l -> visible l.
Proof. intros H. eapply Forall_impl; [exact H|]. unfold plain. simpl. lia. Qed.

Lemma visible_app l1 l2 : visible l1 -> visible l2 -> visible (l1 ++ l2).
Proof. intros. by apply Forall_app. Qed.

Lemma visible_cons b l : 32 <= b -> visible l -> visible (b :: l).
Proof. intros. by apply List.Forall_cons. Qed.

Lemma json_string_visible s : valid_utf8 s = true -> visible (json_string s).
Proof.
  intros Hv. unfold json_string. destruct (segments_stable (bytes s) (bytes_range s) Hv) as [Hs _].
  apply visible_cons; [unfold quote; lia|]. apply visible_app; [|apply visible_cons; [unfold quote; lia|constructor]].
  unfold segments. induction Hs as [|seg segs Hseg _ IH]; [constructor|]. apply visible_app; [by apply escape_visible|done].
Qed.

Lemma scalar_visible v : scalar_ok v -> visible (scalar_text v).
Proof.
  destruct v as [s|z|b|t]; cbn [scalar_ok scalar_text].
  - apply json_string_visible.
  - intros Hz. assert (Hr := Hz). unfold in_int64, min_int64, max_int64, json_int in *. destruct (decide (z < 0)).
    + rewrite itoa_bytes_neg by done. destruct (natural_digits (- z)) as [Hd _]; [lia|].
      apply visible_cons; [lia|]. by apply plain_visible, plain_digits.
    + rewrite itoa_bytes_pos by lia. destruct (natural_digits z) as [Hd _]; [lia|]. by apply plain_visible, plain_digits.
  - intros _. destruct b; repeat (apply visible_cons; [vm_compute; discriminate|]); constructor.
  - intros Ht. apply visible_cons; [unfold quote; lia|]. apply visible_app; [by apply plain_visible, plain_rfc3339|].
    apply visible_cons; [unfold quote; lia|constructor].
Qed.

Lemma comma_sep_visible l : Forall visible l -> visible (comma_sep l).
Proof.
  induction 1 as [|x l Hx _ IH]; [constructor|]. destruct (decide (l = [])) as [->|Hne]; [done|].
  rewrite comma_sep_cons by done. apply visible_app; [done|]. by apply visible_cons.
Qed.

Lemma object_visible ms : Forall member_ok (present ms) -> visible (json_object (member_fields ms)).
Proof.
  intros Hok. unfold json_object. rewrite json_fields_present. apply visible_cons; [lia|].
  apply visible_app; [|apply visible_cons; [lia|constructor]]. apply comma_sep_visible, Forall_fmap.
  eapply Forall_impl; [exact Hok|]. intros [n v] [Hn Hv]. cbn [fst snd] in *. apply visible_app; [by apply json_string_visible|].
  apply visible_cons; [lia|]. by apply scalar_visible.
Qed.

(** An object whose first member is always there. *)
Lemma object_text_members n v ms c r :
  Forall member_ok (present ((n, Some v) :: ms)) -> escaped n = c :: r -> wordy c = true ->
  object_text (json_object (member_fields ((n, Some v) :: ms))).
Proof.
  intros Hok Hn Hc. pose proof (parse_object _ Hok) as Hp. revert Hp. unfold json_object. rewrite json_fields_present.
  fold (member_texts (present ((n, Some v) :: ms))).
  assert (Hhead : exists l, comma_sep (member_texts (present ((n, Some v) :: ms))) = 34 :: c :: l).
  { change (present ((n, Some v) :: ms)) with ((n, v) :: present ms). unfold member_texts. rewrite fmap_cons. cbn [fst snd].
    destruct (present ms) as [|m l]; [cbn [fmap list_fmap comma_sep]|rewrite fmap_cons, comma_sep_cons, <- app_assoc by done];
      rewrite json_string_shape, Hn; eauto. }
  destruct Hhead as [l ->]. intros Hp. exists c, (l ++ [125]), (member_tree <$> present ((n, Some v) :: ms)). split_and!; [done|done| |done].
  rewrite app_comm_cons. by rewrite last_snoc.
Qed.
