(* ===== verification/JsonTree.v ===== *)
(** * JSON trees as text: nested values, compact or indented

    [write] is the text [json.Marshal] gives a tree, and [json.MarshalIndent(v, "", "  ")] when
    [indent] is set: members and items on lines of their own, two blanks per level, a blank after
    the colon.  [parse_write]: every tree that is not too deep reads back from its text.  The
    setters read slices, pointers to structs, unsigned integers and floats; [decode_ms] is
    the reading of a struct's members one after the other, with a lemma for each kind of member;
    [write_members] and [read_members] apply them. *)

From Stdlib Require Import ZifyBool.
From S2P Require Import Prelude GoString GoSort GoFloat Json JsonDecode JsonRoundTrip.

(** ** Writing *)

(** A line break with the indentation of a level. *)
Definition newline (indent : bool) (level : nat) : list Z := if indent then 10 :: replicate (2 * level) 32 else [].
Definition colon (indent : bool) : list Z := if indent then [58; 32] else [58].

Fixpoint write (indent : bool) (level : nat) (j : json) : list Z :=
  match j with
  | JNull => bytes "null"
  | JBool b => json_bool b
  | JNumber text => text
  | JString raw => 34 :: raw ++ [34]
  | JArray [] => bytes "[]"
  | JArray items =>
      91 :: comma_sep ((fun item => newline indent (S level) ++ write indent (S level) item) <$> items)
      ++ newline indent level ++ [93]
  | JObject [] => bytes "{}"
  | JObject members =>
      123 :: comma_sep ((fun m => newline indent (S level) ++ 34 :: m.1 ++ 34 :: colon indent ++ write indent (S level) m.2) <$> members)
      ++ newline indent level ++ [125]
  end.

(** ** The trees that are read back *)

(** A number's text as the scanner takes it. *)
Definition number_ok (text : list Z) : Prop :=
  (exists b l, text = b :: l /\ (b = 45 \/ 48 <= b <= 57))
  /\ forall rest, ends_number rest = true -> scan_number (text ++ rest) = Some (text, rest).

Definition raw_ok (raw : list Z) : Prop := forall rest, scan_string (raw ++ 34 :: rest) = Some (raw, rest).

(** Well-formed, and at most [depth] levels of brackets. *)
Inductive writable : Z -> json -> Prop :=
| wr_null d : writable d JNull
| wr_bool d b : writable d (JBool b)
| wr_number d text : number_ok text -> writable d (JNumber text)
| wr_string d raw : raw_ok raw -> writable d (JString raw)
| wr_array d items : 0 < d -> Forall (writable (d - 1)) items -> writable d (JArray items)
| wr_object d members : 0 < d -> Forall (fun m => raw_ok m.1 /\ writable (d - 1) m.2) members -> writable d (JObject members).

Lemma writable_le d e j : writable d j -> d <= e -> writable e j.
Proof.
  revert d e j. fix IH 4. intros d e j H Hle. destruct H as [d|d b|d text H|d raw H|d items Hd H|d ms Hd H].
  - constructor.
  - constructor.
  - by constructor.
  - by constructor.
  - constructor; [lia|]. induction H as [|j l Hj _ IHl]; [constructor|]. constructor; [|done]. apply (IH (d - 1)); [done|lia].
  - constructor; [lia|]. induction H as [|m l [Hm Hj] _ IHl]; [constructor|]. constructor; [|done]. split; [done|]. apply (IH (d - 1)); [done|lia].
Qed.

(** What the parser needs: one unit for each value, member and item. *)
Fixpoint weight (j : json) : nat :=
  match j with
  | JArray items => 1 + length items + list_max (weight <$> items)
  | JObject members => 1 + length members + list_max (weight ∘ snd <$> members)
  | _ => 1
  end.

Lemma weight_positive j : (0 < weight j)%nat.
Proof. destruct j; simpl; lia. Qed.

Lemma skip_newline indent level l : skip_ws (newline indent level ++ l) = skip_ws l.
Proof.
  destruct indent; [|done]. unfold newline. cbn [app skip_ws]. change (is_ws 10) with true. cbv iota.
  induction (2 * level)%nat as [|n IH]; [done|]. cbn [replicate app skip_ws]. change (is_ws 32) with true. cbv iota. exact IH.
Qed.

(** The first byte of a value's text. *)
Lemma write_head indent level d j : writable d j -> exists b l, write indent level j = b :: l /\ is_ws b = false /\ b <> 93 /\ b <> 125.
Proof.
  intros H. destruct H as [d|d b|d text [(b & l & -> & Hb) _]|d raw _|d items _ _|d ms _ _].
  - by eexists _, _.
  - destruct b; by eexists _, _.
  - exists b, l. split; [done|]. unfold is_ws. lia.
  - by eexists _, _.
  - destruct items; by eexists _, _.
  - destruct ms; by eexists _, _.
Qed.

Lemma comma_items x (l : list (list Z)) rest :
  comma_sep (x :: l) ++ rest = x ++ match l with [] => rest | _ => 44 :: comma_sep l ++ rest end.
Proof. destruct l as [|y l]; [done|]. rewrite comma_sep_cons by done. by rewrite <- app_assoc. Qed.

Lemma ends_newline indent level b rest : (b = 93 \/ b = 125 \/ b = 44) -> ends_number (newline indent level ++ b :: rest) = true.
Proof. intros H. destruct indent; [done|]. cbn [newline app]. unfold ends_number, is_dig. lia. Qed.

Lemma parse_value_ws fuel depth indent level l :
  parse_value fuel depth (newline indent level ++ l) = parse_value fuel depth l.
Proof. destruct fuel; [done|]. cbn [parse_value]. by rewrite skip_newline. Qed.

Section Parse.
Context (indent : bool).

Definition reads (fuel : nat) (level : nat) (depth : Z) (j : json) : Prop :=
  forall rest, ends_number rest = true -> parse_value fuel depth (write indent level j ++ rest) = Some (j, rest).

Lemma parse_items_write fuel depth level items acc rest :
  items <> [] -> (length items <= fuel)%nat ->
  Forall (fun j => forall f, (fuel - length items <= f)%nat -> reads f (S level) depth j) items ->
  parse_items fuel depth acc (comma_sep ((fun item => newline indent (S level) ++ write indent (S level) item) <$> items)
    ++ newline indent level ++ 93 :: rest) = Some (JArray (acc ++ items), rest).
Proof.
  set (f := fun item => newline indent (S level) ++ write indent (S level) item).
  revert fuel acc. induction items as [|j items IH]; intros fuel acc Hne Hf Hj; [done|].
  destruct fuel as [|fuel]; [simpl in Hf; lia|]. apply Forall_cons in Hj as [Hj Hjs].
  rewrite fmap_cons, comma_items. unfold f at 1. rewrite <- app_assoc. cbn [parse_items]. rewrite parse_value_ws.
  rewrite (Hj fuel); [|simpl in *; lia|destruct items; [by apply ends_newline; left|done]].
  destruct items as [|j' items].
  - cbn [fmap list_fmap]. rewrite skip_newline, skip_ws_head by done. change (93 =? 93) with true. cbv iota. done.
  - rewrite fmap_cons. rewrite skip_ws_head by done. change (44 =? 93) with false. change (44 =? 44) with true. cbv iota.
    change (f j' :: (f <$> items)) with (f <$> j' :: items). rewrite IH; [by rewrite <- app_assoc|done|simpl in *; lia|].
    eapply Forall_impl; [exact Hjs|]. intros x Hx g Hle. apply Hx. simpl in *. lia.
Qed.

Lemma parse_members_write fuel depth level ms acc rest :
  ms <> [] -> (length ms <= fuel)%nat ->
  Forall (fun m => raw_ok m.1 /\ forall f, (fuel - length ms <= f)%nat -> reads f (S level) depth m.2) ms ->
  parse_members fuel depth acc (comma_sep ((fun m => newline indent (S level) ++ 34 :: m.1 ++ 34 :: colon indent ++ write indent (S level) m.2) <$> ms)
    ++ newline indent level ++ 125 :: rest) = Some (JObject (acc ++ ms), rest).
Proof.
  set (f := fun m : list Z * json => newline indent (S level) ++ 34 :: m.1 ++ 34 :: colon indent ++ write indent (S level) m.2).
  revert fuel acc. induction ms as [|[n j] ms IH]; intros fuel acc Hne Hf Hj; [done|].
  destruct fuel as [|fuel]; [simpl in Hf; lia|]. apply Forall_cons in Hj as [[Hn Hj] Hjs]. cbn [fst snd] in *.
  rewrite fmap_cons, comma_items. unfold f at 1. cbn [fst snd]. rewrite <- app_assoc. cbn [parse_members]. rewrite skip_newline.
  rewrite <- app_comm_cons, skip_ws_head by done. change (34 =? 34) with true. cbv iota.
  rewrite <- app_assoc, <- app_comm_cons, Hn, <- app_assoc.
  assert (Hc : forall l, skip_ws (colon indent ++ l) = 58 :: (if indent then 32 :: l else l)) by (intros l; by destruct indent).
  rewrite Hc. change (58 =? 58) with true. cbv iota.
  assert (Hv : forall rest, ends_number rest = true ->
    parse_value fuel depth (if indent then 32 :: write indent (S level) j ++ rest else write indent (S level) j ++ rest) = Some (j, rest)).
  { intros r Hr. pose proof (Hj fuel ltac:(simpl in *; lia) r Hr) as Hjr. destruct indent; [|done].
    destruct fuel; [done|]. cbn [parse_value] in *. exact Hjr. }
  rewrite Hv; [|destruct ms; [by apply ends_newline; auto|done]].
  destruct ms as [|m' ms].
  - cbn [fmap list_fmap]. rewrite skip_newline, skip_ws_head by done. change (125 =? 125) with true. cbv iota. done.
  - rewrite fmap_cons. rewrite skip_ws_head by done. change (44 =? 125) with false. change (44 =? 44) with true. cbv iota.
    change (f m' :: (f <$> ms)) with (f <$> m' :: ms). rewrite IH; [by rewrite <- app_assoc|done|simpl in *; lia|].
    eapply Forall_impl; [exact Hjs|]. intros x [H1 Hx]. split; [done|]. intros g Hle. apply Hx. simpl in *. lia.
Qed.
End Parse.

Lemma list_max_in {A} (w : A -> nat) (l : list A) x : x ∈ l -> (w x <= list_max (w <$> l))%nat.
Proof.
  induction l as [|y l IH]; intros Hin; [by inversion Hin|]. rewrite fmap_cons. cbn [list_max fold_right].
  apply elem_of_cons in Hin as [->|Hin]; [|specialize (IH Hin); unfold list_max in IH]; lia.
Qed.

Lemma skip_head indent level d j l : writable d j ->
  exists b r, skip_ws (newline indent level ++ write indent level j ++ l) = b :: r /\ b <> 93 /\ b <> 125.
Proof.
  intros H. destruct (write_head indent level d j H) as (b & r & Hw & Hws & H1 & H2). exists b, (r ++ l).
  by rewrite skip_newline, Hw, <- app_comm_cons, skip_ws_head.
Qed.

(** A tree's text is read as the tree. *)
Lemma parse_value_write indent n : forall j fuel level depth,
  (weight j <= n)%nat -> (weight j <= fuel)%nat -> writable (max_depth - depth) j -> reads indent fuel level depth j.
Proof.
  induction n as [|n IH]; intros j fuel level depth Hn Hf Hw rest Hrest; [pose proof (weight_positive j); lia|].
  destruct fuel as [|fuel]; [pose proof (weight_positive j); lia|].
  destruct j as [|b|text|raw|items|ms]; inversion Hw as [| |? ? [(h & l & Htext & Hh) Hscan]|? ? Hraw|? ? Hd Hi|? ? Hd Hi]; subst.
  - done.
  - by destruct b.
  - specialize (Hscan rest Hrest). cbn [write] in *. rewrite <- app_comm_cons in *. cbn [parse_value].
    rewrite skip_ws_head by (unfold is_ws; lia). repeat (rewrite (proj2 (Z.eqb_neq h _)) by lia). by rewrite Hscan.
  - cbn [write]. rewrite <- app_comm_cons, <- app_assoc. apply parse_quoted. exact (Hraw rest).
  - assert (Hlt : (max_depth <=? depth) = false) by lia. destruct items as [|j items].
    { cbn. by rewrite Hlt. }
    cbn [write]. rewrite <- app_comm_cons, <- !app_assoc. cbn [app parse_value]. rewrite skip_ws_head by done.
    change (91 =? 34) with false. change (91 =? 123) with false. change (91 =? 91) with true. cbv iota. rewrite Hlt.
    cbn [weight length] in *.
    assert (Hp : parse_items fuel (depth + 1) [] (comma_sep ((fun item => newline indent (S level) ++ write indent (S level) item) <$> j :: items)
      ++ newline indent level ++ 93 :: rest) = Some (JArray (j :: items), rest)).
    { rewrite parse_items_write; [done|done|cbn [length]; lia|]. apply Forall_forall. intros x Hx f Hle. apply (IH x f).
      - pose proof (list_max_in weight (j :: items) x Hx). lia.
      - pose proof (list_max_in weight (j :: items) x Hx). cbn [length] in Hle. lia.
      - replace (max_depth - (depth + 1)) with (max_depth - depth - 1) by lia. rewrite Forall_forall in Hi. by apply Hi. }
    rewrite Hp, fmap_cons, comma_items. apply Forall_cons in Hi as [Hj _].
    match goal with |- context [skip_ws ((?a ++ ?w) ++ ?l)] => destruct (skip_head indent (S level) _ j l Hj) as (b & r & Hs & Hb & _); rewrite <- app_assoc, Hs end.
    by rewrite (proj2 (Z.eqb_neq b 93) Hb).
  - assert (Hlt : (max_depth <=? depth) = false) by lia. destruct ms as [|m ms].
    { cbn. by rewrite Hlt. }
    cbn [write]. rewrite <- app_comm_cons, <- !app_assoc. cbn [app parse_value]. rewrite skip_ws_head by done.
    change (123 =? 34) with false. change (123 =? 123) with true. cbv iota. rewrite Hlt.
    cbn [weight length] in *.
    assert (Hp : parse_members fuel (depth + 1) [] (comma_sep ((fun m => newline indent (S level) ++ 34 :: m.1 ++ 34 :: colon indent ++ write indent (S level) m.2) <$> m :: ms)
      ++ newline indent level ++ 125 :: rest) = Some (JObject (m :: ms), rest)).
    { rewrite parse_members_write; [done|done|cbn [length]; lia|]. apply Forall_forall. intros x Hx. rewrite Forall_forall in Hi.
      destruct (Hi x Hx) as [Hr Hx2]. split; [done|]. intros f Hle. pose proof (list_max_in (weight ∘ snd) (m :: ms) x Hx) as Hm. apply (IH x.2 f).
      - simpl in *. lia.
      - cbn [length] in Hle. simpl in *. lia.
      - by replace (max_depth - (depth + 1)) with (max_depth - depth - 1) by lia. }
    rewrite Hp, fmap_cons, comma_items, <- app_assoc, skip_newline, <- app_comm_cons, skip_ws_head by done. done.
Qed.

(** The text is long enough to be the fuel. *)
Lemma comma_sep_bound (l : list (list Z)) : Forall (fun x => (0 < length x)%nat) l -> l <> [] ->
  (length l + list_max (length <$> l) <= S (length (comma_sep l)))%nat.
Proof.
  induction 1 as [|x l Hx Hl IH]; [done|]. intros _. destruct l as [|y l]; [simpl; lia|].
  specialize (IH ltac:(done)). rewrite comma_sep_cons by done. rewrite fmap_cons. cbn [list_max fold_right length app] in *.
  rewrite length_app. cbn [length]. unfold list_max in IH. lia.
Qed.

Lemma list_max_le {A} (f g : A -> nat) l : Forall (fun x => (f x <= g x)%nat) l -> (list_max (f <$> l) <= list_max (g <$> l))%nat.
Proof. induction 1 as [|x l Hx _ IH]; [done|]. rewrite !fmap_cons. cbn [list_max fold_right]. unfold list_max in IH. lia. Qed.

(** The bound for one list of texts, each longer than its part's weight. *)
Lemma texts_bound {A} (w : A -> nat) (text : A -> list Z) l : l <> [] -> Forall (fun x => (0 < w x <= length (text x))%nat) l ->
  (length l + list_max (w <$> l) <= S (length (comma_sep (text <$> l))))%nat.
Proof.
  intros Hne Hle. pose proof (comma_sep_bound (text <$> l)) as Hb. rewrite length_fmap, <- list_fmap_compose in Hb.
  assert (H1 : Forall (fun x => (0 < length x)%nat) (text <$> l)).
  { apply Forall_fmap. eapply Forall_impl; [exact Hle|]. simpl. lia. }
  assert (H2 : text <$> l <> []) by (destruct l; done). specialize (Hb H1 H2).
  assert (Hm : (list_max (w <$> l) <= list_max (length ∘ text <$> l))%nat).
  { apply list_max_le. eapply Forall_impl; [exact Hle|]. simpl. lia. }
  lia.
Qed.

Lemma weight_length indent n : forall j level d, (weight j <= n)%nat -> writable d j -> (weight j <= length (write indent level j))%nat.
Proof.
  induction n as [|n IH]; intros j level d Hn Hw; [pose proof (weight_positive j); lia|].
  destruct j as [|b|text|raw|items|ms]; inversion Hw as [| |? ? [(h & l & -> & _) _]|? ? _|? ? _ Hi|? ? _ Hi]; subst.
  - cbn. lia.
  - destruct b; cbn; lia.
  - cbn. lia.
  - cbn. lia.
  - destruct items as [|j items]; [cbn; lia|]. cbn [write weight] in *. cbn [length]. rewrite !length_app.
    assert (Hb : (length (j :: items) + list_max (weight <$> j :: items)
      <= S (length (comma_sep ((fun item => newline indent (S level) ++ write indent (S level) item) <$> j :: items))))%nat).
    { apply texts_bound; [done|]. apply Forall_forall. intros x Hx. rewrite length_app. rewrite Forall_forall in Hi.
      pose proof (list_max_in weight (j :: items) x Hx) as Hm. cbn [length] in Hn.
      pose proof (IH x (S level) (d - 1) ltac:(lia) (Hi x Hx)). pose proof (weight_positive x). lia. }
    cbn [length] in *. lia.
  - destruct ms as [|m ms]; [cbn; lia|]. cbn [write weight] in *. cbn [length]. rewrite !length_app.
    assert (Hb : (length (m :: ms) + list_max (weight ∘ snd <$> m :: ms)
      <= S (length (comma_sep ((fun m : list Z * json => newline indent (S level) ++ 34%Z :: m.1 ++ 34%Z :: colon indent ++ write indent (S level) m.2) <$> m :: ms))))%nat).
    { apply texts_bound; [done|]. apply Forall_forall. intros x Hx. rewrite !length_app. cbn [length]. rewrite !length_app. cbn [length].
      rewrite !length_app. rewrite Forall_forall in Hi.
      pose proof (list_max_in (weight ∘ snd) (m :: ms) x Hx) as Hm. cbn [length] in Hn. unfold compose at 1 in Hm.
      pose proof (IH x.2 (S level) (d - 1) ltac:(lia) (proj2 (Hi x Hx))). pose proof (weight_positive x.2). unfold compose. lia. }
    cbn [length] in *. lia.
Qed.

(** A tree's text, compact or indented, is parsed as the tree. *)
Lemma parse_write indent j : writable max_depth j -> parse (write indent 0 j) = Some j.
Proof.
  intros Hw. unfold parse. pose proof (weight_length indent (weight j) j 0%nat max_depth ltac:(lia) Hw) as Hl.
  assert (Hr : reads indent (S (length (write indent 0 j))) 0 0 j).
  { apply (parse_value_write indent (weight j)); [lia|lia|]. by rewrite Z.sub_0_r. }
  specialize (Hr [] eq_refl). rewrite app_nil_r in Hr. by rewrite Hr.
Qed.

(** ** Values *)

(** The tree of a value; [None] is a member that is left out. *)
Definition string_tree (s : string) : json := JString (escaped s).
Definition int_tree (z : Z) : json := JNumber (json_int z).

(** The zone of the process: the offset from UTC that is in force at an instant, in seconds; whole
    minutes, and less than a day. *)
Class Zone := zone : Time -> Z.
Class ZoneLaws (Zn : Zone) := zone_offset t : offset_ok (zone t).

Definition time_tree {Zn : Zone} (t : Time) : json := JString (rfc3339_at (zone t) t).

(** [time.Time.MarshalJSON] fails when the year that the clock shows has more than four digits. *)
Definition clock_in_range {Zn : Zone} (t : Time) : bool := time_in_range (t + zone t * second).

Definition utc : Zone := fun _ => 0.
#[export] Instance utc_laws : ZoneLaws utc.
Proof. done. Qed.

Lemma string_writable d s : valid_utf8 s = true -> writable d (string_tree s).
Proof. intros Hv. constructor. intros rest. by apply scan_json_string. Qed.

Lemma int_writable d z : in_int64 z -> writable d (int_tree z).
Proof. intros Hz. constructor. split; [by apply json_int_head|intros rest; by apply scan_json_int]. Qed.

Lemma natural_writable d z : 0 <= z < 10 ^ 20 -> writable d (int_tree z).
Proof.
  intros Hz. constructor. split; [|intros rest; by apply scan_natural].
  destruct (natural_head z Hz) as (b & l & H & Hb). exists b, l. auto.
Qed.

Lemma time_writable {Zn : Zone} {ZL : ZoneLaws Zn} d t : clock_in_range t = true -> writable d (time_tree t).
Proof. intros Ht. constructor. intros rest. by apply scan_plain_all, plain_rfc3339_at, zone_offset. Qed.

(** *** Structs *)

Definition members : Type := list (string * option json).

Definition present_members (ms : members) : list (list Z * json) :=
  omap (fun m : string * option json => pair (escaped m.1) <$> m.2) ms.

(** A struct's tree; a member without a value is left out. *)
Definition struct_tree (ms : members) : json := JObject (present_members ms).

(** [omitempty]. *)
Definition omit_if (empty : bool) (j : json) : option json := if empty then None else Some j.
Definition omit_string (s : string) : option json := omit_if (s =s "") (string_tree s).
Definition omit_int (z : Z) : option json := omit_if (z =? 0) (int_tree z).
Definition omit_false (b : bool) : option json := omit_if (negb b) (JBool b).

(** A slice; one that is nil is [null], and reads back as the empty one does. *)
Definition slice_tree {A} (tree : A -> json) (l : list A) : json := match l with [] => JNull | _ => JArray (tree <$> l) end.
Definition omit_slice {A} (tree : A -> json) (l : list A) : option json := match l with [] => None | _ => Some (JArray (tree <$> l)) end.

Definition member_writable (d : Z) (m : string * option json) : Prop :=
  valid_utf8 m.1 = true /\ match m.2 with Some j => writable d j | None => True end.

Lemma struct_writable d ms : 1 < d -> Forall (member_writable (d - 1)) ms -> writable d (struct_tree ms).
Proof.
  intros Hd H. constructor; [lia|]. induction H as [|[n [j|]] ms [Hn Hj] _ IH]; [constructor| |exact IH].
  unfold present_members. cbn [omap list_omap fst snd fmap option_fmap option_map]. constructor; [|exact IH].
  split; [|done]. intros rest. by apply scan_json_string.
Qed.

Lemma slice_writable {A} d (tree : A -> json) l : 1 < d -> Forall (fun x => writable (d - 1) (tree x)) l -> writable d (slice_tree tree l).
Proof. intros Hd H. destruct l as [|x l]; [constructor|]. constructor; [lia|]. by apply Forall_fmap. Qed.

Lemma strings_writable d l : 1 < d -> Forall (fun s => valid_utf8 s = true) l -> writable d (slice_tree string_tree l).
Proof. intros Hd H. apply slice_writable; [done|]. eapply Forall_impl; [exact H|]. intros s Hs. by apply string_writable. Qed.

(** *** Reading them *)

(** A slice that is nil before: its items are read one by one. *)
Definition as_slice {S A} (elem : setter A) (zero : A) (set : list A -> S -> S) : setter S := fun j s =>
  match j with
  | JArray items => match mapM (fun item => elem item zero) items with Some l => Some (set l s) | None => None end
  | JNull => Some (set [] s)
  | _ => None
  end.

(** A pointer: [null] is nil, a value is read into what it points to, or into a new zero. *)
Definition as_pointer {S A} (elem : setter A) (zero : A) (get : S -> option A) (set : option A -> S -> S) : setter S := fun j s =>
  match j with
  | JNull => Some (set None s)
  | _ => match elem j (default zero (get s)) with Some a => Some (set (Some a) s) | None => None end
  end.

(** [strconv.ParseUint(text, 10, 64)] of a JSON number. *)
Definition parse_uint64 (text : list Z) : option Z :=
  let z := digits_value 0 text in
  if forallb is_dig text && bool_decide (text <> []) && (z <? 18446744073709551616) then Some z else None.

Definition as_uint {S} (set : Z -> S -> S) : setter S := fun j s =>
  match j with
  | JNumber text => match parse_uint64 text with Some z => Some (set z s) | None => None end
  | JNull => Some s
  | _ => None
  end.

Lemma parse_uint_text z : 0 <= z < 18446744073709551616 -> parse_uint64 (json_int z) = Some z.
Proof.
  intros Hz. unfold parse_uint64, json_int. rewrite itoa_bytes_pos by lia. destruct (natural_digits z) as (Hd & Hv & Hs); [lia|].
  rewrite Hd, Hv. destruct (digits_from 20 z []); [by specialize (Hs [] eq_refl)|]. rewrite bool_decide_eq_true_2 by done.
  by rewrite (proj2 (Z.ltb_lt _ _)) by lia.
Qed.

(** [strconv]'s floats: the shortest text and its inverse, for [float64] and [float32]. *)
Class FloatText := {
  float_text : float -> list Z;
  float_parse : list Z -> option float;
  float32_text : float -> list Z;
  float32_parse : list Z -> option float;
}.

Definition finite (f : float) : bool := match Prim2SF f with S754_nan | S754_infinity _ => false | _ => true end.

(** A finite number is written as a JSON number that reads back as the same number. *)
Class FloatTextLaws (F : FloatText) (is_float32 : float -> Prop) := {
  float_number f : finite f = true -> number_ok (float_text f);
  float_read f : finite f = true -> float_parse (float_text f) = Some f;
  float32_number f : finite f = true -> number_ok (float32_text f);
  float32_read f : finite f = true -> is_float32 f -> float32_parse (float32_text f) = Some f;
}.

Definition as_float {S} (parse : list Z -> option float) (set : float -> S -> S) : setter S := fun j s =>
  match j with
  | JNumber text => match parse text with Some f => Some (set f s) | None => None end
  | JNull => Some s
  | _ => None
  end.

(** *** Round trips of members *)

Definition decode_ms {S} (fields : list (string * setter S)) (ms : members) (s : S) : option S :=
  fold_left (set_member fields) (present_members ms) (Some s).

Lemma decode_tree {S} (fields : list (string * setter S)) ms s : decode_struct fields (struct_tree ms) s = decode_ms fields ms s.
Proof. done. Qed.

Section Members.
Context {S : Type} (fields : list (string * setter S)).

Lemma ms_done s : decode_ms fields [] s = Some s.
Proof. done. Qed.

Lemma ms_cons n j (set : setter S) ms s s' :
  valid_utf8 n = true -> find_field fields n = Some set -> set j s = Some s' ->
  decode_ms fields ((n, Some j) :: ms) s = decode_ms fields ms s'.
Proof.
  intros Hn Hf Hset. unfold decode_ms, present_members. cbn [omap list_omap snd fst fmap option_fmap option_map fold_left].
  unfold set_member at 2. cbn [fst snd]. by rewrite unquote_json_string, Hf, Hset by done.
Qed.

Lemma ms_omit n b j (set : setter S) ms s s' :
  valid_utf8 n = true -> find_field fields n = Some set -> (b = false -> set j s = Some s') -> (b = true -> s = s') ->
  decode_ms fields ((n, omit_if b j) :: ms) s = decode_ms fields ms s'.
Proof.
  intros Hn Hf H1 H2. destruct b; [by rewrite <- H2|]. cbn [omit_if]. eapply ms_cons; [done|done|by apply H1].
Qed.

Lemma ms_string n set ms s v : valid_utf8 n = true -> find_field fields n = Some (as_string set) -> valid_utf8 v = true ->
  decode_ms fields ((n, Some (string_tree v)) :: ms) s = decode_ms fields ms (set v s).
Proof. intros Hn Hf Hv. eapply ms_cons; [done|done|]. simpl. by rewrite unquote_json_string. Qed.

Lemma ms_omit_string n set ms s v : valid_utf8 n = true -> find_field fields n = Some (as_string set) -> valid_utf8 v = true ->
  set "" s = s -> decode_ms fields ((n, omit_string v) :: ms) s = decode_ms fields ms (set v s).
Proof.
  intros Hn Hf Hv H0. eapply ms_omit; [done|done| |].
  - intros _. simpl. by rewrite unquote_json_string.
  - intros ->%str_eqb_true. done.
Qed.

Lemma ms_int n set ms s v : valid_utf8 n = true -> find_field fields n = Some (as_int set) -> in_int64 v ->
  decode_ms fields ((n, Some (int_tree v)) :: ms) s = decode_ms fields ms (set v s).
Proof. intros Hn Hf Hv. eapply ms_cons; [done|done|]. simpl. by rewrite parse_json_int. Qed.

Lemma ms_omit_int n set ms s v : valid_utf8 n = true -> find_field fields n = Some (as_int set) -> in_int64 v ->
  set 0 s = s -> decode_ms fields ((n, omit_int v) :: ms) s = decode_ms fields ms (set v s).
Proof.
  intros Hn Hf Hv H0. eapply ms_omit; [done|done| |].
  - intros _. simpl. by rewrite parse_json_int.
  - intros ->%Z.eqb_eq. done.
Qed.

Lemma ms_bool n set ms s v : valid_utf8 n = true -> find_field fields n = Some (as_bool set) ->
  decode_ms fields ((n, Some (JBool v)) :: ms) s = decode_ms fields ms (set v s).
Proof. intros Hn Hf. by eapply ms_cons. Qed.

Lemma ms_omit_false n set ms s v : valid_utf8 n = true -> find_field fields n = Some (as_bool set) ->
  set false s = s -> decode_ms fields ((n, omit_false v) :: ms) s = decode_ms fields ms (set v s).
Proof. intros Hn Hf H0. eapply ms_omit; [done|done|done|]. by destruct v. Qed.

Lemma ms_time {Zn : Zone} {ZL : ZoneLaws Zn} n set ms s v : valid_utf8 n = true -> find_field fields n = Some (as_time set) -> clock_in_range v = true ->
  decode_ms fields ((n, Some (time_tree v)) :: ms) s = decode_ms fields ms (set v s).
Proof. intros Hn Hf Hv. eapply ms_cons; [done|done|]. unfold time_tree. cbn [as_time]. by rewrite parse_rfc3339_at by (done || apply zone_offset). Qed.

Lemma ms_uint n set ms s v : valid_utf8 n = true -> find_field fields n = Some (as_uint set) -> 0 <= v < 18446744073709551616 ->
  decode_ms fields ((n, Some (int_tree v)) :: ms) s = decode_ms fields ms (set v s).
Proof. intros Hn Hf Hv. eapply ms_cons; [done|done|]. cbn [as_uint int_tree]. by rewrite parse_uint_text. Qed.

Lemma ms_float n parse set ms s v text : valid_utf8 n = true -> find_field fields n = Some (as_float parse set) -> parse text = Some v ->
  decode_ms fields ((n, Some (JNumber text)) :: ms) s = decode_ms fields ms (set v s).
Proof. intros Hn Hf Hv. eapply ms_cons; [done|done|]. cbn [as_float]. by rewrite Hv. Qed.

(** A slice whose items read back. *)
Lemma slice_read {A} (elem : setter A) zero tree (set : list A -> S -> S) l s :
  Forall (fun x => elem (tree x) zero = Some x) l -> as_slice elem zero set (JArray (tree <$> l)) s = Some (set l s).
Proof.
  intros H. cbn [as_slice]. assert (E : mapM (fun item => elem item zero) (tree <$> l) = Some l).
  { induction H as [|x l Hx _ IH]; [done|]. rewrite fmap_cons. cbn [mapM]. by rewrite Hx, IH. }
  by rewrite E.
Qed.

Lemma ms_slice {A} n (elem : setter A) zero tree set ms s l :
  valid_utf8 n = true -> find_field fields n = Some (as_slice elem zero set) -> Forall (fun x => elem (tree x) zero = Some x) l ->
  decode_ms fields ((n, Some (slice_tree tree l)) :: ms) s = decode_ms fields ms (set l s).
Proof. intros Hn Hf Hl. eapply ms_cons; [done|done|]. destruct l as [|x l]; [done|]. by apply slice_read. Qed.

Lemma ms_omit_slice {A} n (elem : setter A) zero tree set ms s l :
  valid_utf8 n = true -> find_field fields n = Some (as_slice elem zero set) -> Forall (fun x => elem (tree x) zero = Some x) l ->
  set [] s = s -> decode_ms fields ((n, omit_slice tree l) :: ms) s = decode_ms fields ms (set l s).
Proof.
  intros Hn Hf Hl H0. destruct l as [|x l]; [by rewrite H0|]. cbn [omit_slice]. eapply ms_cons; [done|done|].
  change (JArray (tree <$> x :: l)) with (JArray (tree <$> (x :: l))). by apply slice_read.
Qed.

(** A slice that [make] made. *)
Lemma ms_list {A} n (elem : setter A) zero tree set ms s l :
  valid_utf8 n = true -> find_field fields n = Some (as_slice elem zero set) -> Forall (fun x => elem (tree x) zero = Some x) l ->
  decode_ms fields ((n, Some (JArray (tree <$> l))) :: ms) s = decode_ms fields ms (set l s).
Proof. intros Hn Hf Hl. eapply ms_cons; [done|done|]. by apply slice_read. Qed.

(** A pointer that was nil. *)
Lemma ms_pointer {A} n (elem : setter A) zero get set (tree : A -> json) ms s (o : option A) :
  valid_utf8 n = true -> find_field fields n = Some (as_pointer elem zero get set) -> get s = None ->
  (forall a, o = Some a -> tree a <> JNull /\ elem (tree a) zero = Some a) -> set None s = s ->
  decode_ms fields ((n, tree <$> o) :: ms) s = decode_ms fields ms (set o s).
Proof.
  intros Hn Hf Hg Ho H0. destruct o as [a|]; [|by rewrite H0]. destruct (Ho a eq_refl) as [Hnn Ha].
  cbn [fmap option_fmap option_map]. eapply ms_cons; [done|done|]. unfold as_pointer. rewrite Hg. cbn [default].
  cbn [from_option Datatypes.id]. rewrite Ha. by destruct (tree a).
Qed.
End Members.

Lemma strings_read l : Forall (fun s => valid_utf8 s = true) l ->
  Forall (fun s => as_string (fun v _ => v) (string_tree s) "" = Some s) l.
Proof. intros H. eapply Forall_impl; [exact H|]. intros s Hs. simpl. by rewrite unquote_json_string. Qed.

(** [json.Marshal] and [json.Unmarshal] of a struct. *)
Lemma unmarshal_write {S} (fields : list (string * setter S)) zero indent ms s :
  writable max_depth (struct_tree ms) -> decode_ms fields ms zero = Some s ->
  unmarshal fields zero (write indent 0 (struct_tree ms)) = Some s.
Proof. intros Hw Hd. unfold unmarshal. by rewrite parse_write, decode_tree. Qed.

(** ** Struct by struct

    The lemmas and tactics with which a component proves that its structs are written
    ([write_members]) and read back ([read_members]). *)

Definition strings (l : list string) : json := slice_tree string_tree l.
Definition omit_strings (l : list string) : option json := omit_slice string_tree l.

Definition as_strings {S} (set : list string -> S -> S) : setter S := as_slice (as_string (fun v _ => v)) "" set.

Definition valid_text (s : string) : Prop := valid_utf8 s = true.
Definition in_uint64 (z : Z) : Prop := 0 <= z < 18446744073709551616.

Lemma from_some {A} (P : A -> Prop) o a : from_option P True o -> o = Some a -> P a.
Proof. by intros H ->. Qed.

(** The trees are written: every member is. *)
Definition some_writable (d : Z) (o : option json) : Prop := match o with Some j => writable d j | None => True end.

Lemma omit_if_writable d b j : writable d j -> some_writable d (omit_if b j).
Proof. by destruct b. Qed.

Lemma omit_slice_writable {A} d (tree : A -> json) l : 1 < d -> Forall (fun x => writable (d - 1) (tree x)) l -> some_writable d (omit_slice tree l).
Proof. intros Hd H. destruct l as [|x l]; [done|]. by apply (slice_writable d tree (x :: l)). Qed.

Lemma omit_strings_writable d l : 1 < d -> Forall valid_text l -> some_writable d (omit_strings l).
Proof. intros Hd H. apply omit_slice_writable; [done|]. eapply Forall_impl; [exact H|]. intros s Hs. by apply string_writable. Qed.

Lemma option_writable {A} d (tree : A -> json) (o : option A) : (forall a, o = Some a -> writable d (tree a)) -> some_writable d (tree <$> o).
Proof. destruct o as [a|]; [|done]. intros H. by apply H. Qed.

Lemma members_cons d n o ms : valid_utf8 n = true -> some_writable d o -> Forall (member_writable d) ms -> Forall (member_writable d) ((n, o) :: ms).
Proof. intros Hn Ho H. by constructor. Qed.

(** One member after the other, each by the lemma of its kind. *)
Ltac write_member :=
  match goal with
  | |- some_writable _ (Some (int_tree _)) => first [apply int_writable; assumption|apply natural_writable; unfold in_uint64 in *; lia]
  | |- some_writable _ (Some (string_tree _)) => apply string_writable; assumption
  | |- some_writable _ (Some (time_tree _)) => apply time_writable; assumption
  | |- some_writable _ (Some (JBool _)) => constructor
  | |- some_writable _ (Some (strings _)) => apply strings_writable; [lia|assumption]
  | |- some_writable _ (omit_string _) => apply omit_if_writable, string_writable; assumption
  | |- some_writable _ (omit_false _) => apply omit_if_writable; constructor
  | |- some_writable _ (omit_int _) => apply omit_if_writable, int_writable; assumption
  | |- some_writable _ (omit_strings _) => apply omit_strings_writable; [lia|assumption]
  | |- some_writable _ (_ <$> _) => apply option_writable; assumption
  | |- some_writable _ (Some _) => cbn [some_writable]
  end.
Ltac write_members := apply struct_writable; [lia|]; repeat (apply members_cons; [reflexivity|try write_member|]); try apply Forall_nil_2.

(** Optional numbers and structs. *)
Lemma int_pointee (o : option Z) : from_option in_int64 True o ->
  forall a, o = Some a -> int_tree a <> JNull /\ as_int (fun v _ => v) (int_tree a) 0 = Some a.
Proof. intros Ho a ->. split; [done|]. cbn. by rewrite parse_json_int. Qed.

Lemma struct_pointee {A} (fields : list (string * setter A)) (ms : A -> members) zero (o : option A) :
  (forall a, o = Some a -> decode_ms fields (ms a) zero = Some a) ->
  forall a, o = Some a -> struct_tree (ms a) <> JNull /\ decode_struct fields (struct_tree (ms a)) zero = Some a.
Proof. intros H a Ha. split; [done|]. rewrite decode_tree. by apply H. Qed.

Lemma float_pointee {F : FloatText} {is_float32} {FL : FloatTextLaws F is_float32} (o : option float) : from_option finite true o = true ->
  forall a, o = Some a -> JNumber (float_text a) <> JNull /\ as_float float_parse (fun v _ => v) (JNumber (float_text a)) 0%float = Some a.
Proof. intros Ho a ->. split; [done|]. cbn [as_float]. by rewrite (float_read a Ho). Qed.

(** Read the members of a struct one by one, the struct kept in constructor form. *)
Ltac ms_by lem := etransitivity; [eapply lem; first [reflexivity|assumption|by apply strings_read|eassumption]|]; cbv beta.
Ltac read_member :=
  match goal with
  | |- decode_ms _ [] _ = _ => reflexivity
  | |- decode_ms _ ((_, Some (int_tree _)) :: _) _ = _ => first [ms_by @ms_int|ms_by @ms_uint]
  | |- decode_ms _ ((_, Some (string_tree _)) :: _) _ = _ => ms_by @ms_string
  | |- decode_ms _ ((_, Some (time_tree _)) :: _) _ = _ => ms_by @ms_time
  | |- decode_ms _ ((_, Some (JBool _)) :: _) _ = _ => ms_by @ms_bool
  | |- decode_ms _ ((_, Some (JNumber _)) :: _) _ = _ => ms_by @ms_float
  | |- decode_ms _ ((_, omit_string _) :: _) _ = _ => ms_by @ms_omit_string
  | |- decode_ms _ ((_, omit_int _) :: _) _ = _ => ms_by @ms_omit_int
  | |- decode_ms _ ((_, Some (slice_tree _ _)) :: _) _ = _ => ms_by @ms_slice
  | |- decode_ms _ ((_, omit_slice _ _) :: _) _ = _ => ms_by @ms_omit_slice
  | |- decode_ms _ ((_, Some (JArray (_ <$> _))) :: _) _ = _ => ms_by @ms_list
  | |- decode_ms _ ((_, omit_false _) :: _) _ = _ => ms_by @ms_omit_false
  | |- decode_ms _ ((_, _ <$> _) :: _) _ = _ => ms_by @ms_pointer
  end.
Ltac settle := match goal with |- decode_ms _ _ ?s = _ => let s' := eval cbv in s in change s with s' end.
Ltac read_members := repeat (read_member; try settle).
