(* ===== verification/HashChain.v ===== *)
(** * Hash chains

    The settlement and the challenge ledger keep the same kind of chain: event [i]
    carries the index [i], the hash of event [i-1] ("genesis" for the first) and the
    SHA-256 of its own JSON text.  [ChainEvent] is what a ledger's event type gives;
    [ChainLaws] what the ledgers prove about their JSON text.  Everything about
    verification, appending and tampering is proved here once, against the classes. *)

From Stdlib Require Import Sorted.
From stdpp Require Import sorting.
From S2P Require Import Prelude GoString Sha256.

Definition genesisHash : string := "genesis".

Class ChainEvent (E : Type) := {
  ev_index : E -> Z;
  ev_prev : E -> string;
  ev_hash : E -> string;
  ev_text : E -> list Z;  (* what [hashEvent] hashes *)
  ev_ok : E -> Prop;      (* the text can be written *)
}.

(** The text determines the index and, when it is a digest, the previous hash. *)
Class ChainLaws (E : Type) `{ChainEvent E} := {
  law_index e e' : ev_ok e -> ev_ok e' -> ev_text e = ev_text e' ->
    0 <= ev_index e <= max_int64 -> 0 <= ev_index e' <= max_int64 -> ev_index e = ev_index e';
  law_prev e e' : ev_ok e -> ev_ok e' -> ev_text e = ev_text e' ->
    is_digest (ev_prev e) -> is_digest (ev_prev e') -> ev_prev e = ev_prev e';
}.

(** ** The chain file *)

(** What can go wrong while storing one event: before anything is written, in the middle of
    the line (what is there then does not decode), or in [Sync] after the line is in the file. *)
Inductive StoreFault :=
| NoFault
| BeforeWrite (e : string)
| TornWrite (e : string)
| AfterWrite (e : string).

(** A chain file: its lines, each an event or text that does not decode. *)
Definition Lines (E : Type) : Type := list (res string E).

(** A line written after a torn one continues it. *)
Definition append_line {E} (lines : Lines E) (line : res string E) : Lines E :=
  match last lines with Some (Err _) => lines | _ => lines ++ [line] end.

(** Both ledgers' [appendEvent]: create the file when absent, append the line, sync. *)
Definition append_to_file {E} (fault : StoreFault) (event : E) (file : option (Lines E))
  : option string * option (Lines E) :=
  let lines := default [] file in
  match fault with
  | NoFault => (None, Some (append_line lines (Ok event)))
  | BeforeWrite e => (Some e, file)
  | TornWrite e => (Some e, Some (append_line lines (Err e)))
  | AfterWrite e => (Some e, Some (append_line lines (Ok event)))
  end.

(** Both load loops: the events up to the first line that does not decode. *)
Fixpoint decode_lines {E} (lines : Lines E) : res string (list E) :=
  match lines with
  | [] => Ok []
  | Err e :: _ => Err e
  | Ok event :: lines => let* events := decode_lines lines in Ok (event :: events)
  end.

(** A failure that leaves the file as it was. *)
Definition clean_file_fault (fault : StoreFault) : Prop :=
  match fault with NoFault | BeforeWrite _ => True | _ => False end.

Lemma append_line_ok {E} (es : list E) line : append_line (Ok <$> es) line = (Ok <$> es) ++ [line].
Proof. unfold append_line. rewrite fmap_last. by destruct (last es). Qed.

Lemma decode_lines_ok {E} (es : list E) : decode_lines (Ok <$> es) = Ok es.
Proof. induction es as [|e es IH]; [done|]. rewrite fmap_cons. cbn [decode_lines]. by rewrite IH. Qed.

(** A clean append keeps the file equal to the events it reports as written. *)
Lemma append_to_file_clean {E} fault (e : E) file es err file' :
  clean_file_fault fault -> default [] file = Ok <$> es -> append_to_file fault e file = (err, file') ->
  default [] file' = Ok <$> (match err with None => es ++ [e] | Some _ => es end).
Proof.
  intros Hc Hf. unfold append_to_file. destruct fault; try done; intros [= <- <-]; [|done].
  simpl. by rewrite Hf, append_line_ok, fmap_app.
Qed.

(** ** Verification *)

Section Chain.
Context {E : Type} `{ChainEvent E}.

Definition chain_hash (e : E) : string := sha256_hex (ev_text e).

(** The loop of [Verify]: whether the chain is valid, and the last hash reached. *)
Fixpoint verify_loop (i : Z) (last : string) (events : list E) : bool * string :=
  match events with
  | [] => (true, last)
  | event :: events =>
      if negb (ev_index event =? i + 1) || negb (ev_prev event =s last) || negb (ev_hash event =s chain_hash event)
      then (false, last)
      else verify_loop (i + 1) (ev_hash event) events
  end.

Definition verify (events : list E) : bool * string := verify_loop 0 genesisHash events.

Definition valid (events : list E) : bool := fst (verify events).

(** The hash the next event must carry. *)
Definition last_hash (start : string) (events : list E) : string := default start (ev_hash <$> last events).

Lemma last_hash_cons start e l : last_hash start (e :: l) = last_hash (ev_hash e) l.
Proof. unfold last_hash. rewrite last_cons. by destruct (last l). Qed.

Lemma last_hash_snoc start l e : last_hash start (l ++ [e]) = ev_hash e.
Proof. unfold last_hash. by rewrite last_snoc. Qed.

Lemma verify_loop_last i start l : fst (verify_loop i start l) = true -> snd (verify_loop i start l) = last_hash start l.
Proof.
  revert i start. induction l as [|e l IH]; intros i start; simpl; [done|].
  case_goal; [done|]. intros Hv. by rewrite IH, last_hash_cons.
Qed.

Lemma verify_loop_snoc i start l e :
  fst (verify_loop i start (l ++ [e])) = true <->
  fst (verify_loop i start l) = true /\ ev_index e = i + Z.of_nat (length l) + 1
  /\ ev_prev e = last_hash start l /\ ev_hash e = chain_hash e.
Proof.
  revert i start. induction l as [|x l IH]; intros i start; simpl.
  - change (last_hash start []) with start.
    rewrite <- (str_eqb_true (ev_prev e)), <- (str_eqb_true (ev_hash e)).
    replace (ev_index e = i + 0 + 1) with (ev_index e = i + 1) by (f_equal; lia). rewrite <- Z.eqb_eq.
    destruct (ev_index e =? i + 1), (ev_prev e =s start), (ev_hash e =s chain_hash e); simpl; naive_solver.
  - case_goal; [naive_solver|]. rewrite IH.
    rewrite last_hash_cons, Nat2Z.inj_succ. split; intros (? & ? & ? & ?); split_and!; try done; lia.
Qed.

(** What verification means for every event. *)
Lemma valid_snoc l e :
  valid (l ++ [e]) = true <->
  valid l = true /\ ev_index e = Z.of_nat (length l) + 1 /\ ev_prev e = last_hash genesisHash l /\ ev_hash e = chain_hash e.
Proof. unfold valid, verify. rewrite verify_loop_snoc. simpl. by rewrite Z.add_0_l. Qed.

Lemma valid_last l : valid l = true -> snd (verify l) = last_hash genesisHash l.
Proof. apply verify_loop_last. Qed.

Lemma valid_app l1 l2 : valid (l1 ++ l2) = true -> valid l1 = true.
Proof.
  induction l2 as [|e l2 IH] using rev_ind; [by rewrite app_nil_r|].
  rewrite app_assoc, valid_snoc. intros [? _]. by apply IH.
Qed.

Lemma valid_nil : valid [] = true.
Proof. done. Qed.

(** The hash of a valid chain is the start marker or a digest. *)
Lemma last_hash_digest l : valid l = true -> l <> [] -> is_digest (last_hash genesisHash l).
Proof.
  destruct l as [|e l] using rev_ind; [done|]. rewrite valid_snoc, last_hash_snoc. intros (_ & _ & _ & ->) _.
  apply sha256_hex_digest.
Qed.

Lemma genesis_not_digest : ~ is_digest genesisHash.
Proof. intros [Hl _]. vm_compute in Hl. discriminate. Qed.

Lemma last_hash_genesis l : valid l = true -> last_hash genesisHash l = genesisHash -> l = [].
Proof.
  intros Hv Heq. destruct l as [|e l]; [done|]. exfalso.
  apply genesis_not_digest. rewrite <- Heq. by apply last_hash_digest.
Qed.

(** The indexes of a valid chain count its events from 1. *)
Lemma valid_index_bound l e : valid l = true -> e ∈ l -> 1 <= ev_index e <= Z.of_nat (length l).
Proof.
  induction l as [|x l IH] using rev_ind; intros Hv He; [by apply not_elem_of_nil in He|].
  apply valid_snoc in Hv as (Hv & Hi & _). rewrite length_app. simpl.
  apply elem_of_app in He as [He|He]; [specialize (IH Hv He); lia|].
  apply list_elem_of_singleton in He as ->. lia.
Qed.

Lemma valid_sorted l : valid l = true -> StronglySorted (fun a b => ev_index a < ev_index b) l.
Proof.
  induction l as [|x l IH] using rev_ind; intros Hv; [constructor|].
  pose proof Hv as (Hl & Hi & _)%valid_snoc. apply StronglySorted_app. split_and!; [|by apply IH|repeat constructor].
  intros a b Ha Hb. apply list_elem_of_singleton in Hb as ->. pose proof (valid_index_bound _ _ Hl Ha). lia.
Qed.

(** Every event of a valid chain carries its own digest. *)
Lemma valid_hash l e : valid l = true -> e ∈ l -> ev_hash e = chain_hash e.
Proof.
  induction l as [|x l IH] using rev_ind; intros Hv He; [by apply not_elem_of_nil in He|].
  apply valid_snoc in Hv as (Hv & _ & _ & Hx). apply elem_of_app in He as [He|He]; [by apply IH|].
  by apply list_elem_of_singleton in He as ->.
Qed.

(** ** Tampering *)

(** Two events, one of each history, with different texts and the same SHA-256. *)
Definition collision (l1 l2 : list E) : Prop :=
  exists e1 e2, e1 ∈ l1 /\ e2 ∈ l2 /\ ev_text e1 <> ev_text e2 /\ chain_hash e1 = chain_hash e2.

Context `{!ChainLaws E}.

Lemma anchored_history l1 l2 :
  Forall ev_ok l1 -> Forall ev_ok l2 ->
  Z.of_nat (length l1) <= max_int64 -> Z.of_nat (length l2) <= max_int64 ->
  valid l1 = true -> valid l2 = true -> last_hash genesisHash l1 = last_hash genesisHash l2 ->
  ev_text <$> l1 = ev_text <$> l2 \/ collision l1 l2.
Proof.
  revert l2. induction l1 as [|e1 l1 IH] using rev_ind; intros l2 Hok1 Hok2 Hlen1 Hlen2 Hv1 Hv2 Hlast.
  { symmetry in Hlast. apply last_hash_genesis in Hlast as ->; [by left|done]. }
  destruct l2 as [|e2 l2 _] using rev_ind.
  { apply last_hash_genesis in Hlast; [|done]. by destruct l1. }
  rewrite !last_hash_snoc in Hlast. rewrite !length_app in Hlen1, Hlen2. simpl in *.
  apply valid_snoc in Hv1 as (Hv1 & Hi1 & Hp1 & Hh1), Hv2 as (Hv2 & Hi2 & Hp2 & Hh2).
  apply Forall_app in Hok1 as [Hok1 Ho1], Hok2 as [Hok2 Ho2].
  rewrite Forall_singleton in Ho1, Ho2.
  destruct (decide (ev_text e1 = ev_text e2)) as [Ht|Ht].
  2: { right. exists e1, e2. split_and!; [set_solver|set_solver|done|congruence]. }
  assert (Hidx : ev_index e1 = ev_index e2) by (apply law_index; done || lia).
  assert (Hlen : length l1 = length l2) by lia.
  assert (Hprev : last_hash genesisHash l1 = last_hash genesisHash l2).
  { rewrite <- Hp1, <- Hp2. destruct l1 as [|x l1], l2 as [|y l2]; try done; [by rewrite Hp1, Hp2|].
    apply law_prev; try done; [rewrite Hp1|rewrite Hp2]; by apply last_hash_digest. }
  destruct (IH l2) as [Heq|(a & b & Ha & Hb & Hc)]; try done; try lia.
  - left. rewrite !fmap_app, Heq. simpl. by rewrite Ht.
  - right. exists a, b. set_solver.
Qed.
End Chain.
