(* ===== verification/ChainFile.v ===== *)
(** * The bytes of a chain file

    [appendEvent] writes an event's JSON text and a newline; the load loops read the file with a
    [bufio.Scanner] (lines of less than 16 MiB, a trailing carriage return dropped) and unmarshal
    each line.  [HashChain] works with a file that is a list of lines, each an event or unreadable.
    Here that view is justified: whatever is appended to the bytes, and wherever a failed write
    stops short, the bytes are read as the lines say ([file_refines]).  [Codec] is what a ledger's
    event type gives, [CodecLaws] what the ledgers prove about it. *)

From Stdlib Require Import ZifyBool.
From S2P Require Import Prelude GoString Json JsonDecode JsonRoundTrip JsonLex HashChain.

Class Codec (E : Type) := {
  line_text : E -> list Z;             (* what [json.Marshal] writes *)
  line_decode : list Z -> option E;    (* [json.Unmarshal] into the zero event *)
  line_ok : E -> Prop;                 (* an event the program can hold *)
}.

Definition max_token : Z := 16777216.

Class CodecLaws (E : Type) `{Codec E} := {
  line_reads e : line_ok e -> line_decode (line_text e) = Some e;
  line_object e : line_ok e -> object_text (line_text e);
  line_visible e : line_ok e -> Forall (fun b => 32 <= b) (line_text e);
  line_fits e : line_ok e -> Z.of_nat (length (line_text e)) < max_token;
  line_needs_json l : parse l = None -> line_decode l = None;
}.

(** ** Reading *)

(** [bufio.ScanLines]: the pieces between newlines, the last one only when it is not empty. *)
Fixpoint split_lines (l : list Z) : list (list Z) :=
  match l with
  | [] => []
  | b :: l =>
      if b =? 10 then [] :: split_lines l
      else match split_lines l with [] => [[b]] | w :: ws => (b :: w) :: ws end
  end.

Definition drop_cr (w : list Z) : list Z :=
  match last w with Some b => if b =? 13 then removelast w else w | None => w end.

Section ChainFile.
Context {E : Type} `{Codec E}.

(** One line: an event, or the error of the scanner or of the decoder. *)
Definition read_line (w : list Z) : res string E :=
  if max_token <=? Z.of_nat (length w) then Err "bufio.Scanner: token too long"
  else match line_decode (drop_cr w) with Some e => Ok e | None => Err "invalid JSON" end.

Definition file_lines (l : list Z) : Lines E := read_line <$> split_lines l.

(** ** Writing *)

(** Where a write of an event can fail: before it, after [k] bytes, or in [Sync]. *)
Inductive WriteFault :=
| Written
| NotWritten (e : string)
| CutAfter (k : nat) (e : string)
| NotSynced (e : string).

(** [appendEvent] on the bytes. *)
Definition write_line (fault : WriteFault) (event : E) (file : option (list Z)) : option string * option (list Z) :=
  let l := default [] file in
  match fault with
  | Written => (None, Some (l ++ line_text event ++ [10]))
  | NotWritten e => (Some e, file)
  | CutAfter k e => (Some e, Some (l ++ take k (line_text event)))
  | NotSynced e => (Some e, Some (l ++ line_text event ++ [10]))
  end.

(** The same failure on a file of lines. *)
Definition store_fault (fault : WriteFault) : StoreFault :=
  match fault with
  | Written => NoFault | NotWritten e => BeforeWrite e | CutAfter _ e => TornWrite e | NotSynced e => AfterWrite e
  end.

(** A write that is cut stops inside the text, neither before it nor between it and its newline. *)
Definition cut_inside (fault : WriteFault) (event : E) : Prop :=
  match fault with CutAfter k _ => (0 < k < length (line_text event))%nat | _ => True end.

Definition write_all (ws : list (WriteFault * E)) (file : option (list Z)) : option (list Z) :=
  fold_left (fun f w => snd (write_line w.1 w.2 f)) ws file.

Definition append_all (ws : list (WriteFault * E)) (file : option (Lines E)) : option (Lines E) :=
  fold_left (fun f w => snd (append_to_file (store_fault w.1) w.2 f)) ws file.

(** ** The lines of the bytes *)

Lemma split_lines_end w l : Forall (fun b => 32 <= b) w -> split_lines (w ++ 10 :: l) = w :: split_lines l.
Proof.
  induction 1 as [|b w Hb _ IH]; [done|]. simpl. rewrite (proj2 (Z.eqb_neq b 10)) by lia. by rewrite IH.
Qed.

Lemma split_lines_last w : Forall (fun b => 32 <= b) w -> w <> [] -> split_lines w = [w].
Proof.
  induction 1 as [|b w Hb _ IH]; [done|]. intros _. simpl. rewrite (proj2 (Z.eqb_neq b 10)) by lia.
  destruct w as [|b' w]; [done|]. by rewrite IH.
Qed.

Lemma drop_cr_visible w : Forall (fun b => 32 <= b) w -> drop_cr w = w.
Proof.
  intros Hw. unfold drop_cr. destruct (last w) as [b|] eqn:E1; [|done]. apply last_Some_elem_of in E1.
  rewrite Forall_forall in Hw. specialize (Hw b E1). by rewrite (proj2 (Z.eqb_neq b 13)) by lia.
Qed.

Context `{!CodecLaws E}.

Lemma read_line_text e : line_ok e -> read_line (line_text e) = Ok e.
Proof.
  intros Hok. unfold read_line. pose proof (line_fits e Hok). rewrite (proj2 (Z.leb_gt _ _)) by lia.
  by rewrite drop_cr_visible, line_reads by auto using line_visible.
Qed.

Definition written (es : list E) : list Z := flat_map (fun e => line_text e ++ [10]) es.

Lemma file_lines_written es l : Forall line_ok es -> file_lines (written es ++ l) = (Ok <$> es) ++ file_lines l.
Proof.
  induction 1 as [|e es He _ IH]; [done|]. unfold file_lines, written in *. cbn [flat_map]. rewrite <- !app_assoc. cbn [app].
  rewrite split_lines_end by by apply line_visible. rewrite fmap_cons, read_line_text, IH by done. done.
Qed.

(** What follows a torn write: beginnings of lines. *)
Definition piece (q : list Z) : Prop := exists e, line_ok e /\ q `prefix_of` line_text e.
Definition torn (p : list Z) : Prop := exists e, line_ok e /\ p `prefix_of` line_text e /\ p <> [] /\ p <> line_text e.

Lemma prefix_visible (q t : list Z) : q `prefix_of` t -> Forall (fun b => 32 <= b) t -> Forall (fun b => 32 <= b) q.
Proof. intros [k ->] [? _]%Forall_app. done. Qed.

Lemma piece_visible q : piece q -> Forall (fun b => 32 <= b) q.
Proof. intros (e & He & Hq). eapply prefix_visible; [done|]. by apply line_visible. Qed.

Lemma torn_piece p : torn p -> piece p /\ p <> [].
Proof. intros (e & ? & ? & ? & ?). split; [by exists e|done]. Qed.

Lemma pieces_visible p qs : torn p -> Forall piece qs -> Forall (fun b => 32 <= b) (p ++ concat qs) /\ p ++ concat qs <> [].
Proof.
  intros Hp Hqs. apply torn_piece in Hp as [Hp Hne]. split.
  - apply Forall_app. split; [by apply piece_visible|]. induction Hqs as [|q qs Hq _ IH]; [constructor|].
    simpl. apply Forall_app. split; [by apply piece_visible|done].
  - by intros [? _]%app_eq_nil.
Qed.

Lemma torn_line p qs : torn p -> Forall piece qs -> exists err, read_line (p ++ concat qs) = Err err.
Proof.
  intros Hp Hqs. unfold read_line. case_goal; [eauto|]. destruct (pieces_visible p qs Hp Hqs) as [Hv _].
  rewrite drop_cr_visible by done. destruct Hp as (e & He & Hpre & Hne & Hst). rewrite line_needs_json; [eauto|].
  apply (torn_unreadable p (line_text e)); [by apply line_object|done|done|done|].
  eapply Forall_impl; [exact Hqs|]. intros q (e' & He' & Hq'). exists (line_text e'). split; [by apply line_object|done].
Qed.

(** The rest of a file behind a torn write: more pieces, and then perhaps whole lines. *)
Inductive garbage : list Z -> Prop :=
| garbage_torn p : torn p -> garbage p
| garbage_line l q : garbage l -> piece q -> garbage (l ++ q ++ [10])
| garbage_cut l q : garbage l -> piece q -> garbage (l ++ q).

(** Its first line is the torn one with pieces behind it. *)
Lemma garbage_shape l : garbage l -> exists p qs, torn p /\ Forall piece qs /\
  (l = p ++ concat qs \/ exists r, l = (p ++ concat qs) ++ 10 :: r).
Proof.
  induction 1 as [p Hp|l q _ (p & qs & Hp & Hqs & Hl) Hq|l q _ (p & qs & Hp & Hqs & Hl) Hq].
  - exists p, []. rewrite app_nil_r. eauto.
  - destruct Hl as [->|[r ->]].
    + exists p, (qs ++ [q]). split_and!; [done|by apply Forall_app; split; [|apply Forall_singleton]|right]. exists [].
      rewrite concat_app. simpl. rewrite app_nil_r, <- !app_assoc. done.
    + exists p, qs. split_and!; [done|done|right]. exists (r ++ q ++ [10]). by rewrite <- !app_assoc.
  - destruct Hl as [->|[r ->]].
    + exists p, (qs ++ [q]). split_and!; [done|by apply Forall_app; split; [|apply Forall_singleton]|left].
      rewrite concat_app. simpl. rewrite app_nil_r, <- !app_assoc. done.
    + exists p, qs. split_and!; [done|done|right]. exists (r ++ q). by rewrite <- !app_assoc.
Qed.

Lemma garbage_lines l : garbage l -> exists err rest, file_lines l = Err err :: rest.
Proof.
  intros (p & qs & Hp & Hqs & Hl)%garbage_shape. destruct (torn_line p qs Hp Hqs) as [err He], (pieces_visible p qs Hp Hqs) as [Hv Hne].
  exists err. unfold file_lines. destruct Hl as [->|[r ->]].
  - rewrite split_lines_last by done. rewrite fmap_cons, He. eauto.
  - rewrite split_lines_end by done. rewrite fmap_cons, He. eauto.
Qed.

(** ** Refinement *)

(** The bytes hold the lines: whole events, then, when the last line is unreadable, a torn line. *)
Definition holds (file : option (list Z)) (lines : option (Lines E)) : Prop :=
  exists es rest, Forall line_ok es /\ default [] file = written es ++ rest /\
  (rest = [] /\ default [] lines = Ok <$> es \/ garbage rest /\ exists err, default [] lines = (Ok <$> es) ++ [Err err]).

Lemma append_line_torn (es : list E) err line : append_line ((Ok <$> es) ++ [Err err]) line = (Ok <$> es) ++ [Err err].
Proof. unfold append_line. by rewrite last_snoc. Qed.

Lemma take_piece k e : line_ok e -> piece (take k (line_text e)).
Proof. intros He. exists e. split; [done|]. apply prefix_take. Qed.

Lemma whole_piece e : line_ok e -> piece (line_text e).
Proof. intros He. by exists e. Qed.

Lemma take_torn k e : line_ok e -> (0 < k < length (line_text e))%nat -> torn (take k (line_text e)).
Proof.
  intros He Hk. exists e. split_and!; [done|apply prefix_take| |]; intros Heq%(f_equal (@length Z)); rewrite length_take in Heq; simpl in Heq; lia.
Qed.

Lemma written_snoc es e : written (es ++ [e]) = written es ++ line_text e ++ [10].
Proof. unfold written. rewrite flat_map_app. simpl. by rewrite app_nil_r. Qed.

Lemma holds_write fault e file lines :
  line_ok e -> cut_inside fault e -> holds file lines ->
  holds (snd (write_line fault e file)) (snd (append_to_file (store_fault fault) e lines))
  /\ fst (write_line fault e file) = fst (append_to_file (store_fault fault) e lines).
Proof.
  intros He Hcut (es & rest & Hes & Hf & Hcase). assert (Hes' : Forall line_ok (es ++ [e])) by (apply Forall_app; by split; [|apply Forall_singleton]).
  destruct Hcase as [[-> Hl]|[Hg [err Hl]]].
  - assert (Hwhole : holds (Some (default [] file ++ line_text e ++ [10])) (Some (append_line (default [] lines) (Ok e)))).
    { exists (es ++ [e]), []. split_and!; [done|simpl; rewrite Hf, written_snoc, !app_nil_r; done|left].
      split; [done|]. simpl. by rewrite Hl, append_line_ok, fmap_app. }
    destruct fault as [|x|k x|x]; simpl; (split; [|done]); [exact Hwhole| | |exact Hwhole].
    + exists es, []. split_and!; [done|done|by left].
    + exists es, (take k (line_text e)). split_and!; [done|simpl; by rewrite Hf, app_nil_r|right].
      split; [by apply garbage_torn, take_torn|]. exists x. simpl. by rewrite Hl, append_line_ok.
  - assert (Hwhole : holds (Some (default [] file ++ line_text e ++ [10])) (Some (append_line (default [] lines) (Ok e)))).
    { exists es, (rest ++ line_text e ++ [10]). split_and!; [done|simpl; by rewrite Hf, <- app_assoc|right].
      split; [by apply garbage_line, whole_piece|]. exists err. simpl. by rewrite Hl, append_line_torn. }
    destruct fault as [|x|k x|x]; simpl; (split; [|done]); [exact Hwhole| | |exact Hwhole].
    + exists es, rest. split_and!; [done|done|by right; eauto].
    + exists es, (rest ++ take k (line_text e)). split_and!; [done|simpl; by rewrite Hf, <- app_assoc|right].
      split; [by apply garbage_cut, take_piece|]. exists err. simpl. by rewrite Hl, append_line_torn.
Qed.

Lemma holds_writes ws file lines :
  Forall (fun w => line_ok w.2 /\ cut_inside w.1 w.2) ws -> holds file lines -> holds (write_all ws file) (append_all ws lines).
Proof.
  intros Hws. revert file lines. induction Hws as [|[fault e] ws [He Hc] _ IH]; intros file lines Hh; [done|].
  simpl. apply IH. by apply holds_write.
Qed.

(** The events a reader gets, or that it fails. *)
Definition readable_events (lines : Lines E) : option (list E) :=
  match decode_lines lines with Ok es => Some es | Err _ => None end.

Lemma readable_events_err es err (rest : Lines E) : readable_events ((Ok <$> es) ++ Err err :: rest) = None.
Proof.
  unfold readable_events. induction es as [|e es IH]; [done|]. rewrite fmap_cons. simpl. by destruct (decode_lines _).
Qed.

Lemma holds_reads file lines :
  holds file lines -> readable_events (file_lines (default [] file)) = readable_events (default [] lines).
Proof.
  intros (es & rest & Hes & -> & [[-> Hl]|[Hg [err Hl]]]).
  - rewrite Hl, app_nil_r. rewrite <- (app_nil_r (written es)), file_lines_written, app_nil_r by done. done.
  - rewrite Hl, file_lines_written by done. destruct (garbage_lines _ Hg) as (err' & rest' & ->). by rewrite !readable_events_err.
Qed.

Lemma holds_absent : holds None None.
Proof. exists [], []. split_and!; [constructor|done|by left]. Qed.

(** Whatever was appended, and whichever writes failed, the bytes are read as the lines are. *)
Lemma file_refines ws :
  Forall (fun w => line_ok w.2 /\ cut_inside w.1 w.2) ws ->
  readable_events (file_lines (default [] (write_all ws None))) = readable_events (default [] (append_all ws None)).
Proof. intros Hws. apply holds_reads, holds_writes; [done|apply holds_absent]. Qed.
End ChainFile.
