(* ===== verification/Privacy.v ===== *)
(** * Privacy tiers: [internal/privacy/privacy.go]

    Tier normalisation, the tiers a mode stands for, the mode a tier set is
    summarised by, and the acceptance test.  Routing safety rests on these
    lists being subsets of the three known tiers. *)

From stdpp Require Import sorting.
From S2P Require Import Prelude GoString GoSort.

(** [src/internal/privacy/privacy.go:8-12] Private, Community, Public *)
Definition Private : string := "private".
Definition Community : string := "community".
Definition Public : string := "public".

(** [src/internal/privacy/privacy.go:14-14] ErrInvalidTier *)
Inductive TierError := ErrInvalidTier.
#[export] Instance TierError_eq_dec : EqDecision TierError.
Proof. solve_decision. Defined.

(** [src/internal/privacy/privacy.go:16-26] NormalizeTier *)
Definition NormalizeTier (tier : string) : res TierError string :=
  if tier =s "" then Ok Private
  else if (tier =s Private) || (tier =s Community) || (tier =s Public) then Ok tier
  else Err ErrInvalidTier.

(** [src/internal/privacy/privacy.go:28-42] TiersForMode *)
Definition TiersForMode (mode : string) : res TierError (list string) :=
  let mode := if mode =s "" then Private else mode in
  if mode =s Private then Ok [Private; Community; Public]
  else if mode =s Community then Ok [Community; Public]
  else if mode =s Public then Ok [Public]
  else Err ErrInvalidTier.

(** [src/internal/privacy/privacy.go:50-60] NormalizeTiers (loop body) *)
Fixpoint NormalizeTiers_loop (seen : gset string) (tiers : list string)
  : res TierError (list string) :=
  match tiers with
  | [] => Ok []
  | tier :: tiers' =>
      let* normalized := NormalizeTier tier in
      if bool_decide (normalized ∈ seen) then NormalizeTiers_loop seen tiers'
      else let* out := NormalizeTiers_loop ({[normalized]} ∪ seen) tiers' in
           Ok (normalized :: out)
  end.

(** [src/internal/privacy/privacy.go:44-63] NormalizeTiers *)
Definition NormalizeTiers (tiers : list string) : res TierError (list string) :=
  match tiers with
  | [] => TiersForMode Private
  | _ => let* out := NormalizeTiers_loop ∅ tiers in Ok (sort_strings out)
  end.

(** [src/internal/privacy/privacy.go:65-76] Accepts *)
Definition Accepts (tiers : list string) (requested : string) : bool :=
  match NormalizeTier requested with
  | Err _ => false
  | Ok requested => existsb (fun tier => tier =s requested) tiers
  end.

(** [src/internal/privacy/privacy.go:78-102] ModeForTiers *)
Definition ModeForTiers (tiers : list string) : string :=
  let has t := existsb (fun tier => tier =s t) tiers in
  if has Private then Private
  else if has Community then Community
  else if has Public then Public
  else "".

(** ** Lemmas *)

(** The tiers the program knows. *)
Definition known_tier (t : string) : Prop := t = Private \/ t = Community \/ t = Public.
#[export] Instance known_tier_dec t : Decision (known_tier t).
Proof. unfold known_tier. apply _. Defined.

Lemma existsb_str_eqb t l : existsb (fun x => x =s t) l = bool_decide (t ∈ l).
Proof.
  induction l as [|x l IH]; simpl; [done|].
  rewrite IH. unfold str_eqb. destruct (decide (x = t)) as [->|Hne].
  - rewrite bool_decide_eq_true_2 by done. simpl.
    symmetry. apply bool_decide_eq_true_2. left.
  - rewrite (bool_decide_eq_false_2 (x = t)) by done. simpl.
    apply bool_decide_ext. rewrite elem_of_cons. naive_solver.
Qed.

Lemma NormalizeTier_ok t u :
  NormalizeTier t = Ok u <-> known_tier u /\ (t = u \/ (t = "" /\ u = Private)).
Proof.
  unfold NormalizeTier, known_tier.
  destruct (t =s "") eqn:E1; [apply str_eqb_true in E1 as ->; naive_solver|].
  apply str_eqb_false in E1.
  destruct ((t =s Private) || (t =s Community) || (t =s Public)) eqn:E2.
  - rewrite !orb_true_iff, !str_eqb_true in E2. naive_solver.
  - bsimpl. rewrite str_eqb_false in *. naive_solver.
Qed.

Lemma NormalizeTier_idem t u : NormalizeTier t = Ok u -> NormalizeTier u = Ok u.
Proof. rewrite !NormalizeTier_ok. naive_solver. Qed.

Lemma NormalizeTier_known t : known_tier t -> NormalizeTier t = Ok t.
Proof. intros H. apply NormalizeTier_ok. auto. Qed.

Lemma TiersForMode_known mode ts : TiersForMode mode = Ok ts -> Forall known_tier ts /\ NoDup ts.
Proof.
  unfold TiersForMode. repeat case_goal; intros [= <-]; split;
    apply (bool_decide_unpack _); by vm_compute.
Qed.

Lemma NormalizeTiers_loop_ok seen tiers out :
  NormalizeTiers_loop seen tiers = Ok out ->
  NoDup out /\ Forall known_tier out /\
  (forall t, t ∈ out <-> (t ∉ seen) /\ (exists u, u ∈ tiers /\ NormalizeTier u = Ok t)).
Proof.
  revert seen out. induction tiers as [|tier tiers IH]; intros seen out; simpl.
  { intros [= <-]. split_and!; [constructor|constructor|].
    intros t. split; [by intros ?%not_elem_of_nil|by intros (_ & u & Hu%not_elem_of_nil & _)]. }
  intros (n & Hn & Hk)%res_bind_ok. case_bool_decide as Hseen.
  - apply IH in Hk as (Hnd & Hkn & Hiff). split_and!; [done|done|].
    intros t. rewrite Hiff. setoid_rewrite elem_of_cons.
    split; [naive_solver|]. intros (Ht & u & [->|Hu] & Hnu); [|eauto]. congruence.
  - apply res_bind_ok in Hk as (out' & Hout' & [= <-]).
    apply IH in Hout' as (Hnd & Hkn & Hiff). split_and!.
    + constructor; [|done]. rewrite Hiff, elem_of_union, elem_of_singleton. naive_solver.
    + constructor; [|done]. by apply NormalizeTier_ok in Hn as [? _].
    + intros t. rewrite elem_of_cons, Hiff, elem_of_union, elem_of_singleton.
      setoid_rewrite elem_of_cons. destruct (decide (t = n)) as [->|Hne]; [naive_solver|].
      split; [naive_solver|]. intros (Ht & u & [->|Hu] & Hnu); [congruence|]. naive_solver.
Qed.

Lemma NormalizeTiers_loop_err seen tiers e :
  NormalizeTiers_loop seen tiers = Err e -> exists u, u ∈ tiers /\ NormalizeTier u = Err ErrInvalidTier.
Proof.
  setoid_rewrite list_elem_of_In.
  revert seen e. induction tiers as [|tier tiers IH]; intros seen e; simpl; [done|].
  destruct (NormalizeTier tier) as [n|[]] eqn:E; simpl; [|by eauto].
  case_bool_decide.
  - intros He. apply IH in He. naive_solver.
  - destruct (NormalizeTiers_loop _ tiers) eqn:E'; simpl; [done|].
    intros _. apply IH in E'. naive_solver.
Qed.

Lemma NormalizeTiers_known tiers ts :
  NormalizeTiers tiers = Ok ts -> Forall known_tier ts /\ NoDup ts.
Proof.
  unfold NormalizeTiers. destruct tiers as [|t tiers]; [apply TiersForMode_known|].
  intros (out & Hout & [= <-])%res_bind_ok.
  apply NormalizeTiers_loop_ok in Hout as (Hnd & Hk & _). by rewrite sort_strings_perm.
Qed.

Lemma NormalizeTiers_nonempty tiers ts : NormalizeTiers tiers = Ok ts -> ts <> [].
Proof.
  unfold NormalizeTiers. destruct tiers as [|t tiers]; [by intros [= <-]|].
  intros (out & Hout & [= <-])%res_bind_ok Hnil.
  apply (f_equal length) in Hnil. unfold sort_strings in Hnil. rewrite sort_slice_length in Hnil.
  simpl in Hout. destruct (NormalizeTier t) as [n|]; [|done]. simpl in Hout.
  apply res_bind_ok in Hout as (out' & _ & [= <-]). done.
Qed.

Lemma Accepts_spec tiers requested :
  Accepts tiers requested = true <-> exists t, NormalizeTier requested = Ok t /\ t ∈ tiers.
Proof.
  unfold Accepts. destruct (NormalizeTier requested) eqn:E; [|naive_solver].
  rewrite existsb_str_eqb, bool_decide_eq_true. naive_solver.
Qed.

#[export] Hint Resolve NormalizeTier_known : go.
