(* ===== verification/Protocol.v ===== *)
(** * Wire messages: [internal/protocol/messages.go], and the OpenAI request types

    The structs that cross component borders, field for field.  [float32] vector
    entries are carried as floats; the coordinator only forwards them. *)

From S2P Require Import Prelude GoFloat.

(** [src/internal/protocol/messages.go:5-5] Version *)
Definition Version : Z := 1.

(** [src/internal/protocol/messages.go:21-43] Register *)
Record Register := {
  reg_ProtocolVersion : Z;
  reg_NodeID : string;
  reg_ProviderID : string;
  reg_ProviderToken : string;
  reg_PublicName : string;
  reg_City : string;
  reg_PrivacyMode : string;
  reg_PrivacyTiers : list string;
  reg_Hostname : string;
  reg_Arch : string;
  reg_OS : string;
  reg_Backend : string;
  reg_DeviceKind : string;
  reg_DeviceVendor : string;
  reg_DeviceModel : string;
  reg_SoC : string;
  reg_Accelerators : list string;
  reg_PowerMode : string;
  reg_NetworkMode : string;
  reg_Models : list string;
  reg_MaxConcurrent : Z;
}.
#[export] Instance eta_Register : Settable Register := fun r =>
  Build_Register (reg_ProtocolVersion r) (reg_NodeID r) (reg_ProviderID r) (reg_ProviderToken r)
    (reg_PublicName r) (reg_City r) (reg_PrivacyMode r) (reg_PrivacyTiers r) (reg_Hostname r)
    (reg_Arch r) (reg_OS r) (reg_Backend r) (reg_DeviceKind r) (reg_DeviceVendor r)
    (reg_DeviceModel r) (reg_SoC r) (reg_Accelerators r) (reg_PowerMode r) (reg_NetworkMode r)
    (reg_Models r) (reg_MaxConcurrent r).

(** [src/internal/protocol/messages.go:45-54] Heartbeat *)
Record Heartbeat := {
  hb_ProtocolVersion : Z;
  hb_NodeID : string;
  hb_Models : list string;
  hb_ActiveRequests : Z;
  hb_QueueDepth : Z;
  hb_MemoryFreeMB : Z;
  hb_LoadAverage : float;
  hb_ObservedAt : Time;
}.

(** [src/internal/protocol/messages.go:69-72] ProtocolMessage *)
Record ProtocolMessage := { pm_Role : string; pm_Content : string }.

(** [src/internal/protocol/messages.go:56-67] InferRequest; a nil pointer is [None]. *)
Record InferRequest := {
  ir_Model : string;
  ir_Messages : list ProtocolMessage;
  ir_Stream : bool;
  ir_PrivacyTier : string;
  ir_Backend : string;
  ir_DeviceKind : string;
  ir_SoC : string;
  ir_Accelerators : list string;
  ir_Temperature : option float;
  ir_MaxTokens : option Z;
}.
#[export] Instance eta_InferRequest : Settable InferRequest := fun r =>
  Build_InferRequest (ir_Model r) (ir_Messages r) (ir_Stream r) (ir_PrivacyTier r) (ir_Backend r)
    (ir_DeviceKind r) (ir_SoC r) (ir_Accelerators r) (ir_Temperature r) (ir_MaxTokens r).

(** [src/internal/protocol/messages.go:74-78] EmbedRequest *)
Record EmbedRequest := { er_Model : string; er_Input : list string; er_PrivacyTier : string }.

(** [src/internal/protocol/messages.go:80-83] EmbedResult *)
Record EmbedResult := { es_Vectors : list (list float); es_PromptTokens : Z }.
Definition empty_EmbedResult : EmbedResult := {| es_Vectors := []; es_PromptTokens := 0 |}.

(** [src/internal/protocol/messages.go:85-87] InferChunk *)
Record InferChunk := { ic_Content : string }.

(** [src/internal/protocol/messages.go:89-95] InferDone *)
Record InferDone := {
  id_FinishReason : string;
  id_PromptTokens : Z;
  id_OutputTokens : Z;
  id_KeyID : string;
  id_Signature : string;
}.
Definition empty_InferDone : InferDone :=
  {| id_FinishReason := ""; id_PromptTokens := 0; id_OutputTokens := 0; id_KeyID := ""; id_Signature := "" |}.

(** [src/internal/protocol/messages.go:97-100] InferError *)
Record InferError := { ie_Message : string; ie_Retryable : bool }.

(** [src/internal/protocol/messages.go:7-19] Envelope *)
Record Envelope := {
  env_Version : Z;
  env_Type : string;
  env_RequestID : string;
  env_Register : option Register;
  env_Heartbeat : option Heartbeat;
  env_Infer : option InferRequest;
  env_Embed : option EmbedRequest;
  env_Chunk : option InferChunk;
  env_Done : option InferDone;
  env_Embeddings : option EmbedResult;
  env_Error : option InferError;
}.
Definition empty_Envelope : Envelope :=
  {| env_Version := 0; env_Type := ""; env_RequestID := ""; env_Register := None;
     env_Heartbeat := None; env_Infer := None; env_Embed := None; env_Chunk := None;
     env_Done := None; env_Embeddings := None; env_Error := None |}.
#[export] Instance eta_Envelope : Settable Envelope := fun r =>
  Build_Envelope (env_Version r) (env_Type r) (env_RequestID r) (env_Register r) (env_Heartbeat r)
    (env_Infer r) (env_Embed r) (env_Chunk r) (env_Done r) (env_Embeddings r) (env_Error r).

(** ** [internal/openai/types.go]: the requests and replies the handlers read and write *)

(** [src/internal/openai/types.go:18-21] ChatMessage *)
Record ChatMessage := { cm_Role : string; cm_Content : string }.

(** [src/internal/openai/types.go:5-16] ChatCompletionRequest *)
Record ChatCompletionRequest := {
  cr_Model : string;
  cr_Messages : list ChatMessage;
  cr_Stream : bool;
  cr_PrivacyTier : string;
  cr_MiBackend : string;
  cr_MiDeviceKind : string;
  cr_MiSoC : string;
  cr_MiAccelerators : list string;
  cr_Temperature : option float;
  cr_MaxTokens : option Z;
}.

(** [src/internal/openai/types.go:52-56] Usage *)
Record ChatUsage := { cu_PromptTokens : Z; cu_CompletionTokens : Z; cu_TotalTokens : Z }.

(** [src/internal/openai/types.go:46-50] ResponseChoice *)
Record ResponseChoice := { rc_Index : Z; rc_Message : ChatMessage; rc_FinishReason : string }.

(** [src/internal/openai/types.go:37-44] ChatCompletionResponse *)
Record ChatCompletionResponse := {
  cc_ID : string;
  cc_Object : string;
  cc_Created : Z;
  cc_Model : string;
  cc_Choices : list ResponseChoice;
  cc_Usage : ChatUsage;
}.

(** [src/internal/openai/types.go:31-35] ChunkChoice *)
Record ChunkChoice := { ck_Index : Z; ck_Delta : ChatMessage; ck_FinishReason : option string }.

(** [src/internal/openai/types.go:23-29] ChatCompletionChunk *)
Record ChatCompletionChunk := {
  ch_ID : string;
  ch_Object : string;
  ch_Created : Z;
  ch_Model : string;
  ch_Choices : list ChunkChoice;
}.

(** [src/internal/openai/types.go:63-68] Model *)
Record ApiModel := { am_ID : string; am_Object : string; am_Created : Z; am_OwnedBy : string }.

(** [src/internal/openai/types.go:58-61] ModelList *)
Record ModelList := { ml_Object : string; ml_Data : list ApiModel }.

(** [src/internal/openai/types.go:70-75] EmbeddingRequest; [Input] is raw JSON. *)
Record EmbeddingRequest := {
  eq_Model : string;
  eq_Input : string;
  eq_PrivacyTier : string;
  eq_EncodingFormat : string;
}.

(** [src/internal/openai/types.go:84-88] EmbeddingData *)
Record EmbeddingData := { ed_Object : string; ed_Index : Z; ed_Embedding : list float }.

(** [src/internal/openai/types.go:77-82] EmbeddingResponse *)
Record EmbeddingResponse := {
  eb_Object : string;
  eb_Data : list EmbeddingData;
  eb_Model : string;
  eb_Usage : ChatUsage;
}.
