(* ===== verification/Wire.v ===== *)
(** * The messages between coordinator and agent as bytes: [internal/wsutil/json.go]

    [WriteJSON] gives a websocket the text of an [Envelope], [ReadJSON] decodes what it receives.
    [envelope_members] are what [json.Marshal] writes field by field, [envelope_fields] what
    [json.Unmarshal] reads.  The websocket library fails the read of a message of more than 32768 bytes
    ([read_limit]), and nothing under src/ raises that default.  [wire_round_trip]: a message of valid text that was
    sent is the message that is received, if its text is within that limit, and fails the read otherwise; so the
    models of the two programs hand messages over as values, and let a read fail at any time. *)

From Stdlib Require Import ZifyBool.
From S2P Require Import Prelude GoString GoSort GoFloat Json JsonDecode JsonRoundTrip JsonTree Protocol.

#[export] Instance eta_Heartbeat : Settable Heartbeat := fun h =>
  Build_Heartbeat (hb_ProtocolVersion h) (hb_NodeID h) (hb_Models h) (hb_ActiveRequests h) (hb_QueueDepth h)
    (hb_MemoryFreeMB h) (hb_LoadAverage h) (hb_ObservedAt h).
#[export] Instance eta_ProtocolMessage : Settable ProtocolMessage := fun m => Build_ProtocolMessage (pm_Role m) (pm_Content m).
#[export] Instance eta_EmbedRequest : Settable EmbedRequest := fun r => Build_EmbedRequest (er_Model r) (er_Input r) (er_PrivacyTier r).
#[export] Instance eta_EmbedResult : Settable EmbedResult := fun r => Build_EmbedResult (es_Vectors r) (es_PromptTokens r).
#[export] Instance eta_InferChunk : Settable InferChunk := fun c => Build_InferChunk (ic_Content c).
#[export] Instance eta_InferDone : Settable InferDone := fun d =>
  Build_InferDone (id_FinishReason d) (id_PromptTokens d) (id_OutputTokens d) (id_KeyID d) (id_Signature d).
#[export] Instance eta_InferError : Settable InferError := fun e => Build_InferError (ie_Message e) (ie_Retryable e).

Section Wire.
Context {F : FloatText} {Zn : Zone}.

(** ** Writing *)

(** [src/internal/protocol/messages.go:21-43] Register (written) *)
Definition register_members (r : Register) : members :=
  [ ("protocol_version", omit_int (reg_ProtocolVersion r));
    ("node_id", Some (string_tree (reg_NodeID r)));
    ("provider_id", omit_string (reg_ProviderID r));
    ("provider_token", omit_string (reg_ProviderToken r));
    ("public_name", omit_string (reg_PublicName r));
    ("city", omit_string (reg_City r));
    ("privacy_mode", omit_string (reg_PrivacyMode r));
    ("privacy_tiers", omit_strings (reg_PrivacyTiers r));
    ("hostname", Some (string_tree (reg_Hostname r)));
    ("arch", Some (string_tree (reg_Arch r)));
    ("os", Some (string_tree (reg_OS r)));
    ("backend", omit_string (reg_Backend r));
    ("device_kind", omit_string (reg_DeviceKind r));
    ("device_vendor", omit_string (reg_DeviceVendor r));
    ("device_model", omit_string (reg_DeviceModel r));
    ("soc", omit_string (reg_SoC r));
    ("accelerators", omit_strings (reg_Accelerators r));
    ("power_mode", omit_string (reg_PowerMode r));
    ("network_mode", omit_string (reg_NetworkMode r));
    ("models", Some (strings (reg_Models r)));
    ("max_concurrent", Some (int_tree (reg_MaxConcurrent r))) ].

(** [src/internal/protocol/messages.go:45-54] Heartbeat (written) *)
Definition heartbeat_members (h : Heartbeat) : members :=
  [ ("protocol_version", omit_int (hb_ProtocolVersion h));
    ("node_id", Some (string_tree (hb_NodeID h)));
    ("models", Some (strings (hb_Models h)));
    ("active_requests", Some (int_tree (hb_ActiveRequests h)));
    ("queue_depth", Some (int_tree (hb_QueueDepth h)));
    ("memory_free_mb", Some (int_tree (hb_MemoryFreeMB h)));
    ("load_average", Some (JNumber (float_text (hb_LoadAverage h))));
    ("observed_at", Some (time_tree (hb_ObservedAt h))) ].

(** [src/internal/protocol/messages.go:69-72] ProtocolMessage (written) *)
Definition message_members (m : ProtocolMessage) : members :=
  [ ("role", Some (string_tree (pm_Role m))); ("content", Some (string_tree (pm_Content m))) ].

(** [src/internal/protocol/messages.go:56-67] InferRequest (written) *)
Definition infer_members (r : InferRequest) : members :=
  [ ("model", Some (string_tree (ir_Model r)));
    ("messages", Some (slice_tree (fun m => struct_tree (message_members m)) (ir_Messages r)));
    ("stream", Some (JBool (ir_Stream r)));
    ("privacy_tier", omit_string (ir_PrivacyTier r));
    ("backend", omit_string (ir_Backend r));
    ("device_kind", omit_string (ir_DeviceKind r));
    ("soc", omit_string (ir_SoC r));
    ("accelerators", omit_strings (ir_Accelerators r));
    ("temperature", (fun f => JNumber (float_text f)) <$> ir_Temperature r);
    ("max_tokens", int_tree <$> ir_MaxTokens r) ].

(** [src/internal/protocol/messages.go:74-78] EmbedRequest (written) *)
Definition embed_members (r : EmbedRequest) : members :=
  [ ("model", Some (string_tree (er_Model r)));
    ("input", Some (strings (er_Input r)));
    ("privacy_tier", omit_string (er_PrivacyTier r)) ].

(** [src/internal/protocol/messages.go:80-83] EmbedResult (written) *)
Definition result_members (r : EmbedResult) : members :=
  [ ("vectors", Some (slice_tree (slice_tree (fun f => JNumber (float32_text f))) (es_Vectors r)));
    ("prompt_tokens", Some (int_tree (es_PromptTokens r))) ].

(** [src/internal/protocol/messages.go:85-87] InferChunk (written) *)
Definition chunk_members (c : InferChunk) : members := [("content", Some (string_tree (ic_Content c)))].

(** [src/internal/protocol/messages.go:89-95] InferDone (written) *)
Definition done_members (d : InferDone) : members :=
  [ ("finish_reason", Some (string_tree (id_FinishReason d)));
    ("prompt_tokens", Some (int_tree (id_PromptTokens d)));
    ("output_tokens", Some (int_tree (id_OutputTokens d)));
    ("key_id", omit_string (id_KeyID d));
    ("signature", omit_string (id_Signature d)) ].

(** [src/internal/protocol/messages.go:97-100] InferError (written) *)
Definition error_members (e : InferError) : members :=
  [ ("message", Some (string_tree (ie_Message e))); ("retryable", Some (JBool (ie_Retryable e))) ].

(** [src/internal/protocol/messages.go:7-19] Envelope (written) *)
Definition envelope_members (e : Envelope) : members :=
  [ ("version", omit_int (env_Version e));
    ("type", Some (string_tree (env_Type e)));
    ("request_id", omit_string (env_RequestID e));
    ("register", (fun r => struct_tree (register_members r)) <$> env_Register e);
    ("heartbeat", (fun r => struct_tree (heartbeat_members r)) <$> env_Heartbeat e);
    ("infer", (fun r => struct_tree (infer_members r)) <$> env_Infer e);
    ("embed", (fun r => struct_tree (embed_members r)) <$> env_Embed e);
    ("chunk", (fun r => struct_tree (chunk_members r)) <$> env_Chunk e);
    ("done", (fun r => struct_tree (done_members r)) <$> env_Done e);
    ("embeddings", (fun r => struct_tree (result_members r)) <$> env_Embeddings e);
    ("error", (fun r => struct_tree (error_members r)) <$> env_Error e) ].

(** [json.Marshal] fails for an instant whose year has more than four digits and for a number
    that is not finite. *)
Definition marshalable (e : Envelope) : bool :=
  from_option (fun h => finite (hb_LoadAverage h) && clock_in_range (hb_ObservedAt h)) true (env_Heartbeat e)
  && from_option (fun r => from_option finite true (ir_Temperature r)) true (env_Infer e)
  && from_option (fun r => forallb (forallb finite) (es_Vectors r)) true (env_Embeddings e).

Definition marshal (e : Envelope) : option (list Z) :=
  if marshalable e then Some (write false 0 (struct_tree (envelope_members e))) else None.

(** ** Reading *)

Definition zero_Register : Register := Build_Register 0 "" "" "" "" "" "" [] "" "" "" "" "" "" "" "" [] "" "" [] 0.

(** [src/internal/protocol/messages.go:21-43] Register (read) *)
Definition register_fields : list (string * setter Register) :=
  [ ("protocol_version", as_int (fun v r => r <| reg_ProtocolVersion := v |>));
    ("node_id", as_string (fun v r => r <| reg_NodeID := v |>));
    ("provider_id", as_string (fun v r => r <| reg_ProviderID := v |>));
    ("provider_token", as_string (fun v r => r <| reg_ProviderToken := v |>));
    ("public_name", as_string (fun v r => r <| reg_PublicName := v |>));
    ("city", as_string (fun v r => r <| reg_City := v |>));
    ("privacy_mode", as_string (fun v r => r <| reg_PrivacyMode := v |>));
    ("privacy_tiers", as_strings (fun v r => r <| reg_PrivacyTiers := v |>));
    ("hostname", as_string (fun v r => r <| reg_Hostname := v |>));
    ("arch", as_string (fun v r => r <| reg_Arch := v |>));
    ("os", as_string (fun v r => r <| reg_OS := v |>));
    ("backend", as_string (fun v r => r <| reg_Backend := v |>));
    ("device_kind", as_string (fun v r => r <| reg_DeviceKind := v |>));
    ("device_vendor", as_string (fun v r => r <| reg_DeviceVendor := v |>));
    ("device_model", as_string (fun v r => r <| reg_DeviceModel := v |>));
    ("soc", as_string (fun v r => r <| reg_SoC := v |>));
    ("accelerators", as_strings (fun v r => r <| reg_Accelerators := v |>));
    ("power_mode", as_string (fun v r => r <| reg_PowerMode := v |>));
    ("network_mode", as_string (fun v r => r <| reg_NetworkMode := v |>));
    ("models", as_strings (fun v r => r <| reg_Models := v |>));
    ("max_concurrent", as_int (fun v r => r <| reg_MaxConcurrent := v |>)) ].

Definition zero_Heartbeat : Heartbeat := Build_Heartbeat 0 "" [] 0 0 0 f0 time_zero.

(** [src/internal/protocol/messages.go:45-54] Heartbeat (read) *)
Definition heartbeat_fields : list (string * setter Heartbeat) :=
  [ ("protocol_version", as_int (fun v h => h <| hb_ProtocolVersion := v |>));
    ("node_id", as_string (fun v h => h <| hb_NodeID := v |>));
    ("models", as_strings (fun v h => h <| hb_Models := v |>));
    ("active_requests", as_int (fun v h => h <| hb_ActiveRequests := v |>));
    ("queue_depth", as_int (fun v h => h <| hb_QueueDepth := v |>));
    ("memory_free_mb", as_uint (fun v h => h <| hb_MemoryFreeMB := v |>));
    ("load_average", as_float float_parse (fun v h => h <| hb_LoadAverage := v |>));
    ("observed_at", as_time (fun v h => h <| hb_ObservedAt := v |>)) ].

(** [src/internal/protocol/messages.go:69-72] ProtocolMessage (read) *)
Definition message_fields : list (string * setter ProtocolMessage) :=
  [ ("role", as_string (fun v m => m <| pm_Role := v |>)); ("content", as_string (fun v m => m <| pm_Content := v |>)) ].

Definition zero_InferRequest : InferRequest := Build_InferRequest "" [] false "" "" "" "" [] None None.

(** [src/internal/protocol/messages.go:56-67] InferRequest (read) *)
Definition infer_fields : list (string * setter InferRequest) :=
  [ ("model", as_string (fun v r => r <| ir_Model := v |>));
    ("messages", as_slice (decode_struct message_fields) (Build_ProtocolMessage "" "") (fun v r => r <| ir_Messages := v |>));
    ("stream", as_bool (fun v r => r <| ir_Stream := v |>));
    ("privacy_tier", as_string (fun v r => r <| ir_PrivacyTier := v |>));
    ("backend", as_string (fun v r => r <| ir_Backend := v |>));
    ("device_kind", as_string (fun v r => r <| ir_DeviceKind := v |>));
    ("soc", as_string (fun v r => r <| ir_SoC := v |>));
    ("accelerators", as_strings (fun v r => r <| ir_Accelerators := v |>));
    ("temperature", as_pointer (as_float float_parse (fun v _ => v)) f0 ir_Temperature (fun v r => r <| ir_Temperature := v |>));
    ("max_tokens", as_pointer (as_int (fun v _ => v)) 0 ir_MaxTokens (fun v r => r <| ir_MaxTokens := v |>)) ].

(** [src/internal/protocol/messages.go:74-78] EmbedRequest (read) *)
Definition embed_fields : list (string * setter EmbedRequest) :=
  [ ("model", as_string (fun v r => r <| er_Model := v |>));
    ("input", as_strings (fun v r => r <| er_Input := v |>));
    ("privacy_tier", as_string (fun v r => r <| er_PrivacyTier := v |>)) ].

(** [src/internal/protocol/messages.go:80-83] EmbedResult (read) *)
Definition result_fields : list (string * setter EmbedResult) :=
  [ ("vectors", as_slice (as_slice (as_float float32_parse (fun v _ => v)) f0 (fun v _ => v)) [] (fun v r => r <| es_Vectors := v |>));
    ("prompt_tokens", as_int (fun v r => r <| es_PromptTokens := v |>)) ].

(** [src/internal/protocol/messages.go:85-87] InferChunk (read) *)
Definition chunk_fields : list (string * setter InferChunk) := [("content", as_string (fun v c => c <| ic_Content := v |>))].

(** [src/internal/protocol/messages.go:89-95] InferDone (read) *)
Definition done_fields : list (string * setter InferDone) :=
  [ ("finish_reason", as_string (fun v d => d <| id_FinishReason := v |>));
    ("prompt_tokens", as_int (fun v d => d <| id_PromptTokens := v |>));
    ("output_tokens", as_int (fun v d => d <| id_OutputTokens := v |>));
    ("key_id", as_string (fun v d => d <| id_KeyID := v |>));
    ("signature", as_string (fun v d => d <| id_Signature := v |>)) ].

(** [src/internal/protocol/messages.go:97-100] InferError (read) *)
Definition error_fields : list (string * setter InferError) :=
  [ ("message", as_string (fun v e => e <| ie_Message := v |>)); ("retryable", as_bool (fun v e => e <| ie_Retryable := v |>)) ].

(** [src/internal/protocol/messages.go:7-19] Envelope (read) *)
Definition envelope_fields : list (string * setter Envelope) :=
  [ ("version", as_int (fun v e => e <| env_Version := v |>));
    ("type", as_string (fun v e => e <| env_Type := v |>));
    ("request_id", as_string (fun v e => e <| env_RequestID := v |>));
    ("register", as_pointer (decode_struct register_fields) zero_Register env_Register (fun v e => e <| env_Register := v |>));
    ("heartbeat", as_pointer (decode_struct heartbeat_fields) zero_Heartbeat env_Heartbeat (fun v e => e <| env_Heartbeat := v |>));
    ("infer", as_pointer (decode_struct infer_fields) zero_InferRequest env_Infer (fun v e => e <| env_Infer := v |>));
    ("embed", as_pointer (decode_struct embed_fields) (Build_EmbedRequest "" [] "") env_Embed (fun v e => e <| env_Embed := v |>));
    ("chunk", as_pointer (decode_struct chunk_fields) (Build_InferChunk "") env_Chunk (fun v e => e <| env_Chunk := v |>));
    ("done", as_pointer (decode_struct done_fields) empty_InferDone env_Done (fun v e => e <| env_Done := v |>));
    ("embeddings", as_pointer (decode_struct result_fields) empty_EmbedResult env_Embeddings (fun v e => e <| env_Embeddings := v |>));
    ("error", as_pointer (decode_struct error_fields) (Build_InferError "" false) env_Error (fun v e => e <| env_Error := v |>)) ].

Definition decode_envelope : list Z -> option Envelope := unmarshal envelope_fields empty_Envelope.

(** ** The helpers *)

Inductive WireError := ErrSocket (reason : string) | ErrJSON.

(** The most bytes of one message the websocket library reads unless [SetReadLimit] says otherwise: its documented
    default, in force on both ends, since neither [websocket.Accept] nor [websocket.Dial] is followed by such a call. *)
Definition read_limit : Z := 32768.

(** What [conn.Read] returns when a message with these bytes arrives, or the connection fails. *)
Definition conn_read (incoming : res string (list Z)) : res string (list Z) :=
  match incoming with
  | Ok data => if read_limit <? Z.of_nat (length data) then Err "read limited" else Ok data
  | Err err => Err err
  end.

(** [src/internal/wsutil/json.go:10-21] ReadJSON; [incoming] is the message that arrives. *)
Definition ReadJSON {T} (unmarshal : list Z -> option T) (incoming : res string (list Z)) : res WireError T :=
  match conn_read incoming with
  | Err err => Err (ErrSocket err)
  | Ok data => match unmarshal data with None => Err ErrJSON | Some value => Ok value end
  end.

(** [src/internal/wsutil/json.go:23-29] WriteJSON: the text message given to [conn.Write], and its error. *)
Definition WriteJSON {T} (marshal : T -> option (list Z)) (value : T) (write : list Z -> option string) : option (list Z) * option WireError :=
  match marshal value with
  | None => (None, Some ErrJSON)
  | Some data => (Some data, ErrSocket <$> write data)
  end.

(** ** What can be sent *)

Context {is_float32 : float -> Prop} {FL : FloatTextLaws F is_float32} {ZL : ZoneLaws Zn}.

Definition register_ok (r : Register) : Prop :=
  Forall valid_text [reg_NodeID r; reg_ProviderID r; reg_ProviderToken r; reg_PublicName r; reg_City r; reg_PrivacyMode r; reg_Hostname r;
    reg_Arch r; reg_OS r; reg_Backend r; reg_DeviceKind r; reg_DeviceVendor r; reg_DeviceModel r; reg_SoC r; reg_PowerMode r; reg_NetworkMode r]
  /\ Forall (Forall valid_text) [reg_PrivacyTiers r; reg_Accelerators r; reg_Models r]
  /\ Forall in_int64 [reg_ProtocolVersion r; reg_MaxConcurrent r].

Definition heartbeat_ok (h : Heartbeat) : Prop :=
  valid_text (hb_NodeID h) /\ Forall valid_text (hb_Models h)
  /\ Forall in_int64 [hb_ProtocolVersion h; hb_ActiveRequests h; hb_QueueDepth h] /\ in_uint64 (hb_MemoryFreeMB h).

Definition message_ok (m : ProtocolMessage) : Prop := valid_text (pm_Role m) /\ valid_text (pm_Content m).

Definition infer_ok (r : InferRequest) : Prop :=
  Forall valid_text [ir_Model r; ir_PrivacyTier r; ir_Backend r; ir_DeviceKind r; ir_SoC r]
  /\ Forall message_ok (ir_Messages r) /\ Forall valid_text (ir_Accelerators r)
  /\ from_option in_int64 True (ir_MaxTokens r).

Definition embed_ok (r : EmbedRequest) : Prop := valid_text (er_Model r) /\ Forall valid_text (er_Input r) /\ valid_text (er_PrivacyTier r).

Definition result_ok (r : EmbedResult) : Prop := Forall (Forall is_float32) (es_Vectors r) /\ in_int64 (es_PromptTokens r).

Definition done_ok (d : InferDone) : Prop :=
  Forall valid_text [id_FinishReason d; id_KeyID d; id_Signature d] /\ Forall in_int64 [id_PromptTokens d; id_OutputTokens d].

(** Valid text, integers of their width, [float32] vectors. *)
Definition envelope_ok (e : Envelope) : Prop :=
  in_int64 (env_Version e) /\ valid_text (env_Type e) /\ valid_text (env_RequestID e)
  /\ from_option register_ok True (env_Register e) /\ from_option heartbeat_ok True (env_Heartbeat e)
  /\ from_option infer_ok True (env_Infer e) /\ from_option embed_ok True (env_Embed e)
  /\ from_option (fun c => valid_text (ic_Content c)) True (env_Chunk e) /\ from_option done_ok True (env_Done e)
  /\ from_option result_ok True (env_Embeddings e) /\ from_option (fun x => valid_text (ie_Message x)) True (env_Error e).

(** ** Round trips *)

Lemma register_writable d r : 3 < d -> register_ok r -> writable d (struct_tree (register_members r)).
Proof. intros Hd Hok. unfold register_ok in Hok. rewrite !Forall_cons in Hok. destruct_and!. write_members. Qed.

Lemma heartbeat_writable d h : 3 < d -> heartbeat_ok h -> finite (hb_LoadAverage h) = true -> clock_in_range (hb_ObservedAt h) = true ->
  writable d (struct_tree (heartbeat_members h)).
Proof.
  intros Hd Hok Hf Ht. unfold heartbeat_ok in Hok. rewrite !Forall_cons in Hok. destruct_and!. write_members.
  constructor. by apply float_number.
Qed.

Lemma message_writable d m : 2 < d -> message_ok m -> writable d (struct_tree (message_members m)).
Proof. intros Hd [Hr Hc]. write_members. Qed.

Lemma infer_writable d r : 4 < d -> infer_ok r -> from_option finite true (ir_Temperature r) = true -> writable d (struct_tree (infer_members r)).
Proof.
  intros Hd Hok Ht. unfold infer_ok in Hok. rewrite !Forall_cons in Hok. destruct_and!.
  assert (Hft : forall f, ir_Temperature r = Some f -> writable (d - 1) (JNumber (float_text f))).
  { intros f Hf. rewrite Hf in Ht. constructor. by apply float_number. }
  assert (Hmt : forall z, ir_MaxTokens r = Some z -> writable (d - 1) (int_tree z)).
  { intros z Hz. apply int_writable. by eapply from_some. }
  write_members. apply slice_writable; [lia|]. eapply Forall_impl; [eassumption|]. intros m Hm. apply message_writable; [lia|done].
Qed.

Lemma embed_writable d r : 3 < d -> embed_ok r -> writable d (struct_tree (embed_members r)).
Proof. intros Hd (H1 & H2 & H3). write_members. Qed.

Lemma result_writable d r : 4 < d -> result_ok r -> forallb (forallb finite) (es_Vectors r) = true -> writable d (struct_tree (result_members r)).
Proof.
  intros Hd [Hv Hi] Hf. write_members. apply slice_writable; [lia|]. apply Forall_forall. intros l Hl.
  apply slice_writable; [lia|]. apply Forall_forall. intros f Hx. constructor. apply float32_number.
  rewrite forallb_forall in Hf. apply list_elem_of_In in Hl. apply Hf in Hl. rewrite forallb_forall in Hl. apply Hl. by apply list_elem_of_In.
Qed.

Lemma done_writable d r : 3 < d -> done_ok r -> writable d (struct_tree (done_members r)).
Proof. intros Hd Hok. unfold done_ok in Hok. rewrite !Forall_cons in Hok. destruct_and!. write_members. Qed.

Lemma envelope_writable e : envelope_ok e -> marshalable e = true -> writable max_depth (struct_tree (envelope_members e)).
Proof.
  intros (Hi & Ht & Hq & Hr & Hh & Hin & Hem & Hc & Hd & Hv & He) Hm. unfold marshalable in Hm. rewrite !andb_true_iff in Hm.
  destruct Hm as [[Hm1 Hm2] Hm3]. assert (Hdepth : 5 < max_depth - 1) by (unfold max_depth; lia).
  assert (Hdepth' : 1 < max_depth) by (unfold max_depth; lia). revert Hdepth Hdepth'. generalize max_depth as d. intros d Hdepth Hdepth'.
  write_members; apply option_writable; intros a Ha; rewrite Ha in *; cbn [from_option] in *.
  - apply register_writable; [lia|done].
  - apply andb_true_iff in Hm1 as [? ?]. apply heartbeat_writable; [lia|done..].
  - apply infer_writable; [lia|done..].
  - apply embed_writable; [lia|done].
  - write_members.
  - apply done_writable; [lia|done].
  - apply result_writable; [lia|done..].
  - write_members.
Qed.

Lemma register_read r : register_ok r -> decode_ms register_fields (register_members r) zero_Register = Some r.
Proof.
  intros Hok. unfold register_ok in Hok. rewrite !Forall_cons in Hok. destruct_and!.
  destruct r as [f1 f2 f3 f4 f5 f6 f7 f8 f9 f10 f11 f12 f13 f14 f15 f16 f17 f18 f19 f20 f21].
  unfold register_members, zero_Register, strings, omit_strings. cbn in * |-.
  cbn [reg_ProtocolVersion reg_NodeID reg_ProviderID reg_ProviderToken reg_PublicName reg_City reg_PrivacyMode reg_PrivacyTiers reg_Hostname
    reg_Arch reg_OS reg_Backend reg_DeviceKind reg_DeviceVendor reg_DeviceModel reg_SoC reg_Accelerators reg_PowerMode reg_NetworkMode
    reg_Models reg_MaxConcurrent].
  read_members.
Qed.

Lemma heartbeat_read h : heartbeat_ok h -> finite (hb_LoadAverage h) = true -> clock_in_range (hb_ObservedAt h) = true ->
  decode_ms heartbeat_fields (heartbeat_members h) zero_Heartbeat = Some h.
Proof.
  intros Hok Hf Ht. unfold heartbeat_ok in Hok. rewrite !Forall_cons in Hok. destruct_and!. pose proof (float_read _ Hf) as Hr.
  destruct h as [f1 f2 f3 f4 f5 f6 f7 f8]. unfold heartbeat_members, zero_Heartbeat, strings. cbn in * |-.
  cbn [hb_ProtocolVersion hb_NodeID hb_Models hb_ActiveRequests hb_QueueDepth hb_MemoryFreeMB hb_LoadAverage hb_ObservedAt].
  read_members.
Qed.

Lemma message_read m : message_ok m -> decode_struct message_fields (struct_tree (message_members m)) (Build_ProtocolMessage "" "") = Some m.
Proof. intros [Hr Hc]. rewrite decode_tree. destruct m as [f1 f2]. unfold message_members. cbn in * |-. cbn [pm_Role pm_Content]. read_members. Qed.

Lemma infer_read r : infer_ok r -> from_option finite true (ir_Temperature r) = true ->
  decode_ms infer_fields (infer_members r) zero_InferRequest = Some r.
Proof.
  intros Hok Ht. unfold infer_ok in Hok. rewrite !Forall_cons in Hok. destruct_and!.
  assert (Hm : Forall (fun m => decode_struct message_fields (struct_tree (message_members m)) (Build_ProtocolMessage "" "") = Some m) (ir_Messages r))
    by (eapply Forall_impl; [eassumption|apply message_read]).
  pose proof (float_pointee _ Ht) as Hp. pose proof (int_pointee (ir_MaxTokens r) ltac:(done)) as Hk. clear Ht.
  destruct r as [f1 f2 f3 f4 f5 f6 f7 f8 f9 f10]. unfold infer_members, zero_InferRequest, strings, omit_strings. simpl in * |-.
  cbn [ir_Model ir_Messages ir_Stream ir_PrivacyTier ir_Backend ir_DeviceKind ir_SoC ir_Accelerators ir_Temperature ir_MaxTokens].
  read_members.
Qed.

Lemma embed_read r : embed_ok r -> decode_ms embed_fields (embed_members r) (Build_EmbedRequest "" [] "") = Some r.
Proof. intros (H1 & H2 & H3). destruct r as [f1 f2 f3]. unfold embed_members, strings. simpl in * |-. cbn [er_Model er_Input er_PrivacyTier]. read_members. Qed.

Lemma result_read r : result_ok r -> forallb (forallb finite) (es_Vectors r) = true ->
  decode_ms result_fields (result_members r) empty_EmbedResult = Some r.
Proof.
  intros [Hv Hi] Hf. unfold result_members, empty_EmbedResult.
  assert (Hr : Forall (fun l => as_slice (as_float float32_parse (fun v _ => v)) f0 (fun v _ => v)
    (slice_tree (fun f => JNumber (float32_text f)) l) [] = Some l) (es_Vectors r)).
  { apply Forall_forall. intros l Hl. rewrite Forall_forall in Hv. specialize (Hv l Hl).
    assert (Hfl : Forall (fun f => finite f = true) l).
    { rewrite forallb_forall in Hf. apply list_elem_of_In in Hl. apply Hf in Hl. rewrite forallb_forall in Hl.
      apply Forall_forall. intros f Hx. apply Hl. by apply list_elem_of_In. }
    destruct l as [|f l]; [done|]. apply (slice_read (as_float float32_parse (fun v _ => v)) f0 (fun f => JNumber (float32_text f)) (fun v _ => v) (f :: l) []).
    apply Forall_forall. intros x Hx. rewrite Forall_forall in Hv, Hfl. cbn [as_float]. by rewrite (float32_read x) by auto. }
  destruct r as [f1 f2]. simpl in * |-. cbn [es_Vectors es_PromptTokens]. read_members.
Qed.

Lemma done_read d : done_ok d -> decode_ms done_fields (done_members d) empty_InferDone = Some d.
Proof.
  intros Hok. unfold done_ok in Hok. rewrite !Forall_cons in Hok. destruct_and!. destruct d as [f1 f2 f3 f4 f5].
  unfold done_members, empty_InferDone. simpl in * |-. cbn [id_FinishReason id_PromptTokens id_OutputTokens id_KeyID id_Signature]. read_members.
Qed.

Lemma chunk_read c : valid_text (ic_Content c) -> decode_ms chunk_fields (chunk_members c) (Build_InferChunk "") = Some c.
Proof. intros H. destruct c as [f1]. unfold chunk_members. simpl in * |-. cbn [ic_Content]. read_members. Qed.

Lemma error_read e : valid_text (ie_Message e) -> decode_ms error_fields (error_members e) (Build_InferError "" false) = Some e.
Proof. intros H. destruct e as [f1 f2]. unfold error_members. simpl in * |-. cbn [ie_Message ie_Retryable]. read_members. Qed.

Lemma envelope_read e : envelope_ok e -> marshalable e = true -> decode_ms envelope_fields (envelope_members e) empty_Envelope = Some e.
Proof.
  intros (Hi & Ht & Hq & Hr & Hh & Hin & Hem & Hc & Hd & Hv & He) Hm. unfold marshalable in Hm. rewrite !andb_true_iff in Hm.
  destruct Hm as [[Hm1 Hm2] Hm3].
  pose proof (struct_pointee register_fields register_members zero_Register (env_Register e)
    (fun a Ha => register_read a (from_some _ _ _ Hr Ha))) as P1.
  assert (P2 : forall a, env_Heartbeat e = Some a ->
    struct_tree (heartbeat_members a) <> JNull /\ decode_struct heartbeat_fields (struct_tree (heartbeat_members a)) zero_Heartbeat = Some a).
  { apply struct_pointee. intros a Ha. rewrite Ha in *. apply andb_true_iff in Hm1 as [? ?]. by apply heartbeat_read. }
  assert (P3 : forall a, env_Infer e = Some a ->
    struct_tree (infer_members a) <> JNull /\ decode_struct infer_fields (struct_tree (infer_members a)) zero_InferRequest = Some a).
  { apply struct_pointee. intros a Ha. rewrite Ha in *. by apply infer_read. }
  assert (P4 : forall a, env_Embeddings e = Some a ->
    struct_tree (result_members a) <> JNull /\ decode_struct result_fields (struct_tree (result_members a)) empty_EmbedResult = Some a).
  { apply struct_pointee. intros a Ha. rewrite Ha in *. by apply result_read. }
  pose proof (struct_pointee embed_fields embed_members (Build_EmbedRequest "" [] "") (env_Embed e)
    (fun a Ha => embed_read a (from_some _ _ _ Hem Ha))) as P5.
  pose proof (struct_pointee chunk_fields chunk_members (Build_InferChunk "") (env_Chunk e)
    (fun a Ha => chunk_read a (from_some _ _ _ Hc Ha))) as P6.
  pose proof (struct_pointee done_fields done_members empty_InferDone (env_Done e)
    (fun a Ha => done_read a (from_some _ _ _ Hd Ha))) as P7.
  pose proof (struct_pointee error_fields error_members (Build_InferError "" false) (env_Error e)
    (fun a Ha => error_read a (from_some _ _ _ He Ha))) as P8.
  clear Hr Hh Hin Hem Hc Hd Hv He Hm1 Hm2 Hm3.
  destruct e as [f1 f2 f3 f4 f5 f6 f7 f8 f9 f10 f11]. unfold envelope_members, empty_Envelope.
  cbn [env_Version env_Type env_RequestID env_Register env_Heartbeat env_Infer env_Embed env_Chunk env_Done env_Embeddings env_Error] in *.
  read_members.
Qed.

(** C17: a message whose strings are valid UTF-8, whose integers fit their Go types and whose
    vectors are float32 numbers, handed to [WriteJSON], is written in one text message (the error is the
    socket's), unless it has a number that is not finite or an instant whose year has more than four digits: then
    nothing is sent.  [ReadJSON] of the peer decodes a text of at most 32768 bytes to the same message, field
    by field; the read of a longer one fails, which ends the connection of a node ([long_prompt_not_read]: a chat
    with a prompt of 32 KB is such a message, well within the coordinator's 8 MiB of a request body). *)
Theorem wire_round_trip e write : envelope_ok e ->
  match WriteJSON marshal e write with
  | (Some data, err) => marshalable e = true /\ err = ErrSocket <$> write data
      /\ ReadJSON decode_envelope (Ok data)
         = if Z.of_nat (length data) <=? read_limit then Ok e else Err (ErrSocket "read limited")
  | (None, err) => marshalable e = false /\ err = Some ErrJSON
  end.
Proof.
  intros Hok. unfold WriteJSON, marshal. destruct (marshalable e) eqn:Hm; [|done]. split; [done|]. split; [done|].
  unfold ReadJSON, conn_read. rewrite Z.leb_antisym. destruct (read_limit <? _); [done|]. cbn [negb].
  unfold decode_envelope. by rewrite (unmarshal_write _ _ _ _ e) by (by apply envelope_writable || by apply envelope_read).
Qed.
End Wire.

(** ** A text of floats *)

(** A number's sign, mantissa and exponent in one natural: texts that satisfy the laws. *)
Definition float_code (f : float) : Z :=
  match Prim2SF f with
  | S754_zero s => if s then 1 else 0
  | S754_finite s m e => (Z.pos m * 4096 + (e + 2048)) * 2 + if s then 1 else 0
  | _ => 0
  end.
Definition code_float (n : Z) : float :=
  SF2Prim match n / 8192 with
  | Z.pos m => S754_finite (Z.odd n) m ((n / 2) mod 4096 - 2048)
  | _ => S754_zero (Z.odd n)
  end.

Definition coded : FloatText := {|
  float_text f := json_int (float_code f); float_parse text := Some (code_float (digits_value 0 text));
  float32_text f := json_int (float_code f); float32_parse text := Some (code_float (digits_value 0 text)) |}.

Lemma digits_bound m : Z.pos m < 2 ^ Z.pos (SpecFloat.digits2_pos m).
Proof.
  induction m as [m IH|m IH|]; cbn [SpecFloat.digits2_pos]; [| |done].
  all: rewrite Pos2Z.inj_succ, Z.pow_succ_r by done; lia.
Qed.

Lemma finite_parts f s m e : Prim2SF f = S754_finite s m e -> Z.pos m < 2 ^ 53 /\ -2048 <= e < 2048.
Proof.
  intros Hf. pose proof (FloatAxioms.Prim2SF_valid f) as Hv. rewrite Hf in Hv. cbn [SpecFloat.valid_binary] in Hv.
  unfold SpecFloat.bounded in Hv. apply andb_true_iff in Hv as [Hc He]. apply Z.leb_le in He.
  unfold SpecFloat.canonical_mantissa in Hc. apply Z.eqb_eq in Hc. unfold SpecFloat.fexp, SpecFloat.emin, FloatOps.prec, FloatOps.emax in *.
  pose proof (digits_bound m). split; [|lia]. eapply Z.lt_le_trans; [eassumption|]. apply Z.pow_le_mono_r; lia.
Qed.

Lemma float_code_bound f : 0 <= float_code f < 10 ^ 20.
Proof.
  unfold float_code. destruct (Prim2SF f) as [[]|[]| |s m e] eqn:Hf; try lia. apply finite_parts in Hf as [? ?].
  destruct s; lia.
Qed.

Lemma code_float_code f : finite f = true -> code_float (float_code f) = f.
Proof.
  intros Hfin. rewrite <- (FloatAxioms.SF2Prim_Prim2SF f) at 2. unfold code_float, float_code, finite in *. f_equal.
  destruct (Prim2SF f) as [[]|[]| |s m e] eqn:Hf; try done. apply finite_parts in Hf as [Hm He].
  set (n := (Z.pos m * 4096 + (e + 2048)) * 2 + if s then 1 else 0).
  assert (H2 : n / 2 = Z.pos m * 4096 + (e + 2048)) by (subst n; destruct s; dlia).
  assert (H1 : n / 8192 = Z.pos m) by (subst n; destruct s; dlia).
  assert (Ho : Z.odd n = s) by (subst n; by rewrite Z.add_comm, (Z.mul_comm _ 2), Z.odd_add_mul_2; destruct s).
  rewrite H1, H2, Ho. f_equal. rewrite Z.add_comm, Z.mod_add by done. rewrite Z.mod_small by lia. lia.
Qed.

#[export] Instance coded_laws : FloatTextLaws coded (fun _ => True).
Proof.
  assert (Hn : forall f, number_ok (json_int (float_code f))).
  { intros f. pose proof (float_code_bound f) as Hb. split; [|intros rest; by apply scan_natural].
    destruct (natural_head _ Hb) as (b & l & H & ?). exists b, l. auto. }
  assert (Hr : forall f, finite f = true -> Some (code_float (digits_value 0 (json_int (float_code f)))) = Some f).
  { intros f Hf. pose proof (float_code_bound f) as Hb. unfold json_int. rewrite itoa_bytes_pos by lia.
    destruct (natural_digits _ Hb) as (_ & -> & _). by rewrite code_float_code. }
  split; cbn [float_text float_parse float32_text float32_parse coded]; auto.
Qed.

Definition demo_zone : Zone := fun _ => -5400.
#[export] Instance demo_zone_laws : ZoneLaws demo_zone.
Proof. by intros t. Qed.

(** An inference request with a temperature, a heartbeat with a load, a result with vectors. *)
Definition sample : Envelope :=
  {| env_Version := 1; env_Type := "infer"; env_RequestID := "req-1"; env_Register := None;
     env_Heartbeat := Some (Build_Heartbeat 1 "node-1" ["llama3"] 1 0 8192 (float_of_Z 3) (63844847999 * second));
     env_Infer := Some (Build_InferRequest "llama3" [Build_ProtocolMessage "user" "a<b & c"] true "private" "" "" "" ["gpu"]
       (Some (float_of_Z 1)) (Some 64));
     env_Embed := None; env_Chunk := None; env_Done := None;
     env_Embeddings := Some (Build_EmbedResult [[float_of_Z 2; f0]; []] 7); env_Error := None |}.

(** A chat whose prompt is [n] characters long. *)
Definition prompt_message (n : Z) : Envelope :=
  empty_Envelope <| env_Version := 1 |> <| env_Type := "infer" |> <| env_RequestID := "req-1" |>
    <| env_Infer := Some (Build_InferRequest "llama3" [Build_ProtocolMessage "user" (of_bytes (repeat 97 (Z.to_nat n)))] true "private" "" "" "" []
         None (Some 64)) |>.

Definition sent_size (e : Envelope) : option Z := (fun data => Z.of_nat (length data)) <$> marshal (F := coded) (Zn := demo_zone) e.

Lemma sample_size : exists n, sent_size sample = Some n /\ n <= read_limit.
Proof. eexists. split; [vm_compute; reflexivity|]. by vm_compute. Qed.

Lemma wire_round_trip_witness :
  marshalable (Zn := demo_zone) sample = true /\
  match marshal (F := coded) (Zn := demo_zone) sample with
  | Some data => ReadJSON (decode_envelope (F := coded)) (Ok data) = Ok sample
  | None => False
  end.
Proof.
  split; [by vm_compute|].
  assert (Hok : envelope_ok (is_float32 := fun _ => True) sample).
  { unfold envelope_ok, infer_ok, heartbeat_ok, result_ok, message_ok, in_int64, in_uint64, min_int64, max_int64. cbn.
    repeat split; repeat first [apply Forall_nil_2|apply Forall_cons_2|split]; try done; try lia; try reflexivity. }
  pose proof (wire_round_trip (F := coded) (Zn := demo_zone) (is_float32 := fun _ => True) sample (fun _ => None) Hok) as H.
  unfold WriteJSON in H. pose proof sample_size as (n & Hn & Hle). unfold sent_size in Hn.
  destruct (marshal (F := coded) (Zn := demo_zone) sample) as [data|]; [|discriminate Hn]. injection Hn as Hn.
  destruct H as (_ & _ & ->). rewrite Hn. apply Z.leb_le in Hle. by rewrite Hle.
Defined.

(** A node's connection does not survive a prompt of 32 KB: the agent's read fails. *)
Theorem long_prompt_not_read :
  match marshal (F := coded) (Zn := demo_zone) (prompt_message 32768) with
  | Some data => (Z.of_nat (length data) <=? 33000)
      && match ReadJSON (decode_envelope (F := coded)) (Ok data) with Err (ErrSocket _) => true | _ => false end
  | None => false
  end = true.
Proof. vm_compute. reflexivity. Qed.
