(* ===== verification/Sqlite.v ===== *)
(** * Opening a database: [internal/sqlitestore/sqlitestore.go]

    [Open] makes the directory, opens the driver and sets the pragmas; the calls on the operating
    system and on the third-party driver answer from outside.  [open_handles]: a handle that was opened
    is either the result or closed again, so a failed start leaves none behind. *)

From S2P Require Import Prelude GoString.

(** ** Paths: [filepath.Dir] and [filepath.Clean] on Unix *)

(** The elements between slashes; [kept] are those kept so far, the last one first. *)
Fixpoint clean_elements (rooted : bool) (kept : list (list Z)) (elements : list (list Z)) : list (list Z) :=
  match elements with
  | [] => rev kept
  | e :: rest =>
      if bool_decide (e = []) || bool_decide (e = [46]) then clean_elements rooted kept rest
      else if bool_decide (e = [46; 46]) then
        match kept with
        | last :: kept' => if bool_decide (last = [46; 46]) then clean_elements rooted (e :: kept) rest else clean_elements rooted kept' rest
        | [] => clean_elements rooted (if rooted then [] else [e]) rest
        end
      else clean_elements rooted (e :: kept) rest
  end.

Fixpoint elements (l : list Z) : list (list Z) :=
  match l with
  | [] => [[]]
  | c :: l => if c =? 47 then [] :: elements l else match elements l with e :: es => (c :: e) :: es | [] => [[c]] end
  end.

Fixpoint join_elements (es : list (list Z)) : list Z :=
  match es with [] => [] | [e] => e | e :: es => e ++ 47 :: join_elements es end.

Definition Clean (p : list Z) : list Z :=
  let rooted := match p with c :: _ => c =? 47 | [] => false end in
  match (if rooted then [47] else []) ++ join_elements (clean_elements rooted [] (elements p)) with
  | [] => [46]
  | q => q
  end.

(** Up to the last slash. *)
Fixpoint up_to_slash (l : list Z) : list Z :=
  match l with
  | [] => []
  | c :: l => if existsb (Z.eqb 47) (c :: l) then c :: up_to_slash l else []
  end.

Definition Dir (path : string) : string := of_bytes (Clean (up_to_slash (bytes path))).

Example dir_examples :
  (Dir <$> ["data/mi.db"; "mi.db"; "/mi.db"; "/var//lib/./mi/../db/"; "../../x"; ""]) = ["data"; "."; "/"; "/var/lib/db"; "../.."; "."].
Proof. vm_compute. reflexivity. Qed.

(** ** Opening *)

Inductive Call :=
| MkdirAll (dir : string) (perm : Z)
| OpenDriver (driver path : string)
| SetMaxOpenConns (n : Z)
| Exec (sql : string)
| CloseHandle.
#[export] Instance Call_eq_dec : EqDecision Call.
Proof. solve_decision. Defined.

(** [src/internal/sqlitestore/sqlitestore.go:19-24] Open (the pragmas) *)
Definition pragmas : string := "
PRAGMA journal_mode = WAL;
PRAGMA synchronous = NORMAL;
PRAGMA foreign_keys = ON;
PRAGMA busy_timeout = 5000;
".

(** [src/internal/sqlitestore/sqlitestore.go:11-30] Open: the calls it makes, and the error; [None]
    returns the handle. *)
Definition Open (path : string) (mkdirErr openErr execErr : option string) : list Call * option string :=
  let made := [MkdirAll (Dir path) 493] in
  match mkdirErr with
  | Some err => (made, Some err)
  | None =>
      let opened := made ++ [OpenDriver "sqlite" path] in
      match openErr with
      | Some err => (opened, Some err)
      | None =>
          let executed := opened ++ [SetMaxOpenConns 1; Exec pragmas] in
          match execErr with
          | Some err => (executed ++ [CloseHandle], Some err)
          | None => (executed, None)
          end
      end
  end.

(** The handles a run leaves open: those the driver gave, less those closed. *)
Definition handles (openErr : option string) (calls : list Call) : Z :=
  fold_left (fun n c => match c with
    | OpenDriver _ _ => match openErr with None => n + 1 | Some _ => n end
    | CloseHandle => n - 1
    | _ => n
    end) calls 0.

(** One handle is left exactly when it is returned; nothing touches the database before its directory
    exists, and nothing after an error but closing it. *)
Theorem open_handles path e1 e2 e3 :
  let '(calls, err) := Open path e1 e2 e3 in
  handles e2 calls = (match err with None => 1 | Some _ => 0 end)
  /\ (err = None <-> e1 = None /\ e2 = None /\ e3 = None)
  /\ head calls = Some (MkdirAll (Dir path) 493).
Proof. destruct e1, e2, e3; simpl; intuition congruence. Qed.
