(* ===== verification/Duration.v ===== *)
(** * Durations of the configuration: [Duration.UnmarshalYAML] in [internal/config/config.go]

    [ParseDuration] is [time.ParseDuration] of the standard library: a sign, then numbers with a unit
    each, added up in 64 bits; a fraction goes through [float64].  [duration_exact]: whole numbers with
    one unit, as the configuration has them, mean what they say; [duration_range]: whatever is
    accepted is an [int64]. *)

From Stdlib Require Import ZifyBool.
From S2P Require Import Prelude GoString GoFloat Json JsonDecode JsonRoundTrip.

Definition two63 : Z := 9223372036854775808.
Definition two64 : Z := 18446744073709551616.

(** [leadingInt]: the digits in front, or [None] when they pass 2^63. *)
Fixpoint leadingInt (x : Z) (s : list Z) : option (Z * list Z) :=
  match s with
  | c :: rem =>
      if is_dig c then
        if two63 / 10 <? x then None
        else let x := x * 10 + (c - 48) in if two63 <? x then None else leadingInt x rem
      else Some (x, s)
  | [] => Some (x, [])
  end.

(** [leadingFraction]: the digits in front as a number and its power of ten; those past 2^63
    are dropped. *)
Fixpoint leadingFraction (x : Z) (scale : float) (overflow : bool) (s : list Z) : Z * float * list Z :=
  match s with
  | c :: rem =>
      if is_dig c then
        let y := x * 10 + (c - 48) in
        if overflow || ((two63 - 1) / 10 <? x) || (two63 <? y) then leadingFraction x scale true rem
        else leadingFraction y (scale *f float_of_Z 10) false rem
      else (x, scale, s)
  | [] => (x, scale, [])
  end.

(** Up to the next digit or point. *)
Fixpoint unit_text (s : list Z) : list Z * list Z :=
  match s with
  | c :: rem => if (c =? 46) || is_dig c then ([], s) else let '(u, rest) := unit_text rem in (c :: u, rest)
  | [] => ([], [])
  end.

(** [unitMap]; microseconds are also written with the micro sign and with a mu. *)
Definition unitMap : list (list Z * Z) :=
  [ (bytes "ns", 1); (bytes "us", 1000); ([194; 181; 115], 1000); ([206; 188; 115], 1000); (bytes "ms", 1000000);
    (bytes "s", 1000000000); (bytes "m", 60000000000); (bytes "h", 3600000000000) ].

Definition unit_of (u : list Z) : option Z := snd <$> List.find (fun e => bool_decide (e.1 = u)) unitMap.

(** One number with its unit, and what follows it. *)
Definition parse_term (s : list Z) : option (Z * list Z) :=
  match s with
  | [] => None
  | c :: _ =>
      if negb ((c =? 46) || is_dig c) then None
      else match leadingInt 0 s with
      | None => None
      | Some (v, s1) =>
          let pre := negb (length s1 =? length s)%nat in
          let '(f, scale, s2, post) :=
            match s1 with
            | 46 :: s2 => let '(f, scale, s3) := leadingFraction 0 (float_of_Z 1) false s2 in (f, scale, s3, negb (length s3 =? length s2)%nat)
            | _ => (0, float_of_Z 1, s1, false)
            end in
          if negb pre && negb post then None
          else match unit_text s2 with
          | ([], _) => None
          | (u, rest) =>
              match unit_of u with
              | None => None
              | Some unit =>
                  if two63 / unit <? v then None
                  else
                    let v := v * unit in
                    let v := if 0 <? f then (v + Z_of_float (float_of_Z f *f (float_of_Z unit /f scale))) mod two64 else v in
                    if two63 <? v then None else Some (v, rest)
              end
          end
      end
  end.

(** The sum of the terms; each takes at least one byte. *)
Fixpoint parse_terms (fuel : nat) (d : Z) (s : list Z) : option Z :=
  match s, fuel with
  | [], _ => Some d
  | _, O => None
  | _, S fuel =>
      match parse_term s with
      | None => None
      | Some (v, rest) => let d := (d + v) mod two64 in if two63 <? d then None else parse_terms fuel d rest
      end
  end.

(** [time.ParseDuration]. *)
Definition ParseDuration (text : string) : option Z :=
  let s := bytes text in
  let '(neg, s) := match s with c :: rem => if (c =? 45) || (c =? 43) then (c =? 45, rem) else (false, s) | [] => (false, []) end in
  if bool_decide (s = [48]) then Some 0
  else match s with
  | [] => None
  | _ =>
      match parse_terms (length s) 0 s with
      | None => None
      | Some d => if neg then Some (- d) else if two63 - 1 <? d then None else Some d
      end
  end.

(** [src/internal/config/config.go:148-158] UnmarshalYAML; [None] is the error of the text. *)
Definition UnmarshalYAML (value : string) (d : Z) : option Z :=
  if value =s "" then Some d else ParseDuration value.

Example duration_mixed : ParseDuration "1h15m30.918273645s" = Some 4530918273645.
Proof. vm_compute. reflexivity. Qed.
Example duration_fraction : ParseDuration "-.5m" = Some (-30000000000).
Proof. vm_compute. reflexivity. Qed.
Example duration_no_unit : ParseDuration "90" = None.
Proof. vm_compute. reflexivity. Qed.
Example duration_wraps : ParseDuration "9223372036854775808ns9223372036854775808ns" = Some 0.
Proof. vm_compute. reflexivity. Qed.

(** ** Lemmas *)

Lemma digits_value_grows ds x : Forall is_digit ds -> 0 <= x -> x <= digits_value x ds.
Proof.
  intros H. revert x. induction H as [|b ds Hb _ IH]; intros x Hx; [done|]. cbn [digits_value]. unfold is_digit in Hb.
  specialize (IH (10 * x + (b - 48)) ltac:(lia)). lia.
Qed.

(** A text that does not go on with a digit. *)
Definition no_digit (s : list Z) : Prop := match s with c :: _ => is_dig c = false | [] => True end.

Lemma leadingInt_digits ds x rest :
  Forall is_digit ds -> 0 <= x -> digits_value x ds <= two63 -> no_digit rest ->
  leadingInt x (ds ++ rest) = Some (digits_value x ds, rest).
Proof.
  unfold two63. intros H. revert x. induction H as [|b ds Hb Hds IH]; intros x Hx Hv Hr.
  - destruct rest as [|c rest]; [done|]. cbn [app leadingInt digits_value no_digit] in *. by rewrite Hr.
  - cbn [app leadingInt digits_value] in *. unfold is_digit in Hb. replace (is_dig b) with true by (unfold is_dig; lia).
    pose proof (digits_value_grows ds (10 * x + (b - 48)) Hds ltac:(lia)) as Hg. unfold two63.
    rewrite (proj2 (Z.ltb_ge _ x)) by dlia. rewrite (proj2 (Z.ltb_ge _ _)) by lia.
    replace (x * 10 + (b - 48)) with (10 * x + (b - 48)) by lia. apply IH; [lia|done|done].
Qed.

(** A unit's text as the loop meets it. *)
Lemma units_spec u unit :
  In (u, unit) unitMap -> u <> [] /\ no_digit u /\ 1 <= unit <= 3600000000000 /\ unit_text u = (u, []) /\ unit_of u = Some unit
  /\ match u with 46 :: _ => False | _ => True end.
Proof. cbn. intuition (simplify_eq/=; try done). all: vm_compute; done. Qed.

Lemma parse_number ds u unit n :
  In (u, unit) unitMap -> Forall is_digit ds -> ds <> [] -> digits_value 0 ds = n -> n * unit <= two63 ->
  parse_term (ds ++ u) = Some (n * unit, []).
Proof.
  intros (Hne & Hnd & Hunit & Htext & Hof & Hdot)%units_spec Hd Hds Hn Hle.
  pose proof (digits_value_grows ds 0 Hd ltac:(lia)) as Hpos. rewrite Hn in Hpos.
  assert (Hn63 : n <= two63) by nia. destruct ds as [|b ds]; [done|]. unfold parse_term. rewrite <- app_comm_cons.
  assert (Hb : is_dig b = true) by (apply Forall_cons in Hd as [Hb _]; unfold is_digit in Hb; unfold is_dig; lia).
  rewrite Hb, orb_true_r. cbn [negb]. rewrite app_comm_cons, leadingInt_digits by (rewrite ?Hn; done). rewrite Hn.
  assert (Hpre : negb (length u =? length ((b :: ds) ++ u))%nat = true).
  { rewrite length_app. simpl. apply negb_true_iff, Nat.eqb_neq. lia. }
  rewrite Hpre. destruct u as [|c u]; [done|]. 
  assert (Hc : forall A (x y : A), match c with 46 => x | _ => y end = y).
  { intros A x y. destruct c as [|c|c]; [done| |done]. repeat (destruct c as [c|c|]; try done). }
  replace (match c with 46 => let '(f, scale, s3) := leadingFraction 0 (float_of_Z 1) false u in (f, scale, s3, negb (length s3 =? length u)%nat)
    | _ => (0, float_of_Z 1, c :: u, false) end) with (0, float_of_Z 1, c :: u, false) by (symmetry; apply (Hc (Z * float * list Z * bool)%type)).
  cbv iota beta. cbn [negb andb]. rewrite Htext, Hof.
  rewrite (proj2 (Z.ltb_ge _ n)) by (apply Z.div_le_lower_bound; lia).
  change (0 <? 0) with false. cbv iota. by rewrite (proj2 (Z.ltb_ge _ _)) by done.
Qed.

Lemma unit_bytes u unit : In (u, unit) unitMap -> bytes (of_bytes u) = u.
Proof. cbn. intuition (simplify_eq/=; try done). Qed.

Lemma itoa_digits n : 0 <= n <= max_int64 -> Forall is_digit (itoa_bytes n) /\ digits_value 0 (itoa_bytes n) = n /\ bytes (itoa n) = itoa_bytes n
  /\ exists b ds, itoa_bytes n = b :: ds.
Proof.
  intros Hn. destruct (itoa_bytes_spec n Hn) as [Hd Hv]. split; [done|]. split; [done|]. split.
  - unfold itoa. apply bytes_of_bytes. eapply Forall_impl; [exact Hd|]. unfold is_digit. lia.
  - unfold max_int64 in Hn. destruct (natural_digits n) as (_ & _ & Hs); [lia|]. rewrite itoa_bytes_pos by lia.
    destruct (digits_from 20 n []) as [|b ds]; [by specialize (Hs [] eq_refl)|]. by exists b, ds.
Qed.

(** Whole numbers with one unit, with or without a sign, are what they say. *)
Theorem duration_exact n u unit :
  In (u, unit) unitMap -> 0 <= n -> n * unit <= max_int64 ->
  ParseDuration (itoa n +:+ of_bytes u) = Some (n * unit) /\ ParseDuration ("-" +:+ itoa n +:+ of_bytes u) = Some (- (n * unit)).
Proof.
  intros Hu Hn Hle. pose proof (units_spec u unit Hu) as (Hne & _ & Hunit & _). unfold max_int64 in Hle.
  assert (Hpos : 0 <= n * unit) by nia. destruct (itoa_digits n) as (Hd & Hv & Hb & b & ds & Hh); [unfold max_int64; nia|].
  assert (Hterm : forall fuel, (0 < fuel)%nat -> parse_terms fuel 0 (itoa_bytes n ++ u) = Some (n * unit)).
  { intros fuel Hf. destruct fuel as [|fuel]; [lia|]. rewrite Hh, <- app_comm_cons. cbn [parse_terms]. rewrite app_comm_cons, <- Hh.
    rewrite (parse_number _ u unit n Hu Hd ltac:(by rewrite Hh) Hv ltac:(unfold two63; lia)).
    rewrite Z.add_0_l, Z.mod_small by (unfold two64; lia). rewrite (proj2 (Z.ltb_ge _ _)) by (unfold two63; lia). by destruct fuel. }
  assert (H0 : itoa_bytes n ++ u <> [48]).
  { intros H. rewrite Hh in H. destruct ds as [|d ds]; [|by destruct ds]. destruct u; [done|]. destruct u; done. }
  assert (Hbd : is_digit b) by (rewrite Hh in Hd; by apply Forall_cons in Hd as [? _]). unfold is_digit in Hbd.
  unfold ParseDuration. rewrite !bytes_app, Hb, (unit_bytes u unit Hu). change (bytes "-") with [45]. cbn [app]. split.
  - rewrite Hh, <- app_comm_cons. replace ((b =? 45) || (b =? 43)) with false by lia. rewrite app_comm_cons, <- Hh.
    rewrite bool_decide_eq_false_2 by done. rewrite Hterm by (rewrite Hh; simpl; lia).
    destruct (itoa_bytes n ++ u) eqn:E; [by rewrite Hh in E|]. by rewrite (proj2 (Z.ltb_ge _ _)) by (unfold two63; lia).
  - change ((45 =? 45) || (45 =? 43)) with true. cbv iota. change (45 =? 45) with true. rewrite bool_decide_eq_false_2 by done.
    rewrite Hterm by (rewrite Hh; simpl; lia). by destruct (itoa_bytes n ++ u) eqn:E; [rewrite Hh in E|].
Qed.

(** Whatever text is accepted, the duration is a 64-bit one. *)
Lemma parse_term_range s v rest : parse_term s = Some (v, rest) -> v <= two63.
Proof. unfold parse_term. repeat case_goal; try done. all: intros [= <- <-]; lia. Qed.

Lemma parse_terms_range fuel d s z : 0 <= d <= two63 -> parse_terms fuel d s = Some z -> 0 <= z <= two63.
Proof.
  revert d s. induction fuel as [|fuel IH]; intros d s Hd; destruct s as [|c s]; cbn [parse_terms]; try done; try (intros [= <-]; done).
  destruct (parse_term (c :: s)) as [[v rest]|]; [|done]. case_goal; [done|]. apply IH. pose proof (Z.mod_pos_bound (d + v) two64). unfold two64 in *. lia.
Qed.

Theorem duration_range text d : ParseDuration text = Some d -> in_int64 d.
Proof.
  unfold ParseDuration, in_int64, min_int64, max_int64.
  destruct (match bytes text with [] => (false, []) | c :: rem => if (c =? 45) || (c =? 43) then (c =? 45, rem) else (false, bytes text) end) as [neg s].
  case_goal; [by intros [= <-]|]. destruct s as [|c s]; [done|]. destruct (parse_terms _ 0 (c :: s)) as [z|] eqn:Ez; [|done].
  apply parse_terms_range in Ez; [|done]. unfold two63 in *. destruct neg; [intros [= <-]; lia|]. case_goal; [done|]. intros [= <-]. lia.
Qed.

(** A duration with a minus sign is one: [heartbeat_interval: -5s] is read without an error. *)
Example negative_interval : UnmarshalYAML "-5s" 0 = Some (-5 * second).
Proof. vm_compute. reflexivity. Qed.
