(* ===== verification/Config.v ===== *)
(** * Configuration: [internal/config/config.go]

    The configuration structs and the two loaders with their defaults.  Reading
    the file and the YAML decoder are parameters: [readFile path] gives the bytes
    or an error, [unmarshal data] the decoded struct and whether decoding failed
    (the decoder may have filled part of the struct by then). *)

From S2P Require Import Prelude GoString.

(** [src/internal/config/config.go:26-30] ServerTLSConfig *)
Record ServerTLSConfig := { st_CertFile : string; st_KeyFile : string; st_NodeClientCAFile : string }.

(** [src/internal/config/config.go:42-47] ConsumerAccount *)
Record ConsumerAccount := {
  ca_ID : string;
  ca_DisplayName : string;
  ca_APIKeys : list string;
  ca_TotalTokenLimit : Z;
}.

(** [src/internal/config/config.go:49-55] ProviderAccount *)
Record ProviderAccount := {
  pa_ID : string;
  pa_DisplayName : string;
  pa_Token : string;
  pa_PrivacyMode : string;
  pa_PrivacyTiers : list string;
}.

(** [src/internal/config/config.go:32-40] CityConfig *)
Record CityConfig := {
  cc_Enabled : bool;
  cc_Name : string;
  cc_RequireProviderTokens : bool;
  cc_UsageStorePath : string;
  cc_SQLitePath : string;
  cc_Consumers : list ConsumerAccount;
  cc_Providers : list ProviderAccount;
}.

(** [src/internal/config/config.go:57-65] SettlementConfig *)
Record SettlementConfig := {
  sc_Enabled : bool;
  sc_ChainPath : string;
  sc_SQLitePath : string;
  sc_PricePerThousandTokensMicros : Z;
  sc_ProviderRewardShareBPS : Z;
  sc_TargetLatencyMs : Z;
  sc_LatencyPenaltyBPS : Z;
}.

(** [src/internal/config/config.go:67-70] IdempotencyConfig *)
Record IdempotencyConfig := { ic_SQLitePath : string; ic_TTL : Z }.

(** [src/internal/config/config.go:72-84] ChallengeConfig *)
Record ChallengeConfig := {
  hc_Enabled : bool;
  hc_Path : string;
  hc_AutoRun : bool;
  hc_Interval : Z;
  hc_Timeout : Z;
  hc_Model : string;
  hc_ProviderID : string;
  hc_PrivacyTier : string;
  hc_Prompt : string;
  hc_ExpectedContains : string;
  hc_MaxTokens : Z;
}.

(** [src/internal/config/config.go:90-97] ModelAlias *)
Record ModelAlias := {
  ma_ID : string;
  ma_Target : string;
  ma_DisplayName : string;
  ma_Description : string;
  ma_Tags : list string;
  ma_ContextWindow : Z;
}.

(** [src/internal/config/config.go:86-88] ModelConfig *)
Record ModelConfig := { mc_Aliases : list ModelAlias }.

(** [src/internal/config/config.go:99-102] SchedulerConfig *)
Record SchedulerConfig := { sd_MaxQueuePenalty : Z; sd_RequestTimeout : Z }.

(** [src/internal/config/config.go:11-24] Coordinator *)
Record Coordinator := {
  co_ListenAddr : string;
  co_APIKeys : list string;
  co_AdminToken : string;
  co_DevAdminOpen : bool;
  co_TLS : ServerTLSConfig;
  co_City : CityConfig;
  co_Settlement : SettlementConfig;
  co_Idempotency : IdempotencyConfig;
  co_Challenges : ChallengeConfig;
  co_Models : ModelConfig;
  co_Scheduler : SchedulerConfig;
  co_MaxRequestBytes : Z;
}.
#[export] Instance eta_Coordinator : Settable Coordinator := fun r =>
  Build_Coordinator (co_ListenAddr r) (co_APIKeys r) (co_AdminToken r) (co_DevAdminOpen r) (co_TLS r)
    (co_City r) (co_Settlement r) (co_Idempotency r) (co_Challenges r) (co_Models r) (co_Scheduler r)
    (co_MaxRequestBytes r).

(** [src/internal/config/config.go:122-125] BackendConfig *)
Record BackendConfig := { bc_Type : string; bc_URL : string }.
#[export] Instance eta_BackendConfig : Settable BackendConfig := fun r =>
  Build_BackendConfig (bc_Type r) (bc_URL r).

(** [src/internal/config/config.go:127-135] HardwareConfig *)
Record HardwareConfig := {
  hw_Kind : string;
  hw_Vendor : string;
  hw_Model : string;
  hw_SoC : string;
  hw_Accelerators : list string;
  hw_PowerMode : string;
  hw_NetworkMode : string;
}.

(** [src/internal/config/config.go:137-142] ClientTLSConfig *)
Record ClientTLSConfig := {
  ct_CAFile : string;
  ct_CertFile : string;
  ct_KeyFile : string;
  ct_InsecureSkipVerify : bool;
}.

(** [src/internal/config/config.go:104-120] NodeAgent *)
Record NodeAgent := {
  na_NodeID : string;
  na_ProviderID : string;
  na_ProviderToken : string;
  na_PublicName : string;
  na_City : string;
  na_PrivacyMode : string;
  na_PrivacyTiers : list string;
  na_CoordinatorURL : string;
  na_TLS : ClientTLSConfig;
  na_Backend : BackendConfig;
  na_Hardware : HardwareConfig;
  na_OllamaURL : string;
  na_Models : list string;
  na_HeartbeatInterval : Z;
  na_MaxConcurrent : Z;
}.
#[export] Instance eta_NodeAgent : Settable NodeAgent := fun r =>
  Build_NodeAgent (na_NodeID r) (na_ProviderID r) (na_ProviderToken r) (na_PublicName r) (na_City r)
    (na_PrivacyMode r) (na_PrivacyTiers r) (na_CoordinatorURL r) (na_TLS r) (na_Backend r)
    (na_Hardware r) (na_OllamaURL r) (na_Models r) (na_HeartbeatInterval r) (na_MaxConcurrent r).

Section Load.
Context {E : Type} (readFile : string -> res E string).

(** [src/internal/config/config.go:198-204] loadYAML: the struct afterwards and the error. *)
Definition loadYAML {C} (zero : C) (unmarshal : string -> C * option E) (path : string)
  : C * option E :=
  match readFile path with
  | Err e => (zero, Some e)
  | Ok data => unmarshal data
  end.

(** [src/internal/config/config.go:160-169] LoadCoordinator *)
Definition LoadCoordinator (zero : Coordinator) (unmarshal : string -> Coordinator * option E)
    (path : string) : Coordinator * option E :=
  match loadYAML zero unmarshal path with
  | (cfg, Some err) => (cfg, Some err)
  | (cfg, None) =>
      (if co_ListenAddr cfg =s "" then cfg <| co_ListenAddr := ":8080" |> else cfg, None)
  end.

(** [src/internal/config/config.go:176-195] LoadNodeAgent (the defaults) *)
Definition nodeAgentDefaults (cfg : NodeAgent) : NodeAgent :=
  let cfg := if na_CoordinatorURL cfg =s ""
    then cfg <| na_CoordinatorURL := "ws://localhost:8080/ws/node" |> else cfg in
  let cfg := if bc_Type (na_Backend cfg) =s ""
    then cfg <| na_Backend ::= fun b => b <| bc_Type := "ollama" |> |> else cfg in
  let cfg := cfg <| na_Backend ::= fun b => b <| bc_Type ::= to_lower |> |> in
  let cfg := if na_OllamaURL cfg =s ""
    then cfg <| na_OllamaURL := "http://127.0.0.1:11434" |> else cfg in
  let cfg := if (bc_URL (na_Backend cfg) =s "") && (bc_Type (na_Backend cfg) =s "ollama")
    then cfg <| na_Backend ::= fun b => b <| bc_URL := na_OllamaURL cfg |> |> else cfg in
  let cfg := if na_HeartbeatInterval cfg =? 0
    then cfg <| na_HeartbeatInterval := 5 * second |> else cfg in
  if na_MaxConcurrent cfg <=? 0 then cfg <| na_MaxConcurrent := 1 |> else cfg.

(** [src/internal/config/config.go:171-196] LoadNodeAgent *)
Definition LoadNodeAgent (zero : NodeAgent) (unmarshal : string -> NodeAgent * option E)
    (path : string) : NodeAgent * option E :=
  match loadYAML zero unmarshal path with
  | (cfg, Some err) => (cfg, Some err)
  | (cfg, None) => (nodeAgentDefaults cfg, None)
  end.
End Load.

(** A negative heartbeat interval is not replaced by the default: it reaches [time.NewTicker], which
    panics. *)
Example negative_heartbeat_kept :
  na_HeartbeatInterval (nodeAgentDefaults
    {| na_NodeID := ""; na_ProviderID := ""; na_ProviderToken := ""; na_PublicName := ""; na_City := ""; na_PrivacyMode := "";
       na_PrivacyTiers := []; na_CoordinatorURL := "";
       na_TLS := {| ct_CAFile := ""; ct_CertFile := ""; ct_KeyFile := ""; ct_InsecureSkipVerify := false |};
       na_Backend := {| bc_Type := ""; bc_URL := "" |};
       na_Hardware := {| hw_Kind := ""; hw_Vendor := ""; hw_Model := ""; hw_SoC := ""; hw_Accelerators := []; hw_PowerMode := "";
                         hw_NetworkMode := "" |};
       na_OllamaURL := ""; na_Models := []; na_HeartbeatInterval := -5 * second; na_MaxConcurrent := 0 |}) = -5 * second.
Proof. vm_compute. reflexivity. Qed.
