(* ===== verification/ModelCatalog.v ===== *)
(** * Model aliases: [internal/modelcatalog/catalog.go]

    A catalog maps alias ids to concrete models.  [Resolve] routes a request,
    [VisibleModelIDs] is what [GET /v1/models] lists and [Catalog_] what
    [GET /v1/models/catalog] lists.  A nil [*Catalog] is [None].

    The lemmas relate the three: an id is listed as visible exactly when it is
    an available concrete model or an alias of one, and every visible id resolves
    to an available model unless an alias shadows a concrete model of the same
    name. *)

From S2P Require Import Prelude GoString GoSort Config.

(** [src/internal/modelcatalog/catalog.go:15-22] Alias *)
Record Alias := {
  al_ID : string;
  al_Target : string;
  al_DisplayName : string;
  al_Description : string;
  al_Tags : list string;
  al_ContextWindow : Z;
}.

(** [src/internal/modelcatalog/catalog.go:10-13] Catalog *)
Record Catalog := { aliases : gmap string Alias; ordered : list Alias }.

(** [src/internal/modelcatalog/catalog.go:24-28] Resolution *)
Record Resolution := { rs_Requested : string; rs_Target : string; rs_IsAlias : bool }.

(** [src/internal/modelcatalog/catalog.go:35-45] CatalogModel *)
Record CatalogModel := {
  km_ID : string;
  km_Object : string;
  km_Kind : string;
  km_Target : string;
  km_DisplayName : string;
  km_Description : string;
  km_Tags : list string;
  km_ContextWindow : Z;
  km_Available : bool;
}.

(** [src/internal/modelcatalog/catalog.go:30-33] CatalogResponse *)
Record CatalogResponse := { kr_Object : string; kr_Data : list CatalogModel }.

(** [src/internal/modelcatalog/catalog.go:49-64] New (loop body) *)
Definition add_alias (m : gmap string Alias) (alias : ModelAlias) : gmap string Alias :=
  let id := trim_space (ma_ID alias) in
  let target := trim_space (ma_Target alias) in
  if (id =s "") || (target =s "") then m
  else <[id := {| al_ID := id;
                  al_Target := target;
                  al_DisplayName := trim_space (ma_DisplayName alias);
                  al_Description := trim_space (ma_Description alias);
                  al_Tags := ma_Tags alias;
                  al_ContextWindow := ma_ContextWindow alias |}]> m.

(** [src/internal/modelcatalog/catalog.go:47-70] New *)
Definition New (cfg : ModelConfig) : Catalog :=
  let m := fold_left add_alias (mc_Aliases cfg) ∅ in
  {| aliases := m; ordered := sort_by al_ID (snd <$> map_to_list m) |}.

(** [src/internal/modelcatalog/catalog.go:72-80] Resolve *)
Definition Resolve (c : option Catalog) (model : string) : Resolution :=
  match c with
  | None => {| rs_Requested := model; rs_Target := model; rs_IsAlias := false |}
  | Some c =>
      match aliases c !! model with
      | Some alias => {| rs_Requested := model; rs_Target := al_Target alias; rs_IsAlias := true |}
      | None => {| rs_Requested := model; rs_Target := model; rs_IsAlias := false |}
      end
  end.

(** [src/internal/modelcatalog/catalog.go:137-145] stringSet *)
Definition stringSet (values : list string) : gset string :=
  fold_left (fun set value => if value =s "" then set else {[value]} ∪ set) values ∅.

(** [src/internal/modelcatalog/catalog.go:82-101] VisibleModelIDs *)
Definition VisibleModelIDs (c : option Catalog) (available : list string) : list string :=
  let availableSet := stringSet available in
  let visible :=
    match c with
    | None => availableSet
    | Some c =>
        fold_left (fun visible alias =>
          if bool_decide (al_Target alias ∈ availableSet) then {[al_ID alias]} ∪ visible else visible)
          (ordered c) availableSet
    end in
  sorted_keys visible.

(** [src/internal/modelcatalog/catalog.go:109-119] Catalog (alias rows) *)
Definition alias_row (availableSet : gset string) (alias : Alias) : CatalogModel :=
  {| km_ID := al_ID alias; km_Object := "model"; km_Kind := "alias"; km_Target := al_Target alias;
     km_DisplayName := al_DisplayName alias; km_Description := al_Description alias;
     km_Tags := al_Tags alias; km_ContextWindow := al_ContextWindow alias;
     km_Available := bool_decide (al_Target alias ∈ availableSet) |}.

(** [src/internal/modelcatalog/catalog.go:127-132] Catalog (concrete rows) *)
Definition concrete_row (model : string) : CatalogModel :=
  {| km_ID := model; km_Object := "model"; km_Kind := "concrete"; km_Target := "";
     km_DisplayName := ""; km_Description := ""; km_Tags := []; km_ContextWindow := 0;
     km_Available := true |}.

(** [src/internal/modelcatalog/catalog.go:103-135] Catalog; [sortedKeys] is lines 147-154. *)
Definition Catalog_ (c : option Catalog) (available : list string) : CatalogResponse :=
  let availableSet := stringSet available in
  let aliasRows := match c with Some c => alias_row availableSet <$> ordered c | None => [] end in
  let seen : gset string := list_to_set (km_ID <$> aliasRows) in
  {| kr_Object := "list";
     kr_Data := aliasRows ++
       (concrete_row <$> filter (fun model => model ∉ seen) (sorted_keys availableSet)) |}.

(** ** Lemmas *)

Lemma elem_of_stringSet_from v l (s : gset string) :
  v ∈ fold_left (fun set value => if value =s "" then set else {[value]} ∪ set) l s
  <-> v ∈ s \/ (v <> "" /\ v ∈ l).
Proof.
  revert s. induction l as [|x l IH]; intros s; simpl; [set_solver|].
  rewrite IH. destruct (x =s "") eqn:E.
  - apply str_eqb_true in E as ->. set_solver.
  - apply str_eqb_false in E. set_solver.
Qed.

Lemma elem_of_stringSet v l : v ∈ stringSet l <-> v <> "" /\ v ∈ l.
Proof. unfold stringSet. rewrite elem_of_stringSet_from. set_solver. Qed.

(** The catalog's invariant: [aliases] is keyed by id, ids and targets are not
    empty, and [ordered] lists the entries of [aliases]. *)
Definition alias_map_ok (m : gmap string Alias) : Prop :=
  map_Forall (fun k a => al_ID a = k /\ k <> "" /\ al_Target a <> "") m.

Definition catalog_ok (c : Catalog) : Prop :=
  alias_map_ok (aliases c) /\ ordered c = sort_by al_ID (snd <$> map_to_list (aliases c)).

Lemma add_alias_ok m a : alias_map_ok m -> alias_map_ok (add_alias m a).
Proof.
  intros Hm. unfold add_alias. case_goal; [done|].
  bsimpl. rewrite str_eqb_false in *. by apply map_Forall_insert_2.
Qed.

Lemma New_catalog_ok cfg : catalog_ok (New cfg).
Proof.
  split; [|done]. unfold New; simpl.
  assert (H : alias_map_ok ∅) by apply map_Forall_empty. revert H.
  generalize (∅ : gmap string Alias).
  induction (mc_Aliases cfg) as [|a l IH]; intros m Hm; simpl; [done|].
  apply IH. by apply add_alias_ok.
Qed.

Lemma elem_of_ordered c a : catalog_ok c -> a ∈ ordered c <-> aliases c !! al_ID a = Some a.
Proof.
  intros [Hok ->]. rewrite elem_of_sort_by, list_elem_of_fmap. split.
  - intros ([k a'] & -> & Hin). apply elem_of_map_to_list in Hin.
    destruct (Hok _ _ Hin) as [<- _]. done.
  - intros H. exists (al_ID a, a). by rewrite elem_of_map_to_list.
Qed.

Lemma elem_of_visible_fold v (av : gset string) l (s : gset string) :
  v ∈ fold_left (fun visible alias =>
        if bool_decide (al_Target alias ∈ av) then {[al_ID alias]} ∪ visible else visible) l s
  <-> v ∈ s \/ exists a, a ∈ l /\ al_ID a = v /\ al_Target a ∈ av.
Proof.
  revert s. induction l as [|x l IH]; intros s; simpl; [set_solver|].
  rewrite IH. case_bool_decide; set_solver.
Qed.

Lemma elem_of_VisibleModelIDs c av v :
  catalog_ok c ->
  v ∈ VisibleModelIDs (Some c) av
  <-> (v <> "" /\ v ∈ av) \/ exists a, aliases c !! v = Some a /\ al_Target a ∈ av.
Proof.
  intros Hok. unfold VisibleModelIDs. rewrite elem_of_sorted_keys, elem_of_visible_fold.
  rewrite elem_of_stringSet. setoid_rewrite elem_of_stringSet.
  split; (intros [?|(a & Ha & H)]; [by left|right; exists a]).
  - destruct H as [<- [_ ?]]. by rewrite <- elem_of_ordered.
  - destruct Hok as [Hm Ho]. destruct (Hm _ _ Ha) as (<- & ? & ?).
    rewrite elem_of_ordered by (by split). done.
Qed.

(** No alias has the name of an available concrete model. *)
Definition no_shadow (c : Catalog) (av : list string) : Prop :=
  forall a, aliases c !! al_ID a = Some a -> al_ID a ∉ av.


(** Map insertion order is irrelevant: ids are unique in the listing. *)
Lemma ordered_ids_nodup c : catalog_ok c -> NoDup (al_ID <$> ordered c).
Proof.
  intros [Hok ->]. rewrite sort_by_perm, <- list_fmap_compose.
  rewrite (list_fmap_ext _ fst); [apply NoDup_fst_map_to_list|].
  intros i [k a] Hl. apply list_elem_of_lookup_2, elem_of_map_to_list in Hl.
  by destruct (Hok _ _ Hl).
Qed.

Lemma Catalog_ids_nodup c av :
  catalog_ok c -> NoDup (km_ID <$> kr_Data (Catalog_ (Some c) av)).
Proof.
  intros Hok. unfold Catalog_; simpl. rewrite fmap_app, <- !list_fmap_compose.
  rewrite (list_fmap_ext (km_ID ∘ concrete_row) id) by done. rewrite list_fmap_id.
  apply NoDup_app. split_and!.
  - rewrite (list_fmap_ext (km_ID ∘ alias_row _) al_ID) by done. by apply ordered_ids_nodup.
  - intros x Hx Hf. apply list_elem_of_filter in Hf as [Hf _].
    rewrite elem_of_list_to_set in Hf. done.
  - apply NoDup_filter, sorted_keys_nodup.
Qed.

Lemma elem_of_Catalog c av r :
  r ∈ kr_Data (Catalog_ (Some c) av)
  <-> (exists a, a ∈ ordered c /\ r = alias_row (stringSet av) a)
   \/ (exists m, m ∈ stringSet av /\ (m ∉ al_ID <$> ordered c) /\ r = concrete_row m).
Proof.
  unfold Catalog_; simpl. rewrite elem_of_app, !list_elem_of_fmap.
  setoid_rewrite list_elem_of_filter. setoid_rewrite elem_of_sorted_keys.
  rewrite <- list_fmap_compose, (list_fmap_ext (km_ID ∘ alias_row _) al_ID) by done.
  setoid_rewrite elem_of_list_to_set. naive_solver.
Qed.

(** With no alias shadowing an available concrete model,
    [GET /v1/models] lists a non-empty id exactly when [Resolve] sends it to an
    available model, whatever the order of the alias entries. *)
Theorem visible_iff_servable cfg av v :
  no_shadow (New cfg) av -> v <> "" ->
  v ∈ VisibleModelIDs (Some (New cfg)) av <-> rs_Target (Resolve (Some (New cfg)) v) ∈ av.
Proof.
  intros Hns Hv. pose proof (New_catalog_ok cfg) as Hok. rewrite elem_of_VisibleModelIDs by done.
  unfold Resolve. destruct (aliases (New cfg) !! v) as [a|] eqn:E; simpl; [|naive_solver].
  destruct Hok as [Hm _]. destruct (Hm _ _ E) as (<- & _ & _).
  specialize (Hns a E). naive_solver.
Qed.

Definition demo_cfg : ModelConfig :=
  {| mc_Aliases :=
      [ {| ma_ID := " fast "; ma_Target := "llama3.1:8b"; ma_DisplayName := "Fast"; ma_Description := "";
           ma_Tags := ["chat"]; ma_ContextWindow := 8192 |};
        {| ma_ID := "big"; ma_Target := "llama3.1:70b"; ma_DisplayName := ""; ma_Description := "";
           ma_Tags := []; ma_ContextWindow := 0 |} ] |}.

Lemma demo_no_shadow : no_shadow (New demo_cfg) ["llama3.1:8b"].
Proof.
  intros a Ha. apply elem_of_ordered in Ha; [|apply New_catalog_ok].
  assert (Forall (fun a => al_ID a ∉ ["llama3.1:8b"]) (ordered (New demo_cfg))) as Hall.
  { apply (bool_decide_unpack _). by vm_compute. }
  rewrite Forall_forall in Hall. by apply Hall.
Qed.

Lemma visible_iff_servable_witness :
  "fast" ∈ VisibleModelIDs (Some (New demo_cfg)) ["llama3.1:8b"].
Proof.
  apply (visible_iff_servable demo_cfg ["llama3.1:8b"] "fast").
  - apply demo_no_shadow.
  - discriminate.
  - apply (bool_decide_unpack _). by vm_compute.
Defined.

(** The rows [GET /v1/models/catalog] marks available are
    the ids [GET /v1/models] lists, each exactly once, when no alias shadows an
    available concrete model. *)
Theorem catalog_agrees_visible cfg av :
  no_shadow (New cfg) av ->
  NoDup (km_ID <$> kr_Data (Catalog_ (Some (New cfg)) av)) /\
  sort_strings (km_ID <$> filter (fun r => km_Available r = true) (kr_Data (Catalog_ (Some (New cfg)) av)))
  = VisibleModelIDs (Some (New cfg)) av.
Proof.
  intros Hns. pose proof (New_catalog_ok cfg) as Hok. pose proof (Catalog_ids_nodup _ av Hok) as Hnd.
  split; [done|]. unfold VisibleModelIDs, sorted_keys.
  apply sort_strings_unique, NoDup_Permutation.
  - eapply sublist_NoDup; [done|]. apply fmap_sublist, sublist_filter.
  - apply NoDup_elements.
  - intros v. rewrite elem_of_elements, elem_of_visible_fold, elem_of_stringSet.
    rewrite list_elem_of_fmap. setoid_rewrite list_elem_of_filter.
    setoid_rewrite elem_of_Catalog. setoid_rewrite elem_of_stringSet. split.
    + intros (r & -> & Hav & [(a & Ha & ->)|(m & Hm & _ & ->)]); simpl in *; [right|left; done].
      exists a. bsimpl. by rewrite <- elem_of_stringSet.
    + intros [Hv|(a & Ha & <- & Ht)].
      * exists (concrete_row v). split_and!; [done|done|]. right. exists v.
        destruct Hv. split_and!; try done.
        rewrite list_elem_of_fmap. intros (a & -> & Ha).
        apply elem_of_ordered in Ha; [|done]. by apply (Hns a Ha).
      * exists (alias_row (stringSet av) a). split_and!; [done| |by left; exists a].
        simpl. by rewrite bool_decide_eq_true, elem_of_stringSet.
Qed.

Lemma catalog_agrees_visible_witness :
  NoDup (km_ID <$> kr_Data (Catalog_ (Some (New demo_cfg)) ["llama3.1:8b"])) /\
  VisibleModelIDs (Some (New demo_cfg)) ["llama3.1:8b"] = ["fast"; "llama3.1:8b"].
Proof.
  destruct (catalog_agrees_visible demo_cfg ["llama3.1:8b"] demo_no_shadow) as [H1 H2].
  split; [exact H1|]. rewrite <- H2. by vm_compute.
Defined.

(** Without that condition an id is listed although every
    request for it is routed to a model no node serves. *)
Theorem shadowed_alias_listed :
  exists cfg av v, v ∈ VisibleModelIDs (Some (New cfg)) av
    /\ (rs_Target (Resolve (Some (New cfg)) v) ∉ av)
    /\ (v ∉ km_ID <$> filter (fun r => km_Available r = true) (kr_Data (Catalog_ (Some (New cfg)) av))).
Proof.
  exists demo_cfg, ["big"], "big".
  split_and!; apply (bool_decide_unpack _); by vm_compute.
Qed.
