(* ===== verification/Settlement.v ===== *)
(** * The settlement ledger: [internal/settlement/ledger.go]

    State: [Ledger], the fields of the Go struct, beside [Store], the chain file and
    the SQLite table behind it.  The file is its lines, each an event or text that does
    not decode; the table is keyed by its primary key.  An event survives its JSON line
    and its row unchanged: [LedgerFiles] proves it of the line, for strings of valid UTF-8 and
    instants of four-digit years in UTC. *)

From Stdlib Require Import Sorted.
From S2P Require Import Prelude GoString GoSort Sha256 Json HashChain Protocol Config.

(** ** Data *)

(** [src/internal/settlement/ledger.go:39-49] RecordInput *)
Record RecordInput := {
  ri_RequestID : string;
  ri_ConsumerID : string;
  ri_ProviderID : string;
  ri_NodeID : string;
  ri_Model : string;
  ri_PrivacyTier : string;
  ri_Done : InferDone;
  ri_Latency : Z;
  ri_DispatchAttempts : Z;
}.

(** [src/internal/settlement/ledger.go:51-70] Event *)
Record Event := {
  e_Index : Z;
  e_RecordedAt : Time;
  e_RequestID : string;
  e_ConsumerID : string;
  e_ProviderID : string;
  e_NodeID : string;
  e_Model : string;
  e_PrivacyTier : string;
  e_PromptTokens : Z;
  e_CompletionTokens : Z;
  e_TotalTokens : Z;
  e_LatencyMs : Z;
  e_DispatchAttempts : Z;
  e_PriceMicros : Z;
  e_ProviderRewardMicros : Z;
  e_ProviderPenaltyMicros : Z;
  e_PreviousHash : string;
  e_Hash : string;
}.
#[export] Instance eta_Event : Settable Event := fun e =>
  Build_Event (e_Index e) (e_RecordedAt e) (e_RequestID e) (e_ConsumerID e) (e_ProviderID e) (e_NodeID e)
    (e_Model e) (e_PrivacyTier e) (e_PromptTokens e) (e_CompletionTokens e) (e_TotalTokens e) (e_LatencyMs e)
    (e_DispatchAttempts e) (e_PriceMicros e) (e_ProviderRewardMicros e) (e_ProviderPenaltyMicros e)
    (e_PreviousHash e) (e_Hash e).

(** [src/internal/settlement/ledger.go:25-37] Ledger; the database handle is its presence. *)
Record Ledger := {
  l_enabled : bool;
  l_path : string;
  l_sqlitePath : string;
  l_db : bool;
  l_price : Z;
  l_shareBPS : Z;
  l_targetLatencyMs : Z;
  l_latencyPenaltyBPS : Z;
  l_events : list Event;
  l_lastHash : string;
}.
#[export] Instance eta_Ledger : Settable Ledger := fun l =>
  Build_Ledger (l_enabled l) (l_path l) (l_sqlitePath l) (l_db l) (l_price l) (l_shareBPS l)
    (l_targetLatencyMs l) (l_latencyPenaltyBPS l) (l_events l) (l_lastHash l).

(** [src/internal/settlement/ledger.go:72-80] Balance *)
Record Balance := {
  b_AccountID : string;
  b_Events : Z;
  b_TotalTokens : Z;
  b_AverageLatencyMs : Z;
  b_DebitMicros : Z;
  b_RewardMicros : Z;
  b_PenaltyMicros : Z;
}.
#[export] Instance eta_Balance : Settable Balance := fun b =>
  Build_Balance (b_AccountID b) (b_Events b) (b_TotalTokens b) (b_AverageLatencyMs b) (b_DebitMicros b)
    (b_RewardMicros b) (b_PenaltyMicros b).

Definition empty_Balance (accountID : string) : Balance :=
  {| b_AccountID := accountID; b_Events := 0; b_TotalTokens := 0; b_AverageLatencyMs := 0;
     b_DebitMicros := 0; b_RewardMicros := 0; b_PenaltyMicros := 0 |}.

(** [src/internal/settlement/ledger.go:82-95] Snapshot *)
Record LedgerSnapshot := {
  ls_Enabled : bool;
  ls_ChainPath : string;
  ls_SQLitePath : string;
  ls_Events : Z;
  ls_LastHash : string;
  ls_PricePerThousandTokensMicros : Z;
  ls_ProviderRewardShareBPS : Z;
  ls_TargetLatencyMs : Z;
  ls_LatencyPenaltyBPS : Z;
  ls_ConsumerBalances : list Balance;
  ls_ProviderBalances : list Balance;
  ls_RecentEvents : list Event;
}.

(** [src/internal/settlement/ledger.go:97-102] Verification; the error text is its presence. *)
Record Verification := { vf_Valid : bool; vf_Events : Z; vf_LastHash : string; vf_Error : bool }.

(** [src/internal/settlement/ledger.go:23-23] ErrInvalidChain, and the I/O errors of the stores *)
Inductive LedgerError := ErrInvalidChain | ErrStore (reason : string).

(** ** The hash of an event *)

(** The JSON text of an event without its hash; empty when the instant cannot be written. *)
Definition eventText (e : Event) : list Z :=
  if time_in_range (e_RecordedAt e) then
    json_object
      [ ("index", Some (json_int (e_Index e)));
        ("recorded_at", Some (json_time (e_RecordedAt e)));
        ("request_id", Some (json_string (e_RequestID e)));
        ("consumer_id", Some (json_string (e_ConsumerID e)));
        ("provider_id", omitempty_string (e_ProviderID e));
        ("node_id", omitempty_string (e_NodeID e));
        ("model", Some (json_string (e_Model e)));
        ("privacy_tier", Some (json_string (e_PrivacyTier e)));
        ("prompt_tokens", Some (json_int (e_PromptTokens e)));
        ("completion_tokens", Some (json_int (e_CompletionTokens e)));
        ("total_tokens", Some (json_int (e_TotalTokens e)));
        ("latency_ms", omitempty_int (e_LatencyMs e));
        ("dispatch_attempts", omitempty_int (e_DispatchAttempts e));
        ("price_micros", Some (json_int (e_PriceMicros e)));
        ("provider_reward_micros", Some (json_int (e_ProviderRewardMicros e)));
        ("provider_penalty_micros", omitempty_int (e_ProviderPenaltyMicros e));
        ("previous_hash", Some (json_string (e_PreviousHash e)));
        ("hash", Some (json_string "")) ]
  else [].

(** [src/internal/settlement/ledger.go:426-432] hashEvent *)
Definition hashEvent (event : Event) : string := sha256_hex (eventText event).

#[export] Instance settlement_chain : ChainEvent Event := {|
  ev_index := e_Index; ev_prev := e_PreviousHash; ev_hash := e_Hash; ev_text := eventText;
  ev_ok := fun e => time_in_range (e_RecordedAt e) = true |}.

(** [src/internal/settlement/ledger.go:235-246] Verify *)
Definition Verify (l : Ledger) : Verification :=
  let '(ok, last) := verify (l_events l) in
  {| vf_Valid := ok; vf_Events := Z.of_nat (length (l_events l)); vf_LastHash := last; vf_Error := negb ok |}.

(** ** Prices *)

(** [src/internal/settlement/ledger.go:248-253] priceFor *)
Definition priceFor (l : Ledger) (tokens : Z) : Z :=
  if (tokens <=? 0) || (l_price l <=? 0) then 0 else tokens *w l_price l /w 1000.

(** [src/internal/settlement/ledger.go:255-263] penaltyFor *)
Definition penaltyFor (l : Ledger) (rewardMicros latencyMs : Z) : Z :=
  if (rewardMicros <=? 0) || (l_targetLatencyMs l <=? 0) || (l_latencyPenaltyBPS l <=? 0) then 0
  else if latencyMs <=? l_targetLatencyMs l then 0
  else rewardMicros *w l_latencyPenaltyBPS l /w 10000.

(** ** The stores *)

Record Store := {
  s_lines : option (list (res string Event));  (* the chain file, absent or its lines *)
  s_table : gmap Z Event;
}.
#[export] Instance eta_Store : Settable Store := fun s => Build_Store (s_lines s) (s_table s).

Definition blank_store : Store := {| s_lines := None; s_table := ∅ |}.

(** [src/internal/settlement/ledger.go:407-424] appendEvent *)
Definition appendEvent (fault : StoreFault) (event : Event) (s : Store) : option LedgerError * Store :=
  let '(err, lines) := append_to_file fault event (s_lines s) in
  (ErrStore <$> err, s <| s_lines := lines |>).

(** [src/internal/settlement/ledger.go:348-375] insertSQLiteEvent: the primary key and the unique index on the
    hash are enforced; a failed statement changes nothing. *)
Definition insertSQLiteEvent (fault : StoreFault) (event : Event) (s : Store) : option LedgerError * Store :=
  match fault with
  | NoFault =>
      if bool_decide (is_Some (s_table s !! e_Index event))
         || bool_decide (e_Hash event ∈ e_Hash ∘ snd <$> map_to_list (s_table s))
      then (Some (ErrStore "UNIQUE constraint failed"), s)
      else (None, s <| s_table ::= <[e_Index event := event]> |>)
  | BeforeWrite e | TornWrite e | AfterWrite e => (Some (ErrStore e), s)
  end.

(** ** Operations *)

(** [src/internal/settlement/ledger.go:168-192] Record (the event) *)
Definition newEvent (l : Ledger) (input : RecordInput) (now : Time) : Event :=
  let totalTokens := id_PromptTokens (ri_Done input) +w id_OutputTokens (ri_Done input) in
  let priceMicros := priceFor l totalTokens in
  let latencyMs := duration_ms (ri_Latency input) in
  let rewardMicros := priceMicros *w l_shareBPS l /w 10000 in
  let penaltyMicros := penaltyFor l rewardMicros latencyMs in
  let event := {|
    e_Index := Z.of_nat (length (l_events l)) +w 1;
    e_RecordedAt := now;
    e_RequestID := ri_RequestID input;
    e_ConsumerID := ri_ConsumerID input;
    e_ProviderID := ri_ProviderID input;
    e_NodeID := ri_NodeID input;
    e_Model := ri_Model input;
    e_PrivacyTier := ri_PrivacyTier input;
    e_PromptTokens := id_PromptTokens (ri_Done input);
    e_CompletionTokens := id_OutputTokens (ri_Done input);
    e_TotalTokens := totalTokens;
    e_LatencyMs := latencyMs;
    e_DispatchAttempts := ri_DispatchAttempts input;
    e_PriceMicros := priceMicros;
    e_ProviderRewardMicros := rewardMicros -w penaltyMicros;
    e_ProviderPenaltyMicros := penaltyMicros;
    e_PreviousHash := l_lastHash l;
    e_Hash := "" |} in
  event <| e_Hash := hashEvent event |>.

(** [src/internal/settlement/ledger.go:162-205] Record; a disabled ledger returns the zero event, here [None]. *)
Definition Record_ (input : RecordInput) (now : Time) (fault : StoreFault) (l : Ledger) (s : Store)
  : res LedgerError (option Event) * Ledger * Store :=
  if negb (l_enabled l) then (Ok None, l, s)
  else
    let event := newEvent l input now in
    let '(err, s) :=
      if l_db l then insertSQLiteEvent fault event s
      else if negb (l_path l =s "") then appendEvent fault event s
      else (None, s) in
    match err with
    | Some err => (Err err, l, s)
    | None => (Ok (Some event), l <| l_events ::= fun es => es ++ [event] |> <| l_lastHash := e_Hash event |>, s)
    end.

(** The assignments both load loops make for one event. *)
Definition load_step (l : Ledger) (event : Event) : Ledger :=
  l <| l_events ::= fun es => es ++ [event] |> <| l_lastHash := e_Hash event |>.

(** [src/internal/settlement/ledger.go:294-346] loadSQLite (after the query, whose rows come by index) *)
Definition loadEvents (events : list Event) (l : Ledger) : res LedgerError Ledger :=
  let l := fold_left load_step events l in
  if vf_Valid (Verify l) then Ok l else Err ErrInvalidChain.

(** The rows [ORDER BY event_index ASC]. *)
Definition table_rows (s : Store) : list Event :=
  snd <$> sort_slice (fun a b : Z * Event => a.1 <? b.1) (map_to_list (s_table s)).

(** [src/internal/settlement/ledger.go:377-405] load *)
Definition load (s : Store) (l : Ledger) : res LedgerError Ledger :=
  match s_lines s with
  | None => Ok l
  | Some lines =>
      match decode_lines lines with
      | Err e => Err (ErrStore e)
      | Ok events => loadEvents events l
      end
  end.

Definition clampBPS (z : Z) : Z := if z <? 0 then 0 else if 10000 <? z then 10000 else z.

(** [src/internal/settlement/ledger.go:104-153] New; [fault] is an error of opening or reading the store. *)
Definition New (cfg : SettlementConfig) (fault : option string) (s : Store) : res LedgerError Ledger :=
  let l := {|
    l_enabled := sc_Enabled cfg;
    l_path := sc_ChainPath cfg;
    l_sqlitePath := sc_SQLitePath cfg;
    l_db := negb (sc_SQLitePath cfg =s "");
    l_price := if sc_PricePerThousandTokensMicros cfg <? 0 then 0 else sc_PricePerThousandTokensMicros cfg;
    l_shareBPS := clampBPS (sc_ProviderRewardShareBPS cfg);
    l_targetLatencyMs := sc_TargetLatencyMs cfg;
    l_latencyPenaltyBPS := clampBPS (sc_LatencyPenaltyBPS cfg);
    l_events := [];
    l_lastHash := genesisHash |} in
  if negb (l_sqlitePath l =s "") then
    match fault with Some e => Err (ErrStore e) | None => loadEvents (table_rows s) l end
  else if negb (l_path l =s "") then
    match fault with Some e => Err (ErrStore e) | None => load s l end
  else Ok l.

(** ** Balances *)

(** [src/internal/settlement/ledger.go:438-448] balances (a consumer) *)
Definition addDebit (event : Event) (b : Balance) : Balance :=
  let events := b_Events b +w 1 in
  b <| b_Events := events |> <| b_TotalTokens ::= fun t => t +w e_TotalTokens event |>
    <| b_AverageLatencyMs := (b_AverageLatencyMs b *w (events -w 1) +w e_LatencyMs event) /w events |>
    <| b_DebitMicros ::= fun d => d +w e_PriceMicros event |>.

(** [src/internal/settlement/ledger.go:449-460] balances (a provider) *)
Definition addReward (event : Event) (b : Balance) : Balance :=
  let events := b_Events b +w 1 in
  b <| b_Events := events |> <| b_TotalTokens ::= fun t => t +w e_TotalTokens event |>
    <| b_AverageLatencyMs := (b_AverageLatencyMs b *w (events -w 1) +w e_LatencyMs event) /w events |>
    <| b_RewardMicros ::= fun r => r +w e_ProviderRewardMicros event |>
    <| b_PenaltyMicros ::= fun p => p +w e_ProviderPenaltyMicros event |>.

(** One account's entry, created on first use; the empty id has none. *)
Definition addTo (id : string) (f : Balance -> Balance) (items : gmap string Balance) : gmap string Balance :=
  if id =s "" then items else <[id := f (default (empty_Balance id) (items !! id))]> items.

(** [src/internal/settlement/ledger.go:465-472] balanceValues *)
Definition balanceValues (items : gmap string Balance) : list Balance :=
  sort_by b_AccountID (snd <$> map_to_list items).

(** [src/internal/settlement/ledger.go:434-463] balances *)
Definition balances (events : list Event) : list Balance * list Balance :=
  let '(consumers, providers) := fold_left (fun cp event =>
    (addTo (e_ConsumerID event) (addDebit event) cp.1, addTo (e_ProviderID event) (addReward event) cp.2))
    events (∅, ∅) in
  (balanceValues consumers, balanceValues providers).

(** The last [limit] events, twenty when the limit is not positive. *)
Definition recent {A} (limit : Z) (events : list A) : list A :=
  let limit := if limit <=? 0 then 20 else limit in
  let start := Z.of_nat (length events) -w limit in
  drop (Z.to_nat (if start <? 0 then 0 else start)) events.

(** [src/internal/settlement/ledger.go:207-233] Snapshot *)
Definition Snapshot (limit : Z) (l : Ledger) : LedgerSnapshot :=
  let '(consumerBalances, providerBalances) := balances (l_events l) in
  {| ls_Enabled := l_enabled l; ls_ChainPath := l_path l; ls_SQLitePath := l_sqlitePath l;
     ls_Events := Z.of_nat (length (l_events l)); ls_LastHash := l_lastHash l;
     ls_PricePerThousandTokensMicros := l_price l; ls_ProviderRewardShareBPS := l_shareBPS l;
     ls_TargetLatencyMs := l_targetLatencyMs l; ls_LatencyPenaltyBPS := l_latencyPenaltyBPS l;
     ls_ConsumerBalances := consumerBalances; ls_ProviderBalances := providerBalances;
     ls_RecentEvents := recent limit (l_events l) |}.
