(* ===== verification/Scheduler.v ===== *)
(** * The node registry and dispatcher: [internal/scheduler/registry.go]

    Definitions only; [SchedulerProofs.v] has the theorems.

    State: [Registry], the nodes by id and the provider scores.  Every exported
    method holds the registry's mutex from start to end, so each is a function
    from a registry to a registry that runs at one instant [now].  A Go map used
    as a set is a [gset]; where the result depends on the order a map iteration
    delivers entries, the order is an argument.  A connection is a handle, nil is
    [None], and closing it is reported in the result.

    [dispatch] and [DispatchEmbedding] release the mutex while a node works.  A
    script of [Attempt]s says what each attempt saw: the clock, the iteration
    order, what the connection did, and what other goroutines did to the registry
    at each point where the mutex was free. *)

From S2P Require Import Prelude GoString GoSort GoFloat Privacy Protocol.

(** ** Data *)

(** A [NodeConn] interface value; the registry only compares it with nil, calls
    it and closes it. *)
Definition Conn := Z.

(** [src/internal/scheduler/registry.go:19-22] baseErrorCooldown, maxErrorCooldown *)
Definition baseErrorCooldown : Z := 10 * second.
Definition maxErrorCooldown : Z := 60 * second.

(** [src/internal/scheduler/registry.go:40-77] Node *)
Record Node := {
  n_ID : string;
  n_ProviderID : string;
  n_ProtocolVersion : Z;
  n_PublicName : string;
  n_City : string;
  n_PrivacyMode : string;
  n_PrivacyTiers : gset string;
  n_Hostname : string;
  n_Backend : string;
  n_DeviceKind : string;
  n_DeviceVendor : string;
  n_DeviceModel : string;
  n_SoC : string;
  n_Accelerators : gset string;
  n_PowerMode : string;
  n_NetworkMode : string;
  n_Models : gset string;
  n_MaxConcurrent : Z;
  n_Active : Z;
  n_QueueDepth : Z;
  n_MemoryFreeMB : Z;
  n_LoadAverage : float;
  n_LastSeen : Time;
  n_ErrorStreak : Z;
  n_CooldownUntil : Time;
  n_LastError : string;
  n_CompletedRequests : Z;
  n_FailedRequests : Z;
  n_PreTokenFailures : Z;
  n_PostTokenFailures : Z;
  n_ObservedLatencyMS : float;
  n_ObservedTTFTMS : float;
  n_ObservedTokensPerSecond : float;
  n_LastSuccessAt : Time;
  n_LastFailureAt : Time;
  n_Conn : option Conn;
}.
#[export] Instance eta_Node : Settable Node := fun n =>
  Build_Node (n_ID n) (n_ProviderID n) (n_ProtocolVersion n) (n_PublicName n) (n_City n)
    (n_PrivacyMode n) (n_PrivacyTiers n) (n_Hostname n) (n_Backend n) (n_DeviceKind n)
    (n_DeviceVendor n) (n_DeviceModel n) (n_SoC n) (n_Accelerators n) (n_PowerMode n)
    (n_NetworkMode n) (n_Models n) (n_MaxConcurrent n) (n_Active n) (n_QueueDepth n)
    (n_MemoryFreeMB n) (n_LoadAverage n) (n_LastSeen n) (n_ErrorStreak n) (n_CooldownUntil n)
    (n_LastError n) (n_CompletedRequests n) (n_FailedRequests n) (n_PreTokenFailures n)
    (n_PostTokenFailures n) (n_ObservedLatencyMS n) (n_ObservedTTFTMS n)
    (n_ObservedTokensPerSecond n) (n_LastSuccessAt n) (n_LastFailureAt n) (n_Conn n).

(** [src/internal/scheduler/registry.go:34-38] Registry *)
Record Registry := { nodes : gmap string Node; providerScores : gmap string Z }.
#[export] Instance eta_Registry : Settable Registry := fun r =>
  Build_Registry (nodes r) (providerScores r).

(** [src/internal/scheduler/registry.go:79-119] NodeView *)
Record NodeView := {
  v_ID : string;
  v_ProviderID : string;
  v_ProtocolVersion : Z;
  v_PublicName : string;
  v_City : string;
  v_PrivacyMode : string;
  v_PrivacyTiers : list string;
  v_Hostname : string;
  v_Backend : string;
  v_DeviceKind : string;
  v_DeviceVendor : string;
  v_DeviceModel : string;
  v_SoC : string;
  v_Accelerators : list string;
  v_PowerMode : string;
  v_NetworkMode : string;
  v_Models : list string;
  v_MaxConcurrent : Z;
  v_Active : Z;
  v_QueueDepth : Z;
  v_MemoryFreeMB : Z;
  v_LoadAverage : float;
  v_LastSeen : Time;
  v_Healthy : bool;
  v_ErrorStreak : Z;
  v_CooldownUntil : Time;
  v_LastError : string;
  v_InCooldown : bool;
  v_ProviderScore : Z;
  v_CompletedRequests : Z;
  v_FailedRequests : Z;
  v_PreTokenFailures : Z;
  v_PostTokenFailures : Z;
  v_FailureRateBPS : Z;
  v_ObservedLatencyMs : Z;
  v_ObservedTTFTMs : Z;
  v_ObservedTokensPerSecond : float;
  v_LastSuccessAt : Time;
  v_LastFailureAt : Time;
}.

(** [src/internal/scheduler/registry.go:121-141] NetworkStatus *)
Record NetworkStatus := {
  ns_Nodes : Z;
  ns_HealthyNodes : Z;
  ns_ActiveRequests : Z;
  ns_MaxConcurrent : Z;
  ns_AvailableSlots : Z;
  ns_CooldownNodes : Z;
  ns_TotalMemoryFreeMB : Z;
  ns_Models : list string;
  ns_Cities : list string;
  ns_PrivacyTiers : list string;
  ns_Backends : list string;
  ns_DeviceKinds : list string;
  ns_Accelerators : list string;
  ns_SoCs : list string;
  ns_CompletedRequests : Z;
  ns_FailedRequests : Z;
  ns_AverageLatencyMs : Z;
  ns_AverageTTFTMs : Z;
  ns_AverageTokensPerSecond : float;
}.

(** [src/internal/scheduler/registry.go:143-155] DispatchResult *)
Record DispatchResult := {
  dr_Done : InferDone;
  dr_NodeID : string;
  dr_ProviderID : string;
  dr_Backend : string;
  dr_DeviceKind : string;
  dr_Accelerators : list string;
  dr_Attempts : Z;
  dr_LatencyMs : Z;
  dr_TTFTMs : Z;
  dr_OutputTokens : Z;
  dr_TokensPerSecond : float;
}.

(** [src/internal/scheduler/registry.go:157-162] EmbedDispatchResult *)
Record EmbedDispatchResult := {
  de_Result : EmbedResult;
  de_NodeID : string;
  de_ProviderID : string;
  de_Attempts : Z;
}.

(** [src/internal/scheduler/registry.go:779-784] dispatchObservation *)
Record dispatchObservation := {
  ob_Latency : Z;
  ob_TTFT : Z;
  ob_OutputTokens : Z;
  ob_TokensPerSecond : float;
}.

(** [src/internal/scheduler/registry.go:786-792] firstChunkTracker; the inner sink is the
    list of chunks forwarded so far. *)
Record firstChunkTracker := {
  tk_startedAt : Time;
  tk_firstChunkAt : Time;
  tk_sent : bool;
  tk_outputChars : Z;
  tk_inner : list string;
}.

(** An error a node call returns: its text, and [Some b] when [errors.As] finds a
    [RetryableError] in it whose [Retryable()] is [b]. *)
(** [src/internal/scheduler/registry.go:164-167] RetryableError *)
Record NodeError := { ne_msg : string; ne_retryable : option bool }.

(** What a dispatch fails with: [ErrNoNode] itself, [ErrNoNode] wrapped with the
    number of failed attempts and the last error, or the error of a node. *)
(** [src/internal/scheduler/registry.go:17-17] ErrNoNode *)
Inductive DispatchError :=
| ErrNoNode
| ErrNoNodeAfter (attempts : Z) (last : NodeError)
| ErrNode (e : NodeError).

(** [errors.Is(err, ErrNoNode)]. *)
Definition is_ErrNoNode (e : DispatchError) : bool :=
  match e with ErrNode _ => false | _ => true end.

(** ** Small functions *)

(** [src/internal/scheduler/registry.go:762-770] clampProviderScore *)
Definition clampProviderScore (score : Z) : Z :=
  if score <? 0 then 0 else if 100 <? score then 100 else score.

(** [src/internal/scheduler/registry.go:772-777] normalizeProtocolVersion *)
Definition normalizeProtocolVersion (version : Z) : Z :=
  if version <=? 0 then Protocol.Version else version.

(** [src/internal/scheduler/registry.go:842-847] estimateTokensFromChars *)
Definition estimateTokensFromChars (chars : Z) : Z :=
  if chars <=? 0 then 0 else (chars +w 3) /w 4.

(** [src/internal/scheduler/registry.go:849-854] observedTokensPerSecond *)
Definition observedTokensPerSecond (tokens latency : Z) : float :=
  if (tokens <=? 0) || (latency <=? 0) then f0
  else float_of_Z tokens /f duration_seconds latency.

(** [src/internal/scheduler/registry.go:856-864] ewma *)
Definition ewma (current sample : float) : float :=
  if fle sample f0 then current
  else if fle current f0 then sample
  else current *f 0x1.999999999999ap-1%float +f sample *f 0x1.999999999999ap-3%float.

(** [src/internal/scheduler/registry.go:866-871] minFloat *)
Definition minFloat (a b : float) : float := if flt a b then a else b.

(** [src/internal/scheduler/registry.go:873-878] maxFloat *)
Definition maxFloat (a b : float) : float := if fgt a b then a else b.

(** [src/internal/scheduler/registry.go:880-882] roundFloat *)
Definition roundFloat (value : float) : float :=
  float_of_Z (Z_of_float (value *f 100%float)) /f 100%float.

(** [src/internal/scheduler/registry.go:884-896] canRetry; [ctxErr] is [ctx.Err() != nil]. *)
Definition canRetry (ctxErr : bool) (err : option NodeError) : bool :=
  match err with
  | None => false
  | Some e =>
      if ctxErr then false
      else match ne_retryable e with Some b => b | None => true end
  end.

(** ** Node methods *)

(** [src/internal/scheduler/registry.go:709-711] healthy *)
Definition healthy (now : Time) (n : Node) : bool :=
  match n_Conn n with None => false | Some _ => time_sub now (n_LastSeen n) <? 20 * second end.

(** [src/internal/scheduler/registry.go:713-715] inCooldown *)
Definition inCooldown (now : Time) (n : Node) : bool :=
  negb (time_is_zero (n_CooldownUntil n)) && time_before now (n_CooldownUntil n).

(** [src/internal/scheduler/registry.go:717-726] acceptsPrivacy *)
Definition acceptsPrivacy (n : Node) (tier : string) : bool :=
  match NormalizeTier tier with
  | Err _ => false
  | Ok tier =>
      if bool_decide (n_PrivacyTiers n = ∅) then tier =s Privacy.Private
      else bool_decide (tier ∈ n_PrivacyTiers n)
  end.

(** [src/internal/scheduler/registry.go:634-641] hasAccelerator *)
Definition hasAccelerator (n : Node) (required : string) : bool :=
  existsb (fun accelerator => equal_fold accelerator required) (elements (n_Accelerators n)).

(** [src/internal/scheduler/registry.go:613-632] matchesCapabilities *)
Definition matchesCapabilities (n : Node) (req : InferRequest) : bool :=
  if negb (ir_Backend req =s "") && negb (equal_fold (n_Backend n) (ir_Backend req)) then false
  else if negb (ir_DeviceKind req =s "") && negb (equal_fold (n_DeviceKind n) (ir_DeviceKind req)) then false
  else if negb (ir_SoC req =s "") && negb (equal_fold (n_SoC n) (ir_SoC req)) then false
  else forallb (fun required => (required =s "") || hasAccelerator n required) (ir_Accelerators req).

(** [src/internal/scheduler/registry.go:834-840] failureRateBPS *)
Definition failureRateBPS (n : Node) : Z :=
  let total := n_CompletedRequests n +w n_FailedRequests n in
  if total <=? 0 then 0 else n_FailedRequests n *w 10000 /w total.

(** [src/internal/scheduler/registry.go:822-832] recordObservation *)
Definition recordObservation (n : Node) (o : dispatchObservation) : Node :=
  let n := if 0 <? ob_Latency o
    then n <| n_ObservedLatencyMS ::= fun c => ewma c (float_of_Z (duration_ms (ob_Latency o))) |> else n in
  let n := if 0 <? ob_TTFT o
    then n <| n_ObservedTTFTMS ::= fun c => ewma c (float_of_Z (duration_ms (ob_TTFT o))) |> else n in
  if fgt (ob_TokensPerSecond o) f0
    then n <| n_ObservedTokensPerSecond ::= fun c => ewma c (ob_TokensPerSecond o) |> else n.

(** ** Registry methods *)

(** [src/internal/scheduler/registry.go:169-171] NewRegistry *)
Definition NewRegistry : Registry := {| nodes := ∅; providerScores := ∅ |}.

(** [src/internal/scheduler/registry.go:173-180] SetProviderScores *)
Definition SetProviderScores (scores : gmap string Z) (r : Registry) : Registry :=
  r <| providerScores := clampProviderScore <$> scores |>.

(** [src/internal/scheduler/registry.go:190-199] Register (accepted tiers) *)
Definition registerTiers (msg : Register) : list string :=
  match (match reg_PrivacyTiers msg with
         | [] => TiersForMode (reg_PrivacyMode msg)
         | tiers => NormalizeTiers tiers
         end) with
  | Ok tiers => tiers
  | Err _ => match TiersForMode Privacy.Private with Ok tiers => tiers | Err _ => [] end
  end.

(** [src/internal/scheduler/registry.go:210-231] Register (the new node) *)
Definition registerNode (msg : Register) (conn : option Conn) (now : Time) : Node :=
  {| n_ID := reg_NodeID msg;
     n_ProviderID := reg_ProviderID msg;
     n_ProtocolVersion := normalizeProtocolVersion (reg_ProtocolVersion msg);
     n_PublicName := reg_PublicName msg;
     n_City := reg_City msg;
     n_PrivacyMode := reg_PrivacyMode msg;
     n_PrivacyTiers := list_to_set (registerTiers msg);
     n_Hostname := reg_Hostname msg;
     n_Backend := reg_Backend msg;
     n_DeviceKind := reg_DeviceKind msg;
     n_DeviceVendor := reg_DeviceVendor msg;
     n_DeviceModel := reg_DeviceModel msg;
     n_SoC := reg_SoC msg;
     n_Accelerators := list_to_set (filter (fun a => a <> "") (reg_Accelerators msg));
     n_PowerMode := reg_PowerMode msg;
     n_NetworkMode := reg_NetworkMode msg;
     n_Models := list_to_set (reg_Models msg);
     n_MaxConcurrent := Z.max 1 (reg_MaxConcurrent msg);
     n_Active := 0;
     n_QueueDepth := 0;
     n_MemoryFreeMB := 0;
     n_LoadAverage := f0;
     n_LastSeen := now;
     n_ErrorStreak := 0;
     n_CooldownUntil := time_zero;
     n_LastError := "";
     n_CompletedRequests := 0;
     n_FailedRequests := 0;
     n_PreTokenFailures := 0;
     n_PostTokenFailures := 0;
     n_ObservedLatencyMS := f0;
     n_ObservedTTFTMS := f0;
     n_ObservedTokensPerSecond := f0;
     n_LastSuccessAt := time_zero;
     n_LastFailureAt := time_zero;
     n_Conn := conn |}.

(** [src/internal/scheduler/registry.go:182-232] Register *)
Definition Register_ (msg : Register) (conn : option Conn) (now : Time) (r : Registry) : Registry :=
  r <| nodes ::= <[reg_NodeID msg := registerNode msg conn now]> |>.

(** [src/internal/scheduler/registry.go:234-255] Heartbeat *)
Definition Heartbeat_ (msg : Heartbeat) (now : Time) (r : Registry) : Registry :=
  match nodes r !! hb_NodeID msg with
  | None => r
  | Some node =>
      let node := node <| n_Models := list_to_set (hb_Models msg) |> in
      let node := if 0 <? hb_ProtocolVersion msg
        then node <| n_ProtocolVersion := normalizeProtocolVersion (hb_ProtocolVersion msg) |> else node in
      let node := node <| n_Active := hb_ActiveRequests msg |> <| n_QueueDepth := hb_QueueDepth msg |>
        <| n_MemoryFreeMB := hb_MemoryFreeMB msg |> <| n_LoadAverage := hb_LoadAverage msg |>
        <| n_LastSeen := now |> in
      r <| nodes ::= <[hb_NodeID msg := node]> |>
  end.

(** [src/internal/scheduler/registry.go:257-264] Remove; the second component is the
    connection it closes. *)
Definition Remove (nodeID : string) (r : Registry) : Registry * list Conn :=
  (r <| nodes ::= delete nodeID |>,
   match nodes r !! nodeID with
   | Some node => option_list (n_Conn node)
   | None => []
   end).

(** [src/internal/scheduler/registry.go:266-281] RemoveProvider; also the closed connections. *)
Definition RemoveProvider (providerID : string) (r : Registry) : Registry * Z * list Conn :=
  let gone := filter (fun kn => n_ProviderID kn.2 = providerID) (map_to_list (nodes r)) in
  (r <| nodes ::= filter (fun kn => n_ProviderID kn.2 <> providerID) |>,
   Z.of_nat (length gone),
   gone ≫= fun kn => option_list (n_Conn kn.2)).

(** [src/internal/scheduler/registry.go:283-301] Models *)
Definition Models (now : Time) (r : Registry) : list string :=
  sorted_keys (⋃ ((fun kn => n_Models kn.2) <$>
    filter (fun kn => healthy now kn.2 = true) (map_to_list (nodes r)))).

(** [src/internal/scheduler/registry.go:751-760] providerScoreLocked *)
Definition providerScoreLocked (r : Registry) (providerID : string) : Z :=
  if providerID =s "" then 70
  else match providerScores r !! providerID with
  | None => 70
  | Some score => clampProviderScore score
  end.

(** [src/internal/scheduler/registry.go:728-749] nodeCostLocked *)
Definition nodeCostLocked (r : Registry) (n : Node) : float :=
  let utilization := if 0 <? n_MaxConcurrent n
    then float_of_Z (n_Active n) /f float_of_Z (n_MaxConcurrent n) else f0 in
  let queuePenalty := float_of_Z (n_QueueDepth n) *f 5%float in
  let loadPenalty := n_LoadAverage n in
  let errorPenalty := float_of_Z (n_ErrorStreak n) *f 8%float in
  let reputationPenalty := float_of_Z (100 -w providerScoreLocked r (n_ProviderID n)) /f 5%float in
  let coldStartPenalty := if n_CompletedRequests n =? 0 then 8%float else f0 in
  let latencyPenalty := minFloat (n_ObservedLatencyMS n /f 1000%float) 20%float in
  let ttftPenalty := minFloat (n_ObservedTTFTMS n /f 500%float) 10%float in
  let throughputPenalty := if fgt (n_ObservedTokensPerSecond n) f0
    then maxFloat f0 (10%float -f minFloat (n_ObservedTokensPerSecond n) 10%float) else f0 in
  let failurePenalty := float_of_Z (failureRateBPS n) /f 10000%float *f 20%float in
  utilization *f 20%float +f queuePenalty +f loadPenalty +f errorPenalty +f reputationPenalty
    +f coldStartPenalty +f latencyPenalty +f ttftPenalty +f throughputPenalty +f failurePenalty.

(** [src/internal/scheduler/registry.go:308-363] Snapshot (one view) *)
Definition nodeView (now : Time) (r : Registry) (n : Node) : NodeView :=
  {| v_ID := n_ID n;
     v_ProviderID := n_ProviderID n;
     v_ProtocolVersion := n_ProtocolVersion n;
     v_PublicName := n_PublicName n;
     v_City := n_City n;
     v_PrivacyMode := n_PrivacyMode n;
     v_PrivacyTiers := sorted_keys (n_PrivacyTiers n);
     v_Hostname := n_Hostname n;
     v_Backend := n_Backend n;
     v_DeviceKind := n_DeviceKind n;
     v_DeviceVendor := n_DeviceVendor n;
     v_DeviceModel := n_DeviceModel n;
     v_SoC := n_SoC n;
     v_Accelerators := sorted_keys (n_Accelerators n);
     v_PowerMode := n_PowerMode n;
     v_NetworkMode := n_NetworkMode n;
     v_Models := sorted_keys (n_Models n);
     v_MaxConcurrent := n_MaxConcurrent n;
     v_Active := n_Active n;
     v_QueueDepth := n_QueueDepth n;
     v_MemoryFreeMB := n_MemoryFreeMB n;
     v_LoadAverage := n_LoadAverage n;
     v_LastSeen := n_LastSeen n;
     v_Healthy := healthy now n;
     v_ErrorStreak := n_ErrorStreak n;
     v_CooldownUntil := n_CooldownUntil n;
     v_LastError := n_LastError n;
     v_InCooldown := inCooldown now n;
     v_ProviderScore := providerScoreLocked r (n_ProviderID n);
     v_CompletedRequests := n_CompletedRequests n;
     v_FailedRequests := n_FailedRequests n;
     v_PreTokenFailures := n_PreTokenFailures n;
     v_PostTokenFailures := n_PostTokenFailures n;
     v_FailureRateBPS := failureRateBPS n;
     v_ObservedLatencyMs := Z_of_float (n_ObservedLatencyMS n);
     v_ObservedTTFTMs := Z_of_float (n_ObservedTTFTMS n);
     v_ObservedTokensPerSecond := roundFloat (n_ObservedTokensPerSecond n);
     v_LastSuccessAt := n_LastSuccessAt n;
     v_LastFailureAt := n_LastFailureAt n |}.

(** [src/internal/scheduler/registry.go:303-367] Snapshot *)
Definition Snapshot (now : Time) (r : Registry) : list NodeView :=
  sort_by v_ID ((fun kn => nodeView now r kn.2) <$> map_to_list (nodes r)).

(** The nodes in the order a map iteration visits their keys. *)
Definition visit (r : Registry) (order : list string) : list Node :=
  omap (fun k => nodes r !! k) order.

(** [order] is an iteration order of the registry's map: each key once. *)
Definition iteration_order (r : Registry) (order : list string) : Prop :=
  order ≡ₚ elements (dom (nodes r)).

(** ** Network status *)

(** The accumulators of the loop in [NetworkStatus], one fold per accumulator. *)
Definition sum64 {A} (f : A -> Z) (l : list A) : Z := fold_left (fun acc x => acc +w f x) l 0.
Definition sumu64 {A} (f : A -> Z) (l : list A) : Z :=
  fold_left (fun acc x => (acc + f x) mod 18446744073709551616) l 0.
Definition sumf {A} (f : A -> float) (l : list A) : float := fold_left (fun acc x => acc +f f x) l f0.
Definition count64 {A} (p : A -> bool) (l : list A) : Z := sum64 (fun x => if p x then 1 else 0) l.
Definition collect {A} (f : A -> gset string) (l : list A) : list string := sorted_keys (⋃ (f <$> l)).
Definition nonempty (s : string) : gset string := if s =s "" then ∅ else {[s]}.

(** [src/internal/scheduler/registry.go:369-474] NetworkStatus *)
Definition NetworkStatus_ (now : Time) (order : list string) (r : Registry) : NetworkStatus :=
  let live := filter (fun n => healthy now n = true) (visit r order) in
  let nodes_in := filter (fun n => inCooldown now n = false) live in
  let observedLatencyNodes := count64 (fun n => fgt (n_ObservedLatencyMS n) f0) nodes_in in
  let observedTTFTNodes := count64 (fun n => fgt (n_ObservedTTFTMS n) f0) nodes_in in
  let observedTPSNodes := count64 (fun n => fgt (n_ObservedTokensPerSecond n) f0) nodes_in in
  let latency := sum64 (fun n => if fgt (n_ObservedLatencyMS n) f0
    then Z_of_float (n_ObservedLatencyMS n) else 0) nodes_in in
  let ttft := sum64 (fun n => if fgt (n_ObservedTTFTMS n) f0
    then Z_of_float (n_ObservedTTFTMS n) else 0) nodes_in in
  let tps := sumf n_ObservedTokensPerSecond
    (filter (fun n => fgt (n_ObservedTokensPerSecond n) f0 = true) nodes_in) in
  {| ns_Nodes := Z.of_nat (size (nodes r));
     ns_HealthyNodes := count64 (fun _ => true) nodes_in;
     ns_ActiveRequests := sum64 n_Active nodes_in;
     ns_MaxConcurrent := sum64 n_MaxConcurrent nodes_in;
     ns_AvailableSlots := sum64 (fun n => if n_Active n <? n_MaxConcurrent n
       then n_MaxConcurrent n -w n_Active n else 0) nodes_in;
     ns_CooldownNodes := count64 (fun n => inCooldown now n) live;
     ns_TotalMemoryFreeMB := sumu64 n_MemoryFreeMB nodes_in;
     ns_Models := collect n_Models nodes_in;
     ns_Cities := collect (fun n => nonempty (n_City n)) nodes_in;
     ns_PrivacyTiers := collect n_PrivacyTiers nodes_in;
     ns_Backends := collect (fun n => nonempty (n_Backend n)) nodes_in;
     ns_DeviceKinds := collect (fun n => nonempty (n_DeviceKind n)) nodes_in;
     ns_Accelerators := collect n_Accelerators nodes_in;
     ns_SoCs := collect (fun n => nonempty (n_SoC n)) nodes_in;
     ns_CompletedRequests := sum64 n_CompletedRequests nodes_in;
     ns_FailedRequests := sum64 n_FailedRequests nodes_in;
     ns_AverageLatencyMs := if 0 <? observedLatencyNodes then latency /w observedLatencyNodes else latency;
     ns_AverageTTFTMs := if 0 <? observedTTFTNodes then ttft /w observedTTFTNodes else ttft;
     ns_AverageTokensPerSecond := if 0 <? observedTPSNodes
       then roundFloat (tps /f float_of_Z observedTPSNodes) else tps |}.

(** ** Reservation *)

(** [src/internal/scheduler/registry.go:562-571] reserveFiltered (the candidate test) *)
Definition eligible (now : Time) (req : InferRequest) (exclude : gset string) (providerID : string)
    (n : Node) : bool :=
  negb (bool_decide (n_ID n ∈ exclude))
  && ((providerID =s "") || (n_ProviderID n =s providerID))
  && (healthy now n && negb (inCooldown now n) && bool_decide (ir_Model req ∈ n_Models n)
      && acceptsPrivacy n (ir_PrivacyTier req) && matchesCapabilities n req
      && (n_Active n <? n_MaxConcurrent n)).

(** [src/internal/scheduler/registry.go:559-577] reserveFiltered (candidates, by cost) *)
Definition candidates (now : Time) (order : list string) (req : InferRequest) (exclude : gset string)
    (providerID : string) (r : Registry) : list Node :=
  sort_slice (fun a b => flt (nodeCostLocked r a) (nodeCostLocked r b))
    (filter (fun n => eligible now req exclude providerID n = true) (visit r order)).

(** [src/internal/scheduler/registry.go:555-581] reserveFiltered.  The returned pointer aliases
    the registry's entry: the caller gets the node as it is after the increment. *)
Definition reserveFiltered (now : Time) (order : list string) (req : InferRequest)
    (exclude : gset string) (providerID : string) (r : Registry)
  : res DispatchError (Node * Registry) :=
  match candidates now order req exclude providerID r with
  | [] => Err ErrNoNode
  | selected :: _ =>
      let selected := selected <| n_Active ::= fun a => a +w 1 |> in
      Ok (selected, r <| nodes ::= <[n_ID selected := selected]> |>)
  end.

(** [src/internal/scheduler/registry.go:551-553] reserve *)
Definition reserve (now : Time) (order : list string) (req : InferRequest) (exclude : gset string)
  : Registry -> res DispatchError (Node * Registry) :=
  reserveFiltered now order req exclude "".

(** [src/internal/scheduler/registry.go:643-649] release *)
Definition release (nodeID : string) (r : Registry) : Registry :=
  match nodes r !! nodeID with
  | Some node =>
      if 0 <? n_Active node
      then r <| nodes ::= <[nodeID := node <| n_Active ::= fun a => a -w 1 |>]> |> else r
  | None => r
  end.

(** ** Recording outcomes *)

(** Apply a function to the node, when it is still registered. *)
Definition onNode (nodeID : string) (f : Node -> Node) (r : Registry) : Registry :=
  match nodes r !! nodeID with
  | Some node => r <| nodes ::= <[nodeID := f node]> |>
  | None => r
  end.

(** [src/internal/scheduler/registry.go:651-662] recordSuccess *)
Definition recordSuccess (nodeID : string) (o : dispatchObservation) (now : Time) : Registry -> Registry :=
  onNode nodeID (fun node =>
    let node := node <| n_ErrorStreak := 0 |> <| n_CooldownUntil := time_zero |> <| n_LastError := "" |>
      <| n_CompletedRequests ::= fun c => c +w 1 |> <| n_LastSuccessAt := now |> in
    recordObservation node o).

(** [src/internal/scheduler/registry.go:674-677] recordPreTokenFailure (the back-off) *)
Definition cooldownFor (errorStreak : Z) : Z :=
  let cooldown := baseErrorCooldown *w errorStreak in
  if maxErrorCooldown <? cooldown then maxErrorCooldown else cooldown.

(** [src/internal/scheduler/registry.go:664-681] recordPreTokenFailure *)
Definition recordPreTokenFailure (nodeID : string) (err : NodeError) (now : Time) : Registry -> Registry :=
  onNode nodeID (fun node =>
    let node := node <| n_ErrorStreak ::= fun c => c +w 1 |> <| n_FailedRequests ::= fun c => c +w 1 |>
      <| n_PreTokenFailures ::= fun c => c +w 1 |> in
    node <| n_CooldownUntil := now + cooldownFor (n_ErrorStreak node) |>
      <| n_LastError := ne_msg err |> <| n_LastFailureAt := now |>).

(** [src/internal/scheduler/registry.go:683-694] recordPostTokenFailure *)
Definition recordPostTokenFailure (nodeID : string) (err : NodeError) (now : Time) : Registry -> Registry :=
  onNode nodeID (fun node =>
    node <| n_FailedRequests ::= fun c => c +w 1 |> <| n_PostTokenFailures ::= fun c => c +w 1 |>
      <| n_LastError := ne_msg err |> <| n_LastFailureAt := now |>).

(** [src/internal/scheduler/registry.go:696-707] recordPreTokenTerminalFailure *)
Definition recordPreTokenTerminalFailure (nodeID : string) (err : NodeError) (now : Time)
  : Registry -> Registry :=
  onNode nodeID (fun node =>
    node <| n_FailedRequests ::= fun c => c +w 1 |> <| n_PreTokenFailures ::= fun c => c +w 1 |>
      <| n_LastError := ne_msg err |> <| n_LastFailureAt := now |>).

(** ** The chunk tracker *)

(** [src/internal/scheduler/registry.go:794-796] newFirstChunkTracker *)
Definition newFirstChunkTracker (inner : list string) (now : Time) : firstChunkTracker :=
  {| tk_startedAt := now; tk_firstChunkAt := time_zero; tk_sent := false; tk_outputChars := 0;
     tk_inner := inner |}.

(** [src/internal/scheduler/registry.go:798-805] Chunk *)
Definition Chunk (s : firstChunkTracker) (now : Time) (content : string) : firstChunkTracker :=
  {| tk_startedAt := tk_startedAt s;
     tk_firstChunkAt := if tk_sent s then tk_firstChunkAt s else now;
     tk_sent := true;
     tk_outputChars := tk_outputChars s +w rune_count content;
     tk_inner := tk_inner s ++ [content] |}.

(** [src/internal/scheduler/registry.go:807-820] observation *)
Definition observation (s : firstChunkTracker) (now : Time) : dispatchObservation :=
  let latency := time_sub now (tk_startedAt s) in
  let ttft := if tk_sent s then time_sub (tk_firstChunkAt s) (tk_startedAt s) else 0 in
  let outputTokens := estimateTokensFromChars (tk_outputChars s) in
  {| ob_Latency := latency;
     ob_TTFT := ttft;
     ob_OutputTokens := outputTokens;
     ob_TokensPerSecond := observedTokensPerSecond outputTokens latency |}.

(** [src/internal/scheduler/registry.go:592-611] nodeDispatchResult *)
Definition nodeDispatchResult (node : Node) (done : InferDone) (attempts : Z) (o : dispatchObservation)
  : DispatchResult :=
  {| dr_Done := done;
     dr_NodeID := n_ID node;
     dr_ProviderID := n_ProviderID node;
     dr_Backend := n_Backend node;
     dr_DeviceKind := n_DeviceKind node;
     dr_Accelerators := sorted_keys (n_Accelerators node);
     dr_Attempts := attempts;
     dr_LatencyMs := duration_ms (ob_Latency o);
     dr_TTFTMs := duration_ms (ob_TTFT o);
     dr_OutputTokens := ob_OutputTokens o;
     dr_TokensPerSecond := roundFloat (ob_TokensPerSecond o) |}.

(** [DispatchResult{Attempts: attempts}]. *)
Definition emptyDispatchResult (attempts : Z) : DispatchResult :=
  {| dr_Done := empty_InferDone; dr_NodeID := ""; dr_ProviderID := ""; dr_Backend := "";
     dr_DeviceKind := ""; dr_Accelerators := []; dr_Attempts := attempts; dr_LatencyMs := 0;
     dr_TTFTMs := 0; dr_OutputTokens := 0; dr_TokensPerSecond := f0 |}.

(** [src/internal/scheduler/registry.go:583-590] embedDispatchResult *)
Definition embedDispatchResult (node : Node) (result : EmbedResult) (attempts : Z) : EmbedDispatchResult :=
  {| de_Result := result; de_NodeID := n_ID node; de_ProviderID := n_ProviderID node;
     de_Attempts := attempts |}.

(** ** Dispatch *)

(** What one round of the dispatch loop observes.  The three [Registry -> Registry]
    functions are what other goroutines do while the mutex is free: during the
    node call, between [release] and the record call, and before the next round. *)
Record Attempt := {
  at_now : Time;                          (* time.Now in reserveFiltered *)
  at_order : list string;                 (* iteration order of the node map there *)
  at_start : Time;                        (* time.Now when the tracker starts *)
  at_chunks : list (Time * string);       (* chunks the node call hands to the tracker *)
  at_result : res NodeError InferDone;    (* what SendInference returns *)
  at_during : Registry -> Registry;
  at_end : Time;                          (* time.Now in observation *)
  at_released : Registry -> Registry;
  at_record : Time;                       (* time.Now in the record call *)
  at_ctxErr : bool;                       (* ctx.Err() != nil when canRetry looks *)
  at_after : Registry -> Registry;
}.

(** The end of a dispatch: the registry, the chunks that reached the caller's sink,
    the two return values, and, as a log, the nodes tried (as reserved) with what each sent. *)
Record Outcome := {
  oc_registry : Registry;
  oc_output : list string;
  oc_result : DispatchResult;
  oc_error : option DispatchError;
  oc_tried : list (Node * list string);
}.

(** One node call: the tracker after the chunks. *)
Definition runTracker (a : Attempt) (output : list string) : firstChunkTracker :=
  fold_left (fun s tc => Chunk s tc.1 tc.2) (at_chunks a) (newFirstChunkTracker output (at_start a)).

(** [src/internal/scheduler/registry.go:516-549] dispatch; [None] when the script ends before
    the loop does. *)
Fixpoint dispatch_loop (req : InferRequest) (providerID : string) (script : list Attempt)
    (r : Registry) (output : list string) (attempted : gset string) (attempts : Z)
    (lastErr : option NodeError) (tried : list (Node * list string)) : option Outcome :=
  match script with
  | [] => None
  | a :: script' =>
      match reserveFiltered (at_now a) (at_order a) req attempted providerID r with
      | Err err =>
          Some {| oc_registry := r; oc_output := output; oc_result := emptyDispatchResult attempts;
                  oc_error := Some (match lastErr with
                                    | Some e => ErrNoNodeAfter attempts e
                                    | None => err
                                    end);
                  oc_tried := tried |}
      | Ok (node, r) =>
          let attempts := attempts +w 1 in
          let tracker := runTracker a output in
          let r := at_during a r in
          let o := observation tracker (at_end a) in
          let r := at_released a (release (n_ID node) r) in
          let tried := tried ++ [(node, snd <$> at_chunks a)] in
          let finish r done err :=
            Some {| oc_registry := r; oc_output := tk_inner tracker;
                    oc_result := nodeDispatchResult node done attempts o;
                    oc_error := err; oc_tried := tried |} in
          match at_result a with
          | Ok done => finish (recordSuccess (n_ID node) o (at_record a) r) done None
          | Err err =>
              if tk_sent tracker then
                finish (recordPostTokenFailure (n_ID node) err (at_record a) r) empty_InferDone (Some (ErrNode err))
              else if negb (canRetry (at_ctxErr a) (Some err)) then
                finish (recordPreTokenTerminalFailure (n_ID node) err (at_record a) r) empty_InferDone
                  (Some (ErrNode err))
              else
                dispatch_loop req providerID script'
                  (at_after a (recordPreTokenFailure (n_ID node) err (at_record a) r))
                  (tk_inner tracker) ({[n_ID node]} ∪ attempted) attempts (Some err) tried
          end
      end
  end.

(** [src/internal/scheduler/registry.go:480-482] DispatchToProvider *)
Definition DispatchToProvider (providerID : string) (req : InferRequest) (script : list Attempt)
    (r : Registry) : option Outcome :=
  dispatch_loop req providerID script r [] ∅ 0 None [].

(** [src/internal/scheduler/registry.go:476-478] Dispatch *)
Definition Dispatch (req : InferRequest) (script : list Attempt) (r : Registry) : option Outcome :=
  DispatchToProvider "" req script r.

(** ** Embeddings *)

(** The rounds of [DispatchEmbedding]; there is no sink. *)
Record EmbedAttempt := {
  ea_now : Time;
  ea_order : list string;
  ea_start : Time;
  ea_result : res NodeError EmbedResult;
  ea_during : Registry -> Registry;
  ea_end : Time;
  ea_released : Registry -> Registry;
  ea_record : Time;
  ea_ctxErr : bool;
  ea_after : Registry -> Registry;
}.

Record EmbedOutcome := {
  eo_registry : Registry;
  eo_result : EmbedDispatchResult;
  eo_error : option DispatchError;
  eo_tried : list Node;
}.

(** [src/internal/scheduler/registry.go:488-488] DispatchEmbedding (the routing filter) *)
Definition embedFilter (req : EmbedRequest) : InferRequest :=
  {| ir_Model := er_Model req; ir_Messages := []; ir_Stream := false;
     ir_PrivacyTier := er_PrivacyTier req; ir_Backend := ""; ir_DeviceKind := ""; ir_SoC := "";
     ir_Accelerators := []; ir_Temperature := None; ir_MaxTokens := None |}.

(** [src/internal/scheduler/registry.go:484-514] DispatchEmbedding *)
Fixpoint embed_loop (filter : InferRequest) (script : list EmbedAttempt) (r : Registry)
    (attempted : gset string) (attempts : Z) (lastErr : option NodeError) (tried : list Node)
  : option EmbedOutcome :=
  match script with
  | [] => None
  | a :: script' =>
      match reserveFiltered (ea_now a) (ea_order a) filter attempted "" r with
      | Err err =>
          Some {| eo_registry := r;
                  eo_result := {| de_Result := empty_EmbedResult; de_NodeID := ""; de_ProviderID := "";
                                  de_Attempts := attempts |};
                  eo_error := Some (match lastErr with
                                    | Some e => ErrNoNodeAfter attempts e
                                    | None => err
                                    end);
                  eo_tried := tried |}
      | Ok (node, r) =>
          let attempts := attempts +w 1 in
          let r := ea_during a r in
          let o := {| ob_Latency := time_sub (ea_end a) (ea_start a); ob_TTFT := 0; ob_OutputTokens := 0;
                      ob_TokensPerSecond := f0 |} in
          let r := ea_released a (release (n_ID node) r) in
          let tried := tried ++ [node] in
          match ea_result a with
          | Ok result =>
              Some {| eo_registry := recordSuccess (n_ID node) o (ea_record a) r;
                      eo_result := embedDispatchResult node result attempts; eo_error := None;
                      eo_tried := tried |}
          | Err err =>
              if negb (canRetry (ea_ctxErr a) (Some err)) then
                Some {| eo_registry := recordPreTokenTerminalFailure (n_ID node) err (ea_record a) r;
                        eo_result := embedDispatchResult node empty_EmbedResult attempts;
                        eo_error := Some (ErrNode err); eo_tried := tried |}
              else
                embed_loop filter script' (ea_after a (recordPreTokenFailure (n_ID node) err (ea_record a) r))
                  ({[n_ID node]} ∪ attempted) attempts (Some err) tried
          end
      end
  end.

(** [src/internal/scheduler/registry.go:484-514] DispatchEmbedding (the entry) *)
Definition DispatchEmbedding (req : EmbedRequest) (script : list EmbedAttempt) (r : Registry)
  : option EmbedOutcome :=
  embed_loop (embedFilter req) script r ∅ 0 None [].
