(* ===== verification/SchedulerProofs.v ===== *)
(** * Theorems on the registry and the dispatcher

    The registry's well-formedness and its preservation by every operation; the
    full behaviour of a reservation; slot accounting for concurrent dispatches;
    failover, routing and termination of the dispatch loop; the back-off. *)

From Stdlib Require Import Sorted.
From S2P Require Import Prelude GoString GoSort GoFloat Privacy Protocol Scheduler.

(** ** Well-formed registries *)

Definition node_ok (k : string) (n : Node) : Prop :=
  n_ID n = k /\ 1 <= n_MaxConcurrent n <= max_int64 /\ in_int64 (n_Active n)
  /\ 1 <= n_ProtocolVersion n /\ n_PrivacyTiers n <> ∅ /\ set_Forall known_tier (n_PrivacyTiers n)
  /\ ("" ∉ n_Accelerators n).

Definition registry_ok (r : Registry) : Prop :=
  map_Forall node_ok (nodes r) /\ map_Forall (fun _ s => 0 <= s <= 100) (providerScores r).

Lemma registry_ok_lookup r k n : registry_ok r -> nodes r !! k = Some n -> node_ok k n.
Proof. intros [H _] Hk. by apply H. Qed.

Lemma registry_ok_insert r k n :
  registry_ok r -> node_ok k n -> registry_ok (r <| nodes ::= <[k := n]> |>).
Proof. intros [H1 H2] Hn. split; [|done]. by apply map_Forall_insert_2. Qed.

Lemma clampProviderScore_bounds s : 0 <= clampProviderScore s <= 100.
Proof. unfold clampProviderScore. repeat case_goal; lia. Qed.

Lemma fallbackTiers_ok :
  Forall known_tier [Privacy.Private; Privacy.Community; Privacy.Public]
  /\ [Privacy.Private; Privacy.Community; Privacy.Public] <> [].
Proof. split; [|done]. apply (bool_decide_unpack _). by vm_compute. Qed.

Lemma registerTiers_ok msg :
  Forall known_tier (registerTiers msg) /\ registerTiers msg <> [].
Proof.
  unfold registerTiers. destruct (reg_PrivacyTiers msg) as [|t tiers].
  - destruct (TiersForMode (reg_PrivacyMode msg)) as [ts|e] eqn:E; [|by apply fallbackTiers_ok].
    split; [by apply TiersForMode_known in E as [? _]|].
    revert E. unfold TiersForMode. repeat case_goal; by intros [= <-].
  - destruct (NormalizeTiers (t :: tiers)) as [ts|e] eqn:E; [|by apply fallbackTiers_ok].
    split; [by apply NormalizeTiers_known in E as [? _]|]. by eapply NormalizeTiers_nonempty.
Qed.

Lemma normalizeProtocolVersion_pos v : 1 <= normalizeProtocolVersion v.
Proof. unfold normalizeProtocolVersion, Protocol.Version. case_goal; lia. Qed.

Lemma registerNode_ok msg conn now :
  in_int64 (reg_MaxConcurrent msg) -> node_ok (reg_NodeID msg) (registerNode msg conn now).
Proof.
  intros Hm. destruct (registerTiers_ok msg) as [Hk Hne].
  unfold node_ok, registerNode; simpl. split_and!; try ilia; try done.
  - apply normalizeProtocolVersion_pos.
  - destruct (registerTiers msg); [done|]. simpl. set_solver.
  - intros t Ht. rewrite elem_of_list_to_set in Ht. rewrite Forall_forall in Hk. by apply Hk.
  - rewrite elem_of_list_to_set, list_elem_of_filter. by intros [? _].
Qed.

(** ** The operations as steps *)

(** One call of a registry method, with its clock and inputs. *)
Inductive op :=
| OpSetScores (scores : gmap string Z)
| OpRegister (msg : Register) (conn : option Conn) (now : Time)
| OpHeartbeat (msg : Heartbeat) (now : Time)
| OpRemove (nodeID : string)
| OpRemoveProvider (providerID : string)
| OpReserve (now : Time) (order : list string) (req : InferRequest) (exclude : gset string) (providerID : string)
| OpRelease (nodeID : string)
| OpSuccess (nodeID : string) (o : dispatchObservation) (now : Time)
| OpPreToken (nodeID : string) (err : NodeError) (now : Time)
| OpPostToken (nodeID : string) (err : NodeError) (now : Time)
| OpTerminal (nodeID : string) (err : NodeError) (now : Time).

Definition run_op (o : op) (r : Registry) : Registry :=
  match o with
  | OpSetScores scores => SetProviderScores scores r
  | OpRegister msg conn now => Register_ msg conn now r
  | OpHeartbeat msg now => Heartbeat_ msg now r
  | OpRemove id => fst (Remove id r)
  | OpRemoveProvider id => fst (fst (RemoveProvider id r))
  | OpReserve now order req ex pid =>
      match reserveFiltered now order req ex pid r with Ok (_, r') => r' | Err _ => r end
  | OpRelease id => release id r
  | OpSuccess id o now => recordSuccess id o now r
  | OpPreToken id err now => recordPreTokenFailure id err now r
  | OpPostToken id err now => recordPostTokenFailure id err now r
  | OpTerminal id err now => recordPreTokenTerminalFailure id err now r
  end.

(** The integers that arrive in messages are 64-bit. *)
Definition op_typed (o : op) : Prop :=
  match o with
  | OpRegister msg _ _ => in_int64 (reg_MaxConcurrent msg)
  | OpHeartbeat msg _ => in_int64 (hb_ActiveRequests msg)
  | _ => True
  end.

Inductive reachable : Registry -> Prop :=
| reach_new : reachable NewRegistry
| reach_op r o : reachable r -> op_typed o -> reachable (run_op o r).

#[export] Instance iteration_order_dec r order : Decision (iteration_order r order).
Proof. unfold iteration_order. apply _. Defined.

(** ** Lookup through the helpers *)

Lemma elem_of_visit r order n :
  n ∈ visit r order <-> exists k, k ∈ order /\ nodes r !! k = Some n.
Proof. unfold visit. by rewrite list_elem_of_omap. Qed.

Lemma elem_of_visit_iter r order n :
  iteration_order r order -> n ∈ visit r order <-> exists k, nodes r !! k = Some n.
Proof.
  intros Ho. rewrite elem_of_visit. setoid_rewrite Ho. setoid_rewrite elem_of_elements.
  setoid_rewrite elem_of_dom. naive_solver.
Qed.

Lemma onNode_lookup id f r k :
  nodes (onNode id f r) !! k = (if decide (k = id) then f <$> nodes r !! id else nodes r !! k).
Proof.
  unfold onNode. destruct (nodes r !! id) as [n|] eqn:E; simpl.
  - destruct (decide (k = id)) as [->|Hne]; [by rewrite lookup_insert_eq|by rewrite lookup_insert_ne].
  - by destruct (decide (k = id)) as [->|].
Qed.

Lemma release_onNode id r :
  nodes (release id r)
  = nodes (onNode id (fun n => if 0 <? n_Active n then n <| n_Active ::= fun a => a -w 1 |> else n) r).
Proof.
  unfold release, onNode. destruct (nodes r !! id) as [n|] eqn:E; [|done].
  destruct (0 <? n_Active n); [done|]. simpl. by rewrite insert_id.
Qed.

Lemma onNode_ok id f r :
  registry_ok r -> (forall k n, node_ok k n -> node_ok k (f n)) -> registry_ok (onNode id f r).
Proof.
  intros Hr Hf. unfold onNode. destruct (nodes r !! id) as [n|] eqn:E; [|done].
  apply registry_ok_insert; [done|]. apply Hf. by eapply registry_ok_lookup.
Qed.

Lemma recordObservation_ok k n o : node_ok k n -> node_ok k (recordObservation n o).
Proof. unfold recordObservation. intros H. repeat case_goal; exact H. Qed.

(** The candidate test implies each of its conjuncts. *)
Lemma eligible_spec now req ex pid n :
  eligible now req ex pid n = true <->
  (n_ID n ∉ ex) /\ (pid = "" \/ n_ProviderID n = pid) /\ healthy now n = true /\ inCooldown now n = false
  /\ ir_Model req ∈ n_Models n /\ acceptsPrivacy n (ir_PrivacyTier req) = true
  /\ matchesCapabilities n req = true /\ n_Active n < n_MaxConcurrent n.
Proof.
  unfold eligible. rewrite !andb_true_iff, !negb_true_iff, orb_true_iff, !str_eqb_true.
  rewrite bool_decide_eq_false, bool_decide_eq_true, Z.ltb_lt. naive_solver.
Qed.

Lemma elem_of_candidates now order req ex pid r n :
  n ∈ candidates now order req ex pid r <-> eligible now req ex pid n = true /\ n ∈ visit r order.
Proof. unfold candidates. by rewrite elem_of_sort_slice, list_elem_of_filter. Qed.

(** ** Reservation *)

Lemma reserveFiltered_err now order req ex pid r e :
  reserveFiltered now order req ex pid r = Err e ->
  e = ErrNoNode /\ candidates now order req ex pid r = [].
Proof. unfold reserveFiltered. destruct (candidates now order req ex pid r); naive_solver. Qed.

Lemma reserveFiltered_ok now order req ex pid r n' r' :
  reserveFiltered now order req ex pid r = Ok (n', r') ->
  exists n rest, candidates now order req ex pid r = n :: rest
    /\ n' = n <| n_Active ::= fun a => a +w 1 |>
    /\ r' = r <| nodes ::= <[n_ID n := n']> |>.
Proof.
  unfold reserveFiltered. destruct (candidates now order req ex pid r) as [|n rest]; [done|].
  intros [= <- <-]. exists n, rest. done.
Qed.

(** What a successful reservation hands out, without any assumption on the
    registry or on the iteration order. *)
Lemma reserveFiltered_node now order req ex pid r n' r' :
  reserveFiltered now order req ex pid r = Ok (n', r') ->
  exists n k, eligible now req ex pid n = true /\ k ∈ order /\ nodes r !! k = Some n
    /\ n' = n <| n_Active ::= fun a => a +w 1 |> /\ r' = r <| nodes ::= <[n_ID n := n']> |>.
Proof.
  intros (n & rest & Hc & Hn' & Hr')%reserveFiltered_ok.
  assert (Hin : n ∈ candidates now order req ex pid r) by (rewrite Hc; left).
  apply elem_of_candidates in Hin as [Hel (k & Hk & Hl)%elem_of_visit].
  exists n, k. done.
Qed.

(** ** The invariant *)

Lemma run_op_ok o r : op_typed o -> registry_ok r -> registry_ok (run_op o r).
Proof.
  intros Ht Hr. destruct o; simpl in *.
  - destruct Hr as [H1 _]. split; [done|]. simpl. intros k s Hs.
    rewrite lookup_fmap in Hs. apply fmap_Some in Hs as (s' & _ & ->). apply clampProviderScore_bounds.
  - apply registry_ok_insert; [done|]. by apply registerNode_ok.
  - unfold Heartbeat_. destruct (nodes r !! hb_NodeID msg) as [n|] eqn:E; [|done].
    apply registry_ok_insert; [done|].
    destruct (registry_ok_lookup _ _ _ Hr E) as (? & ? & ? & ? & ? & ? & ?).
    case_goal; unfold node_ok; simpl; split_and!; try done; try lia.
    apply normalizeProtocolVersion_pos.
  - destruct Hr as [H1 H2]. split; [|done]. simpl. by apply map_Forall_delete.
  - destruct Hr as [H1 H2]. split; [|done]. simpl. intros k n Hk.
    apply map_lookup_filter_Some in Hk as [Hk _]. by apply H1.
  - destruct (reserveFiltered _ _ _ _ _ _) as [[n' r']|] eqn:E; [|done].
    apply reserveFiltered_node in E as (n & k & _ & _ & Hl & -> & ->).
    destruct (registry_ok_lookup _ _ _ Hr Hl) as (? & ? & ? & ? & ? & ? & ?).
    apply registry_ok_insert; [done|]. unfold node_ok; simpl. split_and!; try done; try lia.
    apply wrap64_range.
  - unfold release. destruct (nodes r !! nodeID) as [n|] eqn:E; [|done]. case_goal; [|done].
    apply registry_ok_insert; [done|].
    destruct (registry_ok_lookup _ _ _ Hr E) as (? & ? & ? & ? & ? & ? & ?).
    unfold node_ok; simpl. split_and!; try done; try lia. apply wrap64_range.
  - apply onNode_ok; [done|]. intros. apply recordObservation_ok. done.
  - apply onNode_ok; [done|]. done.
  - apply onNode_ok; [done|]. done.
  - apply onNode_ok; [done|]. done.
Qed.

Lemma reachable_ok r : reachable r -> registry_ok r.
Proof.
  induction 1 as [|r o Hr IH Ht]; [split; apply map_Forall_empty|]. by apply run_op_ok.
Qed.

(** In every state the registry's methods can reach, each entry is
    stored under its own node id, has capacity at least one, a protocol version at
    least one, a non-empty set of known privacy tiers and no empty accelerator
    name, and every provider score lies between 0 and 100. *)
Theorem registry_invariant r k n :
  reachable r -> nodes r !! k = Some n ->
  n_ID n = k /\ 1 <= n_MaxConcurrent n /\ 1 <= n_ProtocolVersion n
  /\ n_PrivacyTiers n <> ∅ /\ (forall t, t ∈ n_PrivacyTiers n -> known_tier t)
  /\ ("" ∉ n_Accelerators n) /\ 0 <= providerScoreLocked r (n_ProviderID n) <= 100.
Proof.
  intros Hr Hk. pose proof (reachable_ok _ Hr) as Hok.
  destruct (registry_ok_lookup _ _ _ Hok Hk) as (? & [] & ? & ? & ? & ? & ?).
  split_and!; try done; unfold providerScoreLocked; repeat case_goal; try lia;
    apply clampProviderScore_bounds.
Qed.

(** Inputs shared by the witnesses. *)
Definition demo_register (id provider : string) (cap : Z) : Register :=
  {| reg_ProtocolVersion := 0; reg_NodeID := id; reg_ProviderID := provider; reg_ProviderToken := "";
     reg_PublicName := ""; reg_City := ""; reg_PrivacyMode := "public"; reg_PrivacyTiers := [];
     reg_Hostname := "host"; reg_Arch := ""; reg_OS := ""; reg_Backend := "ollama"; reg_DeviceKind := "mac";
     reg_DeviceVendor := ""; reg_DeviceModel := ""; reg_SoC := "M2"; reg_Accelerators := ["metal"; ""];
     reg_PowerMode := ""; reg_NetworkMode := ""; reg_Models := ["m"]; reg_MaxConcurrent := cap |}.

Definition demo_registry : Registry :=
  Register_ (demo_register "n2" "p2" 0) (Some 2) 1000000000000
    (Register_ (demo_register "n1" "p1" 2) (Some 1) 1000000000000 NewRegistry).

Definition demo_request : InferRequest :=
  {| ir_Model := "m"; ir_Messages := []; ir_Stream := false; ir_PrivacyTier := "public"; ir_Backend := "OLLAMA";
     ir_DeviceKind := ""; ir_SoC := ""; ir_Accelerators := ["Metal"]; ir_Temperature := None; ir_MaxTokens := None |}.

Definition demo_now : Time := 1001000000000.

Lemma demo_reachable : reachable demo_registry.
Proof.
  apply (reach_op _ (OpRegister (demo_register "n2" "p2" 0) (Some 2) 1000000000000)); [|by simpl; ilia].
  apply (reach_op _ (OpRegister (demo_register "n1" "p1" 2) (Some 1) 1000000000000)); [|by simpl; ilia].
  apply reach_new.
Qed.

Lemma registry_invariant_witness :
  exists n, nodes demo_registry !! "n2" = Some n /\ n_ID n = "n2" /\ 1 <= n_MaxConcurrent n.
Proof.
  eexists. split; [by vm_compute|].
  edestruct (registry_invariant demo_registry "n2") as (H1 & H2 & _); [apply demo_reachable|by vm_compute|].
  split; [exact H1|exact H2].
Defined.

(** [n] costs no more than any eligible node. *)
Definition cheapest (now : Time) (req : InferRequest) (ex : gset string) (pid : string) (r : Registry)
    (n : Node) : Prop :=
  forall k m, nodes r !! k = Some m -> eligible now req ex pid m = true ->
    flt (nodeCostLocked r m) (nodeCostLocked r n) = false.

(** No eligible node has a NaN cost; a load average read from JSON is never NaN. *)
Definition costs_ordered (r : Registry) : Prop :=
  forall k m, nodes r !! k = Some m -> not_nan (nodeCostLocked r m).

Lemma candidates_head_cheapest now order req ex pid r n rest :
  iteration_order r order -> costs_ordered r ->
  candidates now order req ex pid r = n :: rest -> cheapest now req ex pid r n.
Proof.
  intros Ho Hnan Hc k m Hk Hel. unfold candidates in Hc.
  set (P := fun n => not_nan (nodeCostLocked r n)).
  assert (Hm : m ∈ filter (fun n => eligible now req ex pid n = true) (visit r order)).
  { apply list_elem_of_filter. split; [done|]. rewrite elem_of_visit_iter by done. eauto. }
  assert (HP : Forall P (filter (fun n => eligible now req ex pid n = true) (visit r order))).
  { apply Forall_forall. intros a Ha. apply list_elem_of_filter in Ha as [_ Ha].
    rewrite elem_of_visit_iter in Ha by done. destruct Ha as [k' Hk']. by eapply Hnan. }
  assert (Hmin := fun Hasym Htrans => sort_slice_head_min _ P Hasym Htrans _ _ _ HP Hc m Hm).
  destruct Hmin as [->|]; [| | |done].
  - intros a b Ha Hb. by apply flt_asym.
  - intros a b c Ha Hb Hc'. by apply fle_trans.
  - destruct (flt (nodeCostLocked r n) (nodeCostLocked r n)) eqn:E; [|done].
    by rewrite (flt_asym _ _ (Hnan _ _ Hk) (Hnan _ _ Hk) E) in E.
Qed.

Lemma candidates_nil now order req ex pid r :
  iteration_order r order -> candidates now order req ex pid r = [] ->
  forall k m, nodes r !! k = Some m -> eligible now req ex pid m = false.
Proof.
  intros Ho Hc k m Hk. destruct (eligible now req ex pid m) eqn:E; [|done].
  assert (m ∈ candidates now order req ex pid r) as Hin.
  { apply elem_of_candidates. split; [done|]. rewrite elem_of_visit_iter by done. eauto. }
  rewrite Hc in Hin. by apply not_elem_of_nil in Hin.
Qed.

(** C28: for every iteration order of the node map, a reservation either
    takes one slot of a cheapest eligible node, within that node's capacity and
    changing nothing else, or fails with ErrNoNode exactly when no registered
    node is eligible. *)
Theorem reserve_correct now order req ex pid r :
  reachable r -> iteration_order r order -> costs_ordered r ->
  match reserveFiltered now order req ex pid r with
  | Ok (n', r') =>
      exists n, nodes r !! n_ID n = Some n /\ eligible now req ex pid n = true
        /\ cheapest now req ex pid r n
        /\ n' = n <| n_Active := n_Active n + 1 |> /\ n_Active n' <= n_MaxConcurrent n'
        /\ nodes r' = <[n_ID n := n']> (nodes r) /\ providerScores r' = providerScores r
  | Err e =>
      e = ErrNoNode /\ forall k m, nodes r !! k = Some m -> eligible now req ex pid m = false
  end.
Proof.
  intros Hreach Ho Hnan. pose proof (reachable_ok _ Hreach) as Hok.
  destruct (reserveFiltered now order req ex pid r) as [[n' r']|e] eqn:E.
  - apply reserveFiltered_ok in E as (n & rest & Hc & -> & ->).
    assert (Hin : n ∈ candidates now order req ex pid r) by (rewrite Hc; left).
    apply elem_of_candidates in Hin as [Hel (k & _ & Hk)%elem_of_visit].
    destruct (registry_ok_lookup _ _ _ Hok Hk) as (<- & Hmax & Hact & _).
    pose proof Hel as Hcap. apply eligible_spec in Hcap.
    assert (Hadd : n_Active n +w 1 = n_Active n + 1) by (apply add64_id; ilia).
    exists n. simpl. rewrite Hadd. split_and!; try done; try lia.
    by eapply candidates_head_cheapest.
  - apply reserveFiltered_err in E as [-> Hc]. split; [done|]. by eapply candidates_nil.
Qed.

(** Costs of a concrete registry are checked by computation. *)
Definition costs_check (r : Registry) : bool :=
  forallb (fun kn => negb (is_nan (nodeCostLocked r kn.2))) (map_to_list (nodes r)).

Lemma costs_check_ok r : costs_check r = true -> costs_ordered r.
Proof.
  unfold costs_check. rewrite forallb_forall. intros H k m Hk.
  apply is_nan_false. specialize (H (k, m)). rewrite <- list_elem_of_In, elem_of_map_to_list in H.
  apply negb_true_iff. by apply H.
Qed.

Lemma demo_order : iteration_order demo_registry ["n1"; "n2"].
Proof. apply (bool_decide_unpack _). by vm_compute. Qed.

Lemma demo_costs : costs_ordered demo_registry.
Proof. apply costs_check_ok. by vm_compute. Qed.

Lemma demo_reserves : is_ok (reserveFiltered demo_now ["n1"; "n2"] demo_request ∅ "" demo_registry) = true.
Proof. by vm_compute. Qed.

Lemma reserve_correct_witness :
  match reserveFiltered demo_now ["n1"; "n2"] demo_request ∅ "" demo_registry with
  | Ok (n', _) => exists n, nodes demo_registry !! n_ID n = Some n
      /\ cheapest demo_now demo_request ∅ "" demo_registry n /\ n_Active n' <= n_MaxConcurrent n'
  | Err _ => False
  end.
Proof.
  pose proof (reserve_correct demo_now ["n1"; "n2"] demo_request ∅ "" demo_registry
    demo_reachable demo_order demo_costs) as H.
  pose proof demo_reserves as Hok.
  destruct (reserveFiltered demo_now ["n1"; "n2"] demo_request ∅ "" demo_registry) as [[n' r']|e].
  - destruct H as (n & Hn & _ & Hch & _ & Hle & _). exists n.
    split; [exact Hn|]. split; [exact Hch|exact Hle].
  - discriminate Hok.
Defined.

(** ** Slot accounting with concurrent dispatches *)

(** The registry, the node ids of the slots that dispatches hold, and for each node how many of them
    its count has lost. *)
Record Pool := { pl_registry : Registry; pl_held : list string; pl_lost : string -> Z }.

(** The count of a node, 0 when it is not registered. *)
Definition active (r : Registry) (k : string) : Z := match nodes r !! k with Some n => n_Active n | None => 0 end.

(** A count that drops without a release loses slots; a release that finds none to give back makes up for one. *)
Definition lost_after (o : op) (r r' : Registry) (lost : string -> Z) (k : string) : Z :=
  match o with
  | OpRelease id => if decide (id = k) then lost k - (1 - (active r k - active r' k)) else lost k
  | _ => lost k + Z.max 0 (active r k - active r' k)
  end.

Definition held (k : string) (l : list string) : Z := Z.of_nat (length (filter (fun x => x = k) l)).

(** Calls that neither take nor give back a slot. *)
Definition quiet (o : op) : bool :=
  match o with
  | OpSetScores _ | OpRemove _ | OpRemoveProvider _ | OpSuccess _ _ _ | OpPreToken _ _ _
  | OpPostToken _ _ _ | OpTerminal _ _ _ => true
  | _ => false
  end.

Section Careful.

(** Do nodes stay connected while slots of theirs are held, and do their heartbeats report how many are?
    The registry checks neither: [Register] starts a node that reconnects at 0, and [Heartbeat] sets the
    count to what the node says. *)
Variable careful : bool.

(** Any number of dispatches interleaved with registrations, removals and heartbeats. *)
Inductive pool_step : Pool -> op -> Pool -> Prop :=
| ps_register r l f msg conn now :
    (careful = true -> reg_NodeID msg ∉ l) -> in_int64 (reg_MaxConcurrent msg) ->
    let o := OpRegister msg conn now in
    pool_step {| pl_registry := r; pl_held := l; pl_lost := f |} o
              {| pl_registry := Register_ msg conn now r; pl_held := l; pl_lost := lost_after o r (Register_ msg conn now r) f |}
| ps_heartbeat r l f msg now :
    (careful = true -> hb_ActiveRequests msg = held (hb_NodeID msg) l) -> in_int64 (hb_ActiveRequests msg) ->
    let o := OpHeartbeat msg now in
    pool_step {| pl_registry := r; pl_held := l; pl_lost := f |} o
              {| pl_registry := Heartbeat_ msg now r; pl_held := l; pl_lost := lost_after o r (Heartbeat_ msg now r) f |}
| ps_reserve r l f now order req ex pid n r' :
    reserveFiltered now order req ex pid r = Ok (n, r') ->
    let o := OpReserve now order req ex pid in
    pool_step {| pl_registry := r; pl_held := l; pl_lost := f |} o
              {| pl_registry := r'; pl_held := n_ID n :: l; pl_lost := lost_after o r r' f |}
| ps_release r l1 l2 f id :
    let o := OpRelease id in
    pool_step {| pl_registry := r; pl_held := l1 ++ id :: l2; pl_lost := f |} o
              {| pl_registry := release id r; pl_held := l1 ++ l2; pl_lost := lost_after o r (release id r) f |}
| ps_quiet r l f o :
    quiet o = true ->
    pool_step {| pl_registry := r; pl_held := l; pl_lost := f |} o
              {| pl_registry := run_op o r; pl_held := l; pl_lost := lost_after o r (run_op o r) f |}.

(** Every held slot is counted or lost; what is held fits the node but for the lost slots; and with
    [careful] nodes the counts are exact. *)
Definition slots_ok (p : Pool) : Prop :=
  registry_ok (pl_registry p)
  /\ (forall k, held k (pl_held p) <= active (pl_registry p) k + pl_lost p k)
  /\ map_Forall (fun k n => held k (pl_held p) <= n_MaxConcurrent n + pl_lost p k
       /\ (careful = true -> n_Active n = held k (pl_held p) /\ n_Active n <= n_MaxConcurrent n))
    (nodes (pl_registry p)).

Lemma held_cons k x l : held k (x :: l) = (if decide (x = k) then 1 else 0) + held k l.
Proof. unfold held. rewrite filter_cons. destruct (decide (x = k)); simpl length; lia. Qed.

Lemma held_app k l1 l2 : held k (l1 ++ l2) = held k l1 + held k l2.
Proof. unfold held. rewrite filter_app, length_app. lia. Qed.

Lemma held_nonneg k l : 0 <= held k l.
Proof. unfold held. lia. Qed.

Lemma held_notin k l : k ∉ l -> held k l = 0.
Proof.
  intros Hn. unfold held. induction l as [|x l IH]; [done|].
  apply not_elem_of_cons in Hn as [Hne Hn]. rewrite filter_cons_False by done. by apply IH.
Qed.

(** [run_op] on a quiet call leaves capacities and counts of the surviving nodes. *)
Lemma quiet_lookup o r k n' :
  quiet o = true -> nodes (run_op o r) !! k = Some n' ->
  exists n, nodes r !! k = Some n /\ n_Active n' = n_Active n /\ n_MaxConcurrent n' = n_MaxConcurrent n.
Proof.
  intros Hq. destruct o; simpl in *; try done.
  - eauto.
  - intros [_ H]%lookup_delete_Some. eauto.
  - intros [H _]%map_lookup_filter_Some. eauto.
  - unfold recordSuccess. rewrite onNode_lookup. case_decide as E; [subst|eauto].
    intros (n & Hn & ->)%fmap_Some. exists n. split; [done|].
    unfold recordObservation. repeat case_goal; done.
  - unfold recordPreTokenFailure. rewrite onNode_lookup. case_decide as E; [subst|eauto].
    intros (n & Hn & ->)%fmap_Some. by exists n.
  - unfold recordPostTokenFailure. rewrite onNode_lookup. case_decide as E; [subst|eauto].
    intros (n & Hn & ->)%fmap_Some. by exists n.
  - unfold recordPreTokenTerminalFailure. rewrite onNode_lookup. case_decide as E; [subst|eauto].
    intros (n & Hn & ->)%fmap_Some. by exists n.
Qed.

Lemma quiet_typed o : quiet o = true -> op_typed o.
Proof. by destruct o. Qed.

Lemma active_lookup r k n : nodes r !! k = Some n -> active r k = n_Active n.
Proof. unfold active. by intros ->. Qed.

Lemma register_ok r l f msg conn now :
  slots_ok {| pl_registry := r; pl_held := l; pl_lost := f |} ->
  (careful = true -> reg_NodeID msg ∉ l) -> in_int64 (reg_MaxConcurrent msg) ->
  slots_ok {| pl_registry := Register_ msg conn now r; pl_held := l;
              pl_lost := lost_after (OpRegister msg conn now) r (Register_ msg conn now r) f |}.
Proof.
  intros (Hok & Hc & Hs) Hcar Hty. simpl in *. split; [by apply registry_ok_insert, registerNode_ok|].
  assert (Hact : forall k, active (Register_ msg conn now r) k = if decide (reg_NodeID msg = k) then 0 else active r k).
  { intros k. unfold active. simpl. case_decide; [subst; by rewrite lookup_insert_eq|by rewrite lookup_insert_ne]. }
  split; simpl.
  - intros k. specialize (Hc k). rewrite Hact. case_decide; lia.
  - intros k n Hk. rewrite Hact. specialize (Hc k). case_decide as Ek.
    + subst k. rewrite lookup_insert_eq in Hk. injection Hk as <-. simpl. split; [lia|].
      intros Hb. rewrite held_notin by auto. lia.
    + rewrite lookup_insert_ne in Hk by done. destruct (Hs _ _ Hk) as [H1 H2]. split; [lia|done].
Qed.

Lemma heartbeat_ok r l f msg now :
  slots_ok {| pl_registry := r; pl_held := l; pl_lost := f |} ->
  (careful = true -> hb_ActiveRequests msg = held (hb_NodeID msg) l) -> in_int64 (hb_ActiveRequests msg) ->
  slots_ok {| pl_registry := Heartbeat_ msg now r; pl_held := l;
              pl_lost := lost_after (OpHeartbeat msg now) r (Heartbeat_ msg now r) f |}.
Proof.
  intros (Hok & Hc & Hs) Hcar Hty. simpl in *. split; [by apply (run_op_ok (OpHeartbeat msg now))|]. split; simpl.
  - intros k. specialize (Hc k). lia.
  - unfold Heartbeat_. destruct (nodes r !! hb_NodeID msg) as [n|] eqn:E.
    2: { intros k n Hk. destruct (Hs _ _ Hk) as [H1 H2]. split; [lia|done]. }
    intros k n' Hk. simpl in Hk. apply lookup_insert_Some in Hk as [[<- <-]|[_ Hk]].
    + destruct (Hs _ _ E) as [H1 H2]. case_goal; simpl; (split; [lia|intros Hb; specialize (Hcar Hb); destruct (H2 Hb); lia]).
    + destruct (Hs _ _ Hk) as [H1 H2]. split; [lia|done].
Qed.

Lemma reserve_slot_ok r l f now order req ex pid n r' :
  slots_ok {| pl_registry := r; pl_held := l; pl_lost := f |} -> reserveFiltered now order req ex pid r = Ok (n, r') ->
  slots_ok {| pl_registry := r'; pl_held := n_ID n :: l; pl_lost := lost_after (OpReserve now order req ex pid) r r' f |}.
Proof.
  intros (Hok & Hc & Hs) H. simpl in *.
  pose proof (run_op_ok (OpReserve now order req ex pid) r I Hok) as Hok'. simpl in Hok'. rewrite H in Hok'.
  split; [done|]. apply reserveFiltered_node in H as (m & k & Hel & _ & Hl & -> & ->). simpl.
  destruct (registry_ok_lookup _ _ _ Hok Hl) as (<- & Hmax & Hact & _). apply eligible_spec in Hel.
  pose proof (Hc (n_ID m)) as Hm. rewrite (active_lookup _ _ _ Hl) in Hm. destruct (Hs _ _ Hl) as [_ Hcr].
  split; simpl.
  - intros k'. rewrite held_cons. specialize (Hc k'). unfold active in *. simpl. destruct (decide (n_ID m = k')) as [<-|Hne].
    + rewrite lookup_insert_eq, Hl in *. simpl. rewrite add64_id by ilia. lia.
    + rewrite lookup_insert_ne by done. lia.
  - intros k' n' Hk'. rewrite held_cons. destruct (decide (n_ID m = k')) as [<-|Hne].
    + rewrite lookup_insert_eq in Hk'. injection Hk' as <-. simpl. rewrite add64_id by ilia. split; [lia|].
      intros Hb. destruct (Hcr Hb). lia.
    + rewrite lookup_insert_ne in Hk' by done. destruct (Hs _ _ Hk') as [H1 H2]. split; [lia|]. intros Hb. destruct (H2 Hb). lia.
Qed.

Lemma release_slot_ok r l1 l2 f id :
  slots_ok {| pl_registry := r; pl_held := l1 ++ id :: l2; pl_lost := f |} ->
  slots_ok {| pl_registry := release id r; pl_held := l1 ++ l2; pl_lost := lost_after (OpRelease id) r (release id r) f |}.
Proof.
  intros (Hok & Hc & Hs). simpl in *. split; [by apply (run_op_ok (OpRelease id))|].
  assert (Hheld : forall k, held k (l1 ++ id :: l2) = held k (l1 ++ l2) + (if decide (id = k) then 1 else 0)).
  { intros k. rewrite !held_app, held_cons. lia. }
  split; simpl.
  - intros k. specialize (Hc k). rewrite Hheld in Hc. case_decide as Ek; [lia|].
    unfold active in *. rewrite release_onNode, onNode_lookup, decide_False by congruence. lia.
  - intros k n'. rewrite release_onNode, onNode_lookup. case_decide as Ek.
    + subst k. intros (n & Hn & ->)%fmap_Some. rewrite decide_True by done. destruct (Hs _ _ Hn) as [H1 H2].
      specialize (Hc id). rewrite Hheld, decide_True in Hc, H1, H2 by done. pose proof (held_nonneg id (l1 ++ l2)).
      destruct (registry_ok_lookup _ _ _ Hok Hn) as (_ & Hmax & Ha & _).
      assert (Hr : active (release id r) id = if 0 <? n_Active n then n_Active n - 1 else n_Active n).
      { unfold active. rewrite release_onNode, onNode_lookup, decide_True, Hn by done. simpl.
        case_goal; bsimpl; simpl; [by rewrite sub64_id by ilia|done]. }
      rewrite Hr, (active_lookup _ _ _ Hn) in *.
      destruct (0 <? n_Active n) eqn:E; bsimpl; simpl; rewrite ?sub64_id by ilia; (split; [lia|]; intros Hb; destruct (H2 Hb); lia).
    + intros Hn. destruct (Hs _ _ Hn) as [H1 H2]. rewrite Hheld, decide_False in H1, H2 by congruence.
      rewrite decide_False by congruence. split; [lia|]. intros Hb. destruct (H2 Hb). lia.
Qed.

Lemma quiet_ok r l f o :
  slots_ok {| pl_registry := r; pl_held := l; pl_lost := f |} -> quiet o = true ->
  slots_ok {| pl_registry := run_op o r; pl_held := l; pl_lost := lost_after o r (run_op o r) f |}.
Proof.
  intros (Hok & Hc & Hs) H. simpl in *.
  assert (Hlost : forall k, lost_after o r (run_op o r) f k = f k + Z.max 0 (active r k - active (run_op o r) k)) by (by destruct o).
  split; [apply run_op_ok; [by apply quiet_typed|done]|]. split; simpl.
  - intros k. rewrite Hlost. specialize (Hc k). lia.
  - intros k n' Hk'. rewrite Hlost. destruct (quiet_lookup _ _ _ _ H Hk') as (n & Hn & -> & ->).
    destruct (Hs _ _ Hn) as [H1 H2]. split; [lia|done].
Qed.

Lemma pool_step_ok p o p' : slots_ok p -> pool_step p o p' -> slots_ok p'.
Proof.
  intros Hok Hstep. destruct Hstep; subst; [by apply register_ok|by apply heartbeat_ok|by apply reserve_slot_ok|
    by apply release_slot_ok|by apply quiet_ok].
Qed.

(** The state before any node has registered. *)
Definition pool_start : Pool := {| pl_registry := NewRegistry; pl_held := []; pl_lost := fun _ => 0 |}.

(** C5: however reservations, releases, registrations, reconnections, removals,
    outcome records and heartbeats with any content interleave, the slots that dispatches hold on a
    registered node are at most its capacity and the slots its count has lost: a reconnection, a removal or a heartbeat
    that lowers the count without a release loses that many, a release that finds the
    count at 0 makes up for one ([lost_after]; [reconnect_forgets_slots] and [heartbeat_frees_reserved_slot] show that
    this happens).  If nodes are [careful], that is none registers again while slots of its are held and
    heartbeats report the number held, a node's count is exactly that number, and never exceeds its capacity. *)
Theorem slots_never_oversubscribed tr p k n :
  steps pool_step pool_start tr p ->
  nodes (pl_registry p) !! k = Some n ->
  held k (pl_held p) <= n_MaxConcurrent n + pl_lost p k
  /\ (careful = true -> n_Active n = held k (pl_held p) /\ held k (pl_held p) <= n_MaxConcurrent n).
Proof.
  intros Hsteps Hk.
  assert (slots_ok p) as (_ & _ & Hs).
  { eapply (steps_invariant pool_step slots_ok); [| |exact Hsteps].
    - split; [split; apply map_Forall_empty|]. split; [by intros k'|apply map_Forall_empty].
    - intros. by eapply pool_step_ok. }
  destruct (Hs _ _ Hk) as [H1 H2]. split; [done|]. intros Hb. destruct (H2 Hb). lia.
Qed.

End Careful.

Lemma slots_never_oversubscribed_witness :
  exists tr p n, steps (pool_step true) pool_start tr p
    /\ nodes (pl_registry p) !! "n1" = Some n /\ n_Active n = held "n1" (pl_held p)
    /\ held "n1" (pl_held p) = 1.
Proof.
  pose (r1 := Register_ (demo_register "n1" "p1" 2) (Some 1) 1000000000000 NewRegistry).
  destruct (reserveFiltered demo_now ["n1"] demo_request ∅ "" r1) as [[m r2]|e] eqn:E.
  2: { exfalso. apply (f_equal is_ok) in E. by vm_compute in E. }
  assert (Hm : n_ID m = "n1").
  { apply (f_equal (fun x => match x with Ok (n, _) => n_ID n | Err _ => "" end)) in E.
    vm_compute in E. by symmetry. }
  assert (Hr : is_Some (nodes r2 !! "n1")).
  { apply reserveFiltered_node in E as (n & k & _ & _ & _ & -> & ->). simpl in *.
    rewrite Hm. rewrite lookup_insert_eq. eauto. }
  destruct Hr as [n Hn].
  assert (Hst : exists f, steps (pool_step true) pool_start
    (([] ++ [OpRegister (demo_register "n1" "p1" 2) (Some 1) 1000000000000])
      ++ [OpReserve demo_now ["n1"] demo_request ∅ ""]) {| pl_registry := r2; pl_held := [n_ID m]; pl_lost := f |}).
  { eexists. econstructor; [econstructor; [constructor|]|].
    - apply ps_register; [intros _; by apply not_elem_of_nil|simpl; ilia].
    - by apply ps_reserve. }
  destruct Hst as [f Hst]. eexists _, _, n. split; [exact Hst|]. split; [exact Hn|].
  destruct (slots_never_oversubscribed true _ _ "n1" n Hst Hn) as [_ H].
  split; [exact (proj1 (H eq_refl))|]. simpl. by rewrite Hm.
Defined.

(** A node of capacity one that reconnects while it works is handed a second request; and when the first
    one's dispatch ends, its release frees the slot of the second, so it is handed a third. *)
Theorem reconnect_forgets_slots :
  let join := Register_ (demo_register "n1" "p1" 1) (Some 1) 1000000000000 in
  let hand r := reserveFiltered demo_now ["n1"] demo_request ∅ "" r in
  match hand (join NewRegistry) with
  | Ok (_, r1) => negb (is_ok (hand r1))
      && match hand (join r1) with
         | Ok (_, r2) => negb (is_ok (hand r2)) && is_ok (hand (release "n1" r2))
         | Err _ => false
         end
  | Err _ => false
  end = true.
Proof. vm_compute. reflexivity. Qed.

(** An inaccurate heartbeat: one that the node sent before it saw the request. *)
Definition idle_heartbeat (id : string) : Heartbeat :=
  {| hb_ProtocolVersion := 1; hb_NodeID := id; hb_Models := ["m"]; hb_ActiveRequests := 0; hb_QueueDepth := 0;
     hb_MemoryFreeMB := 0; hb_LoadAverage := f0; hb_ObservedAt := 0 |}.

Definition one_slot_registry : Registry :=
  Register_ (demo_register "n1" "p1" 1) (Some 1) 1000000000000 NewRegistry.

(** A heartbeat sent before the node saw a request
    overwrites the reservation, so a node of capacity one is handed a second
    request while the first is still in flight. *)
Theorem heartbeat_frees_reserved_slot :
  exists n1 r1, reserveFiltered demo_now ["n1"] demo_request ∅ "" one_slot_registry = Ok (n1, r1)
    /\ n_MaxConcurrent n1 = 1
    /\ is_ok (reserveFiltered demo_now ["n1"] demo_request ∅ "" r1) = false
    /\ is_ok (reserveFiltered demo_now ["n1"] demo_request ∅ "" (Heartbeat_ (idle_heartbeat "n1") demo_now r1)) = true.
Proof.
  assert (H : match reserveFiltered demo_now ["n1"] demo_request ∅ "" one_slot_registry with
    | Err _ => false
    | Ok (n1, r1) =>
        (n_MaxConcurrent n1 =? 1)
        && negb (is_ok (reserveFiltered demo_now ["n1"] demo_request ∅ "" r1))
        && is_ok (reserveFiltered demo_now ["n1"] demo_request ∅ ""
                    (Heartbeat_ (idle_heartbeat "n1") demo_now r1))
    end = true) by (by vm_compute).
  destruct (reserveFiltered demo_now ["n1"] demo_request ∅ "" one_slot_registry) as [[n1 r1]|e]; [|done].
  exists n1, r1. split; [reflexivity|]. bsimpl. split_and!; assumption.
Qed.

(** ** The dispatch loop *)

(** A node that may receive the request: the routing conditions of the scheduler. *)
Definition serves (req : InferRequest) (pid : string) (n : Node) : Prop :=
  acceptsPrivacy n (ir_PrivacyTier req) = true /\ ir_Model req ∈ n_Models n
  /\ matchesCapabilities n req = true /\ (pid = "" \/ n_ProviderID n = pid).

Lemma reserve_serves now order req ex pid r n r' :
  reserveFiltered now order req ex pid r = Ok (n, r') ->
  serves req pid n /\ (n_ID n ∉ ex) /\ exists k m, nodes r !! k = Some m /\ n_ID m = n_ID n.
Proof.
  intros (m & k & Hel & _ & Hl & -> & ->)%reserveFiltered_node.
  apply eligible_spec in Hel as (? & ? & _ & _ & ? & ? & ? & _).
  unfold serves; simpl. split_and!; try done. by exists k, m.
Qed.

Lemma runTracker_spec a out :
  tk_inner (runTracker a out) = out ++ (snd <$> at_chunks a)
  /\ tk_sent (runTracker a out) = match at_chunks a with [] => false | _ => true end.
Proof.
  unfold runTracker.
  assert (H : forall l s, tk_inner (fold_left (fun s tc => Chunk s tc.1 tc.2) l s)
      = tk_inner s ++ (snd <$> l)
    /\ tk_sent (fold_left (fun s tc => Chunk s tc.1 tc.2) l s)
      = match l with [] => tk_sent s | _ => true end).
  { induction l as [|[t c] l IH]; intros s; simpl; [by rewrite app_nil_r|].
    destruct (IH (Chunk s t c)) as [-> ->]. split; [|by destruct l].
    simpl. by rewrite <- app_assoc. }
  destruct (H (at_chunks a) (newFirstChunkTracker out (at_start a))) as [-> ->].
  split; [done|by destruct (at_chunks a)].
Qed.

(** The shape of a finished dispatch: silent attempts, then at most one attempt
    whose output is all the caller ever saw. *)
Definition single_source (oc : Outcome) : Prop :=
  exists silent last,
    oc_tried oc = silent ++ option_list last
    /\ Forall (fun x => x.2 = []) silent
    /\ oc_output oc = match last with Some x => x.2 | None => [] end
    /\ match oc_error oc with
       | None | Some (ErrNode _) =>
           exists x, last = Some x /\ dr_NodeID (oc_result oc) = n_ID x.1
             /\ dr_ProviderID (oc_result oc) = n_ProviderID x.1
       | Some ErrNoNode => last = None /\ silent = []
       | Some (ErrNoNodeAfter _ _) => last = None /\ silent <> []
       end.

Definition log_ok (req : InferRequest) (pid : string) (tried : list (Node * list string)) : Prop :=
  NoDup ((fun x => n_ID x.1) <$> tried) /\ Forall (fun x => serves req pid x.1) tried.

Lemma log_ok_snoc req pid tried n c :
  log_ok req pid tried -> serves req pid n -> Forall (fun x => n_ID x.1 <> n_ID n) tried ->
  log_ok req pid (tried ++ [(n, c)]).
Proof.
  intros [Hnd Hs] Hn Hf. split.
  - rewrite fmap_app. apply NoDup_app. split_and!; [done| |apply NoDup_singleton].
    intros x Hx. apply list_elem_of_fmap in Hx as (y & -> & Hy). simpl.
    rewrite list_elem_of_singleton. rewrite Forall_forall in Hf. by apply Hf.
  - apply Forall_app. split; [done|]. by apply Forall_singleton.
Qed.

Lemma dispatch_loop_spec req pid script r att n last tried oc :
  dispatch_loop req pid script r [] att n last tried = Some oc ->
  log_ok req pid tried ->
  Forall (fun x => n_ID x.1 ∈ att /\ x.2 = []) tried ->
  (last = None <-> tried = []) ->
  n = Z.of_nat (length tried) -> Z.of_nat (length tried + length script) <= max_int64 ->
  log_ok req pid (oc_tried oc) /\ single_source oc
  /\ dr_Attempts (oc_result oc) = Z.of_nat (length (oc_tried oc)).
Proof.
  revert r att n last tried.
  induction script as [|a script IH]; intros r att n last tried Hrun Hlog Htried Hlast -> Hlen; [done|].
  simpl in Hrun, Hlen. destruct (reserveFiltered _ _ _ _ _ _) as [[node r']|e] eqn:Eres.
  2: { apply reserveFiltered_err in Eres as [-> _]. injection Hrun as <-. simpl. split; [done|].
       split; [|done]. exists tried, None. simpl. rewrite app_nil_r. split_and!; try done.
       - eapply Forall_impl; [done|]. by intros x [_ ?].
       - destruct last; [split; [done|]|by split; [|apply Hlast]].
         intros Hnil. by apply Hlast in Hnil. }
  apply reserve_serves in Eres as (Hserves & Hfresh & _).
  destruct (runTracker_spec a []) as [Hinner Hsent]. simpl in Hinner.
  assert (Hadd : Z.of_nat (length tried) +w 1 = Z.of_nat (length (tried ++ [(node, snd <$> at_chunks a)]))).
  { rewrite length_app. simpl. rewrite add64_id by ilia. lia. }
  assert (Hlog' : log_ok req pid (tried ++ [(node, snd <$> at_chunks a)])).
  { apply log_ok_snoc; [done..|]. eapply Forall_impl; [done|]. intros x [Hx _] Heq.
    by rewrite Heq in Hx. }
  assert (Hstop : forall r d err, match err with None | Some (ErrNode _) => True | _ => False end ->
    let o := {| oc_registry := r; oc_output := tk_inner (runTracker a []);
                oc_result := nodeDispatchResult node d (Z.of_nat (length tried) +w 1)
                  (observation (runTracker a []) (at_end a));
                oc_error := err; oc_tried := tried ++ [(node, snd <$> at_chunks a)] |} in
    log_ok req pid (oc_tried o) /\ single_source o
    /\ dr_Attempts (oc_result o) = Z.of_nat (length (oc_tried o))).
  { intros r0 d err Herr o. split; [done|]. split; [|done].
    exists tried, (Some (node, snd <$> at_chunks a)). simpl. split_and!; try done.
    - eapply Forall_impl; [done|]. by intros x [_ ?].
    - destruct err as [[| |]|]; try done; by eexists. }
  destruct (at_result a) as [done_|err]; [injection Hrun as <-; by apply Hstop|].
  destruct (tk_sent (runTracker a [])) eqn:Es; [injection Hrun as <-; by apply Hstop|].
  destruct (negb _); [injection Hrun as <-; by apply Hstop|].
  destruct (at_chunks a) as [|c cs] eqn:Ec; [|by rewrite Hsent in Es].
  rewrite Hinner in Hrun. simpl in *. apply IH in Hrun; try done.
  - apply Forall_app. split.
    + eapply Forall_impl; [done|]. intros x [Hx ?]. split; [set_solver|done].
    + apply Forall_singleton. simpl. split; [set_solver|done].
  - split; [done|]. by destruct tried.
  - rewrite length_app. simpl. lia.
Qed.

(** Scripts shorter than 2^63 rounds: the attempt counter does not wrap. *)
Definition script_fits {A} (script : list A) : Prop := Z.of_nat (length script) <= max_int64.

(** C8: a dispatch fails over only before the first token.  It never
    tries a node twice, every attempt but the last produced no output, all the
    output the client sees comes from the last node, which is the one reported,
    and the attempts reported are the attempts made, whatever other goroutines do
    to the registry meanwhile. *)
Theorem dispatch_failover req pid script r oc :
  script_fits script -> DispatchToProvider pid req script r = Some oc ->
  NoDup ((fun x => n_ID x.1) <$> oc_tried oc) /\ single_source oc
  /\ dr_Attempts (oc_result oc) = Z.of_nat (length (oc_tried oc)).
Proof.
  intros Hfit H. unfold DispatchToProvider in H.
  eapply dispatch_loop_spec in H as ([Hnd _] & Hs & Ha); try done.
  split; apply NoDup_nil || apply Forall_nil; done.
Qed.

(** C32: every node a dispatch hands the request to accepts the request's
    privacy tier, advertises its model, has the capabilities it asks for and, when a
    provider is named, belongs to that provider. *)
Theorem dispatch_routing req pid script r oc :
  script_fits script -> DispatchToProvider pid req script r = Some oc ->
  Forall (fun x => serves req pid x.1) (oc_tried oc).
Proof.
  intros Hfit H. unfold DispatchToProvider in H.
  eapply dispatch_loop_spec in H as ([_ Hr] & _ & _); try done.
  split; apply NoDup_nil || apply Forall_nil; done.
Qed.

(** A script for the witnesses: the first node fails before any token, the second
    streams two chunks and finishes. *)
Definition demo_attempt (chunks : list (Time * string)) (result : res NodeError InferDone) : Attempt :=
  {| at_now := demo_now; at_order := ["n1"; "n2"]; at_start := demo_now; at_chunks := chunks;
     at_result := result; at_during := id; at_end := demo_now + 2000 * millisecond; at_released := id;
     at_record := demo_now + 2000 * millisecond; at_ctxErr := false; at_after := id |}.

Definition demo_failure : NodeError := {| ne_msg := "node disconnected"; ne_retryable := Some true |}.

Definition demo_script : list Attempt :=
  [ demo_attempt [] (Err demo_failure);
    demo_attempt [(demo_now + second, "Hello "); (demo_now + 2 * second, "world")] (Ok empty_InferDone) ].

Definition demo_outcome : option Outcome := DispatchToProvider "" demo_request demo_script demo_registry.

Lemma demo_script_fits : script_fits demo_script.
Proof. unfold script_fits. simpl. unfold max_int64. lia. Qed.

Lemma demo_finishes :
  match demo_outcome with
  | Some oc => bool_decide (((fun x => n_ID x.1) <$> oc_tried oc) = ["n1"; "n2"])
               && bool_decide (oc_output oc = ["Hello "; "world"]) && bool_decide (dr_NodeID (oc_result oc) = "n2")
  | None => false
  end = true.
Proof. by vm_compute. Qed.

Lemma dispatch_failover_witness :
  exists oc, demo_outcome = Some oc /\ NoDup ((fun x => n_ID x.1) <$> oc_tried oc) /\ single_source oc
    /\ dr_Attempts (oc_result oc) = 2 /\ oc_output oc = ["Hello "; "world"].
Proof.
  pose proof demo_finishes as H. destruct demo_outcome as [oc|] eqn:E; [|discriminate H].
  destruct (dispatch_failover demo_request "" demo_script demo_registry oc demo_script_fits E) as (H1 & H2 & H3).
  bsimpl. exists oc. split_and!; try assumption; [reflexivity|].
  rewrite H3. rewrite <- (length_fmap (fun x => n_ID x.1)). rewrite H. reflexivity.
Defined.

Lemma dispatch_routing_witness :
  exists oc, demo_outcome = Some oc /\ Forall (fun x => serves demo_request "" x.1) (oc_tried oc)
    /\ oc_tried oc <> [].
Proof.
  pose proof demo_finishes as H. destruct demo_outcome as [oc|] eqn:E; [|discriminate H].
  exists oc. split; [reflexivity|]. split.
  - apply (dispatch_routing demo_request "" demo_script demo_registry oc demo_script_fits E).
  - intros Hnil. rewrite Hnil in H. discriminate H.
Defined.

(** ** Termination *)

(** The registry only knows nodes with ids in [ids]. *)
Definition confined (ids : gset string) (r : Registry) : Prop :=
  map_Forall (fun k n => n_ID n = k /\ k ∈ ids) (nodes r).

Lemma confined_insert ids r k n :
  confined ids r -> n_ID n = k -> k ∈ ids -> confined ids (r <| nodes ::= <[k := n]> |>).
Proof. intros H Hn Hk. by apply map_Forall_insert_2. Qed.

Lemma confined_onNode ids id f r :
  (forall n, n_ID (f n) = n_ID n) -> confined ids r -> confined ids (onNode id f r).
Proof.
  intros Hf H. unfold onNode. destruct (nodes r !! id) as [n|] eqn:E; [|done].
  destruct (H _ _ E). apply confined_insert; [done| |done]. by rewrite Hf.
Qed.

Lemma confined_release ids id r : confined ids r -> confined ids (release id r).
Proof.
  intros H. unfold confined. rewrite release_onNode. apply confined_onNode; [|done].
  intros n. by case_goal.
Qed.

Lemma confined_record ids id o err now r :
  confined ids r ->
  confined ids (recordSuccess id o now r) /\ confined ids (recordPreTokenFailure id err now r)
  /\ confined ids (recordPostTokenFailure id err now r)
  /\ confined ids (recordPreTokenTerminalFailure id err now r).
Proof.
  intros H. split_and!; apply confined_onNode; try done.
  intros n. unfold recordObservation. repeat case_goal; done.
Qed.

Lemma reserve_confined ids now order req ex pid r n r' :
  confined ids r -> reserveFiltered now order req ex pid r = Ok (n, r') ->
  confined ids r' /\ n_ID n ∈ ids ∖ ex.
Proof.
  intros H (m & k & Hel & _ & Hl & -> & ->)%reserveFiltered_node.
  apply eligible_spec in Hel as (Hex & _). destruct (H _ _ Hl) as [<- Hids].
  split; [by apply confined_insert|]. simpl. set_solver.
Qed.

(** Other goroutines only register nodes with ids in [ids]. *)
Definition keeps (ids : gset string) (f : Registry -> Registry) : Prop :=
  forall r, confined ids r -> confined ids (f r).

Definition attempt_keeps (ids : gset string) (a : Attempt) : Prop :=
  keeps ids (at_during a) /\ keeps ids (at_released a) /\ keeps ids (at_after a).

Lemma size_shrinks (ids att : gset string) k :
  k ∈ ids ∖ att -> (size (ids ∖ ({[k]} ∪ att)) < size (ids ∖ att))%nat.
Proof. intros Hk. apply subset_size. set_solver. Qed.

Lemma dispatch_loop_total ids req pid script r out att n last tried :
  confined ids r -> Forall (attempt_keeps ids) script ->
  (size (ids ∖ att) < length script)%nat ->
  is_Some (dispatch_loop req pid script r out att n last tried).
Proof.
  revert r out att n last tried.
  induction script as [|a script IH]; intros r out att n last tried Hr Hk Hlen; simpl in *; [lia|].
  apply Forall_cons in Hk as [(K1 & K2 & K3) Hk].
  destruct (reserveFiltered _ _ _ _ _ _) as [[node r']|e] eqn:E; [|eauto].
  eapply reserve_confined in E as [Hr' Hnode]; [|done].
  destruct (at_result a) as [d|err]; [eauto|].
  destruct (tk_sent _); [eauto|]. destruct (negb _); [eauto|].
  apply IH; [|done|].
  - apply K3, (confined_record ids (n_ID node) (observation (runTracker a out) (at_end a)) err (at_record a)),
      K2, confined_release, K1, Hr'.
  - pose proof (size_shrinks _ _ _ Hnode). lia.
Qed.

(** C35: a dispatch ends after at most one attempt per node id that can be
    registered while it runs, plus one round that finds no node: as long as the ids
    seen stay within a finite set, a script one longer than the set is enough. *)
Theorem dispatch_terminates ids req pid script r :
  confined ids r -> Forall (attempt_keeps ids) script -> (size ids < length script)%nat ->
  exists oc, DispatchToProvider pid req script r = Some oc
    /\ (length (oc_tried oc) <= size ids)%nat.
Proof.
  intros Hr Hk Hlen. unfold DispatchToProvider.
  destruct (dispatch_loop_total ids req pid script r [] ∅ 0 None []) as [oc Hoc]; [done|done| |].
  { by rewrite difference_empty_L. }
  exists oc. split; [done|].
  assert (H : forall script r out att n last tried oc,
    confined ids r -> Forall (attempt_keeps ids) script ->
    dispatch_loop req pid script r out att n last tried = Some oc ->
    (length (oc_tried oc) <= length tried + size (ids ∖ att))%nat).
  { clear. induction script as [|a script IH]; intros r out att n last tried oc Hr Hk Hrun; [done|].
    simpl in Hrun. apply Forall_cons in Hk as [(K1 & K2 & K3) Hk].
    destruct (reserveFiltered _ _ _ _ _ _) as [[node r']|e] eqn:E; [|injection Hrun as <-; simpl; lia].
    eapply reserve_confined in E as [Hr' Hnode]; [|done].
    pose proof (size_shrinks _ _ _ Hnode).
    assert (Hone : length (tried ++ [(node, snd <$> at_chunks a)]) = S (length tried))
      by (rewrite length_app; simpl; lia).
    destruct (at_result a) as [d|err]; [injection Hrun as <-; simpl; lia|].
    destruct (tk_sent _); [injection Hrun as <-; simpl; lia|].
    destruct (negb _); [injection Hrun as <-; simpl; lia|].
    eapply IH in Hrun; [lia| |done].
    apply K3, (confined_record ids (n_ID node) (observation (runTracker a out) (at_end a)) err (at_record a)),
      K2, confined_release, K1, Hr'. }
  eapply H in Hoc; [|done..]. rewrite difference_empty_L in Hoc. simpl in Hoc. lia.
Qed.

Definition demo_ids : gset string := {["n1"; "n2"]}.

Lemma demo_confined : confined demo_ids demo_registry.
Proof. apply (bool_decide_unpack _). by vm_compute. Qed.

Lemma dispatch_terminates_witness :
  exists oc, DispatchToProvider "" demo_request (replicate 3 (demo_attempt [] (Err demo_failure))) demo_registry = Some oc
    /\ (length (oc_tried oc) <= 2)%nat.
Proof.
  destruct (dispatch_terminates demo_ids demo_request ""
    (replicate 3 (demo_attempt [] (Err demo_failure))) demo_registry) as (oc & H1 & H2).
  - exact demo_confined.
  - apply Forall_replicate. split_and!; intros r Hr; exact Hr.
  - vm_compute. lia.
  - exists oc. split; [exact H1|]. replace (size demo_ids) with 2%nat in H2 by (by vm_compute). exact H2.
Defined.

(** The same loop for embeddings: routing, distinct nodes and termination. *)
Definition embed_keeps (ids : gset string) (a : EmbedAttempt) : Prop :=
  keeps ids (ea_during a) /\ keeps ids (ea_released a) /\ keeps ids (ea_after a).

Lemma embed_loop_spec ids freq script r att n last tried :
  confined ids r -> Forall (embed_keeps ids) script ->
  (size (ids ∖ att) < length script)%nat ->
  NoDup (n_ID <$> tried) -> Forall (fun x => n_ID x ∈ att /\ serves freq "" x) tried ->
  exists eo, embed_loop freq script r att n last tried = Some eo
    /\ NoDup (n_ID <$> eo_tried eo) /\ Forall (serves freq "") (eo_tried eo).
Proof.
  revert r att n last tried.
  induction script as [|a script IH]; intros r att n last tried Hr Hk Hlen Hnd Hs; simpl in *; [lia|].
  apply Forall_cons in Hk as [(K1 & K2 & K3) Hk].
  assert (Hs' : Forall (serves freq "") tried) by (eapply Forall_impl; [done|]; by intros x []).
  destruct (reserveFiltered _ _ _ _ _ _) as [[node r']|e] eqn:E; [|eexists; split; [done|]; done].
  destruct (reserve_serves _ _ _ _ _ _ _ _ E) as (Hserves & Hfresh & _).
  eapply reserve_confined in E as [Hr' Hnode]; [|done].
  assert (Hnd' : NoDup (n_ID <$> tried ++ [node])).
  { rewrite fmap_app. apply NoDup_app. split_and!; [done| |apply NoDup_singleton].
    intros x (y & -> & Hy)%list_elem_of_fmap. simpl. rewrite list_elem_of_singleton. intros Heq.
    rewrite Forall_forall in Hs. destruct (Hs _ Hy) as [Hin _]. by rewrite Heq in Hin. }
  assert (Hsn : Forall (serves freq "") (tried ++ [node])).
  { apply Forall_app. split; [done|]. by apply Forall_singleton. }
  destruct (ea_result a) as [d|err]; [eexists; split; [done|]; done|].
  destruct (negb _); [eexists; split; [done|]; done|].
  apply IH; [|done| |done|].
  - match goal with |- confined _ (ea_after a (recordPreTokenFailure ?k ?e ?t _)) =>
      apply K3, (confined_record ids k {| ob_Latency := 0; ob_TTFT := 0; ob_OutputTokens := 0;
        ob_TokensPerSecond := f0 |} e t), K2, confined_release, K1, Hr' end.
  - pose proof (size_shrinks _ _ _ Hnode). lia.
  - apply Forall_app. split.
    + eapply Forall_impl; [exact Hs|]. intros x [Hx ?]. split; [set_solver|done].
    + apply Forall_singleton. simpl. split; [set_solver|done].
Qed.

(** Dispatching embeddings terminates under the same bound, tries
    each node at most once, and only nodes that serve the model and accept the tier. *)
Theorem embedding_dispatch_total ids req script r :
  confined ids r -> Forall (embed_keeps ids) script -> (size ids < length script)%nat ->
  exists eo, DispatchEmbedding req script r = Some eo
    /\ NoDup (n_ID <$> eo_tried eo) /\ Forall (serves (embedFilter req) "") (eo_tried eo).
Proof.
  intros Hr Hk Hlen. apply (embed_loop_spec ids); try done.
  - by rewrite difference_empty_L.
  - apply NoDup_nil_2.
Qed.

Definition demo_embed_attempt : EmbedAttempt :=
  {| ea_now := demo_now; ea_order := ["n2"; "n1"]; ea_start := demo_now; ea_result := Err demo_failure;
     ea_during := id; ea_end := demo_now; ea_released := id; ea_record := demo_now; ea_ctxErr := false;
     ea_after := id |}.

Definition demo_embed : EmbedRequest := {| er_Model := "m"; er_Input := ["x"]; er_PrivacyTier := "public" |}.

Lemma embedding_dispatch_total_witness :
  exists eo, DispatchEmbedding demo_embed (replicate 3 demo_embed_attempt) demo_registry = Some eo
    /\ NoDup (n_ID <$> eo_tried eo).
Proof.
  destruct (embedding_dispatch_total demo_ids demo_embed (replicate 3 demo_embed_attempt) demo_registry)
    as (eo & H1 & H2 & _).
  - exact demo_confined.
  - apply Forall_replicate. split_and!; intros r Hr; exact Hr.
  - vm_compute. lia.
  - exists eo. split; [exact H1|exact H2].
Defined.
