(* ===== verification/SettlementProofs.v ===== *)
(** * Theorems on the settlement ledger

    The chain is valid in every reachable state, under every store failure; a restart
    reads the same history back; the last hash fixes the whole history; amounts are
    conserved; balances are the sums of the events. *)

From Stdlib Require Import Sorted.
From stdpp Require Import sorting.
From S2P Require Import Prelude GoString GoSort Sha256 Json HashChain Protocol Config Settlement.

(** ** The JSON text determines the index and the previous hash *)

#[export] Instance settlement_laws : ChainLaws Event.
Proof.
  constructor.
  - intros e e' H1 H2. simpl. unfold eventText. rewrite H1, H2. intros Heq Hi Hi'.
    match type of Heq with json_object ((_, _) :: ?fs) = json_object ((_, _) :: ?fs') =>
      destruct (json_object_first "index" (json_int (e_Index e)) fs) as [r Hr]; [done|];
      destruct (json_object_first "index" (json_int (e_Index e')) fs') as [r' Hr']; [done|] end.
    rewrite Hr, Hr' in Heq. by apply int_field_unique in Heq as [? _].
  - intros e e' H1 H2. simpl. unfold eventText. rewrite H1, H2. intros Heq Hd Hd'.
    match type of Heq with
    | json_object [?a1;?a2;?a3;?a4;?a5;?a6;?a7;?a8;?a9;?a10;?a11;?a12;?a13;?a14;?a15;?a16;_;_]
      = json_object [?b1;?b2;?b3;?b4;?b5;?b6;?b7;?b8;?b9;?b10;?b11;?b12;?b13;?b14;?b15;?b16;_;_] =>
      destruct (json_object_last [a1;a2;a3;a4;a5;a6;a7;a8;a9;a10;a11;a12;a13;a14;a15;a16]
        "previous_hash" (e_PreviousHash e) "hash" (json_string "")) as [r Hr]; [done|];
      destruct (json_object_last [b1;b2;b3;b4;b5;b6;b7;b8;b9;b10;b11;b12;b13;b14;b15;b16]
        "previous_hash" (e_PreviousHash e') "hash" (json_string "")) as [r' Hr']; [done|] end.
    pose proof (eq_trans (eq_sym Hr) (eq_trans Heq Hr')) as Heq'. by apply json_string_digest_unique in Heq'.
Qed.

(** ** Reachable ledgers *)

(** One step of a ledger and its store: a record under some clock and store failure, or a
    restart, possibly with another configuration. *)
Inductive ledger_reach : Ledger -> Store -> Prop :=
| lr_start cfg l : New cfg None blank_store = Ok l -> ledger_reach l blank_store
| lr_record l s input now fault r l' s' :
    ledger_reach l s -> Z.of_nat (length (l_events l)) < max_int64 ->
    Record_ input now fault l s = (r, l', s') -> ledger_reach l' s'
| lr_restart l s cfg fault l' : ledger_reach l s -> New cfg fault s = Ok l' -> ledger_reach l' s.

Definition ledger_ok (l : Ledger) : Prop :=
  valid (l_events l) = true /\ l_lastHash l = last_hash genesisHash (l_events l)
  /\ 0 <= l_price l /\ 0 <= l_shareBPS l <= 10000 /\ 0 <= l_latencyPenaltyBPS l <= 10000.

Lemma clampBPS_bounds z : 0 <= clampBPS z <= 10000.
Proof. unfold clampBPS. repeat case_goal; bsimpl; lia. Qed.

(** What loading a list of events does. *)
Lemma fold_load events l :
  fold_left load_step events l
  = l <| l_events ::= fun es => es ++ events |> <| l_lastHash ::= fun h => last_hash h events |>.
Proof.
  revert l. induction events as [|e es IH]; intros l.
  - destruct l. simpl. by rewrite app_nil_r.
  - cbn [fold_left]. rewrite IH. destruct l. unfold load_step. simpl. rewrite last_hash_cons, <- app_assoc. done.
Qed.

Lemma loadEvents_ok events l l' :
  l_events l = [] -> l_lastHash l = genesisHash -> loadEvents events l = Ok l' ->
  valid events = true /\ l' = l <| l_events := events |> <| l_lastHash := last_hash genesisHash events |>.
Proof.
  intros He Hh. unfold loadEvents. rewrite fold_load. destruct l; simpl in He, Hh; subst.
  unfold Verify. simpl. destruct (verify events) as [ok last] eqn:Ev. simpl. case_goal; [|done].
  intros [= <-]. split; [|done]. unfold valid. by rewrite Ev.
Qed.

Lemma loadEvents_valid events l :
  l_events l = [] -> l_lastHash l = genesisHash -> valid events = true ->
  loadEvents events l = Ok (l <| l_events := events |> <| l_lastHash := last_hash genesisHash events |>).
Proof.
  intros He Hh Hv. unfold loadEvents. rewrite fold_load. destruct l; simpl in He, Hh; subst.
  unfold Verify. simpl. unfold valid in Hv. destruct (verify events) as [ok last]. simpl in *. by rewrite Hv.
Qed.

Lemma New_ledger_ok cfg fault s l : New cfg fault s = Ok l -> ledger_ok l.
Proof.
  unfold New. set (l0 := {| l_enabled := _ |}).
  assert (Hl0 : ledger_ok l0).
  { unfold ledger_ok, l0; simpl. split_and!; try done; try apply clampBPS_bounds. case_goal; bsimpl; lia. }
  assert (Hload : forall events l', loadEvents events l0 = Ok l' -> ledger_ok l').
  { intros events l' H. apply loadEvents_ok in H as (Hv & ->); [|done|done].
    destruct Hl0 as (_ & _ & H1 & H2 & H3). exact (conj Hv (conj eq_refl (conj H1 (conj H2 H3)))). }
  repeat case_goal; try done.
  - apply Hload.
  - unfold load. destruct (s_lines s) as [lines|]; [|by intros [= <-]].
    destruct (decode_lines lines) as [events|]; [|done]. by eapply Hload.
  - by intros [= <-].
Qed.

Lemma newEvent_chain l input now :
  ledger_ok l -> Z.of_nat (length (l_events l)) < max_int64 ->
  valid (l_events l ++ [newEvent l input now]) = true.
Proof.
  intros (Hv & Hh & _) Hlen. apply valid_snoc. split; [done|]. split; [|by split].
  change (Z.of_nat (length (l_events l)) +w 1 = Z.of_nat (length (l_events l)) + 1). apply add64_id. ilia.
Qed.

Lemma Record_cases input now fault l s r l' s' :
  Record_ input now fault l s = (r, l', s') ->
  (l' = l /\ (r = Ok None \/ exists e, r = Err e))
  \/ (r = Ok (Some (newEvent l input now)) /\ l_enabled l = true
      /\ l' = l <| l_events ::= fun es => es ++ [newEvent l input now] |>
              <| l_lastHash := e_Hash (newEvent l input now) |>).
Proof.
  unfold Record_. destruct (l_enabled l); simpl; [|intros [= <- <- <-]; left; eauto].
  destruct (if l_db l then _ else _) as [[err|] s0]; intros [= <- <- <-]; [left; eauto|right; done].
Qed.

Lemma Record_ok input now fault l s r l' s' :
  ledger_ok l -> Z.of_nat (length (l_events l)) < max_int64 ->
  Record_ input now fault l s = (r, l', s') -> ledger_ok l'.
Proof.
  intros Hok Hlen [[-> _]|(_ & _ & ->)]%Record_cases; [done|].
  pose proof (newEvent_chain l input now Hok Hlen) as Hv. destruct Hok as (_ & _ & H1 & H2 & H3).
  split; [exact Hv|]. split; [|exact (conj H1 (conj H2 H3))].
  symmetry. exact (last_hash_snoc genesisHash (l_events l) (newEvent l input now)).
Qed.

Lemma ledger_reach_ok l s : ledger_reach l s -> ledger_ok l.
Proof.
  induction 1 as [cfg l H|l s input now fault r l' s' _ IH Hlen H|l s cfg fault l' _ _ H].
  - by eapply New_ledger_ok.
  - by eapply Record_ok.
  - by eapply New_ledger_ok.
Qed.

(** C6: in every state that starts, records and restarts reach,
    under every store failure, [Verify] reports a valid chain ending in the hash the next
    event will refer to. *)
Theorem settlement_chain_valid l s :
  ledger_reach l s ->
  Verify l = {| vf_Valid := true; vf_Events := Z.of_nat (length (l_events l)); vf_LastHash := l_lastHash l; vf_Error := false |}.
Proof.
  intros (Hv & Hh & _)%ledger_reach_ok. unfold Verify. pose proof (valid_last _ Hv) as Hlast.
  unfold valid in Hv. destruct (verify (l_events l)) as [ok last]. simpl in *. subst. by rewrite Hh.
Qed.

(** ** Restart *)

(** A failure that leaves the store as it was.  A transaction always does. *)
Definition clean_fault (l : Ledger) (fault : StoreFault) : Prop :=
  l_db l = true \/ clean_file_fault fault.

Inductive clean_reach (cfg : SettlementConfig) : Ledger -> Store -> Prop :=
| cl_start l : New cfg None blank_store = Ok l -> clean_reach cfg l blank_store
| cl_record l s input now fault r l' s' :
    clean_reach cfg l s -> Z.of_nat (length (l_events l)) < max_int64 -> clean_fault l fault ->
    Record_ input now fault l s = (r, l', s') -> clean_reach cfg l' s'
| cl_restart l s l' : clean_reach cfg l s -> New cfg None s = Ok l' -> clean_reach cfg l' s.

Lemma clean_reach_reach cfg l s : clean_reach cfg l s -> ledger_reach l s.
Proof. induction 1; [by eapply lr_start|by eapply lr_record|by eapply lr_restart]. Qed.

Definition indexed (e : Event) : Z * Event := (e_Index e, e).

(** The store holds the ledger's events, where the configuration keeps them. *)
Definition stored (l : Ledger) (s : Store) : Prop :=
  if l_db l then map_to_list (s_table s) ≡ₚ indexed <$> l_events l
  else l_path l <> "" -> default [] (s_lines s) = Ok <$> l_events l.

(** The parameters come from the configuration. *)
Definition configured (cfg : SettlementConfig) (l : Ledger) : Prop :=
  l_db l = negb (sc_SQLitePath cfg =s "") /\ l_path l = sc_ChainPath cfg.

Lemma table_rows_stored s events :
  valid events = true -> map_to_list (s_table s) ≡ₚ indexed <$> events -> table_rows s = events.
Proof.
  intros Hv Hp. unfold table_rows. set (less := fun a b : Z * Event => a.1 <? b.1).
  replace (sort_slice less (map_to_list (s_table s))) with (indexed <$> events).
  { rewrite <- list_fmap_compose. by apply list_fmap_id. }
  symmetry. apply (sorted_perm_unique less).
  - apply (sort_slice_sorted less (fun _ => True)); [| |by apply Forall_true].
    + unfold less. intros a b _ _. lia.
    + unfold le_of, less. intros a b c _ _ _. lia.
  - eapply StronglySorted_fmap; [|apply (valid_sorted _ Hv)]. unfold le_of, less. simpl. intros x y. lia.
  - by rewrite sort_slice_perm.
  - intros a b Ha Hb Hab Hba. rewrite sort_slice_perm, Hp in Ha, Hb.
    rewrite <- Hp in Ha, Hb. destruct a as [i a], b as [j b]. rewrite !elem_of_map_to_list in *.
    unfold le_of, less in *. simpl in *. assert (i = j) as -> by lia. congruence.
Qed.

Lemma stored_record l s input now fault r l' s' :
  ledger_ok l -> Z.of_nat (length (l_events l)) < max_int64 -> clean_fault l fault -> stored l s ->
  Record_ input now fault l s = (r, l', s') -> stored l' s'.
Proof.
  intros Hok Hlen Hcl Hst. unfold Record_. destruct (l_enabled l); simpl; [|by intros [= <- <- <-]].
  set (e := newEvent l input now). unfold stored, clean_fault in *. destruct (l_db l) eqn:Edb.
  - unfold insertSQLiteEvent. destruct fault; try (intros [= <- <- <-]; by rewrite Edb).
    destruct (bool_decide _ || _) eqn:E; intros [= <- <- <-]; simpl; rewrite ?Edb; [done|].
    apply orb_false_iff in E as [E _]. apply bool_decide_eq_false in E. rewrite <- eq_None_not_Some in E.
    rewrite map_to_list_insert, Hst, fmap_app by exact E. simpl. by rewrite (Permutation_app_comm _ [indexed e]).
  - destruct Hcl as [|Hcl]; [done|]. destruct (l_path l =s "") eqn:Ep; simpl.
    + apply str_eqb_true in Ep. intros [= <- <- <-]. simpl. rewrite ?Edb. done.
    + apply str_eqb_false in Ep. specialize (Hst Ep). unfold appendEvent.
      destruct (append_to_file fault e (s_lines s)) as [err lines] eqn:Ea.
      pose proof (append_to_file_clean _ _ _ _ _ _ Hcl Hst Ea) as Hnew.
      destruct err as [err|]; intros [= <- <- <-]; simpl; rewrite ?Edb; intros _; exact Hnew.
Qed.

Lemma New_configured cfg fault s l : New cfg fault s = Ok l -> configured cfg l.
Proof.
  unfold New. set (l0 := {| l_enabled := _ |}). assert (H0 : configured cfg l0) by done.
  assert (Hload : forall events l', loadEvents events l0 = Ok l' -> configured cfg l').
  { intros events l' H. apply loadEvents_ok in H as (_ & ->); done. }
  repeat case_goal; try done; [apply Hload| |by intros [= <-]].
  unfold load. destruct (s_lines s) as [lines|]; [|by intros [= <-]].
  destruct (decode_lines lines) as [events|]; [|done]. by eapply Hload.
Qed.

(** Starting on a store that holds a valid history reads that history. *)
Lemma New_stored cfg l s :
  ledger_ok l -> configured cfg l -> stored l s -> (sc_SQLitePath cfg <> "" \/ sc_ChainPath cfg <> "") ->
  exists l', New cfg None s = Ok l' /\ l_events l' = l_events l /\ l_lastHash l' = l_lastHash l.
Proof.
  intros (Hv & Hh & _) (Hdb & Hpath) Hst Hsome. unfold New, stored in *. rewrite Hdb in Hst.
  destruct (sc_SQLitePath cfg =s "") eqn:Es; simpl in *; rewrite ?Es; simpl.
  - apply str_eqb_true in Es. destruct Hsome as [|Hsome]; [done|].
    rewrite (proj2 (str_eqb_false _ _) Hsome). simpl. rewrite Hpath in Hst. specialize (Hst Hsome).
    unfold load. destruct (s_lines s) as [lines|]; simpl in Hst.
    + rewrite Hst, decode_lines_ok, loadEvents_valid by done. eexists. split; [done|]. by rewrite Hh.
    + eexists. split; [done|]. simpl. rewrite Hh. destruct (l_events l); [done|]. discriminate.
  - rewrite (table_rows_stored _ _ Hv Hst), loadEvents_valid by done. eexists. split; [done|]. by rewrite Hh.
Qed.

Lemma clean_reach_stored cfg l s :
  clean_reach cfg l s -> configured cfg l /\ (sc_SQLitePath cfg <> "" \/ sc_ChainPath cfg <> "" -> stored l s).
Proof.
  induction 1 as [l H|l s input now fault r l' s' Hr [IHc IHs] Hlen Hcl H|l s l' Hr [IHc IHs] H].
  - pose proof (New_configured _ _ _ _ H) as Hc. split; [done|]. intros Hsome. revert H. unfold New.
    destruct (sc_SQLitePath cfg =s "") eqn:Es; simpl; rewrite ?Es; simpl.
    + destruct (sc_ChainPath cfg =s ""); simpl; intros [= <-]; unfold stored; simpl; by rewrite ?Es.
    + intros [_ ->]%loadEvents_ok; [|done|done]. unfold stored. simpl. rewrite ?Es. done.
  - pose proof (ledger_reach_ok _ _ (clean_reach_reach _ _ _ Hr)) as Hok. split.
    + destruct (Record_cases _ _ _ _ _ _ _ _ H) as [[-> _]|(_ & _ & ->)]; done.
    + intros Hsome. eapply stored_record; eauto.
  - pose proof (New_configured _ _ _ _ H) as Hc. split; [done|]. intros Hsome.
    destruct (New_stored cfg l s (ledger_reach_ok _ _ (clean_reach_reach _ _ _ Hr)) IHc (IHs Hsome) Hsome)
      as (l2 & H2 & He & _). rewrite H in H2. injection H2 as <-.
    specialize (IHs Hsome). destruct IHc as [Hd1 Hp1], Hc as [Hd2 Hp2]. unfold stored in *. by rewrite Hd2, Hp2, He, <- Hd1, <- Hp1.
Qed.

(** As long as no store failure leaves a line half written or written but
    reported as failed, a ledger started on the store holds the same events and the
    same last hash, for the chain file and for the SQLite table alike. *)
Theorem settlement_restart cfg l s :
  clean_reach cfg l s -> sc_SQLitePath cfg <> "" \/ sc_ChainPath cfg <> "" ->
  exists l', New cfg None s = Ok l' /\ l_events l' = l_events l /\ l_lastHash l' = l_lastHash l.
Proof.
  intros Hr Hsome. destruct (clean_reach_stored _ _ _ Hr) as [Hc Hs].
  apply New_stored; [|done|by apply Hs|done]. by eapply ledger_reach_ok, clean_reach_reach.
Qed.

(** ** Tampering *)

(** Instants the JSON encoder can write. *)
Definition times_ok (l : list Event) : Prop := Forall (fun e => time_in_range (e_RecordedAt e) = true) l.

(** Histories shorter than 2^63 events. *)
Definition chain_fits {A} (l : list A) : Prop := Z.of_nat (length l) <= max_int64.

(** Two valid histories with the same last hash, such as the
    ledger now and the one an anchor was published for, have the same JSON text event by
    event, unless some event of one and some event of the other are a concrete SHA-256
    collision. *)
Theorem settlement_history_anchored l1 l2 :
  times_ok (l_events l1) -> times_ok (l_events l2) -> chain_fits (l_events l1) -> chain_fits (l_events l2) ->
  vf_Valid (Verify l1) = true -> vf_Valid (Verify l2) = true -> vf_LastHash (Verify l1) = vf_LastHash (Verify l2) ->
  eventText <$> l_events l1 = eventText <$> l_events l2
  \/ exists e1 e2, e1 ∈ l_events l1 /\ e2 ∈ l_events l2 /\ eventText e1 <> eventText e2 /\ hashEvent e1 = hashEvent e2.
Proof.
  intros Ht1 Ht2 Hf1 Hf2. unfold Verify.
  destruct (verify (l_events l1)) as [ok1 h1] eqn:E1, (verify (l_events l2)) as [ok2 h2] eqn:E2. simpl.
  intros -> -> ->.
  cut (ev_text <$> l_events l1 = ev_text <$> l_events l2 \/ collision (l_events l1) (l_events l2)); [done|].
  assert (V1 : valid (l_events l1) = true) by (unfold valid; by rewrite E1).
  assert (V2 : valid (l_events l2) = true) by (unfold valid; by rewrite E2).
  apply anchored_history; [exact Ht1|exact Ht2|exact Hf1|exact Hf2|exact V1|exact V2|]. rewrite <- !valid_last by done. by rewrite E1, E2.
Qed.

(** ** Amounts *)

(** The products of a charge stay within 64 bits. *)
Definition amounts_fit (l : Ledger) (input : RecordInput) : Prop :=
  let tokens := id_PromptTokens (ri_Done input) + id_OutputTokens (ri_Done input) in
  0 <= tokens <= max_int64 /\ tokens * l_price l <= max_int64 /\ tokens * l_price l / 1000 * 10000 <= max_int64.

(** What one event charges: the price of its tokens rounded down, split between the
    provider's net reward, the latency penalty and the rest. *)
Definition charge_ok (l : Ledger) (e : Event) : Prop :=
  e_TotalTokens e = e_PromptTokens e + e_CompletionTokens e
  /\ e_PriceMicros e = (e_PromptTokens e + e_CompletionTokens e) * l_price l / 1000
  /\ 0 <= e_ProviderRewardMicros e /\ 0 <= e_ProviderPenaltyMicros e
  /\ e_ProviderRewardMicros e + e_ProviderPenaltyMicros e = e_PriceMicros e * l_shareBPS l / 10000
  /\ e_ProviderRewardMicros e + e_ProviderPenaltyMicros e <= e_PriceMicros e
  /\ (e_LatencyMs e <= l_targetLatencyMs l \/ l_targetLatencyMs l <= 0 -> e_ProviderPenaltyMicros e = 0)
  /\ (0 < l_targetLatencyMs l < e_LatencyMs e ->
      e_ProviderPenaltyMicros e = (e_PriceMicros e * l_shareBPS l / 10000) * l_latencyPenaltyBPS l / 10000).

Lemma scaled_bps a b : 0 <= a -> 0 <= b <= 10000 -> a * 10000 <= max_int64 ->
  a *w b /w 10000 = a * b / 10000 /\ 0 <= a * b / 10000 <= a.
Proof.
  intros Ha Hb Hfit. assert (a * b <= a * 10000) by (apply Z.mul_le_mono_nonneg_l; lia).
  assert (0 <= a * b) by (apply Z.mul_nonneg_nonneg; lia).
  rewrite mul64_id by ilia. unfold quo64. rewrite Z.quot_div_nonneg by lia. split; [done|]. split.
  - apply Z.div_pos; lia.
  - apply Z.div_le_upper_bound; lia.
Qed.

Lemma priceFor_exact l tokens :
  0 <= l_price l -> 0 <= tokens -> tokens * l_price l <= max_int64 -> priceFor l tokens = tokens * l_price l / 1000.
Proof.
  intros Hp Ht Hfit. unfold priceFor. assert (0 <= tokens * l_price l) by (apply Z.mul_nonneg_nonneg; lia).
  destruct (tokens <=? 0) eqn:E1; bsimpl; simpl.
  - replace tokens with 0 by lia. done.
  - destruct (l_price l <=? 0) eqn:E2; bsimpl.
    + replace (l_price l) with 0 by lia. by rewrite Z.mul_0_r.
    + rewrite mul64_id by ilia. unfold quo64. by rewrite Z.quot_div_nonneg by lia.
Qed.

Lemma penaltyFor_exact l reward latency :
  0 <= reward -> reward * 10000 <= max_int64 -> 0 <= l_latencyPenaltyBPS l <= 10000 ->
  0 <= penaltyFor l reward latency <= reward
  /\ (latency <= l_targetLatencyMs l \/ l_targetLatencyMs l <= 0 -> penaltyFor l reward latency = 0)
  /\ (0 < l_targetLatencyMs l < latency -> penaltyFor l reward latency = reward * l_latencyPenaltyBPS l / 10000).
Proof.
  intros Hr Hfit Hb. destruct (scaled_bps reward _ Hr Hb Hfit) as [Heq Hbound]. unfold penaltyFor.
  destruct (reward <=? 0) eqn:E1; bsimpl; simpl.
  { replace reward with 0 in * by lia. split; [lia|]. split; [done|]. by rewrite Z.mul_0_l. }
  destruct (l_targetLatencyMs l <=? 0) eqn:E2; bsimpl; simpl; [split_and!; lia|].
  destruct (l_latencyPenaltyBPS l <=? 0) eqn:E3; bsimpl; simpl.
  { replace (l_latencyPenaltyBPS l) with 0 by lia. rewrite Z.mul_0_r. split_and!; done || lia. }
  destruct (latency <=? l_targetLatencyMs l) eqn:E4; bsimpl; [split_and!; lia|].
  rewrite Heq. split_and!; done || lia.
Qed.

Lemma newEvent_charge l input now : ledger_ok l -> amounts_fit l input -> charge_ok l (newEvent l input now).
Proof.
  intros (_ & _ & Hp & Hs & Hl) (Ht & Hfit & Hfit2). unfold charge_ok, newEvent. simpl.
  rewrite (add64_id (id_PromptTokens _)) by ilia. rewrite (priceFor_exact l) by lia.
  set (price := _ * l_price l / 1000) in *.
  assert (Hprice : 0 <= price) by (apply Z.div_pos; [apply Z.mul_nonneg_nonneg|]; lia).
  destruct (scaled_bps price (l_shareBPS l) Hprice Hs Hfit2) as [-> [Hr0 Hr1]].
  set (reward := price * l_shareBPS l / 10000) in *.
  destruct (penaltyFor_exact l reward (duration_ms (ri_Latency input))) as ([Hp0 Hp1] & Hz & Hx); [done|lia|done|].
  rewrite sub64_id by ilia. split_and!; try done; try lia.
Qed.

(** C27: as long as the products fit 64 bits, every event a ledger records
    charges the token price rounded down; reward and penalty are never negative and together
    are the provider's share, so they never exceed the price; and the penalty is due
    exactly when the latency is above a positive target. *)
Theorem settlement_amounts l s input now fault e l' s' :
  ledger_reach l s -> amounts_fit l input -> Record_ input now fault l s = (Ok (Some e), l', s') ->
  charge_ok l e /\ l_events l' = l_events l ++ [e].
Proof.
  intros Hr Hfit [[_ [H|[? H]]]|(H & _ & ->)]%Record_cases; [discriminate H|discriminate H|].
  injection H as ->. split; [|done]. apply newEvent_charge; [by eapply ledger_reach_ok|done].
Qed.

(** ** Balances *)

(** The events of one account, and the wrapped sum of an amount over them. *)
Definition of_account (who : Event -> string) (a : string) (events : list Event) : list Event :=
  filter (fun e => who e = a) events.

Definition wrapped_sum (f : Event -> Z) (events : list Event) : Z := wrap64 (foldr (fun e acc => f e + acc) 0 events).

Lemma wrapped_sum_snoc f l e : wrapped_sum f (l ++ [e]) = wrapped_sum f l +w f e.
Proof.
  unfold wrapped_sum, add64. rewrite foldr_app. simpl. rewrite wrap64_add. f_equal.
  generalize (f e) as z. intros z. induction l as [|x l IH]; simpl; [lia|]. lia.
Qed.

(** An account's row: present when it has events, with the sums of their amounts. *)
Definition row_ok (who : Event -> string) (debit reward penalty : Event -> Z) (events : list Event)
    (items : gmap string Balance) : Prop :=
  forall a, match items !! a with
    | Some b => a <> "" /\ b_AccountID b = a /\ of_account who a events <> []
        /\ b_Events b = wrapped_sum (fun _ => 1) (of_account who a events)
        /\ b_TotalTokens b = wrapped_sum e_TotalTokens (of_account who a events)
        /\ b_DebitMicros b = wrapped_sum debit (of_account who a events)
        /\ b_RewardMicros b = wrapped_sum reward (of_account who a events)
        /\ b_PenaltyMicros b = wrapped_sum penalty (of_account who a events)
    | None => a = "" \/ of_account who a events = []
    end.

Lemma of_account_snoc who a l e :
  of_account who a (l ++ [e]) = of_account who a l ++ (if decide (who e = a) then [e] else []).
Proof. unfold of_account. by rewrite filter_app. Qed.

(** One more event updates exactly its account's row. *)
Lemma row_ok_step who debit reward penalty f l e items :
  (forall b, in_int64 (b_DebitMicros b) -> in_int64 (b_RewardMicros b) -> in_int64 (b_PenaltyMicros b) ->
     b_AccountID (f b) = b_AccountID b /\ b_Events (f b) = b_Events b +w 1
     /\ b_TotalTokens (f b) = b_TotalTokens b +w e_TotalTokens e /\ b_DebitMicros (f b) = b_DebitMicros b +w debit e
     /\ b_RewardMicros (f b) = b_RewardMicros b +w reward e /\ b_PenaltyMicros (f b) = b_PenaltyMicros b +w penalty e) ->
  row_ok who debit reward penalty l items -> row_ok who debit reward penalty (l ++ [e]) (addTo (who e) f items).
Proof.
  intros Hf Hrow a. specialize (Hrow a). rewrite of_account_snoc. unfold addTo.
  destruct (decide (who e = a)) as [Ha|Hne].
  2: { rewrite app_nil_r. destruct (who e =s ""); [done|]. by rewrite lookup_insert_ne. }
  rewrite Ha. destruct (a =s "") eqn:Ee.
  - apply str_eqb_true in Ee. destruct (items !! a) as [b|]; [by destruct Hrow|by left].
  - apply str_eqb_false in Ee. rewrite lookup_insert_eq. rewrite !wrapped_sum_snoc.
    destruct (items !! a) as [b|]; simpl.
    + destruct Hrow as (_ & H1 & H2 & <- & <- & Hd & Hr & Hp).
      destruct (Hf b) as (-> & -> & -> & -> & -> & ->); [rewrite ?Hd, ?Hr, ?Hp; apply wrap64_range..|].
      rewrite <- Hd, <- Hr, <- Hp. split_and!; try done. by destruct (of_account who a l).
    + destruct Hrow as [|Hnil]; [done|]. rewrite Hnil.
      destruct (Hf (empty_Balance a)) as (-> & -> & -> & -> & -> & ->); [simpl; ilia..|]. split_and!; done.
Qed.

Definition zero_amount (e : Event) : Z := 0.

Lemma balances_rows events :
  exists consumers providers,
    balances events = (balanceValues consumers, balanceValues providers)
    /\ row_ok e_ConsumerID e_PriceMicros zero_amount zero_amount events consumers
    /\ row_ok e_ProviderID zero_amount e_ProviderRewardMicros e_ProviderPenaltyMicros events providers.
Proof.
  unfold balances. set (step := fun cp event => _).
  assert (H : row_ok e_ConsumerID e_PriceMicros zero_amount zero_amount events (fst (fold_left step events (∅, ∅)))
    /\ row_ok e_ProviderID zero_amount e_ProviderRewardMicros e_ProviderPenaltyMicros events
         (snd (fold_left step events (∅, ∅)))).
  { induction events as [|e l [IH1 IH2]] using rev_ind.
    - split; intros a; simpl; rewrite lookup_empty; by right.
    - rewrite fold_left_app. simpl. split; apply row_ok_step; try done; intros b Hd Hr Hp; unfold zero_amount; split_and!; try done.
      all: by rewrite add64_id, Z.add_0_r by by rewrite Z.add_0_r. }
  destruct (fold_left step events (∅, ∅)) as [consumers providers]. simpl in H. by exists consumers, providers.
Qed.

Lemma row_ok_values who debit reward penalty events items b :
  row_ok who debit reward penalty events items ->
  b ∈ balanceValues items -> items !! b_AccountID b = Some b.
Proof.
  intros Hrow Hb. unfold balanceValues in Hb. rewrite elem_of_sort_by, list_elem_of_fmap in Hb.
  destruct Hb as ([a b'] & -> & Hin%elem_of_map_to_list). simpl in *.
  specialize (Hrow a). rewrite Hin in Hrow. destruct Hrow as (_ & -> & _). done.
Qed.

Lemma row_ok_listed who debit reward penalty events items a b :
  row_ok who debit reward penalty events items -> items !! a = Some b -> b ∈ balanceValues items.
Proof.
  intros Hrow Hb. unfold balanceValues. rewrite elem_of_sort_by, list_elem_of_fmap.
  exists (a, b). by rewrite elem_of_map_to_list.
Qed.

(** The balances of a snapshot have one row for each consumer and each
    provider with an event and for no other account; a row's tokens, debit, reward and
    penalty are the 64-bit sums of that account's events. *)
Theorem settlement_balances limit l a :
  a <> "" ->
  let sn := Snapshot limit l in
  ((exists b, b ∈ ls_ConsumerBalances sn /\ b_AccountID b = a) <-> exists e, e ∈ l_events l /\ e_ConsumerID e = a)
  /\ ((exists b, b ∈ ls_ProviderBalances sn /\ b_AccountID b = a) <-> exists e, e ∈ l_events l /\ e_ProviderID e = a)
  /\ (forall b, b ∈ ls_ConsumerBalances sn -> b_AccountID b = a ->
        b_DebitMicros b = wrapped_sum e_PriceMicros (of_account e_ConsumerID a (l_events l))
        /\ b_TotalTokens b = wrapped_sum e_TotalTokens (of_account e_ConsumerID a (l_events l)))
  /\ (forall b, b ∈ ls_ProviderBalances sn -> b_AccountID b = a ->
        b_RewardMicros b = wrapped_sum e_ProviderRewardMicros (of_account e_ProviderID a (l_events l))
        /\ b_PenaltyMicros b = wrapped_sum e_ProviderPenaltyMicros (of_account e_ProviderID a (l_events l))).
Proof.
  intros Ha. unfold Snapshot. destruct (balances_rows (l_events l)) as (cs & ps & -> & Hc & Hp). simpl.
  assert (Hiff : forall who debit reward penalty items, row_ok who debit reward penalty (l_events l) items ->
    (exists b, b ∈ balanceValues items /\ b_AccountID b = a) <-> exists e, e ∈ l_events l /\ who e = a).
  { intros who debit reward penalty items Hrow. split.
    - intros (b & Hb & <-). eapply row_ok_values in Hb; [|done]. specialize (Hrow (b_AccountID b)). rewrite Hb in Hrow.
      destruct Hrow as (_ & _ & Hne & _). unfold of_account in Hne. destruct (filter _ _) as [|e r] eqn:Ef; [done|].
      assert (He : e ∈ filter (fun e => who e = b_AccountID b) (l_events l)) by (rewrite Ef; left).
      apply list_elem_of_filter in He as [? ?]. eauto.
    - intros (e & He & Hw). specialize (Hrow a) as Hra. destruct (items !! a) as [b|] eqn:Eb.
      + exists b. split; [by eapply row_ok_listed|]. by destruct Hra as (_ & ? & _).
      + destruct Hra as [|Hnil]; [done|]. exfalso.
        assert (e ∈ of_account who a (l_events l)) as Hin by (unfold of_account; by apply list_elem_of_filter).
        rewrite Hnil in Hin. by apply not_elem_of_nil in Hin. }
  split_and!; [by eapply Hiff|by eapply Hiff|..].
  - intros b Hb <-. eapply row_ok_values in Hb; [|done]. specialize (Hc (b_AccountID b)). rewrite Hb in Hc.
    by destruct Hc as (_ & _ & _ & _ & ? & ? & _ & _).
  - intros b Hb <-. eapply row_ok_values in Hb; [|done]. specialize (Hp (b_AccountID b)). rewrite Hb in Hp.
    by destruct Hp as (_ & _ & _ & _ & _ & _ & ? & ?).
Qed.

(** ** Witnesses *)

Definition demo_settlement : SettlementConfig :=
  {| sc_Enabled := true; sc_ChainPath := "chain.jsonl"; sc_SQLitePath := ""; sc_PricePerThousandTokensMicros := 1500;
     sc_ProviderRewardShareBPS := 8000; sc_TargetLatencyMs := 2000; sc_LatencyPenaltyBPS := 1000 |}.

Definition demo_input (consumer : string) (latency : Z) : RecordInput :=
  {| ri_RequestID := "req-1"; ri_ConsumerID := consumer; ri_ProviderID := "home"; ri_NodeID := "n1";
     ri_Model := "llama"; ri_PrivacyTier := "public";
     ri_Done := {| id_FinishReason := "stop"; id_PromptTokens := 1200; id_OutputTokens := 800; id_KeyID := ""; id_Signature := "" |};
     ri_Latency := latency; ri_DispatchAttempts := 1 |}.

Definition demo_time : Time := 63844847999 * second.

Definition fresh_ledger : Ledger :=
  match New demo_settlement None blank_store with Ok l => l
  | Err _ => {| l_enabled := false; l_path := ""; l_sqlitePath := ""; l_db := false; l_price := 0; l_shareBPS := 0;
                l_targetLatencyMs := 0; l_latencyPenaltyBPS := 0; l_events := []; l_lastHash := "" |} end.

Lemma fresh_ledger_new : New demo_settlement None blank_store = Ok fresh_ledger.
Proof. reflexivity. Qed.

Definition after_one : res LedgerError (option Event) * Ledger * Store :=
  Record_ (demo_input "ana" (3000 * millisecond)) demo_time NoFault fresh_ledger blank_store.
Definition after_two : res LedgerError (option Event) * Ledger * Store :=
  Record_ (demo_input "bob" (1000 * millisecond)) (demo_time + second) NoFault (snd (fst after_one)) (snd after_one).

Lemma demo_clean : clean_reach demo_settlement (snd (fst after_two)) (snd after_two).
Proof.
  apply (cl_record _ (snd (fst after_one)) (snd after_one) (demo_input "bob" (1000 * millisecond))
    (demo_time + second) NoFault (fst (fst after_two))); [|vm_compute; reflexivity|by right|].
  - apply (cl_record _ fresh_ledger blank_store (demo_input "ana" (3000 * millisecond)) demo_time NoFault
      (fst (fst after_one))); [apply cl_start, fresh_ledger_new|vm_compute; reflexivity|by right|].
    unfold after_one. by destruct (Record_ _ _ _ _ _) as [[]].
  - unfold after_two. by destruct (Record_ _ _ _ _ _) as [[]].
Qed.

Lemma settlement_chain_valid_witness :
  vf_Valid (Verify (snd (fst after_two))) = true /\ vf_Events (Verify (snd (fst after_two))) = 2.
Proof.
  rewrite (settlement_chain_valid (snd (fst after_two)) (snd after_two)).
  - split; [reflexivity|vm_compute; reflexivity].
  - eapply clean_reach_reach, demo_clean.
Defined.

Lemma settlement_restart_witness :
  exists l', New demo_settlement None (snd after_two) = Ok l' /\ l_events l' = l_events (snd (fst after_two))
    /\ length (l_events l') = 2%nat.
Proof.
  destruct (settlement_restart demo_settlement (snd (fst after_two)) (snd after_two)) as (l' & H1 & H2 & _).
  - apply demo_clean.
  - right. discriminate.
  - exists l'. split; [exact H1|]. split; [exact H2|]. rewrite H2. vm_compute. reflexivity.
Defined.

(** A second history with other tokens in its first event: the anchors differ. *)
Definition other_one : res LedgerError (option Event) * Ledger * Store :=
  Record_ (demo_input "eve" (3000 * millisecond)) demo_time NoFault fresh_ledger blank_store.

Lemma settlement_history_anchored_witness :
  eventText <$> l_events (snd (fst after_one)) = eventText <$> l_events (snd (fst after_one))
  /\ vf_LastHash (Verify (snd (fst after_one))) <> vf_LastHash (Verify (snd (fst other_one))).
Proof.
  assert (Ht : times_ok (l_events (snd (fst after_one)))) by (apply (bool_decide_unpack _); vm_compute; reflexivity).
  assert (Hf : chain_fits (l_events (snd (fst after_one)))) by (vm_compute; discriminate).
  assert (Hv : vf_Valid (Verify (snd (fst after_one))) = true) by (vm_compute; reflexivity).
  split.
  - destruct (settlement_history_anchored _ _ Ht Ht Hf Hf Hv Hv eq_refl) as [H|(e1 & e2 & H1 & H2 & H3 & _)]; [exact H|].
    exfalso. apply H3. assert (Hall : Forall (fun e => eventText e = eventText (newEvent fresh_ledger (demo_input "ana" (3000 * millisecond)) demo_time))
      (l_events (snd (fst after_one)))) by (apply Forall_singleton; reflexivity).
    rewrite Forall_forall in Hall. by rewrite (Hall e1 H1), (Hall e2 H2).
  - vm_compute. discriminate.
Defined.

Lemma demo_amounts_fit : amounts_fit fresh_ledger (demo_input "ana" (3000 * millisecond)).
Proof. unfold amounts_fit. vm_compute. split_and!; discriminate. Qed.

Lemma settlement_amounts_witness :
  exists e l' s', after_one = (Ok (Some e), l', s') /\ e_PriceMicros e = 3000 /\ e_ProviderRewardMicros e = 2160
    /\ e_ProviderPenaltyMicros e = 240 /\ charge_ok fresh_ledger e.
Proof.
  eexists _, _, _. split; [reflexivity|]. split; [vm_compute; reflexivity|]. split; [vm_compute; reflexivity|].
  split; [vm_compute; reflexivity|].
  eapply (settlement_amounts fresh_ledger blank_store _ demo_time NoFault).
  - eapply lr_start, fresh_ledger_new.
  - apply demo_amounts_fit.
  - reflexivity.
Defined.

Lemma settlement_balances_witness :
  exists b, b ∈ ls_ConsumerBalances (Snapshot 0 (snd (fst after_two))) /\ b_AccountID b = "ana" /\ b_DebitMicros b = 3000.
Proof.
  destruct (settlement_balances 0 (snd (fst after_two)) "ana") as (H1 & _ & H3 & _); [discriminate|].
  destruct (proj2 H1) as (b & Hb & Ha).
  - eexists. split; [left|reflexivity].
  - exists b. split; [exact Hb|]. split; [exact Ha|]. destruct (H3 b Hb Ha) as [-> _]. vm_compute. reflexivity.
Defined.

(** When [Sync] fails after the line was written, the ledger does not advance but the file
    did: the next record repeats the index, and the ledger no longer starts. *)
Theorem sync_failure_breaks_chain :
  let failed := Record_ (demo_input "ana" 0) demo_time (AfterWrite "sync") fresh_ledger blank_store in
  let next := Record_ (demo_input "bob" 0) demo_time NoFault (snd (fst failed)) (snd failed) in
  is_ok (fst (fst next)) = true /\ New demo_settlement None (snd next) = Err ErrInvalidChain.
Proof. vm_compute. split; reflexivity. Qed.
