(* ===== verification/Challenge.v ===== *)
(** * The challenge ledger: [internal/challenge/ledger.go]

    The second hash chain of the program, over benchmark results, kept in a file of
    lines (no SQLite).  It shares [HashChain.v]'s verification with the settlement
    ledger; what is its own is the clamped score and the summary per provider. *)

From S2P Require Import Prelude GoString GoSort Sha256 Json HashChain Config.

(** ** Data *)

(** [src/internal/challenge/ledger.go:31-39] RecordInput *)
Record ChallengeInput := {
  ci_ProviderID : string;
  ci_NodeID : string;
  ci_Challenge : string;
  ci_Passed : bool;
  ci_LatencyMs : Z;
  ci_Score : Z;
  ci_Notes : string;
}.

(** [src/internal/challenge/ledger.go:41-53] Event *)
Record ChallengeEvent := {
  c_Index : Z;
  c_RecordedAt : Time;
  c_ProviderID : string;
  c_NodeID : string;
  c_Challenge : string;
  c_Passed : bool;
  c_LatencyMs : Z;
  c_Score : Z;
  c_Notes : string;
  c_PreviousHash : string;
  c_Hash : string;
}.
#[export] Instance eta_ChallengeEvent : Settable ChallengeEvent := fun e =>
  Build_ChallengeEvent (c_Index e) (c_RecordedAt e) (c_ProviderID e) (c_NodeID e) (c_Challenge e) (c_Passed e)
    (c_LatencyMs e) (c_Score e) (c_Notes e) (c_PreviousHash e) (c_Hash e).

(** [src/internal/challenge/ledger.go:55-64] ProviderSummary *)
Record ProviderSummary := {
  ps_ProviderID : string;
  ps_Challenges : Z;
  ps_Passed : Z;
  ps_Failed : Z;
  ps_PassRateBPS : Z;
  ps_AverageScore : Z;
  ps_AverageLatencyMs : Z;
  ps_LastChallengeAt : Time;
}.
#[export] Instance eta_ProviderSummary : Settable ProviderSummary := fun s =>
  Build_ProviderSummary (ps_ProviderID s) (ps_Challenges s) (ps_Passed s) (ps_Failed s) (ps_PassRateBPS s)
    (ps_AverageScore s) (ps_AverageLatencyMs s) (ps_LastChallengeAt s).

Definition empty_Summary (id : string) : ProviderSummary :=
  {| ps_ProviderID := id; ps_Challenges := 0; ps_Passed := 0; ps_Failed := 0; ps_PassRateBPS := 0;
     ps_AverageScore := 0; ps_AverageLatencyMs := 0; ps_LastChallengeAt := time_zero |}.

(** [src/internal/challenge/ledger.go:23-29] Ledger *)
Record ChallengeLedger := {
  cl_enabled : bool;
  cl_path : string;
  cl_events : list ChallengeEvent;
  cl_lastHash : string;
}.
#[export] Instance eta_ChallengeLedger : Settable ChallengeLedger := fun l =>
  Build_ChallengeLedger (cl_enabled l) (cl_path l) (cl_events l) (cl_lastHash l).

(** [src/internal/challenge/ledger.go:66-73] Snapshot *)
Record ChallengeSnapshot := {
  cs_Enabled : bool;
  cs_Path : string;
  cs_Events : Z;
  cs_LastHash : string;
  cs_Summaries : list ProviderSummary;
  cs_RecentEvents : list ChallengeEvent;
}.

(** [src/internal/challenge/ledger.go:75-80] Verification; the error text is its presence. *)
Record ChallengeVerification := { cv_Valid : bool; cv_Events : Z; cv_LastHash : string; cv_Error : bool }.

(** [src/internal/challenge/ledger.go:20-21] ErrInvalidChain, ErrDisabled, and the errors of the file *)
Inductive ChallengeError := ErrChallengeChain | ErrDisabled | ErrFile (reason : string).

(** ** The chain *)

(** The JSON text of an event without its hash; empty when the instant cannot be written. *)
Definition challengeText (e : ChallengeEvent) : list Z :=
  if time_in_range (c_RecordedAt e) then
    json_object
      [ ("index", Some (json_int (c_Index e)));
        ("recorded_at", Some (json_time (c_RecordedAt e)));
        ("provider_id", Some (json_string (c_ProviderID e)));
        ("node_id", omitempty_string (c_NodeID e));
        ("challenge", Some (json_string (c_Challenge e)));
        ("passed", Some (json_bool (c_Passed e)));
        ("latency_ms", omitempty_int (c_LatencyMs e));
        ("score", Some (json_int (c_Score e)));
        ("notes", omitempty_string (c_Notes e));
        ("previous_hash", Some (json_string (c_PreviousHash e)));
        ("hash", Some (json_string "")) ]
  else [].

(** [src/internal/challenge/ledger.go:244-250] hashEvent *)
Definition hashEvent (event : ChallengeEvent) : string := sha256_hex (challengeText event).

#[export] Instance challenge_chain : ChainEvent ChallengeEvent := {|
  ev_index := c_Index; ev_prev := c_PreviousHash; ev_hash := c_Hash; ev_text := challengeText;
  ev_ok := fun e => time_in_range (c_RecordedAt e) = true |}.

(** [src/internal/challenge/ledger.go:148-159] Verify *)
Definition Verify (l : ChallengeLedger) : ChallengeVerification :=
  let '(ok, last) := verify (cl_events l) in
  {| cv_Valid := ok; cv_Events := Z.of_nat (length (cl_events l)); cv_LastHash := last; cv_Error := negb ok |}.

(** ** Operations *)

(** The chain file, absent or its lines; a line that does not decode is [Err]. *)
Definition ChainFile : Type := option (Lines ChallengeEvent).

Definition clampScore (score : Z) : Z :=
  let score := if score <? 0 then 0 else score in if 100 <? score then 100 else score.

(** [src/internal/challenge/ledger.go:98-117] Record (the event) *)
Definition newEvent (l : ChallengeLedger) (input : ChallengeInput) (now : Time) : ChallengeEvent :=
  let event := {|
    c_Index := Z.of_nat (length (cl_events l)) +w 1;
    c_RecordedAt := now;
    c_ProviderID := ci_ProviderID input;
    c_NodeID := ci_NodeID input;
    c_Challenge := ci_Challenge input;
    c_Passed := ci_Passed input;
    c_LatencyMs := ci_LatencyMs input;
    c_Score := clampScore (ci_Score input);
    c_Notes := ci_Notes input;
    c_PreviousHash := cl_lastHash l;
    c_Hash := "" |} in
  event <| c_Hash := hashEvent event |>.

(** [src/internal/challenge/ledger.go:190-207] appendEvent *)
Definition appendEvent (fault : StoreFault) (event : ChallengeEvent) (file : ChainFile)
  : option ChallengeError * ChainFile :=
  let '(err, file) := append_to_file fault event file in (ErrFile <$> err, file).

(** [src/internal/challenge/ledger.go:92-126] Record *)
Definition Record_ (input : ChallengeInput) (now : Time) (fault : StoreFault) (l : ChallengeLedger) (file : ChainFile)
  : res ChallengeError ChallengeEvent * ChallengeLedger * ChainFile :=
  if negb (cl_enabled l) then (Err ErrDisabled, l, file)
  else
    let event := newEvent l input now in
    let '(err, file) := if negb (cl_path l =s "") then appendEvent fault event file else (None, file) in
    match err with
    | Some err => (Err err, l, file)
    | None => (Ok event, l <| cl_events ::= fun es => es ++ [event] |> <| cl_lastHash := c_Hash event |>, file)
    end.

Definition load_step (l : ChallengeLedger) (event : ChallengeEvent) : ChallengeLedger :=
  l <| cl_events ::= fun es => es ++ [event] |> <| cl_lastHash := c_Hash event |>.

(** [src/internal/challenge/ledger.go:161-188] load *)
Definition load (file : ChainFile) (l : ChallengeLedger) : res ChallengeError ChallengeLedger :=
  match file with
  | None => Ok l
  | Some lines =>
      match decode_lines lines with
      | Err e => Err (ErrFile e)
      | Ok events =>
          let l := fold_left load_step events l in
          if cv_Valid (Verify l) then Ok l else Err ErrChallengeChain
      end
  end.

(** [src/internal/challenge/ledger.go:82-90] New *)
Definition New (cfg : ChallengeConfig) (file : ChainFile) : res ChallengeError ChallengeLedger :=
  let l := {| cl_enabled := hc_Enabled cfg; cl_path := hc_Path cfg; cl_events := []; cl_lastHash := genesisHash |} in
  if negb (cl_path l =s "") then load file l else Ok l.

(** ** Summaries *)

(** [src/internal/challenge/ledger.go:221-231] summaries (one event) *)
Definition addChallenge (event : ChallengeEvent) (item : ProviderSummary) : ProviderSummary :=
  let n := ps_Challenges item +w 1 in
  let item := item <| ps_Challenges := n |> in
  let item := if c_Passed event then item <| ps_Passed ::= fun p => p +w 1 |>
    else item <| ps_Failed ::= fun f => f +w 1 |> in
  let item := item <| ps_AverageScore ::= fun a => (a *w (n -w 1) +w c_Score event) /w n |>
    <| ps_AverageLatencyMs ::= fun a => (a *w (n -w 1) +w c_LatencyMs event) /w n |> in
  if time_after (c_RecordedAt event) (ps_LastChallengeAt item)
  then item <| ps_LastChallengeAt := c_RecordedAt event |> else item.

(** [src/internal/challenge/ledger.go:212-220] summaries (the provider's entry) *)
Definition addSummary (items : gmap string ProviderSummary) (event : ChallengeEvent) : gmap string ProviderSummary :=
  let id := if c_ProviderID event =s "" then "unknown" else c_ProviderID event in
  <[id := addChallenge event (default (empty_Summary id) (items !! id))]> items.

(** [src/internal/challenge/ledger.go:235-238] summaries (the pass rate) *)
Definition withPassRate (item : ProviderSummary) : ProviderSummary :=
  if 0 <? ps_Challenges item
  then item <| ps_PassRateBPS := ps_Passed item *w 10000 /w ps_Challenges item |> else item.

(** [src/internal/challenge/ledger.go:209-242] summaries *)
Definition summaries (events : list ChallengeEvent) : list ProviderSummary :=
  sort_by ps_ProviderID (withPassRate ∘ snd <$> map_to_list (fold_left addSummary events ∅)).

(** [src/internal/challenge/ledger.go:128-146] Snapshot *)
Definition Snapshot (limit : Z) (l : ChallengeLedger) : ChallengeSnapshot :=
  let limit := if limit <=? 0 then 20 else limit in
  let start := Z.of_nat (length (cl_events l)) -w limit in
  let start := if start <? 0 then 0 else start in
  {| cs_Enabled := cl_enabled l; cs_Path := cl_path l; cs_Events := Z.of_nat (length (cl_events l));
     cs_LastHash := cl_lastHash l; cs_Summaries := summaries (cl_events l);
     cs_RecentEvents := drop (Z.to_nat start) (cl_events l) |}.

(** ** The chain's theorems *)

#[export] Instance challenge_laws : ChainLaws ChallengeEvent.
Proof.
  constructor.
  - intros e e' H1 H2. simpl in *. unfold challengeText. rewrite H1, H2. intros Heq Hi Hi'.
    match type of Heq with json_object ((_, _) :: ?fs) = json_object ((_, _) :: ?fs') =>
      destruct (json_object_first "index" (json_int (c_Index e)) fs) as [r Hr]; [done|];
      destruct (json_object_first "index" (json_int (c_Index e')) fs') as [r' Hr']; [done|] end.
    rewrite Hr, Hr' in Heq. by apply int_field_unique in Heq as [? _].
  - intros e e' H1 H2. simpl in *. unfold challengeText. rewrite H1, H2. intros Heq Hd Hd'.
    match type of Heq with
    | json_object [?a1;?a2;?a3;?a4;?a5;?a6;?a7;?a8;?a9;_;_] = json_object [?b1;?b2;?b3;?b4;?b5;?b6;?b7;?b8;?b9;_;_] =>
      destruct (json_object_last [a1;a2;a3;a4;a5;a6;a7;a8;a9]
        "previous_hash" (c_PreviousHash e) "hash" (json_string "")) as [r Hr]; [done|];
      destruct (json_object_last [b1;b2;b3;b4;b5;b6;b7;b8;b9]
        "previous_hash" (c_PreviousHash e') "hash" (json_string "")) as [r' Hr']; [done|] end.
    pose proof (eq_trans (eq_sym Hr) (eq_trans Heq Hr')) as Heq'. by apply json_string_digest_unique in Heq'.
Qed.

(** One configuration's ledger and file: records under any clock and any failure that leaves
    the file as it was, restarts. *)
Inductive challenge_reach (cfg : ChallengeConfig) : ChallengeLedger -> ChainFile -> Prop :=
| ch_start l : New cfg None = Ok l -> challenge_reach cfg l None
| ch_record l file input now fault r l' file' :
    challenge_reach cfg l file -> Z.of_nat (length (cl_events l)) < max_int64 -> clean_file_fault fault ->
    Record_ input now fault l file = (r, l', file') -> challenge_reach cfg l' file'
| ch_restart l file l' : challenge_reach cfg l file -> New cfg file = Ok l' -> challenge_reach cfg l' file.

(** The chain is valid, its scores are percentages, and the file has exactly its events. *)
Definition challenge_ok (cfg : ChallengeConfig) (l : ChallengeLedger) (file : ChainFile) : Prop :=
  valid (cl_events l) = true /\ cl_lastHash l = last_hash genesisHash (cl_events l)
  /\ Forall (fun e => 0 <= c_Score e <= 100) (cl_events l)
  /\ cl_path l = hc_Path cfg /\ cl_enabled l = hc_Enabled cfg
  /\ (hc_Path cfg <> "" -> default [] file = Ok <$> cl_events l).

Lemma fold_load_challenges events l :
  fold_left load_step events l
  = l <| cl_events ::= fun es => es ++ events |> <| cl_lastHash ::= fun h => last_hash h events |>.
Proof.
  revert l. induction events as [|e es IH]; intros l.
  - destruct l. simpl. by rewrite app_nil_r.
  - cbn [fold_left]. rewrite IH. destruct l. unfold load_step. simpl. by rewrite last_hash_cons, <- app_assoc.
Qed.

(** Starting on a file that holds a valid history reads that history. *)
Lemma New_reads cfg l file :
  challenge_ok cfg l file -> hc_Path cfg <> "" ->
  exists l', New cfg file = Ok l' /\ cl_events l' = cl_events l /\ cl_lastHash l' = cl_lastHash l
    /\ cl_path l' = hc_Path cfg /\ cl_enabled l' = hc_Enabled cfg.
Proof.
  intros (Hv & Hh & _ & _ & _ & Hf) Hne. specialize (Hf Hne). unfold New. simpl.
  rewrite (proj2 (str_eqb_false _ _) Hne). simpl. unfold load. destruct file as [lines|]; simpl in Hf.
  - rewrite Hf, decode_lines_ok, fold_load_challenges. simpl. unfold Verify. simpl.
    unfold valid in Hv. destruct (verify (cl_events l)) as [ok h] eqn:Ev. simpl in *. rewrite Hv.
    eexists. split; [done|]. split_and!; done.
  - eexists. split; [done|]. simpl. rewrite Hh. destruct (cl_events l); [done|]. discriminate.
Qed.

Lemma clampScore_bounds s : 0 <= clampScore s <= 100.
Proof. unfold clampScore. repeat case_goal; bsimpl; lia. Qed.

Lemma Record_step cfg l file input now fault r l' file' :
  challenge_ok cfg l file -> Z.of_nat (length (cl_events l)) < max_int64 -> clean_file_fault fault ->
  Record_ input now fault l file = (r, l', file') -> challenge_ok cfg l' file'.
Proof.
  intros Hok Hlen Hcl. unfold Record_. destruct (negb (cl_enabled l)); [by intros [= <- <- <-]|].
  pose proof Hok as (Hv & Hh & Hs & Hp & He & Hf). set (e := newEvent l input now).
  assert (Hchain : valid (cl_events l ++ [e]) = true).
  { apply valid_snoc. split; [done|]. split; [|by split].
    change (Z.of_nat (length (cl_events l)) +w 1 = Z.of_nat (length (cl_events l)) + 1). apply add64_id. ilia. }
  assert (Hnew : forall file', (hc_Path cfg <> "" -> default [] file' = Ok <$> (cl_events l ++ [e])) ->
    challenge_ok cfg (l <| cl_events ::= fun es => es ++ [e] |> <| cl_lastHash := c_Hash e |>) file').
  { intros f' Hf'. split; [exact Hchain|]. split; [symmetry; exact (last_hash_snoc genesisHash (cl_events l) e)|].
    split; [|done]. apply Forall_app. split; [done|]. apply Forall_singleton. apply clampScore_bounds. }
  rewrite Hp. destruct (hc_Path cfg =s "") eqn:Ep; simpl.
  - intros [= <- <- <-]. apply Hnew. apply str_eqb_true in Ep. done.
  - apply str_eqb_false in Ep. unfold appendEvent. specialize (Hf Ep).
    destruct (append_to_file fault e file) as [err lines] eqn:Ea.
    pose proof (append_to_file_clean _ _ _ _ _ _ Hcl Hf Ea) as Hfile.
    destruct err as [err|]; intros [= <- <- <-].
    + split_and!; try done.
    + by apply Hnew.
Qed.

Lemma challenge_reach_ok cfg l file : challenge_reach cfg l file -> challenge_ok cfg l file.
Proof.
  induction 1 as [l H|l file input now fault r l' file' _ IH Hlen Hcl H|l file l' _ IH H].
  - unfold New in H. assert (Hl : l = {| cl_enabled := hc_Enabled cfg; cl_path := hc_Path cfg; cl_events := [];
      cl_lastHash := genesisHash |}) by (destruct (negb _); simpl in H; by injection H as <-).
    subst l. split_and!; done.
  - by eapply Record_step.
  - destruct (decide (hc_Path cfg = "")) as [Hp|Hne].
    + unfold New in H. simpl in H. rewrite Hp in H. simpl in H. injection H as <-.
      split_and!; first [done|by constructor|by rewrite Hp].
    + destruct (New_reads _ _ _ IH Hne) as (l2 & H2 & H3 & H4 & H5 & H6). rewrite H in H2. injection H2 as <-.
      destruct IH as (? & ? & ? & ? & ? & ?). unfold challenge_ok. rewrite H3, H4. done.
Qed.

(** In every state that records (failed writes included) and restarts reach,
    the challenge chain verifies up to the ledger's last hash, every score is a percentage,
    and a process started on the file reads the same events. *)
Theorem challenge_chain_sound cfg l file :
  challenge_reach cfg l file ->
  Verify l = {| cv_Valid := true; cv_Events := Z.of_nat (length (cl_events l)); cv_LastHash := cl_lastHash l; cv_Error := false |}
  /\ Forall (fun e => 0 <= c_Score e <= 100) (cl_events l)
  /\ (hc_Path cfg <> "" -> exists l', New cfg file = Ok l' /\ cl_events l' = cl_events l /\ cl_lastHash l' = cl_lastHash l).
Proof.
  intros Hr%challenge_reach_ok. pose proof Hr as (Hv & Hh & Hs & _). split_and!; [|done|].
  - unfold Verify. pose proof (valid_last _ Hv) as Hlast. unfold valid in Hv.
    destruct (verify (cl_events l)) as [ok last]. simpl in *. subst. by rewrite Hh.
  - intros Hne. destruct (New_reads _ _ _ Hr Hne) as (l' & ? & ? & ? & _). eauto.
Qed.

(** ** Summaries *)

(** The provider an event counts for, and that provider's events. *)
Definition challenged (e : ChallengeEvent) : string := if c_ProviderID e =s "" then "unknown" else c_ProviderID e.
Definition challenges_of (id : string) (events : list ChallengeEvent) : list ChallengeEvent :=
  filter (fun e => challenged e = id) events.
Definition passed (events : list ChallengeEvent) : list ChallengeEvent := filter (fun e => c_Passed e = true) events.

(** A running mean of percentages stays a percentage. *)
Lemma running_mean a n s :
  0 <= a <= 100 -> 0 <= s <= 100 -> 1 <= n -> n * 10000 <= max_int64 ->
  0 <= (a *w (n -w 1) +w s) /w n <= 100.
Proof.
  intros Ha Hs Hn Hfit. assert (0 <= a * (n - 1) <= 100 * (n - 1)) by nia.
  rewrite (sub64_id n 1) by ilia. rewrite mul64_id, add64_id by ilia. unfold quo64. split.
  - apply Z.quot_pos; lia.
  - apply Z.quot_le_upper_bound; lia.
Qed.

Definition summary_ok (events : list ChallengeEvent) (items : gmap string ProviderSummary) : Prop :=
  forall id, match items !! id with
    | Some s => ps_ProviderID s = id /\ challenges_of id events <> [] /\ 0 <= ps_AverageScore s <= 100
        /\ ps_Challenges s = Z.of_nat (length (challenges_of id events))
        /\ ps_Passed s = Z.of_nat (length (passed (challenges_of id events)))
        /\ ps_Failed s = ps_Challenges s - ps_Passed s
    | None => challenges_of id events = []
    end.

Lemma passed_length l : (length (passed l) <= length l)%nat.
Proof. apply length_filter. Qed.

Lemma challenges_of_length id l : (length (challenges_of id l) <= length l)%nat.
Proof. apply length_filter. Qed.

(** One more event of a provider, as [summaries] counts it. *)
Lemma addChallenge_counts e s (mine : list ChallengeEvent) :
  0 <= c_Score e <= 100 -> Z.of_nat (length mine + 1) * 10000 <= max_int64 -> 0 <= ps_AverageScore s <= 100 ->
  ps_Challenges s = Z.of_nat (length mine) -> ps_Passed s = Z.of_nat (length (passed mine)) ->
  ps_Failed s = ps_Challenges s - ps_Passed s ->
  let s' := addChallenge e s in
  ps_ProviderID s' = ps_ProviderID s /\ 0 <= ps_AverageScore s' <= 100
  /\ ps_Challenges s' = Z.of_nat (length (mine ++ [e])) /\ ps_Passed s' = Z.of_nat (length (passed (mine ++ [e])))
  /\ ps_Failed s' = ps_Challenges s' - ps_Passed s'.
Proof.
  intros Hs Hfit Ha Hn Hp Hf. pose proof (passed_length mine) as Hle.
  assert (Hnew : ps_Challenges s +w 1 = Z.of_nat (length (mine ++ [e]))).
  { rewrite length_app, Hn. simpl. apply eq_trans with (Z.of_nat (length mine) + 1); [apply add64_id; ilia|lia]. }
  assert (Hmean : 0 <= (ps_AverageScore s *w (ps_Challenges s +w 1 -w 1) +w c_Score e) /w (ps_Challenges s +w 1) <= 100).
  { apply running_mean; try done; rewrite Hnew, length_app; simpl; lia. }
  unfold passed. rewrite filter_app. unfold addChallenge. fold (passed mine). rewrite length_app in *. simpl in *.
  assert (Hpass : length (filter (fun e => c_Passed e = true) [e]) = if c_Passed e then 1%nat else 0%nat).
  { rewrite filter_cons. by destruct (c_Passed e). }
  rewrite length_app, Hpass.
  assert (Hadd : forall x, 0 <= x <= Z.of_nat (length mine) -> x +w 1 = x + 1) by (intros x Hx; apply add64_id; ilia).
  destruct (c_Passed e), (time_after _ _); simpl; split_and!; try done; try apply Hmean; rewrite ?Hadd; lia.
Qed.

Lemma summaries_fold events :
  Forall (fun e => 0 <= c_Score e <= 100) events -> Z.of_nat (length events) * 10000 <= max_int64 ->
  summary_ok events (fold_left addSummary events ∅).
Proof.
  induction events as [|e l IH] using rev_ind; intros Hs Hfit; [intros id; simpl; by rewrite lookup_empty|].
  apply Forall_app in Hs as [Hs He]. rewrite Forall_singleton in He. rewrite length_app in Hfit. simpl in Hfit.
  specialize (IH Hs ltac:(lia)). rewrite fold_left_app. simpl. set (items := fold_left addSummary l ∅) in *.
  intros id. specialize (IH id). unfold addSummary. fold (challenged e). unfold challenges_of in *.
  rewrite filter_app, filter_cons, filter_nil.
  destruct (decide (challenged e = id)) as [<-|Hne]; [|by rewrite app_nil_r, lookup_insert_ne].
  rewrite lookup_insert_eq. set (mine := filter _ l) in *.
  assert (Hlen : Z.of_nat (length mine + 1) * 10000 <= max_int64) by
    (pose proof (challenges_of_length (challenged e) l); unfold challenges_of in *; fold mine in H; lia).
  destruct (items !! challenged e) as [s|]; simpl.
  - destruct IH as (H1 & H2 & H3 & H4 & H5 & H6).
    pose proof (addChallenge_counts e s mine) as (G1 & G2 & G3 & G4 & G5); try done.
    split; [congruence|]. split; [by destruct mine|]. done.
  - rewrite IH in *. destruct (addChallenge_counts e (empty_Summary (challenged e)) []) as (G1 & G2 & G3 & G4 & G5); done.
Qed.

(** A snapshot has one summary for each provider with an event and for
    no other; its passed and failed counts add up to its events, its pass rate is their
    quotient in basis points and its average score stays a percentage, whatever the
    submitted scores were. *)
Theorem challenge_summaries cfg l file limit id :
  challenge_reach cfg l file -> Z.of_nat (length (cl_events l)) * 10000 <= max_int64 ->
  let rows := cs_Summaries (Snapshot limit l) in
  let mine := challenges_of id (cl_events l) in
  ((exists s, s ∈ rows /\ ps_ProviderID s = id) <-> mine <> [])
  /\ forall s, s ∈ rows -> ps_ProviderID s = id ->
       ps_Challenges s = Z.of_nat (length mine) /\ ps_Passed s = Z.of_nat (length (passed mine))
       /\ ps_Failed s = ps_Challenges s - ps_Passed s
       /\ ps_PassRateBPS s = ps_Passed s * 10000 / ps_Challenges s
       /\ 0 <= ps_PassRateBPS s <= 10000 /\ 0 <= ps_AverageScore s <= 100.
Proof.
  intros (_ & _ & Hs & _)%challenge_reach_ok Hfit. pose proof (summaries_fold _ Hs Hfit) as Hok.
  set (items := fold_left addSummary (cl_events l) ∅) in *.
  assert (Hrow : forall s, s ∈ cs_Summaries (Snapshot limit l) <-> exists i s0, items !! i = Some s0 /\ s = withPassRate s0).
  { intros s. simpl. unfold summaries. rewrite elem_of_sort_by, list_elem_of_fmap. fold items. split.
    - intros ([i s0] & -> & Hi%elem_of_map_to_list). by exists i, s0.
    - intros (i & s0 & Hi & ->). exists (i, s0). by rewrite elem_of_map_to_list. }
  assert (Hid : forall s, ps_ProviderID (withPassRate s) = ps_ProviderID s) by (intros s; unfold withPassRate; by destruct (0 <? _)).
  simpl. split.
  - split.
    + intros (s & (i & s0 & Hi & ->)%Hrow & Hp). specialize (Hok i). rewrite Hi, Hid in *. destruct Hok as (<- & ? & _). by subst.
    + intros Hne. specialize (Hok id). destruct (items !! id) as [s0|] eqn:E; [|done].
      exists (withPassRate s0). rewrite Hrow, Hid. split; [by exists id, s0|by destruct Hok].
  - intros s (i & s0 & Hi & ->)%Hrow Hp. specialize (Hok i). rewrite Hi, Hid in *.
    destruct Hok as (H1 & H2 & H3 & H4 & H5 & H6). assert (i = id) as -> by congruence.
    pose proof (passed_length (challenges_of id (cl_events l))). pose proof (challenges_of_length id (cl_events l)).
    assert (0 < ps_Challenges s0) by (rewrite <- length_zero_iff_nil in H2; lia).
    unfold withPassRate. rewrite (proj2 (Z.ltb_lt 0 _)) by done. simpl.
    assert (0 <= ps_Passed s0 <= ps_Challenges s0) by lia.
    rewrite mul64_id by ilia. unfold quo64. rewrite Z.quot_div_nonneg by lia. split_and!; try done; try lia.
    + apply Z.div_pos; lia.
    + apply Z.div_le_upper_bound; lia.
Qed.

(** ** Witnesses *)

Definition demo_challenges : ChallengeConfig :=
  {| hc_Enabled := true; hc_Path := "challenges.jsonl"; hc_AutoRun := false; hc_Interval := 0; hc_Timeout := 0;
     hc_Model := ""; hc_ProviderID := ""; hc_PrivacyTier := "public"; hc_Prompt := ""; hc_ExpectedContains := "";
     hc_MaxTokens := 0 |}.

Definition demo_run (passed : bool) (score : Z) : ChallengeInput :=
  {| ci_ProviderID := "home"; ci_NodeID := "n1"; ci_Challenge := "echo"; ci_Passed := passed; ci_LatencyMs := 40;
     ci_Score := score; ci_Notes := "" |}.

Definition demo_start : ChallengeLedger :=
  {| cl_enabled := true; cl_path := "challenges.jsonl"; cl_events := []; cl_lastHash := genesisHash |}.

Definition demo_first : res ChallengeError ChallengeEvent * ChallengeLedger * ChainFile :=
  Record_ (demo_run true 250) (63844847999 * second) NoFault demo_start None.

Definition demo_second : res ChallengeError ChallengeEvent * ChallengeLedger * ChainFile :=
  Record_ (demo_run false (-7)) (63844848000 * second) NoFault (snd (fst demo_first)) (snd demo_first).

Lemma demo_challenge_reach : challenge_reach demo_challenges (snd (fst demo_second)) (snd demo_second).
Proof.
  apply (ch_record _ (snd (fst demo_first)) (snd demo_first) (demo_run false (-7)) (63844848000 * second) NoFault
    (fst (fst demo_second))); [|vm_compute; reflexivity|exact I|].
  - apply (ch_record _ demo_start None (demo_run true 250) (63844847999 * second) NoFault (fst (fst demo_first)));
      [by apply ch_start|vm_compute; reflexivity|exact I|].
    unfold demo_first. by destruct (Record_ _ _ _ _ _) as [[]].
  - unfold demo_second. by destruct (Record_ _ _ _ _ _) as [[]].
Qed.

Lemma challenge_chain_sound_witness :
  cv_Valid (Verify (snd (fst demo_second))) = true
  /\ exists l', New demo_challenges (snd demo_second) = Ok l' /\ length (cl_events l') = 2%nat.
Proof.
  destruct (challenge_chain_sound demo_challenges (snd (fst demo_second)) (snd demo_second)) as (H1 & _ & H3).
  - exact demo_challenge_reach.
  - split; [rewrite H1; reflexivity|]. destruct H3 as (l' & Hn & He & _); [discriminate|].
    exists l'. split; [exact Hn|]. rewrite He. vm_compute. reflexivity.
Defined.

Lemma challenge_summaries_witness :
  exists s, s ∈ cs_Summaries (Snapshot 0 (snd (fst demo_second))) /\ ps_Challenges s = 2 /\ ps_PassRateBPS s = 5000
    /\ 0 <= ps_AverageScore s <= 100.
Proof.
  destruct (challenge_summaries demo_challenges (snd (fst demo_second)) (snd demo_second) 0 "home") as (H1 & H2).
  - exact demo_challenge_reach.
  - vm_compute. discriminate.
  - destruct (proj2 H1) as (s & Hs & Hp); [vm_compute; discriminate|].
    destruct (H2 s Hs Hp) as (Hn & Hpass & _ & Hr & _ & Ha). exists s. split; [exact Hs|].
    split; [rewrite Hn; vm_compute; reflexivity|]. split; [rewrite Hr, Hn, Hpass; vm_compute; reflexivity|exact Ha].
Defined.
