(* ===== verification/LedgerFiles.v ===== *)
(** * The chain files of the two ledgers, byte for byte

    What [json.Marshal] writes of a settlement or challenge event, [json.Unmarshal] reads back as
    that event; so the ledgers' models, which keep a chain file as its lines, hold of the files'
    bytes ([ChainFile]).  The struct tags of [Event] give the members' names and the fields they
    are decoded into. *)

From Stdlib Require Import ZifyBool.
From S2P Require Import Prelude GoString Sha256 Json JsonDecode JsonRoundTrip JsonLex HashChain ChainFile.
From S2P Require Import Protocol Config Settlement SettlementProofs Challenge.

(** ** Settlement events *)

(** [src/internal/settlement/ledger.go:51-70] Event (written) *)
Definition event_members (e : Event) : list (string * option scalar) :=
  [ ("index", Some (VInt (e_Index e)));
    ("recorded_at", Some (VTime (e_RecordedAt e)));
    ("request_id", Some (VString (e_RequestID e)));
    ("consumer_id", Some (VString (e_ConsumerID e)));
    ("provider_id", opt_string (e_ProviderID e));
    ("node_id", opt_string (e_NodeID e));
    ("model", Some (VString (e_Model e)));
    ("privacy_tier", Some (VString (e_PrivacyTier e)));
    ("prompt_tokens", Some (VInt (e_PromptTokens e)));
    ("completion_tokens", Some (VInt (e_CompletionTokens e)));
    ("total_tokens", Some (VInt (e_TotalTokens e)));
    ("latency_ms", opt_int (e_LatencyMs e));
    ("dispatch_attempts", opt_int (e_DispatchAttempts e));
    ("price_micros", Some (VInt (e_PriceMicros e)));
    ("provider_reward_micros", Some (VInt (e_ProviderRewardMicros e)));
    ("provider_penalty_micros", opt_int (e_ProviderPenaltyMicros e));
    ("previous_hash", Some (VString (e_PreviousHash e)));
    ("hash", Some (VString (e_Hash e))) ].

(** [json.Marshal(event)]. *)
Definition event_line (e : Event) : list Z := json_object (member_fields (event_members e)).

(** [src/internal/settlement/ledger.go:51-70] Event (read) *)
Definition event_fields : list (string * setter Event) :=
  [ ("index", as_int (fun v e => e <| e_Index := v |>));
    ("recorded_at", as_time (fun v e => e <| e_RecordedAt := v |>));
    ("request_id", as_string (fun v e => e <| e_RequestID := v |>));
    ("consumer_id", as_string (fun v e => e <| e_ConsumerID := v |>));
    ("provider_id", as_string (fun v e => e <| e_ProviderID := v |>));
    ("node_id", as_string (fun v e => e <| e_NodeID := v |>));
    ("model", as_string (fun v e => e <| e_Model := v |>));
    ("privacy_tier", as_string (fun v e => e <| e_PrivacyTier := v |>));
    ("prompt_tokens", as_int (fun v e => e <| e_PromptTokens := v |>));
    ("completion_tokens", as_int (fun v e => e <| e_CompletionTokens := v |>));
    ("total_tokens", as_int (fun v e => e <| e_TotalTokens := v |>));
    ("latency_ms", as_int (fun v e => e <| e_LatencyMs := v |>));
    ("dispatch_attempts", as_int (fun v e => e <| e_DispatchAttempts := v |>));
    ("price_micros", as_int (fun v e => e <| e_PriceMicros := v |>));
    ("provider_reward_micros", as_int (fun v e => e <| e_ProviderRewardMicros := v |>));
    ("provider_penalty_micros", as_int (fun v e => e <| e_ProviderPenaltyMicros := v |>));
    ("previous_hash", as_string (fun v e => e <| e_PreviousHash := v |>));
    ("hash", as_string (fun v e => e <| e_Hash := v |>)) ].

Definition event_zero : Event :=
  Build_Event 0 time_zero "" "" "" "" "" "" 0 0 0 0 0 0 0 0 "" "".

(** [json.Unmarshal(line, &event)]. *)
Definition event_decode : list Z -> option Event := unmarshal event_fields event_zero.

(** The events the program can hold: valid text, integers of their width, an instant that can be
    written, and a line the scanner takes. *)
Definition event_ok (e : Event) : Prop :=
  Forall (fun s => valid_utf8 s = true)
    [e_RequestID e; e_ConsumerID e; e_ProviderID e; e_NodeID e; e_Model e; e_PrivacyTier e; e_PreviousHash e; e_Hash e]
  /\ Forall in_int64
    [e_Index e; e_PromptTokens e; e_CompletionTokens e; e_TotalTokens e; e_LatencyMs e; e_DispatchAttempts e;
     e_PriceMicros e; e_ProviderRewardMicros e; e_ProviderPenaltyMicros e]
  /\ time_in_range (e_RecordedAt e) = true.

(** Decode the members of a struct one by one, the struct kept in constructor form. *)
Ltac decode_step lem := etransitivity; [eapply lem; first [reflexivity|done]|]; cbv beta.
Ltac decode_members :=
  repeat (match goal with
    | |- decode_present _ ((_, Some (VInt _)) :: _) _ = _ => decode_step @decode_int
    | |- decode_present _ ((_, Some (VString _)) :: _) _ = _ => decode_step @decode_string
    | |- decode_present _ ((_, Some (VTime _)) :: _) _ = _ => decode_step @decode_time
    | |- decode_present _ ((_, Some (VBool _)) :: _) _ = _ => decode_step @decode_bool
    | |- decode_present _ ((_, opt_string _) :: _) _ = _ => decode_step @decode_opt_string
    | |- decode_present _ ((_, opt_int _) :: _) _ = _ => decode_step @decode_opt_int
    end;
    match goal with |- decode_present _ _ ?s = _ => let s' := eval cbv in s in change s with s' end).

Lemma member_ok_opt n (o : option scalar) : valid_utf8 n = true -> (forall v, o = Some v -> scalar_ok v) -> Forall member_ok (present [(n, o)]).
Proof. intros Hn Ho. destruct o as [v|]; [|constructor]. apply Forall_singleton. split; [done|by apply Ho]. Qed.

Lemma present_cons_ok m ms : Forall member_ok (present [m]) -> Forall member_ok (present ms) -> Forall member_ok (present (m :: ms)).
Proof. destruct m as [n [v|]]; [|done]. intros Hm Hms. unfold present. cbn. apply List.Forall_cons; [by inversion Hm|done]. Qed.

Ltac members_ok :=
  repeat (apply present_cons_ok; [apply member_ok_opt; [done|]|]); [..|constructor];
    intros v; unfold opt_string, opt_int; repeat case_goal; intros [= <-]; done.

Lemma event_members_ok e : event_ok e -> Forall member_ok (present (event_members e)).
Proof.
  intros (Hs & Hi & Ht). rewrite !Forall_cons in Hs. rewrite !Forall_cons in Hi. destruct_and!. unfold event_members. members_ok.
Qed.

(** An event's line reads back as the event. *)
Lemma event_decode_line e : event_ok e -> event_decode (event_line e) = Some e.
Proof.
  intros Hok. unfold event_decode, event_line. rewrite unmarshal_members by by apply event_members_ok.
  destruct Hok as (Hs & Hi & Ht). rewrite !Forall_cons in Hs. rewrite !Forall_cons in Hi. destruct_and!.
  destruct e as [i t rq co pr no mo ti p c tt la di pm rw pe ph h]. unfold event_members, event_zero. simpl in * |-. cbn [e_Index e_RecordedAt e_RequestID e_ConsumerID e_ProviderID e_NodeID e_Model
    e_PrivacyTier e_PromptTokens e_CompletionTokens e_TotalTokens e_LatencyMs e_DispatchAttempts e_PriceMicros e_ProviderRewardMicros
    e_ProviderPenaltyMicros e_PreviousHash e_Hash]. decode_members. done.
Qed.

#[export] Instance event_codec : Codec Event := {|
  line_text := event_line; line_decode := event_decode;
  line_ok := fun e => event_ok e /\ Z.of_nat (length (event_line e)) < max_token |}.

#[export] Instance event_codec_laws : CodecLaws Event.
Proof.
  split; cbn [line_text line_decode line_ok event_codec].
  - intros e [He _]. by apply event_decode_line.
  - intros e [He _]. by eapply (object_text_members "index"); [apply (event_members_ok e He)|reflexivity|].
  - intros e [He _]. by apply object_visible, event_members_ok.
  - by intros e [_ He].
  - intros l Hl. by apply unmarshal_needs_json.
Qed.

(** The text that is hashed is the line of the event without its hash. *)
Lemma omit_string s : omitempty_string s = scalar_text <$> opt_string s.
Proof. unfold omitempty_string, opt_string. by destruct (s =s ""). Qed.
Lemma omit_int z : omitempty_int z = scalar_text <$> opt_int z.
Proof. unfold omitempty_int, opt_int. by destruct (z =? 0). Qed.

Lemma eventText_line e : time_in_range (e_RecordedAt e) = true -> eventText e = event_line (e <| e_Hash := "" |>).
Proof. intros Ht. unfold eventText. rewrite Ht. unfold event_line, event_members. by rewrite !omit_string, !omit_int. Qed.

(** ** Challenge events *)

(** [src/internal/challenge/ledger.go:41-53] Event (written) *)
Definition challenge_members (e : ChallengeEvent) : list (string * option scalar) :=
  [ ("index", Some (VInt (c_Index e)));
    ("recorded_at", Some (VTime (c_RecordedAt e)));
    ("provider_id", Some (VString (c_ProviderID e)));
    ("node_id", opt_string (c_NodeID e));
    ("challenge", Some (VString (c_Challenge e)));
    ("passed", Some (VBool (c_Passed e)));
    ("latency_ms", opt_int (c_LatencyMs e));
    ("score", Some (VInt (c_Score e)));
    ("notes", opt_string (c_Notes e));
    ("previous_hash", Some (VString (c_PreviousHash e)));
    ("hash", Some (VString (c_Hash e))) ].

Definition challenge_line (e : ChallengeEvent) : list Z := json_object (member_fields (challenge_members e)).

(** [src/internal/challenge/ledger.go:41-53] Event (read) *)
Definition challenge_fields : list (string * setter ChallengeEvent) :=
  [ ("index", as_int (fun v e => e <| c_Index := v |>));
    ("recorded_at", as_time (fun v e => e <| c_RecordedAt := v |>));
    ("provider_id", as_string (fun v e => e <| c_ProviderID := v |>));
    ("node_id", as_string (fun v e => e <| c_NodeID := v |>));
    ("challenge", as_string (fun v e => e <| c_Challenge := v |>));
    ("passed", as_bool (fun v e => e <| c_Passed := v |>));
    ("latency_ms", as_int (fun v e => e <| c_LatencyMs := v |>));
    ("score", as_int (fun v e => e <| c_Score := v |>));
    ("notes", as_string (fun v e => e <| c_Notes := v |>));
    ("previous_hash", as_string (fun v e => e <| c_PreviousHash := v |>));
    ("hash", as_string (fun v e => e <| c_Hash := v |>)) ].

Definition challenge_zero : ChallengeEvent := Build_ChallengeEvent 0 time_zero "" "" "" false 0 0 "" "" "".

Definition challenge_decode : list Z -> option ChallengeEvent := unmarshal challenge_fields challenge_zero.

Definition challenge_event_ok (e : ChallengeEvent) : Prop :=
  Forall (fun s => valid_utf8 s = true)
    [c_ProviderID e; c_NodeID e; c_Challenge e; c_Notes e; c_PreviousHash e; c_Hash e]
  /\ Forall in_int64 [c_Index e; c_LatencyMs e; c_Score e]
  /\ time_in_range (c_RecordedAt e) = true.

Lemma challenge_members_ok e : challenge_event_ok e -> Forall member_ok (present (challenge_members e)).
Proof.
  intros (Hs & Hi & Ht). rewrite !Forall_cons in Hs. rewrite !Forall_cons in Hi. destruct_and!. unfold challenge_members. members_ok.
Qed.

Lemma challenge_decode_line e : challenge_event_ok e -> challenge_decode (challenge_line e) = Some e.
Proof.
  intros Hok. unfold challenge_decode, challenge_line. rewrite unmarshal_members by by apply challenge_members_ok.
  destruct Hok as (Hs & Hi & Ht). rewrite !Forall_cons in Hs. rewrite !Forall_cons in Hi. destruct_and!.
  destruct e as [i t pr no ch pa la sc nt ph h]. unfold challenge_members, challenge_zero. simpl in * |-.
  cbn [c_Index c_RecordedAt c_ProviderID c_NodeID c_Challenge c_Passed c_LatencyMs c_Score c_Notes c_PreviousHash c_Hash].
  decode_members. done.
Qed.

#[export] Instance challenge_codec : Codec ChallengeEvent := {|
  line_text := challenge_line; line_decode := challenge_decode;
  line_ok := fun e => challenge_event_ok e /\ Z.of_nat (length (challenge_line e)) < max_token |}.

#[export] Instance challenge_codec_laws : CodecLaws ChallengeEvent.
Proof.
  split; cbn [line_text line_decode line_ok challenge_codec].
  - intros e [He _]. by apply challenge_decode_line.
  - intros e [He _]. by eapply (object_text_members "index"); [apply (challenge_members_ok e He)|reflexivity|].
  - intros e [He _]. by apply object_visible, challenge_members_ok.
  - by intros e [_ He].
  - intros l Hl. by apply unmarshal_needs_json.
Qed.

Lemma challengeText_line e : time_in_range (c_RecordedAt e) = true -> challengeText e = challenge_line (e <| c_Hash := "" |>).
Proof. intros Ht. unfold challengeText. rewrite Ht. unfold challenge_line, challenge_members. by rewrite !omit_string, !omit_int. Qed.

(** ** The settlement ledger on the bytes of its file *)

(** The store that a chain file's bytes are. *)
Definition file_store (file : option (list Z)) : Store := {| s_lines := file_lines <$> file; s_table := ∅ |}.

(** [src/internal/settlement/ledger.go:162-205] Record (with a chain file) *)
Definition record_file (input : RecordInput) (now : Time) (fault : WriteFault) (l : Ledger) (file : option (list Z))
  : res LedgerError (option Event) * Ledger * option (list Z) :=
  if negb (l_enabled l) then (Ok None, l, file)
  else
    let event := Settlement.newEvent l input now in
    let '(err, file) := if negb (l_path l =s "") then write_line fault event file else (None, file) in
    match err with
    | Some err => (Err (ErrStore err), l, file)
    | None => (Ok (Some event), l <| l_events ::= fun es => es ++ [event] |> <| l_lastHash := e_Hash event |>, file)
    end.

(** What the program records: valid text, 64-bit numbers, an instant of a year of four digits. *)
Definition input_ok (input : RecordInput) (now : Time) : Prop :=
  Forall (fun s => valid_utf8 s = true)
    [ri_RequestID input; ri_ConsumerID input; ri_ProviderID input; ri_NodeID input; ri_Model input; ri_PrivacyTier input]
  /\ in_int64 (id_PromptTokens (ri_Done input)) /\ in_int64 (id_OutputTokens (ri_Done input))
  /\ in_int64 (ri_Latency input) /\ in_int64 (ri_DispatchAttempts input) /\ time_in_range now = true.

(** A record of such an input whose line the scanner takes, and a write that fails at its start,
    inside the text or after it. *)
Definition record_ok (input : RecordInput) (now : Time) (fault : WriteFault) (l : Ledger) : Prop :=
  input_ok input now /\ Z.of_nat (length (event_line (Settlement.newEvent l input now))) < max_token
  /\ cut_inside fault (Settlement.newEvent l input now).

(** The states of one process after another on one file. *)
Inductive file_reach (cfg : SettlementConfig) (allowed : WriteFault -> Prop) : Ledger -> option (list Z) -> Prop :=
| fr_start l : Settlement.New cfg None (file_store None) = Ok l -> file_reach cfg allowed l None
| fr_record l file input now fault r l' file' :
    file_reach cfg allowed l file -> Z.of_nat (length (l_events l)) < max_int64 ->
    record_ok input now fault l -> allowed fault ->
    record_file input now fault l file = (r, l', file') -> file_reach cfg allowed l' file'
| fr_restart l file l' :
    file_reach cfg allowed l file -> Settlement.New cfg None (file_store file) = Ok l' -> file_reach cfg allowed l' file.

Lemma digest_valid s : is_digest s -> valid_utf8 s = true.
Proof. intros [_ Hs]. apply ascii_valid. eapply Forall_impl; [exact Hs|]. unfold hex_char. lia. Qed.

Lemma last_hash_valid {E} `{ChainEvent E} (l : list E) : valid l = true -> valid_utf8 (last_hash genesisHash l) = true.
Proof. intros Hv. destruct (decide (l = [])) as [->|Hne]; [done|]. by apply digest_valid, last_hash_digest. Qed.

Lemma quo64_range a b : in_int64 a -> 1 < b -> in_int64 (a /w b).
Proof.
  unfold in_int64, min_int64, max_int64, quo64. intros Ha Hb.
  destruct (Z_le_gt_dec 0 a).
  - pose proof (Z.quot_pos a b ltac:(lia) ltac:(lia)). pose proof (Z.quot_le_upper_bound a b a ltac:(lia)). nia.
  - replace a with (- (- a)) by lia. rewrite Z.quot_opp_l by lia. pose proof (Z.quot_pos (- a) b ltac:(lia) ltac:(lia)).
    pose proof (Z.quot_le_upper_bound (- a) b (- a) ltac:(lia)). nia.
Qed.

Lemma priceFor_range l tokens : in_int64 (priceFor l tokens).
Proof. unfold priceFor. case_goal; [ilia|]. apply quo64_range; [apply wrap64_range|lia]. Qed.

Lemma penaltyFor_range l r t : in_int64 (penaltyFor l r t).
Proof. unfold penaltyFor. repeat case_goal; try ilia. apply quo64_range; [apply wrap64_range|lia]. Qed.

(** Every event the ledger makes of such an input can be held. *)
Lemma newEvent_event_ok l input now : ledger_ok l -> input_ok input now -> event_ok (Settlement.newEvent l input now).
Proof.
  intros (Hv & Hh & _) (Hs & Hp & Ho & Hlat & Hd & Ht). rewrite !Forall_cons in Hs. destruct_and!.
  split_and!; [| |done]; repeat apply List.Forall_cons; try apply List.Forall_nil; try done; try apply wrap64_range.
  - change (valid_utf8 (l_lastHash l) = true). rewrite Hh. by apply last_hash_valid.
  - apply digest_valid, sha256_hex_digest.
  - by apply quo64_range.
  - apply priceFor_range.
  - apply penaltyFor_range.
Qed.

(** The ledger reads the same from the bytes as from the lines. *)
Lemma load_readable s l :
  l_events l = [] -> l_lastHash l = genesisHash ->
  match Settlement.load s l with Ok l' => Some l' | Err _ => None end
  = match readable_events (default [] (s_lines s)) with
    | Some es => match loadEvents es l with Ok l' => Some l' | Err _ => None end | None => None end.
Proof.
  intros He Hh. unfold Settlement.load, readable_events. destruct (s_lines s) as [lines|]; simpl.
  - by destruct (decode_lines lines).
  - rewrite loadEvents_valid by done. destruct l. simpl in *. by subst.
Qed.

Lemma New_holds cfg file s l :
  sc_SQLitePath cfg = "" -> holds file (s_lines s) ->
  Settlement.New cfg None (file_store file) = Ok l <-> Settlement.New cfg None s = Ok l.
Proof.
  intros Hsql Hh. unfold Settlement.New. set (l0 := {| l_enabled := _ |}). simpl l_sqlitePath. rewrite Hsql. simpl negb. cbv iota.
  simpl (l_path l0). destruct (sc_ChainPath cfg =s ""); simpl negb; cbv iota; [reflexivity|].
  assert (Heq : match Settlement.load (file_store file) l0 with Ok l' => Some l' | Err _ => None end
    = match Settlement.load s l0 with Ok l' => Some l' | Err _ => None end).
  { rewrite !load_readable by done. rewrite <- (holds_reads _ _ Hh). by destruct file. }
  destruct (Settlement.load (file_store file) l0), (Settlement.load s l0); naive_solver.
Qed.

(** One record on the bytes is the record on the lines they hold. *)
Lemma record_file_lines input now fault l file s r l' file' :
  l_db l = false -> event_ok (Settlement.newEvent l input now) -> record_ok input now fault l -> holds file (s_lines s) ->
  record_file input now fault l file = (r, l', file') ->
  exists s', Settlement.Record_ input now (store_fault fault) l s = (r, l', s') /\ holds file' (s_lines s').
Proof.
  intros Hdb He (_ & Hfits & Hcut) Hh. unfold record_file, Settlement.Record_. rewrite Hdb.
  destruct (l_enabled l); simpl negb; cbv iota zeta; [|intros [= <- <- <-]; eauto].
  destruct (l_path l =s ""); simpl negb; cbv iota; [intros [= <- <- <-]; eauto|].
  assert (Hline : line_ok (Settlement.newEvent l input now)) by by split.
  destruct (holds_write fault _ file (s_lines s) Hline Hcut Hh) as [Hh' Herr].
  unfold Settlement.appendEvent. destruct (write_line fault _ file) as [err f], (append_to_file _ _ (s_lines s)) as [err' lines].
  simpl in Hh', Herr. subst err'. destruct err as [err|]; intros [= <- <- <-]; eexists; (split; [reflexivity|exact Hh']).
Qed.

Lemma New_file_db cfg fault s l : sc_SQLitePath cfg = "" -> Settlement.New cfg fault s = Ok l -> l_db l = false.
Proof. intros Hsql H%New_configured. destruct H as [-> _]. by rewrite Hsql. Qed.

(** Everything that is reached on the bytes is reached on the lines. *)
Lemma file_reach_lines cfg allowed l file :
  sc_SQLitePath cfg = "" -> file_reach cfg allowed l file ->
  exists s, ledger_reach l s /\ holds file (s_lines s) /\ l_db l = false
    /\ ((forall f, allowed f -> clean_file_fault (store_fault f)) -> clean_reach cfg l s).
Proof.
  intros Hsql. induction 1 as [l H|l file input now fault r l' file' _ (s & Hr & Hh & Hdb & Hc) Hlen Hok Hal H|l file l' _ (s & Hr & Hh & Hdb & Hc) H].
  - exists blank_store. assert (Hn : Settlement.New cfg None blank_store = Ok l) by done.
    split_and!; [by eapply lr_start|apply holds_absent|by eapply New_file_db|]. intros _. by constructor.
  - assert (He : event_ok (Settlement.newEvent l input now)) by (apply newEvent_event_ok; [by eapply ledger_reach_ok|apply Hok]).
    destruct (record_file_lines _ _ _ _ _ _ _ _ _ Hdb He Hok Hh H) as (s' & Hs' & Hh').
    exists s'. split_and!; [by eapply lr_record|done| |].
    + by destruct (Record_cases _ _ _ _ _ _ _ _ Hs') as [[-> _]|(_ & _ & ->)].
    + intros Hclean. eapply cl_record; [by apply Hc|done|by right; apply Hclean|done].
  - assert (Hn : Settlement.New cfg None s = Ok l') by by apply (New_holds cfg file).
    exists s. split_and!; [by eapply lr_restart|done|by eapply New_file_db|]. intros Hclean. eapply cl_restart; [by apply Hc|done].
Qed.

Definition any_fault (f : WriteFault) : Prop := True.
Definition whole_or_none (f : WriteFault) : Prop := match f with Written | NotWritten _ => True | _ => False end.

(** C15: the settlement ledger on the bytes of its chain file behaves as it does on the list of its
    lines: whatever was recorded, whichever writes failed and wherever in the text they stopped,
    the state is one the ledger of lines reaches, and a process started on the bytes gets exactly
    what one started on the lines gets. *)
Theorem settlement_bytes_refine cfg l file :
  sc_SQLitePath cfg = "" -> file_reach cfg any_fault l file ->
  exists s, ledger_reach l s
    /\ forall l', Settlement.New cfg None (file_store file) = Ok l' <-> Settlement.New cfg None s = Ok l'.
Proof.
  intros Hsql Hr. destruct (file_reach_lines _ _ _ _ Hsql Hr) as (s & Hs & Hh & _). exists s. split; [done|].
  intros l'. by apply New_holds.
Qed.

(** C14: as long as every write is whole or fails before its first byte, a process started on the
    bytes of the chain file has the events that were recorded, field by field, and their last
    hash. *)
Theorem settlement_bytes_restart cfg l file :
  sc_SQLitePath cfg = "" -> sc_ChainPath cfg <> "" -> file_reach cfg whole_or_none l file ->
  exists l', Settlement.New cfg None (file_store file) = Ok l' /\ l_events l' = l_events l /\ l_lastHash l' = l_lastHash l.
Proof.
  intros Hsql Hpath Hr. destruct (file_reach_lines _ _ _ _ Hsql Hr) as (s & Hs & Hh & _ & Hc).
  assert (Hclean : clean_reach cfg l s) by (apply Hc; by intros []).
  destruct (clean_reach_stored _ _ _ Hclean) as [Hcfg Hst].
  destruct (New_stored cfg l s (ledger_reach_ok _ _ Hs) Hcfg (Hst (or_intror Hpath)) (or_intror Hpath)) as (l' & Hl' & He & Hlast).
  exists l'. split_and!; [by apply (New_holds cfg file s)|done|done].
Qed.

(** ** Histories, event by event *)

Lemma hashless_ok e : event_ok e -> event_ok (e <| e_Hash := "" |>).
Proof. intros (Hs & Hi & Ht). rewrite !Forall_cons in Hs. split_and!; [|done|done]. simpl. rewrite !Forall_cons. by destruct_and!. Qed.

(** The hashed text and the hash determine the event. *)
Lemma eventText_inj e1 e2 : event_ok e1 -> event_ok e2 -> eventText e1 = eventText e2 -> e_Hash e1 = e_Hash e2 -> e1 = e2.
Proof.
  intros H1 H2. rewrite (eventText_line e1), (eventText_line e2) by apply H1 || apply H2.
  intros Ht Hh. apply (f_equal event_decode) in Ht. rewrite !event_decode_line in Ht by by apply hashless_ok.
  destruct e1, e2. simpl in *. injection Ht; intros; by subst.
Qed.

Lemma same_texts l1 l2 :
  Forall event_ok l1 -> Forall event_ok l2 -> valid l1 = true -> valid l2 = true -> eventText <$> l1 = eventText <$> l2 -> l1 = l2.
Proof.
  intros Ho1 Ho2 Hv1 Hv2 Ht. assert (Hh1 : Forall (fun e => e_Hash e = Settlement.hashEvent e) l1) by (apply Forall_forall; intros e He; exact (valid_hash l1 e Hv1 He)).
  assert (Hh2 : Forall (fun e => e_Hash e = Settlement.hashEvent e) l2) by (apply Forall_forall; intros e He; exact (valid_hash l2 e Hv2 He)).
  clear Hv1 Hv2. revert l2 Ho2 Ht Hh2. induction Ho1 as [|e1 l1 He1 _ IH]; intros [|e2 l2] Ho2 Ht Hh2; try done.
  rewrite !fmap_cons in Ht. injection Ht as Ht1 Ht2. apply Forall_cons in Ho2 as [He2 Ho2], Hh1 as [Hx1 Hh1], Hh2 as [Hx2 Hh2].
  f_equal; [|by apply IH]. apply eventText_inj; [done|done|done|]. rewrite Hx1, Hx2. unfold Settlement.hashEvent. by rewrite Ht1.
Qed.

(** C7: two valid histories with the same last hash, such as the ledger now and the one an anchor
    was published for, are the same events field by field, unless some event of one and some event
    of the other are a concrete SHA-256 collision. *)
Theorem settlement_history_exact l1 l2 :
  Forall event_ok (l_events l1) -> Forall event_ok (l_events l2) -> chain_fits (l_events l1) -> chain_fits (l_events l2) ->
  vf_Valid (Settlement.Verify l1) = true -> vf_Valid (Settlement.Verify l2) = true ->
  vf_LastHash (Settlement.Verify l1) = vf_LastHash (Settlement.Verify l2) ->
  l_events l1 = l_events l2
  \/ exists e1 e2, e1 ∈ l_events l1 /\ e2 ∈ l_events l2 /\ eventText e1 <> eventText e2
       /\ Settlement.hashEvent e1 = Settlement.hashEvent e2.
Proof.
  intros Ho1 Ho2 Hf1 Hf2. unfold Settlement.Verify.
  destruct (verify (l_events l1)) as [ok1 h1] eqn:E1, (verify (l_events l2)) as [ok2 h2] eqn:E2. simpl. intros -> -> ->.
  assert (V1 : valid (l_events l1) = true) by (unfold valid; by rewrite E1).
  assert (V2 : valid (l_events l2) = true) by (unfold valid; by rewrite E2).
  assert (Htime : forall l, Forall event_ok l -> Forall ev_ok l) by (intros l Hl; eapply Forall_impl; [exact Hl|by intros e (_ & _ & ?)]).
  destruct (anchored_history (l_events l1) (l_events l2) (Htime _ Ho1) (Htime _ Ho2) Hf1 Hf2 V1 V2) as [Heq|Hc]; [|left|right; exact Hc].
  - rewrite <- !valid_last by done. by rewrite E1, E2.
  - by apply same_texts.
Qed.

(** ** The challenge ledger on the bytes of its file *)

(** [src/internal/challenge/ledger.go:92-126] Record (with its file) *)
Definition record_challenge_file (input : ChallengeInput) (now : Time) (fault : WriteFault) (l : ChallengeLedger) (file : option (list Z))
  : res ChallengeError ChallengeEvent * ChallengeLedger * option (list Z) :=
  if negb (cl_enabled l) then (Err ErrDisabled, l, file)
  else
    let event := Challenge.newEvent l input now in
    let '(err, file) := if negb (cl_path l =s "") then write_line fault event file else (None, file) in
    match err with
    | Some err => (Err (ErrFile err), l, file)
    | None => (Ok event, l <| cl_events ::= fun es => es ++ [event] |> <| cl_lastHash := c_Hash event |>, file)
    end.

Definition challenge_input_ok (input : ChallengeInput) (now : Time) : Prop :=
  Forall (fun s => valid_utf8 s = true) [ci_ProviderID input; ci_NodeID input; ci_Challenge input; ci_Notes input]
  /\ in_int64 (ci_LatencyMs input) /\ time_in_range now = true.

Inductive challenge_file_reach (cfg : ChallengeConfig) : ChallengeLedger -> option (list Z) -> Prop :=
| cf_start l : Challenge.New cfg None = Ok l -> challenge_file_reach cfg l None
| cf_record l file input now fault r l' file' :
    challenge_file_reach cfg l file -> Z.of_nat (length (cl_events l)) < max_int64 ->
    challenge_input_ok input now -> Z.of_nat (length (challenge_line (Challenge.newEvent l input now))) < max_token ->
    whole_or_none fault -> record_challenge_file input now fault l file = (r, l', file') -> challenge_file_reach cfg l' file'
| cf_restart l file l' :
    challenge_file_reach cfg l file -> Challenge.New cfg (file_lines <$> file) = Ok l' -> challenge_file_reach cfg l' file.

Lemma newEvent_challenge_ok cfg l file input now :
  challenge_ok cfg l file -> challenge_input_ok input now -> challenge_event_ok (Challenge.newEvent l input now).
Proof.
  intros (Hv & Hh & _) (Hs & Hl & Ht). rewrite !Forall_cons in Hs. destruct_and!.
  split_and!; [| |done]; repeat apply List.Forall_cons; try apply List.Forall_nil; try done; try apply wrap64_range.
  - change (valid_utf8 (cl_lastHash l) = true). rewrite Hh. by apply last_hash_valid.
  - apply digest_valid, sha256_hex_digest.
  - simpl. pose proof (clampScore_bounds (ci_Score input)). ilia.
Qed.

Lemma challenge_load_readable file l :
  cl_events l = [] -> cl_lastHash l = genesisHash ->
  match Challenge.load file l with Ok l' => Some l' | Err _ => None end
  = match readable_events (default [] file) with
    | Some es => match Challenge.load (Some (Ok <$> es)) l with Ok l' => Some l' | Err _ => None end | None => None end.
Proof.
  intros He Hh. unfold Challenge.load, readable_events. destruct file as [lines|]; simpl.
  - destruct (decode_lines lines) as [es|]; [|done]. by rewrite decode_lines_ok.
  - destruct l. simpl in *. by subst.
Qed.

Lemma New_challenge_holds cfg file lines l :
  holds file lines -> Challenge.New cfg (file_lines <$> file) = Ok l <-> Challenge.New cfg lines = Ok l.
Proof.
  intros Hh. unfold Challenge.New. set (l0 := {| cl_enabled := _ |}). simpl (cl_path l0).
  destruct (hc_Path cfg =s ""); simpl negb; cbv iota; [reflexivity|].
  assert (Heq : match Challenge.load (file_lines <$> file) l0 with Ok l' => Some l' | Err _ => None end
    = match Challenge.load lines l0 with Ok l' => Some l' | Err _ => None end).
  { rewrite !challenge_load_readable by done. rewrite <- (holds_reads _ _ Hh). by destruct file. }
  destruct (Challenge.load (file_lines <$> file) l0), (Challenge.load lines l0); naive_solver.
Qed.

Lemma challenge_file_lines cfg l file :
  challenge_file_reach cfg l file -> exists lines, challenge_reach cfg l lines /\ holds file lines.
Proof.
  induction 1 as [l H|l file input now fault r l' file' _ (lines & Hr & Hh) Hlen Hin Hfits Hw H|l file l' _ (lines & Hr & Hh) H].
  - exists None. split; [by constructor|apply holds_absent].
  - pose proof (challenge_reach_ok _ _ _ Hr) as Hok.
    assert (Hline : line_ok (Challenge.newEvent l input now)) by (split; [by eapply newEvent_challenge_ok|done]).
    assert (Hcut : cut_inside fault (Challenge.newEvent l input now)) by by destruct fault.
    destruct (holds_write fault _ file lines Hline Hcut Hh) as [Hh' Herr].
    assert (Hs : exists lines', Challenge.Record_ input now (store_fault fault) l lines = (r, l', lines') /\ holds file' lines').
    { revert H. unfold record_challenge_file, Challenge.Record_, Challenge.appendEvent.
      destruct (cl_enabled l); simpl negb; cbv iota zeta; [|intros [= <- <- <-]; eauto].
      destruct (cl_path l =s ""); simpl negb; cbv iota; [intros [= <- <- <-]; eauto|].
      destruct (write_line fault _ file) as [err f], (append_to_file _ _ lines) as [err' lines'].
      simpl in Hh', Herr. subst err'. destruct err as [err|]; intros [= <- <- <-]; eexists; (split; [reflexivity|exact Hh']). }
    destruct Hs as (lines' & Hs & Hholds). exists lines'. split; [|done]. eapply ch_record; [done|done| |done]. by destruct fault.
  - exists lines. split; [|done]. eapply ch_restart; [done|]. by apply (New_challenge_holds cfg file).
Qed.

(** In every state of the challenge ledger on the bytes of its file, writes that failed before
    their first byte included, the chain verifies, and a process started on the bytes has the same
    events and the same last hash. *)
Theorem challenge_bytes_restart cfg l file :
  hc_Path cfg <> "" -> challenge_file_reach cfg l file ->
  cv_Valid (Challenge.Verify l) = true
  /\ exists l', Challenge.New cfg (file_lines <$> file) = Ok l' /\ cl_events l' = cl_events l /\ cl_lastHash l' = cl_lastHash l.
Proof.
  intros Hp (lines & Hr & Hh)%challenge_file_lines. pose proof (challenge_reach_ok _ _ _ Hr) as Hok.
  split; [unfold Challenge.Verify; destruct Hok as [Hv _]; unfold valid in Hv; by destruct (verify _)|].
  destruct (New_reads _ _ _ Hok Hp) as (l' & Hl & He & Hlast & _). exists l'. split_and!; [by apply (New_challenge_holds cfg file lines)|done|done].
Qed.

(** ** Witnesses *)

(** Two records with a failed write between them, on the bytes. *)
Definition bytes_one := record_file (demo_input "ana" (3000 * millisecond)) demo_time Written fresh_ledger None.
Definition bytes_two :=
  record_file (demo_input "bob" (1000 * millisecond)) (demo_time + second) (NotWritten "disk full") (snd (fst bytes_one)) (snd bytes_one).
Definition bytes_three :=
  record_file (demo_input "bob" (1000 * millisecond)) (demo_time + second) Written (snd (fst bytes_two)) (snd bytes_two).

(** The same with the second write torn after ten bytes. *)
Definition bytes_torn :=
  record_file (demo_input "bob" (1000 * millisecond)) (demo_time + second) (CutAfter 10 "disk full") (snd (fst bytes_one)) (snd bytes_one).

Lemma triple_eta {A B C} (x : A * B * C) : x = (fst (fst x), snd (fst x), snd x).
Proof. by destruct x as [[]]. Qed.

Lemma demo_input_ok consumer latency now :
  bool_decide (valid_utf8 consumer = true) = true -> bool_decide (in_int64 latency) = true -> time_in_range now = true ->
  input_ok (demo_input consumer latency) now.
Proof.
  rewrite !bool_decide_eq_true. intros Hc Hl Ht. split_and!; try done; repeat apply List.Forall_cons; try apply List.Forall_nil; done.
Qed.

Lemma demo_record_ok consumer latency now fault l :
  bool_decide (valid_utf8 consumer = true) = true -> bool_decide (in_int64 latency) = true -> time_in_range now = true ->
  (Z.of_nat (length (event_line (Settlement.newEvent l (demo_input consumer latency) now))) <? max_token) = true ->
  cut_inside fault (Settlement.newEvent l (demo_input consumer latency) now) ->
  record_ok (demo_input consumer latency) now fault l.
Proof. intros Hc Hl Ht Hfit Hcut. split; [by apply demo_input_ok|]. split; [by apply Z.ltb_lt|done]. Qed.

Lemma demo_bytes_one allowed : allowed Written -> file_reach demo_settlement allowed (snd (fst bytes_one)) (snd bytes_one).
Proof.
  intros Ha. apply (fr_record _ _ fresh_ledger None (demo_input "ana" (3000 * millisecond)) demo_time Written (fst (fst bytes_one)));
    [apply fr_start, fresh_ledger_new|vm_compute; reflexivity| |done|apply triple_eta].
  apply demo_record_ok; [vm_compute; reflexivity..|done].
Qed.

Lemma demo_bytes : file_reach demo_settlement whole_or_none (snd (fst bytes_three)) (snd bytes_three).
Proof.
  apply (fr_record _ _ (snd (fst bytes_two)) (snd bytes_two) (demo_input "bob" (1000 * millisecond)) (demo_time + second) Written
    (fst (fst bytes_three))); [|vm_compute; reflexivity| |done|apply triple_eta].
  - apply (fr_record _ _ (snd (fst bytes_one)) (snd bytes_one) (demo_input "bob" (1000 * millisecond)) (demo_time + second)
      (NotWritten "disk full") (fst (fst bytes_two))); [by apply demo_bytes_one|vm_compute; reflexivity| |done|apply triple_eta].
    apply demo_record_ok; [vm_compute; reflexivity..|done].
  - apply demo_record_ok; [vm_compute; reflexivity..|done].
Qed.

Lemma demo_bytes_torn : file_reach demo_settlement any_fault (snd (fst bytes_torn)) (snd bytes_torn).
Proof.
  apply (fr_record _ _ (snd (fst bytes_one)) (snd bytes_one) (demo_input "bob" (1000 * millisecond)) (demo_time + second)
    (CutAfter 10 "disk full") (fst (fst bytes_torn))); [by apply demo_bytes_one|vm_compute; reflexivity| |done|apply triple_eta].
  apply demo_record_ok; [vm_compute; reflexivity..|]. split; [lia|]. apply Nat.ltb_lt. vm_compute. reflexivity.
Qed.

Lemma settlement_bytes_refine_witness :
  exists s, ledger_reach (snd (fst bytes_torn)) s
    /\ (forall l', Settlement.New demo_settlement None (file_store (snd bytes_torn)) = Ok l' <-> Settlement.New demo_settlement None s = Ok l')
    /\ length (default [] (file_lines <$> snd bytes_torn)) = 2%nat.
Proof.
  destruct (settlement_bytes_refine demo_settlement (snd (fst bytes_torn)) (snd bytes_torn) eq_refl demo_bytes_torn) as (s & H1 & H2).
  exists s. split; [exact H1|]. split; [exact H2|]. vm_compute. reflexivity.
Defined.

Lemma settlement_bytes_restart_witness :
  exists l', Settlement.New demo_settlement None (file_store (snd bytes_three)) = Ok l' /\ length (l_events l') = 2%nat.
Proof.
  destruct (settlement_bytes_restart demo_settlement (snd (fst bytes_three)) (snd bytes_three) eq_refl) as (l' & H1 & H2 & _).
  - discriminate.
  - exact demo_bytes.
  - exists l'. split; [exact H1|]. rewrite H2. vm_compute. reflexivity.
Defined.

Lemma demo_events_ok : Forall event_ok (l_events (snd (fst bytes_one))).
Proof.
  apply Forall_singleton. apply newEvent_event_ok; [|by apply demo_input_ok]. exact (New_ledger_ok _ _ _ _ fresh_ledger_new).
Qed.

Lemma settlement_history_exact_witness :
  (l_events (snd (fst bytes_one)) = l_events (snd (fst bytes_one)) \/ collision (l_events (snd (fst bytes_one))) (l_events (snd (fst bytes_one))))
  /\ vf_LastHash (Settlement.Verify (snd (fst bytes_one))) <> vf_LastHash (Settlement.Verify (snd (fst other_one))).
Proof.
  assert (Hf : chain_fits (l_events (snd (fst bytes_one)))) by (vm_compute; discriminate).
  assert (Hv : vf_Valid (Settlement.Verify (snd (fst bytes_one))) = true) by (vm_compute; reflexivity).
  split; [|vm_compute; discriminate].
  exact (settlement_history_exact _ _ demo_events_ok demo_events_ok Hf Hf Hv Hv eq_refl).
Defined.

Definition challenge_bytes :=
  record_challenge_file (demo_run true 250) demo_time Written demo_start None.

Lemma demo_challenge_bytes : challenge_file_reach demo_challenges (snd (fst challenge_bytes)) (snd challenge_bytes).
Proof.
  apply (cf_record _ demo_start None (demo_run true 250) demo_time Written (fst (fst challenge_bytes)));
    [by apply cf_start|vm_compute; reflexivity| |apply Z.ltb_lt; vm_compute; reflexivity|done|apply triple_eta].
  split; [|split; [vm_compute; split; discriminate|done]]. repeat apply List.Forall_cons; try apply List.Forall_nil; done.
Qed.

Lemma challenge_bytes_restart_witness :
  cv_Valid (Challenge.Verify (snd (fst challenge_bytes))) = true
  /\ exists l', Challenge.New demo_challenges (file_lines <$> snd challenge_bytes) = Ok l' /\ length (cl_events l') = 1%nat.
Proof.
  destruct (challenge_bytes_restart demo_challenges (snd (fst challenge_bytes)) (snd challenge_bytes)) as (H1 & l' & H2 & H3 & _).
  - discriminate.
  - exact demo_challenge_bytes.
  - split; [exact H1|]. exists l'. split; [exact H2|]. rewrite H3. vm_compute. reflexivity.
Defined.
