(* ===== verification/City.v ===== *)
(** * Accounts, secrets, quotas and usage: [internal/city/market.go]

    Definitions only; [CityProofs.v] has the theorems.

    State: [Market], the fields of the Go struct; every exported method that reads
    or writes a map holds the mutex from start to end, so each is a function of
    the market, of the [Disk] behind it and of what the environment supplies: the
    clock, the random secret and the I/O failure met while persisting, if any.

    Two stores back the market, a JSON file and a SQLite database.  The file holds
    a [persistedState] (its JSON text is the subject of [CityFile.v]); the database holds its
    five tables, each a finite map on its primary key.  Instants are kept as
    written, RFC 3339 with nanoseconds being exact. *)

From S2P Require Import Prelude GoString GoSort Sha256 Privacy Protocol Config.

(** ** Data *)

(** [src/internal/city/market.go:23-32] ErrUnauthorizedConsumer *)
Inductive CityError :=
| ErrUnauthorizedConsumer
| ErrUnauthorizedProvider
| ErrQuotaExceeded
| ErrInvalidAccount
| ErrAccountExists
| ErrAccountNotFound
| ErrAccountDisabled
| ErrInvalidPrivacy
| ErrIO (reason : string).
#[export] Instance CityError_eq_dec : EqDecision CityError.
Proof. solve_decision. Defined.

(** [src/internal/city/market.go:80-85] Consumer *)
Record Consumer := { cn_ID : string; cn_DisplayName : string; cn_TotalTokenLimit : Z; cn_Disabled : bool }.
Definition empty_Consumer : Consumer :=
  {| cn_ID := ""; cn_DisplayName := ""; cn_TotalTokenLimit := 0; cn_Disabled := false |}.
#[export] Instance eta_Consumer : Settable Consumer := fun r =>
  Build_Consumer (cn_ID r) (cn_DisplayName r) (cn_TotalTokenLimit r) (cn_Disabled r).

(** [src/internal/city/market.go:87-93] Provider *)
Record Provider := {
  pv_ID : string;
  pv_DisplayName : string;
  pv_Disabled : bool;
  pv_PrivacyMode : string;
  pv_PrivacyTiers : list string;
}.
Definition empty_Provider : Provider :=
  {| pv_ID := ""; pv_DisplayName := ""; pv_Disabled := false; pv_PrivacyMode := ""; pv_PrivacyTiers := [] |}.
#[export] Instance eta_Provider : Settable Provider := fun r =>
  Build_Provider (pv_ID r) (pv_DisplayName r) (pv_Disabled r) (pv_PrivacyMode r) (pv_PrivacyTiers r).

(** [src/internal/city/market.go:95-102] Usage *)
Record Usage := {
  us_AccountID : string;
  us_Requests : Z;
  us_PromptTokens : Z;
  us_CompletionTokens : Z;
  us_TotalTokens : Z;
  us_UpdatedAt : Time;
}.
Definition empty_Usage (accountID : string) : Usage :=
  {| us_AccountID := accountID; us_Requests := 0; us_PromptTokens := 0; us_CompletionTokens := 0;
     us_TotalTokens := 0; us_UpdatedAt := time_zero |}.

(** [src/internal/city/market.go:63-69] persistedConsumer *)
Record persistedConsumer := {
  pc_ID : string;
  pc_DisplayName : string;
  pc_TotalTokenLimit : Z;
  pc_Disabled : bool;
  pc_APIKeyHashes : list string;
}.

(** [src/internal/city/market.go:71-78] persistedProvider *)
Record persistedProvider := {
  pp_ID : string;
  pp_DisplayName : string;
  pp_Disabled : bool;
  pp_PrivacyMode : string;
  pp_PrivacyTiers : list string;
  pp_TokenHashes : list string;
}.

(** [src/internal/city/market.go:54-61] persistedState *)
Record persistedState := {
  ps_Version : Z;
  ps_UpdatedAt : Time;
  ps_Consumers : list persistedConsumer;
  ps_Providers : list persistedProvider;
  ps_ConsumerUsage : list Usage;
  ps_ProviderUsage : list Usage;
}.

(** [src/internal/city/market.go:34-52] Market; the database handle is its presence, the
    pointers of the usage maps are not shared. *)
Record Market := {
  m_enabled : bool;
  m_name : string;
  m_requireProviderTokens : bool;
  m_usageStorePath : string;
  m_sqlitePath : string;
  m_db : bool;
  m_consumers : gmap string Consumer;
  m_providers : gmap string Provider;
  m_apiKeys : gmap string string;
  m_tokens : gmap string string;
  m_apiKeyHashes : gmap string string;
  m_tokenHashes : gmap string string;
  m_consumerUse : gmap string Usage;
  m_providerUse : gmap string Usage;
  m_reservedUse : gmap string Z;
}.
#[export] Instance eta_Market : Settable Market := fun r =>
  Build_Market (m_enabled r) (m_name r) (m_requireProviderTokens r) (m_usageStorePath r) (m_sqlitePath r)
    (m_db r) (m_consumers r) (m_providers r) (m_apiKeys r) (m_tokens r) (m_apiKeyHashes r)
    (m_tokenHashes r) (m_consumerUse r) (m_providerUse r) (m_reservedUse r).

(** [src/internal/city/market.go:104-111] Snapshot *)
Record MarketSnapshot := {
  sn_Enabled : bool;
  sn_Name : string;
  sn_Consumers : list Consumer;
  sn_Providers : list Provider;
  sn_ConsumerUsage : list Usage;
  sn_ProviderUsage : list Usage;
}.

(** [src/internal/city/market.go:113-119] ConsumerStatus *)
Record ConsumerStatus := {
  cs_Consumer : Consumer;
  cs_Usage : Usage;
  cs_ReservedTokens : Z;
  cs_RemainingTokens : Z;
  cs_QuotaExceeded : bool;
}.

(** [src/internal/city/market.go:121-125] CreateConsumerInput *)
Record CreateConsumerInput := { ci_ID : string; ci_DisplayName : string; ci_TotalTokenLimit : Z }.
(** [src/internal/city/market.go:127-130] CreatedConsumer *)
Record CreatedConsumer := { cd_Consumer : Consumer; cd_APIKey : string }.
(** [src/internal/city/market.go:132-137] CreateProviderInput *)
Record CreateProviderInput := {
  pi_ID : string; pi_DisplayName : string; pi_PrivacyMode : string; pi_PrivacyTiers : list string }.
(** [src/internal/city/market.go:139-142] CreatedProvider *)
Record CreatedProvider := { cp_Provider : Provider; cp_ProviderToken : string }.

(** [src/internal/city/market.go:407-410] QuotaReservation *)
Record QuotaReservation := { qr_accountID : string; qr_tokens : Z }.

(** ** Helpers *)

(** [src/internal/city/market.go:1000-1003] hashSecret *)
Definition hashSecret (secret : string) : string := sha256_hex (bytes secret).

(** [src/internal/city/market.go:1005-1010] boolInt *)
Definition boolInt (value : bool) : Z := if value then 1 else 0.

(** [src/internal/city/market.go:1012-1018] randomSecret; [raw] is what [rand.Read] fills in. *)
Definition randomSecret (prefix : string) (raw : res string (list Z)) : res CityError string :=
  match raw with
  | Err e => Err (ErrIO e)
  | Ok raw => Ok (prefix +:+ hex_of_bytes raw)
  end.

(** The characters of an account id. *)
Definition account_rune (r : Z) : bool :=
  ((97 <=? r) && (r <=? 122)) || ((48 <=? r) && (r <=? 57)) || (r =? 45) || (r =? 95).

(** [src/internal/city/market.go:1020-1032] normalizeAccountID *)
Definition normalizeAccountID (raw : string) : string :=
  let id := to_lower (trim_space raw) in
  if (slen id <? 2) || (64 <? slen id) then ""
  else if forallb account_rune (runes id) then id else "".

(** [src/internal/city/market.go:1034-1040] displayName *)
Definition displayName (raw fallback : string) : string :=
  let name := trim_space raw in if name =s "" then fallback else name.

(** [src/internal/city/market.go:1050-1063] requestedPrivacy *)
Definition requestedPrivacy (mode : string) (tiers : list string) : res CityError (list string) :=
  match tiers with
  | [] => match TiersForMode mode with Ok normalized => Ok normalized | Err _ => Err ErrInvalidPrivacy end
  | _ => match NormalizeTiers tiers with Ok normalized => Ok normalized | Err _ => Err ErrInvalidPrivacy end
  end.

(** [src/internal/city/market.go:1042-1048] providerPrivacy *)
Definition providerPrivacy (mode : string) (tiers : list string) : res CityError (string * list string) :=
  let* normalized := requestedPrivacy mode tiers in Ok (ModeForTiers normalized, normalized).

(** The values of a map, sorted by a key. *)
Definition sorted_values {A} (key : A -> string) (items : gmap string A) : list A :=
  sort_by key (snd <$> map_to_list items).

(** [src/internal/city/market.go:920-927] consumerMapValues *)
Definition consumerMapValues : gmap string Consumer -> list Consumer := sorted_values cn_ID.
(** [src/internal/city/market.go:929-936] providerMapValues *)
Definition providerMapValues : gmap string Provider -> list Provider := sorted_values pv_ID.
(** [src/internal/city/market.go:938-945] usageMapValues *)
Definition usageMapValues : gmap string Usage -> list Usage := sorted_values us_AccountID.

(** [src/internal/city/market.go:947-956] hashesForAccount *)
Definition hashesForAccount (items : gmap string string) (accountID : string) : list string :=
  sort_strings (fst <$> filter (fun kv => kv.2 = accountID) (map_to_list items)).

(** ** The stores *)

(** [src/internal/city/market.go:592-597] city_consumers *)
Record ConsumerRow := { cr_id : string; cr_display_name : string; cr_total_token_limit : Z; cr_disabled : Z }.
(** [src/internal/city/market.go:603-609] city_providers; the tiers column is the list its JSON
    text stands for. *)
Record ProviderRow := {
  pr_id : string; pr_display_name : string; pr_disabled : Z; pr_privacy_mode : string;
  pr_privacy_tiers : list string }.

(** [src/internal/city/market.go:590-627] initSQLite (the tables) *)
Record DB := {
  db_consumers : gmap string ConsumerRow;
  db_consumer_keys : gmap string string;
  db_providers : gmap string ProviderRow;
  db_provider_tokens : gmap string string;
  db_usage : gmap (string * string) Usage;
}.
Definition empty_DB : DB :=
  {| db_consumers := ∅; db_consumer_keys := ∅; db_providers := ∅; db_provider_tokens := ∅; db_usage := ∅ |}.

(** The file at [usage_store_path]: absent, unreadable or not a state, or a state. *)
Record Disk := { dk_file : option (res string persistedState); dk_db : DB }.
#[export] Instance eta_Disk : Settable Disk := fun d => Build_Disk (dk_file d) (dk_db d).

(** [INSERT] of rows into an emptied table: a repeated primary key fails. *)
Definition insert_rows {K R} `{Countable K} (key : R -> K) (rows : list R) : res CityError (gmap K R) :=
  fold_left (fun t row =>
    let* t := t in
    match t !! key row with
    | Some _ => Err (ErrIO "UNIQUE constraint failed")
    | None => Ok (<[key row := row]> t)
    end) rows (Ok ∅).

Definition consumerRow (c : Consumer) : ConsumerRow :=
  {| cr_id := cn_ID c; cr_display_name := cn_DisplayName c; cr_total_token_limit := cn_TotalTokenLimit c;
     cr_disabled := boolInt (cn_Disabled c) |}.

Definition providerRow (p : Provider) : ProviderRow :=
  {| pr_id := pv_ID p; pr_display_name := pv_DisplayName p; pr_disabled := boolInt (pv_Disabled p);
     pr_privacy_mode := pv_PrivacyMode p; pr_privacy_tiers := pv_PrivacyTiers p |}.

(** [src/internal/city/market.go:865-877] insertSQLiteUsage (the row) *)
Definition usageRow (kind : string) (u : Usage) : string * Usage := (kind, u).

(** [src/internal/city/market.go:810-863] persistSQLiteLocked: one transaction that rewrites
    every table; when a statement fails it is rolled back. *)
Definition persistSQLiteLocked (m : Market) : res CityError DB :=
  let* consumers := insert_rows cr_id (consumerRow <$> consumerMapValues (m_consumers m)) in
  let* keys := insert_rows fst (map_to_list (m_apiKeyHashes m)) in
  let* providers := insert_rows pr_id (providerRow <$> providerMapValues (m_providers m)) in
  let* tokens := insert_rows fst (map_to_list (m_tokenHashes m)) in
  let* usage := insert_rows (fun r : string * Usage => (r.1, us_AccountID r.2))
    ((usageRow "consumer" <$> usageMapValues (m_consumerUse m))
     ++ (usageRow "provider" <$> usageMapValues (m_providerUse m))) in
  Ok {| db_consumers := consumers; db_consumer_keys := snd <$> keys; db_providers := providers;
        db_provider_tokens := snd <$> tokens; db_usage := snd <$> usage |}.

(** [src/internal/city/market.go:879-891] persistedConsumersLocked *)
Definition persistedConsumersLocked (m : Market) : list persistedConsumer :=
  (fun c => {| pc_ID := cn_ID c; pc_DisplayName := cn_DisplayName c; pc_TotalTokenLimit := cn_TotalTokenLimit c;
               pc_Disabled := cn_Disabled c; pc_APIKeyHashes := hashesForAccount (m_apiKeyHashes m) (cn_ID c) |})
  <$> consumerMapValues (m_consumers m).

(** [src/internal/city/market.go:893-906] persistedProvidersLocked *)
Definition persistedProvidersLocked (m : Market) : list persistedProvider :=
  (fun p => {| pp_ID := pv_ID p; pp_DisplayName := pv_DisplayName p; pp_Disabled := pv_Disabled p;
               pp_PrivacyMode := pv_PrivacyMode p; pp_PrivacyTiers := pv_PrivacyTiers p;
               pp_TokenHashes := hashesForAccount (m_tokenHashes m) (pv_ID p) |})
  <$> providerMapValues (m_providers m).

(** [src/internal/city/market.go:788-795] persistLocked (the JSON snapshot) *)
Definition persistedSnapshot (now : Time) (m : Market) : persistedState :=
  {| ps_Version := 2; ps_UpdatedAt := now; ps_Consumers := persistedConsumersLocked m;
     ps_Providers := persistedProvidersLocked m; ps_ConsumerUsage := usageMapValues (m_consumerUse m);
     ps_ProviderUsage := usageMapValues (m_providerUse m) |}.

(** [src/internal/city/market.go:781-808] persistLocked: the error, and the disk afterwards.
    [fault] is an I/O error at any point before the commit or the rename, both of
    which replace the stored state at once. *)
Definition persistLocked (now : Time) (fault : option string) (m : Market) (d : Disk)
  : option CityError * Disk :=
  if m_db m then
    match fault, persistSQLiteLocked m with
    | Some e, _ => (Some (ErrIO e), d)
    | None, Err e => (Some e, d)
    | None, Ok db => (None, d <| dk_db := db |>)
    end
  else if m_usageStorePath m =s "" then (None, d)
  else match fault with
  | Some e => (Some (ErrIO e), d)
  | None => (None, d <| dk_file := Some (Ok (persistedSnapshot now m)) |>)
  end.

(** Assign the value of every element of a list under its key. *)
Definition put_all {B A} (key : B -> string) (val : B -> A) (l : list B) (m : gmap string A) : gmap string A :=
  fold_left (fun m x => <[key x := val x]> m) l m.

Definition put_hashes (hashes : list string) (accountID : string) : gmap string string -> gmap string string :=
  put_all id (fun _ => accountID) hashes.

(** [src/internal/city/market.go:749-759] loadState (one consumer) *)
Definition loadConsumer (m : Market) (c : persistedConsumer) : Market :=
  m <| m_consumers ::= <[pc_ID c := {| cn_ID := pc_ID c; cn_DisplayName := pc_DisplayName c;
         cn_TotalTokenLimit := pc_TotalTokenLimit c; cn_Disabled := pc_Disabled c |}]> |>
    <| m_apiKeyHashes ::= put_hashes (pc_APIKeyHashes c) (pc_ID c) |>.

(** [src/internal/city/market.go:760-769] loadState (one provider) *)
Definition loadProvider (m : res CityError Market) (p : persistedProvider) : res CityError Market :=
  let* m := m in
  let* mt := providerPrivacy (pp_PrivacyMode p) (pp_PrivacyTiers p) in
  Ok (m <| m_providers ::= <[pp_ID p := {| pv_ID := pp_ID p; pv_DisplayName := pp_DisplayName p;
             pv_Disabled := pp_Disabled p; pv_PrivacyMode := fst mt; pv_PrivacyTiers := snd mt |}]> |>
        <| m_tokenHashes ::= put_hashes (pp_TokenHashes p) (pp_ID p) |>).

(** [src/internal/city/market.go:735-779] loadState *)
Definition loadState (file : option (res string persistedState)) (m : Market) : res CityError Market :=
  match file with
  | None => Ok m
  | Some (Err e) => Err (ErrIO e)
  | Some (Ok snapshot) =>
      let m := fold_left loadConsumer (ps_Consumers snapshot) m in
      let* m := fold_left loadProvider (ps_Providers snapshot) (Ok m) in
      Ok (m <| m_consumerUse ::= put_all us_AccountID id (ps_ConsumerUsage snapshot) |>
            <| m_providerUse ::= put_all us_AccountID id (ps_ProviderUsage snapshot) |>)
  end.

Definition scanConsumer (r : ConsumerRow) : Consumer :=
  {| cn_ID := cr_id r; cn_DisplayName := cr_display_name r; cn_TotalTokenLimit := cr_total_token_limit r;
     cn_Disabled := negb (cr_disabled r =? 0) |}.

Definition scanProvider (r : ProviderRow) : Provider :=
  {| pv_ID := pr_id r; pv_DisplayName := pr_display_name r; pv_Disabled := negb (pr_disabled r =? 0);
     pv_PrivacyMode := pr_privacy_mode r; pv_PrivacyTiers := pr_privacy_tiers r |}.

(** The rows of one kind. *)
Definition usage_of_kind (kind : string) (db : DB) : list Usage :=
  snd <$> filter (fun r => r.1.1 = kind) (map_to_list (db_usage db)).

Definition put_pairs : list (string * string) -> gmap string string -> gmap string string := put_all fst snd.

(** [src/internal/city/market.go:629-733] loadSQLiteState *)
Definition loadSQLiteState (db : DB) (m : Market) : Market :=
  m <| m_consumers ::= put_all cn_ID id (scanConsumer ∘ snd <$> map_to_list (db_consumers db)) |>
    <| m_apiKeyHashes ::= put_pairs (map_to_list (db_consumer_keys db)) |>
    <| m_providers ::= put_all pv_ID id (scanProvider ∘ snd <$> map_to_list (db_providers db)) |>
    <| m_tokenHashes ::= put_pairs (map_to_list (db_provider_tokens db)) |>
    <| m_consumerUse ::= put_all us_AccountID id (usage_of_kind "consumer" db) |>
    <| m_providerUse ::= put_all us_AccountID id (usage_of_kind "provider" db) |>.

(** ** Construction *)

(** [src/internal/city/market.go:145-160] New (the empty market) *)
Definition emptyMarket (cfg : CityConfig) : Market :=
  {| m_enabled := cc_Enabled cfg; m_name := cc_Name cfg;
     m_requireProviderTokens := cc_RequireProviderTokens cfg;
     m_usageStorePath := cc_UsageStorePath cfg; m_sqlitePath := cc_SQLitePath cfg; m_db := false;
     m_consumers := ∅; m_providers := ∅; m_apiKeys := ∅; m_tokens := ∅; m_apiKeyHashes := ∅;
     m_tokenHashes := ∅; m_consumerUse := ∅; m_providerUse := ∅; m_reservedUse := ∅ |}.

(** [src/internal/city/market.go:201-204] New (one API key) *)
Definition addKey (accountID : string) (m : Market) (key : string) : Market :=
  if key =s "" then m
  else m <| m_apiKeys ::= <[key := accountID]> |> <| m_apiKeyHashes ::= <[hashSecret key := accountID]> |>.

(** [src/internal/city/market.go:180-188] New (legacy keys) *)
Definition addLegacyKeys (legacyAPIKeys : list string) (m : Market) : Market :=
  let m := fold_left (addKey "local") legacyAPIKeys m in
  match legacyAPIKeys with
  | [] => m
  | _ => m <| m_consumers ::= <["local" := {| cn_ID := "local"; cn_DisplayName := "Local";
             cn_TotalTokenLimit := 0; cn_Disabled := false |}]> |>
  end.

(** [src/internal/city/market.go:189-206] New (one configured consumer) *)
Definition addConsumer (m : Market) (consumer : ConsumerAccount) : Market :=
  if ca_ID consumer =s "" then m
  else
    let disabled := cn_Disabled (map_get empty_Consumer (m_consumers m) (ca_ID consumer)) in
    let m := m <| m_consumers ::= <[ca_ID consumer :=
      {| cn_ID := ca_ID consumer; cn_DisplayName := ca_DisplayName consumer;
         cn_TotalTokenLimit := ca_TotalTokenLimit consumer; cn_Disabled := disabled |}]> |> in
    fold_left (fun m key => if disabled then m else addKey (ca_ID consumer) m key) (ca_APIKeys consumer) m.

(** [src/internal/city/market.go:207-221] New (one configured provider) *)
Definition addProvider (m : res CityError Market) (provider : ProviderAccount) : res CityError Market :=
  let* m := m in
  if pa_ID provider =s "" then Ok m
  else
    let disabled := pv_Disabled (map_get empty_Provider (m_providers m) (pa_ID provider)) in
    let* mt := providerPrivacy (pa_PrivacyMode provider) (pa_PrivacyTiers provider) in
    let m := m <| m_providers ::= <[pa_ID provider :=
      {| pv_ID := pa_ID provider; pv_DisplayName := pa_DisplayName provider; pv_Disabled := disabled;
         pv_PrivacyMode := fst mt; pv_PrivacyTiers := snd mt |}]> |> in
    Ok (if negb (pa_Token provider =s "") && negb disabled
        then m <| m_tokens ::= <[pa_Token provider := pa_ID provider]> |>
               <| m_tokenHashes ::= <[hashSecret (pa_Token provider) := pa_ID provider]> |>
        else m).

(** [src/internal/city/market.go:161-179] New (loading); [fault] is an error of opening,
    initialising or reading the database. *)
Definition loadStores (cfg : CityConfig) (fault : option string) (d : Disk) : res CityError Market :=
  let m := emptyMarket cfg in
  if negb (cc_SQLitePath cfg =s "") then
    match fault with
    | Some e => Err (ErrIO e)
    | None => Ok (loadSQLiteState (dk_db d) (m <| m_db := true |>))
    end
  else if negb (cc_UsageStorePath cfg =s "") then loadState (dk_file d) m
  else Ok m.

(** [src/internal/city/market.go:144-223] New *)
Definition New (cfg : CityConfig) (legacyAPIKeys : list string) (fault : option string) (d : Disk)
  : res CityError Market :=
  let* m := loadStores cfg fault d in
  let m := fold_left addConsumer (cc_Consumers cfg) (addLegacyKeys legacyAPIKeys m) in
  fold_left addProvider (cc_Providers cfg) (Ok m).

(** ** Secrets *)

Definition drop_account (id : string) : gmap string string -> gmap string string :=
  filter (fun kv => kv.2 <> id).

(** [src/internal/city/market.go:974-985] removeConsumerSecretsLocked *)
Definition removeConsumerSecretsLocked (id : string) (m : Market) : Market :=
  m <| m_apiKeys ::= drop_account id |> <| m_apiKeyHashes ::= drop_account id |>.

(** [src/internal/city/market.go:987-998] removeProviderSecretsLocked *)
Definition removeProviderSecretsLocked (id : string) (m : Market) : Market :=
  m <| m_tokens ::= drop_account id |> <| m_tokenHashes ::= drop_account id |>.

(** [src/internal/city/market.go:958-964] activeConsumerIDLocked *)
Definition activeConsumerIDLocked (m : Market) (accountID : string) : res CityError string :=
  match m_consumers m !! accountID with
  | Some consumer => if cn_Disabled consumer then Err ErrUnauthorizedConsumer else Ok accountID
  | None => Err ErrUnauthorizedConsumer
  end.

(** [src/internal/city/market.go:966-972] activeProviderIDLocked *)
Definition activeProviderIDLocked (m : Market) (accountID : string) : res CityError string :=
  match m_providers m !! accountID with
  | Some provider => if pv_Disabled provider then Err ErrUnauthorizedProvider else Ok accountID
  | None => Err ErrUnauthorizedProvider
  end.

(** [src/internal/city/market.go:386-399] AuthenticateConsumer *)
Definition AuthenticateConsumer (m : Market) (key : string) : res CityError string :=
  if (key =s "") && negb (m_enabled m) && bool_decide (m_apiKeys m = ∅) && bool_decide (m_apiKeyHashes m = ∅)
  then Ok "local"
  else match m_apiKeys m !! key with
  | Some accountID => activeConsumerIDLocked m accountID
  | None =>
      match m_apiKeyHashes m !! hashSecret key with
      | Some accountID => activeConsumerIDLocked m accountID
      | None => Err ErrUnauthorizedConsumer
      end
  end.

(** [src/internal/city/market.go:471-487] AuthenticateProvider *)
Definition AuthenticateProvider (m : Market) (reg : Register) : res CityError string :=
  if negb (m_enabled m) || negb (m_requireProviderTokens m) then
    if negb (reg_ProviderID reg =s "") then Ok (reg_ProviderID reg) else Ok (reg_NodeID reg)
  else
    let by_hash :=
      match m_tokenHashes m !! hashSecret (reg_ProviderToken reg) with
      | Some providerID =>
          if negb (providerID =s "") then activeProviderIDLocked m providerID else Err ErrUnauthorizedProvider
      | None => Err ErrUnauthorizedProvider
      end in
    match m_tokens m !! reg_ProviderToken reg with
    | Some providerID => if negb (providerID =s "") then activeProviderIDLocked m providerID else by_hash
    | None => by_hash
    end.

(** [src/internal/city/market.go:489-524] EnforceProviderPrivacy *)
Definition EnforceProviderPrivacy (m : Market) (providerID requestedMode : string)
    (requestedTiers : list string) : res CityError (string * list string) :=
  match requestedPrivacy requestedMode requestedTiers with
  | Err _ => Err ErrInvalidPrivacy
  | Ok requested =>
      if negb (m_enabled m) || negb (m_requireProviderTokens m) then Ok (ModeForTiers requested, requested)
      else match m_providers m !! providerID with
      | None => Err ErrUnauthorizedProvider
      | Some provider =>
          if pv_Disabled provider then Err ErrUnauthorizedProvider
          else
            let allowed := match pv_PrivacyTiers provider with
              | [] => match TiersForMode (pv_PrivacyMode provider) with
                      | Ok tiers => Ok tiers | Err _ => Err ErrInvalidPrivacy end
              | tiers => Ok tiers
              end in
            let* allowed := allowed in
            let effective := filter (fun tier => tier ∈ allowed) requested in
            match effective with
            | [] => Err ErrInvalidPrivacy
            | _ => Ok (ModeForTiers effective, effective)
            end
      end
  end.

(** ** Account operations

    Each takes the bytes [rand.Read] yields where it draws a secret, the clock and
    the fault of the persist step, and returns the result with the new state.  The operations
    touch what is behind the market only by persisting it: they are written against that
    interface, which [persistLocked] implements on the disk and [CityFile.v] on the bytes of
    the state file. *)

Class Persist (D F : Type) := persist : Time -> F -> Market -> D -> option CityError * D.
#[export] Instance disk_persist : Persist Disk (option string) := persistLocked.

Section Persisted.
Context {D F : Type} {P : Persist D F}.

(** [src/internal/city/market.go:236-260] CreateConsumer *)
Definition CreateConsumer (input : CreateConsumerInput) (raw : res string (list Z)) (now : Time)
    (fault : F) (m : Market) (d : D) : res CityError CreatedConsumer * Market * D :=
  let id := normalizeAccountID (ci_ID input) in
  if id =s "" then (Err ErrInvalidAccount, m, d)
  else match randomSecret "sk-mi-" raw with
  | Err err => (Err err, m, d)
  | Ok apiKey =>
      match m_consumers m !! id with
      | Some _ => (Err ErrAccountExists, m, d)
      | None =>
          let consumer := {| cn_ID := id; cn_DisplayName := displayName (ci_DisplayName input) id;
                             cn_TotalTokenLimit := ci_TotalTokenLimit input; cn_Disabled := false |} in
          let m := m <| m_consumers ::= <[id := consumer]> |> <| m_apiKeyHashes ::= <[hashSecret apiKey := id]> |> in
          match persist now fault m d with
          | (Some err, d) =>
              (Err err, m <| m_consumers ::= delete id |> <| m_apiKeyHashes ::= delete (hashSecret apiKey) |>, d)
          | (None, d) => (Ok {| cd_Consumer := consumer; cd_APIKey := apiKey |}, m, d)
          end
      end
  end.

(** [src/internal/city/market.go:262-290] CreateProvider *)
Definition CreateProvider (input : CreateProviderInput) (raw : res string (list Z)) (now : Time)
    (fault : F) (m : Market) (d : D) : res CityError CreatedProvider * Market * D :=
  let id := normalizeAccountID (pi_ID input) in
  if id =s "" then (Err ErrInvalidAccount, m, d)
  else match randomSecret "pk-mi-" raw with
  | Err err => (Err err, m, d)
  | Ok token =>
      match m_providers m !! id with
      | Some _ => (Err ErrAccountExists, m, d)
      | None =>
          match providerPrivacy (pi_PrivacyMode input) (pi_PrivacyTiers input) with
          | Err _ => (Err ErrInvalidPrivacy, m, d)
          | Ok (privacyMode, privacyTiers) =>
              let provider := {| pv_ID := id; pv_DisplayName := displayName (pi_DisplayName input) id;
                                 pv_Disabled := false; pv_PrivacyMode := privacyMode;
                                 pv_PrivacyTiers := privacyTiers |} in
              let m := m <| m_providers ::= <[id := provider]> |>
                         <| m_tokenHashes ::= <[hashSecret token := id]> |> in
              match persist now fault m d with
              | (Some err, d) =>
                  (Err err, m <| m_providers ::= delete id |> <| m_tokenHashes ::= delete (hashSecret token) |>, d)
              | (None, d) => (Ok {| cp_Provider := provider; cp_ProviderToken := token |}, m, d)
              end
          end
      end
  end.

(** [src/internal/city/market.go:292-317] RotateConsumerKey *)
Definition RotateConsumerKey (rawID : string) (raw : res string (list Z)) (now : Time)
    (fault : F) (m : Market) (d : D) : res CityError CreatedConsumer * Market * D :=
  let id := normalizeAccountID rawID in
  if id =s "" then (Err ErrInvalidAccount, m, d)
  else match randomSecret "sk-mi-" raw with
  | Err err => (Err err, m, d)
  | Ok apiKey =>
      match m_consumers m !! id with
      | None => (Err ErrAccountNotFound, m, d)
      | Some consumer =>
          if cn_Disabled consumer then (Err ErrAccountDisabled, m, d)
          else
            let m := (removeConsumerSecretsLocked id m) <| m_apiKeyHashes ::= <[hashSecret apiKey := id]> |> in
            match persist now fault m d with
            | (Some err, d) => (Err err, m, d)
            | (None, d) => (Ok {| cd_Consumer := consumer; cd_APIKey := apiKey |}, m, d)
            end
      end
  end.

(** [src/internal/city/market.go:319-344] RotateProviderToken *)
Definition RotateProviderToken (rawID : string) (raw : res string (list Z)) (now : Time)
    (fault : F) (m : Market) (d : D) : res CityError CreatedProvider * Market * D :=
  let id := normalizeAccountID rawID in
  if id =s "" then (Err ErrInvalidAccount, m, d)
  else match randomSecret "pk-mi-" raw with
  | Err err => (Err err, m, d)
  | Ok token =>
      match m_providers m !! id with
      | None => (Err ErrAccountNotFound, m, d)
      | Some provider =>
          if pv_Disabled provider then (Err ErrAccountDisabled, m, d)
          else
            let m := (removeProviderSecretsLocked id m) <| m_tokenHashes ::= <[hashSecret token := id]> |> in
            match persist now fault m d with
            | (Some err, d) => (Err err, m, d)
            | (None, d) => (Ok {| cp_Provider := provider; cp_ProviderToken := token |}, m, d)
            end
      end
  end.

(** [src/internal/city/market.go:346-364] DisableConsumer *)
Definition DisableConsumer (rawID : string) (now : Time) (fault : F) (m : Market) (d : D)
  : res CityError Consumer * Market * D :=
  let id := normalizeAccountID rawID in
  if id =s "" then (Err ErrInvalidAccount, m, d)
  else match m_consumers m !! id with
  | None => (Err ErrAccountNotFound, m, d)
  | Some consumer =>
      let consumer := consumer <| cn_Disabled := true |> in
      let m := removeConsumerSecretsLocked id (m <| m_consumers ::= <[id := consumer]> |>) in
      match persist now fault m d with
      | (Some err, d) => (Err err, m, d)
      | (None, d) => (Ok consumer, m, d)
      end
  end.

(** [src/internal/city/market.go:366-384] DisableProvider *)
Definition DisableProvider (rawID : string) (now : Time) (fault : F) (m : Market) (d : D)
  : res CityError Provider * Market * D :=
  let id := normalizeAccountID rawID in
  if id =s "" then (Err ErrInvalidAccount, m, d)
  else match m_providers m !! id with
  | None => (Err ErrAccountNotFound, m, d)
  | Some provider =>
      let provider := provider <| pv_Disabled := true |> in
      let m := removeProviderSecretsLocked id (m <| m_providers ::= <[id := provider]> |>) in
      match persist now fault m d with
      | (Some err, d) => (Err err, m, d)
      | (None, d) => (Ok provider, m, d)
      end
  end.
End Persisted.

(** ** Quotas and usage *)

(** [src/internal/city/market.go:452-469] checkConsumerQuotaLocked *)
Definition checkConsumerQuotaLocked (m : Market) (accountID : string) (additionalTokens : Z) : option CityError :=
  match m_consumers m !! accountID with
  | None => None
  | Some consumer =>
      if cn_TotalTokenLimit consumer <=? 0 then None
      else
        let used := map_get 0 (m_reservedUse m) accountID +w additionalTokens in
        let used := match m_consumerUse m !! accountID with
          | Some usage => used +w us_TotalTokens usage | None => used end in
        if (additionalTokens =? 0) && (cn_TotalTokenLimit consumer <=? used) then Some ErrQuotaExceeded
        else if (0 <? additionalTokens) && (cn_TotalTokenLimit consumer <? used) then Some ErrQuotaExceeded
        else None
  end.

(** [src/internal/city/market.go:401-405] CheckConsumerQuota *)
Definition CheckConsumerQuota (m : Market) (accountID : string) : option CityError :=
  checkConsumerQuotaLocked m accountID 0.

(** [src/internal/city/market.go:412-430] ReserveConsumerQuota; a nil reservation is [None]. *)
Definition ReserveConsumerQuota (accountID : string) (estimatedTokens : Z) (m : Market)
  : res CityError (option QuotaReservation * Market) :=
  let estimatedTokens := if estimatedTokens <? 0 then 0 else estimatedTokens in
  match checkConsumerQuotaLocked m accountID estimatedTokens with
  | Some err => Err err
  | None =>
      if estimatedTokens =? 0 then Ok (None, m)
      else match m_consumers m !! accountID with
      | None => Ok (None, m)
      | Some consumer =>
          if cn_TotalTokenLimit consumer <=? 0 then Ok (None, m)
          else Ok (Some {| qr_accountID := accountID; qr_tokens := estimatedTokens |},
                   m <| m_reservedUse ::= <[accountID := map_get 0 (m_reservedUse m) accountID +w estimatedTokens]> |>)
      end
  end.

(** [src/internal/city/market.go:908-918] releaseReservationLocked *)
Definition releaseReservationLocked (reservation : option QuotaReservation) (m : Market) : Market :=
  match reservation with
  | None => m
  | Some reservation =>
      if qr_tokens reservation <=? 0 then m
      else
        let current := map_get 0 (m_reservedUse m) (qr_accountID reservation) in
        if current <=? qr_tokens reservation
        then m <| m_reservedUse ::= delete (qr_accountID reservation) |>
        else m <| m_reservedUse ::= <[qr_accountID reservation := current -w qr_tokens reservation]> |>
  end.

(** [src/internal/city/market.go:432-439] ReleaseReservation *)
Definition ReleaseReservation (reservation : option QuotaReservation) (m : Market) : Market :=
  match reservation with
  | None => m
  | Some r => if qr_tokens r <=? 0 then m else releaseReservationLocked reservation m
  end.

(** [src/internal/city/market.go:574-588] addUsage *)
Definition addUsage (accountID : string) (done : InferDone) (now : Time) (bucket : gmap string Usage)
  : gmap string Usage :=
  let accountID := if accountID =s "" then "unknown" else accountID in
  let usage := default (empty_Usage accountID) (bucket !! accountID) in
  let prompt := us_PromptTokens usage +w id_PromptTokens done in
  let completion := us_CompletionTokens usage +w id_OutputTokens done in
  <[accountID := {| us_AccountID := us_AccountID usage; us_Requests := us_Requests usage +w 1;
                    us_PromptTokens := prompt; us_CompletionTokens := completion;
                    us_TotalTokens := prompt +w completion; us_UpdatedAt := now |}]> bucket.

(** [src/internal/city/market.go:526-534] Record; the persist error is returned beside the state. *)
Definition Record_ (consumerID providerID : string) (done : InferDone) (now : Time) {D F : Type} {P : Persist D F} (fault : F)
    (m : Market) (d : D) : option CityError * Market * D :=
  let m := m <| m_consumerUse ::= addUsage consumerID done now |> in
  let m := if negb (providerID =s "") then m <| m_providerUse ::= addUsage providerID done now |> else m in
  let '(err, d) := persist now fault m d in (err, m, d).

(** [src/internal/city/market.go:441-450] RecordReserved *)
Definition RecordReserved (reservation : option QuotaReservation) (consumerID providerID : string)
    (done : InferDone) (now : Time) {D F : Type} {P : Persist D F} (fault : F) (m : Market) (d : D)
  : option CityError * Market * D :=
  let m := releaseReservationLocked reservation m in
  let m := m <| m_consumerUse ::= addUsage consumerID done now |> in
  let m := if negb (providerID =s "") then m <| m_providerUse ::= addUsage providerID done now |> else m in
  let '(err, d) := persist now fault m d in (err, m, d).

(** [src/internal/city/market.go:536-559] ConsumerStatus *)
Definition ConsumerStatus_ (m : Market) (accountID : string) : ConsumerStatus :=
  let consumer := map_get empty_Consumer (m_consumers m) accountID in
  let consumer := if cn_ID consumer =s ""
    then {| cn_ID := accountID; cn_DisplayName := accountID; cn_TotalTokenLimit := 0; cn_Disabled := false |}
    else consumer in
  let usage := default (empty_Usage accountID) (m_consumerUse m !! accountID) in
  if 0 <? cn_TotalTokenLimit consumer then
    let reserved := map_get 0 (m_reservedUse m) accountID in
    let remaining := cn_TotalTokenLimit consumer -w us_TotalTokens usage -w reserved in
    {| cs_Consumer := consumer; cs_Usage := usage; cs_ReservedTokens := reserved;
       cs_RemainingTokens := if remaining <? 0 then 0 else remaining;
       cs_QuotaExceeded := cn_TotalTokenLimit consumer <=? us_TotalTokens usage +w reserved |}
  else {| cs_Consumer := consumer; cs_Usage := usage; cs_ReservedTokens := 0; cs_RemainingTokens := 0;
          cs_QuotaExceeded := false |}.

(** [src/internal/city/market.go:561-572] Snapshot *)
Definition Snapshot (m : Market) : MarketSnapshot :=
  {| sn_Enabled := m_enabled m; sn_Name := m_name m; sn_Consumers := consumerMapValues (m_consumers m);
     sn_Providers := providerMapValues (m_providers m); sn_ConsumerUsage := usageMapValues (m_consumerUse m);
     sn_ProviderUsage := usageMapValues (m_providerUse m) |}.
