(* ===== verification/Reputation.v ===== *)
(** * Provider reputation: [internal/reputation/reputation.go]

    [Build] joins the snapshots of four components, the market, the node registry and
    the two ledgers, into one row per provider, with a score from 0 to 100 that the
    coordinator feeds back into the registry.  The map of rows is a [gmap]; the pointer
    [providerItem] returns is used for the assignments that follow it only, so an update
    of the entry stands for it. *)

From Stdlib Require Import Sorted.
From S2P Require Import Prelude GoString GoSort GoFloat Privacy Protocol Config Scheduler City Settlement.
From S2P Require Import Challenge.

(** ** Data *)

(** [src/internal/reputation/reputation.go:42-58] NodeReputation *)
Record NodeReputation := {
  nr_NodeID : string;
  nr_PublicName : string;
  nr_Backend : string;
  nr_DeviceKind : string;
  nr_DeviceVendor : string;
  nr_DeviceModel : string;
  nr_SoC : string;
  nr_Accelerators : list string;
  nr_Healthy : bool;
  nr_InCooldown : bool;
  nr_ErrorStreak : Z;
  nr_Active : Z;
  nr_MaxConcurrent : Z;
  nr_Models : list string;
  nr_LastError : string;
}.

(** [src/internal/reputation/reputation.go:18-40] ProviderReputation *)
Record ProviderReputation := {
  pr_ProviderID : string;
  pr_DisplayName : string;
  pr_PrivacyMode : string;
  pr_Disabled : bool;
  pr_Score : Z;
  pr_Grade : string;
  pr_TotalNodes : Z;
  pr_HealthyNodes : Z;
  pr_CooldownNodes : Z;
  pr_ActiveRequests : Z;
  pr_ErrorStreak : Z;
  pr_CompletedEvents : Z;
  pr_TotalTokens : Z;
  pr_AverageLatencyMs : Z;
  pr_Challenges : Z;
  pr_ChallengePassRateBPS : Z;
  pr_ChallengeScore : Z;
  pr_RewardMicros : Z;
  pr_PenaltyMicros : Z;
  pr_Notes : list string;
  pr_Nodes : list NodeReputation;
}.
#[export] Instance eta_ProviderReputation : Settable ProviderReputation := fun p =>
  Build_ProviderReputation (pr_ProviderID p) (pr_DisplayName p) (pr_PrivacyMode p) (pr_Disabled p) (pr_Score p)
    (pr_Grade p) (pr_TotalNodes p) (pr_HealthyNodes p) (pr_CooldownNodes p) (pr_ActiveRequests p) (pr_ErrorStreak p)
    (pr_CompletedEvents p) (pr_TotalTokens p) (pr_AverageLatencyMs p) (pr_Challenges p) (pr_ChallengePassRateBPS p)
    (pr_ChallengeScore p) (pr_RewardMicros p) (pr_PenaltyMicros p) (pr_Notes p) (pr_Nodes p).

(** [&ProviderReputation{ProviderID: id}]. *)
Definition newReputation (id : string) : ProviderReputation :=
  {| pr_ProviderID := id; pr_DisplayName := ""; pr_PrivacyMode := ""; pr_Disabled := false; pr_Score := 0;
     pr_Grade := ""; pr_TotalNodes := 0; pr_HealthyNodes := 0; pr_CooldownNodes := 0; pr_ActiveRequests := 0;
     pr_ErrorStreak := 0; pr_CompletedEvents := 0; pr_TotalTokens := 0; pr_AverageLatencyMs := 0; pr_Challenges := 0;
     pr_ChallengePassRateBPS := 0; pr_ChallengeScore := 0; pr_RewardMicros := 0; pr_PenaltyMicros := 0;
     pr_Notes := []; pr_Nodes := [] |}.

(** [src/internal/reputation/reputation.go:13-16] Report *)
Record Report := { rp_GeneratedAt : Time; rp_Providers : list ProviderReputation }.

(** ** Score and grade *)

(** A stage of [score] adds to the value and may append a note. *)
Definition Scored : Type := Z * list string.

(** [src/internal/reputation/reputation.go:151-159] score (the nodes) *)
Definition scoreNodes (item : ProviderReputation) (s : Scored) : Scored :=
  let '(value, notes) := s in
  if pr_TotalNodes item =? 0 then (value, notes ++ ["no active nodes"])
  else
    let value := value +w 30 *w pr_HealthyNodes item /w pr_TotalNodes item in
    if 0 <? pr_CooldownNodes item
    then (value -w 10 *w pr_CooldownNodes item, notes ++ ["nodes in cooldown"])
    else (value, notes).

(** [src/internal/reputation/reputation.go:160-165] score (the settled work) *)
Definition scoreWork (item : ProviderReputation) (s : Scored) : Scored :=
  let '(value, notes) := s in
  let '(value, notes) :=
    if 0 <? pr_CompletedEvents item then (value +w Z.min 15 (pr_CompletedEvents item), notes)
    else (value, notes ++ ["no completed settlement events"]) in
  (value +w Z.min 10 (pr_TotalTokens item /w 1000), notes).

(** [src/internal/reputation/reputation.go:166-173] score (errors and penalties) *)
Definition scoreFaults (item : ProviderReputation) (s : Scored) : Scored :=
  let '(value, notes) := s in
  let '(value, notes) :=
    if 0 <? pr_ErrorStreak item
    then (value -w Z.min 25 (pr_ErrorStreak item *w 5), notes ++ ["recent node errors"])
    else (value, notes) in
  if 0 <? pr_PenaltyMicros item
  then (value -w Z.min 20 (pr_PenaltyMicros item /w 100), notes ++ ["SLA latency penalties applied"])
  else (value, notes).

(** [src/internal/reputation/reputation.go:174-182] score (the challenges) *)
Definition scoreChallenges (item : ProviderReputation) (s : Scored) : Scored :=
  let '(value, notes) := s in
  if 0 <? pr_Challenges item then
    let value := value +w Z.min 10 (pr_ChallengeScore item /w 10) in
    if pr_ChallengePassRateBPS item <? 8000
    then (value -w Z.min 25 ((8000 -w pr_ChallengePassRateBPS item) /w 400),
          notes ++ ["challenge pass rate below target"])
    else (value, notes)
  else (value, notes ++ ["no benchmark challenges recorded"]).

(** [src/internal/reputation/reputation.go:145-193] score *)
Definition score (item : ProviderReputation) : Z * list string :=
  if pr_Disabled item then (0, ["provider disabled"])
  else
    let '(value, notes) := scoreChallenges item (scoreFaults item (scoreWork item (scoreNodes item (40, [])))) in
    let notes :=
      if (0 <? pr_TotalNodes item) && (pr_HealthyNodes item =? 0) then notes ++ ["all nodes unhealthy"] else notes in
    let value := if value <? 0 then 0 else value in
    let value := if 100 <? value then 100 else value in
    (value, notes).

(** [src/internal/reputation/reputation.go:195-208] grade *)
Definition grade (score : Z) : string :=
  if 90 <=? score then "A"
  else if 75 <=? score then "B"
  else if 60 <=? score then "C"
  else if 40 <=? score then "D"
  else "F".

(** ** Build *)

Abbreviation Items := (gmap string ProviderReputation).

(** [src/internal/reputation/reputation.go:133-143] providerItem, with the assignments [f] made through its pointer *)
Definition providerItem (providerID : string) (f : ProviderReputation -> ProviderReputation) (items : Items) : Items :=
  let providerID := if providerID =s "" then "unknown" else providerID in
  <[providerID := f (default (newReputation providerID) (items !! providerID))]> items.

(** [src/internal/reputation/reputation.go:61-69] Build (the registered providers) *)
Definition addProvider (items : Items) (p : Provider) : Items :=
  <[pv_ID p := (newReputation (pv_ID p)) <| pr_DisplayName := pv_DisplayName p |>
      <| pr_PrivacyMode := pv_PrivacyMode p |> <| pr_Disabled := pv_Disabled p |>]> items.

(** [src/internal/reputation/reputation.go:72-76] Build (the fields a balance sets) *)
Definition setBalance (balance : Balance) (item : ProviderReputation) : ProviderReputation :=
  item <| pr_CompletedEvents := b_Events balance |> <| pr_TotalTokens := b_TotalTokens balance |>
    <| pr_AverageLatencyMs := b_AverageLatencyMs balance |> <| pr_RewardMicros := b_RewardMicros balance |>
    <| pr_PenaltyMicros := b_PenaltyMicros balance |>.

(** [src/internal/reputation/reputation.go:70-77] Build (a balance) *)
Definition addBalance (items : Items) (balance : Balance) : Items :=
  providerItem (b_AccountID balance) (setBalance balance) items.

(** [src/internal/reputation/reputation.go:80-82] Build (the fields a challenge summary sets) *)
Definition setSummary (summary : ProviderSummary) (item : ProviderReputation) : ProviderReputation :=
  item <| pr_Challenges := ps_Challenges summary |> <| pr_ChallengePassRateBPS := ps_PassRateBPS summary |>
    <| pr_ChallengeScore := ps_AverageScore summary |>.

(** [src/internal/reputation/reputation.go:78-83] Build (a challenge summary) *)
Definition addSummaryRow (items : Items) (summary : ProviderSummary) : Items :=
  providerItem (ps_ProviderID summary) (setSummary summary) items.

(** [src/internal/reputation/reputation.go:99-115] Build (a node's row) *)
Definition nodeRow (node : NodeView) : NodeReputation :=
  {| nr_NodeID := v_ID node; nr_PublicName := v_PublicName node; nr_Backend := v_Backend node;
     nr_DeviceKind := v_DeviceKind node; nr_DeviceVendor := v_DeviceVendor node; nr_DeviceModel := v_DeviceModel node;
     nr_SoC := v_SoC node; nr_Accelerators := v_Accelerators node; nr_Healthy := v_Healthy node;
     nr_InCooldown := v_InCooldown node; nr_ErrorStreak := v_ErrorStreak node; nr_Active := v_Active node;
     nr_MaxConcurrent := v_MaxConcurrent node; nr_Models := v_Models node; nr_LastError := v_LastError node |}.

(** The account a node counts for: its provider, or itself. *)
Definition nodeOwner (node : NodeView) : string := if v_ProviderID node =s "" then v_ID node else v_ProviderID node.

(** [src/internal/reputation/reputation.go:90-115] Build (what a node adds) *)
Definition countNode (node : NodeView) (item : ProviderReputation) : ProviderReputation :=
  let item := item <| pr_TotalNodes ::= fun n => n +w 1 |>
    <| pr_ActiveRequests ::= fun n => n +w v_Active node |> <| pr_ErrorStreak ::= fun n => n +w v_ErrorStreak node |> in
  let item := if v_Healthy node then item <| pr_HealthyNodes ::= fun n => n +w 1 |> else item in
  let item := if v_InCooldown node then item <| pr_CooldownNodes ::= fun n => n +w 1 |> else item in
  item <| pr_Nodes ::= fun ns => ns ++ [nodeRow node] |>.

(** [src/internal/reputation/reputation.go:84-116] Build (a node) *)
Definition addNode (items : Items) (node : NodeView) : Items :=
  providerItem (nodeOwner node) (countNode node) items.

(** [src/internal/reputation/reputation.go:118-123] Build (score, grade and order of the nodes) *)
Definition finishItem (item : ProviderReputation) : ProviderReputation :=
  let '(s, notes) := score item in
  let item := item <| pr_Score := s |> <| pr_Notes := notes |> in
  item <| pr_Grade := grade (pr_Score item) |> <| pr_Nodes ::= sort_by nr_NodeID |>.

(** [src/internal/reputation/reputation.go:124-129] Build (the order of the rows) *)
Definition rowLess (a b : ProviderReputation) : bool :=
  if pr_Score a =? pr_Score b then str_ltb (pr_ProviderID a) (pr_ProviderID b) else pr_Score b <? pr_Score a.

(** The rows before they are scored. *)
Definition collectItems (city : MarketSnapshot) (nodes : list NodeView) (ledger : LedgerSnapshot)
    (challenges : ChallengeSnapshot) : Items :=
  let items := fold_left addProvider (sn_Providers city) ∅ in
  let items := fold_left addBalance (ls_ProviderBalances ledger) items in
  let items := fold_left addSummaryRow (cs_Summaries challenges) items in
  fold_left addNode nodes items.

(** [src/internal/reputation/reputation.go:60-131] Build *)
Definition Build (city : MarketSnapshot) (nodes : list NodeView) (ledger : LedgerSnapshot)
    (challenges : ChallengeSnapshot) (now : Time) : Report :=
  let out := finishItem ∘ snd <$> map_to_list (collectItems city nodes ledger challenges) in
  {| rp_GeneratedAt := now; rp_Providers := sort_slice rowLess out |}.

(** ** Properties of the score *)

Lemma score_bounds item : 0 <= fst (score item) <= 100.
Proof.
  unfold score. destruct (pr_Disabled item); [simpl; lia|]. destruct (scoreChallenges _ _) as [v notes]. simpl.
  repeat case_goal; bsimpl; simpl; lia.
Qed.

(** A row's counters are such that no step of [score] leaves 64 bits. *)
Definition score_fits (item : ProviderReputation) : Prop :=
  0 <= pr_HealthyNodes item <= pr_TotalNodes item /\ pr_TotalNodes item * 30 <= max_int64
  /\ 0 <= pr_CooldownNodes item <= pr_TotalNodes item
  /\ pr_ErrorStreak item * 5 <= max_int64
  /\ 0 <= pr_TotalTokens item <= max_int64
  /\ 0 <= pr_ChallengeScore item <= 100 /\ 0 <= pr_ChallengePassRateBPS item <= 10000.

(** [(a, n) = (b, ?n)] from the arithmetic of [a = b]. *)
Ltac pair_eq := refine (f_equal2 pair _ eq_refl); lia.

(** The stages of [score] as exact contributions. *)
Definition nodesPart (item : ProviderReputation) : Z :=
  if pr_TotalNodes item =? 0 then 0 else 30 * pr_HealthyNodes item / pr_TotalNodes item - 10 * pr_CooldownNodes item.
Definition workPart (item : ProviderReputation) : Z :=
  (if 0 <? pr_CompletedEvents item then Z.min 15 (pr_CompletedEvents item) else 0)
  + Z.min 10 (pr_TotalTokens item / 1000).
Definition faultsPart (item : ProviderReputation) : Z :=
  (if 0 <? pr_ErrorStreak item then Z.min 25 (pr_ErrorStreak item * 5) else 0)
  + (if 0 <? pr_PenaltyMicros item then Z.min 20 (pr_PenaltyMicros item / 100) else 0).
Definition challengesPart (item : ProviderReputation) : Z :=
  if 0 <? pr_Challenges item then
    Z.min 10 (pr_ChallengeScore item / 10)
    - (if pr_ChallengePassRateBPS item <? 8000 then Z.min 25 ((8000 - pr_ChallengePassRateBPS item) / 400) else 0)
  else 0.

(** A value small enough for the stage that follows it. *)
Lemma scoreNodes_exact item value notes :
  score_fits item -> value = 40 ->
  exists notes', scoreNodes item (value, notes) = (value + nodesPart item, notes')
    /\ -3200000000000000000 <= nodesPart item <= 30.
Proof.
  intros (Hh & Ht & Hc & _) ->. unfold scoreNodes, nodesPart.
  destruct (pr_TotalNodes item =? 0) eqn:E; bsimpl; [eexists; split; [done|lia]|].
  assert (Hq : 0 <= 30 * pr_HealthyNodes item / pr_TotalNodes item <= 30).
  { split; [apply Z.div_pos; lia|]. apply Z.div_le_upper_bound; lia. }
  rewrite (mul64_id 30) by ilia. unfold quo64. rewrite Z.quot_div_nonneg by lia.
  set (q := 30 * _ / _) in *. rewrite (add64_id 40) by ilia.
  assert (Hlo : -3200000000000000000 <= q - 10 * pr_CooldownNodes item) by ilia.
  destruct (0 <? pr_CooldownNodes item) eqn:E2; bsimpl.
  - rewrite (mul64_id 10), sub64_id by ilia. eexists. split; [pair_eq|lia].
  - assert (pr_CooldownNodes item = 0) as -> by lia. eexists. split; [pair_eq|lia].
Qed.

Lemma scoreWork_exact item value notes :
  score_fits item -> -4000000000000000000 <= value <= 100 ->
  exists notes', scoreWork item (value, notes) = (value + workPart item, notes') /\ 0 <= workPart item <= 25.
Proof.
  intros (_ & _ & _ & _ & Ht & _) Hv. unfold scoreWork, workPart.
  assert (0 <= pr_TotalTokens item / 1000) by (apply Z.div_pos; lia).
  unfold quo64. rewrite (Z.quot_div_nonneg _ 1000) by lia. set (t := _ / 1000) in *.
  destruct (0 <? pr_CompletedEvents item) eqn:E; bsimpl; eexists.
  - rewrite (add64_id value), add64_id by ilia. split; [pair_eq|lia].
  - rewrite add64_id by ilia. split; [pair_eq|lia].
Qed.

Lemma scoreFaults_exact item value notes :
  score_fits item -> -4000000000000000000 <= value <= 200 ->
  exists notes', scoreFaults item (value, notes) = (value - faultsPart item, notes') /\ 0 <= faultsPart item <= 45.
Proof.
  intros (_ & _ & _ & He & _) Hv. unfold scoreFaults, faultsPart.
  assert (Hd : 0 < pr_PenaltyMicros item -> pr_PenaltyMicros item /w 100 = pr_PenaltyMicros item / 100
    /\ 0 <= pr_PenaltyMicros item / 100).
  { intros Hp. unfold quo64. rewrite Z.quot_div_nonneg by lia. split; [done|apply Z.div_pos; lia]. }
  destruct (0 <? pr_ErrorStreak item) eqn:E1, (0 <? pr_PenaltyMicros item) eqn:E2; bsimpl;
    try (destruct Hd as [-> Hd]; [done|]); rewrite ?(mul64_id _ 5) by ilia; eexists.
  all: rewrite ?(sub64_id value) by ilia; rewrite ?sub64_id by ilia; split; [pair_eq|lia].
Qed.

Lemma scoreChallenges_exact item value notes :
  score_fits item -> -4000000000000000100 <= value <= 200 ->
  exists notes', scoreChallenges item (value, notes) = (value + challengesPart item, notes').
Proof.
  intros (_ & _ & _ & _ & _ & Hs & Hr) Hv. unfold scoreChallenges, challengesPart. unfold quo64.
  rewrite Z.quot_div_nonneg by lia.
  assert (0 <= pr_ChallengeScore item / 10 <= 10) by (split; [apply Z.div_pos; lia|apply Z.div_le_upper_bound; lia]).
  destruct (0 <? pr_Challenges item); [|eexists; pair_eq].
  rewrite (add64_id value) by ilia. destruct (pr_ChallengePassRateBPS item <? 8000) eqn:E; bsimpl; eexists; [|pair_eq].
  rewrite (sub64_id 8000) by ilia. rewrite Z.quot_div_nonneg by lia.
  assert (0 <= (8000 - pr_ChallengePassRateBPS item) / 400) by (apply Z.div_pos; lia).
  rewrite sub64_id by ilia. pair_eq.
Qed.

(** The score is the clamped sum of its four parts. *)
Lemma score_exact item :
  score_fits item -> pr_Disabled item = false ->
  fst (score item)
  = Z.max 0 (Z.min 100 (40 + nodesPart item + workPart item - faultsPart item + challengesPart item)).
Proof.
  intros Hf Hd. unfold score. rewrite Hd.
  destruct (scoreNodes_exact item 40 [] Hf eq_refl) as (n1 & -> & Hn).
  destruct (scoreWork_exact item (40 + nodesPart item) n1 Hf) as (n2 & -> & Hw); [lia|].
  destruct (scoreFaults_exact item (40 + nodesPart item + workPart item) n2 Hf) as (n3 & -> & Hfa); [lia|].
  destruct (scoreChallenges_exact item (40 + nodesPart item + workPart item - faultsPart item) n3 Hf) as (n4 & ->); [lia|].
  simpl. repeat case_goal; bsimpl; simpl; lia.
Qed.

(** [b] is at least as good as [a] in everything the score looks at. *)
Definition no_worse (a b : ProviderReputation) : Prop :=
  pr_Disabled b = false /\ pr_TotalNodes a = pr_TotalNodes b
  /\ pr_HealthyNodes a <= pr_HealthyNodes b /\ pr_CooldownNodes b <= pr_CooldownNodes a
  /\ pr_CompletedEvents a <= pr_CompletedEvents b /\ pr_TotalTokens a <= pr_TotalTokens b
  /\ pr_ErrorStreak b <= pr_ErrorStreak a /\ pr_PenaltyMicros b <= pr_PenaltyMicros a
  /\ (0 <? pr_Challenges a) = (0 <? pr_Challenges b)
  /\ pr_ChallengeScore a <= pr_ChallengeScore b /\ pr_ChallengePassRateBPS a <= pr_ChallengePassRateBPS b.

Lemma nodesPart_mono a b : score_fits a -> no_worse a b -> nodesPart a <= nodesPart b.
Proof.
  intros (Hh & _) (_ & Ht & Hle & Hc & _). unfold nodesPart. rewrite <- Ht.
  destruct (pr_TotalNodes a =? 0) eqn:E; [done|]. bsimpl.
  assert (30 * pr_HealthyNodes a / pr_TotalNodes a <= 30 * pr_HealthyNodes b / pr_TotalNodes a)
    by (apply Z.div_le_mono; lia). lia.
Qed.

Lemma workPart_mono a b : no_worse a b -> workPart a <= workPart b.
Proof.
  intros (_ & _ & _ & _ & He & Ht & _). unfold workPart.
  assert (pr_TotalTokens a / 1000 <= pr_TotalTokens b / 1000) by (apply Z.div_le_mono; lia).
  destruct (0 <? pr_CompletedEvents a) eqn:E1, (0 <? pr_CompletedEvents b) eqn:E2; bsimpl; lia.
Qed.

Lemma faultsPart_mono a b : no_worse a b -> faultsPart b <= faultsPart a.
Proof.
  intros (_ & _ & _ & _ & _ & _ & He & Hp & _). unfold faultsPart.
  assert (pr_PenaltyMicros b / 100 <= pr_PenaltyMicros a / 100) by (apply Z.div_le_mono; lia).
  assert (0 < pr_PenaltyMicros a -> 0 <= pr_PenaltyMicros a / 100) by (intros; apply Z.div_pos; lia).
  destruct (0 <? pr_ErrorStreak a) eqn:E1, (0 <? pr_ErrorStreak b) eqn:E2,
    (0 <? pr_PenaltyMicros a) eqn:E3, (0 <? pr_PenaltyMicros b) eqn:E4; bsimpl; lia.
Qed.

Lemma challengesPart_mono a b : no_worse a b -> challengesPart a <= challengesPart b.
Proof.
  intros (_ & _ & _ & _ & _ & _ & _ & _ & Hc & Hs & Hr). unfold challengesPart. rewrite <- Hc.
  destruct (0 <? pr_Challenges a); [|done].
  assert (pr_ChallengeScore a / 10 <= pr_ChallengeScore b / 10) by (apply Z.div_le_mono; lia).
  assert ((8000 - pr_ChallengePassRateBPS b) / 400 <= (8000 - pr_ChallengePassRateBPS a) / 400)
    by (apply Z.div_le_mono; lia).
  assert (pr_ChallengePassRateBPS a < 8000 -> 0 <= (8000 - pr_ChallengePassRateBPS a) / 400)
    by (intros; apply Z.div_pos; lia).
  destruct (pr_ChallengePassRateBPS a <? 8000) eqn:E1, (pr_ChallengePassRateBPS b <? 8000) eqn:E2; bsimpl; lia.
Qed.

(** More healthy nodes, more settled work and better challenge results never
    lower a provider's score; more cooldowns, node errors and latency penalties never raise it. *)
Theorem score_monotone a b :
  score_fits a -> score_fits b -> no_worse a b -> fst (score a) <= fst (score b).
Proof.
  intros Ha Hb Hn. pose proof Hn as (Hd & _). rewrite (score_exact b) by done.
  destruct (pr_Disabled a) eqn:Hda.
  - unfold score. rewrite Hda. simpl. lia.
  - rewrite (score_exact a) by done.
    pose proof (nodesPart_mono _ _ Ha Hn). pose proof (workPart_mono _ _ Hn).
    pose proof (faultsPart_mono _ _ Hn). pose proof (challengesPart_mono _ _ Hn). lia.
Qed.

(** ** Properties of the rows *)

(** The key a name is filed under. *)
Definition account (id : string) : string := if id =s "" then "unknown" else id.

Lemma providerItem_lookup id f items k :
  providerItem id f items !! k
  = if decide (account id = k) then Some (f (default (newReputation k) (items !! k))) else items !! k.
Proof.
  unfold providerItem. fold (account id). cbv zeta. destruct (decide (account id = k)) as [<-|Hne].
  - by rewrite lookup_insert_eq.
  - by rewrite lookup_insert_ne.
Qed.

(** What a fold of [providerItem] leaves under one key. *)
Lemma fold_items {X} (key : X -> string) (upd : X -> ProviderReputation -> ProviderReputation) l items k :
  fold_left (fun its x => providerItem (key x) (upd x) its) l items !! k =
  match filter (fun x => account (key x) = k) l with
  | [] => items !! k
  | mine => Some (fold_left (fun it x => upd x it) mine (default (newReputation k) (items !! k)))
  end.
Proof.
  induction l as [|x l IH] using rev_ind; [done|].
  rewrite fold_left_app, filter_app, filter_cons, filter_nil. cbn [fold_left].
  rewrite providerItem_lookup. destruct (decide (account (key x) = k)) as [Hk|Hne].
  - rewrite IH. destruct (filter _ l) as [|y mine]; [done|].
    change ((y :: mine) ++ [x]) with (y :: (mine ++ [x])). cbn [fold_left]. by rewrite fold_left_app.
  - by rewrite app_nil_r.
Qed.

(** Elements with distinct keys are determined by them. *)
Lemma NoDup_key {A} (key : A -> string) (l : list A) x y :
  NoDup (key <$> l) -> x ∈ l -> y ∈ l -> key x = key y -> x = y.
Proof.
  induction l as [|z l IH]; intros Hnd Hx Hy Heq; [by apply not_elem_of_nil in Hx|].
  rewrite fmap_cons in Hnd. apply NoDup_cons in Hnd as [Hz Hnd].
  apply elem_of_cons in Hx as [->|Hx], Hy as [->|Hy]; try done; [| |by apply IH].
  - destruct Hz. rewrite Heq. by apply list_elem_of_fmap_2.
  - destruct Hz. rewrite <- Heq. by apply list_elem_of_fmap_2.
Qed.

Lemma addProvider_lookup (l : list Provider) k :
  NoDup (pv_ID <$> l) ->
  match (fold_left addProvider l ∅ : Items) !! k with
  | Some it => exists p, p ∈ l /\ pv_ID p = k /\ it = (newReputation k) <| pr_DisplayName := pv_DisplayName p |>
      <| pr_PrivacyMode := pv_PrivacyMode p |> <| pr_Disabled := pv_Disabled p |>
  | None => ~ exists p, p ∈ l /\ pv_ID p = k
  end.
Proof.
  induction l as [|p l IH] using rev_ind; intros Hnd; [simpl; rewrite lookup_empty; set_solver|].
  rewrite fmap_app, NoDup_app in Hnd. destruct Hnd as (Hnd & Hdis & _). specialize (IH Hnd).
  rewrite fold_left_app. cbn [fold_left]. unfold addProvider at 1. destruct (decide (pv_ID p = k)) as [<-|Hne].
  - rewrite lookup_insert_eq. exists p. set_solver.
  - rewrite lookup_insert_ne by done. destruct (_ !! k) as [it|].
    + destruct IH as (q & ? & ?). exists q. set_solver.
    + intros (q & Hq & <-). apply IH. exists q. set_solver.
Qed.

(** A fold that leaves a field alone. *)
Lemma fold_keeps {X A} (f : ProviderReputation -> A) (upd : X -> ProviderReputation -> ProviderReputation) l it :
  (forall x it, f (upd x it) = f it) -> f (fold_left (fun it x => upd x it) l it) = f it.
Proof. intros Hk. revert it. induction l as [|x l IH]; intros it; [done|]. simpl. by rewrite IH, Hk. Qed.


(** The nodes that count for one row. *)
Definition nodes_of (id : string) (nodes : list NodeView) : list NodeView :=
  filter (fun n => account (nodeOwner n) = id) nodes.

(** Counting a row's nodes, from a row that has none. *)
Definition counted (mine : list NodeView) (it : ProviderReputation) : Prop :=
  pr_TotalNodes it = Z.of_nat (length mine)
  /\ pr_HealthyNodes it = Z.of_nat (length (filter (fun n => v_Healthy n = true) mine))
  /\ pr_CooldownNodes it = Z.of_nat (length (filter (fun n => v_InCooldown n = true) mine))
  /\ pr_Nodes it = nodeRow <$> mine.

Lemma countNode_counted mine it n :
  Z.of_nat (length mine) < max_int64 -> counted mine it -> counted (mine ++ [n]) (countNode n it).
Proof.
  intros Hfit (Ht & Hh & Hc & Hn). unfold counted, countNode. rewrite !filter_app, !filter_cons, !filter_nil, fmap_app.
  pose proof (length_filter (fun n => v_Healthy n = true) mine).
  pose proof (length_filter (fun n => v_InCooldown n = true) mine).
  assert (Hadd : forall x, 0 <= x <= Z.of_nat (length mine) -> x +w 1 = x + 1) by (intros x Hx; apply add64_id; ilia).
  rewrite !length_app.
  destruct (v_Healthy n), (v_InCooldown n); simpl; rewrite ?Ht, ?Hh, ?Hc, ?Hn, ?Hadd; split_and!; done || lia.
Qed.

Lemma fold_counted mine it :
  Z.of_nat (length mine) <= max_int64 -> counted [] it -> counted mine (fold_left (fun it n => countNode n it) mine it).
Proof.
  intros Hfit Hz. induction mine as [|n mine IH] using rev_ind; [done|].
  rewrite length_app in Hfit. simpl in Hfit. rewrite fold_left_app. apply countNode_counted; [lia|]. apply IH. lia.
Qed.

(** The rows before the nodes are counted: each under its own id, with its provider's data. *)
Definition base_row (providers : list Provider) (k : string) (it : ProviderReputation) : Prop :=
  pr_ProviderID it = k /\ counted [] it
  /\ forall p, p ∈ providers -> pv_ID p = k -> pr_Disabled it = pv_Disabled p /\ pr_DisplayName it = pv_DisplayName p.

Definition base_rows (providers : list Provider) (items : Items) : Prop :=
  forall k, match items !! k with
    | Some it => base_row providers k it
    | None => ~ exists p, p ∈ providers /\ pv_ID p = k
    end.

Lemma new_base_row providers k : ~ (exists p, p ∈ providers /\ pv_ID p = k) -> base_row providers k (newReputation k).
Proof. intros Hn. split_and!; try done. intros p Hp <-. exfalso. eauto. Qed.

Lemma default_base_row providers items k :
  base_rows providers items -> base_row providers k (default (newReputation k) (items !! k)).
Proof. intros H. specialize (H k). destruct (items !! k); [done|]. by apply new_base_row. Qed.

Lemma fold_base_rows {X} providers (key : X -> string) upd (l : list X) items :
  (forall x k it, base_row providers k it -> base_row providers k (upd x it)) ->
  base_rows providers items ->
  base_rows providers (fold_left (fun its x => providerItem (key x) (upd x) its) l items).
Proof.
  intros Hupd Hb k. rewrite fold_items. pose proof (default_base_row _ _ k Hb) as Hd.
  destruct (filter _ l) as [|x mine]; [apply Hb|].
  generalize dependent (default (newReputation k) (items !! k)). generalize (x :: mine).
  induction l0 as [|y r IH]; intros it Hit; [done|]. simpl. by apply IH, Hupd.
Qed.

Lemma provider_base_rows providers : NoDup (pv_ID <$> providers) -> base_rows providers (fold_left addProvider providers ∅).
Proof.
  intros Hnd k. pose proof (addProvider_lookup providers k Hnd) as H. destruct (_ !! k) as [it|]; [|done].
  destruct H as (p & Hp & Hk & ->). split_and!; try done. simpl. intros q Hq Hqk.
  by assert (q = p) as -> by (eapply (NoDup_key pv_ID); eauto; congruence).
Qed.

Section Rows.
Context (city : MarketSnapshot) (nodes : list NodeView) (ledger : LedgerSnapshot) (challenges : ChallengeSnapshot).
Hypothesis providers_distinct : NoDup (pv_ID <$> sn_Providers city).
Hypothesis nodes_fit : Z.of_nat (length nodes) <= max_int64.

Local Abbreviation items := (collectItems city nodes ledger challenges).

Lemma collect_row k :
  match items !! k with
  | Some it => pr_ProviderID it = k /\ counted (nodes_of k nodes) it
      /\ forall p, p ∈ sn_Providers city -> pv_ID p = k -> pr_Disabled it = pv_Disabled p /\ pr_DisplayName it = pv_DisplayName p
  | None => nodes_of k nodes = [] /\ ~ exists p, p ∈ sn_Providers city /\ pv_ID p = k
  end.
Proof.
  unfold collectItems. set (base := fold_left addSummaryRow _ _).
  assert (Hb : base_rows (sn_Providers city) base).
  { apply (fold_base_rows _ ps_ProviderID setSummary); [by intros x k' it (? & ? & ?)|].
    apply (fold_base_rows _ b_AccountID setBalance); [by intros x k' it (? & ? & ?)|]. by apply provider_base_rows. }
  change addNode with (fun its x => providerItem (nodeOwner x) (countNode x) its). rewrite fold_items.
  fold (nodes_of k nodes). pose proof (default_base_row _ _ k Hb) as (H1 & H2 & H3). specialize (Hb k).
  assert (Hlen : Z.of_nat (length (nodes_of k nodes)) <= max_int64)
    by (pose proof (length_filter (fun n => account (nodeOwner n) = k) nodes); unfold nodes_of; lia).
  destruct (nodes_of k nodes) as [|n mine]; [by destruct (base !! k)|].
  set (it0 := default _ _) in *. rewrite <- (fold_keeps pr_ProviderID countNode (n :: mine)) in H1.
  2: { intros x it. unfold countNode. by destruct (v_Healthy x), (v_InCooldown x). }
  split; [done|]. split; [by apply fold_counted|]. intros p Hp Hk. destruct (H3 p Hp Hk) as [<- <-].
  split; apply fold_keeps; intros x it; unfold countNode; by destruct (v_Healthy x), (v_InCooldown x).
Qed.
End Rows.

(** The rows of a report come from the items. *)
Lemma report_row city nodes ledger challenges now row :
  row ∈ rp_Providers (Build city nodes ledger challenges now) <->
  exists k it, collectItems city nodes ledger challenges !! k = Some it /\ row = finishItem it.
Proof.
  simpl. rewrite elem_of_sort_slice, list_elem_of_fmap. split.
  - intros ([k it] & -> & H%elem_of_map_to_list). by exists k, it.
  - intros (k & it & H & ->). exists (k, it). by rewrite elem_of_map_to_list.
Qed.

Lemma finishItem_fields it :
  pr_ProviderID (finishItem it) = pr_ProviderID it /\ pr_Disabled (finishItem it) = pr_Disabled it
  /\ pr_Score (finishItem it) = fst (score it) /\ pr_Grade (finishItem it) = grade (fst (score it))
  /\ pr_TotalNodes (finishItem it) = pr_TotalNodes it /\ pr_HealthyNodes (finishItem it) = pr_HealthyNodes it
  /\ pr_CooldownNodes (finishItem it) = pr_CooldownNodes it /\ pr_Nodes (finishItem it) = sort_by nr_NodeID (pr_Nodes it).
Proof. unfold finishItem. by destruct (score it). Qed.

(** The order of the rows: best score first, ties by id. *)
Definition row_order (a b : ProviderReputation) : Prop :=
  pr_Score b < pr_Score a \/ (pr_Score a = pr_Score b /\ str_ltb (pr_ProviderID b) (pr_ProviderID a) = false).

Lemma rowLess_order a b : le_of rowLess a b <-> row_order a b.
Proof.
  unfold le_of, rowLess, row_order. destruct (pr_Score b =? pr_Score a) eqn:E; bsimpl.
  - split; [intros H; right; split; [lia|done]|intros [?|[_ ?]]; [lia|done]].
  - rewrite Z.ltb_ge. split; [intros; left; lia|intros [?|[? _]]; lia].
Qed.

Lemma rows_sorted l : StronglySorted row_order (sort_slice rowLess l).
Proof.
  assert (H : StronglySorted (le_of rowLess) (sort_slice rowLess l)).
  { apply (sort_slice_sorted _ (fun _ => True)); [| |by apply Forall_true].
    - intros a b _ _. unfold rowLess. rewrite (Z.eqb_sym (pr_Score b)).
      destruct (pr_Score a =? pr_Score b) eqn:E; [apply str_ltb_asym|]. bsimpl. intros ?%Z.ltb_lt. apply Z.ltb_ge. lia.
    - intros a b c _ _ _. rewrite !rowLess_order. unfold row_order. intros [?|[? H1]] [?|[? H2]]; try (left; lia).
      right. split; [lia|]. by eapply str_le_trans. }
  induction H as [|a l' H IH Ha]; constructor; [done|]. eapply Forall_impl; [exact Ha|]. intros b. apply rowLess_order.
Qed.

(** C36: a report has one row for every registered provider and for every account
    that owns a node (a node without a provider is its own account), sorted by score and then
    id; each row's node counts are those of the nodes it owns, its score is a percentage, its
    grade follows from it, and a disabled provider has score 0 and grade F. *)
Theorem reputation_rows city nodes ledger challenges now :
  NoDup (pv_ID <$> sn_Providers city) -> Z.of_nat (length nodes) <= max_int64 ->
  let rows := rp_Providers (Build city nodes ledger challenges now) in
  StronglySorted row_order rows /\ NoDup (pr_ProviderID <$> rows)
  /\ (forall row, row ∈ rows ->
        let mine := nodes_of (pr_ProviderID row) nodes in
        0 <= pr_Score row <= 100 /\ pr_Grade row = grade (pr_Score row)
        /\ pr_TotalNodes row = Z.of_nat (length mine)
        /\ pr_HealthyNodes row = Z.of_nat (length (filter (fun n => v_Healthy n = true) mine))
        /\ pr_CooldownNodes row = Z.of_nat (length (filter (fun n => v_InCooldown n = true) mine))
        /\ pr_Nodes row ≡ₚ nodeRow <$> mine)
  /\ (forall p, p ∈ sn_Providers city -> exists row, row ∈ rows /\ pr_ProviderID row = pv_ID p
        /\ pr_Disabled row = pv_Disabled p /\ (pv_Disabled p = true -> pr_Score row = 0 /\ pr_Grade row = "F"))
  /\ (forall n, n ∈ nodes -> exists row, row ∈ rows /\ pr_ProviderID row = account (nodeOwner n)).
Proof.
  intros Hnd Hfit. cbv zeta. pose proof (collect_row city nodes ledger challenges Hnd Hfit) as Hrow.
  split; [apply rows_sorted|]. split; [|split; [|split]].
  - cbn [Build rp_Providers]. rewrite sort_slice_perm.
    replace (pr_ProviderID <$> (finishItem ∘ snd <$> map_to_list (collectItems city nodes ledger challenges)))
      with (map_to_list (collectItems city nodes ledger challenges)).*1; [apply NoDup_fst_map_to_list|].
    rewrite <- list_fmap_compose. apply list_fmap_ext. intros i [k it] Hin. simpl.
    apply list_elem_of_lookup_2, elem_of_map_to_list in Hin. specialize (Hrow k). rewrite Hin in Hrow.
    destruct Hrow as [<- _]. symmetry. apply finishItem_fields.
  - intros row (k & it & Hk & ->)%report_row. specialize (Hrow k). rewrite Hk in Hrow.
    destruct Hrow as (Hid & (Ht & Hh & Hc & Hn) & _).
    destruct (finishItem_fields it) as (-> & _ & -> & -> & -> & -> & -> & ->). rewrite Hid.
    split; [apply score_bounds|]. split_and!; try done. rewrite sort_by_perm. by rewrite Hn.
  - intros p Hp. specialize (Hrow (pv_ID p)). destruct (_ !! pv_ID p) as [it|] eqn:E; [|naive_solver].
    exists (finishItem it). rewrite report_row. destruct Hrow as (Hid & _ & Hd). destruct (Hd p Hp eq_refl) as [Hdis _].
    destruct (finishItem_fields it) as (-> & -> & -> & -> & _). split; [by exists (pv_ID p), it|]. split_and!; try done.
    intros Hdd. unfold score. by rewrite Hdis, Hdd.
  - intros n Hn. specialize (Hrow (account (nodeOwner n))). destruct (_ !! account (nodeOwner n)) as [it|] eqn:E.
    + exists (finishItem it). rewrite report_row. destruct (finishItem_fields it) as (-> & _).
      split; [by exists (account (nodeOwner n)), it|]. by destruct Hrow.
    + destruct Hrow as [Hnil _]. assert (n ∈ nodes_of (account (nodeOwner n)) nodes) as Hin by (by apply list_elem_of_filter).
      rewrite Hnil in Hin. by apply not_elem_of_nil in Hin.
Qed.

(** ** Witnesses *)

Definition demo_node (id provider : string) (now : Time) : NodeView :=
  nodeView now NewRegistry (registerNode
    {| reg_ProtocolVersion := 1; reg_NodeID := id; reg_ProviderID := provider; reg_ProviderToken := "";
       reg_PublicName := ""; reg_City := ""; reg_PrivacyMode := ""; reg_PrivacyTiers := []; reg_Hostname := "";
       reg_Arch := ""; reg_OS := ""; reg_Backend := "ollama"; reg_DeviceKind := ""; reg_DeviceVendor := "";
       reg_DeviceModel := ""; reg_SoC := ""; reg_Accelerators := []; reg_PowerMode := ""; reg_NetworkMode := "";
       reg_Models := ["m"]; reg_MaxConcurrent := 2 |} (Some 1) now).

Definition demo_snapshot : MarketSnapshot :=
  {| sn_Enabled := true; sn_Name := "demo"; sn_Consumers := [];
     sn_Providers := [ {| pv_ID := "closed"; pv_DisplayName := "Closed"; pv_Disabled := true; pv_PrivacyMode := "";
                          pv_PrivacyTiers := [] |};
                       {| pv_ID := "home"; pv_DisplayName := "Home"; pv_Disabled := false; pv_PrivacyMode := "";
                          pv_PrivacyTiers := [] |} ];
     sn_ConsumerUsage := []; sn_ProviderUsage := [] |}.

Definition demo_ledger : LedgerSnapshot :=
  {| ls_Enabled := true; ls_ChainPath := ""; ls_SQLitePath := ""; ls_Events := 0; ls_LastHash := "";
     ls_PricePerThousandTokensMicros := 0; ls_ProviderRewardShareBPS := 0; ls_TargetLatencyMs := 0;
     ls_LatencyPenaltyBPS := 0; ls_ConsumerBalances := [];
     ls_ProviderBalances := [ (empty_Balance "home") <| b_Events := 3 |> <| b_TotalTokens := 4000 |> ];
     ls_RecentEvents := [] |}.

Definition demo_benchmarks : ChallengeSnapshot :=
  {| cs_Enabled := false; cs_Path := ""; cs_Events := 0; cs_LastHash := ""; cs_Summaries := []; cs_RecentEvents := [] |}.

Definition demo_nodes : list NodeView :=
  [demo_node "n1" "home" (100 * second); demo_node "n2" "" (100 * second); demo_node "n3" "closed" (100 * second)].

Lemma reputation_rows_witness :
  (exists row, row ∈ rp_Providers (Build demo_snapshot demo_nodes demo_ledger demo_benchmarks 0)
     /\ pr_ProviderID row = "closed" /\ pr_Score row = 0 /\ pr_Grade row = "F")
  /\ ((fun r => (pr_ProviderID r, pr_Score r)) <$> rp_Providers (Build demo_snapshot demo_nodes demo_ledger demo_benchmarks 0))
     = [("home", 77); ("n2", 70); ("closed", 0)].
Proof.
  split; [|vm_compute; reflexivity].
  destruct (reputation_rows demo_snapshot demo_nodes demo_ledger demo_benchmarks 0) as (_ & _ & _ & H & _).
  - apply (bool_decide_unpack _). vm_compute. exact I.
  - vm_compute. discriminate.
  - destruct (H {| pv_ID := "closed"; pv_DisplayName := "Closed"; pv_Disabled := true; pv_PrivacyMode := "";
      pv_PrivacyTiers := [] |}) as (row & Hin & Hid & _ & Hs); [left|].
    destruct (Hs eq_refl) as [H1 H2]. exists row. split; [exact Hin|]. split; [exact Hid|]. split; [exact H1|exact H2].
Defined.

(** One row before and after a node error. *)
Definition demo_row (errors : Z) : ProviderReputation :=
  (newReputation "home") <| pr_TotalNodes := 3 |> <| pr_HealthyNodes := 2 |> <| pr_CompletedEvents := 9 |>
    <| pr_TotalTokens := 2500 |> <| pr_ErrorStreak := errors |>.

Lemma score_monotone_witness : fst (score (demo_row 2)) = 61 /\ fst (score (demo_row 2)) <= fst (score (demo_row 0)).
Proof.
  split; [vm_compute; reflexivity|].
  apply (score_monotone (demo_row 2) (demo_row 0)); unfold score_fits, no_worse; vm_compute;
    repeat split; discriminate || reflexivity.
Defined.
