(* ===== verification/CityProofs.v ===== *)
(** * Theorems on accounts, secrets, quotas and usage

    Canonical account ids; the market's invariant over every operation, every
    store failure and every restart; what authentication promises after rotation
    and disabling; the round trip through both stores; the quota ledger. *)

From S2P Require Import Prelude GoString GoSort Sha256 Privacy Protocol Config City.

(** ** Account ids *)

Lemma account_rune_range r : account_rune r = true -> 45 <= r < 123 /\ ~ (65 <= r <= 90).
Proof. unfold account_rune. rewrite !orb_true_iff, !andb_true_iff. lia. Qed.

Lemma account_rune_ascii r : account_rune r = true -> r < 128 /\ is_space r = false.
Proof.
  intros H%account_rune_range. split; [lia|]. unfold is_space.
  rewrite !orb_false_iff, !andb_false_iff. lia.
Qed.

Lemma account_rune_lower r : account_rune r = true -> r < 128 /\ rune_to_lower r = r.
Proof.
  intros H%account_rune_range. split; [lia|]. unfold rune_to_lower.
  rewrite (proj2 (Z.ltb_lt r 128)) by lia. case_goal; bsimpl; lia.
Qed.

(** An id as the accounts are stored under. *)
Definition id_alphabet : string := "abcdefghijklmnopqrstuvwxyz0123456789-_".

Definition canonical_id (id : string) : Prop :=
  (2 <= String.length id <= 64)%nat /\ Forall (fun b => b ∈ bytes id_alphabet) (bytes id).

(** The code's test, rune by rune, is membership in that alphabet. *)
Lemma account_rune_alphabet r : account_rune r = true <-> r ∈ bytes id_alphabet.
Proof.
  split.
  - intros H. pose proof (account_rune_range _ H) as [Hr _].
    assert (Hall : forallb (fun r => negb (account_rune r) || bool_decide (r ∈ bytes id_alphabet))
                     (Z.of_nat <$> seq 45 78) = true) by (vm_compute; reflexivity).
    rewrite forallb_forall in Hall. specialize (Hall r). rewrite H in Hall. cbn [negb orb] in Hall.
    refine (proj1 (bool_decide_eq_true _) (Hall _)). apply list_elem_of_In, list_elem_of_fmap. exists (Z.to_nat r).
    rewrite elem_of_seq. lia.
  - assert (Hall : Forall (fun r => account_rune r = true) (bytes id_alphabet)) by (by repeat constructor).
    rewrite Forall_forall in Hall. apply Hall.
Qed.

Lemma canonical_id_runes id : canonical_id id <-> 2 <= slen id <= 64 /\ Forall (fun b => account_rune b = true) (bytes id).
Proof.
  unfold canonical_id, slen. rewrite !Forall_forall. setoid_rewrite account_rune_alphabet. intuition lia.
Qed.

#[export] Instance canonical_id_dec id : Decision (canonical_id id).
Proof. unfold canonical_id. apply _. Defined.

Lemma canonical_id_ascii id : canonical_id id -> Forall (fun b => b < 128 /\ is_space b = false) (bytes id).
Proof. intros [_ Hb]%canonical_id_runes. eapply Forall_impl; [exact Hb|]. intros b. apply account_rune_ascii. Qed.

(** The test after trimming and lowering accepts exactly the canonical ids. *)
Lemma normalize_test id :
  (if (slen id <? 2) || (64 <? slen id) then "" else if forallb account_rune (runes id) then id else "")
  = if decide (canonical_id id) then id else "".
Proof.
  destruct (decide (canonical_id id)) as [H|H].
  - pose proof (canonical_id_ascii _ H) as Ha. apply canonical_id_runes in H as [Hlen Hb].
    rewrite (proj2 (Z.ltb_ge _ _)), (proj2 (Z.ltb_ge _ _)) by lia. simpl.
    rewrite runes_ascii, (proj2 (forallb_forall _ _)); [done| |].
    + intros b Hin. rewrite Forall_forall in Hb. by apply Hb, list_elem_of_In.
    + eapply Forall_impl; [exact Ha|]. by intros b [? _].
  - destruct ((slen id <? 2) || (64 <? slen id)) eqn:E; [done|].
    destruct (forallb account_rune (runes id)) eqn:Er; [|done]. destruct H. apply canonical_id_runes. bsimpl.
    split; [lia|].
    assert (Hr : Forall (fun r => account_rune r = true) (runes id)).
    { apply Forall_forall. intros r Hr. rewrite forallb_forall in Er. by apply Er, list_elem_of_In. }
    rewrite <- runes_ascii; [done|]. apply runes_ascii_bytes.
    eapply Forall_impl; [exact Hr|]. intros r Hrune. by apply account_rune_ascii.
Qed.

Lemma normalizeAccountID_eq raw :
  normalizeAccountID raw = if decide (canonical_id (to_lower (trim_space raw))) then to_lower (trim_space raw) else "".
Proof. apply normalize_test. Qed.

Lemma normalizeAccountID_cases raw : normalizeAccountID raw = "" \/ canonical_id (normalizeAccountID raw).
Proof. rewrite normalizeAccountID_eq. destruct (decide _); auto. Qed.

(** An id as an operator may type it: ASCII white space around it, letters in either case. *)
Definition typed_as (id raw : string) : Prop :=
  exists before typed after, raw = before +:+ typed +:+ after
    /\ Forall (fun b => b ∈ [9; 10; 11; 12; 13; 32]) (bytes before ++ bytes after)
    /\ Forall2 (fun b t => t = b \/ (97 <= b <= 122 /\ t = b - 32)) (bytes id) (bytes typed).

Lemma normalize_typed id raw : canonical_id id -> typed_as id raw -> normalizeAccountID raw = id.
Proof.
  intros Hc (before & typed & after & -> & [Hb Ha]%Forall_app & Ht).
  pose proof (canonical_id_ascii _ Hc) as Hi. pose proof Hc as [_ Hr]%canonical_id_runes.
  assert (Hty : Forall (fun b => b < 128 /\ is_space b = false) (bytes typed)).
  { apply Forall_forall. intros t (i & Hti)%list_elem_of_lookup_1. destruct (Forall2_lookup_r _ _ _ _ _ Ht Hti) as (b & Hbi & Hcase).
    rewrite Forall_lookup in Hi. destruct (Hi _ _ Hbi) as [? ?]. destruct Hcase as [->|[? ->]]; [done|]. split; [lia|].
    unfold is_space. rewrite !orb_false_iff, !andb_false_iff. lia. }
  assert (Hsp : forall s, Forall (fun b => b ∈ [9; 10; 11; 12; 13; 32]) (bytes s) ->
            Forall (fun b => b < 128 /\ is_space b = true) (bytes s)).
  { intros s H. eapply Forall_impl; [exact H|]. intros b Hin.
    rewrite !elem_of_cons in Hin. destruct Hin as [->|[->|[->|[->|[->|[->|Hin%not_elem_of_nil]]]]]]; done. }
  assert (Htrim : trim_space (before +:+ typed +:+ after) = typed) by (apply trim_space_around; auto).
  assert (Hlow : to_lower typed = id).
  { apply to_lower_letters; [|by eapply Forall_impl; [exact Hty|]; intros b [? _]].
    apply bytes_inj. rewrite bytes_of_bytes.
    2: { apply Forall_fmap, Forall_forall. intros t Hin. cbn. rewrite Forall_forall in Hty. pose proof (bytes_range typed) as Hrg.
         rewrite Forall_forall in Hrg. specialize (Hty _ Hin). specialize (Hrg _ Hin). unfold rune_to_lower. repeat case_goal; bsimpl; lia. }
    revert Hr. clear -Ht. induction Ht as [|b t l k Hbt Hl IH]; intros Hr; [done|]. apply Forall_cons in Hr as [Hb Hr].
    rewrite fmap_cons, IH by done. f_equal. pose proof (account_rune_lower _ Hb) as [? Heq].
    destruct Hbt as [->|[? ->]]; [done|]. unfold rune_to_lower. repeat case_goal; bsimpl; lia. }
  rewrite normalizeAccountID_eq, Htrim, Hlow. by rewrite decide_True.
Qed.

Lemma canonical_id_fixed id : canonical_id id -> normalizeAccountID id = id.
Proof.
  intros H. apply normalize_typed; [done|]. exists "", id, "". rewrite sapp_nil, sapp_nil_r. split; [done|]. split; [constructor|].
  induction (bytes id); constructor; auto.
Qed.

(** C40: [normalizeAccountID] trims white space and lowers letters; it returns the result
    if that is 2 to 64 bytes over a-z, 0-9, hyphen and underscore, and the empty string
    otherwise.  So every such id is found however it is typed, with ASCII white space around it
    and letters in either case, exactly these ids are left as they are, and
    normalising twice changes nothing. *)
Theorem account_ids_canonical raw :
  (canonical_id (to_lower (trim_space raw)) -> normalizeAccountID raw = to_lower (trim_space raw))
  /\ (~ canonical_id (to_lower (trim_space raw)) -> normalizeAccountID raw = "")
  /\ (forall id, canonical_id id -> typed_as id raw -> normalizeAccountID raw = id)
  /\ (canonical_id raw <-> normalizeAccountID raw = raw /\ raw <> "")
  /\ normalizeAccountID (normalizeAccountID raw) = normalizeAccountID raw.
Proof.
  pose proof (normalizeAccountID_cases raw) as Hc. rewrite normalizeAccountID_eq at 1 2. split_and!.
  - intros H. by rewrite decide_True.
  - intros H. by rewrite decide_False.
  - intros id. apply normalize_typed.
  - split.
    + intros H. split; [by apply canonical_id_fixed|]. intros ->. destruct H as [H _]. simpl in H. lia.
    + intros [Heq Hne]. rewrite Heq in Hc. by destruct Hc.
  - destruct Hc as [->|Hc]; [by vm_compute|]. by apply canonical_id_fixed.
Qed.

(** ** Maps keyed by a field of their values *)

Definition keyed {A} (key : A -> string) (m : gmap string A) : Prop := map_Forall (fun k v => key v = k) m.

(** The last element under a key wins; when equal keys carry equal values any wins. *)
Lemma put_all_spec {A B} (kf : B -> string) (val : B -> A) l m k v :
  (forall x y, x ∈ l -> y ∈ l -> kf x = kf y -> val x = val y) ->
  put_all kf val l m !! k = Some v
  <-> (exists x, x ∈ l /\ kf x = k /\ val x = v) \/ ((k ∉ kf <$> l) /\ m !! k = Some v).
Proof.
  intros Hf. induction l as [|x l IH] using rev_ind.
  - simpl. split; [by right; split; [apply not_elem_of_nil|]|].
    intros [(x & Hx%not_elem_of_nil & _)|[_ H]]; done.
  - unfold put_all in *. rewrite fold_left_app. simpl.
    assert (Hf' : forall x y, x ∈ l -> y ∈ l -> kf x = kf y -> val x = val y) by set_solver.
    specialize (IH Hf').
    rewrite fmap_app. destruct (decide (kf x = k)) as [<-|Hne].
    + rewrite lookup_insert_eq. split.
      * intros [= <-]. left. exists x. set_solver.
      * intros [(y & Hy & Hk & <-)|[Hk _]]; [|set_solver]. f_equal. apply Hf; set_solver.
    + rewrite lookup_insert_ne, IH by done. set_solver.
Qed.

Section Keyed.
Context {A : Type} (key : A -> string).

Lemma keyed_insert m k v : keyed key m -> key v = k -> keyed key (<[k := v]> m).
Proof. intros H Hv. by apply map_Forall_insert_2. Qed.

Lemma keyed_delete m k : keyed key m -> keyed key (delete k m).
Proof. apply map_Forall_delete. Qed.

Lemma elem_of_sorted_values m v : keyed key m -> v ∈ sorted_values key m <-> m !! key v = Some v.
Proof.
  intros Hk. unfold sorted_values. rewrite elem_of_sort_by, list_elem_of_fmap. split.
  - intros ([k v'] & -> & Hin%elem_of_map_to_list). simpl. by rewrite (Hk _ _ Hin).
  - intros H. exists (key v, v). by rewrite elem_of_map_to_list.
Qed.

Lemma sorted_values_keys_nodup m : keyed key m -> NoDup (key <$> sorted_values key m).
Proof.
  intros Hk. unfold sorted_values. rewrite sort_by_perm, <- list_fmap_compose.
  rewrite (list_fmap_ext _ fst); [apply NoDup_fst_map_to_list|].
  intros i [k v] Hl. apply list_elem_of_lookup_2, elem_of_map_to_list in Hl. by apply (Hk _ _ Hl).
Qed.

(** Reading back all the values of a keyed map rebuilds it. *)
Lemma put_all_values l m :
  keyed key m -> (forall v, v ∈ l <-> m !! key v = Some v) -> put_all key id l ∅ = m.
Proof.
  intros Hk Hl. apply map_eq. intros k. apply option_eq. intros v. rewrite put_all_spec.
  - split.
    + intros [(x & Hx & <- & <-)|[_ H]]; [by apply Hl|by rewrite lookup_empty in H].
    + intros H. left. exists v. rewrite Hl. pose proof (Hk _ _ H) as <-. done.
  - intros x y Hx%Hl Hy%Hl Heq. rewrite Heq in Hx. simpl. congruence.
Qed.
End Keyed.

(** Reading back all the pairs of a map rebuilds it. *)
Lemma put_pairs_spec (l : list (string * string)) m :
  (forall k v, (k, v) ∈ l <-> m !! k = Some v) -> put_pairs l ∅ = m.
Proof.
  intros Hl. apply map_eq. intros k. apply option_eq. intros v. unfold put_pairs. rewrite put_all_spec.
  - split.
    + intros [([k' v'] & Hx & <- & <-)|[_ H]]; [by apply Hl|by rewrite lookup_empty in H].
    + intros H. left. exists (k, v). by rewrite Hl.
  - intros [k1 v1] [k2 v2] Hx%Hl Hy%Hl. simpl. intros ->. congruence.
Qed.

#[export] Hint Resolve keyed_insert keyed_delete : go.

(** ** The invariant *)

(** Every entry of a secret map names an account that exists and is not disabled. *)
Definition owned {A} (accounts : gmap string A) (disabled : A -> bool) (secrets : gmap string string) : Prop :=
  map_Forall (fun _ a => exists c, accounts !! a = Some c /\ disabled c = false) secrets.

(** A provider's privacy policy: known tiers, each once, and the mode they amount to. *)
Definition policy_ok (p : Provider) : Prop :=
  Forall known_tier (pv_PrivacyTiers p) /\ NoDup (pv_PrivacyTiers p) /\ pv_PrivacyTiers p <> []
  /\ pv_PrivacyMode p = ModeForTiers (pv_PrivacyTiers p).

Definition usage_ok (u : Usage) : Prop := us_TotalTokens u = us_PromptTokens u +w us_CompletionTokens u.

Record market_ok (m : Market) : Prop := {
  mo_consumers : keyed cn_ID (m_consumers m);
  mo_providers : keyed pv_ID (m_providers m);
  mo_policies : map_Forall (fun _ p => policy_ok p) (m_providers m);
  mo_keys : owned (m_consumers m) cn_Disabled (m_apiKeys m);
  mo_key_hashes : owned (m_consumers m) cn_Disabled (m_apiKeyHashes m);
  mo_tokens : owned (m_providers m) pv_Disabled (m_tokens m);
  mo_token_hashes : owned (m_providers m) pv_Disabled (m_tokenHashes m);
  mo_consumer_use : keyed us_AccountID (m_consumerUse m) /\ map_Forall (fun _ u => usage_ok u) (m_consumerUse m);
  mo_provider_use : keyed us_AccountID (m_providerUse m) /\ map_Forall (fun _ u => usage_ok u) (m_providerUse m);
}.

Section Owned.
Context {A : Type} (disabled : A -> bool).

Lemma owned_empty accounts : owned accounts disabled ∅.
Proof. apply map_Forall_empty. Qed.

Lemma owned_insert_secret accounts secrets s a c :
  owned accounts disabled secrets -> accounts !! a = Some c -> disabled c = false ->
  owned accounts disabled (<[s := a]> secrets).
Proof. intros H Ha Hd. apply map_Forall_insert_2; [by exists c|done]. Qed.

Lemma owned_delete_secret accounts secrets s :
  owned accounts disabled secrets -> owned accounts disabled (delete s secrets).
Proof. apply map_Forall_delete. Qed.

(** Replacing an account by an active one keeps every secret owned. *)
Lemma owned_insert_active accounts secrets a c :
  owned accounts disabled secrets -> disabled c = false -> owned (<[a := c]> accounts) disabled secrets.
Proof.
  intros H Hd s b Hs. destruct (H _ _ Hs) as (c' & Hc & Hd').
  destruct (decide (a = b)) as [->|Hne].
  - exists c. by rewrite lookup_insert_eq.
  - exists c'. by rewrite lookup_insert_ne.
Qed.

(** Replacing an account keeps its disabled flag: secrets stay owned. *)
Lemma owned_insert_same accounts secrets a c :
  owned accounts disabled secrets -> (forall c', accounts !! a = Some c' -> disabled c = disabled c') ->
  owned (<[a := c]> accounts) disabled secrets.
Proof.
  intros H Hd s b Hs. destruct (H _ _ Hs) as (c' & Hc & Hd').
  destruct (decide (a = b)) as [->|Hne].
  - exists c. rewrite lookup_insert_eq, (Hd c') by done. done.
  - exists c'. by rewrite lookup_insert_ne.
Qed.

Lemma owned_drop accounts secrets a c :
  owned accounts disabled secrets -> owned (<[a := c]> accounts) disabled (drop_account a secrets).
Proof.
  intros H s b Hs. unfold drop_account in Hs. apply map_lookup_filter_Some in Hs as [Hs Hne].
  destruct (H _ _ Hs) as (c' & Hc & Hd'). exists c'. simpl in Hne. by rewrite lookup_insert_ne.
Qed.

Lemma owned_drop_same accounts secrets a :
  owned accounts disabled secrets -> owned accounts disabled (drop_account a secrets).
Proof.
  intros H s b Hs. unfold drop_account in Hs. apply map_lookup_filter_Some in Hs as [Hs _]. by eapply H.
Qed.

(** An account that no secret refers to can be deleted. *)
Lemma owned_delete_account accounts secrets a :
  owned accounts disabled secrets -> accounts !! a = None -> forall c, owned (delete a (<[a := c]> accounts)) disabled secrets.
Proof. intros H Ha c. by rewrite delete_insert_id. Qed.
End Owned.

#[export] Hint Resolve owned_empty owned_delete_secret owned_drop owned_drop_same : go.

(** ** Privacy policies *)

Lemma requestedPrivacy_ok mode tiers ts :
  requestedPrivacy mode tiers = Ok ts -> Forall known_tier ts /\ NoDup ts /\ ts <> [].
Proof.
  unfold requestedPrivacy. destruct tiers as [|t tiers].
  - destruct (TiersForMode mode) as [n|] eqn:E; [|done]. intros [= <-].
    destruct (TiersForMode_known _ _ E). split_and!; try done.
    revert E. unfold TiersForMode. repeat case_goal; by intros [= <-].
  - destruct (NormalizeTiers (t :: tiers)) as [n|] eqn:E; [|done]. intros [= <-].
    destruct (NormalizeTiers_known _ _ E). split_and!; try done. by eapply NormalizeTiers_nonempty.
Qed.

(** Known tiers without repetition pass through unchanged, up to their order. *)
Lemma requestedPrivacy_fixed mode ts :
  Forall known_tier ts -> NoDup ts -> ts <> [] ->
  exists ts', requestedPrivacy mode ts = Ok ts' /\ ts' ≡ₚ ts.
Proof.
  intros Hk Hnd Hne. destruct ts as [|t ts]; [done|]. unfold requestedPrivacy, NormalizeTiers.
  assert (Hloop : forall l seen, Forall known_tier l -> NoDup l -> (forall x, x ∈ l -> x ∉ seen) ->
    NormalizeTiers_loop seen l = Ok l).
  { induction l as [|x l IH]; intros seen Hl Hnd' Hs; [done|]. simpl.
    apply Forall_cons in Hl as [Hx Hl]. apply NoDup_cons in Hnd' as [Hxl Hnd'].
    rewrite NormalizeTier_known by done. simpl. rewrite bool_decide_eq_false_2 by (apply Hs; left).
    rewrite IH; [done|done|done|]. set_solver. }
  rewrite Hloop; [|done|done|set_solver]. simpl. eexists. split; [done|]. apply sort_strings_perm.
Qed.

Lemma ModeForTiers_perm ts ts' : ts ≡ₚ ts' -> ModeForTiers ts = ModeForTiers ts'.
Proof.
  intros Hp. unfold ModeForTiers. rewrite !existsb_str_eqb.
  assert (Hb : forall t, bool_decide (t ∈ ts) = bool_decide (t ∈ ts')).
  { intros t. apply bool_decide_ext. by rewrite Hp. }
  by rewrite !Hb.
Qed.

Lemma providerPrivacy_policy mode tiers mt :
  providerPrivacy mode tiers = Ok mt ->
  Forall known_tier (snd mt) /\ NoDup (snd mt) /\ snd mt <> [] /\ fst mt = ModeForTiers (snd mt).
Proof.
  unfold providerPrivacy. intros (ts & H & [= <-])%res_bind_ok. simpl.
  apply requestedPrivacy_ok in H as (? & ? & ?). done.
Qed.

(** ** Stored states *)

Lemma insert_rows_ok {K R} `{Countable K} (key : R -> K) rows :
  NoDup (key <$> rows) ->
  exists t, insert_rows key rows = Ok t /\ forall k r, t !! k = Some r <-> r ∈ rows /\ key r = k.
Proof.
  unfold insert_rows. induction rows as [|r rows IH] using rev_ind; intros Hnd.
  - exists ∅. split; [done|]. intros k r. rewrite lookup_empty. set_solver.
  - rewrite fmap_app in Hnd. apply NoDup_app in Hnd as (Hnd & Hdis & _).
    destruct (IH Hnd) as (t & Ht & Hspec). rewrite fold_left_app, Ht. simpl.
    destruct (t !! key r) as [r'|] eqn:E.
    + apply Hspec in E as [Hin Heq]. exfalso. apply (Hdis (key r)); set_solver.
    + exists (<[key r := r]> t). split; [done|]. intros k r'.
      destruct (decide (key r = k)) as [<-|Hne].
      * rewrite lookup_insert_eq. split; [intros [= <-]; set_solver|]. intros [Hin Heq]. f_equal.
        apply elem_of_app in Hin as [Hin|Hin]; [|set_solver]. exfalso. apply (Hdis (key r)); set_solver.
      * rewrite lookup_insert_ne, Hspec by done. set_solver.
Qed.

Lemma insert_pairs_ok (m : gmap string string) :
  exists t, insert_rows fst (map_to_list m) = Ok t /\ snd <$> t = m.
Proof.
  destruct (insert_rows_ok fst (map_to_list m)) as (t & Ht & Hspec); [apply NoDup_fst_map_to_list|].
  exists t. split; [done|]. apply map_eq. intros k. apply option_eq. intros v.
  rewrite lookup_fmap, fmap_Some. split.
  - intros ([k' v'] & H & ->). apply Hspec in H as [H <-]. by apply elem_of_map_to_list in H.
  - intros H. exists (k, v). split; [|done]. apply Hspec. by rewrite elem_of_map_to_list.
Qed.

Lemma scan_consumerRow c : scanConsumer (consumerRow c) = c.
Proof. destruct c as [? ? ? []]; done. Qed.

Lemma scan_providerRow p : scanProvider (providerRow p) = p.
Proof. destruct p as [? ? [] ? ?]; done. Qed.

(** What a table written by [persistSQLiteLocked] holds. *)
Record holds (m : Market) (db : DB) : Prop := {
  hd_consumers : forall k r, db_consumers db !! k = Some r <-> exists c, m_consumers m !! k = Some c /\ r = consumerRow c;
  hd_keys : db_consumer_keys db = m_apiKeyHashes m;
  hd_providers : forall k r, db_providers db !! k = Some r <-> exists p, m_providers m !! k = Some p /\ r = providerRow p;
  hd_tokens : db_provider_tokens db = m_tokenHashes m;
  hd_usage : forall kind k u, db_usage db !! (kind, k) = Some u
    <-> (kind = "consumer" /\ m_consumerUse m !! k = Some u) \/ (kind = "provider" /\ m_providerUse m !! k = Some u);
}.

Lemma keyed_rows_ok {A R} (key : A -> string) (rkey : R -> string) (row : A -> R) (m : gmap string A) :
  keyed key m -> (forall v, rkey (row v) = key v) ->
  exists t, insert_rows rkey (row <$> sorted_values key m) = Ok t
    /\ forall k r, t !! k = Some r <-> exists c, m !! k = Some c /\ r = row c.
Proof.
  intros Hk Hr. destruct (insert_rows_ok rkey (row <$> sorted_values key m)) as (t & Ht & Hspec).
  - rewrite <- list_fmap_compose, (list_fmap_ext _ key) by (intros; apply Hr).
    by apply sorted_values_keys_nodup.
  - exists t. split; [done|]. intros k r. rewrite Hspec, list_elem_of_fmap. split.
    + intros [(c & -> & Hc) <-]. rewrite Hr. exists c. by apply elem_of_sorted_values in Hc.
    + intros (c & Hc & ->). pose proof (Hk _ _ Hc) as <-. split; [|by rewrite Hr].
      exists c. by rewrite elem_of_sorted_values.
Qed.

Lemma usage_rows_ok m :
  market_ok m ->
  exists t, insert_rows (fun r : string * Usage => (r.1, us_AccountID r.2))
      ((usageRow "consumer" <$> usageMapValues (m_consumerUse m))
       ++ (usageRow "provider" <$> usageMapValues (m_providerUse m))) = Ok t
    /\ forall kind k u, (snd <$> t) !! (kind, k) = Some u
      <-> (kind = "consumer" /\ m_consumerUse m !! k = Some u) \/ (kind = "provider" /\ m_providerUse m !! k = Some u).
Proof.
  intros [_ _ _ _ _ _ _ [Hc _] [Hp _]].
  assert (Hmem : forall kind (m : gmap string Usage) x, keyed us_AccountID m ->
    x ∈ usageRow kind <$> usageMapValues m <-> x.1 = kind /\ m !! us_AccountID x.2 = Some x.2).
  { intros kind b [k u] Hb. unfold usageMapValues. rewrite list_elem_of_fmap. simpl. split.
    - intros (u' & [= -> ->] & Hu). by apply elem_of_sorted_values in Hu.
    - intros [-> Hu]. exists u. by rewrite elem_of_sorted_values. }
  destruct (insert_rows_ok (fun r : string * Usage => (r.1, us_AccountID r.2))
    ((usageRow "consumer" <$> usageMapValues (m_consumerUse m))
       ++ (usageRow "provider" <$> usageMapValues (m_providerUse m)))) as (t & Ht & Hspec).
  - assert (Hnd : forall kind (m : gmap string Usage), keyed us_AccountID m ->
      NoDup ((fun r : string * Usage => (r.1, us_AccountID r.2)) <$> (usageRow kind <$> usageMapValues m))).
    { intros kind b Hb. rewrite <- list_fmap_compose.
      rewrite (list_fmap_ext _ (pair kind ∘ us_AccountID)) by done. rewrite list_fmap_compose.
      apply NoDup_fmap_2; [by intros ? ? [= ->]|]. by apply sorted_values_keys_nodup. }
    rewrite fmap_app. apply NoDup_app. split_and!; [by apply Hnd| |by apply Hnd].
    intros x (y & -> & Hy)%list_elem_of_fmap (z & Heq & Hz)%list_elem_of_fmap.
    apply Hmem in Hy as [Hy _]; [|done]. apply Hmem in Hz as [Hz _]; [|done]. congruence.
  - exists t. split; [done|]. intros kind k u. rewrite lookup_fmap, fmap_Some. split.
    + intros ([kind' u'] & H & ->). apply Hspec in H as [H [= -> <-]].
      rewrite elem_of_app, !Hmem in H by done. simpl in *. naive_solver.
    + intros H. exists (kind, u). split; [|done]. apply Hspec.
      rewrite elem_of_app, !Hmem by done. simpl.
      destruct H as [[-> H]|[-> H]]; [pose proof (Hc _ _ H) as <-|pose proof (Hp _ _ H) as <-]; auto.
Qed.

(** The transaction never meets a duplicate key, and writes the whole market. *)
Lemma persistSQLite_ok m : market_ok m -> exists db, persistSQLiteLocked m = Ok db /\ holds m db.
Proof.
  intros Hm. unfold persistSQLiteLocked.
  destruct (keyed_rows_ok cn_ID cr_id consumerRow (m_consumers m)) as (tc & Htc & Hc); [apply Hm|done|].
  destruct (keyed_rows_ok pv_ID pr_id providerRow (m_providers m)) as (tp & Htp & Hp); [apply Hm|done|].
  destruct (insert_pairs_ok (m_apiKeyHashes m)) as (tk & Htk & Hk).
  destruct (insert_pairs_ok (m_tokenHashes m)) as (tt & Htt & Ht).
  destruct (usage_rows_ok m Hm) as (tu & Htu & Hu).
  unfold consumerMapValues, providerMapValues. rewrite Htc. simpl. rewrite Htk. simpl. rewrite Htp. simpl.
  rewrite Htt. simpl. rewrite Htu. simpl. eexists. split; [done|]. by constructor.
Qed.

(** ** Loading what was stored *)

(** The same provider, its tiers listed in some order. *)
Definition same_provider (p q : Provider) : Prop :=
  pv_ID p = pv_ID q /\ pv_DisplayName p = pv_DisplayName q /\ pv_Disabled p = pv_Disabled q
  /\ pv_PrivacyMode p = pv_PrivacyMode q /\ pv_PrivacyTiers p ≡ₚ pv_PrivacyTiers q.

#[export] Instance same_provider_equiv : Equivalence same_provider.
Proof.
  split.
  - intros p. by split_and!.
  - intros p q (? & ? & ? & ? & Hp). by split_and!.
  - intros p q r (? & ? & ? & ? & Hp) (? & ? & ? & ? & Hq). split_and!; [congruence..|]. by rewrite Hp.
Qed.

(** Two markets with the same accounts, secret hashes and usage. *)
Record same_accounts (m m' : Market) : Prop := {
  sa_consumers : m_consumers m = m_consumers m';
  sa_providers : forall k, option_Forall2 same_provider (m_providers m !! k) (m_providers m' !! k);
  sa_key_hashes : m_apiKeyHashes m = m_apiKeyHashes m';
  sa_token_hashes : m_tokenHashes m = m_tokenHashes m';
  sa_consumer_use : m_consumerUse m = m_consumerUse m';
  sa_provider_use : m_providerUse m = m_providerUse m';
}.

#[export] Instance same_accounts_equiv : Equivalence same_accounts.
Proof.
  split.
  - intros m. by constructor.
  - intros m m' []. by constructor.
  - intros m1 m2 m3 [] []. constructor; try congruence. intros k.
    etrans; [apply sa_providers0|apply sa_providers1].
Qed.

(** The market that [New] starts loading into. *)
Record blank (m : Market) : Prop := {
  bl_consumers : m_consumers m = ∅; bl_providers : m_providers m = ∅;
  bl_key_hashes : m_apiKeyHashes m = ∅; bl_token_hashes : m_tokenHashes m = ∅;
  bl_consumer_use : m_consumerUse m = ∅; bl_provider_use : m_providerUse m = ∅;
  bl_keys : m_apiKeys m = ∅; bl_tokens : m_tokens m = ∅;
}.

(** The fields loading leaves alone. *)
Definition same_rest (m m' : Market) : Prop :=
  m_enabled m = m_enabled m' /\ m_requireProviderTokens m = m_requireProviderTokens m'
  /\ m_usageStorePath m = m_usageStorePath m' /\ m_db m = m_db m'
  /\ m_apiKeys m = m_apiKeys m' /\ m_tokens m = m_tokens m' /\ m_reservedUse m = m_reservedUse m'.

Lemma put_all_app {A B} (kf : B -> string) (val : B -> A) l1 l2 m :
  put_all kf val (l1 ++ l2) m = put_all kf val l2 (put_all kf val l1 m).
Proof. apply fold_left_app. Qed.

Lemma put_hashes_pairs hs a m : put_hashes hs a m = put_pairs ((fun h => (h, a)) <$> hs) m.
Proof.
  unfold put_hashes, put_pairs, put_all. revert m. induction hs as [|h hs IH]; intros m; [done|]. apply IH.
Qed.

Definition reloadConsumer (c : persistedConsumer) : Consumer :=
  {| cn_ID := pc_ID c; cn_DisplayName := pc_DisplayName c; cn_TotalTokenLimit := pc_TotalTokenLimit c;
     cn_Disabled := pc_Disabled c |}.

Definition reloadProvider (p : persistedProvider) : Provider :=
  let mt := match providerPrivacy (pp_PrivacyMode p) (pp_PrivacyTiers p) with Ok mt => mt | Err _ => ("", []) end in
  {| pv_ID := pp_ID p; pv_DisplayName := pp_DisplayName p; pv_Disabled := pp_Disabled p;
     pv_PrivacyMode := fst mt; pv_PrivacyTiers := snd mt |}.

Lemma fold_loadConsumer l m :
  fold_left loadConsumer l m
  = m <| m_consumers ::= put_all pc_ID reloadConsumer l |>
      <| m_apiKeyHashes ::= put_pairs (l ≫= fun c => (fun h => (h, pc_ID c)) <$> pc_APIKeyHashes c) |>.
Proof.
  revert m. induction l as [|c l IH]; intros m; [by destruct m|]. simpl fold_left. rewrite IH.
  unfold loadConsumer, put_pairs. destruct m; simpl. f_equal.
  rewrite put_hashes_pairs. symmetry. apply put_all_app.
Qed.

Lemma fold_loadProvider l m :
  Forall (fun p => is_ok (providerPrivacy (pp_PrivacyMode p) (pp_PrivacyTiers p)) = true) l ->
  fold_left loadProvider l (Ok m)
  = Ok (m <| m_providers ::= put_all pp_ID reloadProvider l |>
          <| m_tokenHashes ::= put_pairs (l ≫= fun p => (fun h => (h, pp_ID p)) <$> pp_TokenHashes p) |>).
Proof.
  revert m. induction l as [|p l IH]; intros m Hl; [by destruct m|].
  apply Forall_cons in Hl as [Hp Hl]. simpl fold_left.
  destruct (providerPrivacy (pp_PrivacyMode p) (pp_PrivacyTiers p)) as [mt|] eqn:E; [|done]. simpl.
  rewrite IH by done. f_equal. unfold put_pairs. destruct m; simpl. f_equal.
  - assert (Hp' : reloadProvider p = {| pv_ID := pp_ID p; pv_DisplayName := pp_DisplayName p;
      pv_Disabled := pp_Disabled p; pv_PrivacyMode := fst mt; pv_PrivacyTiers := snd mt |})
      by (unfold reloadProvider; by rewrite E).
    unfold put_all. simpl. by rewrite Hp'.
  - rewrite put_hashes_pairs. symmetry. apply put_all_app.
Qed.

Lemma elem_of_hashesForAccount m a h : h ∈ hashesForAccount m a <-> m !! h = Some a.
Proof.
  unfold hashesForAccount. rewrite elem_of_sort_strings, list_elem_of_fmap.
  setoid_rewrite list_elem_of_filter. split.
  - intros ([k v] & -> & Hv & Hin%elem_of_map_to_list). simpl in *. by subst.
  - intros H. exists (h, a). by rewrite elem_of_map_to_list.
Qed.

(** The hashes a store lists account by account are all the hashes of the market. *)
Lemma listed_hashes {A B} (key : A -> string) (pkey : B -> string) (out : A -> B) (hashes : B -> list string)
    (accounts : gmap string A) disabled secrets :
  keyed key accounts -> owned accounts disabled secrets ->
  (forall a, pkey (out a) = key a /\ hashes (out a) = hashesForAccount secrets (key a)) ->
  put_pairs ((out <$> sorted_values key accounts) ≫= fun b => (fun h => (h, pkey b)) <$> hashes b) ∅ = secrets.
Proof.
  intros Hk Ho Hout. apply put_pairs_spec. intros h a. rewrite list_elem_of_bind. split.
  - intros (b & Hin & (c & -> & Hc)%list_elem_of_fmap). destruct (Hout c) as [Hkey Hh].
    rewrite Hh, Hkey, list_elem_of_fmap in Hin. destruct Hin as (h' & [= -> ->] & Hin).
    by apply elem_of_hashesForAccount.
  - intros H. destruct (Ho _ _ H) as (c & Hc & _). exists (out c). destruct (Hout c) as [Hkey Hh].
    pose proof (Hk _ _ Hc) as Hka. rewrite Hh, Hkey, !list_elem_of_fmap. simpl in Hka. subst a. split.
    + exists h. by rewrite elem_of_hashesForAccount.
    + exists c. by rewrite elem_of_sorted_values.
Qed.

(** Rebuilding the accounts from the sorted rows. *)
Lemma put_all_rows {A B C} (key : A -> string) (bkey : B -> string) (out : A -> B) (back : B -> C)
    (accounts : gmap string A) k :
  keyed key accounts -> (forall a, bkey (out a) = key a) ->
  put_all bkey back (out <$> sorted_values key accounts) ∅ !! k = back ∘ out <$> accounts !! k.
Proof.
  intros Hk Hout. apply option_eq. intros v. rewrite put_all_spec, fmap_Some; [split|].
  - intros [(b & (c & -> & Hc)%list_elem_of_fmap & <- & <-)|[_ H]]; [|by rewrite lookup_empty in H].
    exists c. rewrite Hout. by apply elem_of_sorted_values in Hc.
  - intros (c & Hc & ->). left. pose proof (Hk _ _ Hc) as <-. exists (out c). rewrite Hout.
    rewrite list_elem_of_fmap. split_and!; [|done|done]. exists c. by rewrite elem_of_sorted_values.
  - intros x y (c & -> & Hc)%list_elem_of_fmap (c' & -> & Hc')%list_elem_of_fmap. rewrite !Hout. intros Heq.
    apply elem_of_sorted_values in Hc, Hc'; [|done|done]. congruence.
Qed.

(** A store: what the market writes to it and what it reads back.  Both stores keep
    their promise: writing a well-formed market succeeds, and loading the result
    into a blank market gives the same accounts, hashes and usage. *)
Class Store (D : Type) := {
  st_save : Time -> Market -> res CityError D;
  st_load : D -> Market -> res CityError Market;
}.

Class StoreLaws (D : Type) `{Store D} := {
  st_roundtrip now m m0 : market_ok m -> blank m0 ->
    exists d m', st_save now m = Ok d /\ st_load d m0 = Ok m' /\ same_accounts m m' /\ same_rest m0 m'
      /\ market_ok m';
}.

#[export] Instance json_store : Store persistedState := {|
  st_save now m := Ok (persistedSnapshot now m);
  st_load s m := loadState (Some (Ok s)) m;
|}.

#[export] Instance sqlite_store : Store DB := {|
  st_save now m := persistSQLiteLocked m;
  st_load db m := Ok (loadSQLiteState db m);
|}.

(** Well-formedness depends only on the accounts, when no plain secret is held. *)
Lemma market_ok_same m m' :
  market_ok m -> same_accounts m m' -> m_apiKeys m' = ∅ -> m_tokens m' = ∅ -> market_ok m'.
Proof.
  intros Hm Hs Hk Ht. destruct Hm, Hs.
  assert (Hp : forall k q, m_providers m' !! k = Some q -> exists p, m_providers m !! k = Some p /\ same_provider p q).
  { intros k q Hq. specialize (sa_providers0 k). rewrite Hq in sa_providers0.
    inversion sa_providers0; subst. eauto. }
  constructor; rewrite ?Hk, ?Ht, <-?sa_consumers0, <-?sa_key_hashes0, <-?sa_consumer_use0, <-?sa_provider_use0;
    try apply owned_empty; try assumption.
  - intros k q Hq. destruct (Hp _ _ Hq) as (p & Hp1 & Hid & _). rewrite <- Hid. by apply mo_providers0.
  - intros k q Hq. destruct (Hp _ _ Hq) as (p & Hp1 & _ & _ & _ & Hmode & Hperm).
    destruct (mo_policies0 _ _ Hp1) as (H1 & H2 & H3 & H4). unfold policy_ok. rewrite <- Hperm at 1 2.
    split_and!; try done.
    + intros Hnil. rewrite Hnil in Hperm. by apply Permutation_nil_r in Hperm.
    + rewrite <- Hmode, H4. by apply ModeForTiers_perm.
  - intros h a Ha. rewrite <- sa_token_hashes0 in Ha. destruct (mo_token_hashes0 _ _ Ha) as (p & Hp1 & Hd).
    specialize (sa_providers0 a). rewrite Hp1 in sa_providers0.
    inversion sa_providers0 as [x y (_ & _ & Hxy & _)|]; subst. exists y. split; [done|congruence].
Qed.

Lemma reload_provider_ok p hashes :
  policy_ok p ->
  let pp := {| pp_ID := pv_ID p; pp_DisplayName := pv_DisplayName p; pp_Disabled := pv_Disabled p;
               pp_PrivacyMode := pv_PrivacyMode p; pp_PrivacyTiers := pv_PrivacyTiers p;
               pp_TokenHashes := hashes |} in
  is_ok (providerPrivacy (pp_PrivacyMode pp) (pp_PrivacyTiers pp)) = true /\ same_provider p (reloadProvider pp).
Proof.
  intros (Hk & Hnd & Hne & Hm) pp. unfold reloadProvider, providerPrivacy. simpl.
  destruct (requestedPrivacy_fixed (pv_PrivacyMode p) _ Hk Hnd Hne) as (ts & Hts & Hp). rewrite Hts. simpl.
  split; [done|]. unfold same_provider. simpl. split_and!; try done.
  rewrite Hm. by apply ModeForTiers_perm.
Qed.

#[export] Instance json_store_laws : StoreLaws persistedState.
Proof.
  constructor. intros now m m0 Hm Hb. exists (persistedSnapshot now m). simpl.
  rewrite fold_loadConsumer, fold_loadProvider.
  2: { apply Forall_forall. intros pp. unfold persistedProvidersLocked. rewrite list_elem_of_fmap.
       intros (p & -> & Hp). apply elem_of_sorted_values in Hp; [|apply Hm].
       by apply reload_provider_ok, (mo_policies _ Hm _ _ Hp). }
  simpl. eexists. split; [done|]. split; [done|].
  match goal with |- same_accounts m ?m' /\ _ => assert (Hs : same_accounts m m') end.
  { destruct Hm, Hb. constructor; simpl.
    - rewrite bl_consumers0. apply map_eq. intros k. unfold persistedConsumersLocked, consumerMapValues.
      rewrite (put_all_rows cn_ID) by done. destruct (m_consumers m !! k) as [[]|]; done.
    - intros k. rewrite bl_providers0. unfold persistedProvidersLocked, providerMapValues.
      rewrite (put_all_rows pv_ID) by done. destruct (m_providers m !! k) as [p|] eqn:E; constructor.
      by apply reload_provider_ok, (mo_policies0 k).
    - rewrite bl_key_hashes0. symmetry. by apply (listed_hashes cn_ID pc_ID _ pc_APIKeyHashes _ cn_Disabled).
    - rewrite bl_token_hashes0. symmetry. by apply (listed_hashes pv_ID pp_ID _ pp_TokenHashes _ pv_Disabled).
    - rewrite bl_consumer_use0. symmetry. apply put_all_values; [apply mo_consumer_use0|].
      intros u. apply elem_of_sorted_values, mo_consumer_use0.
    - rewrite bl_provider_use0. symmetry. apply put_all_values; [apply mo_provider_use0|].
      intros u. apply elem_of_sorted_values, mo_provider_use0. }
  split; [done|]. split; [by split_and!|]. apply (market_ok_same m); [done|done|apply Hb|apply Hb].
Qed.

(** What loading a database written from [m] gives. *)
Lemma load_holds m db m0 : market_ok m -> holds m db -> blank m0 -> same_accounts m (loadSQLiteState db m0).
Proof.
  intros [] [] []. constructor; simpl.
  - rewrite bl_consumers0. symmetry. apply put_all_values; [done|]. intros c. rewrite list_elem_of_fmap. split.
    + intros ([k r] & -> & H%elem_of_map_to_list). apply hd_consumers0 in H as (c & Hc & ->). simpl.
      rewrite scan_consumerRow. by rewrite (mo_consumers0 _ _ Hc).
    + intros Hc. exists (cn_ID c, consumerRow c). simpl. rewrite scan_consumerRow, elem_of_map_to_list.
      split; [done|]. apply hd_consumers0. eauto.
  - intros k. rewrite bl_providers0.
    replace (put_all _ _ _ _) with (m_providers m); [destruct (m_providers m !! k); by constructor|].
    symmetry. apply put_all_values; [done|]. intros c. rewrite list_elem_of_fmap. split.
    + intros ([k' r] & -> & H%elem_of_map_to_list). apply hd_providers0 in H as (c & Hc & ->). simpl.
      rewrite scan_providerRow. by rewrite (mo_providers0 _ _ Hc).
    + intros Hc. exists (pv_ID c, providerRow c). simpl. rewrite scan_providerRow, elem_of_map_to_list.
      split; [done|]. apply hd_providers0. eauto.
  - rewrite bl_key_hashes0, hd_keys0. symmetry. apply put_pairs_spec. intros k v. by rewrite elem_of_map_to_list.
  - rewrite bl_token_hashes0, hd_tokens0. symmetry. apply put_pairs_spec. intros k v. by rewrite elem_of_map_to_list.
  - rewrite bl_consumer_use0. symmetry. apply put_all_values; [apply mo_consumer_use0|]. intros u.
    unfold usage_of_kind. rewrite list_elem_of_fmap. setoid_rewrite list_elem_of_filter. split.
    + intros ([[kind k] u'] & -> & Hk & H%elem_of_map_to_list). apply hd_usage0 in H. simpl in *.
      destruct H as [[-> H]|[-> H]]; [|done]. by rewrite (proj1 mo_consumer_use0 _ _ H).
    + intros H. exists (("consumer", us_AccountID u), u). rewrite elem_of_map_to_list, hd_usage0. auto.
  - rewrite bl_provider_use0. symmetry. apply put_all_values; [apply mo_provider_use0|]. intros u.
    unfold usage_of_kind. rewrite list_elem_of_fmap. setoid_rewrite list_elem_of_filter. split.
    + intros ([[kind k] u'] & -> & Hk & H%elem_of_map_to_list). apply hd_usage0 in H. simpl in *.
      destruct H as [[-> H]|[-> H]]; [done|]. by rewrite (proj1 mo_provider_use0 _ _ H).
    + intros H. exists (("provider", us_AccountID u), u). rewrite elem_of_map_to_list, hd_usage0. auto.
Qed.

#[export] Instance sqlite_store_laws : StoreLaws DB.
Proof.
  constructor. intros now m m0 Hm Hb. destruct (persistSQLite_ok m Hm) as (db & Hdb & Hh).
  exists db, (loadSQLiteState db m0). simpl. pose proof (load_holds _ _ _ Hm Hh Hb).
  split_and!; try done. apply (market_ok_same m); [done|done|apply Hb|apply Hb].
Qed.

(** ** The invariant over operations, faults and restarts *)

(** One call on the market, with what the environment supplies to it. *)
Inductive market_op (F : Type) :=
| CoCreateConsumer (input : CreateConsumerInput) (raw : res string (list Z)) (now : Time) (fault : F)
| CoCreateProvider (input : CreateProviderInput) (raw : res string (list Z)) (now : Time) (fault : F)
| CoRotateConsumer (id : string) (raw : res string (list Z)) (now : Time) (fault : F)
| CoRotateProvider (id : string) (raw : res string (list Z)) (now : Time) (fault : F)
| CoDisableConsumer (id : string) (now : Time) (fault : F)
| CoDisableProvider (id : string) (now : Time) (fault : F)
| CoReserve (id : string) (tokens : Z)
| CoRelease (r : option QuotaReservation)
| CoRecord (cid pid : string) (done : InferDone) (now : Time) (fault : F)
| CoRecordReserved (r : option QuotaReservation) (cid pid : string) (done : InferDone) (now : Time)
    (fault : F).
Arguments CoCreateConsumer {F}.
Arguments CoCreateProvider {F}.
Arguments CoRotateConsumer {F}.
Arguments CoRotateProvider {F}.
Arguments CoDisableConsumer {F}.
Arguments CoDisableProvider {F}.
Arguments CoReserve {F}.
Arguments CoRelease {F}.
Arguments CoRecord {F}.
Arguments CoRecordReserved {F}.

Abbreviation city_op := (market_op (option string)).

Definition world : Type := Market * Disk.

Definition run_city {D F : Type} {P : Persist D F} (o : market_op F) (w : Market * D) : Market * D :=
  let '(m, d) := w in
  match o with
  | CoCreateConsumer i raw now fault => let '(_, m, d) := CreateConsumer i raw now fault m d in (m, d)
  | CoCreateProvider i raw now fault => let '(_, m, d) := CreateProvider i raw now fault m d in (m, d)
  | CoRotateConsumer i raw now fault => let '(_, m, d) := RotateConsumerKey i raw now fault m d in (m, d)
  | CoRotateProvider i raw now fault => let '(_, m, d) := RotateProviderToken i raw now fault m d in (m, d)
  | CoDisableConsumer i now fault => let '(_, m, d) := DisableConsumer i now fault m d in (m, d)
  | CoDisableProvider i now fault => let '(_, m, d) := DisableProvider i now fault m d in (m, d)
  | CoReserve i tokens => match ReserveConsumerQuota i tokens m with Ok (_, m') => (m', d) | Err _ => w end
  | CoRelease r => (ReleaseReservation r m, d)
  | CoRecord c p done now fault => let '(_, m, d) := Record_ c p done now fault m d in (m, d)
  | CoRecordReserved r c p done now fault => let '(_, m, d) := RecordReserved r c p done now fault m d in (m, d)
  end.

(** The worlds that starting on a blank disk, operating and restarting (possibly
    with another configuration) can reach. *)
Inductive city_reachable : world -> Prop :=
| cr_start cfg legacy fault m : New cfg legacy fault {| dk_file := None; dk_db := empty_DB |} = Ok m ->
    city_reachable (m, {| dk_file := None; dk_db := empty_DB |})
| cr_op w o : city_reachable w -> city_reachable (run_city o w)
| cr_restart m d cfg legacy fault m' : city_reachable (m, d) -> New cfg legacy fault d = Ok m' ->
    city_reachable (m', d).

(** The disk holds what some well-formed market wrote. *)
Definition disk_ok (d : Disk) : Prop :=
  match dk_file d with
  | Some (Ok s) => exists now m, market_ok m /\ s = persistedSnapshot now m
  | _ => True
  end /\ exists m, market_ok m /\ holds m (dk_db d).

Definition world_ok (w : world) : Prop := market_ok (fst w) /\ disk_ok (snd w).

Lemma emptyMarket_ok cfg : market_ok (emptyMarket cfg).
Proof.
  constructor; try apply map_Forall_empty; try (split; apply map_Forall_empty).
Qed.

Lemma persistLocked_ok now fault m d : market_ok m -> disk_ok d -> disk_ok (snd (persistLocked now fault m d)).
Proof.
  intros Hm Hd. unfold persistLocked. destruct (persistSQLite_ok m Hm) as (db & Hdb & Hh). rewrite Hdb.
  repeat case_goal; simpl; try done; destruct Hd as [H1 H2]; split; simpl; eauto.
Qed.

Lemma blank_empty cfg b : blank ((emptyMarket cfg) <| m_db := b |>).
Proof. by constructor. Qed.

Lemma loadStores_ok cfg fault d m : disk_ok d -> loadStores cfg fault d = Ok m -> market_ok m.
Proof.
  intros [Hf (m1 & Hm1 & Hh)]. unfold loadStores. repeat case_goal; try done.
  - intros [= <-]. eapply market_ok_same; [done|by apply (load_holds m1), blank_empty|done|done].
  - destruct (dk_file d) as [[s|e]|]; [|done|].
    + destruct Hf as (now & m0 & Hm0 & ->). intros Hl.
      destruct (st_roundtrip (D := persistedState) now m0 (emptyMarket cfg)) as (s & m' & [= <-] & Hl' & _ & _ & Hok);
        [done|apply (blank_empty cfg false)|].
      unfold st_load, json_store in Hl'. congruence.
    + intros [= <-]. apply emptyMarket_ok.
  - intros [= <-]. apply emptyMarket_ok.
Qed.

(** Changing nothing but secrets, or but accounts. *)
Ltac market_fields := constructor; simpl; eauto with go.

Lemma addKeys_ok id c keys m :
  m_consumers m !! id = Some c -> cn_Disabled c = false -> market_ok m -> market_ok (fold_left (addKey id) keys m).
Proof.
  revert m. induction keys as [|k keys IH]; intros m Hc Hd Hm; simpl; [done|]. apply IH; [|done|].
  - unfold addKey. by case_goal.
  - unfold addKey. case_goal; [done|]. destruct Hm. market_fields; by eapply owned_insert_secret.
Qed.

(** Assigning an active consumer keeps the invariant. *)
Lemma put_consumer_ok m c :
  market_ok m -> cn_Disabled c = false -> market_ok (m <| m_consumers ::= <[cn_ID c := c]> |>).
Proof. intros [] Hc. market_fields; by apply owned_insert_active. Qed.

Lemma put_consumer_same_ok m c :
  market_ok m -> cn_Disabled c = cn_Disabled (map_get empty_Consumer (m_consumers m) (cn_ID c)) ->
  market_ok (m <| m_consumers ::= <[cn_ID c := c]> |>).
Proof.
  intros [] Hc. market_fields; apply owned_insert_same; try done; intros c' Hc'; unfold map_get in Hc; by rewrite Hc' in Hc.
Qed.

Lemma put_provider_same_ok m p :
  market_ok m -> policy_ok p -> pv_Disabled p = pv_Disabled (map_get empty_Provider (m_providers m) (pv_ID p)) ->
  market_ok (m <| m_providers ::= <[pv_ID p := p]> |>).
Proof.
  intros [] Hp Hd. market_fields; try (apply owned_insert_same; try done; intros c' Hc'; unfold map_get in Hd; by rewrite Hc' in Hd).
  by apply map_Forall_insert_2.
Qed.

Definition local_consumer : Consumer :=
  {| cn_ID := "local"; cn_DisplayName := "Local"; cn_TotalTokenLimit := 0; cn_Disabled := false |}.

(** Adding keys and assigning their consumer commute. *)
Lemma addKeys_then_put id c keys m :
  (fold_left (addKey id) keys m) <| m_consumers ::= <[id := c]> |>
  = fold_left (addKey id) keys (m <| m_consumers ::= <[id := c]> |>).
Proof.
  revert m. induction keys as [|k keys IH]; intros m; cbn [fold_left]; [done|]. rewrite IH. f_equal.
  unfold addKey. by case_goal.
Qed.

Lemma addLegacyKeys_ok legacy m : market_ok m -> market_ok (addLegacyKeys legacy m).
Proof.
  intros Hm. unfold addLegacyKeys. destruct legacy as [|k legacy]; [done|].
  rewrite (addKeys_then_put "local" local_consumer (k :: legacy)).
  eapply addKeys_ok; [by apply lookup_insert_eq|done|]. by apply (put_consumer_ok m local_consumer).
Qed.

Lemma addConsumer_ok m a : market_ok m -> market_ok (addConsumer m a).
Proof.
  intros Hm. unfold addConsumer. case_goal; [done|].
  set (dis := cn_Disabled _). set (c := {| cn_ID := _ |}).
  assert (Hput : market_ok (m <| m_consumers ::= <[ca_ID a := c]> |>)) by by apply (put_consumer_same_ok m c).
  destruct dis eqn:Ed.
  - clear -Hput. revert Hput. generalize (m <| m_consumers ::= <[ca_ID a := c]> |>).
    induction (ca_APIKeys a) as [|k l IH]; intros m0 H0; [done|]. by apply IH.
  - eapply (addKeys_ok _ c); [apply lookup_insert_eq|done|done].
Qed.

Lemma addProvider_ok m a m' : market_ok m -> addProvider (Ok m) a = Ok m' -> market_ok m'.
Proof.
  intros Hm. unfold addProvider. simpl. case_goal; [by intros [= <-]|].
  intros (mt & Hmt & [= <-])%res_bind_ok. apply providerPrivacy_policy in Hmt.
  set (dis := pv_Disabled _) in *. set (p := {| pv_ID := _ |}) in *.
  assert (Hput : market_ok (m <| m_providers ::= <[pa_ID a := p]> |>)) by by apply (put_provider_same_ok m p).
  case_goal; [|done]. bsimpl. destruct Hput. simpl in *.
  market_fields; apply (owned_insert_secret pv_Disabled _ _ _ _ p); try done; apply lookup_insert_eq.
Qed.

Lemma New_market_ok cfg legacy fault d m : disk_ok d -> New cfg legacy fault d = Ok m -> market_ok m.
Proof.
  intros Hd. unfold New. intros (m0 & Hm0 & H)%res_bind_ok.
  apply (loadStores_ok _ _ _ _ Hd) in Hm0.
  apply (addLegacyKeys_ok legacy) in Hm0. revert H Hm0. generalize (addLegacyKeys legacy m0).
  clear. intros m1 H Hm1.
  assert (Hc : market_ok (fold_left addConsumer (cc_Consumers cfg) m1)).
  { clear H. revert m1 Hm1. induction (cc_Consumers cfg); intros m1 Hm1; simpl; eauto using addConsumer_ok. }
  revert H Hc. generalize (fold_left addConsumer (cc_Consumers cfg) m1). clear.
  induction (cc_Providers cfg) as [|a l IH]; intros m1 H Hm1; [by injection H as <-|].
  change (fold_left addProvider l (addProvider (Ok m1) a) = Ok m) in H.
  destruct (addProvider (Ok m1) a) as [m2|e] eqn:E.
  - apply (IH m2 H). by eapply addProvider_ok.
  - exfalso. clear -H. induction l as [|b l IH]; [done|]. by apply IH.
Qed.

Lemma addUsage_ok a done now b :
  keyed us_AccountID b /\ map_Forall (fun _ u => usage_ok u) b ->
  keyed us_AccountID (addUsage a done now b) /\ map_Forall (fun _ u => usage_ok u) (addUsage a done now b).
Proof.
  intros [Hk Hu]. unfold addUsage. generalize (if a =s "" then "unknown" else a). intros id.
  split; apply map_Forall_insert_2; try done; simpl.
  destruct (b !! id) as [u|] eqn:E; simpl; [by apply Hk|done].
Qed.

Lemma record_market_ok m cid pid done now :
  market_ok m ->
  market_ok (let m := m <| m_consumerUse ::= addUsage cid done now |> in
             if negb (pid =s "") then m <| m_providerUse ::= addUsage pid done now |> else m).
Proof. intros []. case_goal; constructor; simpl; try done; by apply addUsage_ok. Qed.

Lemma release_market_ok r m : market_ok m -> market_ok (releaseReservationLocked r m).
Proof. intros []. unfold releaseReservationLocked. repeat case_goal; by constructor. Qed.

Lemma removeConsumerSecrets_ok id m : market_ok m -> market_ok (removeConsumerSecretsLocked id m).
Proof. intros []. market_fields. Qed.

Lemma removeProviderSecrets_ok id m : market_ok m -> market_ok (removeProviderSecretsLocked id m).
Proof. intros []. market_fields. Qed.

Lemma put_key_hash_ok h id c m :
  market_ok m -> m_consumers m !! id = Some c -> cn_Disabled c = false ->
  market_ok (m <| m_apiKeyHashes ::= <[h := id]> |>).
Proof. intros [] Hc Hd. market_fields. by eapply owned_insert_secret. Qed.

Lemma put_token_hash_ok h id p m :
  market_ok m -> m_providers m !! id = Some p -> pv_Disabled p = false ->
  market_ok (m <| m_tokenHashes ::= <[h := id]> |>).
Proof. intros [] Hp Hd. market_fields. by eapply owned_insert_secret. Qed.

(** Disabling an account together with its secrets. *)
Lemma disable_consumer_ok id c m :
  market_ok m -> cn_ID c = id ->
  market_ok (removeConsumerSecretsLocked id (m <| m_consumers ::= <[id := c]> |>)).
Proof. intros [] Hc. market_fields. Qed.

Lemma disable_provider_ok id p m :
  market_ok m -> pv_ID p = id -> policy_ok p ->
  market_ok (removeProviderSecretsLocked id (m <| m_providers ::= <[id := p]> |>)).
Proof. intros [] Hp Hpol. market_fields. by apply map_Forall_insert_2. Qed.

(** Persisting after a change: the disk stays well formed whatever happens. *)
Ltac persist_step :=
  match goal with
  | |- context [persist ?now ?f ?m ?d] =>
      let Hp := fresh "Hp" in let H := fresh "H" in let E := fresh "E" in
      assert (Hp : market_ok m);
      [|pose proof (persistLocked_ok now f m d Hp) as H;
        change (persistLocked now f m d) with (persist now f m d) in H; destruct (persist now f m d) as [[?|] ?] eqn:E; simpl in H |- *]
  end.

Lemma create_consumer_ok i raw now fault m d :
  world_ok (m, d) -> world_ok (run_city (CoCreateConsumer i raw now fault) (m, d)).
Proof.
  intros [Hm Hd]. simpl in *. unfold CreateConsumer. case_goal; [done|].
  destruct (randomSecret "sk-mi-" raw) as [key|]; [|done].
  destruct (m_consumers m !! _) eqn:E0; [done|]. set (c := {| cn_ID := _ |}). persist_step.
  - apply (put_key_hash_ok _ _ c); [by apply (put_consumer_ok m c)|by apply lookup_insert_eq|done].
  - split; [|by apply H]. destruct Hm. market_fields; rewrite ?delete_insert_id by done; try done.
    rewrite delete_insert_eq. eauto with go.
  - split; [done|by apply H].
Qed.

Lemma create_provider_ok i raw now fault m d :
  world_ok (m, d) -> world_ok (run_city (CoCreateProvider i raw now fault) (m, d)).
Proof.
  intros [Hm Hd]. simpl in *. unfold CreateProvider. case_goal; [done|].
  destruct (randomSecret "pk-mi-" raw) as [key|]; [|done].
  destruct (m_providers m !! _) eqn:E0; [done|].
  destruct (providerPrivacy _ _) as [[mode tiers]|] eqn:Ep; [|done]. apply providerPrivacy_policy in Ep.
  set (p := {| pv_ID := _ |}). persist_step.
  - apply (put_token_hash_ok _ _ p); [|by apply lookup_insert_eq|done].
    apply (put_provider_same_ok m p); [done|done|]. simpl. unfold map_get. by rewrite E0.
  - split; [|by apply H]. destruct Hm. market_fields; rewrite ?delete_insert_id by done; try done.
    rewrite delete_insert_eq. eauto with go.
  - split; [done|by apply H].
Qed.

Lemma run_city_ok o w : world_ok w -> world_ok (run_city o w).
Proof.
  destruct w as [m d]. intros Hw. destruct o; [by apply create_consumer_ok|by apply create_provider_ok|..];
    destruct Hw as [Hm Hd]; simpl in *.
  - unfold RotateConsumerKey. case_goal; [done|]. destruct (randomSecret "sk-mi-" raw) as [key|]; [|done].
    destruct (m_consumers m !! _) as [c|] eqn:E0; [|done]. destruct (cn_Disabled c) eqn:Ed; [done|].
    persist_step; [|split; [done|by apply H]..].
    by apply (put_key_hash_ok _ _ c); [apply removeConsumerSecrets_ok|..].
  - unfold RotateProviderToken. case_goal; [done|]. destruct (randomSecret "pk-mi-" raw) as [key|]; [|done].
    destruct (m_providers m !! _) as [c|] eqn:E0; [|done]. destruct (pv_Disabled c) eqn:Ed; [done|].
    persist_step; [|split; [done|by apply H]..].
    by apply (put_token_hash_ok _ _ c); [apply removeProviderSecrets_ok|..].
  - unfold DisableConsumer. case_goal; [done|]. destruct (m_consumers m !! _) as [c|] eqn:E0; [|done].
    persist_step; [|split; [done|by apply H]..].
    apply disable_consumer_ok; [done|apply (mo_consumers _ Hm _ _ E0)].
  - unfold DisableProvider. case_goal; [done|]. destruct (m_providers m !! _) as [c|] eqn:E0; [|done].
    persist_step; [|split; [done|by apply H]..].
    apply disable_provider_ok; [done|apply (mo_providers _ Hm _ _ E0)|apply (mo_policies _ Hm _ _ E0)].
  - unfold ReserveConsumerQuota. generalize (if tokens <? 0 then 0 else tokens). intros t.
    repeat case_goal; try done. all: split; [|done]. all: destruct Hm; by constructor.
  - split; [|done]. unfold ReleaseReservation. repeat case_goal; try done. by apply release_market_ok.
  - unfold Record_. persist_step; [|split; [done|by apply H]..]. by apply record_market_ok.
  - unfold RecordReserved. persist_step; [|split; [done|by apply H]..].
    by apply record_market_ok, release_market_ok.
Qed.

Lemma city_reachable_ok w : city_reachable w -> world_ok w.
Proof.
  assert (H0 : disk_ok {| dk_file := None; dk_db := empty_DB |}).
  { split; [done|]. exists (emptyMarket {| cc_Enabled := false; cc_Name := ""; cc_RequireProviderTokens := false;
      cc_UsageStorePath := ""; cc_SQLitePath := ""; cc_Consumers := []; cc_Providers := [] |}).
    split; [apply emptyMarket_ok|]. constructor; simpl; try done; intros; rewrite !lookup_empty; naive_solver. }
  induction 1 as [cfg legacy fault m Hn|w o _ IH|m d cfg legacy fault m' _ [Hm Hd] Hn].
  - split; [|done]. by eapply New_market_ok.
  - by apply run_city_ok.
  - split; [|done]. simpl. by eapply New_market_ok.
Qed.

(** C34: in every world that operations, store failures and restarts can
    reach, accounts are stored under their own id; every plain or hashed secret names
    an account that exists and is enabled; every provider has a non-empty set of known
    privacy tiers summarised by its mode; and usage totals are the sums of their parts. *)
Theorem city_invariant m d :
  city_reachable (m, d) ->
  (forall k c, m_consumers m !! k = Some c -> cn_ID c = k)
  /\ (forall k p, m_providers m !! k = Some p -> pv_ID p = k /\ policy_ok p)
  /\ (forall s a, m_apiKeys m !! s = Some a \/ m_apiKeyHashes m !! s = Some a ->
        exists c, m_consumers m !! a = Some c /\ cn_Disabled c = false)
  /\ (forall s a, m_tokens m !! s = Some a \/ m_tokenHashes m !! s = Some a ->
        exists p, m_providers m !! a = Some p /\ pv_Disabled p = false)
  /\ (forall k u, m_consumerUse m !! k = Some u \/ m_providerUse m !! k = Some u ->
        us_AccountID u = k /\ us_TotalTokens u = us_PromptTokens u +w us_CompletionTokens u).
Proof.
  intros [Hm _]%city_reachable_ok. simpl in Hm. destruct Hm as [H1 H2 H3 H4 H5 H6 H7 [H8 H8'] [H9 H9']].
  split_and!.
  - exact H1.
  - intros k p Hp. split; [by apply H2|by eapply H3].
  - intros s a [Hs|Hs]; [by apply (H4 s)|by apply (H5 s)].
  - intros s a [Hs|Hs]; [by apply (H6 s)|by apply (H7 s)].
  - intros k u [Hu|Hu]; split; [by apply H8|by apply (H8' k)|by apply H9|by apply (H9' k)].
Qed.

(** Inputs shared by the witnesses. *)
Definition demo_city : CityConfig :=
  {| cc_Enabled := true; cc_Name := "elche"; cc_RequireProviderTokens := true; cc_UsageStorePath := "";
     cc_SQLitePath := "mi-city.db";
     cc_Consumers := [ {| ca_ID := "studio"; ca_DisplayName := "Studio"; ca_APIKeys := ["k1"];
                          ca_TotalTokenLimit := 100 |} ];
     cc_Providers := [ {| pa_ID := "home"; pa_DisplayName := "Home"; pa_Token := "t1"; pa_PrivacyMode := "";
                          pa_PrivacyTiers := ["public"; "community"] |} ] |}.

Definition blank_disk : Disk := {| dk_file := None; dk_db := empty_DB |}.

Definition demo_market : Market :=
  match New demo_city [] None blank_disk with Ok m => m | Err _ => emptyMarket demo_city end.

Lemma demo_market_new : New demo_city [] None blank_disk = Ok demo_market.
Proof.
  unfold demo_market. destruct (New demo_city [] None blank_disk) as [m|e] eqn:E; [reflexivity|].
  assert (H : is_ok (New demo_city [] None blank_disk) = true) by (by vm_compute). by rewrite E in H.
Qed.

Lemma demo_market_reachable : city_reachable (demo_market, blank_disk).
Proof. eapply cr_start, demo_market_new. Qed.

Lemma city_invariant_witness :
  exists c, m_consumers demo_market !! "studio" = Some c /\ cn_ID c = "studio".
Proof.
  destruct (city_invariant demo_market blank_disk demo_market_reachable) as (H1 & _).
  destruct (m_consumers demo_market !! "studio") as [c|] eqn:E.
  - exists c. split; [reflexivity|]. exact (H1 _ _ E).
  - exfalso. assert (H : is_Some (m_consumers demo_market !! "studio")) by (apply (bool_decide_unpack _); by vm_compute).
    rewrite E in H. by destruct H.
Defined.

(** ** Authentication *)

(** The open mode: no key given, accounts off, no keys configured. *)
Definition open_mode (m : Market) (key : string) : Prop :=
  key = "" /\ m_enabled m = false /\ m_apiKeys m = ∅ /\ m_apiKeyHashes m = ∅.

(** What a key authenticates as, in full. *)
Lemma AuthenticateConsumer_ok m key id :
  AuthenticateConsumer m key = Ok id <->
  (open_mode m key /\ id = "local")
  \/ (~ open_mode m key
      /\ (m_apiKeys m !! key = Some id \/ (m_apiKeys m !! key = None /\ m_apiKeyHashes m !! hashSecret key = Some id))
      /\ exists c, m_consumers m !! id = Some c /\ cn_Disabled c = false).
Proof.
  unfold AuthenticateConsumer.
  destruct ((key =s "") && negb (m_enabled m) && bool_decide (m_apiKeys m = ∅)
            && bool_decide (m_apiKeyHashes m = ∅)) eqn:Eo.
  - bsimpl. rewrite str_eqb_true in *. assert (open_mode m key) by by split_and!. naive_solver.
  - assert (Hno : ~ open_mode m key).
    { intros (-> & He & Hk & Hh). rewrite He, !bool_decide_eq_true_2 in Eo by done. done. }
    revert Hno. generalize (open_mode m key) as P. intros P Hno. unfold activeConsumerIDLocked.
    destruct (m_apiKeys m !! key) as [a|]; [|destruct (m_apiKeyHashes m !! hashSecret key) as [a|]];
      [destruct (m_consumers m !! a) as [c|] eqn:Ec; [destruct (cn_Disabled c) eqn:Ed|]..|];
      try naive_solver.
    all: split; [done|]; intros [[? _]|(_ & Hk & c0 & Hc0 & Hd0)]; [done|]; destruct Hk as [|[]]; congruence.
Qed.

Lemma drop_account_lookup id s k a :
  drop_account id s !! k = Some a <-> s !! k = Some a /\ a <> id.
Proof. unfold drop_account. by rewrite map_lookup_filter_Some. Qed.

Lemma drop_account_none id s k :
  drop_account id s !! k = None <-> s !! k = None \/ s !! k = Some id.
Proof.
  unfold drop_account. rewrite map_lookup_filter_None. simpl. split; [|naive_solver].
  intros [H|H]; [by left|]. destruct (s !! k) as [a|] eqn:E; [|by left]. right. f_equal.
  destruct (decide (a = id)); [done|]. by destruct (H a).
Qed.

(** What a successful rotation does to the market. *)
Lemma RotateConsumerKey_ok rawID raw now fault m d c m' d' :
  RotateConsumerKey rawID raw now fault m d = (Ok c, m', d') ->
  let id := normalizeAccountID rawID in
  m' = (removeConsumerSecretsLocked id m) <| m_apiKeyHashes ::= <[hashSecret (cd_APIKey c) := id]> |>
  /\ m_consumers m !! id = Some (cd_Consumer c) /\ cn_Disabled (cd_Consumer c) = false.
Proof.
  unfold RotateConsumerKey. case_goal; [done|]. destruct (randomSecret "sk-mi-" raw) as [key|]; [|done].
  destruct (m_consumers m !! _) as [c0|] eqn:E0; [|done]. destruct (cn_Disabled c0) eqn:Ed; [done|].
  destruct (persist _ _ _ _) as [[e|] d0]; [done|]. by intros [= <- <- <-].
Qed.

(** After a successful rotation the new key authenticates as
    the account, nothing but a key with the new hash does, and a key of another
    account keeps authenticating as before unless it collides with the new hash. *)
Theorem rotate_consumer_key rawID raw now fault m d c m' d' :
  RotateConsumerKey rawID raw now fault m d = (Ok c, m', d') ->
  m_apiKeys m !! cd_APIKey c = None -> m_enabled m = true ->
  AuthenticateConsumer m' (cd_APIKey c) = Ok (normalizeAccountID rawID)
  /\ (forall key, AuthenticateConsumer m' key = Ok (normalizeAccountID rawID) ->
        hashSecret key = hashSecret (cd_APIKey c))
  /\ (forall key b, b <> normalizeAccountID rawID -> hashSecret key <> hashSecret (cd_APIKey c) ->
        AuthenticateConsumer m key = Ok b -> AuthenticateConsumer m' key = Ok b).
Proof.
  intros Hrot%RotateConsumerKey_ok Hfresh Hen. simpl in Hrot. destruct Hrot as (-> & Hc & Hd).
  set (id := normalizeAccountID rawID) in *. unfold removeConsumerSecretsLocked.
  split_and!; [|intros key|intros key b Hb Hh]; rewrite ?AuthenticateConsumer_ok; unfold open_mode; simpl;
    rewrite ?Hen.
  - right. split; [naive_solver|]. split; [|eauto]. right. rewrite lookup_insert_eq.
    split; [|done]. apply drop_account_none. by left.
  - intros [[(_ & ? & _) _]|(_ & [Hk|[_ Hk]] & _)]; [done| |].
    + apply drop_account_lookup in Hk as [_ []]. done.
    + destruct (decide (hashSecret key = hashSecret (cd_APIKey c))) as [|Hne]; [done|].
      rewrite lookup_insert_ne, drop_account_lookup in Hk by done. by destruct Hk as [_ []].
  - intros [[(_ & ? & _) _]|(_ & Hk & Hact)]; [done|]. right. split; [naive_solver|]. split; [|done].
    rewrite lookup_insert_ne, !drop_account_lookup, drop_account_none by done. naive_solver.
Qed.

Definition demo_rotation : res CityError CreatedConsumer * Market * Disk :=
  RotateConsumerKey " Studio " (Ok [1; 2; 3]) 5 None demo_market blank_disk.

Lemma demo_rotation_check :
  match demo_rotation with
  | (Ok c, m', _) => (cd_APIKey c =s "sk-mi-010203") && is_ok (AuthenticateConsumer demo_market "k1")
      && bool_decide (m_apiKeys demo_market !! cd_APIKey c = None)
  | _ => false
  end = true.
Proof. by vm_compute. Qed.

Lemma rotate_consumer_key_witness :
  exists c m' d', demo_rotation = (Ok c, m', d') /\ cd_APIKey c = "sk-mi-010203"
    /\ AuthenticateConsumer m' (cd_APIKey c) = Ok "studio" /\ AuthenticateConsumer m' "k1" <> Ok "studio".
Proof.
  pose proof demo_rotation_check as Hck.
  destruct demo_rotation as [[[c|e] m'] d'] eqn:E; [|discriminate Hck]. bsimpl.
  match goal with H : (cd_APIKey c =s _) = true |- _ => apply str_eqb_true in H end.
  destruct (rotate_consumer_key _ _ _ _ _ _ _ _ _ E) as (Hnew & Honly & _); [assumption|by vm_compute|].
  exists c, m', d'. replace "studio" with (normalizeAccountID " Studio ") by (by vm_compute).
  split; [reflexivity|]. split; [assumption|]. split; [exact Hnew|]. intros Hold%Honly.
  replace (cd_APIKey c) with "sk-mi-010203" in Hold. revert Hold. by vm_compute.
Defined.

(** No key authenticates as the account. *)
Definition locked_out (m : Market) (id : string) : Prop := forall key, AuthenticateConsumer m key <> Ok id.

Lemma disabled_locked_out m id c :
  m_consumers m !! id = Some c -> cn_Disabled c = true -> m_enabled m = true -> locked_out m id.
Proof.
  intros Hc Hd He key. rewrite AuthenticateConsumer_ok. unfold open_mode.
  intros [[(_ & ? & _) _]|(_ & _ & c' & ? & ?)]; congruence.
Qed.

(** A disabled account stays disabled through the steps of [New]. *)
Definition is_disabled (m : Market) (id : string) : Prop :=
  exists c, m_consumers m !! id = Some c /\ cn_Disabled c = true.

Lemma addKeys_consumers id keys m : m_consumers (fold_left (addKey id) keys m) = m_consumers m.
Proof.
  revert m. induction keys as [|k l IH]; intros m; [done|]. simpl. rewrite IH. unfold addKey. by case_goal.
Qed.

Lemma put_consumers f m : m_consumers (m <| m_consumers ::= f |>) = f (m_consumers m).
Proof. done. Qed.

Lemma fold_left_ignore {A B} (l : list B) (a : A) : fold_left (fun a _ => a) l a = a.
Proof. induction l; simpl; auto. Qed.

Lemma addLegacyKeys_disabled legacy m id :
  id <> "local" \/ legacy = [] -> is_disabled m id -> is_disabled (addLegacyKeys legacy m) id.
Proof.
  intros Hid (c & Hc & Hd). exists c. split; [|done]. unfold addLegacyKeys. destruct legacy as [|k l]; [done|].
  destruct Hid as [Hid|]; [|done]. by rewrite put_consumers, addKeys_consumers, lookup_insert_ne.
Qed.

Lemma addConsumer_disabled a m id : is_disabled m id -> is_disabled (addConsumer m a) id.
Proof.
  intros (c & Hc & Hd). unfold addConsumer. case_goal; [by exists c|]. unfold is_disabled.
  set (dis := cn_Disabled _). set (c' := {| cn_ID := _ |}).
  assert (Hm : m_consumers (fold_left (fun m key => if dis then m else addKey (ca_ID a) m key) (ca_APIKeys a)
      (m <| m_consumers ::= <[ca_ID a := c']> |>)) = <[ca_ID a := c']> (m_consumers m)).
  { destruct dis; [by rewrite fold_left_ignore|]. by rewrite addKeys_consumers. }
  rewrite Hm. destruct (decide (id = ca_ID a)) as [->|Hne].
  - exists c'. split; [apply lookup_insert_eq|]. subst dis. simpl. unfold map_get. by rewrite Hc.
  - exists c. by rewrite lookup_insert_ne.
Qed.

Lemma addProvider_consumers m a m' : addProvider (Ok m) a = Ok m' -> m_consumers m' = m_consumers m.
Proof.
  unfold addProvider. simpl. case_goal; [by intros [= <-]|].
  intros (mt & _ & [= <-])%res_bind_ok. by case_goal.
Qed.

Lemma addProviders_consumers l m m' : fold_left addProvider l (Ok m) = Ok m' -> m_consumers m' = m_consumers m.
Proof.
  revert m. induction l as [|a l IH]; intros m H; [by injection H as <-|].
  change (fold_left addProvider l (addProvider (Ok m) a) = Ok m') in H.
  destruct (addProvider (Ok m) a) as [m2|e] eqn:E.
  - apply IH in H. rewrite H. by eapply addProvider_consumers.
  - exfalso. clear -H. induction l as [|b l IH]; [done|]. by apply IH.
Qed.

Lemma addKeys_enabled id keys m : m_enabled (fold_left (addKey id) keys m) = m_enabled m.
Proof.
  revert m. induction keys as [|k l IH]; intros m; [done|]. simpl. rewrite IH. unfold addKey. by case_goal.
Qed.

Lemma put_enabled f m : m_enabled (m <| m_consumers ::= f |>) = m_enabled m.
Proof. done. Qed.

Lemma addConsumer_enabled m a : m_enabled (addConsumer m a) = m_enabled m.
Proof.
  unfold addConsumer. case_goal; [done|]. generalize (cn_Disabled (map_get empty_Consumer (m_consumers m) (ca_ID a))).
  intros dis. destruct dis; [by rewrite fold_left_ignore|]. by rewrite addKeys_enabled.
Qed.

Lemma addProviders_enabled l m m' : fold_left addProvider l (Ok m) = Ok m' -> m_enabled m' = m_enabled m.
Proof.
  revert m. induction l as [|a l IH]; intros m H; [by injection H as <-|].
  change (fold_left addProvider l (addProvider (Ok m) a) = Ok m') in H.
  destruct (addProvider (Ok m) a) as [m2|e] eqn:E.
  - apply IH in H. rewrite H. revert E. unfold addProvider. simpl. case_goal; [by intros [= <-]|].
    intros (mt & _ & [= <-])%res_bind_ok. by case_goal.
  - exfalso. clear -H. induction l as [|b l IH]; [done|]. by apply IH.
Qed.

Lemma New_enabled cfg legacy fault d m m' :
  loadStores cfg fault d = Ok m -> New cfg legacy fault d = Ok m' -> m_enabled m' = m_enabled m.
Proof.
  unfold New. intros ->. simpl. intros H%addProviders_enabled. rewrite H.
  transitivity (m_enabled (addLegacyKeys legacy m)).
  - generalize (addLegacyKeys legacy m). clear. induction (cc_Consumers cfg) as [|a l IH]; intros m; [done|].
    simpl. by rewrite IH, addConsumer_enabled.
  - unfold addLegacyKeys. destruct legacy as [|k l]; [done|]. by rewrite put_enabled, addKeys_enabled.
Qed.

Lemma New_disabled cfg legacy fault d m m' id :
  loadStores cfg fault d = Ok m -> is_disabled m id -> id <> "local" \/ legacy = [] ->
  New cfg legacy fault d = Ok m' -> is_disabled m' id.
Proof.
  intros Hl Hdis Hid. unfold New. rewrite Hl. simpl. intros H%addProviders_consumers.
  unfold is_disabled. rewrite H. apply (addLegacyKeys_disabled legacy _ _ Hid) in Hdis.
  revert Hdis. generalize (addLegacyKeys legacy m). clear. induction (cc_Consumers cfg) as [|a l IH]; intros m H; [done|].
  simpl. by apply IH, addConsumer_disabled.
Qed.

(** The store a configuration selects, and a market that uses it. *)
Definition stores_in (cfg : CityConfig) (m : Market) : Prop :=
  m_db m = negb (cc_SQLitePath cfg =s "") /\ m_usageStorePath m = cc_UsageStorePath cfg
  /\ (cc_SQLitePath cfg <> "" \/ cc_UsageStorePath cfg <> "").

(** Persisting and starting again under the same store loads the same accounts. *)
Lemma persist_then_load cfg now m d d' :
  market_ok m -> stores_in cfg m -> persistLocked now None m d = (None, d') ->
  exists m', loadStores cfg None d' = Ok m' /\ same_accounts m m' /\ m_apiKeys m' = ∅ /\ m_tokens m' = ∅
    /\ m_enabled m' = cc_Enabled cfg.
Proof.
  intros Hm (Hdb & Hpath & Hsome). unfold persistLocked, loadStores. rewrite Hdb.
  destruct (negb (cc_SQLitePath cfg =s "")) eqn:Es.
  - destruct (st_roundtrip (D := DB) now m ((emptyMarket cfg) <| m_db := true |>)) as (db & m' & Hs & Hl & Hsame & Hrest & _);
      [done|apply blank_empty|]. simpl in Hs. rewrite Hs. intros [= <-]. simpl. injection Hl as <-.
    destruct Hrest as (He & _ & _ & _ & Hk & Ht & _). eauto 10.
  - rewrite negb_false_iff, str_eqb_true in Es. destruct Hsome as [|Hsome]; [done|].
    assert (Hne : (cc_UsageStorePath cfg =s "") = false) by by apply str_eqb_false.
    rewrite Hpath, Hne. intros [= <-].
    destruct (st_roundtrip (D := persistedState) now m (emptyMarket cfg)) as (s & m' & Hs & Hl & Hsame & Hrest & _);
      [done|apply (blank_empty cfg false)|]. injection Hs as <-. simpl negb. cbn iota. simpl dk_file.
    unfold st_load, json_store in Hl. rewrite Hl.
    destruct Hrest as (He & _ & _ & _ & Hk & Ht & _). exists m'. split_and!; try done.
Qed.

(** C33: in every reachable world with a store, persisting without an I/O
    fault succeeds (no primary key collides), and a process started on the result
    loads the same accounts, secret hashes and usage, whichever store is configured. *)
Theorem store_round_trip cfg now m d :
  city_reachable (m, d) -> stores_in cfg m ->
  exists d' m', persistLocked now None m d = (None, d') /\ loadStores cfg None d' = Ok m' /\ same_accounts m m'.
Proof.
  intros [Hm _]%city_reachable_ok Hs. simpl in Hm.
  assert (Hp : exists d', persistLocked now None m d = (None, d')).
  { unfold persistLocked. destruct (persistSQLite_ok m Hm) as (db & -> & _). repeat case_goal; eauto. }
  destruct Hp as [d' Hp]. destruct (persist_then_load cfg now m d d' Hm Hs Hp) as (m' & Hl & Hsame & _). eauto.
Qed.

Definition json_city : CityConfig :=
  {| cc_Enabled := true; cc_Name := "elche"; cc_RequireProviderTokens := true; cc_UsageStorePath := "usage.json";
     cc_SQLitePath := ""; cc_Consumers := []; cc_Providers := cc_Providers demo_city |}.

(** A market behind the JSON file, with a created consumer and some usage. *)
Definition json_world : world :=
  let m := match New json_city ["legacy"] None blank_disk with Ok m => m | Err _ => emptyMarket json_city end in
  run_city (CoRecord "ana-1" "home" {| id_FinishReason := "stop"; id_PromptTokens := 4; id_OutputTokens := 7;
                                       id_KeyID := ""; id_Signature := "" |} 9 None)
    (run_city (CoCreateConsumer {| ci_ID := "Ana-1"; ci_DisplayName := ""; ci_TotalTokenLimit := 50 |} (Ok [7]) 8 None)
       (m, blank_disk)).

Lemma json_world_reachable : city_reachable json_world.
Proof.
  unfold json_world. destruct (New json_city ["legacy"] None blank_disk) as [m|e] eqn:E.
  - do 2 apply cr_op. by eapply cr_start.
  - exfalso. assert (H : is_ok (New json_city ["legacy"] None blank_disk) = true) by (by vm_compute). by rewrite E in H.
Qed.

Lemma json_world_check :
  (m_usageStorePath (fst json_world) =s "usage.json") && negb (m_db (fst json_world))
  && bool_decide (m_consumers (fst json_world) !! "ana-1" <> None) = true.
Proof. by vm_compute. Qed.

#[export] Instance Consumer_eq_dec : EqDecision Consumer.
Proof. solve_decision. Defined.

Lemma store_round_trip_witness :
  exists d' m', persistLocked 10 None (fst json_world) (snd json_world) = (None, d')
    /\ loadStores json_city None d' = Ok m' /\ m_consumers m' !! "ana-1" = m_consumers (fst json_world) !! "ana-1"
    /\ m_consumers m' !! "ana-1" <> None.
Proof.
  pose proof json_world_check as Hck. bsimpl.
  destruct (store_round_trip json_city 10 (fst json_world) (snd json_world)) as (d' & m' & Hp & Hl & Hsame).
  - rewrite <- (surjective_pairing json_world). apply json_world_reachable.
  - split_and!; [assumption|by apply str_eqb_true|right; discriminate].
  - exists d', m'. split; [exact Hp|]. split; [exact Hl|]. destruct Hsame as [<- _ _ _ _ _]. split; [reflexivity|assumption].
Defined.

Lemma DisableConsumer_spec rawID now fault m d r m' d' :
  DisableConsumer rawID now fault m d = (r, m', d') -> is_Some (m_consumers m !! normalizeAccountID rawID) ->
  normalizeAccountID rawID <> "" ->
  is_disabled m' (normalizeAccountID rawID) /\ m_enabled m' = m_enabled m
  /\ (is_ok r = true -> persistLocked now None m' d = (None, d'))
  /\ m_db m' = m_db m /\ m_usageStorePath m' = m_usageStorePath m.
Proof.
  intros H [c Hc] Hne. unfold DisableConsumer in H. apply str_eqb_false in Hne. rewrite Hne, Hc in H.
  destruct (persist _ _ _ _) as [err d0] eqn:Ep. destruct err as [e|]; injection H as <- <- <-.
  - split; [|done]. eexists. split; [apply lookup_insert_eq|done].
  - split; [eexists; by split; [apply lookup_insert_eq|]|]. split; [done|]. split; [|done]. intros _.
    revert Ep. unfold persist, disk_persist, persistLocked. simpl.
    repeat case_goal; try (intros [= ?]; done); by intros [= <-].
Qed.

Definition provider_is_disabled (m : Market) (id : string) : Prop :=
  exists p, m_providers m !! id = Some p /\ pv_Disabled p = true.

Lemma insert_disabled {A} (dis : A -> bool) (accounts : gmap string A) k x id :
  (k = id -> dis x = true) -> (exists c, accounts !! id = Some c /\ dis c = true) ->
  exists c, <[k := x]> accounts !! id = Some c /\ dis c = true.
Proof.
  intros Hx (c & Hc & Hd). destruct (decide (k = id)) as [->|Hne]; [exists x; by rewrite lookup_insert_eq; auto|].
  exists c. by rewrite lookup_insert_ne.
Qed.

(** No operation enables an account again, or changes the switches of the market. *)
Lemma run_city_disabled o m d m' d' :
  run_city o (m, d) = (m', d') ->
  m_enabled m' = m_enabled m /\ m_requireProviderTokens m' = m_requireProviderTokens m
  /\ (forall id, is_disabled m id -> is_disabled m' id) /\ (forall id, provider_is_disabled m id -> provider_is_disabled m' id).
Proof.
  assert (Hnew : forall {A} (dis : A -> bool) (accounts : gmap string A) k x id, accounts !! k = None ->
    (exists c, accounts !! id = Some c /\ dis c = true) -> exists c, <[k := x]> accounts !! id = Some c /\ dis c = true).
  { intros A dis accounts k x id Hk (c & Hc & Hd). apply insert_disabled; [intros ->; congruence|by exists c]. }
  destruct o; cbn [run_city].
  - unfold CreateConsumer. case_goal; [by intros [= <- <-]|]. destruct (randomSecret _ _); [|by intros [= <- <-]].
    destruct (m_consumers m !! _) eqn:E0; [by intros [= <- <-]|]. destruct (persist _ _ _ _) as [[e|] d1]; intros [= <- <-]; [|].
    + split_and!; try done. intros id. unfold is_disabled. simpl. by rewrite delete_insert_id.
    + split_and!; try done. intros id. unfold is_disabled. simpl. by apply Hnew.
  - unfold CreateProvider. case_goal; [by intros [= <- <-]|]. destruct (randomSecret _ _); [|by intros [= <- <-]].
    destruct (m_providers m !! _) eqn:E0; [by intros [= <- <-]|]. destruct (providerPrivacy _ _) as [[? ?]|]; [|by intros [= <- <-]].
    destruct (persist _ _ _ _) as [[e|] d1]; intros [= <- <-].
    + split_and!; try done. intros id. unfold provider_is_disabled. simpl. by rewrite delete_insert_id.
    + split_and!; try done. intros id. unfold provider_is_disabled. simpl. by apply Hnew.
  - unfold RotateConsumerKey. repeat case_goal; by intros [= <- <-].
  - unfold RotateProviderToken. repeat case_goal; by intros [= <- <-].
  - unfold DisableConsumer. case_goal; [by intros [= <- <-]|]. destruct (m_consumers m !! _) as [c|] eqn:E0; [|by intros [= <- <-]].
    destruct (persist _ _ _ _) as [[e|] d1]; intros [= <- <-]; (split_and!; try done); intros i; unfold is_disabled; simpl;
      by apply insert_disabled.
  - unfold DisableProvider. case_goal; [by intros [= <- <-]|]. destruct (m_providers m !! _) as [c|] eqn:E0; [|by intros [= <- <-]].
    destruct (persist _ _ _ _) as [[e|] d1]; intros [= <- <-]; (split_and!; try done); intros i; unfold provider_is_disabled; simpl;
      by apply insert_disabled.
  - unfold ReserveConsumerQuota. cbv zeta. repeat case_goal; by intros [= <- <-].
  - intros [= <- <-]. unfold ReleaseReservation, releaseReservationLocked. repeat case_goal; done.
  - unfold Record_. destruct (persist _ _ _ _) as [e d1]. intros [= <- <-]. by destruct (negb _).
  - unfold RecordReserved, releaseReservationLocked. destruct (persist _ _ _ _) as [e d1]. intros [= <- <-]. repeat case_goal; done.
Qed.

(** What operations make of the market. *)
Definition after_ops (ops : list city_op) (w : world) : world := fold_left (fun w o => run_city o w) ops w.

Lemma after_ops_disabled ops w :
  m_enabled (fst (after_ops ops w)) = m_enabled (fst w)
  /\ m_requireProviderTokens (fst (after_ops ops w)) = m_requireProviderTokens (fst w)
  /\ (forall id, is_disabled (fst w) id -> is_disabled (fst (after_ops ops w)) id)
  /\ (forall id, provider_is_disabled (fst w) id -> provider_is_disabled (fst (after_ops ops w)) id).
Proof.
  revert w. induction ops as [|o ops IH]; intros [m d]; [done|]. cbn [after_ops fold_left].
  change (fold_left (fun w o => run_city o w) ops) with (after_ops ops).
  destruct (run_city o (m, d)) as [m1 d1] eqn:E. destruct (run_city_disabled _ _ _ _ _ E) as (H1 & H2 & H3 & H4).
  destruct (IH (m1, d1)) as (I1 & I2 & I3 & I4). cbn [fst] in *. split_and!; [congruence|congruence|auto..].
Qed.

(** Only a request without a key, while the market is disabled and no key exists, gets in as a disabled "local". *)
Lemma disabled_no_key m id :
  is_disabled m id -> id <> "local" \/ m_enabled m = true -> locked_out m id.
Proof.
  intros (c & Hc & Hd) He key. rewrite AuthenticateConsumer_ok. unfold open_mode.
  intros [[(_ & ? & _) ->]|(_ & _ & c' & ? & ?)]; [|congruence]. destruct He; congruence.
Qed.

(** C29: once an account is disabled no key authenticates as it, even when storing the change
    fails, whatever operations of the market follow; and when it was stored, no key authenticates as
    it after a restart either, whatever keys the configuration lists for it.  The built-in account "local" is the
    exception: it is locked out only while the market is enabled ([disabling_local_opens]), and after a restart
    only if there are no legacy keys ([local_account_reenabled]). *)
Theorem disabled_consumer_locked_out cfg legacy rawID now fault m d r m' d' :
  city_reachable (m, d) -> stores_in cfg m ->
  is_Some (m_consumers m !! normalizeAccountID rawID) -> normalizeAccountID rawID <> "" ->
  DisableConsumer rawID now fault m d = (r, m', d') ->
  let id := normalizeAccountID rawID in
  (id <> "local" \/ m_enabled m = true -> forall ops, locked_out (fst (after_ops ops (m', d'))) id)
  /\ (is_ok r = true -> id <> "local" \/ (legacy = [] /\ cc_Enabled cfg = true) ->
      forall m'' ops, New cfg legacy None d' = Ok m'' -> locked_out (fst (after_ops ops (m'', d'))) id).
Proof.
  intros Hreach Hs Hex Hne Hd id.
  pose proof (city_reachable_ok _ (cr_op _ (CoDisableConsumer rawID now fault) Hreach)) as [Hm' _].
  simpl in Hm'. rewrite Hd in Hm'. simpl in Hm'.
  destruct (DisableConsumer_spec _ _ _ _ _ _ _ _ Hd Hex Hne) as (Hdis & He' & Hp & Hdb & Hpath). split.
  - intros Hcase ops. destruct (after_ops_disabled ops (m', d')) as (A1 & _ & A3 & _). cbn [fst] in *.
    apply disabled_no_key; [by apply A3|]. destruct Hcase; [by left|right; congruence].
  - intros Hok Hcase m'' ops Hnew. specialize (Hp Hok).
    assert (Hs' : stores_in cfg m') by (destruct Hs as (? & ? & ?); split_and!; congruence || done).
    destruct (persist_then_load _ _ _ _ _ Hm' Hs' Hp) as (m1 & Hl & Hsame & _ & _ & He1).
    assert (Hdis1 : is_disabled m1 id) by (destruct Hdis as (c & Hc & ?); exists c; by rewrite <- (sa_consumers _ _ Hsame)).
    assert (Hdis2 : is_disabled m'' id) by (apply (New_disabled cfg legacy None d' m1); tauto).
    destruct (after_ops_disabled ops (m'', d')) as (A1 & _ & A3 & _). cbn [fst] in *.
    apply disabled_no_key; [by apply A3|]. destruct Hcase as [?|[_ Hce]]; [by left|right].
    rewrite A1, (New_enabled _ _ _ _ _ _ Hl Hnew). congruence.
Qed.

Definition demo_disable : res CityError Consumer * Market * Disk :=
  DisableConsumer "studio" 5 None demo_market blank_disk.

Lemma demo_disable_check :
  match demo_disable with
  | (r, m', d') => is_ok r && is_ok (New demo_city [] None d')
      && bool_decide (is_Some (m_consumers demo_market !! normalizeAccountID "studio"))
      && m_enabled demo_market && m_db demo_market && (m_usageStorePath demo_market =s "")
      && is_ok (AuthenticateConsumer demo_market "k1")
  end = true.
Proof. by vm_compute. Qed.

Lemma disabled_consumer_locked_out_witness :
  exists r m' d' m'', demo_disable = (r, m', d') /\ is_ok r = true /\ New demo_city [] None d' = Ok m''
    /\ locked_out m' "studio" /\ locked_out m'' "studio" /\ is_ok (AuthenticateConsumer demo_market "k1") = true.
Proof.
  pose proof demo_disable_check as Hck. unfold demo_disable in *.
  destruct (DisableConsumer "studio" 5 None demo_market blank_disk) as [[r m'] d'] eqn:E.
  apply andb_true_iff in Hck as [Hck Hauth]. apply andb_true_iff in Hck as [Hck Hpath].
  apply andb_true_iff in Hck as [Hck Hdb]. apply andb_true_iff in Hck as [Hck Hen].
  apply andb_true_iff in Hck as [Hck Hex]. apply andb_true_iff in Hck as [Hok Hnew].
  apply bool_decide_eq_true in Hex. apply str_eqb_true in Hpath.
  destruct (New demo_city [] None d') as [m''|e] eqn:En; [|discriminate Hnew].
  assert (Hlocal : normalizeAccountID "studio" <> "local") by (by vm_compute).
  destruct (disabled_consumer_locked_out demo_city [] "studio" 5 None demo_market blank_disk r m' d')
    as [H1 H2]; try assumption.
  - apply demo_market_reachable.
  - split_and!; [exact Hdb|exact Hpath|left; discriminate].
  - by vm_compute.
  - exists r, m', d', m''. split; [reflexivity|]. split; [exact Hok|]. split; [exact En|].
    replace "studio" with (normalizeAccountID "studio") by (by vm_compute).
    split; [exact (H1 (or_introl Hlocal) [])|]. split; [exact (H2 Hok (or_introl Hlocal) m'' [] En)|exact Hauth].
Defined.
