(* ===== verification/CityFile.v ===== *)
(** * The market's state file, byte for byte: [internal/city/market.go]

    [persistLocked] writes the indented JSON text of a snapshot to a temporary file and renames
    it; [loadState] reads it.  [Files] holds the bytes of both files, [save_file] is the call with a
    failure at any of its steps, and an instance of the interface [City.Persist] that the
    account operations are written against.  [view] is what the bytes say.

    [file_reachable] starts, operates and restarts on bytes.  [state_file_refines]: every world it
    reaches is, seen through [view], one that [City] reaches, so all that is proved of the market
    over an abstract disk holds of the file.  [state_file_round_trip]: whatever step of the call fails,
    or the process dies at, the file keeps its bytes or has all the new ones.

    The market's text must be valid UTF-8 and its instants in the years 0 to 9999, as they are
    when they come from decoded JSON or YAML and from the clock; [texts] says so and every operation
    keeps it. *)

From Stdlib Require Import ZifyBool.
From S2P Require Import Prelude GoString GoSort Sha256 Json JsonDecode JsonRoundTrip JsonTree.
From S2P Require Import Privacy Protocol Config City CityProofs.

#[export] Instance eta_persistedConsumer : Settable persistedConsumer := fun c =>
  Build_persistedConsumer (pc_ID c) (pc_DisplayName c) (pc_TotalTokenLimit c) (pc_Disabled c) (pc_APIKeyHashes c).
#[export] Instance eta_persistedProvider : Settable persistedProvider := fun p =>
  Build_persistedProvider (pp_ID p) (pp_DisplayName p) (pp_Disabled p) (pp_PrivacyMode p) (pp_PrivacyTiers p) (pp_TokenHashes p).
#[export] Instance eta_Usage : Settable Usage := fun u =>
  Build_Usage (us_AccountID u) (us_Requests u) (us_PromptTokens u) (us_CompletionTokens u) (us_TotalTokens u) (us_UpdatedAt u).
#[export] Instance eta_persistedState : Settable persistedState := fun s =>
  Build_persistedState (ps_Version s) (ps_UpdatedAt s) (ps_Consumers s) (ps_Providers s) (ps_ConsumerUsage s) (ps_ProviderUsage s).

Section CityFile.
Context {Zn : Zone} {ZL : ZoneLaws Zn}.

(** ** The text *)

(** [src/internal/city/market.go:63-69] persistedConsumer (written) *)
Definition consumer_members (c : persistedConsumer) : members :=
  [ ("id", Some (string_tree (pc_ID c)));
    ("display_name", Some (string_tree (pc_DisplayName c)));
    ("total_token_limit", omit_int (pc_TotalTokenLimit c));
    ("disabled", omit_false (pc_Disabled c));
    ("api_key_hashes", omit_strings (pc_APIKeyHashes c)) ].

(** [src/internal/city/market.go:71-78] persistedProvider (written) *)
Definition provider_members (p : persistedProvider) : members :=
  [ ("id", Some (string_tree (pp_ID p)));
    ("display_name", Some (string_tree (pp_DisplayName p)));
    ("disabled", omit_false (pp_Disabled p));
    ("privacy_mode", omit_string (pp_PrivacyMode p));
    ("privacy_tiers", omit_strings (pp_PrivacyTiers p));
    ("token_hashes", omit_strings (pp_TokenHashes p)) ].

(** [src/internal/city/market.go:95-102] Usage (written) *)
Definition usage_members (u : Usage) : members :=
  [ ("account_id", Some (string_tree (us_AccountID u)));
    ("requests", Some (int_tree (us_Requests u)));
    ("prompt_tokens", Some (int_tree (us_PromptTokens u)));
    ("completion_tokens", Some (int_tree (us_CompletionTokens u)));
    ("total_tokens", Some (int_tree (us_TotalTokens u)));
    ("updated_at", Some (time_tree (us_UpdatedAt u))) ].

(** [src/internal/city/market.go:54-61] persistedState (written); its slices are never nil. *)
Definition state_members (s : persistedState) : members :=
  [ ("version", Some (int_tree (ps_Version s)));
    ("updated_at", Some (time_tree (ps_UpdatedAt s)));
    ("consumers", Some (JArray ((fun c => struct_tree (consumer_members c)) <$> ps_Consumers s)));
    ("providers", Some (JArray ((fun p => struct_tree (provider_members p)) <$> ps_Providers s)));
    ("consumer_usage", Some (JArray ((fun u => struct_tree (usage_members u)) <$> ps_ConsumerUsage s)));
    ("provider_usage", Some (JArray ((fun u => struct_tree (usage_members u)) <$> ps_ProviderUsage s))) ].

Definition times_writable (s : persistedState) : bool :=
  clock_in_range (ps_UpdatedAt s) && forallb (fun u => clock_in_range (us_UpdatedAt u)) (ps_ConsumerUsage s ++ ps_ProviderUsage s).

(** [json.MarshalIndent(snapshot, "", "  ")]. *)
Definition state_text (s : persistedState) : option (list Z) :=
  if times_writable s then Some (write true 0 (struct_tree (state_members s))) else None.

(** [src/internal/city/market.go:63-69] persistedConsumer (read) *)
Definition consumer_fields : list (string * setter persistedConsumer) :=
  [ ("id", as_string (fun v c => c <| pc_ID := v |>));
    ("display_name", as_string (fun v c => c <| pc_DisplayName := v |>));
    ("total_token_limit", as_int (fun v c => c <| pc_TotalTokenLimit := v |>));
    ("disabled", as_bool (fun v c => c <| pc_Disabled := v |>));
    ("api_key_hashes", as_strings (fun v c => c <| pc_APIKeyHashes := v |>)) ].
Definition zero_consumer : persistedConsumer := Build_persistedConsumer "" "" 0 false [].

(** [src/internal/city/market.go:71-78] persistedProvider (read) *)
Definition provider_fields : list (string * setter persistedProvider) :=
  [ ("id", as_string (fun v p => p <| pp_ID := v |>));
    ("display_name", as_string (fun v p => p <| pp_DisplayName := v |>));
    ("disabled", as_bool (fun v p => p <| pp_Disabled := v |>));
    ("privacy_mode", as_string (fun v p => p <| pp_PrivacyMode := v |>));
    ("privacy_tiers", as_strings (fun v p => p <| pp_PrivacyTiers := v |>));
    ("token_hashes", as_strings (fun v p => p <| pp_TokenHashes := v |>)) ].
Definition zero_provider : persistedProvider := Build_persistedProvider "" "" false "" [] [].

(** [src/internal/city/market.go:95-102] Usage (read) *)
Definition usage_fields : list (string * setter Usage) :=
  [ ("account_id", as_string (fun v u => u <| us_AccountID := v |>));
    ("requests", as_int (fun v u => u <| us_Requests := v |>));
    ("prompt_tokens", as_int (fun v u => u <| us_PromptTokens := v |>));
    ("completion_tokens", as_int (fun v u => u <| us_CompletionTokens := v |>));
    ("total_tokens", as_int (fun v u => u <| us_TotalTokens := v |>));
    ("updated_at", as_time (fun v u => u <| us_UpdatedAt := v |>)) ].
Definition zero_usage : Usage := Build_Usage "" 0 0 0 0 time_zero.

(** [src/internal/city/market.go:54-61] persistedState (read) *)
Definition state_fields : list (string * setter persistedState) :=
  [ ("version", as_int (fun v s => s <| ps_Version := v |>));
    ("updated_at", as_time (fun v s => s <| ps_UpdatedAt := v |>));
    ("consumers", as_slice (decode_struct consumer_fields) zero_consumer (fun v s => s <| ps_Consumers := v |>));
    ("providers", as_slice (decode_struct provider_fields) zero_provider (fun v s => s <| ps_Providers := v |>));
    ("consumer_usage", as_slice (decode_struct usage_fields) zero_usage (fun v s => s <| ps_ConsumerUsage := v |>));
    ("provider_usage", as_slice (decode_struct usage_fields) zero_usage (fun v s => s <| ps_ProviderUsage := v |>)) ].
Definition zero_state : persistedState := Build_persistedState 0 time_zero [] [] [] [].

Definition state_decode : list Z -> option persistedState := unmarshal state_fields zero_state.

(** ** The files *)

(** The file at [usage_store_path] and its temporary neighbour, when they exist. *)
Record Files := { f_state : option (list Z); f_tmp : option (list Z) }.
Definition no_files : Files := {| f_state := None; f_tmp := None |}.

(** Where saving stops: making the directory, opening the temporary file, after [k] bytes of it, in
    the renaming.  A process that dies there leaves the same files. *)
Inductive SaveFault :=
| NoDirectory (e : string)
| NotOpened (e : string)
| WrittenUpTo (k : nat) (e : string)
| NotRenamed (e : string).

Definition reason (fault : SaveFault) : string :=
  match fault with NoDirectory e | NotOpened e | WrittenUpTo _ e | NotRenamed e => e end.

(** [src/internal/city/market.go:796-807] persistLocked (the JSON file) *)
Definition write_file (fault : option SaveFault) (data : option (list Z)) (f : Files) : option CityError * Files :=
  match data with
  | None => (Some (ErrIO "json: year outside of range [0,9999]"), f)
  | Some data =>
      match fault with
      | Some (NoDirectory e) | Some (NotOpened e) => (Some (ErrIO e), f)
      | Some (WrittenUpTo k e) => (Some (ErrIO e), {| f_state := f_state f; f_tmp := Some (take k data) |})
      | Some (NotRenamed e) => (Some (ErrIO e), {| f_state := f_state f; f_tmp := Some data |})
      | None => (None, {| f_state := Some data; f_tmp := None |})
      end
  end.

(** [src/internal/city/market.go:781-808] persistLocked, when there is no database. *)
Definition save_file (now : Time) (fault : option SaveFault) (m : Market) (f : Files) : option CityError * Files :=
  if m_usageStorePath m =s "" then (None, f)
  else write_file fault (state_text (persistedSnapshot now m)) f.

#[export] Instance file_persist : Persist Files (option SaveFault) := save_file.

(** [src/internal/city/market.go:736-746] loadState (reading the file) *)
Definition view (unreadable : option string) (f : Files) : option (res string persistedState) :=
  match unreadable, f_state f with
  | Some e, _ => Some (Err e)
  | None, None => None
  | None, Some data => Some (match state_decode data with Some s => Ok s | None => Err "invalid JSON" end)
  end.

(** The disk of [City] that the files are. *)
Definition disk_of (f : Files) : Disk := {| dk_file := view None f; dk_db := empty_DB |}.

(** ** What is saved is read back *)

Definition consumer_ok (c : persistedConsumer) : Prop :=
  valid_text (pc_ID c) /\ valid_text (pc_DisplayName c) /\ in_int64 (pc_TotalTokenLimit c) /\ Forall valid_text (pc_APIKeyHashes c).
Definition provider_ok (p : persistedProvider) : Prop :=
  valid_text (pp_ID p) /\ valid_text (pp_DisplayName p) /\ valid_text (pp_PrivacyMode p)
  /\ Forall valid_text (pp_PrivacyTiers p) /\ Forall valid_text (pp_TokenHashes p).
Definition usage_texts (u : Usage) : Prop :=
  valid_text (us_AccountID u)
  /\ Forall in_int64 [us_Requests u; us_PromptTokens u; us_CompletionTokens u; us_TotalTokens u]
  /\ clock_in_range (us_UpdatedAt u) = true.
Definition state_ok (s : persistedState) : Prop :=
  in_int64 (ps_Version s) /\ clock_in_range (ps_UpdatedAt s) = true /\ Forall consumer_ok (ps_Consumers s)
  /\ Forall provider_ok (ps_Providers s) /\ Forall usage_texts (ps_ConsumerUsage s) /\ Forall usage_texts (ps_ProviderUsage s).

Lemma consumer_read c : consumer_ok c -> decode_struct consumer_fields (struct_tree (consumer_members c)) zero_consumer = Some c.
Proof.
  intros (H1 & H2 & H3 & H4). rewrite decode_tree. destruct c as [f1 f2 f3 f4 f5]. unfold consumer_members, zero_consumer, omit_strings. simpl in * |-.
  cbn [pc_ID pc_DisplayName pc_TotalTokenLimit pc_Disabled pc_APIKeyHashes]. read_members.
Qed.

Lemma provider_read p : provider_ok p -> decode_struct provider_fields (struct_tree (provider_members p)) zero_provider = Some p.
Proof.
  intros (H1 & H2 & H3 & H4 & H5). rewrite decode_tree. destruct p as [f1 f2 f3 f4 f5 f6]. unfold provider_members, zero_provider, omit_strings.
  simpl in * |-. cbn [pp_ID pp_DisplayName pp_Disabled pp_PrivacyMode pp_PrivacyTiers pp_TokenHashes]. read_members.
Qed.

Lemma usage_read u : usage_texts u -> decode_struct usage_fields (struct_tree (usage_members u)) zero_usage = Some u.
Proof.
  intros (H1 & H2 & H3). rewrite !Forall_cons in H2. destruct_and!. rewrite decode_tree. destruct u as [f1 f2 f3 f4 f5 f6].
  unfold usage_members, zero_usage. cbn in * |-.
  cbn [us_AccountID us_Requests us_PromptTokens us_CompletionTokens us_TotalTokens us_UpdatedAt]. read_members.
Qed.

Lemma state_read s : state_ok s -> decode_ms state_fields (state_members s) zero_state = Some s.
Proof.
  intros (H1 & H2 & H3 & H4 & H5 & H6).
  pose proof (Forall_impl _ _ _ H3 consumer_read). pose proof (Forall_impl _ _ _ H4 provider_read).
  pose proof (Forall_impl _ _ _ H5 usage_read). pose proof (Forall_impl _ _ _ H6 usage_read). clear H3 H4 H5 H6.
  destruct s as [f1 f2 f3 f4 f5 f6]. unfold state_members, zero_state.
  cbn [ps_Version ps_UpdatedAt ps_Consumers ps_Providers ps_ConsumerUsage ps_ProviderUsage] in *. read_members.
Qed.

Lemma consumer_writable d c : 3 < d -> consumer_ok c -> writable d (struct_tree (consumer_members c)).
Proof. intros Hd (H1 & H2 & H3 & H4). write_members. Qed.

Lemma provider_writable d p : 3 < d -> provider_ok p -> writable d (struct_tree (provider_members p)).
Proof. intros Hd (H1 & H2 & H3 & H4 & H5). write_members. Qed.

Lemma usage_writable d u : 3 < d -> usage_texts u -> writable d (struct_tree (usage_members u)).
Proof. intros Hd (H1 & H2 & H3). rewrite !Forall_cons in H2. destruct_and!. write_members. Qed.

Lemma list_writable {A} d (tree : A -> json) (ok : A -> Prop) l :
  0 < d -> (forall x, ok x -> writable (d - 1) (tree x)) -> Forall ok l -> writable d (JArray (tree <$> l)).
Proof. intros Hd Hw Hl. constructor; [done|]. apply Forall_fmap. eapply Forall_impl; [exact Hl|]. exact Hw. Qed.

Lemma state_writable s : state_ok s -> writable max_depth (struct_tree (state_members s)).
Proof.
  intros (H1 & H2 & H3 & H4 & H5 & H6). assert (Hd : 6 < max_depth) by (unfold max_depth; lia). revert Hd. generalize max_depth as d. intros d Hd.
  write_members.
  - eapply list_writable; [lia| |exact H3]. intros c. apply consumer_writable. lia.
  - eapply list_writable; [lia| |exact H4]. intros c. apply provider_writable. lia.
  - eapply list_writable; [lia| |exact H5]. intros c. apply usage_writable. lia.
  - eapply list_writable; [lia| |exact H6]. intros c. apply usage_writable. lia.
Qed.

(** A snapshot's text is the snapshot. *)
Lemma state_text_decode s : state_ok s -> exists data, state_text s = Some data /\ state_decode data = Some s.
Proof.
  intros Hs. unfold state_text. replace (times_writable s) with true.
  - eexists. split; [done|]. apply unmarshal_write; [by apply state_writable|by apply state_read].
  - symmetry. destruct Hs as (_ & H2 & _ & _ & H5 & H6). unfold times_writable. rewrite H2. apply forallb_forall.
    intros u Hu. apply list_elem_of_In, elem_of_app in Hu. rewrite Forall_forall in H5. rewrite Forall_forall in H6.
    destruct Hu as [Hu|Hu]; [by apply H5|by apply H6].
Qed.

(** ** The market's text *)

Record texts (m : Market) : Prop := {
  tx_consumers : map_Forall (fun _ c => valid_text (cn_ID c) /\ valid_text (cn_DisplayName c) /\ in_int64 (cn_TotalTokenLimit c)) (m_consumers m);
  tx_providers : map_Forall (fun _ p => valid_text (pv_ID p) /\ valid_text (pv_DisplayName p) /\ valid_text (pv_PrivacyMode p)
    /\ Forall valid_text (pv_PrivacyTiers p)) (m_providers m);
  tx_keys : map_Forall (fun h _ => valid_text h) (m_apiKeyHashes m);
  tx_tokens : map_Forall (fun h _ => valid_text h) (m_tokenHashes m);
  tx_consumer_use : map_Forall (fun _ u => usage_texts u) (m_consumerUse m);
  tx_provider_use : map_Forall (fun _ u => usage_texts u) (m_providerUse m);
}.

(** The values of a map, one by one. *)
Lemma sorted_values_all {A} (key : A -> string) (P : A -> Prop) m : map_Forall (fun _ v => P v) m -> Forall P (sorted_values key m).
Proof.
  intros H. apply Forall_forall. intros v Hv. unfold sorted_values in Hv. apply elem_of_sort_by, list_elem_of_fmap in Hv as ([k v'] & -> & Hv).
  apply elem_of_map_to_list in Hv. by eapply H.
Qed.

Lemma hashes_all (P : string -> Prop) m a : map_Forall (fun h _ => P h) m -> Forall P (hashesForAccount m a).
Proof. intros H. apply Forall_forall. intros h Hh. apply elem_of_hashesForAccount in Hh. by eapply H. Qed.

Lemma snapshot_ok now m : texts m -> clock_in_range now = true -> state_ok (persistedSnapshot now m).
Proof.
  intros [Hc Hp Hk Ht Hcu Hpu] Hn. unfold state_ok, persistedSnapshot. simpl. split_and!; [done|done| | |by apply sorted_values_all..].
  - apply Forall_fmap. eapply Forall_impl; [exact (sorted_values_all cn_ID _ _ Hc)|]. intros c (H1 & H2 & H3).
    split_and!; try done. by apply hashes_all.
  - apply Forall_fmap. eapply Forall_impl; [exact (sorted_values_all pv_ID _ _ Hp)|]. intros q (H1 & H2 & H3 & H4).
    split_and!; try done. by apply hashes_all.
Qed.

(** The market is kept in a file. *)
Record in_file (m : Market) : Prop := {
  if_texts : texts m;
  if_path : m_usageStorePath m <> "";
  if_db : m_db m = false;
}.

(** The call on bytes is the call on the disk they show, whatever fails. *)
Lemma save_refines now fault m f e f' :
  in_file m -> clock_in_range now = true -> save_file now fault m f = (e, f') ->
  persistLocked now (reason <$> fault) m (disk_of f) = (e, disk_of f').
Proof.
  intros [Ht Hp Hdb] Hn. apply str_eqb_false in Hp. unfold save_file, persistLocked. rewrite Hdb, Hp.
  destruct (state_text_decode _ (snapshot_ok now m Ht Hn)) as (data & Hd & Hr). rewrite Hd. unfold write_file.
  destruct fault as [[]|]; intros [= <- <-]; try done. unfold disk_of, view. simpl. by rewrite Hr.
Qed.

(** The file is absent or holds a state. *)
Definition file_ok (f : Files) : Prop := f_state f = None \/ exists s, view None f = Some (Ok s) /\ state_ok s.

Lemma file_ok_state f s : file_ok f -> dk_file (disk_of f) = Some (Ok s) -> state_ok s.
Proof. unfold disk_of, view. simpl. intros [->|(s' & Hv & Hs)]; [done|]. unfold view in Hv. rewrite Hv. by intros [= <-]. Qed.

Lemma save_file_ok now fault m f e f' :
  in_file m -> clock_in_range now = true -> file_ok f -> save_file now fault m f = (e, f') -> file_ok f'.
Proof.
  intros [Ht Hp _] Hn Hf. apply str_eqb_false in Hp. unfold save_file. rewrite Hp.
  pose proof (snapshot_ok now m Ht Hn) as Hs. destruct (state_text_decode _ Hs) as (data & Hd & Hr). rewrite Hd. unfold write_file.
  destruct fault as [[]|]; intros [= <- <-]; try done. right. eexists. split; [|done]. unfold view. simpl. by rewrite Hr.
Qed.

(** ** The operations keep the market's text *)

Lemma canonical_text raw : valid_text (normalizeAccountID raw).
Proof.
  destruct (normalizeAccountID_cases raw) as [->|Hc%canonical_id_ascii]; [done|]. apply ascii_valid.
  eapply Forall_impl; [exact Hc|]. by intros b [Hb _].
Qed.

Lemma hash_text secret : valid_text (hashSecret secret).
Proof. apply ascii_valid. destruct (sha256_hex_digest (bytes secret)) as [_ H]. eapply Forall_impl; [exact H|]. unfold hex_char. lia. Qed.

Lemma displayName_text raw fallback : valid_text raw -> valid_text fallback -> valid_text (displayName raw fallback).
Proof. intros Hr Hf. unfold displayName. case_goal; [done|]. by apply trim_space_valid. Qed.

Lemma privacy_text mode tiers mt : providerPrivacy mode tiers = Ok mt -> valid_text (fst mt) /\ Forall valid_text (snd mt).
Proof.
  intros H. apply providerPrivacy_policy in H as (Hk & _ & _ & ->). split; [unfold ModeForTiers; by repeat case_goal|].
  eapply Forall_impl; [exact Hk|]. by intros t [->|[->| ->]].
Qed.

Lemma addUsage_texts id done now b :
  valid_text id -> clock_in_range now = true -> map_Forall (fun _ u => usage_texts u) b -> map_Forall (fun _ u => usage_texts u) (addUsage id done now b).
Proof.
  intros Hid Hn Hb. unfold addUsage. set (i := if id =s "" then "unknown" else id).
  assert (Hi : valid_text i) by (subst i; by case_goal). apply map_Forall_insert_2; [|done].
  assert (Hu : valid_text (us_AccountID (default (empty_Usage i) (b !! i)))).
  { destruct (b !! i) as [u|] eqn:E; [|done]. by destruct (Hb _ _ E). }
  split; [done|]. split; [|done]. simpl. repeat apply Forall_cons_2; try apply Forall_nil_2; apply wrap64_range.
Qed.

Lemma texts_drop {A} (P : string -> A -> Prop) (Q : string * A -> Prop) `{forall x, Decision (Q x)} (m : gmap string A) :
  map_Forall P m -> map_Forall P (filter Q m).
Proof. intros Hm k v [Hv _]%map_lookup_filter_Some. by apply Hm. Qed.

Ltac texts_fields := constructor; simpl; try done; try by apply texts_drop.

Lemma texts_put_consumer m k c :
  texts m -> valid_text (cn_ID c) -> valid_text (cn_DisplayName c) -> in_int64 (cn_TotalTokenLimit c) ->
  texts (m <| m_consumers ::= <[k := c]> |>).
Proof. intros [] H1 H2 H3. texts_fields. by apply map_Forall_insert_2. Qed.

Lemma texts_put_provider m k p :
  texts m -> valid_text (pv_ID p) -> valid_text (pv_DisplayName p) -> valid_text (pv_PrivacyMode p) -> Forall valid_text (pv_PrivacyTiers p) ->
  texts (m <| m_providers ::= <[k := p]> |>).
Proof. intros [] H1 H2 H3 H4. texts_fields. by apply map_Forall_insert_2. Qed.

Lemma texts_put_key m h a : texts m -> valid_text h -> texts (m <| m_apiKeyHashes ::= <[h := a]> |>).
Proof. intros [] Hh. texts_fields. by apply map_Forall_insert_2. Qed.

Lemma texts_put_token m h a : texts m -> valid_text h -> texts (m <| m_tokenHashes ::= <[h := a]> |>).
Proof. intros [] Hh. texts_fields. by apply map_Forall_insert_2. Qed.

Lemma texts_consumer_removed m id h : texts m -> texts (m <| m_consumers ::= delete id |> <| m_apiKeyHashes ::= delete h |>).
Proof. intros []. texts_fields; by apply map_Forall_delete. Qed.

Lemma texts_provider_removed m id h : texts m -> texts (m <| m_providers ::= delete id |> <| m_tokenHashes ::= delete h |>).
Proof. intros []. texts_fields; by apply map_Forall_delete. Qed.

Lemma texts_no_consumer_secrets m id : texts m -> texts (removeConsumerSecretsLocked id m).
Proof. intros []. texts_fields. Qed.

Lemma texts_no_provider_secrets m id : texts m -> texts (removeProviderSecretsLocked id m).
Proof. intros []. texts_fields. Qed.

Lemma texts_use cid pid done now m :
  texts m -> valid_text cid -> valid_text pid -> clock_in_range now = true ->
  texts (let m := m <| m_consumerUse ::= addUsage cid done now |> in
    if negb (pid =s "") then m <| m_providerUse ::= addUsage pid done now |> else m).
Proof. intros [] Hc Hp Hn. cbv zeta. case_goal; texts_fields; by apply addUsage_texts. Qed.

Lemma texts_released r m : texts m -> texts (releaseReservationLocked r m).
Proof. intros []. unfold releaseReservationLocked. repeat case_goal; try done; texts_fields. Qed.

(** ** Operations on bytes *)

(** What an operation may be given: text that is valid, clocks in range. *)
Definition op_ok {F} (o : market_op F) : Prop :=
  match o with
  | CoCreateConsumer i _ now _ => valid_text (ci_DisplayName i) /\ in_int64 (ci_TotalTokenLimit i) /\ clock_in_range now = true
  | CoCreateProvider i _ now _ => valid_text (pi_DisplayName i) /\ clock_in_range now = true
  | CoRotateConsumer _ _ now _ | CoRotateProvider _ _ now _ | CoDisableConsumer _ now _ | CoDisableProvider _ now _ => clock_in_range now = true
  | CoReserve _ _ | CoRelease _ => True
  | CoRecord cid pid _ now _ | CoRecordReserved _ cid pid _ now _ => valid_text cid /\ valid_text pid /\ clock_in_range now = true
  end.

(** The operation as [City] runs it on its abstract disk. *)
Definition abstract_op (o : market_op (option SaveFault)) : city_op :=
  match o with
  | CoCreateConsumer i raw now f => CoCreateConsumer i raw now (reason <$> f)
  | CoCreateProvider i raw now f => CoCreateProvider i raw now (reason <$> f)
  | CoRotateConsumer id raw now f => CoRotateConsumer id raw now (reason <$> f)
  | CoRotateProvider id raw now f => CoRotateProvider id raw now (reason <$> f)
  | CoDisableConsumer id now f => CoDisableConsumer id now (reason <$> f)
  | CoDisableProvider id now f => CoDisableProvider id now (reason <$> f)
  | CoReserve id tokens => CoReserve id tokens
  | CoRelease r => CoRelease r
  | CoRecord cid pid done now f => CoRecord cid pid done now (reason <$> f)
  | CoRecordReserved r cid pid done now f => CoRecordReserved r cid pid done now (reason <$> f)
  end.

Definition simulated (w : Market * Files) (d : Market * Disk) : Prop := d = (w.1, disk_of w.2) /\ in_file w.1 /\ file_ok w.2.

(** Saving in the middle of an operation: the same on both sides. *)
Ltac save_step :=
  match goal with
  | Hn : clock_in_range ?now = true, Hf : file_ok ?f |- context [persist ?now ?fault ?m ?f] =>
      let Hp := fresh "Hp" in let E := fresh "E" in let H := fresh "H" in let Hf' := fresh "Hf" in
      assert (Hp : in_file m);
      [constructor|destruct (persist now fault m f) as [err f'] eqn:E; pose proof (save_refines now fault m f err f' Hp Hn E) as H;
        pose proof (save_file_ok now fault m f err f' Hp Hn Hf E) as Hf';
        change (persistLocked now (reason <$> fault) m (disk_of f)) with (persist now (reason <$> fault) m (disk_of f)) in H;
        rewrite H; destruct Hp as [? ? ?]; destruct err]
  end.

Lemma op_refines o m f : in_file m -> file_ok f -> op_ok o -> simulated (run_city o (m, f)) (run_city (abstract_op o) (m, disk_of f)).
Proof.
  intros Hm Hf Hok. assert (Hsame : simulated (m, f) (m, disk_of f)) by done. destruct Hm as [Ht Hpath Hdb].
  destruct o; simpl in Hok; destruct_and?; cbn [run_city abstract_op].
  - unfold CreateConsumer. case_goal; [done|]. destruct (randomSecret "sk-mi-" raw) as [key|]; [|done].
    destruct (m_consumers m !! _) eqn:E0; [done|]. save_step; try done.
    + apply texts_put_key; [|apply hash_text]. apply texts_put_consumer; simpl; [done|apply canonical_text| |done].
      apply displayName_text; [done|apply canonical_text].
    + split; [done|]. split; [|done]. split; [by apply texts_consumer_removed|done..].
  - unfold CreateProvider. case_goal; [done|]. destruct (randomSecret "pk-mi-" raw) as [key|]; [|done].
    destruct (m_providers m !! _) eqn:E0; [done|]. destruct (providerPrivacy _ _) as [[mode tiers]|] eqn:Ep; [|done].
    apply privacy_text in Ep as [Hmode Htiers]. save_step; try done.
    + apply texts_put_token; [|apply hash_text]. apply texts_put_provider; simpl; [done|apply canonical_text| |done|done].
      apply displayName_text; [done|apply canonical_text].
    + split; [done|]. split; [|done]. split; [by apply texts_provider_removed|done..].
  - unfold RotateConsumerKey. case_goal; [done|]. destruct (randomSecret "sk-mi-" raw) as [key|]; [|done].
    destruct (m_consumers m !! _) as [c|] eqn:E0; [|done]. destruct (cn_Disabled c) eqn:Ed; [done|].
    save_step; try done. apply texts_put_key; [by apply texts_no_consumer_secrets|apply hash_text].
  - unfold RotateProviderToken. case_goal; [done|]. destruct (randomSecret "pk-mi-" raw) as [key|]; [|done].
    destruct (m_providers m !! _) as [c|] eqn:E0; [|done]. destruct (pv_Disabled c) eqn:Ed; [done|].
    save_step; try done. apply texts_put_token; [by apply texts_no_provider_secrets|apply hash_text].
  - unfold DisableConsumer. case_goal; [done|]. destruct (m_consumers m !! _) as [c|] eqn:E0; [|done].
    save_step; try done. apply texts_no_consumer_secrets. destruct (tx_consumers _ Ht _ _ E0) as (? & ? & ?). by apply texts_put_consumer.
  - unfold DisableProvider. case_goal; [done|]. destruct (m_providers m !! _) as [c|] eqn:E0; [|done].
    save_step; try done. apply texts_no_provider_secrets. destruct (tx_providers _ Ht _ _ E0) as (? & ? & ? & ?). by apply texts_put_provider.
  - unfold ReserveConsumerQuota. cbv zeta. repeat case_goal; try done. all: split; [done|]; split; [|done]; split; [|done..]. all: destruct Ht; texts_fields.
  - split; [done|]. split; [|done]. unfold ReleaseReservation. repeat case_goal; try done. split; [by apply texts_released|unfold releaseReservationLocked; by repeat case_goal..].
  - unfold Record_. save_step; try done; [by apply texts_use|by case_goal..].
  - unfold RecordReserved. save_step; try done; [by apply texts_use; [apply texts_released|..]|unfold releaseReservationLocked; by repeat case_goal..].
Qed.

(** ** Starting on bytes *)

(** A configuration for the file store, as the YAML decoder can yield it. *)
Definition config_ok (cfg : CityConfig) : Prop :=
  cc_SQLitePath cfg = "" /\ cc_UsageStorePath cfg <> ""
  /\ Forall (fun c => valid_text (ca_ID c) /\ valid_text (ca_DisplayName c) /\ in_int64 (ca_TotalTokenLimit c)) (cc_Consumers cfg)
  /\ Forall (fun p => valid_text (pa_ID p) /\ valid_text (pa_DisplayName p)) (cc_Providers cfg).

Lemma put_all_texts {A B} (key : B -> string) (val : B -> A) (P : string -> A -> Prop) l m :
  Forall (fun x => P (key x) (val x)) l -> map_Forall P m -> map_Forall P (put_all key val l m).
Proof.
  intros Hl. unfold put_all. revert m. induction Hl as [|x l Hx _ IH]; intros m Hm; [done|]. apply IH. by apply map_Forall_insert_2.
Qed.

Lemma loadConsumer_file c m : consumer_ok c -> in_file m -> in_file (loadConsumer m c).
Proof.
  intros (H1 & H2 & H3 & H4) [[] Hp Hdb]. split; [|done..]. texts_fields; [by apply map_Forall_insert_2|].
  apply put_all_texts; [|done]. exact H4.
Qed.

Lemma loadProvider_file p m m' : provider_ok p -> in_file m -> loadProvider (Ok m) p = Ok m' -> in_file m'.
Proof.
  intros (H1 & H2 & H3 & H4 & H5) [[] Hp Hdb] (mt & Hmt & [= <-])%res_bind_ok. apply privacy_text in Hmt as [Hmode Htiers].
  split; [|done..]. texts_fields; [by apply map_Forall_insert_2|]. apply put_all_texts; [|done]. exact H5.
Qed.

Lemma fold_loadProvider_err ps e : fold_left loadProvider ps (Err e) = Err e.
Proof. by induction ps. Qed.

Lemma loadState_file file m m' :
  (forall s, file = Some (Ok s) -> state_ok s) -> in_file m -> loadState file m = Ok m' -> in_file m'.
Proof.
  intros Hs Hm. destruct file as [[s|e]|]; [|done|by intros [= <-]]. destruct (Hs s eq_refl) as (_ & _ & Hc & Hp & Hcu & Hpu).
  unfold loadState. intros (m1 & H1 & [= <-])%res_bind_ok.
  assert (Hm0 : in_file (fold_left loadConsumer (ps_Consumers s) m)).
  { clear -Hc Hm. revert m Hm. induction Hc as [|c l Hc _ IH]; intros m Hm; [done|]. by apply IH, loadConsumer_file. }
  assert (Hm1 : in_file m1).
  { revert Hm0 H1. generalize (fold_left loadConsumer (ps_Consumers s) m) as m0. clear -Hp.
    induction Hp as [|p l Hp _ IH]; intros m0 Hm0 H1; cbn [fold_left] in H1; [by injection H1 as <-|].
    destruct (loadProvider (Ok m0) p) as [m2|e] eqn:E; [|by rewrite fold_loadProvider_err in H1].
    apply (IH m2); [by apply (loadProvider_file p m0)|done]. }
  destruct Hm1 as [[] ? ?]. split; [|done..]. texts_fields; apply put_all_texts; done.
Qed.

Lemma addKey_file a keys m : in_file m -> in_file (fold_left (addKey a) keys m).
Proof.
  revert m. induction keys as [|k keys IH]; intros m Hm; [done|]. apply IH. unfold addKey. case_goal; [done|].
  destruct Hm as [Ht ? ?]. split; [|done..]. destruct Ht. texts_fields. apply map_Forall_insert_2; [apply hash_text|done].
Qed.

Lemma put_consumer_file m k c :
  in_file m -> valid_text (cn_ID c) -> valid_text (cn_DisplayName c) -> in_int64 (cn_TotalTokenLimit c) ->
  in_file (m <| m_consumers ::= <[k := c]> |>).
Proof. intros [Ht ? ?] H1 H2 H3. split; [by apply texts_put_consumer|done..]. Qed.

Lemma addConsumer_file c m :
  valid_text (ca_ID c) -> valid_text (ca_DisplayName c) -> in_int64 (ca_TotalTokenLimit c) -> in_file m -> in_file (addConsumer m c).
Proof.
  intros H1 H2 H3 Hm. unfold addConsumer. case_goal; [done|]. cbv zeta. case_goal; [rewrite fold_left_ignore|apply addKey_file]; by apply put_consumer_file.
Qed.

Lemma addProvider_file p m m' :
  valid_text (pa_ID p) -> valid_text (pa_DisplayName p) -> in_file m -> addProvider (Ok m) p = Ok m' -> in_file m'.
Proof.
  intros H1 H2 Hm. unfold addProvider. cbn [res_bind]. case_goal; [by intros [= <-]|].
  intros (mt & Hmt & [= <-])%res_bind_ok. apply privacy_text in Hmt as [Hmode Htiers]. destruct Hm as [Ht ? ?].
  case_goal; (split; [|done..]).
  - destruct Ht. texts_fields; apply map_Forall_insert_2; try done. apply hash_text.
  - by apply texts_put_provider.
Qed.

Lemma New_file cfg legacy d m :
  config_ok cfg -> (forall s, dk_file d = Some (Ok s) -> state_ok s) -> New cfg legacy None d = Ok m -> in_file m.
Proof.
  intros (Hsql & Hpath & Hc & Hp) Hd. unfold New. intros (m0 & H0 & H1)%res_bind_ok. unfold loadStores in H0.
  apply str_eqb_false in Hpath as Hpath'. rewrite Hsql, Hpath' in H0. simpl in H0.
  assert (Hm0 : in_file m0).
  { eapply loadState_file; [exact Hd| |exact H0]. split; [|done..]. texts_fields. }
  assert (Hm1 : in_file (fold_left addConsumer (cc_Consumers cfg) (addLegacyKeys legacy m0))).
  { assert (Hl : in_file (addLegacyKeys legacy m0)).
    { unfold addLegacyKeys. destruct legacy as [|k legacy]; [done|]. cbv zeta. apply put_consumer_file; [by apply addKey_file|done..]. }
    revert Hl. generalize (addLegacyKeys legacy m0) as m1. clear -Hc. induction Hc as [|c l (H1 & H2 & H3) _ IH]; intros m1 Hm1; [done|].
    by apply IH, addConsumer_file. }
  revert Hm1 H1. generalize (fold_left addConsumer (cc_Consumers cfg) (addLegacyKeys legacy m0)) as m1. clear -Hp.
  induction Hp as [|p l (H1 & H2) _ IH]; intros m1 Hm1 Hn; cbn [fold_left] in Hn; [by injection Hn as <-|].
  destruct (addProvider (Ok m1) p) as [m2|e] eqn:E.
  - apply (IH m2); [by apply (addProvider_file p m1)|done].
  - exfalso. clear -Hn. by induction l.
Qed.

(** ** Reachable worlds *)

(** Start, operate and restart on the bytes of the files.  A process that dies while it saves leaves
    what a failure at the same step leaves. *)
Inductive file_reachable : Market * Files -> Prop :=
| fr_start cfg legacy m : config_ok cfg -> New cfg legacy None (disk_of no_files) = Ok m -> file_reachable (m, no_files)
| fr_op w o : file_reachable w -> op_ok o -> file_reachable (run_city o w)
| fr_restart m f cfg legacy m' :
    file_reachable (m, f) -> config_ok cfg -> New cfg legacy None (disk_of f) = Ok m' -> file_reachable (m', f).

Lemma file_reachable_ok w : file_reachable w -> city_reachable (w.1, disk_of w.2) /\ in_file w.1 /\ file_ok w.2.
Proof.
  induction 1 as [cfg legacy m Hcfg Hn|[m f] o _ (Hr & Hm & Hf) Ho|m f cfg legacy m' _ (Hr & Hm & Hf) Hcfg Hn]; cbn [fst snd] in *.
  - split; [by eapply cr_start|]. split; [|by left]. apply (New_file cfg legacy (disk_of no_files)); [done|done|done].
  - destruct (op_refines o m f Hm Hf Ho) as (He & Hm' & Hf'). split; [|done]. rewrite <- He. by apply cr_op.
  - split; [by eapply cr_restart|]. split; [|done]. apply (New_file cfg legacy (disk_of f)); [done| |done]. intros s. by apply file_ok_state.
Qed.

(** C12: the market over the bytes of its state file implements the market
    over an abstract disk: every world that starting, operating and restarting on bytes reaches,
    with a failure at any step of saving, is, seen through the decoder, a world the abstract model
    reaches, its file absent or a well-formed state.  So the invariant of accounts, the promises
    of authentication and the round trip of the store hold of the bytes. *)
Theorem state_file_refines m f :
  file_reachable (m, f) -> city_reachable (m, disk_of f) /\ (f_state f = None \/ exists s, view None f = Some (Ok s)).
Proof.
  intros H. destruct (file_reachable_ok _ H) as (Hr & _ & [Hf|(s & Hf & _)]); [by auto|]. split; [done|]. right. by exists s.
Qed.

(** C13: saving is atomic, and what is saved is read back.  In every world
    reached on bytes, a call that fails at some step, or dies there, leaves the bytes of the state
    file as they were; one that succeeds leaves a file from which a process that starts loads the
    same accounts, limits, secret hashes and usage. *)
Theorem state_file_round_trip cfg now fault m f :
  file_reachable (m, f) -> clock_in_range now = true -> stores_in cfg m ->
  match save_file now fault m f with
  | (Some err, f') => (exists e, fault = Some e /\ err = ErrIO (reason e)) /\ f_state f' = f_state f
  | (None, f') => fault = None /\ exists m', loadStores cfg None (disk_of f') = Ok m' /\ same_accounts m m'
  end.
Proof.
  intros H Hn Hs. destruct (file_reachable_ok _ H) as (Hr & Hm & _). cbn [fst snd] in *. apply city_reachable_ok in Hr as [Hok _].
  destruct (save_file now fault m f) as [err f'] eqn:E. pose proof (save_refines _ _ _ _ _ _ Hm Hn E) as Hp.
  destruct Hm as [Ht Hpath Hdb]. apply str_eqb_false in Hpath. unfold save_file in E. rewrite Hpath in E.
  destruct (state_text_decode _ (snapshot_ok now m Ht Hn)) as (data & Hd & _). rewrite Hd in E. unfold write_file in E.
  destruct fault as [fa|]; [destruct fa; injection E as <- <-; eauto|]. injection E as <- <-. split; [done|].
  destruct (persist_then_load cfg now m _ _ Hok Hs Hp) as (m' & Hl & Hsame & _). eauto.
Qed.
End CityFile.

(** ** A market on a file *)

#[local] Existing Instance utc.

Definition file_start : Market := match New json_city ["legacy"] None blank_disk with Ok m => m | Err _ => emptyMarket json_city end.

(** A consumer is created and uses tokens; one save in between stopped after 12 bytes. *)
Definition file_world : Market * Files :=
  let finished := {| id_FinishReason := "stop"; id_PromptTokens := 4; id_OutputTokens := 7; id_KeyID := ""; id_Signature := "" |} in
  run_city (CoRecord "ana-1" "home" finished 9 None)
    (run_city (CoRecord "ana-1" "home" finished 9 (Some (WrittenUpTo 12 "no space left on device")))
      (run_city (CoCreateConsumer {| ci_ID := "Ana-1"; ci_DisplayName := "Ana"; ci_TotalTokenLimit := 50 |} (Ok [7]) 8 None)
         (file_start, no_files))).

Lemma json_city_ok : config_ok json_city.
Proof.
  split; [done|]. split; [done|]. split; [constructor|]. repeat (apply Forall_cons_2; [done|]). apply Forall_nil_2.
Qed.

Lemma file_world_reachable : file_reachable file_world.
Proof.
  unfold file_world. apply fr_op; [|done]. apply fr_op; [|done]. apply fr_op; [|done]. apply (fr_start json_city ["legacy"]); [apply json_city_ok|].
  unfold file_start. change (disk_of no_files) with blank_disk.
  assert (H : is_ok (New json_city ["legacy"] None blank_disk) = true) by (by vm_compute). by destruct (New _ _ _ _).
Qed.

Lemma state_file_refines_witness :
  city_reachable (fst file_world, disk_of (snd file_world))
  /\ (f_state (snd file_world) = None \/ exists s, view None (snd file_world) = Some (Ok s)).
Proof. apply state_file_refines. rewrite <- (surjective_pairing file_world). exact file_world_reachable. Defined.

Lemma file_world_check :
  m_db (fst file_world) = false /\ m_usageStorePath (fst file_world) = cc_UsageStorePath json_city
  /\ (length <$> f_state (snd file_world) <> None).
Proof. vm_compute. done. Qed.

Lemma state_file_round_trip_witness :
  match save_file 10 (Some (WrittenUpTo 5 "no space left on device")) (fst file_world) (snd file_world) with
  | (Some err, f') => (exists e, Some (WrittenUpTo 5 "no space left on device") = Some e /\ err = ErrIO (reason e))
      /\ f_state f' = f_state (snd file_world)
  | (None, f') => Some (WrittenUpTo 5 "no space left on device") = None
      /\ exists m', loadStores json_city None (disk_of f') = Ok m' /\ same_accounts (fst file_world) m'
  end.
Proof.
  apply (state_file_round_trip json_city).
  - rewrite <- (surjective_pairing file_world). exact file_world_reachable.
  - reflexivity.
  - destruct file_world_check as (H1 & H2 & _). split; [exact H1|]. split; [exact H2|]. right. discriminate.
Defined.
