(* ===== verification/QuotaProofs.v ===== *)
(** * The quota ledger and the privacy policy of providers

    [quota_step] interleaves reservations, releases, recordings and account
    administration; the ledger the market keeps in [reservedUse] is shown to be the
    sum of the reservations still open.  Nothing in the market stops a recording from being larger
    than its reservation, so what is used and held together stays within the limit and the
    [overrun] of the recordings, which the trace counts. *)

From S2P Require Import Prelude GoString GoSort Sha256 Privacy Protocol Config Scheduler City CityProofs.

(** ** Sums over open reservations *)

Fixpoint held_by (a : string) (l : list QuotaReservation) : Z :=
  match l with
  | [] => 0
  | r :: l' => (if decide (qr_accountID r = a) then qr_tokens r else 0) + held_by a l'
  end.

Lemma held_by_app a l1 l2 : held_by a (l1 ++ l2) = held_by a l1 + held_by a l2.
Proof. induction l1 as [|r l IH]; simpl; [done|]. rewrite IH. lia. Qed.

Lemma held_by_nonneg a l : Forall (fun r => 0 < qr_tokens r) l -> 0 <= held_by a l.
Proof. induction 1; simpl; [lia|]. case_decide; lia. Qed.

(** Tokens an account has used. *)
Definition used (m : Market) (a : string) : Z := match m_consumerUse m !! a with Some u => us_TotalTokens u | None => 0 end.

Definition limited (m : Market) (a : string) (limit : Z) : Prop :=
  exists c, m_consumers m !! a = Some c /\ cn_TotalTokenLimit c = limit /\ 0 < limit <= max_int64.

(** A usage record whose counters are small enough to be exact. *)
Definition exact_usage (u : Usage) : Prop :=
  0 <= us_PromptTokens u /\ 0 <= us_CompletionTokens u /\ us_TotalTokens u = us_PromptTokens u + us_CompletionTokens u.

Record QuotaState := { qs_market : Market; qs_disk : Disk; qs_open : list QuotaReservation }.

(** [over] is how far the recordings of each account have gone past their reservations so far. *)
Record quota_ok (over : string -> Z) (s : QuotaState) : Prop := {
  qk_over : forall a, 0 <= over a;
  qk_open : Forall (fun r => 0 < qr_tokens r /\ qr_accountID r <> ""
                             /\ exists limit, limited (qs_market s) (qr_accountID r) limit) (qs_open s);
  qk_ledger : forall a, map_get 0 (m_reservedUse (qs_market s)) a = held_by a (qs_open s);
  qk_limits : forall a c, m_consumers (qs_market s) !! a = Some c -> cn_TotalTokenLimit c <= max_int64;
  qk_usage : forall a limit u, limited (qs_market s) a limit -> m_consumerUse (qs_market s) !! a = Some u -> exact_usage u;
  qk_quota : forall a limit, limited (qs_market s) a limit ->
    used (qs_market s) a + held_by a (qs_open s) <= limit + over a;
  qk_sum : forall a limit, limited (qs_market s) a limit ->
    used (qs_market s) a + held_by a (qs_open s) <= max_int64;
}.

Lemma quota_open_pos over s : quota_ok over s -> Forall (fun r => 0 < qr_tokens r) (qs_open s).
Proof. intros []. eapply Forall_impl; [exact qk_open0|]. by intros r []. Qed.

Lemma used_nonneg over s a limit : quota_ok over s -> limited (qs_market s) a limit -> 0 <= used (qs_market s) a.
Proof.
  intros [] Hl. unfold used. destruct (m_consumerUse (qs_market s) !! a) as [u|] eqn:E; [|lia].
  destruct (qk_usage0 _ _ _ Hl E) as (? & ? & ->). lia.
Qed.

(** ** Steps *)

Inductive quota_label :=
| QReserve (a : string) (est : Z)
| QRelease (r : QuotaReservation)
| QRecord (r : option QuotaReservation) (cid : string) (done : InferDone)
| QAdmin (o : city_op).

Definition charged (done : InferDone) : Z := id_PromptTokens done + id_OutputTokens done.

Definition set_aside (r : option QuotaReservation) : Z := match r with Some r => qr_tokens r | None => 0 end.

(** How far a recording goes past what was reserved for it. *)
Definition record_overrun (a : string) (r : option QuotaReservation) (cid : string) (done : InferDone) : Z :=
  if decide (cid = a) then Z.max 0 (charged done - set_aside r) else 0.

Definition label_overrun (a : string) (l : quota_label) : Z :=
  match l with QRecord r cid done => record_overrun a r cid done | _ => 0 end.

Fixpoint overrun (a : string) (tr : list quota_label) : Z :=
  match tr with [] => 0 | l :: tr => label_overrun a l + overrun a tr end.

Lemma record_overrun_nonneg a r cid done : 0 <= record_overrun a r cid done.
Proof. unfold record_overrun. case_decide; lia. Qed.

Lemma label_overrun_nonneg a l : 0 <= label_overrun a l.
Proof. destruct l; simpl; try lia. apply record_overrun_nonneg. Qed.

Lemma overrun_app a tr1 tr2 : overrun a (tr1 ++ tr2) = overrun a tr1 + overrun a tr2.
Proof. induction tr1 as [|l tr1 IH]; simpl; [done|]. rewrite IH. lia. Qed.

(** The sums of the market stay within 64 bits: a reservation of a limited account adds to what is
    used and held, and a recording replaces what it held. *)
Definition is_limited (m : Market) (a : string) : Prop := exists c, m_consumers m !! a = Some c /\ 0 < cn_TotalTokenLimit c.

Definition estimate_fits (m : Market) (a : string) (est : Z) : Prop :=
  is_limited m a -> used m a + map_get 0 (m_reservedUse m) a + est <= max_int64.

Definition record_fits (m : Market) (r : option QuotaReservation) (cid : string) (done : InferDone) : Prop :=
  is_limited m cid ->
  0 <= id_PromptTokens done /\ 0 <= id_OutputTokens done
  /\ used m cid + map_get 0 (m_reservedUse m) cid - set_aside r + charged done <= max_int64.

Lemma limited_is m a limit : limited m a limit -> is_limited m a.
Proof. intros (c & Hc & <- & ? & _). by exists c. Qed.

(** Administration: accounts created without earlier usage and with a 64-bit limit,
    secrets rotated, accounts disabled. *)
Definition admin_op (m : Market) (o : city_op) : Prop :=
  match o with
  | CoCreateConsumer i _ _ _ =>
      m_consumerUse m !! normalizeAccountID (ci_ID i) = None
      /\ map_get 0 (m_reservedUse m) (normalizeAccountID (ci_ID i)) = 0 /\ ci_TotalTokenLimit i <= max_int64
  | CoCreateProvider _ _ _ _ | CoRotateConsumer _ _ _ _ | CoRotateProvider _ _ _ _
  | CoDisableConsumer _ _ _ | CoDisableProvider _ _ _ => True
  | _ => False
  end.

Inductive quota_step : QuotaState -> quota_label -> QuotaState -> Prop :=
| qs_reserve m d l a est r m' :
    estimate_fits m a est -> a <> "" -> ReserveConsumerQuota a est m = Ok (r, m') ->
    quota_step {| qs_market := m; qs_disk := d; qs_open := l |} (QReserve a est)
               {| qs_market := m'; qs_disk := d; qs_open := option_list r ++ l |}
| qs_release m d l1 r l2 :
    quota_step {| qs_market := m; qs_disk := d; qs_open := l1 ++ r :: l2 |} (QRelease r)
               {| qs_market := ReleaseReservation (Some r) m; qs_disk := d; qs_open := l1 ++ l2 |}
| qs_record m d l1 r l2 pid done now fault e m' d' :
    record_fits m (Some r) (qr_accountID r) done ->
    RecordReserved (Some r) (qr_accountID r) pid done now fault m d = (e, m', d') ->
    quota_step {| qs_market := m; qs_disk := d; qs_open := l1 ++ r :: l2 |} (QRecord (Some r) (qr_accountID r) done)
               {| qs_market := m'; qs_disk := d'; qs_open := l1 ++ l2 |}
| qs_charge m d l cid pid done now fault e m' d' :
    cid <> "" -> record_fits m None cid done ->
    RecordReserved None cid pid done now fault m d = (e, m', d') ->
    quota_step {| qs_market := m; qs_disk := d; qs_open := l |} (QRecord None cid done)
               {| qs_market := m'; qs_disk := d'; qs_open := l |}
| qs_admin m d l o m' d' :
    admin_op m o -> run_city o (m, d) = (m', d') ->
    quota_step {| qs_market := m; qs_disk := d; qs_open := l |} (QAdmin o)
               {| qs_market := m'; qs_disk := d'; qs_open := l |}.

(** ** The decision *)

Lemma limited_lookup m a c :
  m_consumers m !! a = Some c -> cn_TotalTokenLimit c <= max_int64 -> 0 < cn_TotalTokenLimit c ->
  limited m a (cn_TotalTokenLimit c).
Proof. intros. exists c. done. Qed.

(** The check the market makes, without wrap-around. *)
Lemma check_quota_exact over s a c est :
  quota_ok over s -> m_consumers (qs_market s) !! a = Some c -> 0 < cn_TotalTokenLimit c -> 0 <= est ->
  used (qs_market s) a + held_by a (qs_open s) + est <= max_int64 ->
  checkConsumerQuotaLocked (qs_market s) a est
  = (let total := used (qs_market s) a + held_by a (qs_open s) + est in
     if (if est =? 0 then cn_TotalTokenLimit c <=? total else cn_TotalTokenLimit c <? total)
     then Some ErrQuotaExceeded else None).
Proof.
  intros Hok Hc Hpos Hest Hfit. unfold checkConsumerQuotaLocked. rewrite Hc, (qk_ledger _ _ Hok).
  assert (Hl : limited (qs_market s) a (cn_TotalTokenLimit c)) by (apply limited_lookup; [done|by eapply qk_limits|done]).
  pose proof (used_nonneg _ _ _ _ Hok Hl) as Hu.
  pose proof (held_by_nonneg a _ (quota_open_pos _ _ Hok)) as Hh.
  rewrite (proj2 (Z.leb_gt (cn_TotalTokenLimit c) 0)) by lia. unfold used in *.
  rewrite (add64_id _ est) by ilia. destruct (m_consumerUse (qs_market s) !! a) as [u|] eqn:E.
  - rewrite add64_id by ilia. replace (held_by a (qs_open s) + est + us_TotalTokens u)
      with (us_TotalTokens u + held_by a (qs_open s) + est) by lia.
    destruct (est =? 0) eqn:E0; bsimpl; simpl; [subst est; by case_goal|].
    rewrite (proj2 (Z.ltb_lt 0 est)) by lia. simpl. by case_goal.
  - replace (held_by a (qs_open s) + est) with (0 + held_by a (qs_open s) + est) by lia.
    destruct (est =? 0) eqn:E0; bsimpl; simpl; [subst est; by case_goal|].
    rewrite (proj2 (Z.ltb_lt 0 est)) by lia. simpl. by case_goal.
Qed.

(** ** Preservation *)

Lemma map_get_insert (m : gmap string Z) k v a :
  map_get 0 (<[k := v]> m) a = if decide (k = a) then v else map_get 0 m a.
Proof.
  unfold map_get. destruct (decide (k = a)) as [->|]; [by rewrite lookup_insert_eq|by rewrite lookup_insert_ne].
Qed.

Lemma map_get_delete (m : gmap string Z) k a :
  map_get 0 (delete k m) a = if decide (k = a) then 0 else map_get 0 m a.
Proof.
  unfold map_get. destruct (decide (k = a)) as [->|]; [by rewrite lookup_delete_eq|by rewrite lookup_delete_ne].
Qed.

(** Everything but the ledger and the open reservations stays. *)
Lemma quota_ok_ledger over m d l m' d' l' :
  quota_ok over {| qs_market := m; qs_disk := d; qs_open := l |} ->
  m_consumers m' = m_consumers m -> m_consumerUse m' = m_consumerUse m ->
  (forall a, map_get 0 (m_reservedUse m') a = held_by a l') ->
  Forall (fun r => 0 < qr_tokens r /\ qr_accountID r <> "" /\ exists limit, limited m (qr_accountID r) limit) l' ->
  (forall a limit, limited m a limit ->
     used m a + held_by a l' <= limit + over a /\ used m a + held_by a l' <= max_int64) ->
  quota_ok over {| qs_market := m'; qs_disk := d'; qs_open := l' |}.
Proof.
  intros [] Hc Hu Hl Hop Hq. unfold limited, used in *.
  constructor; simpl in *; unfold limited, used; rewrite ?Hc, ?Hu; eauto; intros; by eapply Hq.
Qed.

(** A reservation is granted only if it fits under the limit. *)
Lemma quota_reserve_ok over m d l a est r m' :
  quota_ok over {| qs_market := m; qs_disk := d; qs_open := l |} ->
  estimate_fits m a est -> a <> "" -> ReserveConsumerQuota a est m = Ok (r, m') ->
  quota_ok over {| qs_market := m'; qs_disk := d; qs_open := option_list r ++ l |}
  /\ forall q limit, r = Some q -> limited m a limit -> used m a + held_by a l + est <= limit.
Proof.
  intros Hok Hfit Hne H. pose proof Hok as Hok'. destruct Hok as [_ Hop Hled Hlim Hus Hq _]. simpl in *.
  revert H. unfold ReserveConsumerQuota. case_goal.
  { destruct (checkConsumerQuotaLocked m a 0); [done|]. by intros [= <- <-]. }
  bsimpl. destruct (checkConsumerQuotaLocked m a est) eqn:Ec; [done|].
  case_goal; [by intros [= <- <-]|]. destruct (m_consumers m !! a) as [c|] eqn:Ea; [|by intros [= <- <-]].
  case_goal; [by intros [= <- <-]|]. bsimpl. intros [= <- <-]. simpl.
  pose proof (Hfit ltac:(exists c; split; [done|lia])) as Hf. rewrite Hled in Hf.
  rewrite (check_quota_exact _ _ _ _ _ Hok' Ea) in Ec by (simpl; lia). simpl in Ec.
  rewrite (proj2 (Z.eqb_neq est 0)) in Ec by lia. case_hyp Ec; [done|]. bsimpl.
  assert (Hl : limited m a (cn_TotalTokenLimit c)) by (apply limited_lookup; [done|by eapply Hlim|lia]).
  pose proof (used_nonneg _ _ _ _ Hok' Hl) as Hu. simpl in Hu.
  pose proof (held_by_nonneg a _ (quota_open_pos _ _ Hok')) as Hh. simpl in Hh. specialize (Hlim _ _ Ea).
  assert (Hsame : forall limit, limited m a limit -> limit = cn_TotalTokenLimit c).
  { intros limit (c' & Hc' & <- & _). rewrite Ea in Hc'. by injection Hc' as <-. }
  split; [|intros q limit _ ->%Hsame; lia].
  eapply quota_ok_ledger; [exact Hok'|done|done|..]; simpl.
  - intros b. rewrite map_get_insert, !Hled. case_decide; [|lia]. subst b. rewrite add64_id by ilia. lia.
  - constructor; [|done]. simpl. split_and!; [lia|done|eauto].
  - intros b limit Hb. pose proof (Hq _ _ Hb). pose proof (qk_sum _ _ Hok' _ _ Hb) as Hs. simpl in *. case_decide; [|lia].
    subst b. rewrite (Hsame _ Hb) in *. pose proof (qk_over _ _ Hok' a). lia.
Qed.

Lemma release_fields r m :
  m_consumers (releaseReservationLocked r m) = m_consumers m
  /\ m_consumerUse (releaseReservationLocked r m) = m_consumerUse m
  /\ m_providers (releaseReservationLocked r m) = m_providers m.
Proof. unfold releaseReservationLocked. repeat case_goal; done. Qed.

Lemma release_ledger m r l1 l2 :
  Forall (fun r => 0 < qr_tokens r) (l1 ++ r :: l2) ->
  held_by (qr_accountID r) (l1 ++ r :: l2) <= max_int64 ->
  (forall a, map_get 0 (m_reservedUse m) a = held_by a (l1 ++ r :: l2)) ->
  forall a, map_get 0 (m_reservedUse (releaseReservationLocked (Some r) m)) a = held_by a (l1 ++ l2).
Proof.
  intros Hpos Hle Hled a. unfold releaseReservationLocked.
  assert (Hr : 0 < qr_tokens r) by (rewrite Forall_app, Forall_cons in Hpos; naive_solver).
  rewrite (proj2 (Z.leb_gt _ 0)) by done. rewrite Hled.
  assert (Hsum : forall b, held_by b (l1 ++ r :: l2)
    = (if decide (qr_accountID r = b) then qr_tokens r else 0) + held_by b (l1 ++ l2)).
  { intros b. rewrite !held_by_app. simpl. lia. }
  assert (Hrest : forall b, 0 <= held_by b (l1 ++ l2)).
  { intros b. apply held_by_nonneg. rewrite Forall_app, Forall_cons in Hpos. apply Forall_app. naive_solver. }
  pose proof (Hrest (qr_accountID r)) as Hnn. pose proof (Hsum (qr_accountID r)) as Hs.
  rewrite decide_True in Hs by done.
  case_goal; bsimpl; simpl; rewrite ?map_get_delete, ?map_get_insert, ?Hled, ?Hsum; case_decide; try subst a.
  - lia.
  - lia.
  - rewrite decide_True by done. rewrite sub64_id by ilia. lia.
  - lia.
Qed.

Lemma ReleaseReservation_pos r m : 0 < qr_tokens r -> ReleaseReservation (Some r) m = releaseReservationLocked (Some r) m.
Proof. intros H. unfold ReleaseReservation. destruct (qr_tokens r <=? 0) eqn:E; [bsimpl; lia|done]. Qed.

(** What closing one reservation leaves. *)
Lemma quota_close_ok over m d d' l1 r l2 :
  quota_ok over {| qs_market := m; qs_disk := d; qs_open := l1 ++ r :: l2 |} ->
  quota_ok over {| qs_market := releaseReservationLocked (Some r) m; qs_disk := d'; qs_open := l1 ++ l2 |}
  /\ 0 < qr_tokens r /\ (exists limit, limited m (qr_accountID r) limit) /\ qr_accountID r <> ""
  /\ forall a, held_by a (l1 ++ r :: l2) = (if decide (qr_accountID r = a) then qr_tokens r else 0) + held_by a (l1 ++ l2).
Proof.
  intros Hok. pose proof (quota_open_pos _ _ Hok) as Hpos. pose proof (qk_open _ _ Hok) as Hop. simpl in *.
  assert (Hsum : forall b, held_by b (l1 ++ r :: l2)
    = (if decide (qr_accountID r = b) then qr_tokens r else 0) + held_by b (l1 ++ l2)).
  { intros b. rewrite !held_by_app. simpl. lia. }
  assert (Hr : 0 < qr_tokens r /\ qr_accountID r <> "" /\ exists limit, limited m (qr_accountID r) limit)
    by (rewrite Forall_app, Forall_cons in Hop; naive_solver).
  destruct Hr as (Hr1 & Hr2 & Hr3). split; [|done].
  destruct (release_fields (Some r) m) as (Hc & Hu & _).
  eapply quota_ok_ledger; [exact Hok|done|done|..].
  - apply release_ledger; [done| |apply (qk_ledger _ _ Hok)].
    destruct Hr3 as [limit Hl]. pose proof (qk_sum _ _ Hok _ _ Hl). pose proof (used_nonneg _ _ _ _ Hok Hl). simpl in *. lia.
  - rewrite Forall_app, Forall_cons in Hop. apply Forall_app. naive_solver.
  - intros a limit Hl. pose proof (qk_quota _ _ Hok _ _ Hl) as Hq. pose proof (qk_sum _ _ Hok _ _ Hl) as Hs. simpl in Hq, Hs.
    rewrite Hsum in Hq, Hs. case_decide; lia.
Qed.

Lemma addUsage_lookup a done now b k :
  a <> "" ->
  addUsage a done now b !! k
  = if decide (k = a) then
      let u := default (empty_Usage a) (b !! a) in
      Some {| us_AccountID := us_AccountID u; us_Requests := us_Requests u +w 1;
              us_PromptTokens := us_PromptTokens u +w id_PromptTokens done;
              us_CompletionTokens := us_CompletionTokens u +w id_OutputTokens done;
              us_TotalTokens := us_PromptTokens u +w id_PromptTokens done +w (us_CompletionTokens u +w id_OutputTokens done);
              us_UpdatedAt := now |}
    else b !! k.
Proof.
  intros Ha. unfold addUsage. rewrite (proj2 (str_eqb_false a "")) by done.
  destruct (decide (k = a)) as [->|]; [by rewrite lookup_insert_eq|by rewrite lookup_insert_ne].
Qed.

Lemma RecordReserved_fields r cid pid done now fault m d e m' d' :
  RecordReserved r cid pid done now fault m d = (e, m', d') ->
  m_consumers m' = m_consumers m /\ m_reservedUse m' = m_reservedUse (releaseReservationLocked r m)
  /\ m_consumerUse m' = addUsage cid done now (m_consumerUse m).
Proof.
  unfold RecordReserved. destruct (persist _ _ _ _) as [e0 d0]. intros [= <- <- <-].
  destruct (release_fields r m) as (Hc & Hu & _). case_goal; simpl; by rewrite ?Hc, ?Hu.
Qed.

(** The usage a recording of a limited account leaves, without wrap-around. *)
Lemma record_usage_exact over m d l r cid limit pid done now fault e m' d' :
  quota_ok over {| qs_market := m; qs_disk := d; qs_open := l |} -> cid <> "" -> limited m cid limit ->
  0 <= id_PromptTokens done -> 0 <= id_OutputTokens done -> used m cid + charged done <= max_int64 ->
  RecordReserved r cid pid done now fault m d = (e, m', d') ->
  (forall u, m_consumerUse m' !! cid = Some u -> exact_usage u) /\ used m' cid = used m cid + charged done.
Proof.
  intros Hok Hne Hl Hp Ho Hsum (Hc & Hr & Hu)%RecordReserved_fields. unfold charged in *.
  set (u := default (empty_Usage cid) (m_consumerUse m !! cid)).
  assert (Hexact : exact_usage u /\ us_TotalTokens u = used m cid).
  { unfold u, used. destruct (m_consumerUse m !! cid) as [u0|] eqn:E; simpl.
    - split; [|reflexivity]. eapply (qk_usage _ _ Hok); simpl; eassumption.
    - split; [|reflexivity]. unfold exact_usage; simpl. lia. }
  destruct Hexact as ((H1 & H2 & H3) & H4).
  assert (Hat : m_consumerUse m' !! cid = Some {| us_AccountID := us_AccountID u; us_Requests := us_Requests u +w 1;
           us_PromptTokens := us_PromptTokens u + id_PromptTokens done;
           us_CompletionTokens := us_CompletionTokens u + id_OutputTokens done;
           us_TotalTokens := us_PromptTokens u + id_PromptTokens done + (us_CompletionTokens u + id_OutputTokens done);
           us_UpdatedAt := now |}).
  { rewrite Hu, addUsage_lookup, decide_True by (exact Hne || reflexivity). fold u. cbn zeta.
    rewrite (add64_id (us_PromptTokens u)), (add64_id (us_CompletionTokens u)) by ilia.
    rewrite (add64_id (us_PromptTokens u + id_PromptTokens done)) by ilia. reflexivity. }
  unfold used at 1. rewrite Hat. split; [|simpl; lia]. intros v [= <-]. unfold exact_usage; simpl. lia.
Qed.

Lemma record_usage_other r cid pid done now fault m d e m' d' a :
  cid <> "" -> RecordReserved r cid pid done now fault m d = (e, m', d') -> a <> cid -> m_consumerUse m' !! a = m_consumerUse m !! a.
Proof. intros Hne (_ & _ & Hu)%RecordReserved_fields Ha. by rewrite Hu, addUsage_lookup, decide_False. Qed.

(** A recording, once what it had reserved is released: it adds to [over] what goes past that. *)
Lemma quota_record_ok over m d l r cid pid done now fault e m' d' l' :
  quota_ok over {| qs_market := m; qs_disk := d; qs_open := l |} -> cid <> "" ->
  quota_ok over {| qs_market := releaseReservationLocked r m; qs_disk := d'; qs_open := l' |} ->
  (forall a, held_by a l = (if decide (cid = a) then set_aside r else 0) + held_by a l') ->
  record_fits m r cid done -> RecordReserved r cid pid done now fault m d = (e, m', d') ->
  quota_ok (fun a => over a + record_overrun a r cid done) {| qs_market := m'; qs_disk := d'; qs_open := l' |}
  /\ forall a limit, limited m a limit -> used m' a = used m a + (if decide (cid = a) then charged done else 0).
Proof.
  intros Hok Hne Hcl Hheld Hfit Hrec.
  destruct (RecordReserved_fields _ _ _ _ _ _ _ _ _ _ _ Hrec) as (Hc & Hr & _).
  destruct (release_fields r m) as (Hc' & Hu' & _).
  assert (Heq : forall a lim, limited m' a lim <-> limited m a lim) by (intros; unfold limited; by rewrite Hc).
  assert (Hnn : forall a, 0 <= held_by a l') by (intros a; apply held_by_nonneg, (quota_open_pos _ _ Hcl)).
  assert (Hcid : forall lim, limited m cid lim ->
    ((forall u, m_consumerUse m' !! cid = Some u -> exact_usage u) /\ used m' cid = used m cid + charged done)
    /\ 0 <= charged done /\ used m cid + held_by cid l' + charged done <= max_int64).
  { intros lim Hl. destruct (Hfit (limited_is _ _ _ Hl)) as (H1 & H2 & H3). pose proof (qk_ledger _ _ Hok cid) as Hg. simpl in Hg.
    rewrite Hg, Hheld, decide_True in H3 by reflexivity. specialize (Hnn cid). unfold charged in *.
    split; [|lia]. eapply record_usage_exact; try eassumption. unfold charged. lia. }
  assert (Hused : forall a lim, limited m a lim -> used m' a = used m a + (if decide (cid = a) then charged done else 0)).
  { intros a lim Hl. case_decide as Hd; [subst a; by apply (Hcid _ Hl)|]. unfold used.
    rewrite (record_usage_other _ _ _ _ _ _ _ _ _ _ _ a Hne Hrec) by congruence. lia. }
  split; [|exact Hused]. destruct Hcl as [K0 K1 K2 K3 K4 K5 K6]. simpl in *. unfold limited, used in K1, K4, K5, K6.
  rewrite Hc' in K1, K3, K4, K5, K6. rewrite Hu' in K4, K5, K6. constructor; simpl.
  - intros a. pose proof (record_overrun_nonneg a r cid done). specialize (K0 a). lia.
  - eapply Forall_impl; [exact K1|]. intros x (? & ? & ?). unfold limited. by rewrite Hc.
  - by rewrite Hr.
  - by rewrite Hc.
  - intros a lim v Ha%Heq Hv. destruct (decide (a = cid)) as [->|Hd]; [by apply (Hcid _ Ha)|].
    rewrite (record_usage_other _ _ _ _ _ _ _ _ _ _ _ a Hne Hrec Hd) in Hv. by eapply K4.
  - intros a lim Ha%Heq. rewrite (Hused _ _ Ha). unfold record_overrun. case_decide as Hd; [|specialize (K5 _ _ Ha); unfold used; lia].
    subst a. pose proof (qk_quota _ _ Hok _ _ Ha) as Hq. simpl in Hq. rewrite Hheld, decide_True in Hq by reflexivity. lia.
  - intros a lim Ha%Heq. rewrite (Hused _ _ Ha). case_decide as Hd; [|specialize (K6 _ _ Ha); unfold used; lia].
    subst a. destruct (Hcid _ Ha) as (_ & _ & H3). lia.
Qed.

Lemma quota_settle_ok over m d l1 r l2 pid done now fault e m' d' :
  quota_ok over {| qs_market := m; qs_disk := d; qs_open := l1 ++ r :: l2 |} ->
  record_fits m (Some r) (qr_accountID r) done ->
  RecordReserved (Some r) (qr_accountID r) pid done now fault m d = (e, m', d') ->
  quota_ok (fun a => over a + record_overrun a (Some r) (qr_accountID r) done) {| qs_market := m'; qs_disk := d'; qs_open := l1 ++ l2 |}
  /\ forall a limit, limited m a limit -> used m' a = used m a + (if decide (qr_accountID r = a) then charged done else 0).
Proof.
  intros Hok Hfit Hrec. destruct (quota_close_ok _ _ _ d' _ _ _ Hok) as (Hok' & _ & _ & Hne & Hheld).
  by eapply quota_record_ok.
Qed.

Lemma quota_charge_ok over m d l cid pid done now fault e m' d' :
  quota_ok over {| qs_market := m; qs_disk := d; qs_open := l |} -> cid <> "" -> record_fits m None cid done ->
  RecordReserved None cid pid done now fault m d = (e, m', d') ->
  quota_ok (fun a => over a + record_overrun a None cid done) {| qs_market := m'; qs_disk := d'; qs_open := l |}
  /\ forall a limit, limited m a limit -> used m' a = used m a + (if decide (cid = a) then charged done else 0).
Proof.
  intros Hok Hne Hfit Hrec. apply (quota_record_ok over m d l None cid pid done now fault e m' d' l); try done.
  - destruct Hok. by constructor.
  - intros a. simpl. case_decide; lia.
Qed.

(** Administration leaves ledger and usage alone, and every limit it does not create. *)
Lemma admin_fields m d o m' d' :
  admin_op m o -> run_city o (m, d) = (m', d') ->
  m_reservedUse m' = m_reservedUse m /\ m_consumerUse m' = m_consumerUse m
  /\ (forall a c', m_consumers m' !! a = Some c' ->
        (exists c, m_consumers m !! a = Some c /\ cn_TotalTokenLimit c = cn_TotalTokenLimit c')
        \/ (m_consumerUse m !! a = None /\ map_get 0 (m_reservedUse m) a = 0 /\ cn_TotalTokenLimit c' <= max_int64))
  /\ (forall a c, m_consumers m !! a = Some c ->
        exists c', m_consumers m' !! a = Some c' /\ cn_TotalTokenLimit c' = cn_TotalTokenLimit c).
Proof.
  intros Ha. destruct o; simpl in *; try done.
  - unfold CreateConsumer. case_goal; [intros [= <- <-]; naive_solver|].
    destruct (randomSecret _ _); [|intros [= <- <-]; naive_solver].
    destruct (m_consumers m !! _) eqn:E0; [intros [= <- <-]; naive_solver|].
    destruct (persist _ _ _ _) as [[e|] d0]; intros [= <- <-]; simpl.
    + rewrite delete_insert_id by done. naive_solver.
    + split_and!; [done|done|..]; intros b c'.
      * rewrite lookup_insert_Some. intros [[<- <-]|[_ Hb]]; [by right|left; eauto].
      * intros Hb. exists c'. rewrite lookup_insert_ne by congruence. done.
  - unfold CreateProvider. repeat case_goal; intros [= <- <-]; naive_solver.
  - unfold RotateConsumerKey. repeat case_goal; intros [= <- <-]; naive_solver.
  - unfold RotateProviderToken. repeat case_goal; intros [= <- <-]; naive_solver.
  - unfold DisableConsumer. case_goal; [intros [= <- <-]; naive_solver|].
    destruct (m_consumers m !! _) as [c|] eqn:E0; [|intros [= <- <-]; naive_solver].
    destruct (persist _ _ _ _) as [[e|] d0]; intros [= <- <-]; simpl.
    all: split_and!; [done|done|..]; intros b c'.
    all: try (rewrite lookup_insert_Some; intros [[<- <-]|[_ Hb]]; left; eauto).
    all: intros Hb; destruct (decide (normalizeAccountID id = b)) as [<-|];
      [rewrite lookup_insert_eq; eexists; split; [done|]; simpl; congruence|rewrite lookup_insert_ne by done; eauto].
  - unfold DisableProvider. repeat case_goal; intros [= <- <-]; naive_solver.
Qed.

Lemma quota_admin_ok over m d l o m' d' :
  quota_ok over {| qs_market := m; qs_disk := d; qs_open := l |} -> admin_op m o -> run_city o (m, d) = (m', d') ->
  quota_ok over {| qs_market := m'; qs_disk := d'; qs_open := l |}.
Proof.
  intros Hok Ha Hrun. destruct (admin_fields _ _ _ _ _ Ha Hrun) as (Hr & Hu & Hnew & Hold).
  pose proof Hok as [K0 K1 K2 K3 K4 K5 K6]. simpl in *.
  assert (Hback : forall a lim, limited m' a lim ->
    limited m a lim \/ (m_consumerUse m !! a = None /\ map_get 0 (m_reservedUse m) a = 0)).
  { intros a lim (c' & Hc' & <- & Hpos). destruct (Hnew _ _ Hc') as [(c & Hc & Heq)|(? & ? & _)]; [|by right].
    left. exists c. rewrite Heq. done. }
  assert (Hfwd : forall a lim, limited m a lim -> limited m' a lim).
  { intros a lim (c & Hc & <- & Hpos). destruct (Hold _ _ Hc) as (c' & Hc' & Heq). exists c'. rewrite Heq. done. }
  assert (Hnone : forall a lim, limited m' a lim -> m_consumerUse m !! a = None -> map_get 0 (m_reservedUse m) a = 0 ->
    used m' a = 0 /\ held_by a l = 0 /\ 0 < lim <= max_int64).
  { intros a lim (_ & _ & _ & Hpos) Hn Hz. unfold used. by rewrite Hu, Hn, <- K2, Hz. }
  assert (Hsame : forall a, used m' a = used m a) by (intros a; unfold used; by rewrite Hu).
  constructor; simpl; rewrite ?Hr; [done|..].
  - eapply Forall_impl; [exact K1|]. intros r (? & ? & lim & ?). eauto.
  - done.
  - intros a c' Hc'. destruct (Hnew _ _ Hc') as [(c & Hc & <-)|(_ & _ & ?)]; [by eapply K3|done].
  - intros a lim u Hl. rewrite Hu. destruct (Hback _ _ Hl) as [Hl'|[Hn _]]; [by eapply K4|congruence].
  - intros a lim Hl. destruct (Hback _ _ Hl) as [Hl'|[Hn Hz]]; [rewrite Hsame; by apply K5|].
    destruct (Hnone _ _ Hl Hn Hz) as (-> & -> & ?). specialize (K0 a). lia.
  - intros a lim Hl. destruct (Hback _ _ Hl) as [Hl'|[Hn Hz]]; [rewrite Hsame; by eapply K6|].
    destruct (Hnone _ _ Hl Hn Hz) as (-> & -> & ?). unfold max_int64. lia.
Qed.

Lemma quota_ok_over over over' s : (forall a, over a = over' a) -> quota_ok over s -> quota_ok over' s.
Proof. intros He []. constructor; intros; rewrite <- ?He; eauto. Qed.

Lemma quota_step_ok over s l s' : quota_ok over s -> quota_step s l s' -> quota_ok (fun a => over a + label_overrun a l) s'.
Proof.
  intros Hok Hs. destruct Hs; cbn [label_overrun].
  - eapply quota_ok_over; [|by eapply quota_reserve_ok]. intros b. simpl. lia.
  - destruct (quota_close_ok _ _ _ d _ _ _ Hok) as (Hok' & Hpos & _).
    rewrite ReleaseReservation_pos by exact Hpos. eapply quota_ok_over; [|exact Hok']. intros b. simpl. lia.
  - by eapply quota_settle_ok.
  - by eapply quota_charge_ok.
  - eapply quota_ok_over; [|by eapply quota_admin_ok]. intros b. simpl. lia.
Qed.

(** Where the ledger starts: no reservation, and every limited account within its limit, but for [over]. *)
Definition quota_begin (over : string -> Z) (s : QuotaState) : Prop :=
  qs_open s = [] /\ m_reservedUse (qs_market s) = ∅ /\ (forall a, 0 <= over a)
  /\ (forall a c, m_consumers (qs_market s) !! a = Some c -> cn_TotalTokenLimit c <= max_int64)
  /\ forall a limit, limited (qs_market s) a limit ->
       used (qs_market s) a <= limit + over a /\ used (qs_market s) a <= max_int64
       /\ forall u, m_consumerUse (qs_market s) !! a = Some u -> exact_usage u.

Lemma quota_begin_ok over s : quota_begin over s -> quota_ok over s.
Proof.
  intros (Ho & Hr & Hover & Hlim & Hs). constructor; [done|..].
  - rewrite Ho. constructor.
  - intros a. rewrite Ho, Hr. unfold map_get. by rewrite lookup_empty.
  - done.
  - intros a limit u Hl Hu. by apply (Hs _ _ Hl).
  - intros a limit Hl. rewrite Ho. simpl. destruct (Hs _ _ Hl). lia.
  - intros a limit Hl. rewrite Ho. simpl. destruct (Hs _ _ Hl) as (_ & ? & _). lia.
Qed.

Definition quota_start (s : QuotaState) : Prop :=
  qs_open s = [] /\ m_reservedUse (qs_market s) = ∅
  /\ (forall a c, m_consumers (qs_market s) !! a = Some c -> cn_TotalTokenLimit c <= max_int64)
  /\ forall a limit, limited (qs_market s) a limit ->
       used (qs_market s) a <= limit /\ forall u, m_consumerUse (qs_market s) !! a = Some u -> exact_usage u.

Lemma quota_start_ok s : quota_start s -> quota_ok (fun _ => 0) s.
Proof.
  intros (Ho & Hr & Hlim & Hs). apply quota_begin_ok. split; [done|]. split; [done|]. split; [done|]. split; [done|].
  intros a limit Hl. destruct (Hs _ _ Hl). destruct Hl as (_ & _ & _ & _ & ?). split_and!; [lia..|done].
Qed.

Lemma quota_steps_ok s0 tr s : quota_start s0 -> steps quota_step s0 tr s -> quota_ok (fun a => overrun a tr) s.
Proof.
  intros H0 Hs. induction Hs as [s0|s0 tr s1 l s2 _ IH Hstep]; [by apply quota_start_ok|].
  eapply quota_ok_over; [|by eapply quota_step_ok; [apply IH|]]. intros a. rewrite overrun_app. simpl. lia.
Qed.

(** C4: in every interleaving of reservations, releases, recordings of any size,
    with or without a reservation, and account administration, the reserved tokens of an account are
    the sum of its open reservations, and what a limited account has used and reserved together is
    at most its limit and the total by which recordings went past their reservations ([overrun]);
    so it stays within the limit as long as no recording is larger than its reservation, which the
    market does not check.  Assumed of the steps ([quota_step]): the 64-bit sums of a limited account do not
    wrap ([estimate_fits], [record_fits]; [quota_estimate_wraps] shows what happens otherwise), recorded
    counts are not negative, and an account is created with a 64-bit limit under a name that nothing was
    charged to or reserved for. *)
Theorem quota_never_exceeded s0 tr s a limit :
  quota_start s0 -> steps quota_step s0 tr s ->
  map_get 0 (m_reservedUse (qs_market s)) a = held_by a (qs_open s)
  /\ (limited (qs_market s) a limit ->
      0 <= used (qs_market s) a
      /\ used (qs_market s) a + map_get 0 (m_reservedUse (qs_market s)) a <= limit + overrun a tr
      /\ ((forall r cid done, QRecord r cid done ∈ tr -> cid = a -> charged done <= set_aside r) ->
          used (qs_market s) a + map_get 0 (m_reservedUse (qs_market s)) a <= limit)).
Proof.
  intros Hs Ht. pose proof (quota_steps_ok _ _ _ Hs Ht) as Hok.
  split; [apply (qk_ledger _ _ Hok)|]. intros Hl. split; [by eapply used_nonneg|].
  rewrite (qk_ledger _ _ Hok). pose proof (qk_quota _ _ Hok _ _ Hl) as Hq. cbv beta in Hq. split; [done|].
  intros Hkept. assert (Hz : overrun a tr <= 0); [|lia]. clear -Hkept. induction tr as [|l tr IH]; simpl; [lia|].
  assert (label_overrun a l <= 0); [|assert (overrun a tr <= 0); [apply IH; intros; eapply Hkept; [by right|done]|lia]].
  destruct l as [| |r cid done|]; simpl; try lia. unfold record_overrun. case_decide as Hd; [|lia].
  pose proof (Hkept r cid done ltac:(left) Hd). lia.
Qed.

(** C30: in every state such steps lead to, a reservation for an account
    without a limit is granted and reserves nothing.  For a limited account, if its sum of used,
    reserved and estimated tokens stays within 64 bits: a positive estimate is granted exactly when it is at
    most the remaining tokens [ConsumerStatus] reports, and refused with ErrQuotaExceeded
    otherwise; an estimate that is not positive reserves nothing, and is refused exactly when no token
    remains.  (A client whose max_tokens is near 2^63 can make the sum wrap, and is granted what
    does not fit: [quota_estimate_wraps].) *)
Theorem quota_decision_exact s0 tr s a c est :
  quota_start s0 -> steps quota_step s0 tr s ->
  m_consumers (qs_market s) !! a = Some c -> cn_ID c = a -> a <> "" ->
  let m := qs_market s in
  let remaining := cs_RemainingTokens (ConsumerStatus_ m a) in
  (cn_TotalTokenLimit c <= 0 -> ReserveConsumerQuota a est m = Ok (None, m))
  /\ (0 < cn_TotalTokenLimit c -> used m a + map_get 0 (m_reservedUse m) a + est <= max_int64 ->
      match ReserveConsumerQuota a est m with
      | Ok (Some r, _) => 0 < est /\ r = {| qr_accountID := a; qr_tokens := est |} /\ est <= remaining
      | Ok (None, m') => est <= 0 /\ m' = m /\ 0 < remaining
      | Err e => e = ErrQuotaExceeded /\ remaining < Z.max 1 est
      end).
Proof.
  intros Hs Ht Hc Hid Hne m remaining. pose proof (quota_steps_ok _ _ _ Hs Ht) as Hok. subst m.
  split.
  { intros Hpos. unfold ReserveConsumerQuota, checkConsumerQuotaLocked. rewrite Hc, (proj2 (Z.leb_le _ 0)) by done. by repeat case_goal. }
  intros Hpos Hfit. rewrite (qk_ledger _ _ Hok) in Hfit.
  assert (Hl : limited (qs_market s) a (cn_TotalTokenLimit c)) by (apply limited_lookup; [done|by eapply qk_limits|done]).
  pose proof (qk_sum _ _ Hok _ _ Hl) as Hq. pose proof (used_nonneg _ _ _ _ Hok Hl) as Hu.
  pose proof (held_by_nonneg a _ (quota_open_pos _ _ Hok)) as Hh. pose proof (qk_limits _ _ Hok _ _ Hc) as Hlim.
  assert (Hrem : remaining = Z.max 0 (cn_TotalTokenLimit c - used (qs_market s) a - held_by a (qs_open s))).
  { assert (Hget : map_get empty_Consumer (m_consumers (qs_market s)) a = c) by (unfold map_get; by rewrite Hc).
    unfold remaining, ConsumerStatus_. rewrite Hget, Hid, (proj2 (str_eqb_false a "")) by done.
    rewrite (proj2 (Z.ltb_lt 0 _)), (qk_ledger _ _ Hok) by lia. cbn [cs_RemainingTokens].
    replace (us_TotalTokens (default (empty_Usage a) (m_consumerUse (qs_market s) !! a)))
      with (used (qs_market s) a) by (unfold used; by destruct (m_consumerUse (qs_market s) !! a)).
    rewrite (sub64_id (cn_TotalTokenLimit c)), sub64_id by ilia. case_goal; bsimpl; lia. }
  rewrite Hrem. unfold ReserveConsumerQuota. cbv zeta.
  rewrite (check_quota_exact _ _ _ _ _ Hok Hc) by (first [done|case_goal; bsimpl; lia]). cbn zeta.
  destruct (est <? 0) eqn:E0; [rewrite Z.eqb_refl; case_goal; bsimpl; (split_and!; first [done|lia])|].
  destruct (est =? 0) eqn:E1; bsimpl; [subst est; case_goal; bsimpl; (split_and!; first [done|lia])|].
  case_goal; bsimpl; [split; [done|lia]|]. rewrite Hc, (proj2 (Z.leb_gt _ 0)) by lia. split_and!; [lia|done|lia].
Qed.

(** ** Witnesses *)

Definition demo_quota : QuotaState := {| qs_market := demo_market; qs_disk := blank_disk; qs_open := [] |}.

Definition demo_ticket : QuotaReservation := {| qr_accountID := "studio"; qr_tokens := 30 |}.

Definition demo_reserved : Market :=
  match ReserveConsumerQuota "studio" 30 demo_market with Ok (_, m) => m | Err _ => demo_market end.

Definition demo_done : InferDone :=
  {| id_FinishReason := "stop"; id_PromptTokens := 12; id_OutputTokens := 10; id_KeyID := ""; id_Signature := "" |}.

Definition demo_recorded : option CityError * Market * Disk :=
  RecordReserved (Some demo_ticket) "studio" "home" demo_done 7 None demo_reserved blank_disk.

Definition demo_quota_end : QuotaState :=
  {| qs_market := snd (fst demo_recorded); qs_disk := snd demo_recorded; qs_open := [] |}.

Lemma demo_reserve_eq : ReserveConsumerQuota "studio" 30 demo_market = Ok (Some demo_ticket, demo_reserved).
Proof. vm_compute. reflexivity. Qed.

Lemma demo_limits : map_Forall (fun _ c => cn_TotalTokenLimit c <= max_int64) (m_consumers demo_market).
Proof. apply (bool_decide_unpack _). by vm_compute. Qed.

Lemma demo_quota_start : quota_start demo_quota.
Proof.
  split; [done|]. split; [by vm_compute|]. split; [apply demo_limits|].
  assert (Hu : m_consumerUse demo_market = ∅) by (by vm_compute).
  intros a limit (_ & _ & _ & Hpos & _). unfold used. simpl. rewrite Hu, lookup_empty. split; [lia|done].
Qed.

Lemma demo_quota_steps : steps quota_step demo_quota ([] ++ [QReserve "studio" 30] ++ [QRecord (Some demo_ticket) "studio" demo_done]) demo_quota_end.
Proof.
  rewrite app_assoc. eapply steps_snoc; [eapply steps_snoc; [apply steps_nil|]|].
  - apply (qs_reserve _ _ _ _ _ (Some demo_ticket) demo_reserved); [|done|apply demo_reserve_eq].
    intros _. by vm_compute.
  - unfold demo_quota_end. apply (qs_record _ _ [] demo_ticket [] "home" demo_done 7 None (fst (fst demo_recorded))).
    + intros _. by vm_compute.
    + change (RecordReserved _ _ _ _ _ _ _ _) with demo_recorded. by destruct demo_recorded as [[]].
Qed.

Lemma quota_never_exceeded_witness :
  limited (qs_market demo_quota_end) "studio" 100 /\ used (qs_market demo_quota_end) "studio" = 22
  /\ used (qs_market demo_quota_end) "studio" + map_get 0 (m_reservedUse (qs_market demo_quota_end)) "studio" <= 100.
Proof.
  destruct (quota_never_exceeded demo_quota _ demo_quota_end "studio" 100 demo_quota_start demo_quota_steps) as [_ H].
  assert (Hl : limited (qs_market demo_quota_end) "studio" 100).
  { eexists. split; [by vm_compute|]. split; [reflexivity|]. unfold max_int64. lia. }
  split; [exact Hl|]. split; [by vm_compute|]. apply H; [exact Hl|]. intros r cid done Hin _. simpl in Hin.
  apply elem_of_cons in Hin as [Hin|Hin]; [discriminate Hin|]. apply list_elem_of_singleton in Hin. injection Hin as -> _ ->.
  by vm_compute.
Defined.

Lemma quota_decision_exact_witness :
  match ReserveConsumerQuota "studio" 79 (qs_market demo_quota_end) with Ok _ => False | Err e => e = ErrQuotaExceeded end
  /\ cs_RemainingTokens (ConsumerStatus_ (qs_market demo_quota_end) "studio") = 78.
Proof.
  destruct (m_consumers (qs_market demo_quota_end) !! "studio") as [c|] eqn:E.
  - assert (Hc : bool_decide (m_consumers (qs_market demo_quota_end) !! "studio"
      = Some {| cn_ID := "studio"; cn_DisplayName := "Studio"; cn_TotalTokenLimit := 100; cn_Disabled := false |}) = true)
      by (by vm_compute).
    apply bool_decide_eq_true in Hc. rewrite E in Hc. injection Hc as ->.
    assert (Hrem : cs_RemainingTokens (ConsumerStatus_ (qs_market demo_quota_end) "studio") = 78) by (by vm_compute).
    assert (Hfit : used (qs_market demo_quota_end) "studio"
      + map_get 0 (m_reservedUse (qs_market demo_quota_end)) "studio" + 79 <= max_int64) by (by vm_compute).
    pose proof (proj2 (quota_decision_exact demo_quota _ demo_quota_end "studio" _ 79 demo_quota_start demo_quota_steps E
      eq_refl ltac:(discriminate)) ltac:(cbn; lia) Hfit) as H.
    rewrite Hrem in H. split; [|exact Hrem].
    destruct (ReserveConsumerQuota "studio" 79 (qs_market demo_quota_end)) as [[[r|] m]|e].
    + destruct H as (_ & _ & H). lia.
    + destruct H as [H _]. lia.
    + exact (proj1 H).
  - exfalso. assert (H : is_Some (m_consumers (qs_market demo_quota_end) !! "studio")) by (apply (bool_decide_unpack _); by vm_compute).
    rewrite E in H. by destruct H.
Defined.

(** A recording is charged as it is, whatever was reserved for it: with 30 tokens reserved, 110 are
    charged against a limit of 100. *)
Theorem recording_passes_limit :
  let done := {| id_FinishReason := "stop"; id_PromptTokens := 12; id_OutputTokens := 98; id_KeyID := ""; id_Signature := "" |} in
  match RecordReserved (Some demo_ticket) "studio" "home" done 7 None demo_reserved blank_disk with
  | (None, m, _) => (used m "studio" =? 110) && negb (is_ok (ReserveConsumerQuota "studio" 1 m))
  | _ => false
  end = true.
Proof. vm_compute. reflexivity. Qed.

(** Without the bound on the estimate the sum wraps around: with 10 tokens reserved, an
    estimate near 2^63 is granted against a limit of 100, and leaves the ledger negative,
    so every later reservation of the account is granted too. *)
Theorem quota_estimate_wraps :
  match ReserveConsumerQuota "studio" 10 demo_market with
  | Ok (Some _, m) =>
      match ReserveConsumerQuota "studio" (max_int64 - 5) m with
      | Ok (Some _, m') => (map_get 0 (m_reservedUse m') "studio" <? 0) && is_ok (ReserveConsumerQuota "studio" 1000000 m')
      | _ => false
      end
  | _ => false
  end = true.
Proof. vm_compute. reflexivity. Qed.

(** ** The privacy policy of a provider *)

Lemma EnforceProviderPrivacy_ok m pid mode tiers mode' eff :
  market_ok m -> EnforceProviderPrivacy m pid mode tiers = Ok (mode', eff) ->
  eff <> [] /\ Forall known_tier eff /\ NoDup eff /\ mode' = ModeForTiers eff
  /\ exists requested, requestedPrivacy mode tiers = Ok requested
     /\ if m_enabled m && m_requireProviderTokens m
        then exists p, m_providers m !! pid = Some p /\ pv_Disabled p = false
               /\ forall t, t ∈ eff <-> t ∈ requested /\ t ∈ pv_PrivacyTiers p
        else eff = requested.
Proof.
  intros Hm. unfold EnforceProviderPrivacy.
  destruct (requestedPrivacy mode tiers) as [req|] eqn:Er; [|done].
  destruct (requestedPrivacy_ok _ _ _ Er) as (Hk & Hnd & Hne).
  destruct (m_enabled m), (m_requireProviderTokens m); simpl.
  2-4: intros [= <- <-]; split_and!; eauto.
  destruct (m_providers m !! pid) as [p|] eqn:Ep; [|done].
  destruct (pv_Disabled p) eqn:Ed; [done|]. destruct (mo_policies _ Hm _ _ Ep) as (_ & _ & Hpne & _).
  destruct (pv_PrivacyTiers p) as [|t ts] eqn:Et; [done|]. simpl.
  destruct (filter (fun tier => tier ∈ t :: ts) req) as [|x l] eqn:Ef; [done|]. intros [= <- <-].
  assert (Hin : forall y, y ∈ x :: l <-> y ∈ t :: ts /\ y ∈ req) by (intros y; by rewrite <- Ef, list_elem_of_filter).
  split_and!; try done.
  - rewrite Forall_forall in Hk |- *. intros y [_ Hy]%Hin. by apply Hk.
  - rewrite <- Ef. by apply NoDup_filter.
  - exists req. split; [done|]. exists p. rewrite Et. split_and!; [done|done|]. intros y. rewrite Hin. tauto.
Qed.

(** Known tiers pass registration unchanged. *)
Lemma registerNode_tiers msg conn now t :
  reg_PrivacyTiers msg <> [] -> Forall known_tier (reg_PrivacyTiers msg) -> NoDup (reg_PrivacyTiers msg) ->
  t ∈ n_PrivacyTiers (registerNode msg conn now) <-> t ∈ reg_PrivacyTiers msg.
Proof.
  intros Hne Hk Hnd. simpl. rewrite elem_of_list_to_set. unfold registerTiers.
  destruct (requestedPrivacy_fixed "" _ Hk Hnd Hne) as (ts & Hts & Hp). unfold requestedPrivacy in Hts.
  destruct (reg_PrivacyTiers msg) as [|t0 l]; [done|].
  destruct (NormalizeTiers (t0 :: l)) as [n|e]; [|done]. injection Hts as ->. by rewrite Hp.
Qed.

(** C31: which requests a node registered with the tiers the market let through
    accepts.  With the market enabled and require_provider_tokens on, exactly those whose tier the node
    asked for and its provider account, which exists and is enabled at that moment, allows; with
    either of them off, as in the shipped configuration, exactly those in a tier the node itself
    declared, whatever an account says. *)
Theorem accepted_tiers_allowed m d pid mode tiers mode' eff msg conn now tier :
  city_reachable (m, d) -> EnforceProviderPrivacy m pid mode tiers = Ok (mode', eff) ->
  acceptsPrivacy (registerNode (msg <| reg_PrivacyMode := mode' |> <| reg_PrivacyTiers := eff |>) conn now) tier = true
  <-> exists t declared, NormalizeTier tier = Ok t /\ requestedPrivacy mode tiers = Ok declared /\ t ∈ declared
      /\ (m_enabled m = true /\ m_requireProviderTokens m = true ->
          exists p, m_providers m !! pid = Some p /\ pv_Disabled p = false /\ t ∈ pv_PrivacyTiers p).
Proof.
  intros [Hm _]%city_reachable_ok Henf. simpl in Hm.
  destruct (EnforceProviderPrivacy_ok _ _ _ _ _ _ Hm Henf) as (Hne & Hk & Hnd & _ & r & Hreq & Hprov).
  assert (Hmem : forall t, t ∈ eff <-> t ∈ r /\ (m_enabled m = true /\ m_requireProviderTokens m = true ->
    exists p, m_providers m !! pid = Some p /\ pv_Disabled p = false /\ t ∈ pv_PrivacyTiers p)).
  { intros t. destruct (m_enabled m), (m_requireProviderTokens m); simpl in Hprov; [|subst eff; naive_solver..].
    destruct Hprov as (p & Hp & Hd & Hall). rewrite Hall. naive_solver. }
  set (n := registerNode _ _ _).
  assert (Hiff : forall x, x ∈ n_PrivacyTiers n <-> x ∈ eff) by (intros x; by apply registerNode_tiers).
  unfold acceptsPrivacy. destruct (NormalizeTier tier) as [t|]; [|split; [done|by intros (? & ? & ? & _)]].
  rewrite bool_decide_eq_false_2.
  - rewrite bool_decide_eq_true, Hiff, Hmem. split.
    + intros [H1 H2]. by exists t, r.
    + intros (t' & r' & [= <-] & Hr & Hin & H). rewrite Hreq in Hr. injection Hr as <-. done.
  - intros Hemp. destruct eff as [|x l]; [done|]. assert (x ∈ n_PrivacyTiers n) by (apply Hiff; left). set_solver.
Qed.

Definition demo_join : Register :=
  {| reg_ProtocolVersion := 1; reg_NodeID := "n1"; reg_ProviderID := "home"; reg_ProviderToken := "t1";
     reg_PublicName := ""; reg_City := ""; reg_PrivacyMode := ""; reg_PrivacyTiers := [];
     reg_Hostname := ""; reg_Arch := ""; reg_OS := ""; reg_Backend := "echo"; reg_DeviceKind := "";
     reg_DeviceVendor := ""; reg_DeviceModel := ""; reg_SoC := ""; reg_Accelerators := [];
     reg_PowerMode := ""; reg_NetworkMode := ""; reg_Models := ["m"]; reg_MaxConcurrent := 1 |}.

Definition demo_enforced : string * list string :=
  match EnforceProviderPrivacy demo_market "home" "" [] with Ok r => r | Err _ => ("", []) end.

(** The account "home" allows only "community" and "public", which is what an undeclared node gets. *)
Lemma accepted_tiers_allowed_witness :
  demo_enforced = ("community", ["community"; "public"])
  /\ exists t, NormalizeTier "public" = Ok t /\ exists p, m_providers demo_market !! "home" = Some p /\ t ∈ pv_PrivacyTiers p.
Proof.
  split; [vm_compute; reflexivity|].
  assert (He : EnforceProviderPrivacy demo_market "home" "" [] = Ok (fst demo_enforced, snd demo_enforced)) by (vm_compute; reflexivity).
  assert (Ha : acceptsPrivacy (registerNode (demo_join <| reg_PrivacyMode := fst demo_enforced |>
    <| reg_PrivacyTiers := snd demo_enforced |>) None 0) "public" = true) by (vm_compute; reflexivity).
  pose proof (proj1 (accepted_tiers_allowed demo_market blank_disk "home" "" [] (fst demo_enforced) (snd demo_enforced)
    demo_join None 0 "public" demo_market_reachable He) Ha) as (t & r & Ht & _ & _ & H).
  exists t. split; [exact Ht|]. destruct H as (p & Hp & _ & Hin); [split; vm_compute; reflexivity|]. exists p. split; [exact Hp|exact Hin].
Defined.

(** ** Restarts and static configuration *)

Definition restart (cfg : CityConfig) (legacy : list string) (d : Disk) : Market :=
  match New cfg legacy None d with Ok m => m | Err _ => emptyMarket cfg end.

(** A key that rotation removed authenticates again after a restart when the
    configuration still lists it: [New] adds the configured keys to the stored ones. *)
Theorem rotated_key_returns :
  match demo_rotation with
  | (Ok _, m, d) => negb (is_ok (AuthenticateConsumer m "k1"))
                    && bool_decide (AuthenticateConsumer (restart demo_city [] d) "k1" = Ok "studio")
  | _ => false
  end = true.
Proof. vm_compute. reflexivity. Qed.

(** The built-in account "local", once disabled, is enabled again by a restart with legacy keys. *)
Theorem local_account_reenabled :
  match DisableConsumer "local" 5 None (restart demo_city ["old"] blank_disk) blank_disk with
  | (Ok _, m, d) => negb (is_ok (AuthenticateConsumer m "old"))
                    && bool_decide (AuthenticateConsumer (restart demo_city ["old"] d) "old" = Ok "local")
  | _ => false
  end = true.
Proof. vm_compute. reflexivity. Qed.

(** The city disabled, as in [configs/coordinator.yaml].  With one legacy key, a request without a key is refused; once the administrator
    disables "local", the key maps are empty, and every request without a key is let in as "local". *)
Definition city_off : CityConfig :=
  {| cc_Enabled := false; cc_Name := ""; cc_RequireProviderTokens := false; cc_UsageStorePath := ""; cc_SQLitePath := "";
     cc_Consumers := []; cc_Providers := [] |}.

Theorem disabling_local_opens :
  let m0 := restart city_off ["old"] blank_disk in
  match DisableConsumer "local" 5 None m0 blank_disk with
  | (Ok _, m, _) => negb (is_ok (AuthenticateConsumer m0 "")) && negb (is_ok (AuthenticateConsumer m "old"))
                    && bool_decide (AuthenticateConsumer m "" = Ok "local")
  | _ => false
  end = true.
Proof. vm_compute. reflexivity. Qed.

(** When storing a rotation fails, the old key is gone and the new one was not returned. *)
Theorem failed_rotation_locks_out :
  match RotateConsumerKey "studio" (Ok [1; 2; 3]) 5 (Some "disk full") demo_market blank_disk with
  | (Err _, m, _) => negb (is_ok (AuthenticateConsumer m "k1"))
                     && bool_decide (m_apiKeyHashes m = {[hashSecret "sk-mi-010203" := "studio"]})
  | _ => false
  end = true.
Proof. vm_compute. reflexivity. Qed.
