(* ===== verification/Idempotency.v ===== *)
(** * The idempotency store: [internal/idempotency/store.go]

    State: the table [idempotency_keys], one row per key.  A [Store] without a database
    (an empty path) is disabled: [None].  Each call is one transaction or one statement;
    [fault] is an error of the driver, after which the table is as before. *)

From S2P Require Import Prelude GoString.

(** ** Data *)

(** [src/internal/idempotency/store.go:124-137] init (a row of the table) *)
Record KeyRow := {
  kr_status : string;
  kr_status_code : Z;
  kr_content_type : string;
  kr_response : string;
  kr_created_at : Z;
  kr_completed_at : Z;
}.
#[export] Instance eta_KeyRow : Settable KeyRow := fun r =>
  Build_KeyRow (kr_status r) (kr_status_code r) (kr_content_type r) (kr_response r) (kr_created_at r) (kr_completed_at r).

Abbreviation KeyTable := (gmap string KeyRow).

(** [src/internal/idempotency/store.go:13-18] Record *)
Record IdemRecord := {
  im_Status : string;
  im_StatusCode : Z;
  im_ContentType : string;
  im_Response : string;
}.

(** [src/internal/idempotency/store.go:20-23] Store; the database handle is its presence. *)
Record IdemStore := { st_db : bool; st_ttl : Z }.

(** [src/internal/idempotency/store.go:11-11] defaultTTL *)
Definition defaultTTL : Z := 24 * 3600 * second.

(** [src/internal/idempotency/store.go:25-42] New; [fault] is an error of opening the database. *)
Definition New (path : string) (ttl : Z) (fault : option string) : res string (option IdemStore) :=
  if path =s "" then Ok None
  else
    let ttl := if ttl <=? 0 then defaultTTL else ttl in
    match fault with
    | Some err => Err err
    | None => Ok (Some {| st_db := true; st_ttl := ttl |})
    end.

(** [src/internal/idempotency/store.go:44-46] Enabled *)
Definition Enabled (s : option IdemStore) : bool := match s with None => false | Some s => st_db s end.

Definition in_progress_record : IdemRecord :=
  {| im_Status := "in_progress"; im_StatusCode := 0; im_ContentType := ""; im_Response := "" |}.

(** [src/internal/idempotency/store.go:55-103] Begin.  [Ok None] is a claim; [fault] is an error of
    any of the transaction's statements or of its commit. *)
Definition Begin (s : option IdemStore) (key : string) (now : Z) (fault : option string) (db : KeyTable)
  : res string (option IdemRecord) * KeyTable :=
  if negb (Enabled s) then (Ok None, db)
  else
    match fault with
    | Some err => (Err err, db)
    | None =>
        match db !! key with
        | None =>
            (Ok None, <[key := {| kr_status := "in_progress"; kr_status_code := 0; kr_content_type := "";
                                  kr_response := ""; kr_created_at := now; kr_completed_at := 0 |}]> db)
        | Some row =>
            if kr_status row =s "completed" then
              (Ok (Some {| im_Status := kr_status row; im_StatusCode := kr_status_code row;
                           im_ContentType := kr_content_type row; im_Response := kr_response row |}), db)
            else if (kr_status row =s "in_progress")
                    && (default 0 (st_ttl <$> s) <? now -w kr_created_at row)
            then (Ok None, <[key := row <| kr_created_at := now |>]> db)
            else (Ok (Some in_progress_record), db)
        end
    end.

(** [src/internal/idempotency/store.go:105-114] Complete *)
Definition Complete (s : option IdemStore) (key : string) (statusCode : Z) (contentType body : string) (now : Z)
    (fault : option string) (db : KeyTable) : option string * KeyTable :=
  if negb (Enabled s) then (None, db)
  else
    match fault with
    | Some err => (Some err, db)
    | None =>
        (None, alter (fun row => row <| kr_status := "completed" |> <| kr_status_code := statusCode |>
                 <| kr_content_type := contentType |> <| kr_response := body |> <| kr_completed_at := now |>) key db)
    end.

(** [src/internal/idempotency/store.go:116-122] Abort *)
Definition Abort_ (s : option IdemStore) (key : string) (fault : option string) (db : KeyTable) : option string * KeyTable :=
  if negb (Enabled s) then (None, db)
  else
    match fault with
    | Some err => (Some err, db)
    | None =>
        match db !! key with
        | Some row => if kr_status row =s "in_progress" then (None, delete key db) else (None, db)
        | None => (None, db)
        end
    end.

(** ** Requests sharing the store

    Each request claims its key with [Begin] and, when it holds the claim, ends with
    [Complete] or [Abort]; a request may also die in between (its claim stays). *)

(** A running request: its name and the key it claimed. *)
Definition Claim : Type := Z * string.

Record IdemWorld := {
  iw_db : KeyTable;
  iw_claims : list Claim;
}.

(** A label of [Begin] also shows the row the key had. *)
Inductive idem_label :=
| IBegin (req : Z) (key : string) (now : Z) (found : option KeyRow) (r : res string (option IdemRecord))
| IComplete (req : Z) (key : string) (code : Z) (ctype body : string)
| IAbort (req : Z) (key : string)
| IFailed (req : Z) (key : string).

(** The responses stored for a key in the course of a trace. *)
Definition completion (key : string) (l : idem_label) : option (Z * string * string) :=
  match l with
  | IComplete _ k code ctype body => if decide (k = key) then Some (code, ctype, body) else None
  | _ => None
  end.
Definition completions (key : string) (tr : list idem_label) : list (Z * string * string) := omap (completion key) tr.

(** A takeover: [Begin] gives a key to a request although its row is in progress; and how old the row was. *)
Definition takeover (key : string) (l : idem_label) : option Z :=
  match l with
  | IBegin _ k now (Some row) (Ok None) => if decide (k = key) then Some (now -w kr_created_at row) else None
  | _ => None
  end.
Definition takeovers (key : string) (tr : list idem_label) : list Z := omap (takeover key) tr.

(** The requests that hold a claim on a key. *)
Definition running (key : string) (w : IdemWorld) : nat := length (filter (fun c => c.2 = key) (iw_claims w)).

Definition idem_start : IdemWorld := {| iw_db := ∅; iw_claims := [] |}.

(** The record [Begin] returns for a completed key. *)
Definition completed_record (c : Z * string * string) : IdemRecord :=
  {| im_Status := "completed"; im_StatusCode := c.1.1; im_ContentType := c.1.2; im_Response := c.2 |}.

Definition row_holds (row : KeyRow) (c : Z * string * string) : Prop :=
  kr_status row = "completed" /\ kr_status_code row = c.1.1 /\ kr_content_type row = c.1.2 /\ kr_response row = c.2.

Section Steps.
Context (ttl : Z).
Local Abbreviation store := (Some {| st_db := true; st_ttl := ttl |}).

Inductive idem_step : IdemWorld -> idem_label -> IdemWorld -> Prop :=
| is_begin w req key now fault r db :
    Begin store key now fault (iw_db w) = (r, db) ->
    idem_step w (IBegin req key now (iw_db w !! key) r)
      {| iw_db := db; iw_claims := match r with Ok None => (req, key) :: iw_claims w | _ => iw_claims w end |}
| is_complete db before req key after code ctype body now db' :
    Complete store key code ctype body now None db = (None, db') ->
    idem_step {| iw_db := db; iw_claims := before ++ (req, key) :: after |} (IComplete req key code ctype body)
      {| iw_db := db'; iw_claims := before ++ after |}
| is_abort db before req key after db' :
    Abort_ store key None db = (None, db') ->
    idem_step {| iw_db := db; iw_claims := before ++ (req, key) :: after |} (IAbort req key)
      {| iw_db := db'; iw_claims := before ++ after |}
(* the statement that ends the claim fails: the request is over, its row stays *)
| is_failed db before req key after :
    idem_step {| iw_db := db; iw_claims := before ++ (req, key) :: after |} (IFailed req key)
      {| iw_db := db; iw_claims := before ++ after |}.

(** ** The invariant of a key *)

(** Its claims and stored responses are at most its takeovers and one for its row; the row is in
    progress or holds the last response; without a takeover, once stored is stored. *)
Record key_ok (key : string) (tr : list idem_label) (w : IdemWorld) : Prop := {
  ko_count : (running key w + length (completions key tr)
              <= length (takeovers key tr) + match iw_db w !! key with Some _ => 1 | None => 0 end)%nat;
  ko_row : forall row, iw_db w !! key = Some row ->
    kr_status row = "in_progress" \/ exists cs c, completions key tr = cs ++ [c] /\ row_holds row c;
  ko_stored : takeovers key tr = [] -> completions key tr <> [] ->
    exists row, iw_db w !! key = Some row /\ kr_status row = "completed";
  ko_stale : Forall (fun age => ttl < age) (takeovers key tr);
}.

Lemma completions_snoc key tr l :
  completions key (tr ++ [l]) = completions key tr ++ (match completion key l with Some c => [c] | None => [] end).
Proof. unfold completions. rewrite omap_app. simpl. by destruct (completion key l). Qed.

Lemma takeovers_snoc key tr l :
  takeovers key (tr ++ [l]) = takeovers key tr ++ (match takeover key l with Some c => [c] | None => [] end).
Proof. unfold takeovers. rewrite omap_app. simpl. by destruct (takeover key l). Qed.

Lemma running_cons key req k db claims :
  running key {| iw_db := db; iw_claims := (req, k) :: claims |}
  = ((if decide (k = key) then 1 else 0) + running key {| iw_db := db; iw_claims := claims |})%nat.
Proof. unfold running. cbn [iw_claims]. rewrite filter_cons. simpl. by case_decide. Qed.

Lemma running_middle key req k db db' before after :
  running key {| iw_db := db; iw_claims := before ++ (req, k) :: after |}
  = ((if decide (k = key) then 1 else 0) + running key {| iw_db := db'; iw_claims := before ++ after |})%nat.
Proof.
  unfold running. cbn [iw_claims]. rewrite !filter_app, filter_cons, !length_app. simpl. case_decide; simpl; lia.
Qed.

(** A step that leaves the row of the key, its responses and its takeovers alone, and takes no claim on it. *)
Lemma key_ok_quiet key tr l w w' :
  completion key l = None -> takeover key l = None -> iw_db w' !! key = iw_db w !! key ->
  (running key w' <= running key w)%nat -> key_ok key tr w -> key_ok key (tr ++ [l]) w'.
Proof.
  intros Hc Ht Hdb Hr [K1 K2 K3 K4].
  constructor; rewrite ?completions_snoc, ?takeovers_snoc, ?Hc, ?Ht, ?app_nil_r, ?Hdb; try done. lia.
Qed.

Lemma begin_ok k tr w req key now fault r db :
  key_ok k tr w -> Begin store key now fault (iw_db w) = (r, db) ->
  key_ok k (tr ++ [IBegin req key now (iw_db w !! key) r])
    {| iw_db := db; iw_claims := match r with Ok None => (req, key) :: iw_claims w | _ => iw_claims w end |}.
Proof.
  intros Hok Hb. destruct w as [db0 claims]. cbn [iw_db iw_claims] in *. unfold Begin in Hb. simpl in Hb.
  assert (Hsame : forall r0, r0 <> Ok None -> key_ok k (tr ++ [IBegin req key now (db0 !! key) r0])
    {| iw_db := db0; iw_claims := claims |}).
  { intros r0 Hr. eapply key_ok_quiet; [| | |reflexivity|exact Hok]; [done| |done]. simpl.
    destruct (db0 !! key); [|done]. destruct r0 as [[rec|]|e]; done. }
  destruct fault as [e|]; [injection Hb as <- <-; by apply Hsame|]. destruct (db0 !! key) as [row|] eqn:Erow.
  - destruct (kr_status row =s "completed") eqn:Ec; [injection Hb as <- <-; by apply Hsame|].
    destruct ((kr_status row =s "in_progress") && (ttl <? now -w kr_created_at row)) eqn:Ei; [|injection Hb as <- <-; by apply Hsame].
    bsimpl. injection Hb as <- <-. destruct (decide (key = k)) as [->|Hne].
    + destruct Hok as [K1 K2 K3 K4]. cbn [iw_db] in *. rewrite Erow in K1.
      constructor; rewrite ?completions_snoc, ?takeovers_snoc; cbn [completion takeover]; rewrite ?decide_True by done;
        rewrite ?app_nil_r; cbn [iw_db].
      * rewrite running_cons, decide_True, lookup_insert_eq, length_app by done. unfold running in *. simpl in *. lia.
      * intros row' Hr. rewrite lookup_insert_eq in Hr. injection Hr as <-. left. by apply str_eqb_true.
      * intros Hz. by apply app_eq_nil in Hz as [_ ?].
      * apply Forall_app. split; [done|]. by apply Forall_singleton.
    + eapply key_ok_quiet; [| | | |exact Hok]; simpl; [done|by rewrite decide_False|by rewrite lookup_insert_ne|].
      rewrite running_cons, decide_False by done. done.
  - injection Hb as <- <-. destruct (decide (key = k)) as [->|Hne].
    + destruct Hok as [K1 K2 K3 K4]. cbn [iw_db] in *. rewrite Erow in K1.
      constructor; rewrite ?completions_snoc, ?takeovers_snoc; cbn [completion takeover]; rewrite ?app_nil_r; cbn [iw_db]; try done.
      * rewrite running_cons, decide_True, lookup_insert_eq by done. unfold running in *. simpl in *. lia.
      * intros row' Hr. rewrite lookup_insert_eq in Hr. injection Hr as <-. by left.
      * intros Hz Hn. destruct (K3 Hz Hn) as (row & Hrow & _). congruence.
    + eapply key_ok_quiet; [| | | |exact Hok]; simpl; [done|done|by rewrite lookup_insert_ne|].
      rewrite running_cons, decide_False by done. done.
Qed.

Lemma complete_ok k tr db before req key after code ctype body now db' :
  key_ok k tr {| iw_db := db; iw_claims := before ++ (req, key) :: after |} ->
  Complete store key code ctype body now None db = (None, db') ->
  key_ok k (tr ++ [IComplete req key code ctype body]) {| iw_db := db'; iw_claims := before ++ after |}.
Proof.
  intros Hok Hc. unfold Complete in Hc. simpl in Hc. injection Hc as <-. destruct (decide (key = k)) as [->|Hne].
  - destruct Hok as [K1 K2 K3 K4]. rewrite (running_middle k req k db db before after), decide_True in K1 by done. cbn [iw_db] in *.
    constructor; rewrite ?completions_snoc, ?takeovers_snoc; cbn [completion takeover]; rewrite ?decide_True by done;
      rewrite ?app_nil_r; cbn [iw_db]; try done.
    + rewrite lookup_alter_eq, length_app. unfold running in *. simpl in *. destruct (db !! k); simpl in *; lia.
    + intros row. rewrite lookup_alter_eq. intros (row0 & _ & ->)%fmap_Some. right. eexists _, _. split; [reflexivity|]. done.
    + intros Hz _. rewrite lookup_alter_eq. rewrite Hz in K1. destruct (db !! k) as [row|]; simpl in *; [|lia]. eexists. split; done.
  - eapply key_ok_quiet; [| | | |exact Hok]; simpl; [by rewrite decide_False|done|by rewrite lookup_alter_ne|].
    rewrite (running_middle k req key db db before after). unfold running. simpl. lia.
Qed.

Lemma abort_ok k tr db before req key after db' :
  key_ok k tr {| iw_db := db; iw_claims := before ++ (req, key) :: after |} ->
  Abort_ store key None db = (None, db') ->
  key_ok k (tr ++ [IAbort req key]) {| iw_db := db'; iw_claims := before ++ after |}.
Proof.
  intros Hok Ha. unfold Abort_ in Ha. simpl in Ha.
  assert (Hsame : key_ok k (tr ++ [IAbort req key]) {| iw_db := db; iw_claims := before ++ after |}).
  { eapply key_ok_quiet; [done|done| | |exact Hok]; [done|]. rewrite (running_middle k req key db db before after). lia. }
  destruct (db !! key) as [row|] eqn:Erow; [|injection Ha as <-; exact Hsame].
  destruct (kr_status row =s "in_progress") eqn:Es; [|injection Ha as <-; exact Hsame]. injection Ha as <-. bsimpl.
  destruct (decide (key = k)) as [->|Hne].
  - destruct Hok as [K1 K2 K3 K4]. rewrite (running_middle k req k db db before after), decide_True in K1 by done. cbn [iw_db] in *.
    rewrite Erow in K1.
    constructor; rewrite ?completions_snoc, ?takeovers_snoc; cbn [completion takeover]; rewrite ?app_nil_r; cbn [iw_db]; try done.
    + rewrite lookup_delete_eq. unfold running in *. simpl in *. lia.
    + intros row'. by rewrite lookup_delete_eq.
    + intros Hz Hn. destruct (K3 Hz Hn) as (row' & Hrow' & Hst). rewrite Erow in Hrow'. injection Hrow' as <-. apply str_eqb_true in Es. congruence.
  - eapply key_ok_quiet; [| | | |exact Hok]; simpl; [done|done|by rewrite lookup_delete_ne|].
    rewrite (running_middle k req key db db before after). unfold running. simpl. lia.
Qed.

Lemma idem_step_ok k tr w l w' : key_ok k tr w -> idem_step w l w' -> key_ok k (tr ++ [l]) w'.
Proof.
  intros Hok Hs. destruct Hs as [w req key now fault r db Hb|db before req key after code ctype body now db' Hc
    |db before req key after db' Ha|db before req key after].
  - by eapply begin_ok.
  - by eapply complete_ok.
  - by eapply abort_ok.
  - eapply key_ok_quiet; [done|done| | |exact Hok]; [done|]. rewrite (running_middle k req key db db before after). lia.
Qed.

Lemma idem_steps_ok k tr w : steps idem_step idem_start tr w -> key_ok k tr w.
Proof.
  remember idem_start as s eqn:Es. induction 1 as [s|s1 tr s2 l s3 _ IH Hs]; subst.
  - constructor; simpl; [lia| |done|constructor]. intros row. by rewrite lookup_empty.
  - eapply idem_step_ok; [by apply IH|done].
Qed.
End Steps.

(** C10: in every run of requests on the store, with any failures and deaths, a key that was
    never taken over has at most one running request or stored response, never both; and once a response
    is stored, every [Begin] returns exactly it.  A key is taken over only when its row is in progress
    and older than the time to live, as docs/idempotency.md says; each takeover allows one running request or
    stored response more ([stale_claim_completes_twice] shows that this happens when the first request is still
    running), and [Begin] then returns the response that was stored last.  A key whose row is
    not completed can be claimed once the row is older than the time to live, so a request that died does not
    block it forever. *)
Theorem idempotent_once ttl tr w key :
  steps (idem_step ttl) idem_start tr w ->
  let store := Some {| st_db := true; st_ttl := ttl |} in
  (running key w + length (completions key tr) <= 1 + length (takeovers key tr))%nat
  /\ Forall (fun age => ttl < age) (takeovers key tr)
  /\ (forall c now, takeovers key tr = [] -> completions key tr = [c] ->
        Begin store key now None (iw_db w) = (Ok (Some (completed_record c)), iw_db w))
  /\ (forall row now, iw_db w !! key = Some row -> kr_status row = "completed" ->
        exists cs c, completions key tr = cs ++ [c]
          /\ Begin store key now None (iw_db w) = (Ok (Some (completed_record c)), iw_db w))
  /\ (forall now, (forall row, iw_db w !! key = Some row -> kr_status row <> "completed" /\ ttl < now -w kr_created_at row) ->
        fst (Begin store key now None (iw_db w)) = Ok None).
Proof.
  intros Hs store. destruct (idem_steps_ok ttl key _ _ Hs) as [K1 K2 K3 K4].
  assert (Hdone : forall row now, iw_db w !! key = Some row -> kr_status row = "completed" ->
    exists cs c, completions key tr = cs ++ [c] /\ Begin store key now None (iw_db w) = (Ok (Some (completed_record c)), iw_db w)).
  { intros row now Hrow Hst. destruct (K2 row Hrow) as [Hp|(cs & c & Hcs & H1 & H2 & H3 & H4)]; [congruence|].
    exists cs, c. split; [done|]. unfold Begin, completed_record. simpl. by rewrite Hrow, H1, H2, H3, H4. }
  split; [destruct (iw_db w !! key); lia|]. split; [done|]. split; [|split; [done|]].
  - intros c now Hz Hc. destruct (K3 Hz ltac:(by rewrite Hc)) as (row & Hrow & Hst).
    destruct (Hdone row now Hrow Hst) as (cs & c' & Hcs & HB). rewrite Hc in Hcs.
    destruct cs as [|x [|]]; [by injection Hcs as ->|discriminate Hcs..].
  - intros now Hold. unfold Begin. simpl. destruct (iw_db w !! key) as [row|] eqn:Erow; [|done].
    destruct (Hold row eq_refl) as [Hne Hage]. destruct (K2 row eq_refl) as [->|(cs & c & _ & Hst & _)]; [|done].
    simpl. by rewrite (proj2 (Z.ltb_lt _ _)).
Qed.

(** ** A run, and what a takeover does *)

Definition demo_row (now : Z) : KeyRow :=
  {| kr_status := "in_progress"; kr_status_code := 0; kr_content_type := ""; kr_response := ""; kr_created_at := now;
     kr_completed_at := 0 |}.

(** The row after a response was stored. *)
Definition demo_done (created now : Z) (body : string) : KeyRow :=
  {| kr_status := "completed"; kr_status_code := 200; kr_content_type := "application/json"; kr_response := body;
     kr_created_at := created; kr_completed_at := now |}.

Definition demo_claim (req : Z) (found : option KeyRow) : idem_label := IBegin req "key" (req * 10) found (Ok None).
Definition demo_answer (req : Z) (body : string) : idem_label := IComplete req "key" 200 "application/json" body.

Abbreviation in_flight now := ({[ "key" := demo_row now ]} : KeyTable).
Abbreviation answered created now body := ({[ "key" := demo_done created now body ]} : KeyTable).

Lemma demo_idem_steps :
  steps (idem_step 100) idem_start [demo_claim 1 None; demo_answer 1 "one"]
    {| iw_db := answered 10 20 "one"; iw_claims := [] |}.
Proof.
  apply (steps_snoc _ _ [demo_claim 1 None] {| iw_db := in_flight 10; iw_claims := [(1, "key")] |}).
  - apply (steps_snoc _ _ [] idem_start); [constructor|].
    refine (is_begin 100 idem_start 1 "key" 10 None (Ok None) (in_flight 10) _). vm_compute. reflexivity.
  - refine (is_complete 100 (in_flight 10) [] 1 "key" [] 200 "application/json" "one" 20 (answered 10 20 "one") _).
    vm_compute. reflexivity.
Qed.

Lemma idempotent_once_witness :
  let store := Some {| st_db := true; st_ttl := 100 |} in
  fst (Begin store "key" 5000 None {[ "key" := demo_done 10 20 "one" ]})
  = Ok (Some {| im_Status := "completed"; im_StatusCode := 200; im_ContentType := "application/json"; im_Response := "one" |}).
Proof.
  destruct (idempotent_once 100 _ _ "key" demo_idem_steps) as (_ & _ & H & _).
  exact (f_equal fst (H (200, "application/json", "one") 5000 eq_refl eq_refl)).
Defined.

(** A request that is still running when its row is older than the time to live loses its claim to a retry, and
    both store a response. *)
Theorem stale_claim_completes_twice :
  exists tr w, steps (idem_step 5) idem_start tr w /\ takeovers "key" tr = [10]
    /\ completions "key" tr = [(200, "application/json", "one"); (200, "application/json", "two")].
Proof.
  pose (c1 := demo_claim 1 None). pose (c2 := demo_claim 2 (Some (demo_row 10))).
  exists [c1; c2; demo_answer 1 "one"; demo_answer 2 "two"],
    {| iw_db := answered 20 40 "two"; iw_claims := [] |}. split; [|split; reflexivity].
  apply (steps_snoc _ _ [c1; c2; demo_answer 1 "one"]
    {| iw_db := answered 20 30 "one"; iw_claims := [(2, "key")] |}).
  2: { refine (is_complete 5 (answered 20 30 "one") [] 2 "key" [] 200 "application/json" "two" 40 (answered 20 40 "two") _).
       vm_compute. reflexivity. }
  apply (steps_snoc _ _ [c1; c2] {| iw_db := in_flight 20; iw_claims := [(2, "key"); (1, "key")] |}).
  2: { refine (is_complete 5 (in_flight 20) [(2, "key")] 1 "key" [] 200 "application/json" "one" 30 (answered 20 30 "one") _).
       vm_compute. reflexivity. }
  apply (steps_snoc _ _ [c1] {| iw_db := in_flight 10; iw_claims := [(1, "key")] |}).
  2: { refine (is_begin 5 {| iw_db := in_flight 10; iw_claims := [(1, "key")] |} 2 "key" 20 None (Ok None) (in_flight 20) _).
       vm_compute. reflexivity. }
  apply (steps_snoc _ _ [] idem_start); [constructor|].
  refine (is_begin 5 idem_start 1 "key" 10 None (Ok None) (in_flight 10) _). vm_compute. reflexivity.
Qed.
