(* ===== verification/NodeConn.v ===== *)
(** * A node's connection: [nodeConn] in [coordinator/cmd/coordinator/main.go]

    Several goroutines share a connection: the reader (the loop of [nodeWebSocket]), one
    [SendInference] or [SendEmbedding] per running request, and any number of [Close] calls
    (the reader's own when it ends, and the registry's when a node is removed or replaced).
    They meet in the map of pending requests, under a mutex, and in one buffered channel
    per request.  The model is a step relation between states of all of them.

    The mutex protects single map operations, which are one step each, except in [Close],
    which sends to the channels while it holds the mutex: it is held exactly while a
    [Close] is running.  A request id names its channel: the coordinator draws a random
    id per request, and a dispatch tries a node at most once. *)

From S2P Require Import Prelude GoString GoFloat Protocol Scheduler.

(** ** What a request makes of a message *)

(** The two senders, and what they return. *)
Inductive Sender := Inference | Embedding.
Inductive Answer := AnsDone (done : InferDone) | AnsVectors (result : EmbedResult).

Definition plainError (msg : string) : NodeError := {| ne_msg := msg; ne_retryable := None |}.

(** [src/coordinator/cmd/coordinator/main.go:1516-1519] nodeInferenceError *)
Definition nodeInferenceError (e : InferError) : NodeError :=
  {| ne_msg := ie_Message e; ne_retryable := Some (ie_Retryable e) |}.

(** [src/coordinator/cmd/coordinator/main.go:1380-1399] SendInference (a message): the chunk it writes to
    the sink, and its result when the message ends the call *)
Definition onInferMessage (msg : Envelope) : option string * option (res NodeError Answer) :=
  if env_Type msg =s "chunk" then (ic_Content <$> env_Chunk msg, None)
  else if env_Type msg =s "done" then
    (None, Some (Ok (AnsDone (match env_Done msg with
      | None => {| id_FinishReason := "stop"; id_PromptTokens := 0; id_OutputTokens := 0; id_KeyID := "";
                   id_Signature := "" |}
      | Some done => done end))))
  else if env_Type msg =s "error" then
    (None, Some (Err (match env_Error msg with
      | Some e => nodeInferenceError e
      | None => plainError "node returned inference error" end)))
  else (None, None).

(** [src/coordinator/cmd/coordinator/main.go:1418-1434] SendEmbedding (a message) *)
Definition onEmbedMessage (msg : Envelope) : option string * option (res NodeError Answer) :=
  if env_Type msg =s "embeddings" then
    (None, Some (match env_Embeddings msg with
      | None => Err (plainError "node returned empty embeddings result")
      | Some result => Ok (AnsVectors result) end))
  else if env_Type msg =s "error" then
    (None, Some (Err (match env_Error msg with
      | Some e => nodeInferenceError e
      | None => plainError "node returned embedding error" end)))
  else (None, None).

Definition onMessage (sender : Sender) : Envelope -> option string * option (res NodeError Answer) :=
  match sender with Inference => onInferMessage | Embedding => onEmbedMessage end.

(** [src/coordinator/cmd/coordinator/main.go:1456-1461] Close (what it sends to a pending request) *)
Definition disconnected (requestID : string) : Envelope :=
  empty_Envelope <| env_Version := 1 |> <| env_Type := "error" |> <| env_RequestID := requestID |>
    <| env_Error := Some {| ie_Message := "node disconnected"; ie_Retryable := true |} |>.

(** ** State *)

(** [make(chan protocol.Envelope, 128)]. *)
Definition channel_capacity : nat := 128.

(** Where a [SendInference] or [SendEmbedding] call is. *)
Inductive Phase :=
| Writing                                 (* registered, the request not yet written *)
| Waiting                                 (* in the receive loop *)
| Leaving (r : res NodeError Answer)      (* about to delete its entry *)
| Left (r : res NodeError Answer).        (* returned *)

(** A call: its channel, and what it has done so far.  [rq_sent] are the messages the reader
    found it pending for, [rq_seen] those it received; both are ghost state. *)
Record Call := {
  rq_sender : Sender;
  rq_phase : Phase;
  rq_buffer : list Envelope;
  rq_output : list string;
  rq_sent : list Envelope;
  rq_seen : list Envelope;
}.
#[export] Instance eta_Call : Settable Call := fun q =>
  Build_Call (rq_sender q) (rq_phase q) (rq_buffer q) (rq_output q) (rq_sent q) (rq_seen q).

(** Where the reader is: at the socket, blocked in [ch <- msg], or gone. *)
Inductive Reader := Reading | Delivering (requestID : string) (msg : Envelope) | ReaderDone.

(** [src/coordinator/cmd/coordinator/main.go:1350-1355] nodeConn, with its callers.  [nc_closing] are the requests
    a running [Close] has still to notify. *)
Record NodeConn := {
  nc_pending : gset string;
  nc_calls : gmap string Call;
  nc_reader : Reader;
  nc_closing : option (list string);
}.
#[export] Instance eta_NodeConn : Settable NodeConn := fun c =>
  Build_NodeConn (nc_pending c) (nc_calls c) (nc_reader c) (nc_closing c).

(** [src/coordinator/cmd/coordinator/main.go:1357-1359] newNodeConn *)
Definition newNodeConn : NodeConn := {| nc_pending := ∅; nc_calls := ∅; nc_reader := Reading; nc_closing := None |}.

Definition newCall (sender : Sender) : Call :=
  {| rq_sender := sender; rq_phase := Writing; rq_buffer := []; rq_output := []; rq_sent := []; rq_seen := [] |}.

(** ** Steps *)

(** [src/coordinator/cmd/coordinator/main.go:1342-1345] nodeWebSocket (the messages it delivers) *)
Definition deliverable (msg : Envelope) : bool :=
  (env_Type msg =s "chunk") || (env_Type msg =s "done") || (env_Type msg =s "embeddings") || (env_Type msg =s "error").

(** [src/coordinator/cmd/coordinator/main.go:1437-1444] deliver (the look-up): the reader goes on, or
    starts sending to the channel of a pending request. *)
Definition lookupCall (msg : Envelope) (c : NodeConn) : NodeConn :=
  let id := env_RequestID msg in
  if deliverable msg && bool_decide (id ∈ nc_pending c)
  then c <| nc_reader := Delivering id msg |>
         <| nc_calls ::= alter (fun q => q <| rq_sent ::= fun l => l ++ [msg] |>) id |>
  else c.

(** [src/coordinator/cmd/coordinator/main.go:1361-1364] SendInference (its entry in the map) *)
Definition startCall (id : string) (sender : Sender) (c : NodeConn) : NodeConn :=
  c <| nc_pending ::= fun p => {[id]} ∪ p |> <| nc_calls ::= <[id := newCall sender]> |>.

(** [src/coordinator/cmd/coordinator/main.go:1372-1374] SendInference (the write) *)
Definition written (err : option NodeError) (q : Call) : Call :=
  q <| rq_phase := match err with Some e => Leaving (Err e) | None => Waiting end |>.

(** [src/coordinator/cmd/coordinator/main.go:1376-1399] SendInference (a message is received).  [sinkErr] is
    the sink's error, if the message is a chunk. *)
Definition receive (sinkErr : option NodeError) (msg : Envelope) (rest : list Envelope) (q : Call) : Call :=
  let '(chunk, result) := onMessage (rq_sender q) msg in
  let q := q <| rq_buffer := rest |> <| rq_seen ::= fun l => l ++ [msg] |> in
  match chunk with
  | Some content =>
      let q := q <| rq_output ::= fun o => o ++ [content] |> in
      match sinkErr with Some e => q <| rq_phase := Leaving (Err e) |> | None => q end
  | None => match result with Some r => q <| rq_phase := Leaving r |> | None => q end
  end.

(** [src/coordinator/cmd/coordinator/main.go:1366-1370] SendInference (the deferred delete) *)
Definition leaveCall (id : string) (r : res NodeError Answer) (c : NodeConn) : NodeConn :=
  c <| nc_pending ::= fun p => p ∖ {[id]} |> <| nc_calls ::= alter (fun q => q <| rq_phase := Left r |>) id |>.

(** A send to the channel of a request; it needs room in the buffer. *)
Definition push (id : string) (msg : Envelope) (c : NodeConn) : NodeConn :=
  c <| nc_calls ::= alter (fun q => q <| rq_buffer ::= fun b => b ++ [msg] |>) id |>.

Definition has_room (id : string) (c : NodeConn) : Prop :=
  exists q, nc_calls c !! id = Some q /\ (length (rq_buffer q) < channel_capacity)%nat.

Definition call_at (id : string) (p : Phase) (c : NodeConn) (q : Call) : Prop :=
  nc_calls c !! id = Some q /\ rq_phase q = p.

Inductive conn_label :=
| NStart (id : string) (sender : Sender)
| NWritten (id : string) (err : option NodeError)
| NRead (msg : Envelope)
| NDelivered
| NReceive (id : string) (sinkErr : option NodeError)
| NContextDone (id : string) (err : NodeError)
| NLeave (id : string)
| NReadError
| NCloseBegin (order : list string)
| NCloseSend
| NCloseEnd.

Inductive conn_step : NodeConn -> conn_label -> NodeConn -> Prop :=
| cs_start c id sender :
    nc_closing c = None -> nc_calls c !! id = None -> conn_step c (NStart id sender) (startCall id sender c)
| cs_written c id err q :
    call_at id Writing c q -> conn_step c (NWritten id err) (c <| nc_calls ::= alter (written err) id |>)
| cs_read c msg :
    nc_reader c = Reading -> nc_closing c = None -> conn_step c (NRead msg) (lookupCall msg c)
| cs_delivered c id msg :
    nc_reader c = Delivering id msg -> has_room id c ->
    conn_step c NDelivered ((push id msg c) <| nc_reader := Reading |>)
| cs_receive c id sinkErr q msg rest :
    call_at id Waiting c q -> rq_buffer q = msg :: rest ->
    conn_step c (NReceive id sinkErr) (c <| nc_calls ::= alter (receive sinkErr msg rest) id |>)
| cs_context c id err q :
    call_at id Waiting c q ->
    conn_step c (NContextDone id err) (c <| nc_calls ::= alter (fun q => q <| rq_phase := Leaving (Err err) |>) id |>)
| cs_leave c id r q :
    nc_closing c = None -> call_at id (Leaving r) c q -> conn_step c (NLeave id) (leaveCall id r c)
| cs_read_error c :
    nc_reader c = Reading -> conn_step c NReadError (c <| nc_reader := ReaderDone |>)
| cs_close_begin c order :
    nc_closing c = None -> order ≡ₚ elements (nc_pending c) ->
    conn_step c (NCloseBegin order) (c <| nc_closing := Some order |>)
| cs_close_send c id rest :
    nc_closing c = Some (id :: rest) -> has_room id c ->
    conn_step c NCloseSend ((push id (disconnected id) c) <| nc_closing := Some rest |>)
| cs_close_end c :
    nc_closing c = Some [] -> conn_step c NCloseEnd (c <| nc_pending := ∅ |> <| nc_closing := None |>).

(** What goroutines can make of a new connection. *)
Definition conn_reach (c : NodeConn) : Prop := exists tr, steps conn_step newNodeConn tr c.

(** ** What a call has seen *)

(** [queue] is [sent] with disconnect messages of [Close] calls in between. *)
Inductive padded (id : string) : list Envelope -> list Envelope -> Prop :=
| pad_nil : padded id [] []
| pad_msg sent queue m : padded id sent queue -> padded id (sent ++ [m]) (queue ++ [m])
| pad_close sent queue : padded id sent queue -> padded id sent (queue ++ [disconnected id]).

Lemma padded_split id sent a b : padded id sent (a ++ b) -> exists s, s `prefix_of` sent /\ padded id s a.
Proof.
  revert sent. induction b as [|m b IH] using rev_ind; intros sent H; [rewrite app_nil_r in H; by exists sent|].
  rewrite app_assoc in H. remember ((a ++ b) ++ [m]) as q eqn:Eq. destruct H as [|s q' m' H|s q' H].
  - by destruct (a ++ b).
  - apply app_inj_2 in Eq as [-> _]; [|done]. destruct (IH _ H) as (s' & Hp & Hs). exists s'. split; [|done].
    etrans; [done|]. by apply prefix_app_r.
  - apply app_inj_2 in Eq as [-> _]; [|done]. by apply IH.
Qed.

Lemma padded_pure id sent q : padded id sent q -> Forall (fun m => m <> disconnected id) q -> sent = q.
Proof.
  induction 1 as [|s q m _ IH|s q _ IH]; intros Hq; [done|..]; apply Forall_app in Hq as [Hq Hm].
  - by rewrite IH.
  - rewrite Forall_singleton in Hm. done.
Qed.

(** A message that does not end the call. *)
Definition nonterminal (sender : Sender) (m : Envelope) : Prop := snd (onMessage sender m) = None.

Lemma disconnected_terminal sender id :
  snd (onMessage sender (disconnected id)) = Some (Err {| ne_msg := "node disconnected"; ne_retryable := Some true |}).
Proof. by destruct sender. Qed.

Lemma nonterminal_not_disconnected sender id l :
  Forall (nonterminal sender) l -> Forall (fun m => m <> disconnected id) l.
Proof.
  intros H. eapply Forall_impl; [done|]. intros m Hm ->. unfold nonterminal in Hm. by rewrite disconnected_terminal in Hm.
Qed.

(** The messages received ended the call, or a write, the sink or the context did. *)
Definition result_ok (q : Call) : Prop :=
  match rq_phase q with
  | Writing | Waiting => Forall (nonterminal (rq_sender q)) (rq_seen q)
  | Leaving r | Left r =>
      (exists pre m, rq_seen q = pre ++ [m] /\ Forall (nonterminal (rq_sender q)) pre
         /\ snd (onMessage (rq_sender q) m) = Some r)
      \/ Forall (nonterminal (rq_sender q)) (rq_seen q) /\ exists e, r = Err e
  end.

Definition inflight (reader : Reader) (id : string) : list Envelope :=
  match reader with Delivering id' m => if decide (id' = id) then [m] else [] | _ => [] end.

Definition call_ok (reader : Reader) (id : string) (q : Call) : Prop :=
  Forall (fun m => env_RequestID m = id /\ deliverable m = true) (rq_sent q)
  /\ (exists s, rq_sent q = s ++ inflight reader id /\ padded id s (rq_seen q ++ rq_buffer q))
  /\ rq_output q = omap (fun m => fst (onMessage (rq_sender q) m)) (rq_seen q)
  /\ result_ok q.

Record conn_ok (c : NodeConn) : Prop := {
  co_calls : map_Forall (call_ok (nc_reader c)) (nc_calls c);
  co_pending : forall id, id ∈ nc_pending c -> is_Some (nc_calls c !! id);
  co_reader : forall id m, nc_reader c = Delivering id m -> is_Some (nc_calls c !! id);
}.

(** Changing one call keeps the others, and every entry an entry. *)
Lemma conn_ok_alter c id f :
  conn_ok c -> (forall q, nc_calls c !! id = Some q -> call_ok (nc_reader c) id q -> call_ok (nc_reader c) id (f q)) ->
  conn_ok (c <| nc_calls ::= alter f id |>).
Proof.
  intros [Hc Hp Hr] Hf. split; simpl.
  - intros k q. destruct (decide (k = id)) as [->|Hne].
    + rewrite lookup_alter_eq. intros (q0 & Hq0 & ->)%fmap_Some. apply Hf; [done|]. by apply Hc.
    + rewrite lookup_alter_ne by done. apply Hc.
  - intros k Hk. apply lookup_alter_is_Some. by apply Hp.
  - intros k m Hk. apply lookup_alter_is_Some. by eapply Hr.
Qed.

Lemma onMessage_one sender m : fst (onMessage sender m) = None \/ snd (onMessage sender m) = None.
Proof.
  destruct sender; simpl; unfold onInferMessage, onEmbedMessage; repeat case_goal; simpl; auto.
Qed.

Lemma receive_ok reader id sinkErr msg rest q :
  rq_phase q = Waiting -> rq_buffer q = msg :: rest -> call_ok reader id q -> call_ok reader id (receive sinkErr msg rest q).
Proof.
  intros Hph Hb (Hs & (s & Hsent & Hpad) & Ho & Hr). unfold result_ok in Hr. rewrite Hph in Hr.
  assert (Hpad' : padded id s ((rq_seen q ++ [msg]) ++ rest)) by (rewrite <- app_assoc; simpl; by rewrite <- Hb).
  pose proof (onMessage_one (rq_sender q) msg) as Hone. unfold receive.
  destruct (onMessage (rq_sender q) msg) as [chunk result] eqn:E. simpl in Hone.
  assert (Hout : omap (fun m => fst (onMessage (rq_sender q) m)) (rq_seen q ++ [msg])
    = rq_output q ++ match chunk with Some o => [o] | None => [] end)
    by (rewrite omap_app, Ho; simpl; rewrite E; by destruct chunk).
  destruct chunk as [content|].
  - destruct Hone as [Hone|Hone]; [done|]. subst result.
    assert (Hall : Forall (nonterminal (rq_sender q)) (rq_seen q ++ [msg]))
      by (apply Forall_app_2; [done|apply Forall_singleton; unfold nonterminal; by rewrite E]).
    destruct sinkErr as [e|]; split_and!; simpl; try done; try (by exists s); unfold result_ok; simpl.
    + right. eauto.
    + by rewrite Hph.
  - rewrite app_nil_r in Hout. destruct result as [r|]; split_and!; simpl; try done; try (by exists s); unfold result_ok; simpl.
    + left. exists (rq_seen q), msg. by rewrite E.
    + rewrite Hph. apply Forall_app_2; [done|]. apply Forall_singleton. unfold nonterminal. by rewrite E.
Qed.

Lemma start_ok c id sender : conn_ok c -> nc_calls c !! id = None -> conn_ok (startCall id sender c).
Proof.
  intros [Hc Hp Hr] Hnew. split; simpl.
  - apply map_Forall_insert_2; [|done]. split_and!; simpl; try done; [|constructor].
    exists []. split; [|constructor]. unfold inflight. destruct (nc_reader c) as [|id' m|] eqn:Er; [done| |done].
    destruct (decide (id' = id)) as [->|]; [|done]. destruct (Hr id m eq_refl) as [? ?]. congruence.
  - intros k. destruct (decide (k = id)) as [->|]; [rewrite lookup_insert_eq; eauto|rewrite lookup_insert_ne by done].
    intros [?%elem_of_singleton|?]%elem_of_union; [done|by apply Hp].
  - intros k m Hk. destruct (decide (k = id)) as [->|]; [rewrite lookup_insert_eq; eauto|rewrite lookup_insert_ne by done].
    by eapply Hr.
Qed.

Lemma read_ok c msg : conn_ok c -> nc_reader c = Reading -> conn_ok (lookupCall msg c).
Proof.
  intros Hok Hrd. pose proof Hok as [Hc Hp Hr]. unfold lookupCall. destruct (deliverable msg) eqn:Ed; [simpl|done].
  case_bool_decide as Hin; [|done]. set (id := env_RequestID msg) in *. split; simpl.
  - intros k q. destruct (decide (k = id)) as [->|Hne].
    + rewrite lookup_alter_eq. intros (q0 & Hq0 & ->)%fmap_Some. destruct (Hc _ _ Hq0) as (H1 & (s & H2 & H2') & H3 & H4).
      rewrite Hrd in H2. simpl in H2. rewrite app_nil_r in H2. split_and!; simpl; try done.
      * apply Forall_app_2; [done|]. by apply Forall_singleton.
      * exists s. by rewrite decide_True, H2 by done.
    + rewrite lookup_alter_ne by done. intros Hq. destruct (Hc _ _ Hq) as (H1 & (s & H2 & H2') & H3 & H4).
      rewrite Hrd in H2. split_and!; try done. exists s. simpl. by rewrite decide_False by congruence.
  - intros k Hk. apply lookup_alter_is_Some. by apply Hp.
  - intros k m [= <- <-]. apply lookup_alter_is_Some. by apply Hp.
Qed.

Lemma delivered_ok c id msg :
  conn_ok c -> nc_reader c = Delivering id msg -> conn_ok ((push id msg c) <| nc_reader := Reading |>).
Proof.
  intros [Hc Hp Hr] Hrd. split; simpl; [|intros k Hk; apply lookup_alter_is_Some; by apply Hp|done].
  intros k q'. destruct (decide (k = id)) as [->|Hne].
  - rewrite lookup_alter_eq. intros (q & Hq & ->)%fmap_Some. destruct (Hc _ _ Hq) as (H1 & (s & H2 & H2') & H3 & H4).
    rewrite Hrd in H2. simpl in H2. rewrite decide_True in H2 by done. split_and!; simpl; try done.
    exists (s ++ [msg]). rewrite app_nil_r. split; [done|]. rewrite app_assoc. by constructor.
  - rewrite lookup_alter_ne by done. intros Hq'. destruct (Hc _ _ Hq') as (H1 & (s & H2 & H2') & H3 & H4).
    rewrite Hrd in H2. simpl in H2. rewrite decide_False in H2 by congruence. split_and!; try done. by exists s.
Qed.

Lemma conn_step_ok c l c' : conn_ok c -> conn_step c l c' -> conn_ok c'.
Proof.
  intros Hok. pose proof Hok as [Hc Hp Hr]. destruct 1 as [c id sender Hcl Hnew|c id err q [Hq Hph]|c msg Hrd Hcl
    |c id msg Hrd Hroom|c id sinkErr q msg rest [Hq Hph] Hb|c id err q [Hq Hph]|c id r q Hcl [Hq Hph]|c Hrd
    |c order Hcl Hperm|c id rest Hcl Hroom|c Hcl].
  - by apply start_ok.
  - apply conn_ok_alter; [done|]. intros q' Hq' (H1 & H2 & H3 & H4). assert (q' = q) as -> by congruence.
    split_and!; try done. unfold result_ok in *. rewrite Hph in H4. unfold written. destruct err; simpl; [right; eauto|done].
  - by apply read_ok.
  - by apply delivered_ok.
  - apply conn_ok_alter; [done|]. intros q' Hq' Hcall. assert (q' = q) as -> by congruence. by apply receive_ok.
  - apply conn_ok_alter; [done|]. intros q' Hq' (H1 & H2 & H3 & H4). assert (q' = q) as -> by congruence.
    split_and!; try done. unfold result_ok in *. rewrite Hph in H4. simpl. right. eauto.
  - destruct (conn_ok_alter c id (fun q => q <| rq_phase := Left r |>) Hok) as [G1 G2 G3].
    { intros q' Hq' (H1 & H2 & H3 & H4). assert (q' = q) as -> by congruence. split_and!; try done.
      unfold result_ok in *. by rewrite Hph in H4. }
    split; simpl; [done| |done]. intros k Hk. apply G2. set_solver.
  - split; simpl; [|done|done]. intros k q Hq. destruct (Hc _ _ Hq) as (H1 & H2 & H3 & H4). rewrite Hrd in H2. done.
  - by split.
  - destruct (conn_ok_alter c id (fun q => q <| rq_buffer ::= fun b => b ++ [disconnected id] |>) Hok) as [G1 G2 G3]; [|by split].
    intros q' Hq' (H1 & (s & H2 & H2') & H3 & H4). split_and!; try done. exists s. split; [done|]. simpl.
    rewrite app_assoc. by constructor.
  - split; simpl; [done|set_solver|done].
Qed.

Lemma conn_reach_ok c : conn_reach c -> conn_ok c.
Proof.
  intros [tr H]. eapply (steps_invariant conn_step conn_ok); [|intros ? ? ?; apply conn_step_ok|done].
  split; simpl; [by apply map_Forall_empty|set_solver|done].
Qed.

(** The messages from the node among those a call received. *)
Lemma seen_prefix id q sent :
  padded id sent (rq_seen q) -> result_ok q ->
  exists got, got `prefix_of` sent /\ (rq_seen q = got \/ rq_seen q = got ++ [disconnected id])
    /\ (forall a, rq_phase q = Leaving (Ok a) \/ rq_phase q = Left (Ok a) -> rq_seen q = got).
Proof.
  intros Hpad Hr. assert (Hnon : Forall (nonterminal (rq_sender q)) (rq_seen q) -> sent = rq_seen q).
  { intros H. eapply padded_pure; [done|]. by eapply nonterminal_not_disconnected. }
  assert (Hcase : Forall (nonterminal (rq_sender q)) (rq_seen q) \/ exists pre m r, rq_seen q = pre ++ [m]
    /\ Forall (nonterminal (rq_sender q)) pre /\ snd (onMessage (rq_sender q) m) = Some r
    /\ (rq_phase q = Leaving r \/ rq_phase q = Left r)).
  { unfold result_ok in Hr. destruct (rq_phase q); [by left|by left|..]; destruct Hr as [(pre & m & ? & ? & ?)|[? _]];
      (by left) || (right; exists pre, m, r; auto). }
  destruct Hcase as [Hall|(pre & m & r & Hs & Hpre & Hm & Hph)].
  { exists (rq_seen q). rewrite (Hnon Hall). auto. }
  rewrite Hs in Hpad |- *. remember (pre ++ [m]) as queue eqn:Eq. destruct Hpad as [|s q' m' Hpad|s q' Hpad].
  - by destruct pre.
  - apply app_inj_2 in Eq as [-> [= ->]]; [|done]. exists (pre ++ [m]).
    rewrite (padded_pure _ _ _ Hpad) by (by eapply nonterminal_not_disconnected). auto.
  - apply app_inj_2 in Eq as [-> [= <-]]; [|done]. exists pre.
    rewrite (padded_pure _ _ _ Hpad) by (by eapply nonterminal_not_disconnected). split; [done|]. split; [by right|].
    rewrite disconnected_terminal in Hm. injection Hm as <-. intros a. destruct Hph as [->| ->]; intros [?|?]; discriminate.
Qed.

(** What a call received from the node, and that it succeeds only with the node's answer. *)
Lemma call_received c id q :
  conn_reach c -> nc_calls c !! id = Some q ->
  exists got, got `prefix_of` rq_sent q
       /\ (rq_seen q = got \/ rq_seen q = got ++ [disconnected id])
       /\ (forall a, rq_phase q = Leaving (Ok a) \/ rq_phase q = Left (Ok a) ->
             exists pre m, rq_seen q = got /\ got = pre ++ [m] /\ snd (onMessage (rq_sender q) m) = Some (Ok a)
               /\ Forall (nonterminal (rq_sender q)) pre).
Proof.
  intros Hr%conn_reach_ok Hq. destruct (co_calls _ Hr _ _ Hq) as (H1 & (s & H2 & Hpad) & H3 & H4).
  apply padded_split in Hpad as (s' & Hps & Hpad). destruct (seen_prefix id q s' Hpad H4) as (got & Hg & Hcase & Hok).
  exists got. split; [|split; [done|]].
  - etrans; [done|]. etrans; [done|]. rewrite H2. by apply prefix_app_r.
  - intros a Ha. rewrite <- (Hok a Ha). unfold result_ok in H4.
    destruct Ha as [Ha|Ha]; rewrite Ha in H4; destruct H4 as [(pre & m & ? & ? & ?)|[_ [e ?]]]; eauto 6; discriminate.
Qed.

(** ** What the node sent, from the trace alone *)

(** While the entry of a request is registered, from its start until the request leaves or a [Close] clears
    the map, the chunks, answers and errors the reader reads with its id are the messages sent to it. *)
Definition log_step (id : string) (st : bool * list Envelope) (l : conn_label) : bool * list Envelope :=
  match l with
  | NStart id' _ => if decide (id' = id) then (true, []) else st
  | NLeave id' => if decide (id' = id) then (false, snd st) else st
  | NCloseEnd => (false, snd st)
  | NRead msg =>
      if fst st && bool_decide (env_RequestID msg = id /\ env_Type msg ∈ ["chunk"; "done"; "embeddings"; "error"])
      then (fst st, snd st ++ [msg]) else st
  | _ => st
  end.

Definition message_log (id : string) (tr : list conn_label) : bool * list Envelope := fold_left (log_step id) tr (false, []).

Definition sent_to (id : string) (tr : list conn_label) : list Envelope := snd (message_log id tr).

(** The write of the request, the sink or the context failed with this error. *)
Definition failed_with (id : string) (tr : list conn_label) (e : NodeError) : Prop :=
  NWritten id (Some e) ∈ tr \/ NReceive id (Some e) ∈ tr \/ NContextDone id e ∈ tr.

Definition end_ok (tr : list conn_label) (id : string) (q : Call) : Prop :=
  match rq_phase q with
  | Writing | Waiting => True
  | Leaving r | Left r =>
      (exists pre m, rq_seen q = pre ++ [m] /\ snd (onMessage (rq_sender q) m) = Some r)
      \/ exists e, r = Err e /\ failed_with id tr e
  end.

(** The entries are those the trace leaves open, and the calls were sent what the trace shows. *)
Record traced (tr : list conn_label) (c : NodeConn) : Prop := {
  td_open : forall id, id ∈ nc_pending c <-> fst (message_log id tr) = true;
  td_sent : forall id q, nc_calls c !! id = Some q -> rq_sent q = sent_to id tr;
  td_end : forall id q, nc_calls c !! id = Some q -> end_ok tr id q;
}.

Lemma message_log_snoc id tr l : message_log id (tr ++ [l]) = log_step id (message_log id tr) l.
Proof. unfold message_log. by rewrite fold_left_app. Qed.

Lemma end_ok_mono tr l id q : end_ok tr id q -> end_ok (tr ++ [l]) id q.
Proof.
  unfold end_ok, failed_with. destruct (rq_phase q); try done; (intros [?|(e & He & Hf)]; [by left|right; exists e; split; [done|]]);
    rewrite !elem_of_app; tauto.
Qed.

(** A step that keeps the map of entries, changes at most one call, and sends nothing. *)
Lemma traced_alter tr l c c' id f :
  traced tr c -> (forall k, log_step k (message_log k tr) l = message_log k tr) ->
  nc_pending c' = nc_pending c -> nc_calls c' = alter f id (nc_calls c) ->
  (forall q, nc_calls c !! id = Some q -> rq_sent (f q) = rq_sent q /\ end_ok (tr ++ [l]) id (f q)) -> traced (tr ++ [l]) c'.
Proof.
  intros [T1 T2 T3] Hl Hp Hc Hf. constructor.
  - intros k. by rewrite Hp, message_log_snoc, Hl.
  - intros k q. unfold sent_to. rewrite Hc, message_log_snoc, Hl. destruct (decide (k = id)) as [->|Hne].
    + rewrite lookup_alter_eq. intros (q0 & Hq0 & ->)%fmap_Some. destruct (Hf _ Hq0) as [-> _]. by apply T2.
    + rewrite lookup_alter_ne by done. apply T2.
  - intros k q. rewrite Hc. destruct (decide (k = id)) as [->|Hne].
    + rewrite lookup_alter_eq. intros (q0 & Hq0 & ->)%fmap_Some. by apply (Hf _ Hq0).
    + rewrite lookup_alter_ne by done. intros Hq. by apply end_ok_mono, T3.
Qed.

Lemma traced_same tr l c c' :
  traced tr c -> (forall k, log_step k (message_log k tr) l = message_log k tr) ->
  nc_pending c' = nc_pending c -> nc_calls c' = nc_calls c -> traced (tr ++ [l]) c'.
Proof.
  intros [T1 T2 T3] Hl Hp Hc. constructor.
  - intros k. by rewrite Hp, message_log_snoc, Hl.
  - intros k q. unfold sent_to. rewrite Hc, message_log_snoc, Hl. apply T2.
  - intros k q. rewrite Hc. intros Hq. by apply end_ok_mono, T3.
Qed.

Lemma deliverable_types msg : deliverable msg = true <-> env_Type msg ∈ ["chunk"; "done"; "embeddings"; "error"].
Proof.
  unfold deliverable. rewrite !orb_true_iff, !str_eqb_true, !elem_of_cons, elem_of_nil. tauto.
Qed.

(** The look-up finds exactly the entries the trace leaves open. *)
Lemma traced_read tr c msg : traced tr c -> traced (tr ++ [NRead msg]) (lookupCall msg c).
Proof.
  intros [T1 T2 T3]. set (id := env_RequestID msg).
  assert (Hlog : forall k, log_step k (message_log k tr) (NRead msg)
    = if decide (k = id /\ deliverable msg = true /\ id ∈ nc_pending c)
      then (fst (message_log k tr), snd (message_log k tr) ++ [msg]) else message_log k tr).
  { intros k. simpl. destruct (decide (k = id /\ _)) as [Hd|Hd].
    - destruct Hd as (-> & Hdel%deliverable_types & Hin%T1). by rewrite Hin, bool_decide_eq_true_2.
    - destruct (fst (message_log k tr)) eqn:Ef; [|done]. rewrite bool_decide_eq_false_2; [done|]. intros [Hk Hty].
      apply Hd. subst k. fold id in Ef. split; [done|]. split; [by apply deliverable_types|by apply T1]. }
  unfold lookupCall. fold id. destruct (deliverable msg && bool_decide (id ∈ nc_pending c)) eqn:E; simpl.
  - apply andb_true_iff in E as [Ed Ei]. apply bool_decide_eq_true in Ei. constructor; simpl.
    + intros k. rewrite message_log_snoc, Hlog. destruct (decide _); simpl; apply T1.
    + intros k q. unfold sent_to. rewrite message_log_snoc, Hlog. destruct (decide (k = id)) as [->|Hne].
      * rewrite lookup_alter_eq, decide_True by done. intros (q0 & Hq0 & ->)%fmap_Some. simpl. by rewrite (T2 _ _ Hq0).
      * rewrite lookup_alter_ne, decide_False by (done || by intros (? & _)). apply T2.
    + intros k q. destruct (decide (k = id)) as [->|Hne].
      * rewrite lookup_alter_eq. intros (q0 & Hq0 & ->)%fmap_Some. apply end_ok_mono. exact (T3 _ _ Hq0).
      * rewrite lookup_alter_ne by done. intros Hq. by apply end_ok_mono, T3.
  - apply (traced_same tr _ c); [by constructor| |done|done]. intros k. rewrite Hlog, decide_False; [done|].
    intros (_ & Hd & Hi). rewrite Hd, bool_decide_eq_true_2 in E by done. done.
Qed.

Lemma traced_start tr c id sender : traced tr c -> nc_calls c !! id = None -> traced (tr ++ [NStart id sender]) (startCall id sender c).
Proof.
  intros [T1 T2 T3] Hnew. constructor; simpl.
  - intros k. rewrite message_log_snoc, elem_of_union, elem_of_singleton. simpl. case_decide as Hd; [subst; naive_solver|].
    rewrite <- T1. naive_solver.
  - intros k q. unfold sent_to. rewrite message_log_snoc. simpl. case_decide as Hd; [subst k|].
    + rewrite lookup_insert_eq. by intros [= <-].
    + rewrite lookup_insert_ne by done. apply T2.
  - intros k q. destruct (decide (id = k)) as [<-|Hne]; [rewrite lookup_insert_eq; by intros [= <-]|].
    rewrite lookup_insert_ne by done. intros Hq. by apply end_ok_mono, T3.
Qed.

Lemma traced_leave tr c id r q :
  traced tr c -> call_at id (Leaving r) c q -> traced (tr ++ [NLeave id]) (leaveCall id r c).
Proof.
  intros [T1 T2 T3] [Hq Hph]. constructor; simpl.
  - intros k. rewrite message_log_snoc, elem_of_difference, elem_of_singleton. simpl. case_decide as Hd; [subst; naive_solver|].
    rewrite <- T1. naive_solver.
  - intros k q'. unfold sent_to. rewrite message_log_snoc. destruct (decide (id = k)) as [<-|Hne].
    + rewrite lookup_alter_eq, Hq. simpl. rewrite decide_True by done. intros [= <-]. simpl. by apply T2.
    + rewrite lookup_alter_ne by done. simpl. rewrite decide_False by done. apply T2.
  - intros k q'. destruct (decide (id = k)) as [<-|Hne].
    + rewrite lookup_alter_eq, Hq. simpl. intros [= <-]. apply end_ok_mono. specialize (T3 _ _ Hq). unfold end_ok in *.
      rewrite Hph in T3. exact T3.
    + rewrite lookup_alter_ne by done. intros Hq'. by apply end_ok_mono, T3.
Qed.

Lemma failed_last id tr e l :
  l = NWritten id (Some e) \/ l = NReceive id (Some e) \/ l = NContextDone id e -> failed_with id (tr ++ [l]) e.
Proof. unfold failed_with. rewrite !elem_of_app, !list_elem_of_singleton. naive_solver. Qed.

Lemma receive_end tr id sinkErr msg rest q :
  rq_phase q = Waiting -> end_ok (tr ++ [NReceive id sinkErr]) id (receive sinkErr msg rest q).
Proof.
  intros Hph. unfold receive. destruct (onMessage (rq_sender q) msg) as [chunk result] eqn:E.
  destruct chunk as [content|]; [destruct sinkErr as [e|]|destruct result as [r|]]; unfold end_ok; simpl; try by rewrite Hph.
  - right. exists e. split; [done|]. apply failed_last. auto.
  - left. exists (rq_seen q), msg. by rewrite E.
Qed.

Lemma receive_sent sinkErr msg rest q : rq_sent (receive sinkErr msg rest q) = rq_sent q.
Proof. unfold receive. destruct (onMessage _ _) as [[?|] [?|]], sinkErr; done. Qed.

Lemma conn_step_traced tr c l c' : traced tr c -> conn_step c l c' -> traced (tr ++ [l]) c'.
Proof.
  intros Ht. destruct 1 as [c id sender Hcl Hnew|c id err q [Hq Hph]|c msg Hrd Hcl
    |c id msg Hrd Hroom|c id sinkErr q msg rest [Hq Hph] Hb|c id err q [Hq Hph]|c id r q Hcl [Hq Hph]|c Hrd
    |c order Hcl Hperm|c id rest Hcl Hroom|c Hcl].
  - by apply traced_start.
  - eapply (traced_alter tr _ c); [done|done|done|reflexivity|]. intros q' _. split; [done|]. unfold end_ok, written.
    destruct err as [e|]; simpl; [|done]. right. exists e. split; [done|]. apply failed_last. auto.
  - by apply traced_read.
  - eapply (traced_alter tr _ c); [done|done|done|reflexivity|]. intros q Hq. split; [done|]. apply end_ok_mono. exact (td_end _ _ Ht _ _ Hq).
  - eapply (traced_alter tr _ c); [done|done|done|reflexivity|]. intros q' Hq'. assert (q' = q) as -> by congruence.
    split; [by apply receive_sent|by apply receive_end].
  - eapply (traced_alter tr _ c); [done|done|done|reflexivity|]. intros q' _. split; [done|]. unfold end_ok. simpl.
    right. exists err. split; [done|]. apply failed_last. auto.
  - by eapply traced_leave.
  - by apply (traced_same tr _ c).
  - by apply (traced_same tr _ c).
  - eapply (traced_alter tr _ c); [done|done|done|reflexivity|]. intros q Hq. split; [done|]. apply end_ok_mono. exact (td_end _ _ Ht _ _ Hq).
  - destruct Ht as [T1 T2 T3]. constructor; simpl.
    + intros k. rewrite message_log_snoc. simpl. set_solver.
    + intros k q Hq. unfold sent_to. rewrite message_log_snoc. simpl. by apply T2.
    + intros k q Hq. by apply end_ok_mono, T3.
Qed.

Lemma conn_traced tr c : steps conn_step newNodeConn tr c -> traced tr c.
Proof.
  remember newNodeConn as c0 eqn:E0. induction 1 as [c0|c0 tr c1 l c2 _ IH Hs]; subst.
  - constructor; simpl; [|done|done]. intros id. set_solver.
  - eapply conn_step_traced; [by apply IH|done].
Qed.

(** C11: however the goroutines of a connection interleave, every message the node
    sends for a request while it is registered is, in order and exactly once, received by its call, in
    its channel, or in the reader's hands, and the call gets nothing else but "node disconnected" messages of [Close]
    calls, at most one of which it receives, last.  Its output is the chunks among what it received.  A call that
    has not ended has received no message that ends it; one that has ended did so with the result of
    the last message it received, an answer, an error or the disconnection, or else with the error of its write,
    its sink or its context; and it succeeds only with an answer the node sent. *)
Theorem node_stream_faithful tr c id q :
  steps conn_step newNodeConn tr c -> nc_calls c !! id = Some q ->
  (exists queued, sent_to id tr = queued ++ inflight (nc_reader c) id /\ padded id queued (rq_seen q ++ rq_buffer q))
  /\ rq_output q = omap (fun m => fst (onMessage (rq_sender q) m)) (rq_seen q)
  /\ exists got, got `prefix_of` sent_to id tr
       /\ (rq_seen q = got \/ rq_seen q = got ++ [disconnected id])
       /\ match rq_phase q with
          | Writing | Waiting => Forall (nonterminal (rq_sender q)) (rq_seen q)
          | Leaving r | Left r =>
              (exists pre m, rq_seen q = pre ++ [m] /\ Forall (nonterminal (rq_sender q)) pre
                 /\ snd (onMessage (rq_sender q) m) = Some r /\ (is_ok r = true -> m ∈ got))
              \/ Forall (nonterminal (rq_sender q)) (rq_seen q) /\ exists e, r = Err e /\ failed_with id tr e
          end.
Proof.
  intros Hs Hq. assert (Hr : conn_reach c) by (by exists tr). pose proof (conn_traced _ _ Hs) as [_ T2 T3].
  specialize (T2 _ _ Hq). specialize (T3 _ _ Hq).
  destruct (co_calls _ (conn_reach_ok _ Hr) _ _ Hq) as (_ & H2 & H3 & H4). rewrite <- T2.
  split; [done|]. split; [done|]. destruct (call_received _ _ _ Hr Hq) as (got & Hg & Hcase & Hok).
  exists got. split; [done|]. split; [done|].
  assert (Hend : forall r, rq_phase q = Leaving r \/ rq_phase q = Left r ->
    (exists pre m, rq_seen q = pre ++ [m] /\ Forall (nonterminal (rq_sender q)) pre
       /\ snd (onMessage (rq_sender q) m) = Some r /\ (is_ok r = true -> m ∈ got))
    \/ Forall (nonterminal (rq_sender q)) (rq_seen q) /\ exists e, r = Err e /\ failed_with id tr e).
  { intros r Hph. unfold result_ok, end_ok in H4, T3.
    assert (H4' : (exists pre m, rq_seen q = pre ++ [m] /\ Forall (nonterminal (rq_sender q)) pre
         /\ snd (onMessage (rq_sender q) m) = Some r)
      \/ Forall (nonterminal (rq_sender q)) (rq_seen q) /\ exists e, r = Err e) by (destruct Hph as [E|E]; by rewrite E in H4).
    assert (T3' : (exists pre m, rq_seen q = pre ++ [m] /\ snd (onMessage (rq_sender q) m) = Some r)
      \/ exists e, r = Err e /\ failed_with id tr e) by (destruct Hph as [E|E]; by rewrite E in T3).
    destruct H4' as [(pre & m & Hseen & Hpre & Hm)|[Hall _]].
    - left. exists pre, m. split_and!; try done. destruct r as [a|e]; [|done]. intros _.
      destruct (Hok a Hph) as (pre' & m' & Hsg & Hgot & _). rewrite Hseen in Hsg. rewrite <- Hsg. set_solver.
    - right. split; [done|]. destruct T3' as [(pre & m & Hseen & Hm)|?]; [|done]. rewrite Hseen in Hall.
      apply Forall_app in Hall as [_ Hall]. rewrite Forall_singleton in Hall. unfold nonterminal in Hall. congruence. }
  unfold result_ok in H4. destruct (rq_phase q) eqn:Hph; [done|done|apply Hend; auto..].
Qed.

(** ** Runs *)

Definition demo_chunk : Envelope :=
  empty_Envelope <| env_Type := "chunk" |> <| env_RequestID := "r" |> <| env_Chunk := Some {| ic_Content := "a" |} |>.
Definition demo_finish : Envelope := empty_Envelope <| env_Type := "done" |> <| env_RequestID := "r" |>.

(** One running request, [n] chunks in its buffer, everybody else idle. *)
Definition filled (n : nat) : NodeConn :=
  {| nc_pending := {["r"]};
     nc_calls := {["r" := {| rq_sender := Inference; rq_phase := Waiting; rq_buffer := replicate n demo_chunk;
                             rq_output := []; rq_sent := replicate n demo_chunk; rq_seen := [] |}]};
     nc_reader := Reading; nc_closing := None |}.

Lemma filled_start : steps conn_step newNodeConn [NStart "r" Inference; NWritten "r" None] (filled 0).
Proof.
  apply (steps_snoc _ _ [NStart "r" Inference] (startCall "r" Inference newNodeConn)).
  - apply (steps_snoc _ _ [] newNodeConn); [constructor|]. by constructor.
  - replace (filled 0) with ((startCall "r" Inference newNodeConn) <| nc_calls ::= alter (written None) "r" |>).
    + eapply cs_written. split; [by simpl; rewrite lookup_insert_eq|done].
    + unfold filled, startCall. simpl. f_equal.
Qed.

Lemma filled_step n : (n < channel_capacity)%nat -> steps conn_step (filled n) [NRead demo_chunk; NDelivered] (filled (S n)).
Proof.
  intros Hn. apply (steps_snoc _ _ [NRead demo_chunk] (lookupCall demo_chunk (filled n))).
  - apply (steps_snoc _ _ [] (filled n)); [constructor|]. by constructor.
  - assert (Hl : lookupCall demo_chunk (filled n) = (filled n) <| nc_reader := Delivering "r" demo_chunk |>
      <| nc_calls ::= alter (fun q => q <| rq_sent ::= fun l => l ++ [demo_chunk] |>) "r" |>).
    { unfold lookupCall. simpl. by rewrite bool_decide_eq_true_2 by set_solver. }
    rewrite Hl. replace (filled (S n)) with ((push "r" demo_chunk ((filled n) <| nc_reader := Delivering "r" demo_chunk |>
      <| nc_calls ::= alter (fun q => q <| rq_sent ::= fun l => l ++ [demo_chunk] |>) "r" |>)) <| nc_reader := Reading |>).
    + apply cs_delivered; [done|]. eexists. split; [simpl; by rewrite lookup_alter_eq, lookup_singleton_eq|].
      simpl. by rewrite length_replicate.
    + unfold push, filled. simpl. rewrite !alter_singleton_eq. simpl. by rewrite <- replicate_cons_app.
Qed.

Lemma filled_reach n : (n <= channel_capacity)%nat -> conn_reach (filled n).
Proof.
  induction n as [|n IH]; intros Hn.
  - eexists. apply filled_start.
  - destruct IH as [tr Htr]; [lia|]. eexists. eapply steps_app; [done|]. apply filled_step. lia.
Qed.

Lemma conn_reach_step c l c' : conn_reach c -> conn_step c l c' -> conn_reach c'.
Proof. intros [tr H] Hs. eexists. by eapply steps_snoc. Qed.

(** Two chunks are read, one of them is received. *)
Definition demo_conn : NodeConn := (filled 2) <| nc_calls ::= alter (receive None demo_chunk [demo_chunk]) "r" |>.

Definition demo_trace : list conn_label :=
  [NStart "r" Inference; NWritten "r" None; NRead demo_chunk; NDelivered; NRead demo_chunk; NDelivered; NReceive "r" None].

Lemma demo_conn_steps : steps conn_step newNodeConn demo_trace demo_conn.
Proof.
  assert (H2 : steps conn_step newNodeConn
    (([NStart "r" Inference; NWritten "r" None] ++ [NRead demo_chunk; NDelivered]) ++ [NRead demo_chunk; NDelivered]) (filled 2)).
  { eapply steps_app; [eapply steps_app; [exact filled_start|]|]; apply filled_step; unfold channel_capacity; lia. }
  apply (steps_snoc _ _ _ _ (NReceive "r" None) _ H2). eapply (cs_receive _ "r" None); [split; reflexivity|reflexivity].
Qed.

Lemma node_stream_faithful_witness :
  exists q, nc_calls demo_conn !! "r" = Some q /\ sent_to "r" demo_trace = [demo_chunk; demo_chunk]
    /\ rq_seen q = [demo_chunk] /\ rq_output q = ["a"].
Proof.
  eexists. split; [reflexivity|].
  destruct (node_stream_faithful demo_trace demo_conn "r" _ demo_conn_steps eq_refl) as (_ & Ho & _).
  split; [vm_compute; reflexivity|]. split; [reflexivity|]. exact Ho.
Defined.

(** ** A full buffer *)

(** Once a call has left its loop with a full buffer, nothing makes room in it. *)
Definition abandoned (id : string) (c : NodeConn) : Prop :=
  exists q, nc_calls c !! id = Some q /\ length (rq_buffer q) = channel_capacity
    /\ ((exists r, rq_phase q = Left r) \/ (exists r, rq_phase q = Leaving r)).

Lemma abandoned_no_room id c : abandoned id c -> ~ has_room id c.
Proof. intros (q & Hq & Hlen & _) (q' & Hq' & Hroom). assert (q' = q) as -> by congruence. lia. Qed.

Lemma abandoned_alter id k f c :
  abandoned id c -> (k = id -> forall q, nc_calls c !! id = Some q -> rq_buffer (f q) = rq_buffer q
    /\ ((exists r, rq_phase (f q) = Left r) \/ (exists r, rq_phase (f q) = Leaving r))) ->
  abandoned id (c <| nc_calls ::= alter f k |>).
Proof.
  intros (q & Hq & Hlen & Hph) Hf. destruct (decide (k = id)) as [->|Hne].
  - destruct (Hf eq_refl q Hq) as [Hb Hp]. exists (f q). simpl. rewrite lookup_alter_eq, Hq, Hb. done.
  - exists q. simpl. by rewrite lookup_alter_ne.
Qed.

Lemma abandoned_step id c l c' : abandoned id c -> conn_step c l c' -> abandoned id c'.
Proof.
  intros Ha. pose proof Ha as (q0 & Hq0 & Hlen & Hph). destruct 1 as [c k sender Hcl Hnew|c k err q [Hq Hp]|c msg Hrd Hcl
    |c k msg Hrd Hroom|c k sinkErr q msg rest [Hq Hp] Hb|c k err q [Hq Hp]|c k r q Hcl [Hq Hp]|c Hrd
    |c order Hcl Hperm|c k rest Hcl Hroom|c Hcl].
  - exists q0. simpl. rewrite lookup_insert_ne by congruence. done.
  - apply abandoned_alter; [done|]. intros -> q' Hq'. naive_solver congruence.
  - unfold lookupCall. destruct (deliverable msg && _); [|done].
    apply (abandoned_alter id (env_RequestID msg) _ (c <| nc_reader := Delivering (env_RequestID msg) msg |>)); [done|].
    intros -> q' Hq'. simpl in Hq'. split; [done|]. naive_solver congruence.
  - apply (abandoned_alter id k _ c Ha). intros ->. by destruct (abandoned_no_room _ _ Ha).
  - apply abandoned_alter; [done|]. intros -> q' Hq'. naive_solver congruence.
  - apply abandoned_alter; [done|]. intros -> q' Hq'. naive_solver congruence.
  - apply (abandoned_alter id k _ (c <| nc_pending ::= fun p => p ∖ {[k]} |>)); [done|].
    intros -> q' Hq'. split; [done|]. left. by eexists.
  - done.
  - done.
  - apply (abandoned_alter id k _ c Ha). intros ->. by destruct (abandoned_no_room _ _ Ha).
  - done.
Qed.

(** The reader stays in the channel send, and a [Close] stays in its own with the mutex held. *)
Lemma blocked_reader id msg c l c' :
  abandoned id c -> nc_reader c = Delivering id msg -> conn_step c l c' -> nc_reader c' = Delivering id msg.
Proof.
  intros Ha Hr. destruct 1; try done; simpl in *; try congruence.
  exfalso. eapply abandoned_no_room; [exact Ha|]. congruence.
Qed.

Lemma blocked_close id rest c l c' :
  abandoned id c -> nc_closing c = Some (id :: rest) -> conn_step c l c' -> nc_closing c' = Some (id :: rest).
Proof.
  intros Ha Hc. destruct 1; try done; simpl in *; try congruence.
  exfalso. eapply abandoned_no_room; [exact Ha|]. congruence.
Qed.

(** A request whose client is slow collects 128 unread messages; when its context then ends
    while the reader has a further message for it, the reader blocks in the send for
    ever: nothing from this node is read any more, heartbeats included.  In the same situation
    a [Close] that comes before the request has left blocks with the mutex held, so
    the request never returns either. *)
Theorem full_buffer_blocks :
  (exists c msg, conn_reach c /\ nc_reader c = Delivering "r" msg
     /\ forall tr c', steps conn_step c tr c' -> nc_reader c' = Delivering "r" msg)
  /\ (exists c, conn_reach c /\ nc_closing c = Some ["r"]
     /\ forall tr c', steps conn_step c tr c' -> nc_closing c' = Some ["r"]).
Proof.
  assert (Hfull : conn_reach (filled channel_capacity)) by (apply filled_reach; lia).
  set (gone := plainError "context canceled").
  set (left_ := fun q => q <| rq_phase := Leaving (Err gone) |>).
  split.
  - set (c1 := lookupCall demo_chunk (filled channel_capacity)).
    assert (Hr1 : nc_reader c1 = Delivering "r" demo_chunk) by reflexivity.
    set (c2 := c1 <| nc_calls ::= alter left_ "r" |>). set (c3 := leaveCall "r" (Err gone) c2).
    assert (H3 : conn_reach c3).
    { eapply conn_reach_step; [|eapply (cs_leave c2 "r" (Err gone)); [reflexivity|split; reflexivity]].
      eapply conn_reach_step; [|eapply (cs_context c1 "r" gone); split; reflexivity].
      eapply conn_reach_step; [exact Hfull|]. by constructor. }
    exists c3, demo_chunk. split; [done|]. split; [done|]. intros tr c' Ht.
    cut (abandoned "r" c' /\ nc_reader c' = Delivering "r" demo_chunk); [by intros [_ ?]|].
    eapply (steps_invariant conn_step (fun c => abandoned "r" c /\ nc_reader c = Delivering "r" demo_chunk)); [| |done].
    + split; [|done]. eexists. split; [reflexivity|]. split; [reflexivity|]. left. by eexists.
    + intros a l b [Ha Hr] Hs. split; [by eapply abandoned_step|by eapply blocked_reader].
  - set (c1 := (filled channel_capacity) <| nc_calls ::= alter left_ "r" |>).
    set (c2 := c1 <| nc_closing := Some ["r"] |>).
    assert (H2 : conn_reach c2).
    { eapply conn_reach_step; [|eapply (cs_close_begin c1 ["r"]); [reflexivity|]].
      - eapply conn_reach_step; [exact Hfull|]. eapply (cs_context _ "r" gone). split; reflexivity.
      - simpl. by rewrite elements_singleton. }
    exists c2. split; [done|]. split; [done|]. intros tr c' Ht.
    cut (abandoned "r" c' /\ nc_closing c' = Some ["r"]); [by intros [_ ?]|].
    eapply (steps_invariant conn_step (fun c => abandoned "r" c /\ nc_closing c = Some ["r"])); [| |done].
    + split; [|done]. eexists. split; [reflexivity|]. split; [reflexivity|]. right. by eexists.
    + intros a l b [Ha Hr] Hs. split; [by eapply abandoned_step|by eapply blocked_close].
Qed.
