(* ===== verification/Metrics.v ===== *)
(** * The metrics page: [GET /admin/metrics] in [coordinator/cmd/coordinator/main.go]

    The page is text in the Prometheus exposition format.  Node and account names come from
    outside; the theorem of this file is that they cannot forge a line: every line that is
    not a comment reads back, with a reader written from the format's rules, as exactly the
    metric name, labels and value it was written for. *)

From S2P Require Import Prelude GoString GoSort GoFloat GoFormat Json Scheduler Settlement Challenge.

(** ** Labels and lines *)

(** [src/coordinator/cmd/coordinator/main.go:380-384] prometheusLabel *)
Record prometheusLabel := { lb_Name : string; lb_Value : string; lb_OmitEmpty : bool }.

Definition backslash : ascii := byte_of 92.
Definition quote_char : ascii := byte_of 34.
Definition newline : ascii := byte_of 10.
Definition lit (c : ascii) : string := String c EmptyString.

(** [src/coordinator/cmd/coordinator/main.go:418-422] prometheusLabelEscaper (one byte) *)
Definition escape_char (c : ascii) : string :=
  if decide (c = backslash) then String backslash (lit backslash)
  else if decide (c = quote_char) then String backslash (lit quote_char)
  else if decide (c = newline) then String backslash "n"
  else lit c.

(** [src/coordinator/cmd/coordinator/main.go:424-426] escapePrometheusLabel *)
Fixpoint escapePrometheusLabel (value : string) : string :=
  match value with
  | EmptyString => EmptyString
  | String c value => escape_char c +:+ escapePrometheusLabel value
  end.

(** [src/coordinator/cmd/coordinator/main.go:397-409] prometheusLabelSet (one label) *)
Definition addLabel (b : string) (label : prometheusLabel) : string :=
  if lb_OmitEmpty label && (lb_Value label =s "") then b
  else b +:+ (if b =s "" then "{" else ",") +:+ lb_Name label +:+ "=" +:+ lit quote_char
       +:+ escapePrometheusLabel (lb_Value label) +:+ lit quote_char.

(** [src/coordinator/cmd/coordinator/main.go:395-416] prometheusLabelSet *)
Definition prometheusLabelSet (labels : list prometheusLabel) : string :=
  let b := fold_left addLabel labels "" in
  if b =s "" then "" else b +:+ "}".

(** [src/coordinator/cmd/coordinator/main.go:386-389] writePrometheusHeader (its two lines) *)
Definition writePrometheusHeader (name help metricType : string) : list string :=
  ["# HELP " +:+ name +:+ " " +:+ help; "# TYPE " +:+ name +:+ " " +:+ metricType].

(** [src/coordinator/cmd/coordinator/main.go:391-393] writePrometheusSample (its line) *)
Definition writePrometheusSample (name : string) (labels : list prometheusLabel) (value : string) : string :=
  name +:+ prometheusLabelSet labels +:+ " " +:+ value.

(** [src/coordinator/cmd/coordinator/main.go:428-436] nodePrometheusLabels *)
Definition nodePrometheusLabels (node : NodeView) : list prometheusLabel :=
  [ {| lb_Name := "node_id"; lb_Value := v_ID node; lb_OmitEmpty := false |};
    {| lb_Name := "provider_id"; lb_Value := v_ProviderID node; lb_OmitEmpty := false |};
    {| lb_Name := "backend"; lb_Value := v_Backend node; lb_OmitEmpty := true |};
    {| lb_Name := "device_kind"; lb_Value := v_DeviceKind node; lb_OmitEmpty := true |} ].

(** [src/coordinator/cmd/coordinator/main.go:438-440] providerPrometheusLabels *)
Definition providerPrometheusLabels (providerID : string) : list prometheusLabel :=
  [ {| lb_Name := "provider_id"; lb_Value := providerID; lb_OmitEmpty := false |} ].

(** [src/coordinator/cmd/coordinator/main.go:442-447] prometheusBool *)
Definition prometheusBool (value : bool) : string := if value then "1" else "0".

(** [src/coordinator/cmd/coordinator/main.go:449-451] prometheusInt *)
Definition prometheusInt (value : Z) : string := itoa value.

(** [src/coordinator/cmd/coordinator/main.go:453-455] prometheusUint *)
Definition prometheusUint (value : Z) : string := itoa value.

(** [src/coordinator/cmd/coordinator/main.go:457-459] prometheusFloat *)
Definition prometheusFloat (value : float) : string := format_float value.

(** A metric: its header and the samples written after it. *)
Record Family := { fm_Name : string; fm_Help : string; fm_Type : string; fm_Rows : list (list prometheusLabel * string) }.

Definition family (name help metricType : string) (rows : list (list prometheusLabel * string)) : Family :=
  {| fm_Name := name; fm_Help := help; fm_Type := metricType; fm_Rows := rows |}.

Definition family_lines (f : Family) : list string :=
  writePrometheusHeader (fm_Name f) (fm_Help f) (fm_Type f)
  ++ ((fun r => writePrometheusSample (fm_Name f) r.1 r.2) <$> fm_Rows f).

(** [src/coordinator/cmd/coordinator/main.go:260-378] adminMetrics (what it writes, in order) *)
Definition metricFamilies (status : NetworkStatus) (nodes : list NodeView) (ledger : LedgerSnapshot)
    (challenges : ChallengeSnapshot) : list Family :=
  let nodes := sort_by v_ID nodes in
  let providerBalances := sort_by b_AccountID (ls_ProviderBalances ledger) in
  let providerChallenges := sort_by ps_ProviderID (cs_Summaries challenges) in
  [
    family "mi_nodes" "Registered nodes." "gauge"
      [([], prometheusInt (ns_Nodes status))];
    family "mi_healthy_nodes" "Healthy nodes available for routing." "gauge"
      [([], prometheusInt (ns_HealthyNodes status))];
    family "mi_cooldown_nodes" "Nodes currently in cooldown." "gauge"
      [([], prometheusInt (ns_CooldownNodes status))];
    family "mi_active_requests" "Active inference requests across healthy nodes." "gauge"
      [([], prometheusInt (ns_ActiveRequests status))];
    family "mi_available_slots" "Available request slots across healthy nodes." "gauge"
      [([], prometheusInt (ns_AvailableSlots status))];
    family "mi_max_concurrent" "Maximum concurrent request capacity across healthy nodes." "gauge"
      [([], prometheusInt (ns_MaxConcurrent status))];
    family "mi_total_memory_free_mb" "Total free memory advertised by healthy nodes in megabytes." "gauge"
      [([], prometheusUint (ns_TotalMemoryFreeMB status))];
    family "mi_average_latency_ms" "Average observed latency across healthy nodes in milliseconds." "gauge"
      [([], prometheusInt (ns_AverageLatencyMs status))];
    family "mi_average_ttft_ms" "Average observed time to first token across healthy nodes in milliseconds." "gauge"
      [([], prometheusInt (ns_AverageTTFTMs status))];
    family "mi_average_tokens_per_second" "Average observed output tokens per second across healthy nodes." "gauge"
      [([], prometheusFloat (ns_AverageTokensPerSecond status))];
    family "mi_node_healthy" "Node health state, 1 for healthy and 0 for unhealthy." "gauge"
      ((fun node => (nodePrometheusLabels node, prometheusBool (v_Healthy node))) <$> nodes);
    family "mi_node_active" "Active requests on the node." "gauge"
      ((fun node => (nodePrometheusLabels node, prometheusInt (v_Active node))) <$> nodes);
    family "mi_node_max_concurrent" "Maximum concurrent requests accepted by the node." "gauge"
      ((fun node => (nodePrometheusLabels node, prometheusInt (v_MaxConcurrent node))) <$> nodes);
    family "mi_node_completed_requests_total" "Completed requests observed for the node." "counter"
      ((fun node => (nodePrometheusLabels node, prometheusInt (v_CompletedRequests node))) <$> nodes);
    family "mi_node_failed_requests_total" "Failed requests observed for the node." "counter"
      ((fun node => (nodePrometheusLabels node, prometheusInt (v_FailedRequests node))) <$> nodes);
    family "mi_node_observed_latency_ms" "Node observed latency in milliseconds." "gauge"
      ((fun node => (nodePrometheusLabels node, prometheusInt (v_ObservedLatencyMs node))) <$> nodes);
    family "mi_node_observed_ttft_ms" "Node observed time to first token in milliseconds." "gauge"
      ((fun node => (nodePrometheusLabels node, prometheusInt (v_ObservedTTFTMs node))) <$> nodes);
    family "mi_node_observed_tokens_per_second" "Node observed output tokens per second." "gauge"
      ((fun node => (nodePrometheusLabels node, prometheusFloat (v_ObservedTokensPerSecond node))) <$> nodes);
    family "mi_node_provider_score" "Provider reputation score applied to the node." "gauge"
      ((fun node => (nodePrometheusLabels node, prometheusInt (v_ProviderScore node))) <$> nodes);
    family "mi_settlement_events_total" "Settlement events recorded by the coordinator." "counter"
      [([], prometheusInt (ls_Events ledger))];
    family "mi_provider_reward_micros" "Provider reward balance in micros." "gauge"
      ((fun balance => (providerPrometheusLabels (b_AccountID balance), prometheusInt (b_RewardMicros balance))) <$> providerBalances);
    family "mi_provider_penalty_micros" "Provider penalty balance in micros." "gauge"
      ((fun balance => (providerPrometheusLabels (b_AccountID balance), prometheusInt (b_PenaltyMicros balance))) <$> providerBalances);
    family "mi_provider_total_tokens" "Provider token balance from settlement accounting." "gauge"
      ((fun balance => (providerPrometheusLabels (b_AccountID balance), prometheusInt (b_TotalTokens balance))) <$> providerBalances);
    family "mi_provider_events_total" "Settlement events recorded for the provider." "counter"
      ((fun balance => (providerPrometheusLabels (b_AccountID balance), prometheusInt (b_Events balance))) <$> providerBalances);
    family "mi_provider_challenges_total" "Challenges recorded for the provider." "counter"
      ((fun summary => (providerPrometheusLabels (ps_ProviderID summary), prometheusInt (ps_Challenges summary))) <$> providerChallenges);
    family "mi_provider_challenges_passed_total" "Challenges passed by the provider." "counter"
      ((fun summary => (providerPrometheusLabels (ps_ProviderID summary), prometheusInt (ps_Passed summary))) <$> providerChallenges);
    family "mi_provider_challenges_failed_total" "Challenges failed by the provider." "counter"
      ((fun summary => (providerPrometheusLabels (ps_ProviderID summary), prometheusInt (ps_Failed summary))) <$> providerChallenges);
    family "mi_provider_challenge_pass_rate_bps" "Provider challenge pass rate in basis points." "gauge"
      ((fun summary => (providerPrometheusLabels (ps_ProviderID summary), prometheusInt (ps_PassRateBPS summary))) <$> providerChallenges)
  ].

(** [src/coordinator/cmd/coordinator/main.go:260-378] adminMetrics: its lines *)
Definition adminMetrics (status : NetworkStatus) (nodes : list NodeView) (ledger : LedgerSnapshot)
    (challenges : ChallengeSnapshot) : list string :=
  metricFamilies status nodes ledger challenges ≫= family_lines.

(** ** Reading a line *)

(** A label value up to its closing quote, and the text after it. *)
Fixpoint parse_value (s : string) : option (string * string) :=
  match s with
  | EmptyString => None
  | String c s =>
      if decide (c = quote_char) then Some (EmptyString, s)
      else if decide (c = backslash) then
        match s with
        | EmptyString => None
        | String d s => '(v, rest) ← parse_value s; Some (String (if decide (d = byte_of 110) then newline else d) v, rest)
        end
      else '(v, rest) ← parse_value s; Some (String c v, rest)
  end.

(** The text before the first character that satisfies [stop], and the text from it. *)
Fixpoint take_until (stop : ascii -> bool) (s : string) : string * string :=
  match s with
  | EmptyString => (EmptyString, EmptyString)
  | String c s' => if stop c then (EmptyString, s) else let '(a, rest) := take_until stop s' in (String c a, rest)
  end.

Definition is_char (z : Z) (c : ascii) : bool := byte_val c =? z.

(** [name=value] pairs after the opening brace, and the text after the closing one. *)
Fixpoint parse_labels (fuel : nat) (s : string) : option (list (string * string) * string) :=
  match fuel with
  | O => None
  | S n =>
      match take_until (is_char 61) s with
      | (name, String _ (String q s)) =>
          if decide (q = quote_char) then
            match parse_value s with
            | Some (v, String d rest) =>
                if is_char 125 d then Some ([(name, v)], rest)
                else if is_char 44 d then '(ls, rest) ← parse_labels n rest; Some ((name, v) :: ls, rest)
                else None
            | _ => None
            end
          else None
      | _ => None
      end
  end.

(** A sample line: its metric, its labels and its value. *)
Definition parse_sample (line : string) : option (string * list (string * string) * string) :=
  let '(name, rest) := take_until (fun c => is_char 123 c || is_char 32 c) line in
  match rest with
  | String c rest =>
      if is_char 32 c then Some (name, [], rest)
      else match parse_labels (String.length rest) rest with
           | Some (ls, String d value) => if is_char 32 d then Some (name, ls, value) else None
           | _ => None
           end
  | EmptyString => None
  end.

(** ** Reading back *)

Ltac sapp := unfold lit; autorewrite with sapp.

Fixpoint free_of (stop : ascii -> bool) (s : string) : bool :=
  match s with EmptyString => true | String c s => negb (stop c) && free_of stop s end.

Lemma take_until_app stop s c rest :
  free_of stop s = true -> stop c = true -> take_until stop (s +:+ String c rest) = (s, String c rest).
Proof.
  intros Hs Hc. induction s as [|x s IH]; [rewrite sapp_nil; simpl; by rewrite Hc|]. rewrite sapp_cons. simpl in *.
  apply andb_true_iff in Hs as [Hx Hs]. apply negb_true_iff in Hx. by rewrite Hx, (IH Hs).
Qed.

Lemma parse_value_escape v rest : parse_value (escapePrometheusLabel v +:+ String quote_char rest) = Some (v, rest).
Proof.
  induction v as [|c v IH]; [done|].
  change (escapePrometheusLabel (String c v)) with (escape_char c +:+ escapePrometheusLabel v). unfold escape_char.
  destruct (decide (c = backslash)) as [->|H1]; [sapp; simpl; by rewrite IH|].
  destruct (decide (c = quote_char)) as [->|H2]; [sapp; simpl; by rewrite IH|].
  destruct (decide (c = newline)) as [->|H3]; [sapp; simpl; by rewrite IH|].
  sapp. cbn [parse_value]. rewrite decide_False, decide_False by done. by rewrite IH.
Qed.

(** The labels a set shows, as name and value. *)
Definition shown (labels : list prometheusLabel) : list (string * string) :=
  (fun l => (lb_Name l, lb_Value l)) <$> filter (fun l => lb_OmitEmpty l && (lb_Value l =s "") = false) labels.

Definition item (l : string * string) : string :=
  l.1 +:+ "=" +:+ lit quote_char +:+ escapePrometheusLabel l.2 +:+ lit quote_char.

(** The items after the first, each behind a comma. *)
Fixpoint tail_items (ls : list (string * string)) : string :=
  match ls with [] => "" | l :: ls => "," +:+ item l +:+ tail_items ls end.

Lemma fold_addLabel labels b : b <> "" -> fold_left addLabel labels b = b +:+ tail_items (shown labels).
Proof.
  revert b. induction labels as [|l labels IH]; intros b Hb; [symmetry; apply sapp_nil_r|].
  cbn [fold_left]. unfold shown. rewrite filter_cons. unfold addLabel at 2.
  destruct (lb_OmitEmpty l && (lb_Value l =s "")) eqn:E.
  - rewrite decide_False by done. by apply IH.
  - rewrite decide_True by done. rewrite (proj2 (str_eqb_false b "")) by done.
    rewrite IH by (intros [? _]%sapp_empty; done). cbn [fmap list_fmap tail_items]. unfold item. cbn [fst snd].
    fold (shown labels). by sapp.
Qed.

Lemma prometheusLabelSet_shown labels :
  prometheusLabelSet labels =
  match shown labels with [] => "" | l :: ls => "{" +:+ item l +:+ tail_items ls +:+ "}" end.
Proof.
  induction labels as [|l labels IH]; [done|]. unfold prometheusLabelSet, shown in *. rewrite filter_cons. cbn [fold_left].
  unfold addLabel at 2 4. destruct (lb_OmitEmpty l && (lb_Value l =s "")) eqn:E.
  - rewrite decide_False by done. exact IH.
  - rewrite decide_True by done. rewrite str_eqb_refl. rewrite fold_addLabel by done. cbn [fmap list_fmap].
    rewrite (proj2 (str_eqb_false _ "")) by done. unfold item. cbn [fst snd]. fold (shown labels). by sapp.
Qed.

Definition label_name (s : string) : bool := free_of (is_char 61) s.

Lemma parse_labels_items fuel l ls rest :
  Forall (fun l => label_name l.1 = true) (l :: ls) -> (length ls < fuel)%nat ->
  parse_labels fuel (item l +:+ tail_items ls +:+ "}" +:+ rest) = Some (l :: ls, rest).
Proof.
  revert l fuel. induction ls as [|l' ls IH]; intros [n v] [|fuel] Hn Hf; try (simpl in *; lia).
  all: inversion Hn as [|? ? Hl Hn']; subst; unfold item at 1; cbn [tail_items fst snd]; sapp; cbn [parse_labels];
    rewrite take_until_app by done; cbn beta iota; rewrite decide_True by done; rewrite parse_value_escape; cbn beta iota.
  - done.
  - specialize (IH l' fuel Hn' ltac:(simpl in *; lia)). revert IH. sapp. intros IH.
    change (is_char 125 ",") with false. change (is_char 44 ",") with true. cbn beta iota. by rewrite IH.
Qed.

Lemma tail_items_length ls : (length ls <= String.length (tail_items ls))%nat.
Proof. induction ls as [|l ls IH]; [done|]. cbn [tail_items]. rewrite sapp_cons, sapp_nil. simpl. rewrite length_sapp. lia. Qed.

(** A metric's name ends before its labels or its value. *)
Definition metric_name (s : string) : bool := free_of (fun c => is_char 123 c || is_char 32 c) s.

Lemma parse_sample_write name labels value :
  metric_name name = true -> Forall (fun l => label_name (lb_Name l) = true) labels ->
  parse_sample (writePrometheusSample name labels value) = Some (name, shown labels, value).
Proof.
  intros Hname Hl. unfold writePrometheusSample, parse_sample. rewrite prometheusLabelSet_shown.
  assert (Hs : Forall (fun l => label_name l.1 = true) (shown labels)).
  { unfold shown. apply Forall_fmap. apply Forall_forall. intros l [_ Hin]%list_elem_of_filter.
    rewrite Forall_forall in Hl. by apply Hl. }
  destruct (shown labels) as [|l ls].
  - rewrite sapp_nil. change (" " +:+ value) with (String " " value). by rewrite take_until_app.
  - sapp. rewrite take_until_app by done. change (is_char 32 "{") with false. cbn iota.
    set (text := item l +:+ _). replace text with (item l +:+ tail_items ls +:+ "}" +:+ String " " value) by (subst text; by sapp).
    rewrite parse_labels_items; [done|done|].
    rewrite !length_sapp. pose proof (tail_items_length ls). simpl. lia.
Qed.

(** ** Lines stay lines *)

Definition newline_free (l : list Z) : Prop := Forall (fun b => b <> 10) l.
Definition one_line (s : string) : Prop := newline_free (bytes s).

#[export] Instance one_line_dec s : Decision (one_line s).
Proof. unfold one_line, newline_free. apply _. Defined.

Lemma one_line_app a b : one_line (a +:+ b) <-> one_line a /\ one_line b.
Proof. unfold one_line. rewrite bytes_app. apply Forall_app. Qed.

Lemma escape_one_line v : one_line (escapePrometheusLabel v).
Proof.
  induction v as [|c v IH]; [constructor|].
  change (escapePrometheusLabel (String c v)) with (escape_char c +:+ escapePrometheusLabel v).
  apply one_line_app. split; [|done]. unfold escape_char.
  destruct (decide (c = backslash)); [apply (bool_decide_unpack _); done|].
  destruct (decide (c = quote_char)); [apply (bool_decide_unpack _); done|].
  destruct (decide (c = newline)) as [|Hn]; [apply (bool_decide_unpack _); done|].
  constructor; [|constructor]. intros Hb. apply Hn. rewrite <- (byte_of_val c), Hb. done.
Qed.

Lemma printable_one_line l : printable l -> one_line (of_bytes l).
Proof.
  intros Hl. unfold one_line. induction Hl as [|b l Hb _ IH]; [constructor|]. simpl.
  constructor; [rewrite byte_val_of; lia|done].
Qed.

Lemma labels_one_line labels : Forall (fun l => one_line (lb_Name l)) labels -> one_line (prometheusLabelSet labels).
Proof.
  intros Hl. rewrite prometheusLabelSet_shown.
  assert (Hs : Forall (fun l => one_line (item l)) (shown labels)).
  { unfold shown. apply Forall_fmap, Forall_forall. intros l [_ Hin]%list_elem_of_filter. rewrite Forall_forall in Hl.
    unfold item. simpl. rewrite !one_line_app. split_and!; try (apply (bool_decide_unpack _); done);
      [by apply Hl|apply escape_one_line]. }
  destruct (shown labels) as [|l ls]; [constructor|]. inversion Hs as [|? ? Hi Hls]; subst.
  rewrite !one_line_app. split_and!; try (apply (bool_decide_unpack _); done); [done|].
  clear -Hls. induction Hls as [|l ls Hi _ IH]; [constructor|]. cbn [tail_items]. rewrite !one_line_app.
  split_and!; [apply (bool_decide_unpack _); done|done..].
Qed.

(** ** The page *)

(** A sample of a family as it stands on the page. *)
Definition row_line (f : Family) (r : list prometheusLabel * string) : string := writePrometheusSample (fm_Name f) r.1 r.2.

Definition row_ok (r : list prometheusLabel * string) : Prop :=
  Forall (fun l => label_name (lb_Name l) = true /\ one_line (lb_Name l)) r.1 /\ one_line r.2.

Definition family_ok (f : Family) : Prop :=
  metric_name (fm_Name f) = true /\ Forall one_line [fm_Name f; fm_Help f; fm_Type f] /\ Forall row_ok (fm_Rows f).

Lemma family_ok_lines f : family_ok f -> Forall one_line (family_lines f).
Proof.
  intros (_ & Hn & Hr). inversion Hn as [|? ? H1 Hn1]; subst. inversion Hn1 as [|? ? H2 Hn2]; subst.
  inversion Hn2 as [|? ? H3 _]; subst. unfold family_lines, writePrometheusHeader.
  repeat (apply Forall_cons_2; [rewrite !one_line_app; split_and!; try done; apply (bool_decide_unpack _); done|]).
  apply Forall_fmap. eapply Forall_impl; [exact Hr|]. intros [labels value] [Hl Hv]. simpl.
  unfold writePrometheusSample. rewrite !one_line_app. split_and!; [done| |apply (bool_decide_unpack _); done|done].
  apply labels_one_line. eapply Forall_impl; [exact Hl|]. naive_solver.
Qed.

Lemma node_row_ok node value : one_line value -> row_ok (nodePrometheusLabels node, value).
Proof.
  intros Hv. split; [|done]. simpl.
  repeat (apply Forall_cons_2; [split; [done|apply (bool_decide_unpack _); done]|]). constructor.
Qed.

Lemma provider_row_ok id value : one_line value -> row_ok (providerPrometheusLabels id, value).
Proof. intros Hv. split; [|done]. apply Forall_singleton. split; [done|apply (bool_decide_unpack _); done]. Qed.

Lemma plain_row_ok value : one_line value -> row_ok ([], value).
Proof. intros Hv. split; [constructor|done]. Qed.

Lemma int_one_line z : one_line (prometheusInt z).
Proof. apply printable_one_line, itoa_printable. Qed.
Lemma uint_one_line z : one_line (prometheusUint z).
Proof. apply printable_one_line, itoa_printable. Qed.
Lemma float_one_line f : one_line (prometheusFloat f).
Proof. apply printable_one_line, format_float_printable. Qed.
Lemma bool_one_line b : one_line (prometheusBool b).
Proof. apply (bool_decide_unpack _). by destruct b. Qed.

Create HintDb metrics.
#[local] Hint Resolve node_row_ok provider_row_ok plain_row_ok int_one_line uint_one_line float_one_line bool_one_line : metrics.

Lemma rows_ok {A} (f : A -> list prometheusLabel * string) l : (forall x, row_ok (f x)) -> Forall row_ok (f <$> l).
Proof. intros Hf. apply Forall_fmap, Forall_forall. intros x _. apply Hf. Qed.

Lemma metricFamilies_ok status nodes ledger challenges : Forall family_ok (metricFamilies status nodes ledger challenges).
Proof.
  unfold metricFamilies. cbv zeta.
  repeat (apply Forall_cons_2; [split; [done|]; split; [apply (bool_decide_unpack _); done|];
    first [apply rows_ok; intros ?|apply Forall_singleton]; auto with metrics|]).
  constructor.
Qed.

Lemma elem_of_page status nodes ledger challenges line :
  line ∈ adminMetrics status nodes ledger challenges <->
  exists f, f ∈ metricFamilies status nodes ledger challenges /\ line ∈ family_lines f.
Proof. unfold adminMetrics. rewrite list_elem_of_bind. naive_solver. Qed.

(** C39: every line of the metrics page is one line of text, whatever names nodes and
    accounts have; it is a comment of some metric or a sample, every sample of every metric is
    there, and it reads back as that metric's name, its labels with their original values and
    its value. *)
Theorem metrics_read_back status nodes ledger challenges :
  let families := metricFamilies status nodes ledger challenges in
  let page := adminMetrics status nodes ledger challenges in
  Forall one_line page
  /\ (forall line, line ∈ page -> exists f, f ∈ families
        /\ (line ∈ writePrometheusHeader (fm_Name f) (fm_Help f) (fm_Type f) \/ exists r, r ∈ fm_Rows f /\ line = row_line f r))
  /\ (forall f r, f ∈ families -> r ∈ fm_Rows f ->
        row_line f r ∈ page /\ parse_sample (row_line f r) = Some (fm_Name f, shown r.1, r.2)).
Proof.
  intros families page. pose proof (metricFamilies_ok status nodes ledger challenges) as Hok.
  rewrite Forall_forall in Hok. split; [|split].
  - apply Forall_forall. intros line (f & Hf & Hl)%elem_of_page. pose proof (family_ok_lines f (Hok f Hf)) as Hlines.
    rewrite Forall_forall in Hlines. by apply Hlines.
  - intros line (f & Hf & Hl)%elem_of_page. exists f. split; [done|]. unfold family_lines in Hl.
    apply elem_of_app in Hl as [Hl|Hl]; [by left|]. right. apply list_elem_of_fmap in Hl as (r & -> & Hr). by exists r.
  - intros f r Hf Hr. split.
    + apply elem_of_page. exists f. split; [done|]. unfold family_lines. apply elem_of_app. right.
      apply list_elem_of_fmap. by exists r.
    + destruct (Hok f Hf) as (Hn & _ & Hrows). rewrite Forall_forall in Hrows. destruct (Hrows r Hr) as [Hl _].
      apply parse_sample_write; [done|]. eapply Forall_impl; [exact Hl|]. naive_solver.
Qed.
