(* ===== verification/Requests.v ===== *)
(** * Reading requests: the helper functions of [coordinator/cmd/coordinator/main.go]

    What the handlers take from a request (headers, tiers, capabilities, token estimates),
    the error replies they share, and the choice of the next provider to challenge.  A
    request is its headers as [r.Header.Get] reads them, its query and the number of client
    certificates of its TLS connection. *)

From S2P Require Import Prelude GoString GoSort GoFloat GoFormat Sha256 Privacy Protocol Config Scheduler.
From S2P Require Import City.

(** ** Requests *)

Record HttpRequest := {
  hr_Header : string -> string;      (* r.Header.Get *)
  hr_Query : string -> string;       (* r.URL.Query().Get *)
  hr_PeerCertificates : option nat;  (* r.TLS, absent or with its certificates *)
}.

(** [src/coordinator/cmd/coordinator/main.go:1772-1781] bearerToken *)
Definition bearerToken (r : HttpRequest) : string :=
  let token := hr_Header r "Authorization" in
  if (7 <? slen token) && has_prefix "Bearer " token then String.substring 7 (String.length token - 7) token
  else if negb (token =s "") then token
  else hr_Header r "X-API-Key".

(** [src/coordinator/cmd/coordinator/main.go:1783-1788] consumerID; the value that [requireConsumer] put in the context. *)
Definition consumerID (value : option string) : string :=
  match value with Some value => if negb (value =s "") then value else "local" | None => "local" end.

(** [src/coordinator/cmd/coordinator/main.go:1843-1845] hasClientCertificate *)
Definition hasClientCertificate (r : HttpRequest) : bool :=
  match hr_PeerCertificates r with None => false | Some n => (0 <? n)%nat end.

(** [src/coordinator/cmd/coordinator/main.go:59-59] defaultMaxRequestBytes *)
Definition defaultMaxRequestBytes : Z := Z.shiftl 8 20.

(** [src/coordinator/cmd/coordinator/main.go:650-655] maxRequestBytesOrDefault *)
Definition maxRequestBytesOrDefault (configured : Z) : Z :=
  if 0 <? configured then configured else defaultMaxRequestBytes.

(** [src/coordinator/cmd/coordinator/main.go:668-671] idempotencyScopedKey *)
Definition idempotencyScopedKey (consumerID key : string) : string :=
  sha256_hex (bytes consumerID ++ [0] ++ bytes key).

(** [src/coordinator/cmd/coordinator/main.go:1595-1600] requestPrivacyTierValue *)
Definition requestPrivacyTierValue (r : HttpRequest) (value : string) : res TierError string :=
  let tier := hr_Header r "X-Mi-Privacy-Tier" in
  if negb (tier =s "") then NormalizeTier tier else NormalizeTier value.

(** [src/coordinator/cmd/coordinator/main.go:1587-1589] requestPrivacyTier *)
Definition requestPrivacyTier (r : HttpRequest) (req : ChatCompletionRequest) : res TierError string :=
  requestPrivacyTierValue r (cr_PrivacyTier req).

(** [src/coordinator/cmd/coordinator/main.go:1591-1593] requestEmbeddingPrivacyTier *)
Definition requestEmbeddingPrivacyTier (r : HttpRequest) (req : EmbeddingRequest) : res TierError string :=
  requestPrivacyTierValue r (eq_PrivacyTier req).

(** [src/coordinator/cmd/coordinator/main.go:1602-1607] requestCapabilityValue *)
Definition requestCapabilityValue (r : HttpRequest) (header value : string) : string :=
  let fromHeader := trim_space (hr_Header r header) in
  if negb (fromHeader =s "") then fromHeader else trim_space value.

(** [src/coordinator/cmd/coordinator/main.go:1617-1631] requestAccelerators (the loop) *)
Definition addAccelerator (out_seen : list string * gset string) (value : string) : list string * gset string :=
  let '(out, seen) := out_seen in
  let value := trim_space value in
  if value =s "" then (out, seen)
  else
    let key := to_lower value in
    if bool_decide (key ∈ seen) then (out, seen) else (out ++ [value], {[key]} ∪ seen).

(** [src/coordinator/cmd/coordinator/main.go:1610-1616] requestAccelerators (the values) *)
Definition acceleratorValues (r : HttpRequest) (req : ChatCompletionRequest) : list string :=
  let values := cr_MiAccelerators req in
  let header := hr_Header r "X-Mi-Accelerator" in
  let values := if negb (header =s "") then values ++ split_comma header else values in
  let header := hr_Header r "X-Mi-Accelerators" in
  if negb (header =s "") then values ++ split_comma header else values.

(** [src/coordinator/cmd/coordinator/main.go:1609-1632] requestAccelerators *)
Definition requestAccelerators (r : HttpRequest) (req : ChatCompletionRequest) : list string :=
  fst (fold_left addAccelerator (acceleratorValues r req) ([], ∅)).

(** ** Token estimates *)

(** [src/coordinator/cmd/coordinator/main.go:61-61] defaultReservedOutputTokens *)
Definition defaultReservedOutputTokens : Z := 1024.

(** [src/coordinator/cmd/coordinator/main.go:1688-1693] estimateTokensFromChars *)
Definition estimateTokensFromChars (chars : Z) : Z :=
  if chars <=? 0 then 0 else (chars +w 3) /w 4.

(** The characters of messages, role and content. *)
Definition message_chars {M} (role content : M -> string) (messages : list M) : Z :=
  fold_left (fun chars msg => chars +w (rune_count (role msg) +w rune_count (content msg))) messages 0.

(** [src/coordinator/cmd/coordinator/main.go:1646-1652] estimateProtocolPromptTokens *)
Definition estimateProtocolPromptTokens (req : InferRequest) : Z :=
  estimateTokensFromChars (message_chars pm_Role pm_Content (ir_Messages req)).

(** [src/coordinator/cmd/coordinator/main.go:1634-1644] coordinatorMeasuredDone *)
Definition coordinatorMeasuredDone (req : InferRequest) (reported : InferDone) (outputChars : Z) : InferDone :=
  let finish := id_FinishReason reported in
  let finish := if finish =s "" then "stop" else finish in
  {| id_FinishReason := finish; id_PromptTokens := estimateProtocolPromptTokens req;
     id_OutputTokens := estimateTokensFromChars outputChars; id_KeyID := ""; id_Signature := "" |}.

(** [src/coordinator/cmd/coordinator/main.go:1680-1686] estimateEmbeddingPromptTokens *)
Definition estimateEmbeddingPromptTokens (input : list string) : Z :=
  estimateTokensFromChars (fold_left (fun chars text => chars +w rune_count text) input 0).

(** [*req.MaxTokens] when it is set and positive. *)
Definition positive_max (m : option Z) : option Z :=
  match m with Some n => if 0 <? n then Some n else None | None => None end.

(** [src/coordinator/cmd/coordinator/main.go:1695-1706] estimateTokenBudget *)
Definition estimateTokenBudget (req : ChatCompletionRequest) : Z :=
  let promptEstimate := estimateTokensFromChars (message_chars cm_Role cm_Content (cr_Messages req)) in
  let outputEstimate := default defaultReservedOutputTokens (positive_max (cr_MaxTokens req)) in
  promptEstimate +w outputEstimate.

(** [src/coordinator/cmd/coordinator/main.go:1708-1714] applyDefaultMaxTokens *)
Definition applyDefaultMaxTokens (req : InferRequest) : InferRequest :=
  match positive_max (ir_MaxTokens req) with
  | Some _ => req
  | None => req <| ir_MaxTokens := Some defaultReservedOutputTokens |>
  end.

(** What [json.Unmarshal] makes of the raw input, first as a string, then as a list of strings. *)
Record RawInput := { ri_raw : string; ri_single : option string; ri_many : res string (list string) }.

(** [src/coordinator/cmd/coordinator/main.go:1654-1678] parseEmbeddingInput *)
Definition parseEmbeddingInput (raw : RawInput) : res string (list string) :=
  if trim_space (ri_raw raw) =s "" then Err "input is required"
  else match ri_single raw with
  | Some single => if single =s "" then Err "input is required" else Ok [single]
  | None =>
      match ri_many raw with
      | Err err => Err err
      | Ok [] => Err "input is required"
      | Ok many => if existsb (fun value => value =s "") many then Err "input is required" else Ok many
      end
  end.

(** ** Dispatch headers *)

(** [w.Header().Set(name, value)] when [shown]. *)
Definition header_if (shown : bool) (name value : string) : list (string * string) :=
  if shown then [(name, value)] else [].

(** [strings.Join]. *)
Fixpoint join (sep : string) (l : list string) : string :=
  match l with [] => "" | [x] => x | x :: l => x +:+ sep +:+ join sep l end.

(** [src/coordinator/cmd/coordinator/main.go:1545-1573] setDispatchHeaders *)
Definition setDispatchHeaders (result : DispatchResult) : list (string * string) :=
  header_if (0 <? dr_Attempts result) "X-Mi-Dispatch-Attempts" (itoa (dr_Attempts result))
  ++ header_if (negb (dr_NodeID result =s "")) "X-Mi-Node-Id" (dr_NodeID result)
  ++ header_if (negb (dr_ProviderID result =s "")) "X-Mi-Provider-Id" (dr_ProviderID result)
  ++ header_if (negb (dr_Backend result =s "")) "X-Mi-Backend" (dr_Backend result)
  ++ header_if (negb (dr_DeviceKind result =s "")) "X-Mi-Device-Kind" (dr_DeviceKind result)
  ++ header_if (negb (bool_decide (dr_Accelerators result = []))) "X-Mi-Accelerators" (join "," (dr_Accelerators result))
  ++ header_if (0 <? dr_LatencyMs result) "X-Mi-Observed-Latency-Ms" (itoa (dr_LatencyMs result))
  ++ header_if (0 <? dr_TTFTMs result) "X-Mi-Observed-TTFT-Ms" (itoa (dr_TTFTMs result))
  ++ header_if (fgt (dr_TokensPerSecond result) f0) "X-Mi-Observed-Tokens-Per-Second"
       (format_float2 (dr_TokensPerSecond result)).

(** [src/coordinator/cmd/coordinator/main.go:1575-1585] setEmbeddingDispatchHeaders *)
Definition setEmbeddingDispatchHeaders (result : EmbedDispatchResult) : list (string * string) :=
  header_if (0 <? de_Attempts result) "X-Mi-Dispatch-Attempts" (itoa (de_Attempts result))
  ++ header_if (negb (de_NodeID result =s "")) "X-Mi-Node-Id" (de_NodeID result)
  ++ header_if (negb (de_ProviderID result =s "")) "X-Mi-Provider-Id" (de_ProviderID result).

(** [src/coordinator/cmd/coordinator/main.go:1716-1726] declareDispatchTrailers *)
Definition declareDispatchTrailers : list (string * string) :=
  (fun name => ("Trailer", name)) <$>
    [ "X-Mi-Dispatch-Attempts"; "X-Mi-Node-Id"; "X-Mi-Provider-Id"; "X-Mi-Backend"; "X-Mi-Device-Kind";
      "X-Mi-Accelerators"; "X-Mi-Observed-Latency-Ms"; "X-Mi-Observed-TTFT-Ms"; "X-Mi-Observed-Tokens-Per-Second" ].

(** ** Error replies *)

(** [src/coordinator/cmd/coordinator/main.go:1736-1762] writeAccountError: the status and the error type *)
Definition writeAccountError (err : CityError) : Z * string :=
  match err with
  | ErrInvalidAccount => (400, "invalid_account")
  | ErrAccountExists => (409, "account_exists")
  | ErrAccountNotFound => (404, "account_not_found")
  | ErrAccountDisabled => (409, "account_disabled")
  | ErrInvalidPrivacy => (400, "invalid_privacy")
  | _ => (500, "internal_error")
  end.

(** [src/coordinator/cmd/coordinator/main.go:1732-1734] writeCreateError *)
Definition writeCreateError (err : CityError) : Z * string := writeAccountError err.

(** How reading a request body fails: the limit of [MaxBytesReader], or the JSON decoder. *)
Inductive DecodeError := TooLarge | Malformed (reason : string).

(** [src/coordinator/cmd/coordinator/main.go:659-666] writeDecodeError *)
Definition writeDecodeError (err : DecodeError) : Z * string :=
  match err with TooLarge => (413, "request body too large") | Malformed reason => (400, reason) end.

(** The status of a failed dispatch: 503 when no node can serve the request, else 502. *)
Definition dispatchStatus (err : DispatchError) : Z := if is_ErrNoNode err then 503 else 502.

(** ** Challenges *)

(** [src/coordinator/cmd/coordinator/main.go:876-881] challengeTimeout *)
Definition challengeTimeout (cfg : ChallengeConfig) : Z := if 0 <? hc_Timeout cfg then hc_Timeout cfg else 30 * second.

(** [src/coordinator/cmd/coordinator/main.go:867-874] containsString *)
Definition containsString (items : list string) (target : string) : bool := existsb (fun item => item =s target) items.

(** [src/coordinator/cmd/coordinator/main.go:850-856] challengeProviderCandidates (the test of one node) *)
Definition challengeable (model privacyTier : string) (node : NodeView) : bool :=
  if (v_ProviderID node =s "") || negb (v_Healthy node) || v_InCooldown node || (v_MaxConcurrent node <=? v_Active node)
  then false
  else containsString (v_Models node) model && Accepts (v_PrivacyTiers node) privacyTier.

(** [src/coordinator/cmd/coordinator/main.go:848-865] challengeProviderCandidates *)
Definition challengeProviderCandidates (nodes : list NodeView) (model privacyTier : string) : list string :=
  sorted_keys (list_to_set (v_ProviderID <$> filter (fun node => challengeable model privacyTier node = true) nodes)).

(** [src/coordinator/cmd/coordinator/main.go:838-845] nextSyntheticChallengeProvider (the rotation); the
    counter is [nextChallengeProvider]. *)
Definition nextCandidate (candidates : list string) (counter : Z) : string * Z :=
  match candidates with
  | [] => ("", counter)
  | first :: _ =>
      let counter := if Z.of_nat (length candidates) <=? counter then 0 else counter in
      (default first (candidates !! Z.to_nat counter), (counter +w 1) mod Z.of_nat (length candidates))
  end.

(** [src/coordinator/cmd/coordinator/main.go:833-846] nextSyntheticChallengeProvider *)
Definition nextSyntheticChallengeProvider (nodes : list NodeView) (model privacyTier : string) (counter : Z) : string * Z :=
  nextCandidate (challengeProviderCandidates nodes model privacyTier) counter.
