(* ===== verification/RequestsProofs.v ===== *)
(** * Properties of request reading: normal forms, token budgets, fair rotation *)

From S2P Require Import Prelude GoString GoSort GoFloat Sha256 Privacy Protocol Config Scheduler City.
From S2P Require Import Requests.

(** ** Accelerators *)

(** The distinct names among [values] up to case, trimmed, the first spelling of each. *)
Definition accelerator_keys (values : list string) : list string :=
  to_lower <$> filter (fun v => v <> "") (trim_space <$> values).

Definition accelerators_ok (values out : list string) (seen : gset string) : Prop :=
  NoDup (to_lower <$> out) /\ Forall (fun v => v <> "" /\ v ∈ trim_space <$> values) out
  /\ (forall k, k ∈ seen <-> k ∈ to_lower <$> out) /\ (forall k, k ∈ to_lower <$> out <-> k ∈ accelerator_keys values).

Lemma addAccelerator_ok values out seen v :
  accelerators_ok values out seen ->
  let r := addAccelerator (out, seen) v in accelerators_ok (values ++ [v]) (fst r) (snd r).
Proof.
  intros (Hnd & Hall & Hseen & Hkeys). unfold addAccelerator.
  assert (Hmono : Forall (fun x => x <> "" /\ x ∈ trim_space <$> (values ++ [v])) out).
  { eapply Forall_impl; [exact Hall|]. intros x [? ?]. split; [done|]. rewrite fmap_app. set_solver. }
  assert (Hks : accelerator_keys (values ++ [v]) = accelerator_keys values
    ++ (if decide (trim_space v <> "") then [to_lower (trim_space v)] else [])).
  { unfold accelerator_keys. rewrite fmap_app, filter_app, fmap_app. f_equal. simpl. rewrite filter_cons. by case_decide. }
  destruct (trim_space v =s "") eqn:Ev.
  - apply str_eqb_true in Ev. simpl. split; [done|]. split; [done|]. split; [done|]. intros k.
    rewrite Hks, decide_False by auto. by rewrite app_nil_r.
  - apply str_eqb_false in Ev. rewrite decide_True in Hks by done. cbv zeta. case_bool_decide as Hin; simpl.
    + split; [done|]. split; [done|]. split; [done|]. intros k. rewrite Hks, Hkeys, elem_of_app.
      rewrite list_elem_of_singleton. split; [by left|]. intros [?| ->]; [done|]. by apply Hkeys, Hseen.
    + unfold accelerators_ok. rewrite fmap_app.
      change (to_lower <$> [trim_space v]) with [to_lower (trim_space v)]. split; [|split; [|split]].
      * apply NoDup_app. split; [done|]. split; [|apply NoDup_singleton]. intros k Hk Hk2.
        apply list_elem_of_singleton in Hk2 as ->. by apply Hin, Hseen.
      * apply Forall_app. split; [done|]. apply Forall_singleton. split; [done|]. rewrite fmap_app. set_solver.
      * intros k. rewrite elem_of_union, elem_of_singleton, elem_of_app, list_elem_of_singleton, Hseen. tauto.
      * intros k. rewrite Hks, !elem_of_app, Hkeys. done.
Qed.

Lemma fold_accelerators values :
  let r := fold_left addAccelerator values ([], ∅) in accelerators_ok values (fst r) (snd r).
Proof.
  induction values as [|v l IH] using rev_ind.
  - split; [apply NoDup_nil_2|]. split; [by apply Forall_nil|]. split; [set_solver|done].
  - rewrite fold_left_app. cbn [fold_left]. destruct (fold_left addAccelerator l ([], ∅)) as [out seen].
    by apply addAccelerator_ok.
Qed.

(** The accelerators of a request are trimmed and not empty, no two are equal up
    to case, and up to case they are exactly the non-blank names in the body and the two headers. *)
Theorem accelerators_normal r req :
  let out := requestAccelerators r req in
  NoDup (to_lower <$> out)
  /\ Forall (fun v => v <> "" /\ v ∈ trim_space <$> acceleratorValues r req) out
  /\ forall k, k ∈ to_lower <$> out <-> exists v, v ∈ acceleratorValues r req /\ trim_space v <> "" /\ k = to_lower (trim_space v).
Proof.
  destruct (fold_accelerators (acceleratorValues r req)) as (H1 & H2 & _ & H4). split; [done|]. split; [done|].
  intros k. rewrite H4. unfold accelerator_keys. rewrite list_elem_of_fmap. setoid_rewrite list_elem_of_filter.
  setoid_rewrite list_elem_of_fmap. naive_solver.
Qed.

(** ** Token budgets *)

(** The characters of a list, without wrap-around. *)
Definition total_chars {M} (role content : M -> string) (l : list M) : Z :=
  foldr (fun m acc => rune_count (role m) + rune_count (content m) + acc) 0 l.

Lemma rune_count_nonneg s : 0 <= rune_count s.
Proof. unfold rune_count. lia. Qed.

Lemma total_chars_nonneg {M} role content (l : list M) : 0 <= total_chars role content l.
Proof.
  induction l as [|m l IH]; simpl; [done|]. pose proof (rune_count_nonneg (role m)). pose proof (rune_count_nonneg (content m)). lia.
Qed.

Lemma total_chars_snoc {M} role content (l : list M) m :
  total_chars role content (l ++ [m]) = total_chars role content l + (rune_count (role m) + rune_count (content m)).
Proof. induction l as [|x l IH]; simpl; [lia|]. rewrite IH. lia. Qed.

Lemma message_chars_exact {M} role content (l : list M) :
  total_chars role content l <= max_int64 -> message_chars role content l = total_chars role content l.
Proof.
  unfold message_chars. induction l as [|m l IH] using rev_ind; intros Hfit; [done|].
  rewrite total_chars_snoc in *. pose proof (total_chars_nonneg role content l).
  pose proof (rune_count_nonneg (role m)). pose proof (rune_count_nonneg (content m)).
  rewrite fold_left_app. cbn [fold_left]. rewrite IH by lia. rewrite (add64_id (rune_count (role m))) by ilia.
  by rewrite add64_id by ilia.
Qed.

Lemma estimate_exact chars : 0 <= chars -> chars + 3 <= max_int64 -> estimateTokensFromChars chars = (chars + 3) / 4.
Proof.
  intros H0 H1. unfold estimateTokensFromChars. destruct (chars <=? 0) eqn:E; bsimpl.
  - assert (chars = 0) as -> by lia. done.
  - rewrite add64_id by ilia. unfold quo64. by rewrite Z.quot_div_nonneg by lia.
Qed.

(** The messages a request is dispatched with. *)
Definition protocolMessages (messages : list ChatMessage) : list ProtocolMessage :=
  (fun msg => {| pm_Role := cm_Role msg; pm_Content := cm_Content msg |}) <$> messages.

Lemma protocol_chars messages :
  message_chars pm_Role pm_Content (protocolMessages messages) = message_chars cm_Role cm_Content messages.
Proof.
  unfold message_chars, protocolMessages. generalize 0 as z. induction messages as [|m l IH]; intros z; [done|].
  cbn [fmap list_fmap fold_left]. apply IH.
Qed.

(** The output limit a dispatched request carries. *)
Definition output_limit (req : ChatCompletionRequest) : Z :=
  default defaultReservedOutputTokens (positive_max (cr_MaxTokens req)).

(** The characters of a request's messages: runes, not bytes. *)
Abbreviation request_chars req := (total_chars cm_Role cm_Content (cr_Messages req)).

Lemma measured_parts req infer reported outputChars :
  ir_Messages infer = protocolMessages (cr_Messages req) -> ir_MaxTokens infer = cr_MaxTokens req ->
  0 <= outputChars -> outputChars + 3 <= max_int64 -> request_chars req + 3 <= max_int64 ->
  let done := coordinatorMeasuredDone infer reported outputChars in
  id_PromptTokens done = (request_chars req + 3) / 4 /\ id_OutputTokens done = (outputChars + 3) / 4
  /\ ir_MaxTokens (applyDefaultMaxTokens infer) = Some (output_limit req).
Proof.
  intros Hm Hx Ho Hof Hf done. pose proof (total_chars_nonneg cm_Role cm_Content (cr_Messages req)). split; [|split].
  - subst done. simpl. unfold estimateProtocolPromptTokens. rewrite Hm, protocol_chars, message_chars_exact by lia.
    by apply estimate_exact.
  - by apply estimate_exact.
  - unfold applyDefaultMaxTokens, output_limit. rewrite <- Hx. destruct (positive_max (ir_MaxTokens infer)) as [n|] eqn:E; [|done].
    unfold positive_max in E. destruct (ir_MaxTokens infer) as [n'|] eqn:E2; [|done]. destruct (0 <? n'); [|done].
    by injection E as ->.
Qed.

Lemma output_limit_pos req : 0 < output_limit req.
Proof.
  unfold output_limit, positive_max. destruct (cr_MaxTokens req) as [n|]; [|done]. destruct (0 <? n) eqn:E; [|done]. simpl. lia.
Qed.

Lemma budget_wrapped req :
  request_chars req + 3 <= max_int64 -> estimateTokenBudget req = wrap64 ((request_chars req + 3) / 4 + output_limit req).
Proof.
  intros Hf. pose proof (total_chars_nonneg cm_Role cm_Content (cr_Messages req)).
  unfold estimateTokenBudget. by rewrite message_chars_exact, estimate_exact by lia.
Qed.

Lemma quarter_le chars limit : (chars + 3) / 4 <= limit <-> chars <= 4 * limit.
Proof. pose proof (Z.div_mod (chars + 3) 4 ltac:(lia)). pose proof (Z.mod_pos_bound (chars + 3) 4 ltac:(lia)). lia. Qed.


(** ** Fair rotation of challenges *)

(** The providers [n] consecutive challenge runs pick while the candidates stay the same. *)
Fixpoint rotation (n : nat) (candidates : list string) (counter : Z) : list string :=
  match n with
  | O => []
  | S n => let '(provider, counter) := nextCandidate candidates counter in provider :: rotation n candidates counter
  end.

Lemma nextCandidate_at candidates k x :
  candidates !! k = Some x -> Z.of_nat (length candidates) <= max_int64 ->
  nextCandidate candidates (Z.of_nat k) = (x, (Z.of_nat k + 1) mod Z.of_nat (length candidates)).
Proof.
  intros Hx Hfit. pose proof (lookup_lt_Some _ _ _ Hx) as Hk. unfold nextCandidate.
  destruct candidates as [|first rest] eqn:E; [done|]. rewrite <- E in *.
  rewrite (proj2 (Z.leb_gt _ _)) by lia. rewrite Nat2Z.id, Hx. simpl. by rewrite add64_id by ilia.
Qed.

Lemma rotation_tail candidates k n :
  (k + n <= length candidates)%nat -> Z.of_nat (length candidates) <= max_int64 ->
  rotation n candidates (Z.of_nat k) = take n (drop k candidates).
Proof.
  revert k. induction n as [|n IH]; intros k Hk Hfit; [done|].
  destruct (lookup_lt_is_Some_2 candidates k) as [x Hx]; [lia|].
  cbn [rotation]. rewrite (nextCandidate_at _ _ _ Hx) by done. rewrite (drop_S _ _ _ Hx). cbn [take]. f_equal.
  destruct (decide (S k = length candidates)) as [Hl|Hl].
  - assert (n = 0)%nat as -> by lia. done.
  - rewrite Z.mod_small by lia. replace (Z.of_nat k + 1) with (Z.of_nat (S k)) by lia. apply IH; lia.
Qed.

Lemma rotation_app m n candidates counter :
  rotation (m + n) candidates counter
  = rotation m candidates counter
    ++ rotation n candidates (Nat.iter m (fun c => snd (nextCandidate candidates c)) counter).
Proof.
  revert counter. induction m as [|m IH]; intros counter; [done|]. cbn [rotation Nat.add].
  rewrite Nat.iter_succ_r.
  destruct (nextCandidate candidates counter) as [p c]. by rewrite IH.
Qed.

Lemma iter_counter candidates k n :
  (k + n < length candidates)%nat -> Z.of_nat (length candidates) <= max_int64 ->
  Nat.iter n (fun c => snd (nextCandidate candidates c)) (Z.of_nat k) = Z.of_nat (k + n).
Proof.
  intros Hk Hfit. induction n as [|n IH]; [by rewrite Nat.add_0_r|]. simpl. rewrite IH by lia.
  destruct (lookup_lt_is_Some_2 candidates (k + n)) as [x Hx]; [lia|].
  rewrite (nextCandidate_at _ _ _ Hx) by done. simpl. rewrite Z.mod_small by lia. lia.
Qed.

Lemma rotation_full candidates k :
  (k < length candidates)%nat -> Z.of_nat (length candidates) <= max_int64 ->
  rotation (length candidates) candidates (Z.of_nat k) = drop k candidates ++ take k candidates.
Proof.
  intros Hk Hfit. set (len := length candidates) in *.
  replace (rotation len candidates (Z.of_nat k)) with (rotation ((len - k) + k) candidates (Z.of_nat k)) by (f_equal; lia).
  rewrite rotation_app, rotation_tail by (subst len; lia).
  rewrite (take_ge (drop k candidates)) by (rewrite length_drop; lia). f_equal.
  replace (len - k)%nat with (S (len - k - 1)) by lia. simpl. rewrite iter_counter by (subst len; lia).
  destruct (lookup_lt_is_Some_2 candidates (k + (len - k - 1))) as [x Hx]; [subst len; lia|].
  rewrite (nextCandidate_at _ _ _ Hx) by done. simpl.
  replace (Z.of_nat (k + (len - k - 1)) + 1) with (Z.of_nat len) by lia. subst len.
  rewrite Z.mod_same by lia. replace 0 with (Z.of_nat 0) by done. by rewrite rotation_tail by lia.
Qed.

(** An out-of-range counter starts over. *)
Lemma rotation_reset candidates n counter :
  candidates <> [] -> Z.of_nat (length candidates) <= counter -> rotation n candidates counter = rotation n candidates 0.
Proof.
  intros Hne Hc. destruct n as [|n]; [done|]. cbn [rotation]. unfold nextCandidate.
  destruct candidates as [|first rest] eqn:E; [done|]. rewrite <- E in *.
  rewrite (proj2 (Z.leb_le _ _)) by done. rewrite (proj2 (Z.leb_gt _ 0)); [done|]. rewrite E. simpl. lia.
Qed.

(** C37: the providers that can be challenged are those with a healthy node that has a free
    slot, serves the model and accepts the tier; and while they stay the same every one of
    them is picked exactly once in as many consecutive runs as there are of them, whatever the counter was. *)
Theorem challenge_rotation nodes model privacyTier counter :
  0 <= counter -> Z.of_nat (length nodes) <= max_int64 ->
  let candidates := challengeProviderCandidates nodes model privacyTier in
  (forall p, p ∈ candidates <-> exists n, n ∈ nodes /\ v_ProviderID n = p /\ challengeable model privacyTier n = true)
  /\ rotation (length candidates) candidates counter ≡ₚ candidates.
Proof.
  intros Hc Hfit candidates. split.
  - intros p. unfold candidates, challengeProviderCandidates. rewrite elem_of_sorted_keys, elem_of_list_to_set, list_elem_of_fmap.
    setoid_rewrite list_elem_of_filter. naive_solver.
  - assert (Hlen : (length candidates <= length nodes)%nat).
    { rewrite <- (length_fmap v_ProviderID nodes). apply submseteq_length, NoDup_submseteq; [apply sorted_keys_nodup|].
      intros p. unfold candidates, challengeProviderCandidates. rewrite elem_of_sorted_keys, elem_of_list_to_set.
      rewrite !list_elem_of_fmap. setoid_rewrite list_elem_of_filter. naive_solver. }
    destruct (decide (candidates = [])) as [->|Hne]; [done|].
    assert (0 < length candidates)%nat by (destruct candidates; [done|simpl; lia]).
    destruct (decide (counter < Z.of_nat (length candidates))) as [Hlt|Hge].
    + rewrite <- (Z2Nat.id counter) by done. rewrite rotation_full by lia. rewrite Permutation_app_comm. by rewrite take_drop.
    + rewrite rotation_reset by (done || lia). replace 0 with (Z.of_nat 0) by done. rewrite rotation_full by lia.
      by rewrite app_nil_r.
Qed.

(** ** Witnesses *)

Definition demo_chat : ChatCompletionRequest :=
  {| cr_Model := "fast"; cr_Messages := [{| cm_Role := "user"; cm_Content := "hello there" |}]; cr_Stream := false;
     cr_PrivacyTier := ""; cr_MiBackend := ""; cr_MiDeviceKind := ""; cr_MiSoC := ""; cr_MiAccelerators := [];
     cr_Temperature := None; cr_MaxTokens := Some 5 |}.

Definition demo_infer : InferRequest :=
  {| ir_Model := "m"; ir_Messages := protocolMessages (cr_Messages demo_chat); ir_Stream := false; ir_PrivacyTier := "public";
     ir_Backend := ""; ir_DeviceKind := ""; ir_SoC := ""; ir_Accelerators := []; ir_Temperature := None;
     ir_MaxTokens := Some 5 |}.

(** Characters are counted, not bytes: a message of four letters of two bytes each has one token. *)
Example characters_not_bytes :
  let content := of_bytes [195; 169; 195; 169; 195; 169; 195; 169] in
  slen content = 8
  /\ estimateProtocolPromptTokens
       {| ir_Model := "m"; ir_Messages := [ {| pm_Role := ""; pm_Content := content |} ]; ir_Stream := false;
          ir_PrivacyTier := "public"; ir_Backend := ""; ir_DeviceKind := ""; ir_SoC := ""; ir_Accelerators := [];
          ir_Temperature := None; ir_MaxTokens := Some 5 |} = 1.
Proof. vm_compute. split; reflexivity. Qed.

(** A node that reports a million tokens for nineteen characters. *)
Definition demo_reported : InferDone :=
  {| id_FinishReason := ""; id_PromptTokens := 1000000; id_OutputTokens := 1000000; id_KeyID := ""; id_Signature := "" |}.


Definition demo_view (id provider : string) : NodeView :=
  nodeView (100 * second) NewRegistry (registerNode
    {| reg_ProtocolVersion := 1; reg_NodeID := id; reg_ProviderID := provider; reg_ProviderToken := "";
       reg_PublicName := ""; reg_City := ""; reg_PrivacyMode := ""; reg_PrivacyTiers := []; reg_Hostname := "";
       reg_Arch := ""; reg_OS := ""; reg_Backend := "ollama"; reg_DeviceKind := ""; reg_DeviceVendor := "";
       reg_DeviceModel := ""; reg_SoC := ""; reg_Accelerators := []; reg_PowerMode := ""; reg_NetworkMode := "";
       reg_Models := ["m"]; reg_MaxConcurrent := 1 |} (Some 1) (100 * second)).

Lemma challenge_rotation_witness :
  let candidates := challengeProviderCandidates [demo_view "n1" "b"; demo_view "n2" "a"; demo_view "n3" "b"] "m" "public" in
  candidates = ["a"; "b"] /\ rotation 2 candidates 7 ≡ₚ candidates.
Proof.
  destruct (challenge_rotation [demo_view "n1" "b"; demo_view "n2" "a"; demo_view "n3" "b"] "m" "public" 7) as [_ H];
    [lia|vm_compute; discriminate|].
  assert (Hc : challengeProviderCandidates [demo_view "n1" "b"; demo_view "n2" "a"; demo_view "n3" "b"] "m" "public" = ["a"; "b"])
    by (vm_compute; reflexivity).
  split; [exact Hc|]. revert H. rewrite Hc. intros H. exact H.
Defined.
