(* ===== verification/Services.v ===== *)
(** * The services behind the handlers: [coordinator/cmd/coordinator/services.go]

    The handlers see each component through a Go interface.  Here an interface is a type
    of calls with the type of each call's answer, and a component implements it by an
    instance of [Service]: its state, and what a call answers and leaves behind.  A call
    is one critical section of the component, or one transaction of its store, so a
    handler is a tree of calls ([Prog]) and handlers that run at the same time interleave
    between calls.  Only a dispatch spans many critical sections of the registry; what
    other goroutines do to the registry meanwhile is part of its script. *)

From S2P Require Import Prelude GoString GoFloat HashChain Protocol Config ModelCatalog Settlement Scheduler Challenge.
From S2P Require Import City Idempotency Requests.

(** ** Answers from outside the program *)

(** The clock, [rand.Read], failures of a store, the iteration order of a map, the rounds of a
    dispatch, and the seconds the stream sink reads for each chunk.  Each call uses what it needs. *)
Record Nondet := {
  nd_now : Time;
  nd_random : res string (list Z);
  nd_fault : option string;
  nd_file : StoreFault;
  nd_order : list string;
  nd_attempts : list Attempt;
  nd_embeds : list EmbedAttempt;
  nd_sink : list Z;
}.

(** [time.Time.Unix] and [time.Time.UnixNano]. *)
Definition unix_epoch : Time := 62135596800 * second.
Definition unix (t : Time) : Z := (t - unix_epoch) / second.
Definition unix_nano (t : Time) : Z := wrap64 (t - unix_epoch).

(** The chunks of a dispatch with the time the sink saw each. *)
Fixpoint stamp (times : list Z) (chunks : list string) : list (Z * string) :=
  match chunks with
  | [] => []
  | c :: chunks => (default 0 (head times), c) :: stamp (tail times) chunks
  end.

(** An interface: its calls, their answers, and a component that implements it.  A call has no
    answer only where its script is too short to end. *)
Class Service (O : Type) := {
  state : Type;
  answer : O -> Type;
  perform : forall o : O, Nondet -> state -> option (answer o * state);
}.

(** ** The registry *)

(** [src/coordinator/cmd/coordinator/services.go:24-36] nodeRegistry; [Dispatch] is
    [DispatchToProvider] without a provider. *)
Inductive nodeRegistry :=
| Register' (msg : Register) (conn : Conn)
| Heartbeat' (msg : Heartbeat)
| Remove' (nodeID : string)
| RemoveProvider' (providerID : string)
| Models'
| Nodes'
| NetworkStatus'
| SetProviderScores' (scores : gmap string Z)
| Dispatch' (providerID : string) (req : InferRequest)
| DispatchEmbedding' (req : EmbedRequest).

Record Dispatched := { dp_result : DispatchResult; dp_error : option DispatchError; dp_chunks : list (Z * string) }.

Definition registry_answer (o : nodeRegistry) : Type :=
  match o with
  | Register' _ _ | Heartbeat' _ | Remove' _ | SetProviderScores' _ => unit
  | RemoveProvider' _ => Z
  | Models' => list string
  | Nodes' => list NodeView
  | NetworkStatus' => NetworkStatus
  | Dispatch' _ _ => Dispatched
  | DispatchEmbedding' _ => EmbedDispatchResult * option DispatchError
  end.

(** The registry, and the connections it closed so far. *)
Definition registry_perform (o : nodeRegistry) (nd : Nondet) (s : Registry * list Conn)
  : option (registry_answer o * (Registry * list Conn)) :=
  let '(r, closed) := s in
  match o return option (registry_answer o * (Registry * list Conn)) with
  | Register' msg conn => Some (tt, (Register_ msg (Some conn) (nd_now nd) r, closed))
  | Heartbeat' msg => Some (tt, (Heartbeat_ msg (nd_now nd) r, closed))
  | Remove' id => let '(r, gone) := Remove id r in Some (tt, (r, closed ++ gone))
  | RemoveProvider' id => let '(r, n, gone) := RemoveProvider id r in Some (n, (r, closed ++ gone))
  | Models' => Some (Models (nd_now nd) r, s)
  | Nodes' => Some (Scheduler.Snapshot (nd_now nd) r, s)
  | NetworkStatus' => Some (NetworkStatus_ (nd_now nd) (nd_order nd) r, s)
  | SetProviderScores' scores => Some (tt, (SetProviderScores scores r, closed))
  | Dispatch' providerID req =>
      match DispatchToProvider providerID req (nd_attempts nd) r with
      | None => None
      | Some oc =>
          Some ({| dp_result := oc_result oc; dp_error := oc_error oc; dp_chunks := stamp (nd_sink nd) (oc_output oc) |},
                (oc_registry oc, closed))
      end
  | DispatchEmbedding' req =>
      match DispatchEmbedding req (nd_embeds nd) r with
      | None => None
      | Some oc => Some ((eo_result oc, eo_error oc), (eo_registry oc, closed))
      end
  end.

#[export] Instance registry_service : Service nodeRegistry :=
  {| state := Registry * list Conn; answer := registry_answer; perform := registry_perform |}.

(** ** The market *)

(** [src/coordinator/cmd/coordinator/services.go:40-56] accountMarket *)
Inductive accountMarket :=
| AuthenticateConsumer' (key : string)
| AuthenticateProvider' (reg : Register)
| CheckConsumerQuota' (accountID : string)
| ConsumerStatus' (accountID : string)
| CreateConsumer' (input : CreateConsumerInput)
| CreateProvider' (input : CreateProviderInput)
| DisableConsumer' (rawID : string)
| DisableProvider' (rawID : string)
| EnforceProviderPrivacy' (providerID requestedMode : string) (requestedTiers : list string)
| ReserveConsumerQuota' (accountID : string) (estimatedTokens : Z)
| ReleaseReservation' (reservation : option QuotaReservation)
| RecordReserved' (reservation : option QuotaReservation) (consumerID providerID : string) (done : InferDone)
| RotateConsumerKey' (rawID : string)
| RotateProviderToken' (rawID : string)
| MarketSnapshot'.

Definition market_answer (o : accountMarket) : Type :=
  match o with
  | AuthenticateConsumer' _ | AuthenticateProvider' _ => res CityError string
  | CheckConsumerQuota' _ | RecordReserved' _ _ _ _ => option CityError
  | ConsumerStatus' _ => ConsumerStatus
  | CreateConsumer' _ | RotateConsumerKey' _ => res CityError CreatedConsumer
  | CreateProvider' _ | RotateProviderToken' _ => res CityError CreatedProvider
  | DisableConsumer' _ => res CityError Consumer
  | DisableProvider' _ => res CityError Provider
  | EnforceProviderPrivacy' _ _ _ => res CityError (string * list string)
  | ReserveConsumerQuota' _ _ => res CityError (option QuotaReservation)
  | ReleaseReservation' _ => unit
  | MarketSnapshot' => MarketSnapshot
  end.

(** A triple of a call that persists. *)
Definition stored {A} (x : A * Market * Disk) : option (A * (Market * Disk)) :=
  let '(a, m, d) := x in Some (a, (m, d)).

Definition market_perform (o : accountMarket) (nd : Nondet) (s : Market * Disk)
  : option (market_answer o * (Market * Disk)) :=
  let '(m, d) := s in
  match o return option (market_answer o * (Market * Disk)) with
  | AuthenticateConsumer' key => Some (AuthenticateConsumer m key, s)
  | AuthenticateProvider' reg => Some (AuthenticateProvider m reg, s)
  | CheckConsumerQuota' id => Some (CheckConsumerQuota m id, s)
  | ConsumerStatus' id => Some (ConsumerStatus_ m id, s)
  | CreateConsumer' input => stored (CreateConsumer input (nd_random nd) (nd_now nd) (nd_fault nd) m d)
  | CreateProvider' input => stored (CreateProvider input (nd_random nd) (nd_now nd) (nd_fault nd) m d)
  | DisableConsumer' id => stored (DisableConsumer id (nd_now nd) (nd_fault nd) m d)
  | DisableProvider' id => stored (DisableProvider id (nd_now nd) (nd_fault nd) m d)
  | EnforceProviderPrivacy' id mode tiers => Some (EnforceProviderPrivacy m id mode tiers, s)
  | ReserveConsumerQuota' id tokens =>
      match ReserveConsumerQuota id tokens m with
      | Ok (r, m) => Some (Ok r, (m, d))
      | Err err => Some (Err err, s)
      end
  | ReleaseReservation' r => Some (tt, (ReleaseReservation r m, d))
  | RecordReserved' r cid pid done => stored (RecordReserved r cid pid done (nd_now nd) (nd_fault nd) m d)
  | RotateConsumerKey' id => stored (RotateConsumerKey id (nd_random nd) (nd_now nd) (nd_fault nd) m d)
  | RotateProviderToken' id => stored (RotateProviderToken id (nd_random nd) (nd_now nd) (nd_fault nd) m d)
  | MarketSnapshot' => Some (City.Snapshot m, s)
  end.

#[export] Instance market_service : Service accountMarket :=
  {| state := Market * Disk; answer := market_answer; perform := market_perform |}.

(** ** The ledgers *)

(** [src/coordinator/cmd/coordinator/services.go:60-64] settlementLedger *)
Inductive settlementLedger :=
| Settle' (input : RecordInput)
| Settlement' (limit : Z)
| VerifySettlement'.

Definition settlement_answer (o : settlementLedger) : Type :=
  match o with
  | Settle' _ => res LedgerError (option Event)
  | Settlement' _ => LedgerSnapshot
  | VerifySettlement' => Verification
  end.

Definition settlement_perform (o : settlementLedger) (nd : Nondet) (s : Ledger * Store)
  : option (settlement_answer o * (Ledger * Store)) :=
  let '(l, st) := s in
  match o return option (settlement_answer o * (Ledger * Store)) with
  | Settle' input => let '(a, l, st) := Settlement.Record_ input (nd_now nd) (nd_file nd) l st in Some (a, (l, st))
  | Settlement' limit => Some (Settlement.Snapshot limit l, s)
  | VerifySettlement' => Some (Settlement.Verify l, s)
  end.

#[export] Instance settlement_service : Service settlementLedger :=
  {| state := Ledger * Store; answer := settlement_answer; perform := settlement_perform |}.

(** [src/coordinator/cmd/coordinator/services.go:67-71] challengeLedger *)
Inductive challengeLedger :=
| RecordChallenge' (input : ChallengeInput)
| Challenges' (limit : Z)
| VerifyChallenges'.

Definition challenge_answer (o : challengeLedger) : Type :=
  match o with
  | RecordChallenge' _ => res ChallengeError ChallengeEvent
  | Challenges' _ => ChallengeSnapshot
  | VerifyChallenges' => ChallengeVerification
  end.

Definition challenge_perform (o : challengeLedger) (nd : Nondet) (s : ChallengeLedger * ChainFile)
  : option (challenge_answer o * (ChallengeLedger * ChainFile)) :=
  let '(l, file) := s in
  match o return option (challenge_answer o * (ChallengeLedger * ChainFile)) with
  | RecordChallenge' input =>
      let '(a, l, file) := Challenge.Record_ input (nd_now nd) (nd_file nd) l file in Some (a, (l, file))
  | Challenges' limit => Some (Challenge.Snapshot limit l, s)
  | VerifyChallenges' => Some (Challenge.Verify l, s)
  end.

#[export] Instance challenge_service : Service challengeLedger :=
  {| state := ChallengeLedger * ChainFile; answer := challenge_answer; perform := challenge_perform |}.

(** ** The rest of the server *)

(** The idempotency store, the rotation of the challenges, and the outside world. *)
Inductive serverCall :=
| Begin' (key : string)
| Complete' (key : string) (statusCode : Z) (contentType body : string)
| Abort' (key : string)
| NextChallenge' (candidates : list string)
| Now'
| RandomID'.

Definition server_answer (o : serverCall) : Type :=
  match o with
  | Begin' _ => res string (option IdemRecord)
  | Complete' _ _ _ _ | Abort' _ => option string
  | NextChallenge' _ => string
  | Now' => Time
  | RandomID' => string
  end.

(** [src/coordinator/cmd/coordinator/main.go:1764-1770] randomID *)
Definition randomID (raw : res string (list Z)) (now : Time) : string :=
  match raw with Err _ => itoa (unix_nano now) | Ok raw => hex_of_bytes raw end.

Definition server_perform (store : option IdemStore) (o : serverCall) (nd : Nondet) (s : KeyTable * Z)
  : option (server_answer o * (KeyTable * Z)) :=
  let '(db, next) := s in
  let now := unix_nano (nd_now nd) in
  match o return option (server_answer o * (KeyTable * Z)) with
  | Begin' key => let '(a, db) := Begin store key now (nd_fault nd) db in Some (a, (db, next))
  | Complete' key code ctype body =>
      let '(a, db) := Complete store key code ctype body now (nd_fault nd) db in Some (a, (db, next))
  | Abort' key => let '(a, db) := Abort_ store key (nd_fault nd) db in Some (a, (db, next))
  | NextChallenge' candidates => let '(id, next) := nextCandidate candidates next in Some (id, (db, next))
  | Now' => Some (nd_now nd, s)
  | RandomID' => Some (randomID (nd_random nd) (nd_now nd), s)
  end.

(** [src/coordinator/cmd/coordinator/main.go:43-57] server (what no request changes) *)
Record server := {
  sv_modelCatalog : option Catalog;
  sv_idempotency : option IdemStore;
  sv_adminToken : string;
  sv_devAdminOpen : bool;
  sv_requireNodeClientCert : bool;
  sv_requestTimeout : Z;
  sv_maxRequestBytes : Z;
}.

#[export] Instance server_service (s : server) : Service serverCall :=
  {| state := KeyTable * Z; answer := server_answer; perform := server_perform (sv_idempotency s) |}.

(** [src/coordinator/cmd/coordinator/main.go:43-57] server (the components' states) *)
Record World := {
  w_registry : Registry * list Conn;
  w_market : Market * Disk;
  w_settlement : Ledger * Store;
  w_challenges : ChallengeLedger * ChainFile;
  w_server : KeyTable * Z;
}.
#[export] Instance eta_World : Settable World := fun w =>
  Build_World (w_registry w) (w_market w) (w_settlement w) (w_challenges w) (w_server w).

(** ** Handlers as trees of calls *)

Inductive Op :=
| ORegistry (o : nodeRegistry)
| OMarket (o : accountMarket)
| OSettlement (o : settlementLedger)
| OChallenge (o : challengeLedger)
| OServer (o : serverCall).
Coercion ORegistry : nodeRegistry >-> Op.
Coercion OMarket : accountMarket >-> Op.
Coercion OSettlement : settlementLedger >-> Op.
Coercion OChallenge : challengeLedger >-> Op.
Coercion OServer : serverCall >-> Op.

Definition Ans (o : Op) : Type :=
  match o with
  | ORegistry o => answer o
  | OMarket o => answer o
  | OSettlement o => answer o
  | OChallenge o => answer o
  | OServer o => server_answer o
  end.

(** What a call does to its component, the others unchanged. *)
Definition lift {A S} (put : S -> World) (x : option (A * S)) : option (A * World) :=
  match x with Some (a, s) => Some (a, put s) | None => None end.

Definition exec (s : server) (o : Op) (nd : Nondet) (w : World) : option (Ans o * World) :=
  match o return option (Ans o * World) with
  | ORegistry o => lift (fun x => w <| w_registry := x |>) (perform o nd (w_registry w))
  | OMarket o => lift (fun x => w <| w_market := x |>) (perform o nd (w_market w))
  | OSettlement o => lift (fun x => w <| w_settlement := x |>) (perform o nd (w_settlement w))
  | OChallenge o => lift (fun x => w <| w_challenges := x |>) (perform o nd (w_challenges w))
  | OServer o => lift (fun x => w <| w_server := x |>) (@perform _ (server_service s) o nd (w_server w))
  end.

Inductive Prog (A : Type) : Type :=
| Ret (a : A)
| Call (o : Op) (k : Ans o -> Prog A).
Arguments Ret {A} a.
Arguments Call {A} o k.

Fixpoint bind {A B} (p : Prog A) (f : A -> Prog B) : Prog B :=
  match p with Ret a => f a | Call o k => Call o (fun x => bind (k x) f) end.

Notation "'let!' x ':=' c 'in' k" := (Call c (fun x => k))
  (at level 10, x pattern, c at level 100, k at level 200) : go_scope.
Notation "'do!' x ':=' c 'in' k" := (bind c (fun x => k))
  (at level 10, x pattern, c at level 100, k at level 200) : go_scope.

(** ** Running a handler *)

(** Alone, one [Nondet] per call; [None] when they run out. *)
Fixpoint run {A} (s : server) (p : Prog A) (nds : list Nondet) (w : World) : option (A * World) :=
  match p with
  | Ret a => Some (a, w)
  | Call o k =>
      match nds with
      | [] => None
      | nd :: nds => match exec s o nd w with Some (x, w) => run s (k x) nds w | None => None end
      end
  end.

(** One call made and its answer. *)
Inductive Obs := Saw (o : Op) (x : Ans o).

(** Every way a handler can go, whatever the components answer: [P] holds of the calls made and
    of the result. *)
Fixpoint always {A} (P : list Obs -> A -> Prop) (tr : list Obs) (p : Prog A) : Prop :=
  match p with
  | Ret a => P tr a
  | Call o k => forall x, always P (tr ++ [Saw o x]) (k x)
  end.

Lemma always_mono {A} (P Q : list Obs -> A -> Prop) tr p :
  (forall tr a, P tr a -> Q tr a) -> always P tr p -> always Q tr p.
Proof. intros H. revert tr. induction p as [a|o k IH]; simpl; eauto. Qed.

Lemma always_bind {A B} (P : list Obs -> B -> Prop) (p : Prog A) (f : A -> Prog B) tr :
  always (fun tr a => always P tr (f a)) tr p -> always P tr (bind p f).
Proof. revert tr. induction p as [a|o k IH]; simpl; eauto. Qed.

(** A run sees one of those ways. *)
Fixpoint run_trace {A} (s : server) (p : Prog A) (nds : list Nondet) (w : World) : option (list Obs * A * World) :=
  match p with
  | Ret a => Some ([], a, w)
  | Call o k =>
      match nds with
      | [] => None
      | nd :: nds =>
          match exec s o nd w with
          | Some (x, w) =>
              match run_trace s (k x) nds w with
              | Some (tr, a, w) => Some (Saw o x :: tr, a, w)
              | None => None
              end
          | None => None
          end
      end
  end.

Lemma run_always {A} s (P : list Obs -> A -> Prop) p nds w tr a w' tr0 :
  always P tr0 p -> run_trace s p nds w = Some (tr, a, w') -> P (tr0 ++ tr) a.
Proof.
  revert nds w tr tr0. induction p as [a0|o k IH]; intros nds w tr tr0 Ha Hr; simpl in *.
  - injection Hr as <- <- _. by rewrite app_nil_r.
  - destruct nds as [|nd nds]; [done|]. destruct (exec s o nd w) as [[x w1]|]; [|done].
    destruct (run_trace s (k x) nds w1) as [[[tr' a'] w2]|] eqn:E; [|done]. injection Hr as <- <- <-.
    specialize (IH x nds w1 tr' (tr0 ++ [Saw o x]) (Ha x) E). by rewrite <- app_assoc in IH.
Qed.
