(* ===== verification/Handlers.v ===== *)
(** * The coordinator's consumer handlers: [coordinator/cmd/coordinator/main.go]

    Authentication, the read-only endpoints, chat completions (blocking and streamed) and
    embeddings, as trees of calls to the services.  A handler's result is what it wrote:
    the status, the headers in the order they were set (a later one replaces an earlier of
    the same name), the body, and the trailers of a stream.  A failed write is not seen by
    any handler.  The body of the request is what the JSON decoder makes of it and how far
    it has to read; the request's deadline is part of the dispatch script. *)

From S2P Require Import Prelude GoString GoFloat HashChain Json Privacy Protocol Config ModelCatalog Settlement.
From S2P Require Import Scheduler Challenge City Reputation Idempotency Requests Metrics Services.

(** ** Replies *)

(** One server-sent event: a chunk, an error, or the end mark. *)
Inductive Frame := FChunk (chunk : ChatCompletionChunk) | FError (message : string) | FDone.

(** [src/coordinator/cmd/coordinator/main.go:611-619] integrityAnchor *)
Record integrityAnchor := {
  an_Version : string;
  an_GeneratedAt : Time;
  an_SettlementEvents : Z;
  an_SettlementHash : string;
  an_ChallengeEvents : Z;
  an_ChallengeHash : string;
  an_AnchorHash : string;
}.
#[export] Instance eta_integrityAnchor : Settable integrityAnchor := fun a =>
  Build_integrityAnchor (an_Version a) (an_GeneratedAt a) (an_SettlementEvents a) (an_SettlementHash a)
    (an_ChallengeEvents a) (an_ChallengeHash a) (an_AnchorHash a).

(** [src/coordinator/cmd/coordinator/main.go:603-609] integrityReport (the type) *)
Record IntegrityReport := {
  it_GeneratedAt : Time;
  it_Valid : bool;
  it_Settlement : Verification;
  it_Challenges : ChallengeVerification;
  it_Anchor : integrityAnchor;
}.

(** A body: text, an error object, bytes, an event stream, or the value whose JSON is written. *)
Inductive Body :=
| BText (s : string)
| BError (message type_ : string)
| BBytes (s : string)
| BEvents (frames : list Frame)
| BLines (lines : list string)
| BHealth
| BNetwork (v : NetworkStatus)
| BConsumer (v : ConsumerStatus)
| BModels (v : ModelList)
| BCatalog (v : CatalogResponse)
| BEmbeddings (v : EmbeddingResponse)
| BNodes (v : list NodeView)
| BMarket (v : MarketSnapshot)
| BSettlement (v : LedgerSnapshot)
| BSettlementVerification (v : Verification)
| BReputation (v : Report)
| BIntegrity (v : IntegrityReport)
| BChallenges (v : ChallengeSnapshot)
| BChallengesVerification (v : ChallengeVerification)
| BChallenge (v : ChallengeEvent)
| BCreatedConsumer (v : CreatedConsumer)
| BCreatedProvider (v : CreatedProvider)
| BDisabledConsumer (v : Consumer)
| BDisabledProvider (v : Provider) (disconnected : Z)
| BRedirect (target : string).

Record Reply := {
  ry_Status : Z;
  ry_Headers : list (string * string);
  ry_Body : Body;
  ry_Trailers : list (string * string);
}.

Definition reply (status : Z) (headers : list (string * string)) (body : Body) : Reply :=
  {| ry_Status := status; ry_Headers := headers; ry_Body := body; ry_Trailers := [] |}.

(** [http.Error], after the headers already set. *)
Definition httpError (headers : list (string * string)) (message : string) (status : Z) : Reply :=
  reply status (headers ++ [("Content-Type", "text/plain; charset=utf-8"); ("X-Content-Type-Options", "nosniff")])
    (BText message).

(** [src/coordinator/cmd/coordinator/main.go:1533-1537] writeJSONStatus *)
Definition writeJSONStatus (headers : list (string * string)) (status : Z) (value : Body) : Reply :=
  reply status (headers ++ [("Content-Type", "application/json")]) value.

(** [src/coordinator/cmd/coordinator/main.go:1529-1531] writeJSON *)
Definition writeJSON (headers : list (string * string)) (value : Body) : Reply := writeJSONStatus headers 200 value.

(** ** Errors as text *)

(** [src/internal/city/market.go:24-31] ErrUnauthorizedConsumer *)
Definition city_error_text (err : CityError) : string :=
  match err with
  | ErrUnauthorizedConsumer => "unauthorized consumer"
  | ErrUnauthorizedProvider => "unauthorized provider"
  | ErrQuotaExceeded => "consumer token quota exceeded"
  | ErrInvalidAccount => "invalid account id"
  | ErrAccountExists => "account already exists"
  | ErrAccountNotFound => "account not found"
  | ErrAccountDisabled => "account disabled"
  | ErrInvalidPrivacy => "invalid privacy policy"
  | ErrIO reason => reason
  end.

(** [src/internal/scheduler/registry.go:524-524] ErrNoNode *)
Definition dispatch_error_text (err : DispatchError) : string :=
  let none := "no healthy node can serve requested model" in
  match err with
  | ErrNoNode => none
  | ErrNoNodeAfter attempts last => none +:+ " after " +:+ itoa attempts +:+ " failed attempt(s): " +:+ ne_msg last
  | ErrNode e => ne_msg e
  end.

(** The error object of a 402. *)
Definition quotaError (err : CityError) : Reply :=
  writeJSONStatus [] 402 (BError (city_error_text err) "quota_exceeded").

(** ** Request bodies *)

(** What the decoder makes of a body, and how many bytes it reads to get there. *)
Record RequestBody (A : Type) := { rb_decoded : res string A; rb_needed : Z }.
Arguments rb_decoded {A} r.
Arguments rb_needed {A} r.

(** [src/coordinator/cmd/coordinator/main.go:935-942] chatCompletions (the decoder behind [MaxBytesReader]) *)
Definition decodeBody {A} (limit : Z) (body : RequestBody A) : res DecodeError A :=
  if (0 <? limit) && (limit <? rb_needed body) then Err TooLarge
  else match rb_decoded body with Ok a => Ok a | Err e => Err (Malformed e) end.

Definition decodeFailure (err : DecodeError) : Reply :=
  let '(status, message) := writeDecodeError err in httpError [] message status.

(** ** Who asks *)

(** [src/coordinator/cmd/coordinator/main.go:185-195] requireConsumer *)
Definition requireConsumer (next : string -> Prog Reply) (r : HttpRequest) : Prog Reply :=
  let! auth := AuthenticateConsumer' (bearerToken r) in
  match auth with
  | Err _ => Ret (httpError [] "unauthorized" 401)
  | Ok id => next (consumerID (Some id))
  end.

(** [src/coordinator/cmd/coordinator/main.go:197-210] requireConsumerQuota *)
Definition requireConsumerQuota (next : string -> Prog Reply) : HttpRequest -> Prog Reply :=
  requireConsumer (fun cid =>
    let! err := CheckConsumerQuota' cid in
    match err with
    | Some err => Ret (quotaError err)
    | None => next cid
    end).

(** [src/coordinator/cmd/coordinator/main.go:212-228] requireAdmin *)
Definition requireAdmin (s : server) (next : Prog Reply) (r : HttpRequest) : Prog Reply :=
  if (sv_adminToken s =s "") && sv_devAdminOpen s then next
  else if sv_adminToken s =s "" then Ret (httpError [] "admin token required" 401)
  else if negb (bearerToken r =s sv_adminToken s) then Ret (httpError [] "unauthorized" 401)
  else next.

(** ** Reading the network *)

(** [src/coordinator/cmd/coordinator/main.go:230-232] health *)
Definition health : Prog Reply := Ret (reply 200 [] BHealth).

(** [src/coordinator/cmd/coordinator/main.go:234-236] networkStatus *)
Definition networkStatus : Prog Reply :=
  let! status := NetworkStatus' in Ret (writeJSON [] (BNetwork status)).

(** [src/coordinator/cmd/coordinator/main.go:238-240] me *)
Definition me (cid : string) : Prog Reply :=
  let! status := ConsumerStatus' cid in Ret (writeJSON [] (BConsumer status)).

(** [src/coordinator/cmd/coordinator/main.go:242-250] models *)
Definition models (s : server) (cid : string) : Prog Reply :=
  let! now := Now' in
  let! available := Models' in
  let ids := VisibleModelIDs (sv_modelCatalog s) available in
  let data := (fun m => {| am_ID := m; am_Object := "model"; am_Created := unix now; am_OwnedBy := "mi" |}) <$> ids in
  Ret (writeJSON [] (BModels {| ml_Object := "list"; ml_Data := data |})).

(** [src/coordinator/cmd/coordinator/main.go:252-254] modelsCatalog *)
Definition modelsCatalog (s : server) (cid : string) : Prog Reply :=
  let! available := Models' in Ret (writeJSON [] (BCatalog (Catalog_ (sv_modelCatalog s) available))).

(** ** The sinks of a dispatch *)

(** [src/coordinator/cmd/coordinator/main.go:1468-1474] sseSink *)
Record sseSink := { ss_requestID : string; ss_model : string; ss_sentRole : bool }.

(** [src/coordinator/cmd/coordinator/main.go:1476-1491] Chunk *)
Definition sseChunk (created : Z) (content : string) (s : sseSink) : Frame * sseSink :=
  let role := if ss_sentRole s then "" else "assistant" in
  (FChunk {| ch_ID := ss_requestID s; ch_Object := "chat.completion.chunk"; ch_Created := created; ch_Model := ss_model s;
             ch_Choices := [{| ck_Index := 0; ck_Delta := {| cm_Role := role; cm_Content := content |};
                               ck_FinishReason := None |}] |},
   {| ss_requestID := ss_requestID s; ss_model := ss_model s; ss_sentRole := true |}).

(** What the sink writes for the chunks of a dispatch. *)
Fixpoint sseFrames (chunks : list (Z * string)) (s : sseSink) : list Frame :=
  match chunks with
  | [] => []
  | (created, content) :: chunks => let '(f, s) := sseChunk created content s in f :: sseFrames chunks s
  end.

(** [src/coordinator/cmd/coordinator/main.go:1493-1500] collectSink (with Chunk): the content it collects. *)
Definition collectSink (chunks : list (Z * string)) : string :=
  fold_left (fun content c => content +:+ c.2) chunks "".

(** [src/coordinator/cmd/coordinator/main.go:1502-1514] meteredSink (with its methods): [OutputChars] after the chunks. *)
Definition meteredSink (chunks : list (Z * string)) : Z :=
  fold_left (fun chars c => chars +w rune_count c.2) chunks 0.

(** ** The response body *)

Definition message_json (m : ChatMessage) : list Z :=
  json_object [("role", Some (json_string (cm_Role m))); ("content", Some (json_string (cm_Content m)))].

Definition json_array (l : list (list Z)) : list Z := 91 :: comma_sep l ++ [93].

Definition choice_json (c : ResponseChoice) : list Z :=
  json_object [("index", Some (json_int (rc_Index c))); ("message", Some (message_json (rc_Message c)));
               ("finish_reason", Some (json_string (rc_FinishReason c)))].

Definition usage_json (u : ChatUsage) : list Z :=
  json_object [("prompt_tokens", Some (json_int (cu_PromptTokens u)));
               ("completion_tokens", Some (json_int (cu_CompletionTokens u)));
               ("total_tokens", Some (json_int (cu_TotalTokens u)))].

(** [json.Marshal] of a response. *)
Definition response_json (r : ChatCompletionResponse) : list Z :=
  json_object [("id", Some (json_string (cc_ID r))); ("object", Some (json_string (cc_Object r)));
               ("created", Some (json_int (cc_Created r))); ("model", Some (json_string (cc_Model r)));
               ("choices", Some (json_array (choice_json <$> cc_Choices r)));
               ("usage", Some (usage_json (cc_Usage r)))].

Definition chunk_choice_json (c : ChunkChoice) : list Z :=
  json_object [("index", Some (json_int (ck_Index c))); ("delta", Some (message_json (ck_Delta c)));
               ("finish_reason", Some (match ck_FinishReason c with Some f => json_string f | None => bytes "null" end))].

(** [json.Marshal] of a stream chunk. *)
Definition chunk_json (c : ChatCompletionChunk) : list Z :=
  json_object [("id", Some (json_string (ch_ID c))); ("object", Some (json_string (ch_Object c)));
               ("created", Some (json_int (ch_Created c))); ("model", Some (json_string (ch_Model c)));
               ("choices", Some (json_array (chunk_choice_json <$> ch_Choices c)))].

(** [src/coordinator/cmd/coordinator/main.go:1290-1292] writeStreamError (the payload) *)
Definition stream_error_json (message : string) : list Z :=
  json_object [("error", Some (json_object [("message", Some (json_string message)); ("type", Some (json_string "mi_error"))]))].

(** [src/coordinator/cmd/coordinator/main.go:1539-1543] writeSSE; the bytes of one frame. *)
Definition writeSSE (f : Frame) : list Z :=
  bytes "data: "
  ++ match f with FChunk c => chunk_json c | FError message => stream_error_json message | FDone => bytes "[DONE]" end
  ++ [10; 10].

(** ** Chat completions *)

(** What a settled request tells the ledger. *)
Definition settleInput (requestID cid model tier : string) (result : DispatchResult) (done : InferDone) (latency : Z)
  : RecordInput :=
  {| ri_RequestID := requestID; ri_ConsumerID := cid; ri_ProviderID := dr_ProviderID result; ri_NodeID := dr_NodeID result;
     ri_Model := model; ri_PrivacyTier := tier; ri_Done := done; ri_Latency := latency;
     ri_DispatchAttempts := dr_Attempts result |}.

(** [src/coordinator/cmd/coordinator/main.go:1169-1170] streamChat (the headers) *)
Definition estimateHeaders (tier : string) : list (string * string) :=
  [("X-Mi-Privacy-Tier", tier); ("X-Mi-Usage-Source", "coordinator_estimate")].

(** [src/coordinator/cmd/coordinator/main.go:1159-1212] streamChat *)
Definition streamChat (flusher : bool) (requestID responseModel : string) (req : InferRequest) (cid : string)
    (reservation : option QuotaReservation) : Prog Reply :=
  if negb flusher then
    let! _ := ReleaseReservation' reservation in
    Ret (httpError [] "streaming unsupported" 500)
  else
    let headers := [("Content-Type", "text/event-stream"); ("Cache-Control", "no-cache"); ("Connection", "keep-alive")]
      ++ estimateHeaders (ir_PrivacyTier req) ++ declareDispatchTrailers in
    let sink := {| ss_requestID := requestID; ss_model := responseModel; ss_sentRole := false |} in
    let! startedAt := Now' in
    let! out := Dispatch' "" req in
    let! endedAt := Now' in
    let latency := time_sub endedAt startedAt in
    let result := dp_result out in
    let frames := sseFrames (dp_chunks out) sink in
    let stream frames := {| ry_Status := 200; ry_Headers := headers; ry_Body := BEvents frames;
                            ry_Trailers := setDispatchHeaders result |} in
    match dp_error out with
    | Some err =>
        let! _ := ReleaseReservation' reservation in
        Ret (stream (frames ++ [FError (dispatch_error_text err)]))
    | None =>
        let done := coordinatorMeasuredDone req (dr_Done result) (meteredSink (dp_chunks out)) in
        let! _ := RecordReserved' reservation cid (dr_ProviderID result) done in
        let! _ := Settle' (settleInput requestID cid responseModel (ir_PrivacyTier req) result done latency) in
        let! now := Now' in
        let chunk := {| ch_ID := requestID; ch_Object := "chat.completion.chunk"; ch_Created := unix now;
                        ch_Model := responseModel;
                        ch_Choices := [{| ck_Index := 0; ck_Delta := {| cm_Role := ""; cm_Content := "" |};
                                          ck_FinishReason := Some (id_FinishReason done) |}] |} in
        Ret (stream (frames ++ [FChunk chunk; FDone]))
    end.

(** [src/coordinator/cmd/coordinator/main.go:1255-1270] blockingChat (the response) *)
Definition chatResponse (requestID responseModel : string) (created : Z) (content : string) (done : InferDone)
  : ChatCompletionResponse :=
  {| cc_ID := requestID; cc_Object := "chat.completion"; cc_Created := created; cc_Model := responseModel;
     cc_Choices := [{| rc_Index := 0; rc_Message := {| cm_Role := "assistant"; cm_Content := content |};
                       rc_FinishReason := id_FinishReason done |}];
     cc_Usage := {| cu_PromptTokens := id_PromptTokens done; cu_CompletionTokens := id_OutputTokens done;
                    cu_TotalTokens := id_PromptTokens done +w id_OutputTokens done |} |}.

(** [Abort] of the claim, when the request has one. *)
Definition abortClaim (activeIdemKey : string) (next : Prog Reply) : Prog Reply :=
  if negb (activeIdemKey =s "") then let! _ := Abort' activeIdemKey in next else next.

(** [src/coordinator/cmd/coordinator/main.go:1214-1287] blockingChat *)
Definition blockingChat (requestID responseModel : string) (req : InferRequest) (cid : string)
    (reservation : option QuotaReservation) (activeIdemKey : string) : Prog Reply :=
  let! startedAt := Now' in
  let! out := Dispatch' "" req in
  let! endedAt := Now' in
  let latency := time_sub endedAt startedAt in
  let result := dp_result out in
  let headers := estimateHeaders (ir_PrivacyTier req) ++ setDispatchHeaders result in
  match dp_error out with
  | Some err =>
      let! _ := ReleaseReservation' reservation in
      abortClaim activeIdemKey (Ret (httpError headers (dispatch_error_text err) (dispatchStatus err)))
  | None =>
      let done := coordinatorMeasuredDone req (dr_Done result) (meteredSink (dp_chunks out)) in
      let! _ := RecordReserved' reservation cid (dr_ProviderID result) done in
      let! _ := Settle' (settleInput requestID cid responseModel (ir_PrivacyTier req) result done latency) in
      let! now := Now' in
      let response := chatResponse requestID responseModel (unix now) (collectSink (dp_chunks out)) done in
      let body := of_bytes (response_json response ++ [10]) in
      let success := reply 200 (headers ++ [("Content-Type", "application/json")]) (BBytes body) in
      if negb (activeIdemKey =s "") then
        let! err := Complete' activeIdemKey 200 "application/json" body in
        match err with
        | Some _ => Ret (httpError headers "idempotency store error" 500)
        | None => Ret success
        end
      else Ret success
  end.

(** [src/coordinator/cmd/coordinator/main.go:966-981] chatCompletions (the request to the node) *)
Definition chatInferRequest (s : server) (r : HttpRequest) (req : ChatCompletionRequest) (tier : string) : InferRequest :=
  applyDefaultMaxTokens
    {| ir_Model := rs_Target (Resolve (sv_modelCatalog s) (cr_Model req));
       ir_Messages := (fun m => {| pm_Role := cm_Role m; pm_Content := cm_Content m |}) <$> cr_Messages req;
       ir_Stream := cr_Stream req;
       ir_PrivacyTier := tier;
       ir_Backend := requestCapabilityValue r "X-Mi-Backend" (cr_MiBackend req);
       ir_DeviceKind := requestCapabilityValue r "X-Mi-Device-Kind" (cr_MiDeviceKind req);
       ir_SoC := requestCapabilityValue r "X-Mi-SoC" (cr_MiSoC req);
       ir_Accelerators := requestAccelerators r req;
       ir_Temperature := cr_Temperature req;
       ir_MaxTokens := cr_MaxTokens req |}.

Definition invalidTier : Reply :=
  writeJSONStatus [] 400 (BError "privacy_tier must be one of private, community, public" "invalid_privacy_tier").

(** The reply stored under a completed key. *)
Definition replay (rec : IdemRecord) : Reply :=
  reply (im_StatusCode rec) [("Content-Type", im_ContentType rec); ("X-Mi-Idempotent-Replay", "true")]
    (BBytes (im_Response rec)).

(** [src/coordinator/cmd/coordinator/main.go:1027-1047] chatCompletions (from the reservation on) *)
Definition reserveAndServe (requestID : string) (req : ChatCompletionRequest) (inferReq : InferRequest) (cid : string)
    (flusher : bool) (activeIdemKey : string) : Prog Reply :=
  let! reserved := ReserveConsumerQuota' cid (estimateTokenBudget req) in
  match reserved with
  | Err err => abortClaim activeIdemKey (Ret (quotaError err))
  | Ok reservation =>
      if cr_Stream req then streamChat flusher requestID (cr_Model req) inferReq cid reservation
      else blockingChat requestID (cr_Model req) inferReq cid reservation activeIdemKey
  end.

(** [src/coordinator/cmd/coordinator/main.go:985-1025] chatCompletions (the idempotency key) *)
Definition claimKey (s : server) (r : HttpRequest) (stream : bool) (cid : string) (next : string -> Prog Reply)
  : Prog Reply :=
  let key := hr_Header r "Idempotency-Key" in
  if negb (key =s "") && stream then
    Ret (writeJSONStatus [] 400 (BError "idempotency keys require stream=false" "invalid_request"))
  else if Enabled (sv_idempotency s) && negb (key =s "") then
    let scoped := idempotencyScopedKey cid key in
    let! rec := Begin' scoped in
    match rec with
    | Err _ => Ret (writeJSONStatus [] 500 (BError "idempotency store error" "internal_error"))
    | Ok (Some rec) =>
        if im_Status rec =s "completed" then Ret (replay rec)
        else if im_Status rec =s "in_progress" then
          Ret (writeJSONStatus [] 409
                 (BError "a request with this Idempotency-Key is already in progress" "idempotency_conflict"))
        else next scoped
    | Ok None => next scoped
    end
  else next "".

(** [src/coordinator/cmd/coordinator/main.go:934-1048] chatCompletions *)
Definition chatCompletions (s : server) (r : HttpRequest) (body : RequestBody ChatCompletionRequest) (flusher : bool)
    (cid : string) : Prog Reply :=
  match decodeBody (sv_maxRequestBytes s) body with
  | Err err => Ret (decodeFailure err)
  | Ok req =>
      if (cr_Model req =s "") || bool_decide (cr_Messages req = []) then
        Ret (httpError [] "model and messages are required" 400)
      else
        let! id := RandomID' in
        let requestID := "chatcmpl-" +:+ id in
        match requestPrivacyTier r req with
        | Err _ => Ret invalidTier
        | Ok tier =>
            let inferReq := chatInferRequest s r req tier in
            claimKey s r (cr_Stream req) cid (fun activeIdemKey =>
              reserveAndServe requestID req inferReq cid flusher activeIdemKey)
        end
  end.

(** ** Embeddings *)

(** [src/coordinator/cmd/coordinator/main.go:1050-1157] embeddings *)
Definition embeddings (s : server) (r : HttpRequest) (body : RequestBody (EmbeddingRequest * RawInput)) (cid : string)
  : Prog Reply :=
  match decodeBody (sv_maxRequestBytes s) body with
  | Err err => Ret (decodeFailure err)
  | Ok (req, raw) =>
      match parseEmbeddingInput raw with
      | Err _ => Ret (httpError [] "model and non-empty input are required" 400)
      | Ok input =>
          if eq_Model req =s "" then Ret (httpError [] "model and non-empty input are required" 400)
          else if negb (eq_EncodingFormat req =s "") && negb (equal_fold (eq_EncodingFormat req) "float") then
            Ret (httpError [] "only encoding_format=float is supported" 400)
          else
            match requestEmbeddingPrivacyTier r req with
            | Err _ => Ret invalidTier
            | Ok tier =>
                let target := rs_Target (Resolve (sv_modelCatalog s) (eq_Model req)) in
                let promptTokens := estimateEmbeddingPromptTokens input in
                let! reserved := ReserveConsumerQuota' cid promptTokens in
                match reserved with
                | Err err => Ret (quotaError err)
                | Ok reservation =>
                    let! id := RandomID' in
                    let requestID := "embd-" +:+ id in
                    let! startedAt := Now' in
                    let! out := DispatchEmbedding' {| er_Model := target; er_Input := input; er_PrivacyTier := tier |} in
                    let! endedAt := Now' in
                    let latency := time_sub endedAt startedAt in
                    let '(result, err) := out in
                    let headers := estimateHeaders tier ++ setEmbeddingDispatchHeaders result in
                    match err with
                    | Some err =>
                        let! _ := ReleaseReservation' reservation in
                        Ret (httpError headers (dispatch_error_text err) (dispatchStatus err))
                    | None =>
                        let done := {| id_FinishReason := "stop"; id_PromptTokens := promptTokens; id_OutputTokens := 0;
                                       id_KeyID := ""; id_Signature := "" |} in
                        let! _ := RecordReserved' reservation cid (de_ProviderID result) done in
                        let! _ := Settle' {| ri_RequestID := requestID; ri_ConsumerID := cid;
                                             ri_ProviderID := de_ProviderID result; ri_NodeID := de_NodeID result;
                                             ri_Model := eq_Model req; ri_PrivacyTier := tier; ri_Done := done;
                                             ri_Latency := latency; ri_DispatchAttempts := de_Attempts result |} in
                        let data := imap (fun i vector =>
                          {| ed_Object := "embedding"; ed_Index := Z.of_nat i; ed_Embedding := vector |})
                          (es_Vectors (de_Result result)) in
                        Ret (writeJSON headers (BEmbeddings
                          {| eb_Object := "list"; eb_Data := data; eb_Model := eq_Model req;
                             eb_Usage := {| cu_PromptTokens := promptTokens; cu_CompletionTokens := 0;
                                            cu_TotalTokens := promptTokens |} |}))
                    end
                end
            end
      end
  end.
