(* ===== verification/AdminHandlers.v ===== *)
(** * The coordinator's administration and node handlers: [coordinator/cmd/coordinator/main.go]

    Accounts, the ledgers, reputation, integrity, payouts and challenges, the websocket
    session of a node, the background jobs, and [serve], the routes of [main]. *)

From S2P Require Import Prelude GoString GoSort GoFloat Sha256 HashChain Json Privacy Protocol Config.
From S2P Require Import ModelCatalog Settlement Scheduler Challenge City Reputation Idempotency NodeConn Requests Metrics.
From S2P Require Import Services Handlers.

(** ** Small functions of the standard library *)

Fixpoint digits_or_none (acc : Z) (s : string) : option Z :=
  match s with
  | EmptyString => Some acc
  | String c s =>
      let d := byte_val c - 48 in
      if (0 <=? d) && (d <=? 9) then digits_or_none (10 * acc + d) s else None
  end.

(** [strconv.Atoi] with its error dropped: 0 when the text is not a number, the nearest
    [int] when it does not fit. *)
Definition atoi (s : string) : Z :=
  let '(negative, digits) := match s with
    | String c s' => if byte_val c =? 45 then (true, s') else if byte_val c =? 43 then (false, s') else (false, s)
    | EmptyString => (false, s)
    end in
  if digits =s "" then 0
  else match digits_or_none 0 digits with
  | None => 0
  | Some n => clamp64 (if negative then - n else n)
  end.

(** ** Accounts *)

(** [src/coordinator/cmd/coordinator/main.go:1756-1761] writeAccountError (the reply) *)
Definition accountError (err : CityError) : Reply :=
  let '(status, type_) := writeAccountError err in
  writeJSONStatus [] status (BError (city_error_text err) type_).

(** What [json.Decoder.Decode] makes of an administrator's body; [Err None] is an empty body. *)
Definition AdminBody (A : Type) : Type := res (option string) A.

Definition badBody (err : option string) : Reply := httpError [] (default "EOF" err) 400.

(** [src/coordinator/cmd/coordinator/main.go:700-712] adminCreateConsumer *)
Definition adminCreateConsumer (body : AdminBody CreateConsumerInput) : Prog Reply :=
  match body with
  | Err err => Ret (badBody err)
  | Ok req =>
      let! created := CreateConsumer' req in
      match created with
      | Err err => Ret (accountError err)
      | Ok created => Ret (writeJSONStatus [] 201 (BCreatedConsumer created))
      end
  end.

(** [src/coordinator/cmd/coordinator/main.go:883-895] adminCreateProvider *)
Definition adminCreateProvider (body : AdminBody CreateProviderInput) : Prog Reply :=
  match body with
  | Err err => Ret (badBody err)
  | Ok req =>
      let! created := CreateProvider' req in
      match created with
      | Err err => Ret (accountError err)
      | Ok created => Ret (writeJSONStatus [] 201 (BCreatedProvider created))
      end
  end.

(** [src/coordinator/cmd/coordinator/main.go:897-904] adminRotateConsumerKey *)
Definition adminRotateConsumerKey (id : string) : Prog Reply :=
  let! rotated := RotateConsumerKey' id in
  match rotated with
  | Err err => Ret (accountError err)
  | Ok rotated => Ret (writeJSON [] (BCreatedConsumer rotated))
  end.

(** [src/coordinator/cmd/coordinator/main.go:906-913] adminRotateProviderToken *)
Definition adminRotateProviderToken (id : string) : Prog Reply :=
  let! rotated := RotateProviderToken' id in
  match rotated with
  | Err err => Ret (accountError err)
  | Ok rotated => Ret (writeJSON [] (BCreatedProvider rotated))
  end.

(** [src/coordinator/cmd/coordinator/main.go:915-922] adminDisableConsumer *)
Definition adminDisableConsumer (id : string) : Prog Reply :=
  let! consumer := DisableConsumer' id in
  match consumer with
  | Err err => Ret (accountError err)
  | Ok consumer => Ret (writeJSON [] (BDisabledConsumer consumer))
  end.

(** [src/coordinator/cmd/coordinator/main.go:924-932] adminDisableProvider *)
Definition adminDisableProvider (id : string) : Prog Reply :=
  let! provider := DisableProvider' id in
  match provider with
  | Err err => Ret (accountError err)
  | Ok provider =>
      let! disconnected := RemoveProvider' (pv_ID provider) in
      Ret (writeJSON [] (BDisabledProvider provider disconnected))
  end.

(** ** Inspection *)

(** [src/coordinator/cmd/coordinator/main.go:256-258] adminNodes *)
Definition adminNodes : Prog Reply := let! nodes := Nodes' in Ret (writeJSON [] (BNodes nodes)).

(** [src/coordinator/cmd/coordinator/main.go:260-283] adminMetrics (the handler) *)
Definition adminMetricsHandler : Prog Reply :=
  let! status := NetworkStatus' in
  let! nodes := Nodes' in
  let! ledger := Settlement' 0 in
  let! challenges := Challenges' 0 in
  Ret (reply 200 [("Content-Type", "text/plain; version=0.0.4; charset=utf-8")]
         (BLines (adminMetrics status nodes ledger challenges))).

(** [src/coordinator/cmd/coordinator/main.go:461-463] adminCity *)
Definition adminCity : Prog Reply := let! snapshot := MarketSnapshot' in Ret (writeJSON [] (BMarket snapshot)).

(** [src/coordinator/cmd/coordinator/main.go:465-468] adminSettlement *)
Definition adminSettlement (r : HttpRequest) : Prog Reply :=
  let! snapshot := Settlement' (atoi (hr_Query r "limit")) in Ret (writeJSON [] (BSettlement snapshot)).

(** [src/coordinator/cmd/coordinator/main.go:470-472] adminSettlementVerify *)
Definition adminSettlementVerify : Prog Reply :=
  let! verification := VerifySettlement' in Ret (writeJSON [] (BSettlementVerification verification)).

(** [src/coordinator/cmd/coordinator/main.go:572-575] adminChallenges *)
Definition adminChallenges (r : HttpRequest) : Prog Reply :=
  let! snapshot := Challenges' (atoi (hr_Query r "limit")) in Ret (writeJSON [] (BChallenges snapshot)).

(** [src/coordinator/cmd/coordinator/main.go:577-579] adminChallengesVerify *)
Definition adminChallengesVerify : Prog Reply :=
  let! verification := VerifyChallenges' in Ret (writeJSON [] (BChallengesVerification verification)).

(** ** Payouts *)

Definition csv_quote : Z := 34.

(** [csv.Writer.fieldNeedsQuotes]. *)
Definition csv_needs_quotes (field : string) : bool :=
  if field =s "" then false
  else if field =s "\." then true
  else existsb (fun b => (b =? 44) || (b =? csv_quote) || (b =? 13) || (b =? 10)) (bytes field)
       || match runes field with r :: _ => is_space r | [] => false end.

(** One field of a record as [csv.Writer.Write] writes it. *)
Definition csv_field (field : string) : list Z :=
  if csv_needs_quotes field
  then csv_quote :: (bytes field ≫= fun b => if b =? csv_quote then [csv_quote; csv_quote] else [b]) ++ [csv_quote]
  else bytes field.

Definition csv_record (fields : list string) : list Z := comma_sep (csv_field <$> fields) ++ [10].

Definition payout_header : list string :=
  ["provider_id"; "display_name"; "events"; "total_tokens"; "avg_latency_ms"; "reward_micros"; "penalty_micros"].

(** [src/coordinator/cmd/coordinator/main.go:490-498] adminPayoutsCSV (one row) *)
Definition payout_row (displayNames : gmap string string) (balance : Balance) : list string :=
  [b_AccountID balance; map_get "" displayNames (b_AccountID balance); itoa (b_Events balance);
   itoa (b_TotalTokens balance); itoa (b_AverageLatencyMs balance); itoa (b_RewardMicros balance);
   itoa (b_PenaltyMicros balance)].

(** The records of the file. *)
Definition payout_records (city : MarketSnapshot) (ledger : LedgerSnapshot) : list (list string) :=
  let displayNames := put_all pv_ID pv_DisplayName (sn_Providers city) ∅ in
  payout_header :: (payout_row displayNames <$> sort_by b_AccountID (ls_ProviderBalances ledger)).

(** [src/coordinator/cmd/coordinator/main.go:474-503] adminPayoutsCSV *)
Definition adminPayoutsCSV : Prog Reply :=
  let! city := MarketSnapshot' in
  let! ledger := Settlement' 0 in
  Ret (reply 200 [("Content-Type", "text/csv; charset=utf-8");
                  ("Content-Disposition", "attachment; filename=" +:+ of_bytes ([34] ++ bytes "mi-payouts.csv" ++ [34]))]
         (BBytes (of_bytes (payout_records city ledger ≫= csv_record)))).

(** ** Reputation *)

(** [src/coordinator/cmd/coordinator/main.go:561-564] applyProviderScores (the scores) *)
Definition reportScores (report : Report) : gmap string Z := put_all pr_ProviderID pr_Score (rp_Providers report) ∅.

(** [src/coordinator/cmd/coordinator/main.go:537-555] reputationReport *)
Definition reputationReport : Prog Report :=
  let! city := MarketSnapshot' in
  let! ledger := Settlement' 0 in
  let! challenges := Challenges' 0 in
  let! nodes := Nodes' in
  let! now := Now' in
  Ret (Build city nodes ledger challenges now).

(** [src/coordinator/cmd/coordinator/main.go:557-566] applyProviderScores *)
Definition applyProviderScores (report : Report) : Prog unit :=
  let! _ := SetProviderScores' (reportScores report) in Ret tt.

(** [src/coordinator/cmd/coordinator/main.go:505-509] adminReputation *)
Definition adminReputation : Prog Reply :=
  do! report := reputationReport in
  do! _ := applyProviderScores report in
  Ret (writeJSON [] (BReputation report)).

(** [src/coordinator/cmd/coordinator/main.go:511-516] refreshSchedulerReputation *)
Definition refreshSchedulerReputation : Prog unit :=
  do! report := reputationReport in applyProviderScores report.

(** [src/coordinator/cmd/coordinator/main.go:62-62] defaultReputationRefreshInterval *)
Definition defaultReputationRefreshInterval : Z := 30 * second.

(** ** Integrity *)

(** The JSON text that is hashed, without the hash. *)
Definition anchorText (a : integrityAnchor) : list Z :=
  if time_in_range (an_GeneratedAt a) then
    json_object
      [ ("version", Some (json_string (an_Version a)));
        ("generated_at", Some (json_time (an_GeneratedAt a)));
        ("settlement_events", Some (json_int (an_SettlementEvents a)));
        ("settlement_hash", Some (json_string (an_SettlementHash a)));
        ("challenge_events", Some (json_int (an_ChallengeEvents a)));
        ("challenge_hash", Some (json_string (an_ChallengeHash a)));
        ("anchor_hash", Some (json_string "")) ]
  else [].

(** [src/coordinator/cmd/coordinator/main.go:643-648] hashIntegrityAnchor *)
Definition hashIntegrityAnchor (anchor : integrityAnchor) : string := sha256_hex (anchorText anchor).

(** [src/coordinator/cmd/coordinator/main.go:621-641] integrityReport *)
Definition integrityReport : Prog IntegrityReport :=
  let! generatedAt := Now' in
  let! settlement := VerifySettlement' in
  let! challenges := VerifyChallenges' in
  let anchor := {|
    an_Version := "mi-integrity-v1";
    an_GeneratedAt := generatedAt;
    an_SettlementEvents := vf_Events settlement;
    an_SettlementHash := vf_LastHash settlement;
    an_ChallengeEvents := cv_Events challenges;
    an_ChallengeHash := cv_LastHash challenges;
    an_AnchorHash := "" |} in
  let anchor := anchor <| an_AnchorHash := hashIntegrityAnchor anchor |> in
  Ret {| it_GeneratedAt := generatedAt; it_Valid := vf_Valid settlement && cv_Valid challenges;
         it_Settlement := settlement; it_Challenges := challenges; it_Anchor := anchor |}.

(** [src/coordinator/cmd/coordinator/main.go:568-570] adminIntegrity *)
Definition adminIntegrity : Prog Reply :=
  do! report := integrityReport in Ret (writeJSON [] (BIntegrity report)).

(** ** Challenges *)

(** [src/coordinator/cmd/coordinator/main.go:581-601] adminRecordChallenge *)
Definition adminRecordChallenge (body : AdminBody ChallengeInput) : Prog Reply :=
  match body with
  | Err err => Ret (badBody err)
  | Ok req =>
      if (ci_ProviderID req =s "") || (ci_Challenge req =s "")
      then Ret (httpError [] "provider_id and challenge are required" 400)
      else
        let! event := RecordChallenge' req in
        match event with
        | Err ErrDisabled => Ret (httpError [] "challenge ledger disabled" 409)
        | Err ErrChallengeChain => Ret (httpError [] "invalid challenge chain" 500)
        | Err (ErrFile reason) => Ret (httpError [] reason 500)
        | Ok event => Ret (writeJSONStatus [] 201 (BChallenge event))
        end
  end.

(** How a synthetic challenge fails: no dispatch, a bad tier, or the ledger. *)
Inductive RunError := RunDispatch (err : DispatchError) | RunTier | RunLedger (err : ChallengeError).

Definition recordRun (input : ChallengeInput) : Prog (res RunError ChallengeEvent) :=
  let! event := RecordChallenge' input in
  match event with Ok event => Ret (Ok event) | Err err => Ret (Err (RunLedger err)) end.

(** [src/coordinator/cmd/coordinator/main.go:758-780] runSyntheticChallenge (the request) *)
Definition challengeRequest (model privacyTier : string) (cfg : ChallengeConfig) : InferRequest :=
  let prompt := if hc_Prompt cfg =s "" then "Answer briefly." else hc_Prompt cfg in
  {| ir_Model := model;
     ir_Messages := [{| pm_Role := "system"; pm_Content := "You are a concise assistant." |};
                     {| pm_Role := "user"; pm_Content := prompt |}];
     ir_Stream := false; ir_PrivacyTier := privacyTier; ir_Backend := ""; ir_DeviceKind := ""; ir_SoC := "";
     ir_Accelerators := []; ir_Temperature := None;
     ir_MaxTokens := Some (if hc_MaxTokens cfg <=? 0 then 12 else hc_MaxTokens cfg) |}.

(** [src/coordinator/cmd/coordinator/main.go:810-815] runSyntheticChallenge (the verdict) *)
Definition challengePassed (cfg : ChallengeConfig) (content : string) : bool :=
  let expected := trim_space (hc_ExpectedContains cfg) in
  let trimmed := trim_space content in
  if negb (expected =s "") then contains (to_lower trimmed) (to_lower expected) else negb (trimmed =s "").

(** [src/coordinator/cmd/coordinator/main.go:786-831] runSyntheticChallenge (once the provider is chosen) *)
Definition challengeProvider (cfg : ChallengeConfig) (model privacyTier providerID : string) (startedAt : Time)
  : Prog (res RunError ChallengeEvent) :=
  let! _ := RandomID' in
  let! out := Dispatch' providerID (challengeRequest model privacyTier cfg) in
  let! endedAt := Now' in
  let latency := time_sub endedAt startedAt in
  let result := dp_result out in
  let input passed score notes :=
    {| ci_ProviderID := dr_ProviderID result; ci_NodeID := dr_NodeID result;
       ci_Challenge := "synthetic-inference:" +:+ model; ci_Passed := passed; ci_LatencyMs := duration_ms latency;
       ci_Score := score; ci_Notes := notes |} in
  match dp_error out with
  | Some err =>
      if dr_ProviderID result =s "" then Ret (Err (RunDispatch err))
      else recordRun (input false 0 ("dispatch failed: " +:+ dispatch_error_text err))
  | None =>
      if challengePassed cfg (collectSink (dp_chunks out)) then recordRun (input true 100 "synthetic inference completed")
      else recordRun (input false 40 "synthetic inference response did not match expected output")
  end.

(** [src/coordinator/cmd/coordinator/main.go:743-831] runSyntheticChallenge *)
Definition runSyntheticChallenge (cfg : ChallengeConfig) : Prog (res RunError ChallengeEvent) :=
  let go model :=
    let privacyTier := if hc_PrivacyTier cfg =s "" then Public else hc_PrivacyTier cfg in
    match NormalizeTier privacyTier with
    | Err _ => Ret (Err RunTier)
    | Ok _ =>
        let! startedAt := Now' in
        if negb (hc_ProviderID cfg =s "") then challengeProvider cfg model privacyTier (hc_ProviderID cfg) startedAt
        else
          let! nodes := Nodes' in
          let! providerID := NextChallenge' (challengeProviderCandidates nodes model privacyTier) in
          challengeProvider cfg model privacyTier providerID startedAt
    end in
  if hc_Model cfg =s "" then
    let! models := Models' in
    match models with
    | [] => Ret (Err (RunDispatch ErrNoNode))
    | model :: _ => go model
    end
  else go (hc_Model cfg).

(** [src/coordinator/cmd/coordinator/main.go:686-696] adminRunChallenge (the error) *)
Definition runErrorReply (err : RunError) : Reply :=
  match err with
  | RunDispatch err => httpError [] (dispatch_error_text err) (if is_ErrNoNode err then 503 else 500)
  | RunTier => httpError [] "invalid privacy tier" 500
  | RunLedger ErrDisabled => httpError [] "challenge ledger disabled" 409
  | RunLedger ErrChallengeChain => httpError [] "invalid challenge chain" 500
  | RunLedger (ErrFile reason) => httpError [] reason 500
  end.

Definition empty_ChallengeConfig : ChallengeConfig :=
  {| hc_Enabled := false; hc_Path := ""; hc_AutoRun := false; hc_Interval := 0; hc_Timeout := 0; hc_Model := "";
     hc_ProviderID := ""; hc_PrivacyTier := ""; hc_Prompt := ""; hc_ExpectedContains := ""; hc_MaxTokens := 0 |}.
#[export] Instance eta_ChallengeConfig : Settable ChallengeConfig := fun c =>
  Build_ChallengeConfig (hc_Enabled c) (hc_Path c) (hc_AutoRun c) (hc_Interval c) (hc_Timeout c) (hc_Model c)
    (hc_ProviderID c) (hc_PrivacyTier c) (hc_Prompt c) (hc_ExpectedContains c) (hc_MaxTokens c).

(** [src/coordinator/cmd/coordinator/main.go:673-698] adminRunChallenge; an empty body is the zero configuration. *)
Definition adminRunChallenge (r : HttpRequest) (body : AdminBody ChallengeConfig) : Prog Reply :=
  match (match body with Err None => Ok empty_ChallengeConfig | body => body end) with
  | Err err => Ret (badBody err)
  | Ok cfg =>
      let cfg := if (hc_Model cfg =s "") && negb (hr_Query r "model" =s "")
        then cfg <| hc_Model := hr_Query r "model" |> else cfg in
      let cfg := if (hc_ProviderID cfg =s "") && negb (hr_Query r "provider_id" =s "")
        then cfg <| hc_ProviderID := hr_Query r "provider_id" |> else cfg in
      do! event := runSyntheticChallenge cfg in
      match event with
      | Err err => Ret (runErrorReply err)
      | Ok event => Ret (writeJSONStatus [] 201 (BChallenge event))
      end
  end.

(** [src/coordinator/cmd/coordinator/main.go:715-721] startChallengeRunner (whether and how often it runs) *)
Definition challengeRunnerInterval (cfg : ChallengeConfig) : option Z :=
  if negb (hc_Enabled cfg) || negb (hc_AutoRun cfg) then None
  else Some (if hc_Interval cfg <=? 0 then 600 * second else hc_Interval cfg).

(** ** The websocket of a node *)

(** How a session ends: before the upgrade, closed with a reason, or after its messages. *)
Inductive Session :=
| Refused (r : Reply)
| NotUpgraded
| PolicyViolation (reason : string)
| Ended (delivered : list Envelope).

(** [src/coordinator/cmd/coordinator/main.go:1339-1346] nodeWebSocket (one message) *)
Definition onNodeMessage (msg : Envelope) (delivered : list Envelope) (next : list Envelope -> Prog Session)
  : Prog Session :=
  if env_Type msg =s "heartbeat" then
    match env_Heartbeat msg with
    | Some hb => let! _ := Heartbeat' hb in next delivered
    | None => next delivered
    end
  else if deliverable msg then next (delivered ++ [msg])
  else next delivered.

(** [src/coordinator/cmd/coordinator/main.go:1333-1347] nodeWebSocket (the loop); the messages that arrive before a read fails. *)
Fixpoint nodeLoop (nodeID : string) (messages : list Envelope) (delivered : list Envelope) : Prog Session :=
  match messages with
  | [] => let! _ := Remove' nodeID in Ret (Ended delivered)
  | msg :: messages => onNodeMessage msg delivered (nodeLoop nodeID messages)
  end.

(** The first message of a session, when it is a registration. *)
Definition registration (first : res string Envelope) : option Register :=
  match first with
  | Err _ => None
  | Ok first =>
      if negb (env_Type first =s "register") then None
      else match env_Register first with
      | Some reg => if reg_NodeID reg =s "" then None else Some reg
      | None => None
      end
  end.

(** [src/coordinator/cmd/coordinator/main.go:1296-1348] nodeWebSocket; [upgraded] is whether [websocket.Accept]
    succeeds, [conn] the connection. *)
Definition nodeWebSocket (s : server) (r : HttpRequest) (upgraded : bool) (conn : Conn) (first : res string Envelope)
    (messages : list Envelope) : Prog Session :=
  if sv_requireNodeClientCert s && negb (hasClientCertificate r)
  then Ret (Refused (httpError [] "node client certificate required" 401))
  else if negb upgraded then Ret NotUpgraded
  else match registration first with
  | None => Ret (PolicyViolation "register required")
  | Some reg =>
      let! provider := AuthenticateProvider' reg in
      match provider with
      | Err _ => Ret (PolicyViolation "provider token required")
      | Ok providerID =>
          let reg := reg <| reg_ProviderID := providerID |> in
          let! privacy := EnforceProviderPrivacy' providerID (reg_PrivacyMode reg) (reg_PrivacyTiers reg) in
          match privacy with
          | Err _ => Ret (PolicyViolation "provider privacy policy rejected")
          | Ok (privacyMode, privacyTiers) =>
              let reg := reg <| reg_PrivacyMode := privacyMode |> <| reg_PrivacyTiers := privacyTiers |> in
              let! _ := Register' reg conn in
              nodeLoop (reg_NodeID reg) messages []
          end
      end
  end.

(** ** Routes *)

(** [src/coordinator/cmd/coordinator/dashboard.go:7-9] adminDashboardRedirect *)
Definition adminDashboardRedirect : Prog Reply :=
  Ret (reply 302 [("Location", "/admin/dashboard")] (BRedirect "/admin/dashboard")).

(** [src/coordinator/cmd/coordinator/dashboard.go:11-15] adminDashboard; the page's text is a parameter, its body is in [DashboardMarkup]. *)
Definition adminDashboard (page : string) : Prog Reply :=
  Ret (reply 200 [("Content-Type", "text/html; charset=utf-8"); ("Cache-Control", "no-store")] (BBytes page)).

(** The endpoints, with what the router and the decoder take from the request. *)
Inductive Endpoint :=
| GetHealth
| GetNetworkStatus
| GetMe
| GetModels
| GetModelsCatalog
| PostChatCompletions (body : RequestBody ChatCompletionRequest) (flusher : bool)
| PostEmbeddings (body : RequestBody (EmbeddingRequest * RawInput))
| GetAdmin
| GetAdminDashboard
| GetAdminMetrics
| GetAdminNodes
| GetAdminCity
| GetAdminSettlement
| GetAdminSettlementVerify
| GetAdminPayouts
| GetAdminReputation
| GetAdminIntegrity
| GetAdminChallenges
| PostAdminChallenges (body : AdminBody ChallengeInput)
| PostAdminChallengesRun (body : AdminBody ChallengeConfig)
| GetAdminChallengesVerify
| PostAdminConsumers (body : AdminBody CreateConsumerInput)
| PostAdminRotateConsumerKey (id : string)
| DeleteAdminConsumer (id : string)
| PostAdminProviders (body : AdminBody CreateProviderInput)
| PostAdminRotateProviderToken (id : string)
| DeleteAdminProvider (id : string).

(** [src/coordinator/cmd/coordinator/main.go:113-141] main (the routes, the websocket apart) *)
Definition serve (s : server) (page : string) (e : Endpoint) (r : HttpRequest) : Prog Reply :=
  match e with
  | GetHealth => health
  | GetNetworkStatus => networkStatus
  | GetMe => requireConsumer me r
  | GetModels => requireConsumer (models s) r
  | GetModelsCatalog => requireConsumer (modelsCatalog s) r
  | PostChatCompletions body flusher => requireConsumerQuota (chatCompletions s r body flusher) r
  | PostEmbeddings body => requireConsumerQuota (embeddings s r body) r
  | GetAdmin => adminDashboardRedirect
  | GetAdminDashboard => adminDashboard page
  | GetAdminMetrics => requireAdmin s adminMetricsHandler r
  | GetAdminNodes => requireAdmin s adminNodes r
  | GetAdminCity => requireAdmin s adminCity r
  | GetAdminSettlement => requireAdmin s (adminSettlement r) r
  | GetAdminSettlementVerify => requireAdmin s adminSettlementVerify r
  | GetAdminPayouts => requireAdmin s adminPayoutsCSV r
  | GetAdminReputation => requireAdmin s adminReputation r
  | GetAdminIntegrity => requireAdmin s adminIntegrity r
  | GetAdminChallenges => requireAdmin s (adminChallenges r) r
  | PostAdminChallenges body => requireAdmin s (adminRecordChallenge body) r
  | PostAdminChallengesRun body => requireAdmin s (adminRunChallenge r body) r
  | GetAdminChallengesVerify => requireAdmin s adminChallengesVerify r
  | PostAdminConsumers body => requireAdmin s (adminCreateConsumer body) r
  | PostAdminRotateConsumerKey id => requireAdmin s (adminRotateConsumerKey id) r
  | DeleteAdminConsumer id => requireAdmin s (adminDisableConsumer id) r
  | PostAdminProviders body => requireAdmin s (adminCreateProvider body) r
  | PostAdminRotateProviderToken id => requireAdmin s (adminRotateProviderToken id) r
  | DeleteAdminProvider id => requireAdmin s (adminDisableProvider id) r
  end.
