(* ===== verification/Router.v ===== *)
(** * From a request line to an endpoint: the routes of [main] under [http.ServeMux]

    [routes] is the table of [mux.HandleFunc] calls.  [route] is what the standard library's
    [net/http] and [net/url] do with a method and a request target: the path is unescaped once to
    see that it can be, cleaned (a path that is not clean is redirected), cut into segments, each
    unescaped by itself, and matched against the patterns; [query_get] is [URL.Query().Get].  The
    patterns are disjoint ([routes_disjoint]), so their order and precedence do not matter. *)

From S2P Require Import Prelude GoString GoSort GoFloat GoFormat JsonDecode Privacy Protocol Config ModelCatalog.
From S2P Require Import Settlement Scheduler Challenge City Reputation Requests Services Handlers AdminHandlers.

(** ** [net/url] *)

(** [url.PathUnescape], and [url.QueryUnescape] when a plus is a space. *)
Fixpoint url_unescape (plus : bool) (l : list Z) : option (list Z) :=
  match l with
  | [] => Some []
  | c :: t =>
      if c =? 37 then
        match t with
        | h :: k :: t' =>
            if is_hex h && is_hex k then cons (16 * hex_value h + hex_value k) <$> url_unescape plus t' else None
        | _ => None
        end
      else cons (if plus && (c =? 43) then 32 else c) <$> url_unescape plus t
  end.

Definition url_alnum (c : Z) : bool :=
  ((65 <=? c) && (c <=? 90)) || ((97 <=? c) && (c <=? 122)) || ((48 <=? c) && (c <=? 57)).

(** [shouldEscape] in a path: letters, digits, [-_.~] and [$&+,/:;=@] stay. *)
Definition path_escape_needed (c : Z) : bool :=
  negb (url_alnum c || existsb (Z.eqb c) [45; 95; 46; 126; 36; 38; 43; 44; 47; 58; 59; 61; 64]).

Definition upper_hex (d : Z) : Z := if d <? 10 then 48 + d else 55 + d.
Definition escape_path (l : list Z) : list Z :=
  flat_map (fun c => if path_escape_needed c then [37; upper_hex (c / 16); upper_hex (c mod 16)] else [c]) l.

(** [validEncoded]. *)
Definition valid_encoded (l : list Z) : bool :=
  forallb (fun c => existsb (Z.eqb c) [33; 36; 38; 39; 40; 41; 42; 43; 44; 59; 61; 58; 64; 91; 93; 37] || negb (path_escape_needed c)) l.

(** [EscapedPath] of a request's path; [None] is a path that does not url_unescape. *)
Definition escaped_path (p : list Z) : option (list Z) :=
  match url_unescape false p with
  | None => None
  | Some path =>
      let e := escape_path path in
      Some (if bool_decide (p = e) || valid_encoded p then p else e)
  end.

(** The text before and after the first [c]. *)
Fixpoint cut_at (c : Z) (l : list Z) : list Z * option (list Z) :=
  match l with
  | [] => ([], None)
  | d :: l => if d =? c then ([], Some l) else let '(a, b) := cut_at c l in (d :: a, b)
  end.

Fixpoint split_on (c : Z) (l : list Z) : list (list Z) :=
  match l with
  | [] => [[]]
  | d :: l =>
      if d =? c then [] :: split_on c l
      else match split_on c l with s :: ss => (d :: s) :: ss | [] => [[d]] end
  end.

(** [URL.Query().Get]: pairs with a semicolon or a bad escape are dropped. *)
Definition query_pair (pair : list Z) : option (list Z * list Z) :=
  if bool_decide (59 ∈ pair) then None
  else match pair with
  | [] => None
  | _ =>
      let '(k, v) := cut_at 61 pair in
      match url_unescape true k, url_unescape true (default [] v) with
      | Some k, Some v => Some (k, v)
      | _, _ => None
      end
  end.

Definition query_get (query : list Z) (key : string) : string :=
  match list_find (fun kv => kv.1 = bytes key) (omap query_pair (split_on 38 query)) with
  | Some (_, (_, v)) => of_bytes v
  | None => ""
  end.

(** ** [http.ServeMux] *)

(** [path.Clean] on the segments of a rooted path, the last first. *)
Fixpoint clean_segments (done_ : list (list Z)) (segs : list (list Z)) : list (list Z) :=
  match segs with
  | [] => rev done_
  | s :: segs =>
      if bool_decide (s = []) || bool_decide (s = [46]) then clean_segments done_ segs
      else if bool_decide (s = [46; 46]) then clean_segments (tail done_) segs
      else clean_segments (s :: done_) segs
  end.

Definition ends_with_slash (p : list Z) : bool := bool_decide (last p = Some 47).

(** [cleanPath]: a trailing slash stays. *)
Definition clean_path (p : list Z) : list Z :=
  let np := flat_map (fun s => 47 :: s) (clean_segments [] (split_on 47 p)) in
  match np with
  | [] => [47]
  | _ => if ends_with_slash p then np ++ [47] else np
  end.

(** The segments of a clean path, unescaped one by one; the last of a path that ends with a
    slash is the slash, which no segment of a pattern matches. *)
Definition path_segments (p : list Z) : list (list Z) :=
  match split_on 47 p with
  | _ :: segs => (fun s => match s with [] => [47] | _ => default s (url_unescape false s) end) <$> segs
  | [] => []
  end.

(** A pattern's segment: a literal, or a wildcard. *)
Definition pattern_segments (pattern : string) : list (option (list Z)) :=
  (fun s => match s with 123 :: _ => None | _ => Some s end) <$> tail (split_on 47 (bytes pattern)).

Fixpoint seg_eqb (s t : list Z) : bool :=
  match s, t with
  | [], [] => true
  | c :: s, d :: t => (c =? d) && seg_eqb s t
  | _, _ => false
  end.

Definition is_slash (s : list Z) : bool := seg_eqb s [47].

Fixpoint match_segments (pat : list (option (list Z))) (segs : list (list Z)) : option (list (list Z)) :=
  match pat, segs with
  | [], [] => Some []
  | Some s :: pat, seg :: segs => if seg_eqb s seg then match_segments pat segs else None
  | None :: pat, seg :: segs => if is_slash seg then None else cons seg <$> match_segments pat segs
  | _, _ => None
  end.

(** A pattern for GET also serves HEAD. *)
Definition method_matches (pattern method : string) : bool :=
  (pattern =s method) || ((pattern =s "GET") && (method =s "HEAD")).

(** ** The table *)

(** What the handlers read from the body, each as its own type. *)
Record Bodies := {
  bd_chat : RequestBody ChatCompletionRequest;
  bd_flusher : bool;
  bd_embeddings : RequestBody (EmbeddingRequest * RawInput);
  bd_challenge : AdminBody ChallengeInput;
  bd_run : AdminBody ChallengeConfig;
  bd_consumer : AdminBody CreateConsumerInput;
  bd_provider : AdminBody CreateProviderInput;
}.

Inductive Handler := HEndpoint (e : Endpoint) | HNodeWebSocket.

(** [src/coordinator/cmd/coordinator/main.go:113-141] main (the patterns); the handlers take the body and the wildcard. *)
Definition routes (b : Bodies) : list (string * string * (string -> Handler)) :=
  [ ("GET", "/health", fun _ => HEndpoint GetHealth);
    ("GET", "/network/status", fun _ => HEndpoint GetNetworkStatus);
    ("GET", "/v1/me", fun _ => HEndpoint GetMe);
    ("GET", "/v1/models", fun _ => HEndpoint GetModels);
    ("GET", "/v1/models/catalog", fun _ => HEndpoint GetModelsCatalog);
    ("POST", "/v1/chat/completions", fun _ => HEndpoint (PostChatCompletions (bd_chat b) (bd_flusher b)));
    ("POST", "/v1/embeddings", fun _ => HEndpoint (PostEmbeddings (bd_embeddings b)));
    ("GET", "/ws/node", fun _ => HNodeWebSocket);
    ("GET", "/admin", fun _ => HEndpoint GetAdmin);
    ("GET", "/admin/dashboard", fun _ => HEndpoint GetAdminDashboard);
    ("GET", "/admin/metrics", fun _ => HEndpoint GetAdminMetrics);
    ("GET", "/admin/nodes", fun _ => HEndpoint GetAdminNodes);
    ("GET", "/admin/city", fun _ => HEndpoint GetAdminCity);
    ("GET", "/admin/settlement", fun _ => HEndpoint GetAdminSettlement);
    ("GET", "/admin/settlement/verify", fun _ => HEndpoint GetAdminSettlementVerify);
    ("GET", "/admin/payouts.csv", fun _ => HEndpoint GetAdminPayouts);
    ("GET", "/admin/reputation", fun _ => HEndpoint GetAdminReputation);
    ("GET", "/admin/integrity", fun _ => HEndpoint GetAdminIntegrity);
    ("GET", "/admin/challenges", fun _ => HEndpoint GetAdminChallenges);
    ("POST", "/admin/challenges", fun _ => HEndpoint (PostAdminChallenges (bd_challenge b)));
    ("POST", "/admin/challenges/run", fun _ => HEndpoint (PostAdminChallengesRun (bd_run b)));
    ("GET", "/admin/challenges/verify", fun _ => HEndpoint GetAdminChallengesVerify);
    ("POST", "/admin/consumers", fun _ => HEndpoint (PostAdminConsumers (bd_consumer b)));
    ("POST", "/admin/consumers/{id}/rotate-key", fun id => HEndpoint (PostAdminRotateConsumerKey id));
    ("DELETE", "/admin/consumers/{id}", fun id => HEndpoint (DeleteAdminConsumer id));
    ("POST", "/admin/providers", fun _ => HEndpoint (PostAdminProviders (bd_provider b)));
    ("POST", "/admin/providers/{id}/rotate-token", fun id => HEndpoint (PostAdminRotateProviderToken id));
    ("DELETE", "/admin/providers/{id}", fun id => HEndpoint (DeleteAdminProvider id)) ].

Inductive RouteResult :=
| RBadRequest
| RRedirect (path : list Z)
| RHandler (h : Handler)
| RMethodNotAllowed
| RNotFound.

(** The handlers a method and segments match. *)
Definition matching (b : Bodies) (method : string) (segs : list (list Z)) : list Handler :=
  omap (fun '(m, pattern, h) =>
    if method_matches m method
    then (fun values => h (of_bytes (default [] (head values)))) <$> match_segments (pattern_segments pattern) segs
    else None) (routes b).

Definition path_known (segs : list (list Z)) (r : string * string * (string -> Handler)) : bool :=
  match match_segments (pattern_segments r.1.2) segs with Some _ => true | None => false end.

(** What the multiplexer does with a request line. *)
Definition route (b : Bodies) (method : string) (target : list Z) : RouteResult :=
  match escaped_path (cut_at 63 target).1 with
  | None => RBadRequest
  | Some p =>
      let path := clean_path p in
      if negb (bool_decide (path = p)) then RRedirect path
      else
        let segs := path_segments path in
        match matching b method segs with
        | h :: _ => RHandler h
        | [] => if existsb (path_known segs) (routes b) then RMethodNotAllowed else RNotFound
        end
  end.

(** ** The patterns are disjoint *)

(** Some segments match both. *)
Fixpoint overlap (p q : list (option (list Z))) : bool :=
  match p, q with
  | [], [] => true
  | Some s :: p, Some t :: q => seg_eqb s t && overlap p q
  | _ :: p, _ :: q => overlap p q
  | _, _ => false
  end.

Lemma seg_eqb_true s t : seg_eqb s t = true <-> s = t.
Proof.
  revert t. induction s as [|c s IH]; intros [|d t]; cbn [seg_eqb]; try done. rewrite andb_true_iff, Z.eqb_eq, IH.
  split; [by intros [-> ->]|by injection 1].
Qed.

Lemma match_overlap p q segs v w : match_segments p segs = Some v -> match_segments q segs = Some w -> overlap p q = true.
Proof.
  revert q segs v w. induction p as [|x p IH]; intros q [|s segs] v w Hp; cbn [match_segments] in Hp; [|done|by destruct x|].
  - destruct q as [|[t|] q]; done.
  - destruct q as [|y q]; [done|]. intros Hq.
    assert (Hrest : overlap p q = true).
    { destruct x as [t|], y as [u|]; cbn [match_segments] in *; repeat (case_match; try done);
        try (destruct (match_segments p segs) eqn:E1; [|done]); try (destruct (match_segments q segs) eqn:E2; [|done]); eapply IH; eassumption. }
    destruct x as [t|], y as [u|]; cbn [overlap match_segments] in *; try done.
    destruct (seg_eqb t s) eqn:E1; [|done]. destruct (seg_eqb u s) eqn:E2; [|done].
    apply seg_eqb_true in E1 as ->. apply seg_eqb_true in E2 as ->. by rewrite (proj2 (seg_eqb_true s s) eq_refl).
Qed.

(** Two patterns for one request have one method. *)
Definition method_overlap (m1 m2 : string) : bool := (m1 =s m2) || (m1 =s "HEAD") || (m2 =s "HEAD").

Lemma method_matches_overlap m1 m2 m : method_matches m1 m = true -> method_matches m2 m = true -> method_overlap m1 m2 = true.
Proof.
  unfold method_matches, method_overlap. rewrite !orb_true_iff, !andb_true_iff, !str_eqb_true.
  intros [-> | [-> ->]] [-> | [-> Hm]]; auto.
Qed.

Definition clash (r1 r2 : string * string * (string -> Handler)) : bool :=
  method_overlap r1.1.1 r2.1.1 && overlap (pattern_segments r1.1.2) (pattern_segments r2.1.2).

Fixpoint no_clash (l : list (string * string * (string -> Handler))) : bool :=
  match l with [] => true | r :: l => forallb (fun r' => negb (clash r r')) l && no_clash l end.

Lemma routes_no_clash b : no_clash (routes b) = true.
Proof. lazy. reflexivity. Qed.

(** At most one pattern matches a request, so neither the order of the table nor the precedence
    of the patterns decides which handler runs. *)
Theorem routes_disjoint b method segs : (length (matching b method segs) <= 1)%nat.
Proof.
  unfold matching. generalize (routes_no_clash b). generalize (routes b). intros l. induction l as [|[[m p] h] l IH]; intros Hc; [simpl; lia|].
  cbn [no_clash] in Hc. apply andb_true_iff in Hc as [Hr Hc]. specialize (IH Hc). cbn [omap list_omap].
  destruct (method_matches m method) eqn:Em; [|done]. destruct (match_segments (pattern_segments p) segs) as [v|] eqn:Ev; [|done].
  cbn [fmap option_fmap option_map length].
  enough (Hnil : omap (fun '(m, pattern, h) => if method_matches m method
      then (fun values => h (of_bytes (default [] (head values)))) <$> match_segments (pattern_segments pattern) segs else None) l = [])
    by (rewrite Hnil; simpl; lia).
  clear IH Hc. induction l as [|[[m' p'] h'] l IH]; [done|]. cbn [forallb] in Hr. apply andb_true_iff in Hr as [Hr Hl].
  cbn [omap list_omap]. destruct (method_matches m' method) eqn:Em'; [|by apply IH].
  destruct (match_segments (pattern_segments p') segs) as [w|] eqn:Ew; [exfalso|by apply IH].
  apply negb_true_iff in Hr. unfold clash in Hr. cbn [fst snd] in Hr.
  by rewrite (method_matches_overlap _ _ _ Em Em'), (match_overlap _ _ _ _ _ Ev Ew) in Hr.
Qed.

(** Some requests. *)
Example route_examples b :
  route b "GET" (bytes "/admin/nodes?x=1") = RHandler (HEndpoint GetAdminNodes)
  /\ route b "DELETE" (bytes "/admin/consumers/a%2Fb") = RHandler (HEndpoint (DeleteAdminConsumer "a/b"))
  /\ route b "GET" (bytes "/admin/consumers/alice") = RMethodNotAllowed
  /\ route b "GET" (bytes "/admin/consumers/../nodes") = RRedirect (bytes "/admin/nodes")
  /\ route b "GET" (bytes "/admin/nodes/") = RNotFound
  /\ route b "GET" (bytes "/admin/%zz") = RBadRequest.
Proof. split_and!; vm_compute; reflexivity. Qed.
