(* ===== verification/AdminJson.v ===== *)
(** * The administrators' requests and replies as bytes

    [decode_body] is [json.NewDecoder(r.Body).Decode] into a struct that is zero: the first value
    of the body, whatever follows it.  [bodies] reads the body of a request as each of the
    handlers does.  [reply_bytes] is what [writeJSONStatus] and [http.Error] write for the account
    endpoints and the challenges; [parse_encoded] reads such a text back.  The texts of the
    decoder's errors are the operation of a class. *)

From Stdlib Require Import ZifyBool.
From S2P Require Import Prelude GoString GoSort GoFloat Json JsonDecode JsonRoundTrip Settlement Challenge LedgerFiles.
From S2P Require Import JsonTree Privacy Protocol Config ModelCatalog Scheduler City Reputation Requests Services.
From S2P Require Import Handlers AdminHandlers Router.

(** ** Requests *)

(** The text of the decoder's error, which goes into the reply. *)
Class DecoderErrors := decoder_error : list Z -> string.

#[export] Instance eta_CreateConsumerInput : Settable CreateConsumerInput := fun i =>
  Build_CreateConsumerInput (ci_ID i) (ci_DisplayName i) (ci_TotalTokenLimit i).
#[export] Instance eta_CreateProviderInput : Settable CreateProviderInput := fun i =>
  Build_CreateProviderInput (pi_ID i) (pi_DisplayName i) (pi_PrivacyMode i) (pi_PrivacyTiers i).
#[export] Instance eta_ChallengeInput : Settable ChallengeInput := fun i =>
  Build_ChallengeInput (ci_ProviderID i) (ci_NodeID i) (ci_Challenge i) (ci_Passed i) (ci_LatencyMs i) (ci_Score i) (ci_Notes i).

Definition zero_CreateConsumerInput : CreateConsumerInput := {| ci_ID := ""; ci_DisplayName := ""; ci_TotalTokenLimit := 0 |}.

(** [src/internal/city/market.go:121-125] CreateConsumerInput (read) *)
Definition create_consumer_fields : list (string * setter CreateConsumerInput) :=
  [ ("id", as_string (fun v i => i <| City.ci_ID := v |>));
    ("display_name", as_string (fun v i => i <| ci_DisplayName := v |>));
    ("total_token_limit", as_int (fun v i => i <| ci_TotalTokenLimit := v |>)) ].

Definition zero_CreateProviderInput : CreateProviderInput :=
  {| pi_ID := ""; pi_DisplayName := ""; pi_PrivacyMode := ""; pi_PrivacyTiers := [] |}.

(** [src/internal/city/market.go:132-137] CreateProviderInput (read) *)
Definition create_provider_fields : list (string * setter CreateProviderInput) :=
  [ ("id", as_string (fun v i => i <| pi_ID := v |>));
    ("display_name", as_string (fun v i => i <| pi_DisplayName := v |>));
    ("privacy_mode", as_string (fun v i => i <| pi_PrivacyMode := v |>));
    ("privacy_tiers", as_strings (fun v i => i <| pi_PrivacyTiers := v |>)) ].

Definition zero_ChallengeInput : ChallengeInput :=
  {| ci_ProviderID := ""; ci_NodeID := ""; ci_Challenge := ""; ci_Passed := false; ci_LatencyMs := 0; ci_Score := 0; ci_Notes := "" |}.

(** [src/internal/challenge/ledger.go:31-39] RecordInput (read) *)
Definition challenge_input_fields : list (string * setter ChallengeInput) :=
  [ ("provider_id", as_string (fun v i => i <| ci_ProviderID := v |>));
    ("node_id", as_string (fun v i => i <| ci_NodeID := v |>));
    ("challenge", as_string (fun v i => i <| ci_Challenge := v |>));
    ("passed", as_bool (fun v i => i <| ci_Passed := v |>));
    ("latency_ms", as_int (fun v i => i <| ci_LatencyMs := v |>));
    ("score", as_int (fun v i => i <| ci_Score := v |>));
    ("notes", as_string (fun v i => i <| ci_Notes := v |>)) ].

(** [config.Duration] has no JSON method of its own: it is the struct that embeds a [time.Duration]. *)
Definition duration_fields : list (string * setter Z) := [("Duration", as_int (fun v _ => v))].
Definition as_duration {S} (get : S -> Z) (set : Z -> S -> S) : setter S := fun j s =>
  (fun d => set d s) <$> decode_struct duration_fields j (get s).

(** [src/internal/config/config.go:72-84] ChallengeConfig (read) *)
Definition challenge_config_fields : list (string * setter ChallengeConfig) :=
  [ ("enabled", as_bool (fun v c => c <| hc_Enabled := v |>));
    ("path", as_string (fun v c => c <| hc_Path := v |>));
    ("auto_run", as_bool (fun v c => c <| hc_AutoRun := v |>));
    ("interval", as_duration hc_Interval (fun v c => c <| hc_Interval := v |>));
    ("timeout", as_duration hc_Timeout (fun v c => c <| hc_Timeout := v |>));
    ("model", as_string (fun v c => c <| hc_Model := v |>));
    ("provider_id", as_string (fun v c => c <| hc_ProviderID := v |>));
    ("privacy_tier", as_string (fun v c => c <| hc_PrivacyTier := v |>));
    ("prompt", as_string (fun v c => c <| hc_Prompt := v |>));
    ("expected_contains", as_string (fun v c => c <| hc_ExpectedContains := v |>));
    ("max_tokens", as_int (fun v c => c <| hc_MaxTokens := v |>)) ].

Section Requests.
Context {DE : DecoderErrors}.

(** [Decode] of a body: the end of the input where there is no value. *)
Definition decode_body {A} (fields : list (string * setter A)) (zero : A) (l : list Z) : AdminBody A :=
  match skip_ws l with
  | [] => Err None
  | _ =>
      match parse_value (S (length l)) 0 l with
      | Some (j, _) => match decode_struct fields j zero with Some a => Ok a | None => Err (Some (decoder_error l)) end
      | None => Err (Some (decoder_error l))
      end
  end.

(** [src/coordinator/cmd/coordinator/main.go:701-702] adminCreateConsumer (the body) *)
Definition decode_CreateConsumerInput : list Z -> AdminBody CreateConsumerInput :=
  decode_body create_consumer_fields zero_CreateConsumerInput.
(** [src/coordinator/cmd/coordinator/main.go:884-885] adminCreateProvider (the body) *)
Definition decode_CreateProviderInput : list Z -> AdminBody CreateProviderInput :=
  decode_body create_provider_fields zero_CreateProviderInput.
(** [src/coordinator/cmd/coordinator/main.go:582-583] adminRecordChallenge (the body) *)
Definition decode_ChallengeInput : list Z -> AdminBody ChallengeInput := decode_body challenge_input_fields zero_ChallengeInput.
(** [src/coordinator/cmd/coordinator/main.go:674-675] adminRunChallenge (the body) *)
Definition decode_ChallengeConfig : list Z -> AdminBody ChallengeConfig := decode_body challenge_config_fields empty_ChallengeConfig.

(** What each handler of the administration reads from a body; the consumers' bodies stay as they are. *)
Definition bodies (b : Bodies) (l : list Z) : Bodies :=
  {| bd_chat := bd_chat b; bd_flusher := bd_flusher b; bd_embeddings := bd_embeddings b;
     bd_challenge := decode_ChallengeInput l; bd_run := decode_ChallengeConfig l;
     bd_consumer := decode_CreateConsumerInput l; bd_provider := decode_CreateProviderInput l |}.

(** A written tree, then anything that is not part of a number. *)
Lemma decode_written {A} (fields : list (string * setter A)) zero j a :
  writable max_depth j -> decode_struct fields j zero = Some a -> decode_body fields zero (write false 0 j) = Ok a.
Proof.
  intros Hw Hd. unfold decode_body. destruct (write_head false 0 max_depth j Hw) as (b & l & E & Hb & _).
  pose proof (weight_length false (weight j) j 0%nat max_depth ltac:(lia) Hw) as Hl.
  assert (Hr : reads false (S (length (write false 0 j))) 0 0 j).
  { apply (parse_value_write false (weight j)); [lia|lia|]. by rewrite Z.sub_0_r. }
  specialize (Hr [] eq_refl). rewrite app_nil_r in Hr. rewrite Hr, Hd. rewrite E. cbn [skip_ws]. by rewrite Hb.
Qed.
End Requests.

(** ** Replies *)

(** [src/internal/city/market.go:80-85] Consumer (written) *)
Definition consumer_view (c : Consumer) : members :=
  [ ("id", Some (string_tree (cn_ID c)));
    ("display_name", Some (string_tree (cn_DisplayName c)));
    ("total_token_limit", omit_int (cn_TotalTokenLimit c));
    ("disabled", omit_false (cn_Disabled c)) ].

(** [src/internal/city/market.go:87-93] Provider (written) *)
Definition provider_view (p : Provider) : members :=
  [ ("id", Some (string_tree (pv_ID p)));
    ("display_name", Some (string_tree (pv_DisplayName p)));
    ("disabled", omit_false (pv_Disabled p));
    ("privacy_mode", omit_string (pv_PrivacyMode p));
    ("privacy_tiers", omit_strings (pv_PrivacyTiers p)) ].

(** [src/internal/city/market.go:127-130] CreatedConsumer (written) *)
Definition created_consumer (c : CreatedConsumer) : members :=
  [("consumer", Some (struct_tree (consumer_view (cd_Consumer c)))); ("api_key", Some (string_tree (cd_APIKey c)))].

(** [src/internal/city/market.go:139-142] CreatedProvider (written) *)
Definition created_provider (p : CreatedProvider) : members :=
  [("provider", Some (struct_tree (provider_view (cp_Provider p)))); ("provider_token", Some (string_tree (cp_ProviderToken p)))].

(** [src/coordinator/cmd/coordinator/main.go:1756-1761] writeAccountError (the object); a map's keys are sorted. *)
Definition error_object (message type_ : string) : members :=
  [("error", Some (struct_tree [("message", Some (string_tree message)); ("type", Some (string_tree type_))]))].

(** The value of a body of the account endpoints. *)
Definition body_tree (b : Body) : option json :=
  match b with
  | BError message type_ => Some (struct_tree (error_object message type_))
  | BCreatedConsumer c => Some (struct_tree (created_consumer c))
  | BCreatedProvider p => Some (struct_tree (created_provider p))
  | BDisabledConsumer c => Some (struct_tree [("consumer", Some (struct_tree (consumer_view c)))])
  | BDisabledProvider p disconnected =>
      Some (struct_tree [("disconnected_nodes", Some (int_tree disconnected)); ("provider", Some (struct_tree (provider_view p)))])
  | _ => None
  end.

(** [src/coordinator/cmd/coordinator/main.go:1533-1537] writeJSONStatus (the bytes), and those of [http.Error]:
    a line. *)
Definition reply_bytes (r : Reply) : option (list Z) :=
  match ry_Body r with
  | BText s => Some (bytes s ++ [10])
  | BChallenge e => Some (challenge_line e ++ [10])
  | b => (fun j => write false 0 j ++ [10]) <$> body_tree b
  end.

(** A written tree and the line's end. *)
Lemma parse_encoded j : writable max_depth j -> parse (write false 0 j ++ [10]) = Some j.
Proof.
  intros Hw. unfold parse. pose proof (weight_length false (weight j) j 0%nat max_depth ltac:(lia) Hw) as Hl.
  assert (Hr : reads false (S (length (write false 0 j ++ [10]))) 0 0 j).
  { apply (parse_value_write false (weight j)); [lia|rewrite length_app; lia|]. by rewrite Z.sub_0_r. }
  rewrite (Hr [10] eq_refl). done.
Qed.

(** The accounts' texts are written. *)
Lemma error_writable message type_ : valid_text message -> valid_text type_ -> writable max_depth (struct_tree (error_object message type_)).
Proof. intros Hm Ht. unfold error_object, max_depth. write_members. write_members. Qed.

Definition consumer_texts (c : Consumer) : Prop := valid_text (cn_ID c) /\ valid_text (cn_DisplayName c) /\ in_int64 (cn_TotalTokenLimit c).
Definition provider_texts (p : Provider) : Prop :=
  valid_text (pv_ID p) /\ valid_text (pv_DisplayName p) /\ valid_text (pv_PrivacyMode p) /\ Forall valid_text (pv_PrivacyTiers p).

Lemma created_consumer_writable c : consumer_texts (cd_Consumer c) -> valid_text (cd_APIKey c) ->
  writable max_depth (struct_tree (created_consumer c)).
Proof. intros (H1 & H2 & H3) Hk. unfold created_consumer, max_depth. write_members. unfold consumer_view. write_members. Qed.

Lemma created_provider_writable p : provider_texts (cp_Provider p) -> valid_text (cp_ProviderToken p) ->
  writable max_depth (struct_tree (created_provider p)).
Proof. intros (H1 & H2 & H3 & H4) Hk. unfold created_provider, max_depth. write_members. unfold provider_view. write_members. Qed.
