(* ===== verification/HandlerProofs.v ===== *)
(** * What the handlers promise, whatever the components answer

    The theorems of the first part hold of every way a handler can go: they quantify over all
    answers of the services, so over every state, every failure and every interleaving
    with other requests.  [Books] is the part of a handler's calls that moves tokens,
    events and idempotency claims. *)

From S2P Require Import Prelude GoString GoSort GoFloat Sha256 HashChain Json Privacy Protocol Config.
From S2P Require Import ModelCatalog Settlement Scheduler SchedulerProofs Challenge City Reputation Idempotency NodeConn Requests.
From S2P Require Import Services Handlers AdminHandlers.

(** ** The books of a handler *)

Record Books := {
  bk_consumer : list string;                                        (* authenticated *)
  bk_granted : list (option QuotaReservation);
  bk_released : list (option QuotaReservation);
  bk_charged : list (option QuotaReservation * string * string * InferDone);
  bk_settled : list RecordInput;
  bk_claimed : list string;
  bk_aborted : list string;
  bk_completed : list (string * Z * string * string * bool);        (* and whether it was stored *)
  bk_delivered : list (InferRequest * Dispatched);                  (* dispatches without an error *)
  bk_embedded : list (EmbedRequest * EmbedDispatchResult);
  bk_failed : list (InferRequest * Dispatched);                     (* dispatches that failed *)
  bk_stored : list IdemRecord;                                      (* completed records a key was found to have *)
}.
#[export] Instance eta_Books : Settable Books := fun b =>
  Build_Books (bk_consumer b) (bk_granted b) (bk_released b) (bk_charged b) (bk_settled b) (bk_claimed b) (bk_aborted b)
    (bk_completed b) (bk_delivered b) (bk_embedded b) (bk_failed b) (bk_stored b).

Definition empty_books : Books :=
  {| bk_consumer := []; bk_granted := []; bk_released := []; bk_charged := []; bk_settled := []; bk_claimed := [];
     bk_aborted := []; bk_completed := []; bk_delivered := []; bk_embedded := []; bk_failed := []; bk_stored := [] |}.

(** A key is claimed when [Begin] finds nothing stored and nobody running. *)
Definition claims (rec : res string (option IdemRecord)) : bool :=
  match rec with
  | Ok None => true
  | Ok (Some rec) => negb (im_Status rec =s "completed") && negb (im_Status rec =s "in_progress")
  | Err _ => false
  end.

Definition replayed (rec : res string (option IdemRecord)) : list IdemRecord :=
  match rec with Ok (Some rec) => if im_Status rec =s "completed" then [rec] else [] | _ => [] end.

Definition note_market (o : accountMarket) : market_answer o -> Books -> Books :=
  match o as o return market_answer o -> Books -> Books with
  | AuthenticateConsumer' _ => fun x b => match x with Ok id => b <| bk_consumer ::= fun l => l ++ [id] |> | Err _ => b end
  | ReserveConsumerQuota' _ _ => fun x b => match x with Ok r => b <| bk_granted ::= fun l => l ++ [r] |> | Err _ => b end
  | ReleaseReservation' r => fun _ b => b <| bk_released ::= fun l => l ++ [r] |>
  | RecordReserved' r cid pid done => fun _ b => b <| bk_charged ::= fun l => l ++ [(r, cid, pid, done)] |>
  | _ => fun _ b => b
  end.

Definition note_server (o : serverCall) : server_answer o -> Books -> Books :=
  match o as o return server_answer o -> Books -> Books with
  | Begin' key => fun x b =>
      (if claims x then b <| bk_claimed ::= fun l => l ++ [key] |> else b) <| bk_stored ::= fun l => l ++ replayed x |>
  | Complete' key code ctype body => fun x b =>
      b <| bk_completed ::= fun l => l ++ [(key, code, ctype, body, match x with None => true | Some _ => false end)] |>
  | Abort' key => fun _ b => b <| bk_aborted ::= fun l => l ++ [key] |>
  | _ => fun _ b => b
  end.

Definition note_registry (o : nodeRegistry) : registry_answer o -> Books -> Books :=
  match o as o return registry_answer o -> Books -> Books with
  | Dispatch' _ req => fun x b =>
      match dp_error x with
      | None => b <| bk_delivered ::= fun l => l ++ [(req, x)] |>
      | Some _ => b <| bk_failed ::= fun l => l ++ [(req, x)] |>
      end
  | DispatchEmbedding' req => fun x b =>
      match snd x with None => b <| bk_embedded ::= fun l => l ++ [(req, fst x)] |> | Some _ => b end
  | _ => fun _ b => b
  end.

Definition note (ob : Obs) : Books -> Books :=
  match ob with
  | Saw o x =>
      match o as o return Ans o -> Books -> Books with
      | OMarket o => note_market o
      | OServer o => note_server o
      | ORegistry o => note_registry o
      | OSettlement (Settle' input) => fun _ b => b <| bk_settled ::= fun l => l ++ [input] |>
      | _ => fun _ b => b
      end x
  end.

Definition books (tr : list Obs) : Books := fold_left (fun b ob => note ob b) tr empty_books.

Lemma books_snoc tr ob : books (tr ++ [ob]) = note ob (books tr).
Proof. unfold books. by rewrite fold_left_app. Qed.

(** [always] over the books alone. *)
Fixpoint accounts {A} (P : Books -> A -> Prop) (b : Books) (p : Prog A) : Prop :=
  match p with
  | Ret a => P b a
  | Call o k => forall x, accounts P (note (Saw o x) b) (k x)
  end.

Lemma accounts_always {A} (P : Books -> A -> Prop) tr p :
  accounts P (books tr) p -> always (fun tr a => P (books tr) a) tr p.
Proof.
  revert tr. induction p as [a|o k IH]; intros tr; simpl; [done|]. intros H x. apply IH.
  rewrite books_snoc. apply H.
Qed.

(** ** Serving a request *)

(** An error reply: an error status and an error's text, nothing of an answer. *)
Definition refusal (rep : Reply) : Prop :=
  400 <= ry_Status rep < 600
  /\ ((exists message, ry_Body rep = BText message) \/ exists message kind, ry_Body rep = BError message kind).

(** No charge, nothing stored: reservations released, claims given up. *)
Record unserved (b : Books) : Prop := {
  un_charged : bk_charged b = [];
  un_settled : bk_settled b = [];
  un_released : bk_released b = bk_granted b;
  un_aborted : bk_aborted b = bk_claimed b;
  un_completed : bk_completed b = [];
  un_delivered : bk_delivered b = [] /\ bk_embedded b = [];
}.

(** One charge and one event for the same consumer, provider and tokens, under the one
    reservation that was granted, which is not released apart. *)
Record charged_once (b : Books) (cid : string) (pid : string) (done : InferDone) : Prop := {
  ch_once : exists r, bk_granted b = [r] /\ bk_charged b = [(r, cid, pid, done)];
  ch_settled : exists input, bk_settled b = [input] /\ ri_ConsumerID input = cid /\ ri_ProviderID input = pid
                 /\ ri_Done input = done;
  ch_released : bk_released b = [];
  ch_aborted : bk_aborted b = [];
  ch_completed : (fun c => c.1.1.1.1) <$> bk_completed b = bk_claimed b;
}.

Definition delta (f : Frame) : string :=
  match f with
  | FChunk c => match ch_Choices c with ch :: _ => cm_Content (ck_Delta ch) | [] => "" end
  | _ => ""
  end.

(** The text a stream carries. *)
Definition stream_text (frames : list Frame) : string := fold_left (fun acc f => acc +:+ delta f) frames "".

(** What the client of a served chat gets: the text the node sent, and the tokens charged; as a stream, or
    as one response, which is stored when the request claimed a key. *)
Definition chat_reply (out : Dispatched) (done : InferDone) (b : Books) (rep : Reply) : Prop :=
  let text := collectSink (dp_chunks out) in
  ry_Status rep = 200
  /\ ((exists frames chunk, ry_Body rep = BEvents (frames ++ [FChunk chunk; FDone]) /\ bk_claimed b = []
       /\ stream_text frames = text /\ (fun c => ck_FinishReason c) <$> ch_Choices chunk = [Some (id_FinishReason done)])
     \/ exists id model created, let body := of_bytes (response_json (chatResponse id model created text done) ++ [10]) in
        ry_Body rep = BBytes body
        /\ bk_completed b = (fun key => (key, 200, "application/json", body, true)) <$> bk_claimed b).

(** How a chat request ends. *)
Inductive chat_outcome (b : Books) (rep : Reply) : Prop :=
| ChatRefused :
    unserved b -> bk_stored b = [] -> refusal rep -> chat_outcome b rep
| ChatReplayed rec :
    unserved b -> bk_claimed b = [] -> bk_failed b = [] -> bk_stored b = [rec] -> rep = replay rec -> chat_outcome b rep
| ChatBroken req out err frames :
    unserved b -> bk_stored b = [] -> bk_claimed b = [] -> bk_failed b = [(req, out)] -> dp_error out = Some err ->
    ry_Status rep = 200 -> ry_Body rep = BEvents (frames ++ [FError (dispatch_error_text err)]) ->
    stream_text frames = collectSink (dp_chunks out) -> chat_outcome b rep
| ChatServed id req out :
    let done := coordinatorMeasuredDone req (dr_Done (dp_result out)) (meteredSink (dp_chunks out)) in
    bk_consumer b = [id] -> bk_delivered b = [(req, out)] -> bk_failed b = [] -> bk_stored b = [] ->
    charged_once b (consumerID (Some id)) (dr_ProviderID (dp_result out)) done -> chat_reply out done b rep -> chat_outcome b rep
| ChatLost id req out key code ctype body :
    let done := coordinatorMeasuredDone req (dr_Done (dp_result out)) (meteredSink (dp_chunks out)) in
    bk_consumer b = [id] -> bk_delivered b = [(req, out)] -> bk_failed b = [] -> bk_stored b = [] ->
    charged_once b (consumerID (Some id)) (dr_ProviderID (dp_result out)) done ->
    bk_claimed b = [key] -> bk_completed b = [(key, code, ctype, body, false)] -> bk_aborted b = [] ->
    ry_Status rep = 500 -> refusal rep -> chat_outcome b rep.

Lemma sse_text chunks s acc :
  fold_left (fun acc f => acc +:+ delta f) (sseFrames chunks s) acc = fold_left (fun content c => content +:+ c.2) chunks acc.
Proof. revert s acc. induction chunks as [|[t c] l IH]; intros s acc; simpl; [done|]. apply IH. Qed.

Lemma stream_carries chunks s : stream_text (sseFrames chunks s) = collectSink chunks.
Proof. apply sse_text. Qed.

(** A request that was let through: its account, the reservation it holds, the key it claimed. *)
Definition holding (id : string) (r : option QuotaReservation) (key : string) : Books :=
  empty_books <| bk_consumer := [id] |> <| bk_granted := [r] |> <| bk_claimed := if key =s "" then [] else [key] |>.

Ltac outcome := repeat first [progress simpl | progress intros | case_goal].

Lemma streamChat_outcome id flusher rid model req r :
  accounts chat_outcome (holding id r "") (streamChat flusher rid model req (consumerID (Some id)) r).
Proof.
  unfold streamChat. destruct flusher; simpl; [|intros []; apply ChatRefused; [by constructor|done|split; [done|left; by eexists]]].
  intros t0 out t1. destruct (dp_error out) as [err|] eqn:Ed; simpl.
  - intros _. eapply ChatBroken; try done. simpl. apply stream_carries.
  - intros _ _ now. eapply ChatServed; try done.
    + constructor; simpl; try done; [by eexists|]. eexists. split; [done|]. by split_and!.
    + split; [done|]. left. eexists _, _. split_and!; [done|done| |done]. simpl. apply stream_carries.
Qed.

Lemma blockingChat_outcome id rid model req r key :
  accounts chat_outcome (holding id r key) (blockingChat rid model req (consumerID (Some id)) r key).
Proof.
  unfold blockingChat, abortClaim, holding. simpl. intros t0 out t1. destruct (dp_error out) as [err|] eqn:Ed; simpl.
  - intros _. assert (Href : forall h, refusal (httpError h (dispatch_error_text err) (dispatchStatus err))).
    { intros h. split; [|left; by eexists]. simpl. unfold dispatchStatus. by destruct (is_ErrNoNode err). }
    destruct (key =s "") eqn:Ek; simpl; [|intros _]; apply ChatRefused; try done; by constructor.
  - intros _ _ now. destruct (key =s "") eqn:Ek; simpl; [|intros stored; destruct stored as [err|]; simpl].
    + eapply (ChatServed _ _ id req out); try done; [constructor; simpl; first [done|by eexists|eexists; split; [done|by split_and!]]|].
      split; [done|]. right. exists rid, model, (unix now). by split.
    + eapply (ChatLost _ _ id req out); try done; [constructor; simpl; first [done|by eexists|eexists; split; [done|by split_and!]]|].
      split; [done|]. left. by eexists.
    + eapply (ChatServed _ _ id req out); try done; [constructor; simpl; first [done|by eexists|eexists; split; [done|by split_and!]]|].
      split; [done|]. right. exists rid, model, (unix now). by split.
Qed.

(** A request that was let through but holds nothing yet. *)
Definition admitted (id : string) (key : string) : Books :=
  empty_books <| bk_consumer := [id] |> <| bk_claimed := if key =s "" then [] else [key] |>.

Lemma admitted_unserved id : unserved (admitted id "").
Proof. by constructor. Qed.

Lemma scoped_key_nonempty cid key : (idempotencyScopedKey cid key =s "") = false.
Proof.
  apply str_eqb_false. intros H. destruct (sha256_hex_digest (bytes cid ++ [0] ++ bytes key)) as [Hl _].
  unfold idempotencyScopedKey in H. rewrite H in Hl. done.
Qed.

Lemma reserveAndServe_outcome id rid req inferReq flusher key :
  (cr_Stream req = true -> key = "") ->
  accounts chat_outcome (admitted id key) (reserveAndServe rid req inferReq (consumerID (Some id)) flusher key).
Proof.
  intros Hs. unfold reserveAndServe. simpl. intros [r|err]; simpl.
  - destruct (cr_Stream req); [rewrite Hs by done; apply streamChat_outcome|apply blockingChat_outcome].
  - assert (Href : refusal (quotaError err)) by (split; [done|right; by eexists _, _]).
    unfold abortClaim, admitted. destruct (key =s "") eqn:Ek; simpl; [|intros _]; apply ChatRefused; try done; by constructor.
Qed.

Lemma claimKey_outcome (P : Books -> Reply -> Prop) s r stream id cid next :
  (forall rep, refusal rep -> P (admitted id "") rep) ->
  (forall rec, P ((admitted id "") <| bk_stored := [rec] |>) (replay rec)) ->
  (forall key, (stream = true -> key = "") -> accounts P (admitted id key) (next key)) ->
  accounts P (admitted id "") (claimKey s r stream cid next).
Proof.
  intros Hu Hr Hn. unfold claimKey. destruct (negb (hr_Header r "Idempotency-Key" =s "") && stream) eqn:E1; simpl.
  { apply Hu. split; [done|right; by eexists _, _]. }
  destruct (Enabled (sv_idempotency s) && negb (hr_Header r "Idempotency-Key" =s "")) eqn:E2; simpl.
  - bsimpl. assert (stream = false) as -> by (destruct (hr_Header r "Idempotency-Key" =s ""), stream; done).
    specialize (Hn (idempotencyScopedKey cid (hr_Header r "Idempotency-Key"))).
    unfold admitted in Hn at 1. rewrite scoped_key_nonempty in Hn.
    intros [[rec|]|err]; simpl.
    + destruct (im_Status rec =s "completed") eqn:E3; simpl; [apply Hr|].
      destruct (im_Status rec =s "in_progress") eqn:E4; simpl; [apply Hu; split; [done|right; by eexists _, _]|]. by apply Hn.
    + by apply Hn.
    + apply Hu. split; [done|right; by eexists _, _].
  - apply Hn. done.
Qed.

Lemma chatCompletions_outcome s r body flusher id :
  accounts chat_outcome (admitted id "") (chatCompletions s r body flusher (consumerID (Some id))).
Proof.
  assert (Hu : forall rep, refusal rep -> chat_outcome (admitted id "") rep).
  { intros rep H. apply ChatRefused; [apply admitted_unserved|done|done]. }
  assert (Ht : forall h m c, 400 <= c < 600 -> refusal (httpError h m c)) by (intros; split; [done|left; by eexists]).
  assert (Hj : forall h m k c, 400 <= c < 600 -> refusal (writeJSONStatus h c (BError m k))) by (intros; split; [done|right; by eexists _, _]).
  unfold chatCompletions. destruct (decodeBody (sv_maxRequestBytes s) body) as [req|err]; simpl.
  2: { apply Hu. destruct err; by apply Ht. }
  case_goal; simpl; [apply Hu; first [by apply Hj|by apply Ht]|]. intros rid.
  destruct (requestPrivacyTier r req) as [tier|]; simpl; [|apply Hu; by apply Hj].
  apply claimKey_outcome; [done| |].
  - intros rec. by eapply ChatReplayed; [constructor|..].
  - intros key Hk. by apply reserveAndServe_outcome.
Qed.

(** ** Embeddings *)

Inductive embedding_outcome (b : Books) (rep : Reply) : Prop :=
| EmbeddingRefused : unserved b -> refusal rep -> embedding_outcome b rep
| EmbeddingServed id req result v :
    let tokens := estimateEmbeddingPromptTokens (er_Input req) in
    let done := {| id_FinishReason := "stop"; id_PromptTokens := tokens; id_OutputTokens := 0; id_KeyID := "";
                   id_Signature := "" |} in
    bk_consumer b = [id] -> bk_embedded b = [(req, result)] ->
    charged_once b (consumerID (Some id)) (de_ProviderID result) done ->
    ry_Status rep = 200 -> ry_Body rep = BEmbeddings v ->
    ed_Embedding <$> eb_Data v = es_Vectors (de_Result result) ->
    (forall i d, eb_Data v !! i = Some d -> ed_Index d = Z.of_nat i) ->
    eb_Usage v = {| cu_PromptTokens := tokens; cu_CompletionTokens := 0; cu_TotalTokens := tokens |} ->
    embedding_outcome b rep.

Lemma imap_data (vectors : list (list float)) :
  let data := imap (fun i vector => {| ed_Object := "embedding"; ed_Index := Z.of_nat i; ed_Embedding := vector |}) vectors in
  ed_Embedding <$> data = vectors /\ forall i d, data !! i = Some d -> ed_Index d = Z.of_nat i.
Proof.
  split.
  - apply list_eq. intros i. rewrite list_lookup_fmap, list_lookup_imap. by destruct (vectors !! i).
  - intros i d. rewrite list_lookup_imap. destruct (vectors !! i); simpl; [|done]. intros H. injection H as H. by subst d.
Qed.

Lemma embeddings_outcome s r body id :
  accounts embedding_outcome (admitted id "") (embeddings s r body (consumerID (Some id))).
Proof.
  assert (Hu : forall rep, refusal rep -> embedding_outcome (admitted id "") rep).
  { intros rep H. apply EmbeddingRefused; [apply admitted_unserved|done]. }
  assert (Ht : forall h m c, 400 <= c < 600 -> refusal (httpError h m c)) by (intros; split; [done|left; by eexists]).
  assert (Hj : forall h m k c, 400 <= c < 600 -> refusal (writeJSONStatus h c (BError m k))) by (intros; split; [done|right; by eexists _, _]).
  unfold embeddings. destruct (decodeBody (sv_maxRequestBytes s) body) as [[req raw]|err]; simpl.
  2: { apply Hu. destruct err; by apply Ht. }
  destruct (parseEmbeddingInput raw) as [input|]; simpl; [|apply Hu; first [by apply Hj|by apply Ht]].
  case_goal; simpl; [apply Hu; first [by apply Hj|by apply Ht]|]. case_goal; simpl; [apply Hu; first [by apply Hj|by apply Ht]|].
  destruct (requestEmbeddingPrivacyTier r req) as [tier|]; simpl; [|apply Hu; by apply Hj].
  intros [reservation|err]; simpl; [|apply Hu; by apply Hj]. intros rid t0 [result err] t1. simpl. destruct err as [err|]; simpl.
  - intros _. apply EmbeddingRefused; [by constructor|]. apply Ht. unfold dispatchStatus. by destruct (is_ErrNoNode err).
  - intros _ _. destruct (imap_data (es_Vectors (de_Result result))) as [H1 H2].
    eapply (EmbeddingServed _ _ id _ result); try done.
    constructor; simpl; try done; [by eexists|]. eexists. split; [done|]. by split_and!.
Qed.

(** C3: however the market, the registry, the ledgers and the idempotency store
    answer, a chat request ends in one of five ways.  It is refused with an error; or it is answered with
    the response stored under its key, which is not dispatched or charged again; or its stream breaks off: the
    client has what the nodes sent before the dispatch failed, and then the error, and is charged nothing.  In these
    three nothing is charged or settled, the reservation it took is released and the key it claimed is given up.  Or it is
    served: the authenticated consumer is charged once, under the one reservation, one event goes to the
    settlement ledger, both for the provider that answered and the tokens the coordinator
    measured, and the reply carries the text the node sent.  Or it is charged and settled just so
    but answered with a 500, because the response could not be stored under the claimed key, which then stays
    in progress.  An embeddings request is refused, with nothing charged, or served. *)
Theorem requests_accounted s page r :
  (forall body flusher, always (fun tr rep => chat_outcome (books tr) rep) [] (serve s page (PostChatCompletions body flusher) r))
  /\ (forall body, always (fun tr rep => embedding_outcome (books tr) rep) [] (serve s page (PostEmbeddings body) r)).
Proof.
  split; intros; apply accounts_always; simpl; (intros [id|err]; simpl; [|constructor; [by constructor|..]; first [done|split; [done|left; by eexists]]]);
    (intros [err|]; simpl; [constructor; [by constructor|..]; first [done|split; [done|right; by eexists _, _]]|]).
  - apply chatCompletions_outcome.
  - apply embeddings_outcome.
Qed.

(** ** Who may do what *)

(** Every call of a handler satisfies [ok]. *)
Fixpoint only {A} (ok : Op -> Prop) (p : Prog A) : Prop :=
  match p with Ret _ => True | Call o k => ok o /\ forall x, only ok (k x) end.

Lemma only_always {A} (ok : Op -> Prop) tr0 tr (p : Prog A) :
  only ok p -> Forall (fun ob => match ob with Saw o _ => ok o end) tr ->
  always (fun tr' _ => exists rest, tr' = tr0 ++ rest /\ Forall (fun ob => match ob with Saw o _ => ok o end) rest) (tr0 ++ tr) p.
Proof.
  revert tr. induction p as [a|o k IH]; intros tr; simpl; [by eauto|]. intros [Ho Hk] Htr x.
  rewrite <- app_assoc. apply IH; [done|]. apply Forall_app. split; [done|]. by repeat constructor.
Qed.

(** What a handler may ask on behalf of one consumer: its own account, dispatches to the network,
    keys of its own. *)
Definition acts_for (cid : string) (o : Op) : Prop :=
  match o with
  | OMarket (CheckConsumerQuota' id | ConsumerStatus' id | ReserveConsumerQuota' id _ | RecordReserved' _ id _ _) => id = cid
  | OMarket (ReleaseReservation' _) => True
  | OMarket _ => False
  | OSettlement (Settle' input) => ri_ConsumerID input = cid
  | OSettlement _ => False
  | OChallenge _ => False
  | OServer (Begin' key | Complete' key _ _ _ | Abort' key) => exists k, key = idempotencyScopedKey cid k
  | OServer (NextChallenge' _) => False
  | OServer _ => True
  | ORegistry (Models' | Dispatch' _ _ | DispatchEmbedding' _) => True
  | ORegistry _ => False
  end.

(** What anybody may ask. *)
Definition public_call (o : Op) : Prop := match o with ORegistry NetworkStatus' => True | _ => False end.

Inductive Access := Anyone | Consumers | Workers | Admins.

(** Who an endpoint is for; a worker is a consumer whose quota is checked first. *)
Definition access (e : Endpoint) : Access :=
  match e with
  | GetHealth | GetNetworkStatus | GetAdmin | GetAdminDashboard => Anyone
  | GetMe | GetModels | GetModelsCatalog => Consumers
  | PostChatCompletions _ _ | PostEmbeddings _ => Workers
  | _ => Admins
  end.

Definition authorised (s : server) (r : HttpRequest) : bool :=
  if sv_adminToken s =s "" then sv_devAdminOpen s else bearerToken r =s sv_adminToken s.

Definition own_calls (cid : string) (tr : list Obs) : Prop :=
  Forall (fun ob => match ob with Saw o _ => acts_for cid o end) tr.

(** A consumer's request: authentication first, and all else on behalf of the account it names. *)
Definition on_behalf (r : HttpRequest) (tr : list Obs) (rep : Reply) : Prop :=
  exists auth rest, tr = Saw (AuthenticateConsumer' (bearerToken r)) auth :: rest
    /\ match auth with
       | Ok id => own_calls (consumerID (Some id)) rest
       | Err _ => rest = [] /\ rep = httpError [] "unauthorized" 401
       end.

(** And the quota check next. *)
Definition quota_checked (tr : list Obs) (rep : Reply) : Prop :=
  match tr with
  | [_] => True
  | _ :: Saw o x :: rest =>
      exists cid quota, Saw o x = Saw (CheckConsumerQuota' cid) quota
        /\ match quota with Some err => rest = [] /\ rep = quotaError err | None => True end
  | [] => False
  end.

Ltac own := repeat first
  [ done | progress simpl | split | progress intros | by eexists | case_goal ].

Lemma abortClaim_own cid key next :
  (key = "" \/ exists k, key = idempotencyScopedKey cid k) -> only (acts_for cid) next ->
  only (acts_for cid) (abortClaim key next).
Proof.
  intros Hk Hn. unfold abortClaim. destruct (key =s "") eqn:E; simpl; [done|]. split; [|done].
  destruct Hk as [->|Hk]; [done|exact Hk].
Qed.

Lemma streamChat_own flusher rid model req cid r : only (acts_for cid) (streamChat flusher rid model req cid r).
Proof. unfold streamChat. own. Qed.

Lemma blockingChat_own rid model req cid r key :
  (key = "" \/ exists k, key = idempotencyScopedKey cid k) -> only (acts_for cid) (blockingChat rid model req cid r key).
Proof.
  intros Hk. unfold blockingChat. simpl. split; [done|]. intros t0. split; [done|]. intros out. split; [done|]. intros t1.
  destruct (dp_error out); simpl; [split; [done|]; intros _; by apply abortClaim_own|].
  split; [done|]. intros _. split; [done|]. intros _. split; [done|]. intros now.
  destruct (key =s "") eqn:E; simpl; [done|]. split; [|intros []; done]. destruct Hk as [->|Hk]; [done|exact Hk].
Qed.

Lemma chatCompletions_own s r body flusher cid : only (acts_for cid) (chatCompletions s r body flusher cid).
Proof.
  unfold chatCompletions. destruct (decodeBody _ _) as [req|]; simpl; [|done]. case_goal; simpl; [done|]. split; [done|].
  intros rid. destruct (requestPrivacyTier r req) as [tier|]; simpl; [|done].
  assert (H : forall key, (key = "" \/ exists k, key = idempotencyScopedKey cid k) ->
    only (acts_for cid) (reserveAndServe ("chatcmpl-" +:+ rid) req (chatInferRequest s r req tier) cid flusher key)).
  { intros key Hk. unfold reserveAndServe. simpl. split; [done|]. intros [res|]; simpl; [|by apply abortClaim_own].
    destruct (cr_Stream req); [apply streamChat_own|by apply blockingChat_own]. }
  unfold claimKey. case_goal; simpl; [done|]. case_goal; simpl; [|apply H; by left]. split; [by eexists|].
  intros [[rec|]|]; simpl; [|apply H; right; by eexists|done].
  case_goal; simpl; [done|]. case_goal; simpl; [done|]. apply H. right. by eexists.
Qed.

Lemma embeddings_own s r body cid : only (acts_for cid) (embeddings s r body cid).
Proof. unfold embeddings. own. Qed.

Lemma requireConsumer_behalf next r :
  (forall id, only (acts_for (consumerID (Some id))) (next (consumerID (Some id)))) ->
  always (on_behalf r) [] (requireConsumer next r).
Proof.
  intros H. unfold requireConsumer. simpl. intros [id|err]; simpl.
  - pose proof (only_always (acts_for (consumerID (Some id))) [Saw (AuthenticateConsumer' (bearerToken r)) (Ok id)] []
      (next (consumerID (Some id))) (H id) (List.Forall_nil _)) as Hall.
    revert Hall. apply always_mono. intros tr rep (rest & -> & Hr). exists (Ok id), rest. by split.
  - exists (Err err), []. by split_and!.
Qed.

Lemma always_and {A} (P Q : list Obs -> A -> Prop) tr p :
  always P tr p -> always Q tr p -> always (fun tr a => P tr a /\ Q tr a) tr p.
Proof. revert tr. induction p as [a|o k IH]; simpl; eauto. Qed.

(** What has been seen stays at the head of a trace. *)
Lemma always_prefix {A} (P : list Obs -> A -> Prop) tr p :
  (forall rest a, P (tr ++ rest) a) -> always P tr p.
Proof.
  revert tr. induction p as [a|o k IH]; intros tr H; simpl; [specialize (H [] a); by rewrite app_nil_r in H|].
  intros x. apply IH. intros rest a. rewrite <- app_assoc. apply H.
Qed.

Lemma requireConsumerQuota_checked next r : always quota_checked [] (requireConsumerQuota next r).
Proof.
  simpl. intros [id|err]; simpl; [|done]. intros [err|]; simpl.
  - by exists (consumerID (Some id)), (Some err).
  - apply always_prefix. intros rest a. simpl. by exists (consumerID (Some id)), None.
Qed.


(** ** The session of a node *)

(** The heartbeats among the messages. *)
Definition heartbeats (messages : list Envelope) : list Obs :=
  omap (fun msg => if env_Type msg =s "heartbeat"
                   then (fun hb => Saw (Heartbeat' hb) tt) <$> env_Heartbeat msg else None) messages.

(** A registration as the market lets it in: the provider its token names, the tiers its account allows. *)
Definition admittedAs (reg : Register) (providerID mode : string) (tiers : list string) : Register :=
  reg <| reg_ProviderID := providerID |> <| reg_PrivacyMode := mode |> <| reg_PrivacyTiers := tiers |>.

Definition registers (ob : Obs) : bool := match ob with Saw (ORegistry (Register' _ _)) _ => true | _ => false end.

Definition session_ok (conn : Conn) (first : res string Envelope) (messages : list Envelope) (tr : list Obs) (res : Session) : Prop :=
  match res with
  | Ended delivered =>
      exists reg providerID mode tiers,
        registration first = Some reg
        /\ tr = [Saw (AuthenticateProvider' reg) (Ok providerID);
                 Saw (EnforceProviderPrivacy' providerID (reg_PrivacyMode reg) (reg_PrivacyTiers reg)) (Ok (mode, tiers));
                 Saw (Register' (admittedAs reg providerID mode tiers) conn) tt]
                ++ heartbeats messages ++ [Saw (Remove' (reg_NodeID reg)) tt]
        /\ delivered = filter (fun msg => deliverable msg = true) messages
  | _ => Forall (fun ob => registers ob = false) tr
  end.

Lemma heartbeat_not_deliverable msg : env_Type msg = "heartbeat" -> deliverable msg = false.
Proof. intros H. unfold deliverable. by rewrite H. Qed.

Lemma nodeLoop_trace (P : list Obs -> Session -> Prop) id messages tr delivered :
  P (tr ++ heartbeats messages ++ [Saw (Remove' id) tt]) (Ended (delivered ++ filter (fun msg => deliverable msg = true) messages)) ->
  always P tr (nodeLoop id messages delivered).
Proof.
  revert tr delivered. induction messages as [|msg messages IH]; intros tr delivered H; simpl.
  { intros []. rewrite filter_nil, app_nil_r in H. exact H. }
  unfold onNodeMessage. unfold heartbeats in H. simpl in H. fold (heartbeats messages) in H. rewrite filter_cons in H.
  destruct (env_Type msg =s "heartbeat") eqn:Et.
  - apply str_eqb_true in Et. rewrite (heartbeat_not_deliverable msg Et) in H. simpl in H.
    destruct (env_Heartbeat msg) as [hb|]; simpl in *; [|by apply IH]. intros []. apply IH. by rewrite <- app_assoc.
  - destruct (deliverable msg) eqn:Ed; simpl in *.
    + apply IH. by rewrite <- app_assoc.
    + by apply IH.
Qed.

(** C23: a websocket registers a node only after the market has authenticated its
    provider token and accepted its tiers, and then exactly as the market let it in; the
    session passes on every heartbeat to the registry and every reply of the node to its
    requests, in order and nothing else, and when it ends it removes the node it
    registered. *)
Theorem node_session s r upgraded conn first messages :
  always (session_ok conn first messages) [] (nodeWebSocket s r upgraded conn first messages).
Proof.
  unfold nodeWebSocket. case_goal; [by constructor|]. destruct upgraded; simpl; [|by constructor].
  destruct (registration first) as [reg|] eqn:Er; simpl; [|by constructor].
  intros [pid|err]; simpl; [|by repeat constructor]. intros [[mode tiers]|err]; simpl; [|by repeat constructor]. intros [].
  apply (nodeLoop_trace (session_ok conn first messages)). simpl. rewrite Er. eexists reg, pid, mode, tiers.
  by split_and!.
Qed.
