(* ===== verification/PayoutProofs.v ===== *)
(** * The payout file reads back

    [scan] is a reader for comma-separated records with quoted fields; every file that
    [adminPayoutsCSV] writes reads back as the records it was made of, whatever the
    providers are called. *)

From S2P Require Import Prelude GoString GoSort GoFloat Json Protocol Config Settlement Scheduler Challenge.
From S2P Require Import City Services Handlers AdminHandlers.

(** ** A reader *)

Inductive Mode := Start | Plain | Quoted | QuoteSeen.

(** The fields of the records, as bytes; [field] and [row] are what was read of the current ones. *)
Fixpoint scan (m : Mode) (field : list Z) (row : list (list Z)) (l : list Z) : option (list (list (list Z))) :=
  match l with
  | [] => match m, row with Start, [] => Some [] | _, _ => None end
  | b :: l =>
      let finish field :=
        if b =? 44 then scan Start [] (row ++ [field]) l
        else if b =? 10 then cons (row ++ [field]) <$> scan Start [] [] l
        else None in
      match m with
      | Start =>
          if b =? csv_quote then scan Quoted [] row l
          else if (b =? 44) || (b =? 10) then finish [] else scan Plain [b] row l
      | Plain =>
          if (b =? 44) || (b =? 10) then finish field
          else if b =? csv_quote then None else scan Plain (field ++ [b]) row l
      | Quoted => if b =? csv_quote then scan QuoteSeen field row l else scan Quoted (field ++ [b]) row l
      | QuoteSeen => if b =? csv_quote then scan Quoted (field ++ [csv_quote]) row l else finish field
      end
  end.

Definition read_csv (l : list Z) : option (list (list (list Z))) := scan Start [] [] l.

(** The end of a field. *)
Definition after_field (sep : Z) (field : list Z) (row : list (list Z)) (l : list Z) : option (list (list (list Z))) :=
  if sep =? 44 then scan Start [] (row ++ [field]) l else cons (row ++ [field]) <$> scan Start [] [] l.

Definition separator (sep : Z) : Prop := sep = 44 \/ sep = 10.

Lemma scan_quoted field sep row l bs :
  separator sep ->
  scan Quoted field row ((bs ≫= fun b => if b =? csv_quote then [csv_quote; csv_quote] else [b]) ++ csv_quote :: sep :: l)
  = after_field sep (field ++ bs) row l.
Proof.
  intros Hs. revert field. induction bs as [|b bs IH]; intros field.
  - simpl. rewrite app_nil_r. unfold after_field. by destruct Hs as [-> | ->].
  - cbn [mbind list_bind]. rewrite <- app_assoc. destruct (b =? csv_quote) eqn:E.
    + apply Z.eqb_eq in E. subst b. cbn [app scan]. change (csv_quote =? csv_quote) with true. cbv iota.
      rewrite IH. by rewrite <- app_assoc.
    + cbn [app scan]. rewrite E. rewrite IH. by rewrite <- app_assoc.
Qed.

(** Bytes that need no quotes. *)
Definition plain_bytes (bs : list Z) : Prop :=
  Forall (fun b => (b =? 44) = false /\ (b =? csv_quote) = false /\ (b =? 10) = false) bs.

Lemma scan_csv_plain field sep row l bs :
  separator sep -> plain_bytes bs -> scan Plain field row (bs ++ sep :: l) = after_field sep (field ++ bs) row l.
Proof.
  intros Hs Hp. revert field. induction Hp as [|b bs (H1 & H2 & H3) _ IH]; intros field.
  - rewrite app_nil_r. unfold after_field. by destruct Hs as [-> | ->].
  - cbn [app scan]. rewrite H1, H2, H3. cbn [orb]. rewrite IH. by rewrite <- app_assoc.
Qed.

Lemma scan_start_plain sep row l bs :
  separator sep -> plain_bytes bs -> scan Start [] row (bs ++ sep :: l) = after_field sep bs row l.
Proof.
  intros Hs Hp. destruct Hp as [|b bs (H1 & H2 & H3) Hp].
  - unfold after_field. by destruct Hs as [-> | ->].
  - cbn [app scan]. rewrite H1, H2, H3. cbn [orb]. by rewrite scan_csv_plain.
Qed.

Lemma existsb_false {A} (f : A -> bool) l : existsb f l = false <-> Forall (fun x => f x = false) l.
Proof.
  induction l as [|x l IH]; simpl; [split; [by constructor|done]|]. rewrite orb_false_iff, Forall_cons, IH. done.
Qed.

Lemma scan_field sep row l field :
  separator sep -> scan Start [] row (csv_field field ++ sep :: l) = after_field sep (bytes field) row l.
Proof.
  intros Hs. unfold csv_field. destruct (csv_needs_quotes field) eqn:E.
  - cbn [app scan]. change (csv_quote =? csv_quote) with true. cbv iota. rewrite <- app_assoc. simpl app.
    by rewrite scan_quoted.
  - apply scan_start_plain; [done|]. unfold csv_needs_quotes in E. destruct (field =s "") eqn:E0.
    { apply str_eqb_true in E0. subst. by constructor. }
    destruct (field =s "\."); [done|]. bsimpl. apply existsb_false in H.
    eapply Forall_impl; [exact H|]. intros b Hb. simpl in Hb. repeat (apply orb_false_iff in Hb as [Hb ?]). done.
Qed.

(** A record is read up to its line break. *)
Lemma scan_record fields row l :
  fields <> [] ->
  scan Start [] row (csv_record fields ++ l) = cons (row ++ (bytes <$> fields)) <$> scan Start [] [] l.
Proof.
  unfold csv_record. revert row. induction fields as [|f fields IH]; intros row Hne; [done|].
  destruct fields as [|g fields].
  - simpl comma_sep. rewrite <- app_assoc. simpl app. rewrite scan_field by by right. done.
  - change (comma_sep (csv_field <$> f :: g :: fields)) with (csv_field f ++ 44 :: comma_sep (csv_field <$> g :: fields)).
    rewrite <- app_assoc. simpl app. rewrite <- app_assoc. cbn [app]. rewrite scan_field by by left.
    unfold after_field. simpl Z.eqb. cbv iota. rewrite <- app_assoc in IH. simpl app in IH.
    specialize (IH (row ++ [bytes f]) ltac:(done)). rewrite <- app_assoc in IH. exact IH.
Qed.

Lemma read_records (rows : list (list string)) :
  Forall (fun fields => fields <> []) rows -> read_csv (rows ≫= csv_record) = Some (map (map bytes) rows).
Proof.
  unfold read_csv. induction 1 as [|fields rows Hne _ IH]; [done|]. cbn [mbind list_bind].
  rewrite scan_record by done. rewrite IH. done.
Qed.

(** ** The handler's file *)

Definition byte (b : Z) : Prop := 0 <= b < 256.

Lemma csv_field_bytes field : Forall byte (csv_field field).
Proof.
  unfold csv_field. pose proof (bytes_range field) as H. case_goal; [|exact H]. constructor; [done|]. apply Forall_app.
  split; [|by apply List.Forall_cons]. induction H as [|b l Hb _ IH]; [by constructor|]. cbn [mbind list_bind].
  apply Forall_app. split; [|exact IH].
  case_goal; repeat first [apply List.Forall_nil | apply List.Forall_cons; [done|]].
Qed.

Lemma comma_sep_bytes l : Forall (Forall byte) l -> Forall byte (comma_sep l).
Proof.
  induction 1 as [|x l Hx Hl IH]; [by constructor|]. destruct l as [|y l]; [done|].
  change (comma_sep (x :: y :: l)) with (x ++ 44 :: comma_sep (y :: l)). apply Forall_app. split; [done|]. by apply List.Forall_cons.
Qed.

Lemma csv_records_bytes rows : Forall byte (rows ≫= csv_record).
Proof.
  induction rows as [|r rows IH]; [by constructor|]. cbn [mbind list_bind]. apply Forall_app. split; [|done].
  apply Forall_app. split; [|by apply List.Forall_cons]. apply comma_sep_bytes. apply Forall_fmap. apply Forall_true.
  apply csv_field_bytes.
Qed.

Definition payout_reply (tr : list Obs) (rep : Reply) : Prop :=
  exists city ledger file,
    tr = [Saw MarketSnapshot' city; Saw (Settlement' 0) ledger] /\ ry_Status rep = 200 /\ ry_Body rep = BBytes file
    /\ read_csv (bytes file) = Some (map (map bytes) (payout_records city ledger)).

(** C38: the payout file is one record per provider balance of the settlement
    ledger after a header, and reads back as exactly those records, whatever characters
    (quotes, commas, line breaks, leading spaces) the provider names contain. *)
Theorem payouts_read_back : always payout_reply [] adminPayoutsCSV.
Proof.
  intros city ledger. eexists city, ledger, _. split; [done|]. split; [done|]. split; [done|].
  rewrite bytes_of_bytes by apply csv_records_bytes. apply read_records.
  constructor; [done|]. apply Forall_fmap. by apply Forall_true.
Qed.
