(* ===== verification/QuotaSystem.v ===== *)
(** * The coordinator keeps every budget: requests that run at the same time

    The handlers of any number of requests interleave call by call.  [Stage] is the protocol
    every handler follows with the market (authenticate, reserve, dispatch, then release or
    record); [sys_ok] joins it to the market's own invariant; and [budget_step] is the
    abstract machine, one account's budget, that the whole coordinator implements.

    The code charges what it measured, however much was reserved, and does not cut a node's output
    off at the limit it sent; so the budget machine counts the overruns.  [obliging] says
    whether clients and nodes are assumed to keep to the limits: then no recording is an overrun. *)

From S2P Require Import Prelude GoString GoSort GoFloat Sha256 HashChain Json Privacy Protocol Config.
From S2P Require Import ModelCatalog Settlement Scheduler SchedulerProofs Challenge City CityProofs QuotaProofs Reputation Idempotency.
From S2P Require Import Requests RequestsProofs Services Handlers AdminHandlers HandlerProofs.

(** ** The abstract budget *)

(** One account: its limit, what it used, what running requests hold, and how far recordings have
    gone past their reservations. *)
Record Budget := { bg_limit : Z; bg_used : Z; bg_held : Z; bg_over : Z }.

Inductive budget_label := BReserve (n : Z) | BRelease (n : Z) | BSettle (n k : Z).

(** Nothing is reserved that does not fit; what is settled may be more than was reserved. *)
Inductive budget_step : Budget -> budget_label -> Budget -> Prop :=
| bg_reserve limit u h o n :
    0 < n -> u + h + n <= limit ->
    budget_step {| bg_limit := limit; bg_used := u; bg_held := h; bg_over := o |} (BReserve n)
                {| bg_limit := limit; bg_used := u; bg_held := h + n; bg_over := o |}
| bg_release limit u h o n :
    0 < n <= h ->
    budget_step {| bg_limit := limit; bg_used := u; bg_held := h; bg_over := o |} (BRelease n)
                {| bg_limit := limit; bg_used := u; bg_held := h - n; bg_over := o |}
| bg_settle limit u h o n k :
    0 <= n <= h -> 0 <= k ->
    budget_step {| bg_limit := limit; bg_used := u; bg_held := h; bg_over := o |} (BSettle n k)
                {| bg_limit := limit; bg_used := u + k; bg_held := h - n; bg_over := o + Z.max 0 (k - n) |}.

Lemma budget_step_safe b l b' :
  budget_step b l b' -> 0 <= bg_held b /\ 0 <= bg_over b -> bg_used b + bg_held b <= bg_limit b + bg_over b ->
  0 <= bg_held b' /\ 0 <= bg_over b' /\ bg_used b' + bg_held b' <= bg_limit b' + bg_over b'.
Proof. destruct 1; simpl; lia. Qed.

Section Obliging.

(** Do clients and nodes keep to the limits?  If so no estimate wraps around and no node sends more than
    it was asked for. *)
Variable obliging : bool.

(** ** The protocol of a request *)

Inductive Stage :=
| Idle
| Known (cid : string)
| Reserved (cid : string) (r : option QuotaReservation) (est : Z)
| Answered (cid : string) (r : option QuotaReservation) (est : Z) (done : InferDone).

Definition stage_open (st : Stage) : list QuotaReservation :=
  match st with Reserved _ r _ | Answered _ r _ _ => option_list r | _ => [] end.

(** The tokens an embeddings request costs. *)
Definition embedding_done (input : list string) : InferDone :=
  {| id_FinishReason := "stop"; id_PromptTokens := estimateEmbeddingPromptTokens input; id_OutputTokens := 0;
     id_KeyID := ""; id_Signature := "" |}.

(** The characters of a chat request are counted exactly, and its budget is a 64-bit number. *)
Definition chat_fits (req : ChatCompletionRequest) : Prop :=
  let chars := total_chars cm_Role cm_Content (cr_Messages req) in
  chars + 3 <= max_int64 /\ (chars + 3) / 4 + output_limit req <= max_int64.

(** What the market may be asked at each stage, and what a dispatch is for. *)
Definition permitted (st : Stage) (o : Op) : Prop :=
  match o with
  | OMarket (AuthenticateConsumer' _) => st = Idle
  | OMarket (ReserveConsumerQuota' cid est) => st = Known cid /\ cid <> "" /\ (obliging = true -> 0 < est)
  | OMarket (ReleaseReservation' r) =>
      exists cid est, st = Reserved cid r est
  | OMarket (RecordReserved' r cid _ done) => exists est, st = Answered cid r est done
  | ORegistry (Dispatch' _ req) =>
      match st with
      | Reserved _ _ est => exists creq infer, req = applyDefaultMaxTokens infer /\ est = estimateTokenBudget creq
          /\ ir_Messages infer = protocolMessages (cr_Messages creq) /\ ir_MaxTokens infer = cr_MaxTokens creq
          /\ (obliging = true -> chat_fits creq)
      | Idle => True
      | _ => False
      end
  | ORegistry (DispatchEmbedding' req) =>
      match st with Reserved _ _ est => est = estimateEmbeddingPromptTokens (er_Input req) | _ => False end
  | _ => True
  end.

Definition after_registry (st : Stage) (o : nodeRegistry) : registry_answer o -> Stage :=
  match o as o return registry_answer o -> Stage with
  | Dispatch' _ req => fun out =>
      match st, dp_error out with
      | Reserved cid r est, None =>
          Answered cid r est (coordinatorMeasuredDone req (dr_Done (dp_result out)) (meteredSink (dp_chunks out)))
      | st, _ => st
      end
  | DispatchEmbedding' req => fun out =>
      match st, snd out with Reserved cid r est, None => Answered cid r est (embedding_done (er_Input req)) | st, _ => st end
  | _ => fun _ => st
  end.

Definition after_market (st : Stage) (o : accountMarket) : market_answer o -> Stage :=
  match o as o return market_answer o -> Stage with
  | AuthenticateConsumer' _ => fun x => match x with Ok id => Known (consumerID (Some id)) | Err _ => st end
  | ReserveConsumerQuota' cid est => fun x => match x with Ok r => Reserved cid r est | Err _ => st end
  | ReleaseReservation' _ | RecordReserved' _ _ _ _ => fun _ => Idle
  | _ => fun _ => st
  end.

Definition after (st : Stage) (o : Op) : Ans o -> Stage :=
  match o as o return Ans o -> Stage with
  | ORegistry o => after_registry st o
  | OMarket o => after_market st o
  | _ => fun _ => st
  end.

(** A handler that follows the protocol from a stage on, and holds nothing when it ends. *)
Fixpoint obeys {A} (st : Stage) (p : Prog A) : Prop :=
  match p with
  | Ret _ => stage_open st = []
  | Call o k => permitted st o /\ forall x, obeys (after st o x) (k x)
  end.

(** ** Every handler follows it *)

(** Calls that are neither the market's books nor a dispatch for a consumer. *)
Definition plain (o : Op) : Prop :=
  match o with
  | OMarket (AuthenticateConsumer' _ | ReserveConsumerQuota' _ _ | ReleaseReservation' _ | RecordReserved' _ _ _ _) => False
  | ORegistry (DispatchEmbedding' _) => False
  | _ => True
  end.

Lemma only_obeys {A} (p : Prog A) : only plain p -> obeys Idle p.
Proof.
  induction p as [a|o k IH]; simpl; [done|]. intros [Ho Hk].
  assert (Ha : permitted Idle o /\ forall x, after Idle o x = Idle).
  { destruct o as [[]|[]|[]|[]|[]]; simpl in *; try done. }
  destruct Ha as [Hp Ha]. split; [done|]. intros x. rewrite Ha. by apply IH.
Qed.

Lemma only_bind {A B} (ok : Op -> Prop) (p : Prog A) (f : A -> Prog B) :
  only ok p -> (forall a, only ok (f a)) -> only ok (bind p f).
Proof. induction p as [a|o k IH]; simpl; [auto|]. intros [Ho Hk] Hf. split; [done|]. intros x. by apply IH. Qed.

Ltac plainly := repeat first [ done | progress simpl | progress intros | split | case_goal ].

Lemma challengeProvider_plain cfg model tier pid t : only plain (challengeProvider cfg model tier pid t).
Proof.
  unfold challengeProvider, recordRun. simpl. split; [done|]. intros _. split; [done|]. intros out. split; [done|]. intros t1.
  repeat (case_goal; simpl; try done); split; try done; intros []; done.
Qed.

Lemma runSyntheticChallenge_plain cfg : only plain (runSyntheticChallenge cfg).
Proof.
  assert (H : forall model, only plain
    (let privacyTier := if hc_PrivacyTier cfg =s "" then Public else hc_PrivacyTier cfg in
     match NormalizeTier privacyTier with
     | Err _ => Ret (Err RunTier)
     | Ok _ =>
         let! startedAt := Now' in
         if negb (hc_ProviderID cfg =s "") then challengeProvider cfg model privacyTier (hc_ProviderID cfg) startedAt
         else
           let! nodes := Nodes' in
           let! providerID := NextChallenge' (challengeProviderCandidates nodes model privacyTier) in
           challengeProvider cfg model privacyTier providerID startedAt
     end)).
  { intros model. cbv zeta. destruct (NormalizeTier _); cbn [only]; [|done]. split; [done|]. intros t.
    destruct (negb (hc_ProviderID cfg =s "")); [apply challengeProvider_plain|]. cbn [only]. split; [done|]. intros nodes.
    split; [done|]. intros pid. apply challengeProvider_plain. }
  unfold runSyntheticChallenge. cbv zeta in *. destruct (hc_Model cfg =s ""); [|apply H]. cbn [only]. split; [done|].
  intros [|model ?]; [done|]. apply H.
Qed.

(** The administrator's and the public endpoints. *)
Lemma other_plain s page e r : access e <> Workers -> access e <> Consumers -> only plain (serve s page e r).
Proof.
  intros H1 H2.
  assert (Ha : forall next, only plain next -> only plain (requireAdmin s next r))
    by (intros next Hn; unfold requireAdmin; repeat (case_goal; try exact Hn); exact I).
  destruct e; try done; simpl; try (apply Ha; by plainly); try (by plainly).
  - apply Ha. unfold adminRecordChallenge. destruct body; simpl; [|done]. case_goal; simpl; [done|]. split; [done|].
    intros [|[]]; done.
  - apply Ha. unfold adminRunChallenge.
    destruct body as [cfg|[err|]]; try done; cbv iota; (apply only_bind; [apply runSyntheticChallenge_plain|by intros []]).
  - apply Ha. unfold adminCreateConsumer. destruct body; [|done]. split; [done|by intros []].
  - apply Ha. unfold adminCreateProvider. destruct body; [|done]. split; [done|by intros []].
Qed.

(** What a chat request reserves. *)
Lemma budget_exact req :
  chat_fits req ->
  estimateTokenBudget req = (total_chars cm_Role cm_Content (cr_Messages req) + 3) / 4 + output_limit req.
Proof.
  intros [H1 H2]. pose proof (total_chars_nonneg cm_Role cm_Content (cr_Messages req)). pose proof (output_limit_pos req).
  assert (0 <= (total_chars cm_Role cm_Content (cr_Messages req) + 3) / 4) by (apply Z.div_pos; lia).
  rewrite budget_wrapped by done. apply wrap64_id. ilia.
Qed.

Lemma budget_pos req : chat_fits req -> 0 < estimateTokenBudget req.
Proof.
  intros H. rewrite budget_exact by done. pose proof (output_limit_pos req).
  pose proof (total_chars_nonneg cm_Role cm_Content (cr_Messages req)).
  assert (0 <= (total_chars cm_Role cm_Content (cr_Messages req) + 3) / 4) by (apply Z.div_pos; lia). lia.
Qed.

Lemma consumerID_nonempty id : consumerID (Some id) <> "".
Proof. unfold consumerID. destruct (id =s "") eqn:E; simpl; [done|]. by apply str_eqb_false in E. Qed.

Lemma infer_permitted s r req tier :
  (obliging = true -> chat_fits req) ->
  exists creq infer, chatInferRequest s r req tier = applyDefaultMaxTokens infer
    /\ estimateTokenBudget req = estimateTokenBudget creq
    /\ ir_Messages infer = protocolMessages (cr_Messages creq) /\ ir_MaxTokens infer = cr_MaxTokens creq /\ (obliging = true -> chat_fits creq).
Proof. intros H. exists req. eexists. split; [reflexivity|]. by split_and!. Qed.

Lemma abort_obeys key rep : obeys Idle (abortClaim key (Ret rep)).
Proof. unfold abortClaim. case_goal; done. Qed.

Lemma abort_obeys_known key rep cid : obeys (Known cid) (abortClaim key (Ret rep)).
Proof. unfold abortClaim. case_goal; done. Qed.

Lemma streamChat_obeys flusher rid model req infer cid r :
  (obliging = true -> chat_fits req) ->
  (exists s h tier, infer = chatInferRequest s h req tier) ->
  obeys (Reserved cid r (estimateTokenBudget req)) (streamChat flusher rid model infer cid r).
Proof.
  intros Hf (s & h & tier & ->). unfold streamChat. destruct flusher; simpl; [|split; [by eauto|done]].
  split; [done|]. intros t0. split; [by apply infer_permitted|]. intros out. split; [done|]. intros t1.
  destruct (dp_error out); simpl; (split; [by eauto|]; intros _); simpl; done.
Qed.

Lemma blockingChat_obeys rid model req infer cid r key :
  (obliging = true -> chat_fits req) ->
  (exists s h tier, infer = chatInferRequest s h req tier) ->
  obeys (Reserved cid r (estimateTokenBudget req)) (blockingChat rid model infer cid r key).
Proof.
  intros Hf (s & h & tier & ->). unfold blockingChat. simpl.
  split; [done|]. intros t0. split; [by apply infer_permitted|]. intros out. split; [done|]. intros t1.
  destruct (dp_error out); simpl; (split; [by eauto|]; intros _); [apply abort_obeys|]. simpl.
  split; [done|]. intros _. split; [done|]. intros now. case_goal; simpl; [|done]. split; [done|]. by intros [].
Qed.

(** The bodies whose characters and budgets are 64-bit numbers. *)
Definition endpoint_fits (e : Endpoint) : Prop :=
  match e with
  | PostChatCompletions body _ => match rb_decoded body with Ok req => chat_fits req | Err _ => True end
  | PostEmbeddings body =>
      match rb_decoded body with
      | Ok (_, raw) => match parseEmbeddingInput raw with
                       | Ok input => 0 < estimateEmbeddingPromptTokens input | Err _ => True end
      | Err _ => True
      end
  | _ => True
  end.

Lemma decodeBody_decoded {A} limit (body : RequestBody A) x : decodeBody limit body = Ok x -> rb_decoded body = Ok x.
Proof. unfold decodeBody. case_goal; [done|]. destruct (rb_decoded body); [by intros [= ->]|done]. Qed.

Lemma chat_obeys s r body flusher cid :
  (obliging = true -> endpoint_fits (PostChatCompletions body flusher)) -> cid <> "" -> obeys (Known cid) (chatCompletions s r body flusher cid).
Proof.
  intros Hf Hc. unfold chatCompletions. destruct (decodeBody _ _) as [req|] eqn:E; simpl; [|done].
  apply decodeBody_decoded in E. simpl in Hf. rewrite E in Hf.
  case_goal; simpl; [done|]. split; [done|]. intros rid. destruct (requestPrivacyTier r req) as [tier|]; simpl; [|done].
  assert (H : forall key, obeys (Known cid)
    (reserveAndServe ("chatcmpl-" +:+ rid) req (chatInferRequest s r req tier) cid flusher key)).
  { intros key. unfold reserveAndServe. simpl. split; [split_and!; [done..|]; intros Ho; by apply budget_pos, Hf|].
    intros [res|]; simpl; [|apply abort_obeys_known].
    destruct (cr_Stream req); [apply streamChat_obeys|apply blockingChat_obeys]; eauto. }
  unfold claimKey. case_goal; simpl; [done|]. case_goal; simpl; [|apply H]. split; [done|].
  intros [[rec|]|]; simpl; [|apply H|done]. case_goal; [done|]. case_goal; [done|]. apply H.
Qed.

Lemma embeddings_obeys s r body cid :
  (obliging = true -> endpoint_fits (PostEmbeddings body)) -> cid <> "" -> obeys (Known cid) (embeddings s r body cid).
Proof.
  intros Hf Hc. unfold embeddings. destruct (decodeBody _ _) as [[req raw]|] eqn:E; simpl; [|done].
  apply decodeBody_decoded in E. simpl in Hf. rewrite E in Hf.
  destruct (parseEmbeddingInput raw) as [input|]; simpl; [|done].
  case_goal; simpl; [done|]. case_goal; simpl; [done|].
  destruct (requestEmbeddingPrivacyTier r req) as [tier|]; simpl; [|done].
  split; [done|]. intros [res|]; simpl; [|done]. split; [done|]. intros rid. split; [done|]. intros t0.
  split; [done|]. intros [result err]. split; [done|]. intros t1. destruct err; simpl; (split; [by eauto|]; intros _); done.
Qed.

Lemma serve_obeys s page e r : (obliging = true -> endpoint_fits e) -> obeys Idle (serve s page e r).
Proof.
  intros Hf. destruct (access e) eqn:Ea.
  - apply only_obeys, other_plain; by rewrite Ea.
  - destruct e; try done; simpl; (split; [done|]); intros [id|]; simpl; plainly.
  - assert (Hq : forall next, (forall id, obeys (Known (consumerID (Some id))) (next (consumerID (Some id)))) ->
      obeys Idle (requireConsumerQuota next r)).
    { intros next H. simpl. split; [done|]. intros [id|]; simpl; [|done]. split; [done|]. intros [|]; [done|apply H]. }
    destruct e; try done; unfold serve; apply Hq; intros id;
      [apply chat_obeys|apply embeddings_obeys]; try done; apply consumerID_nonempty.
  - apply only_obeys, other_plain; by rewrite Ea.
Qed.

(** ** Requests that run at the same time *)

Record System := { sy_pool : list (Prog Reply); sy_world : World }.

Definition sy_market (sy : System) : Market := fst (w_market (sy_world sy)).

(** A node that kept to the output limit of its request, counted as the coordinator counts. *)
Definition output_kept (req : InferRequest) (out : Dispatched) : Prop :=
  dp_error out = None ->
  let chars := meteredSink (dp_chunks out) in
  0 <= chars /\ chars + 3 <= max_int64 /\ chars <= 4 * default defaultReservedOutputTokens (ir_MaxTokens req).

(** What is assumed of a call: the 64-bit sums of a limited account do not wrap around, and an account is
    created with a 64-bit limit under a fresh name other than "local"; and, if they are [obliging], nodes
    keep to their limits. *)
Definition calm (m : Market) (o : Op) : Ans o -> Prop :=
  match o as o return Ans o -> Prop with
  | OMarket (ReserveConsumerQuota' a est) => fun _ => estimate_fits m a est
  | OMarket (RecordReserved' r cid _ done) => fun _ => obliging = false -> record_fits m r cid done
  | OMarket (CreateConsumer' input) => fun _ =>
      normalizeAccountID (ci_ID input) <> "local" /\ m_consumerUse m !! normalizeAccountID (ci_ID input) = None
      /\ map_get 0 (m_reservedUse m) (normalizeAccountID (ci_ID input)) = 0 /\ ci_TotalTokenLimit input <= max_int64
  | ORegistry (Dispatch' _ req) => fun out => obliging = true -> output_kept req out
  | _ => fun _ => True
  end.

Inductive sys_label := LStart (e : Endpoint) | LCall (i : nat) (o : Op) | LEnd (i : nat) | LOther.

(** A request arrives, makes its next call, or ends; anything else leaves the market alone. *)
Inductive sys_step (s : server) (page : string) : System -> sys_label -> System -> Prop :=
| sy_start ps w e r :
    (obliging = true -> endpoint_fits e) ->
    sys_step s page {| sy_pool := ps; sy_world := w |} (LStart e) {| sy_pool := serve s page e r :: ps; sy_world := w |}
| sy_call ps1 o k ps2 w nd x w' :
    exec s o nd w = Some (x, w') -> calm (fst (w_market w)) o x ->
    sys_step s page {| sy_pool := ps1 ++ Call o k :: ps2; sy_world := w |} (LCall (length ps1) o)
                    {| sy_pool := ps1 ++ k x :: ps2; sy_world := w' |}
| sy_end ps1 a ps2 w :
    sys_step s page {| sy_pool := ps1 ++ Ret a :: ps2; sy_world := w |} (LEnd (length ps1))
                    {| sy_pool := ps1 ++ ps2; sy_world := w |}
| sy_other ps w w' :
    w_market w' = w_market w ->
    sys_step s page {| sy_pool := ps; sy_world := w |} LOther {| sy_pool := ps; sy_world := w' |}.

(** How far the recordings of a run went past what was reserved for them. *)
Definition step_overrun (a : string) (l : sys_label) : Z :=
  match l with LCall _ (OMarket (RecordReserved' r cid _ done)) => record_overrun a r cid done | _ => 0 end.

Fixpoint run_overrun (a : string) (tr : list sys_label) : Z :=
  match tr with [] => 0 | l :: tr => step_overrun a l + run_overrun a tr end.

Lemma run_overrun_snoc a tr l : run_overrun a (tr ++ [l]) = run_overrun a tr + step_overrun a l.
Proof. induction tr as [|x tr IH]; simpl; [lia|]. rewrite IH. lia. Qed.

(** ** Stages and the market *)

Definition account_known (m : Market) (cid : string) : Prop := cid = "local" \/ is_Some (m_consumers m !! cid).

Definition unlimited (m : Market) (cid : string) : Prop :=
  forall c, m_consumers m !! cid = Some c -> cn_TotalTokenLimit c <= 0.

Definition reservation_ok (m : Market) (cid : string) (r : option QuotaReservation) (est : Z) : Prop :=
  cid <> "" /\ account_known m cid /\ (obliging = true -> 0 < est)
  /\ match r with
     | Some q => q = {| qr_accountID := cid; qr_tokens := est |} /\ 0 < est
     | None => est <= 0 \/ unlimited m cid
     end.

Definition stage_ok (m : Market) (st : Stage) : Prop :=
  match st with
  | Idle => True
  | Known cid => account_known m cid
  | Reserved cid r est => reservation_ok m cid r est
  | Answered cid r est done =>
      reservation_ok m cid r est
      /\ (obliging = true -> 0 <= id_PromptTokens done /\ 0 <= id_OutputTokens done /\ charged done <= est)
  end.

(** Accounts stay, with their limits, and the built-in account does not appear. *)
Definition accounts_stay (m m' : Market) : Prop :=
  (forall a c, m_consumers m !! a = Some c -> exists c', m_consumers m' !! a = Some c' /\ cn_TotalTokenLimit c' = cn_TotalTokenLimit c)
  /\ (m_consumers m !! "local" = None -> m_consumers m' !! "local" = None).

Lemma same_accounts m m' : m_consumers m' = m_consumers m -> accounts_stay m m'.
Proof. intros H. unfold accounts_stay. rewrite H. split; [eauto|done]. Qed.

Lemma unlimited_stays m m' cid : accounts_stay m m' -> account_known m cid -> unlimited m cid -> unlimited m' cid.
Proof.
  intros [Hs Hl] Hk Hu c' Hc'. destruct (m_consumers m !! cid) as [c|] eqn:E.
  - destruct (Hs _ _ E) as (c2 & Hc2 & Heq). rewrite Hc' in Hc2. injection Hc2 as <-. rewrite Heq. by apply Hu.
  - destruct Hk as [->|[? ?]]; [|congruence]. rewrite (Hl E) in Hc'. done.
Qed.

Lemma reservation_stays m m' cid r est : accounts_stay m m' -> reservation_ok m cid r est -> reservation_ok m' cid r est.
Proof.
  intros Hs (H1 & H2 & H3 & H4). split; [done|]. split; [|split; [done|]].
  - destruct H2 as [->|[c Hc]]; [by left|right]. destruct Hs as [Hs _]. destruct (Hs _ _ Hc) as (c' & -> & _). by eexists.
  - destruct r; [done|]. destruct H4 as [?|?]; [by left|right]. by eapply unlimited_stays.
Qed.

Lemma stage_stays m m' st : accounts_stay m m' -> stage_ok m st -> stage_ok m' st.
Proof.
  intros Hs. destruct st as [|cid|cid r est|cid r est d]; simpl; [exact (fun H => H)| |by apply reservation_stays|].
  - intros [->|[c Hc]]; [by left|right]. destruct Hs as [Hs _]. destruct (Hs _ _ Hc) as (c' & -> & _). by eexists.
  - intros [H ?]. split; [by eapply reservation_stays|done].
Qed.

Lemma measured_applied infer reported chars :
  coordinatorMeasuredDone (applyDefaultMaxTokens infer) reported chars = coordinatorMeasuredDone infer reported chars.
Proof.
  unfold coordinatorMeasuredDone, estimateProtocolPromptTokens, applyDefaultMaxTokens. by destruct (positive_max _).
Qed.

(** What a served chat request costs, when the node kept to its limit. *)
Lemma measured_fits creq infer out :
  ir_Messages infer = protocolMessages (cr_Messages creq) -> ir_MaxTokens infer = cr_MaxTokens creq -> chat_fits creq ->
  dp_error out = None -> output_kept (applyDefaultMaxTokens infer) out ->
  let done := coordinatorMeasuredDone (applyDefaultMaxTokens infer) (dr_Done (dp_result out)) (meteredSink (dp_chunks out)) in
  0 <= id_PromptTokens done /\ 0 <= id_OutputTokens done
  /\ charged done <= estimateTokenBudget creq.
Proof.
  unfold charged. intros Hm Hx Hc He Hk. pose proof Hc as [Hc1 _]. destruct (Hk He) as (H0 & H1 & H2). cbv zeta in *. rewrite measured_applied.
  pose proof (total_chars_nonneg cm_Role cm_Content (cr_Messages creq)) as Hnn.
  destruct (measured_parts creq infer (dr_Done (dp_result out)) (meteredSink (dp_chunks out)) Hm Hx H0 H1 Hc1)
    as (Hp & Ho & Hl). rewrite Hl in H2. apply quarter_le in H2.
  assert (0 <= (total_chars cm_Role cm_Content (cr_Messages creq) + 3) / 4) by (apply Z.div_pos; lia).
  assert (0 <= (meteredSink (dp_chunks out) + 3) / 4) by (apply Z.div_pos; lia). unfold default, id in H2.
  rewrite Hp, Ho in *. split; [done|]. split; [done|].
  rewrite budget_exact by done. lia.
Qed.

Lemma registry_stage m st o x :
  permitted st (ORegistry o) -> calm m (ORegistry o) x -> stage_ok m st ->
  stage_ok m (after_registry st o x) /\ stage_open (after_registry st o x) = stage_open st.
Proof.
  intros Hp Hc Hs. destruct o; try by split.
  - simpl in *. destruct st as [|cid|cid r est|]; try by split. destruct (dp_error x) eqn:Ee; [by split|]. simpl in *.
    split; [|done]. split; [done|]. intros Ho. destruct Hp as (creq & infer & -> & -> & Hm & Hx & Hf).
    apply measured_fits; auto.
  - simpl in *. destruct st as [|cid|cid r est|]; try by split. destruct (snd x) eqn:Ee; [by split|]. simpl in *.
    split; [|done]. split; [done|]. intros Ho. destruct Hs as (_ & _ & Hpos & _). specialize (Hpos Ho).
    unfold charged. simpl. subst est. lia.
Qed.

(** ** Administration *)

(** The operation of the market a call is, and the account it creates. *)
Definition admin_call (nd : Nondet) (o : accountMarket) : option city_op :=
  match o with
  | CreateConsumer' i => Some (CoCreateConsumer i (nd_random nd) (nd_now nd) (nd_fault nd))
  | CreateProvider' i => Some (CoCreateProvider i (nd_random nd) (nd_now nd) (nd_fault nd))
  | RotateConsumerKey' id => Some (CoRotateConsumer id (nd_random nd) (nd_now nd) (nd_fault nd))
  | RotateProviderToken' id => Some (CoRotateProvider id (nd_random nd) (nd_now nd) (nd_fault nd))
  | DisableConsumer' id => Some (CoDisableConsumer id (nd_now nd) (nd_fault nd))
  | DisableProvider' id => Some (CoDisableProvider id (nd_now nd) (nd_fault nd))
  | _ => None
  end.

Definition creates (o : city_op) : string :=
  match o with CoCreateConsumer i _ _ _ => normalizeAccountID (ci_ID i) | _ => "" end.

Lemma admin_absent o m d m' d' k :
  admin_op m o -> run_city o (m, d) = (m', d') -> k <> "" -> creates o <> k -> m_consumers m !! k = None ->
  m_consumers m' !! k = None.
Proof.
  intros Ha Hrun Hk Hc Hn. destruct o; try done; simpl in *; revert Hrun.
  - unfold CreateConsumer. case_goal; [by intros [= <- <-]|]. destruct (randomSecret _ _); [|by intros [= <- <-]].
    destruct (m_consumers m !! normalizeAccountID (ci_ID input)) eqn:E0; [by intros [= <- <-]|].
    destruct (persist _ _ _ _) as [[e|] d0]; intros [= <- <-]; simpl; rewrite ?lookup_delete_ne by done;
      by rewrite lookup_insert_ne.
  - unfold CreateProvider. repeat case_goal; by intros [= <- <-].
  - unfold RotateConsumerKey. repeat case_goal; by intros [= <- <-].
  - unfold RotateProviderToken. repeat case_goal; by intros [= <- <-].
  - unfold DisableConsumer. case_goal; [by intros [= <- <-]|].
    destruct (m_consumers m !! normalizeAccountID id) as [c|] eqn:E0; [|by intros [= <- <-]].
    destruct (persist _ _ _ _) as [[e|] d0]; intros [= <- <-]; simpl; rewrite lookup_insert_ne; congruence.
  - unfold DisableProvider. repeat case_goal; by intros [= <- <-].
Qed.

Lemma market_admin nd o op m d x m' d' :
  admin_call nd o = Some op -> market_perform o nd (m, d) = Some (x, (m', d')) -> run_city op (m, d) = (m', d').
Proof.
  intros Ho. destruct o; try discriminate Ho; injection Ho as <-; cbn [market_perform run_city]; unfold stored;
    match goal with |- context [match ?c with _ => _ end] => destruct c as [[? ?] ?] end; by intros [= _ <- <-].
Qed.

Lemma calm_admin nd m o op x :
  admin_call nd o = Some op -> calm m (OMarket o) x -> admin_op m op /\ creates op <> "local".
Proof. intros Ho. destruct o; simplify_eq/=; try (split; [exact I|done]). naive_solver. Qed.

(** ** One call *)

Definition budget (m : Market) (a : string) (limit over : Z) : Budget :=
  {| bg_limit := limit; bg_used := used m a; bg_held := map_get 0 (m_reservedUse m) a; bg_over := over |}.

(** The abstract machine stands still or makes one step. *)
Definition moves (b b' : Budget) : Prop := b = b' \/ exists l, budget_step b l b'.

Lemma held_by_perm a l l' : l ≡ₚ l' -> held_by a l = held_by a l'.
Proof. induction 1; simpl; lia. Qed.

Lemma quota_ok_perm over m d l l' :
  l ≡ₚ l' -> quota_ok over {| qs_market := m; qs_disk := d; qs_open := l |} ->
  quota_ok over {| qs_market := m; qs_disk := d; qs_open := l' |}.
Proof.
  intros Hp [K0 K1 K2 K3 K4 K5 K6]. simpl in *. constructor; simpl; try done.
  - by rewrite <- Hp.
  - intros a. rewrite K2. by apply held_by_perm.
  - intros a limit Hl. rewrite <- (held_by_perm a _ _ Hp). by apply K5.
  - intros a limit Hl. rewrite <- (held_by_perm a _ _ Hp). by eapply K6.
Qed.

Lemma limited_same m m' a limit : m_consumers m' = m_consumers m -> limited m a limit -> limited m' a limit.
Proof. intros H. unfold limited. by rewrite H. Qed.

Lemma reserve_cases m a est r m' :
  ReserveConsumerQuota a est m = Ok (r, m') ->
  m_consumers m' = m_consumers m /\ m_consumerUse m' = m_consumerUse m
  /\ match r with
     | Some q => q = {| qr_accountID := a; qr_tokens := est |} /\ 0 < est
     | None => m' = m /\ (est <= 0 \/ unlimited m a)
     end.
Proof.
  unfold ReserveConsumerQuota. cbv zeta. destruct (est <? 0) eqn:E0; bsimpl.
  { destruct (checkConsumerQuotaLocked m a 0); [done|]. rewrite Z.eqb_refl. intros [= <- <-]. split_and!; try done. left. lia. }
  destruct (checkConsumerQuotaLocked m a est) eqn:E; [done|]. case_goal; bsimpl.
  { intros [= <- <-]. split_and!; try done. left. lia. }
  destruct (m_consumers m !! a) as [c|] eqn:Ea.
  - case_goal; bsimpl; intros [= <- <-]; split_and!; try done; [right|simpl; lia]. intros c' Hc'. congruence.
  - intros [= <- <-]. split_and!; try done. right. intros c' Hc'. congruence.
Qed.

Lemma reserve_moves over m m' d d' rest a est q limit o :
  quota_ok over {| qs_market := m; qs_disk := d; qs_open := rest |} ->
  quota_ok over {| qs_market := m'; qs_disk := d'; qs_open := {| qr_accountID := q; qr_tokens := est |} :: rest |} ->
  m_consumerUse m' = m_consumerUse m -> 0 < est ->
  (a = q -> used m a + held_by a rest + est <= limit) ->
  moves (budget m a limit o) (budget m' a limit o).
Proof.
  intros Hok Hok' Hu He Hfit. unfold budget, used. rewrite Hu. fold (used m a).
  pose proof (qk_ledger _ _ Hok a) as H1. pose proof (qk_ledger _ _ Hok' a) as H2. simpl in H1, H2. rewrite H1, H2.
  destruct (decide (q = a)) as [->|]; [|by left]. right. exists (BReserve est). specialize (Hfit eq_refl).
  replace (est + held_by a rest) with (held_by a rest + est) by lia. by constructor.
Qed.

Lemma release_moves over m m' d d' rest q a limit o :
  quota_ok over {| qs_market := m; qs_disk := d; qs_open := q :: rest |} ->
  quota_ok over {| qs_market := m'; qs_disk := d'; qs_open := rest |} ->
  m_consumerUse m' = m_consumerUse m -> moves (budget m a limit o) (budget m' a limit o).
Proof.
  intros Hok Hok' Hu. unfold budget, used. rewrite Hu. fold (used m a).
  pose proof (qk_ledger _ _ Hok a) as H1. pose proof (qk_ledger _ _ Hok' a) as H2. simpl in H1, H2. rewrite H1, H2.
  pose proof (quota_open_pos _ _ Hok) as Hpos. simpl in Hpos. apply Forall_cons in Hpos as [Hp Hpos].
  pose proof (held_by_nonneg a _ Hpos). destruct (decide (qr_accountID q = a)) as [Hq|]; [|by left].
  right. exists (BRelease (qr_tokens q)). replace (held_by a rest) with (qr_tokens q + held_by a rest - qr_tokens q) by lia.
  replace (qr_tokens q + (qr_tokens q + held_by a rest - qr_tokens q)) with (qr_tokens q + held_by a rest) by lia.
  constructor. lia.
Qed.

(** A recording settles what was reserved for it, if anything was. *)
Lemma record_moves over over' m m' d d' l rest r cid done a limit o :
  quota_ok over {| qs_market := m; qs_disk := d; qs_open := l |} ->
  quota_ok over' {| qs_market := m'; qs_disk := d'; qs_open := rest |} ->
  (forall b, held_by b l = (if decide (cid = b) then set_aside r else 0) + held_by b rest) -> 0 <= set_aside r ->
  (cid = a -> 0 <= charged done) -> used m' a = used m a + (if decide (cid = a) then charged done else 0) ->
  moves (budget m a limit o) (budget m' a limit (o + record_overrun a r cid done)).
Proof.
  intros Hok Hok' Hheld Hr Hd Hu. unfold budget. rewrite Hu.
  pose proof (qk_ledger _ _ Hok a) as H1. pose proof (qk_ledger _ _ Hok' a) as H2. simpl in H1, H2. rewrite H1, H2, Hheld.
  pose proof (held_by_nonneg a _ (quota_open_pos _ _ Hok')) as Hnn. simpl in Hnn. unfold record_overrun.
  case_decide as E; [|left; f_equal; lia]. specialize (Hd E). right. exists (BSettle (set_aside r) (charged done)).
  replace (held_by a rest) with (set_aside r + held_by a rest - set_aside r) at 2 by lia. constructor; lia.
Qed.

(** The sums of a recording stay within 64 bits when nodes are obliging. *)
Lemma stage_record_fits over m d l cid r est done :
  reservation_ok m cid r est ->
  (obliging = true -> 0 <= id_PromptTokens done /\ 0 <= id_OutputTokens done /\ charged done <= est) ->
  (obliging = false -> record_fits m r cid done) ->
  quota_ok over {| qs_market := m; qs_disk := d; qs_open := l |} -> record_fits m r cid done.
Proof.
  intros (_ & _ & Hest & Hr) Hd Hf Hok. destruct obliging; [|by apply Hf]. intros (c & Hc & Hpos).
  specialize (Hest eq_refl). destruct (Hd eq_refl) as (H1 & H2 & H3). split; [done|]. split; [done|].
  assert (Hl : limited m cid (cn_TotalTokenLimit c)) by (apply limited_lookup; [done|by eapply (qk_limits _ _ Hok)|done]).
  pose proof (qk_sum _ _ Hok _ _ Hl) as Hs. pose proof (qk_ledger _ _ Hok cid) as Hg. simpl in Hs, Hg. rewrite Hg.
  destruct r as [q|]; [destruct Hr as [-> _]; simpl; lia|]. destruct Hr as [?|Hu]; [lia|]. specialize (Hu _ Hc). lia.
Qed.

Lemma stage_no_overrun m cid r est done a limit :
  obliging = true -> reservation_ok m cid r est -> charged done <= est -> limited m a limit -> record_overrun a r cid done = 0.
Proof.
  intros Ho (_ & _ & Hest & Hr) Hd (c & Hc & <- & Hpos). specialize (Hest Ho). unfold record_overrun. case_decide as E; [|done].
  subst cid. destruct r as [q|]; [destruct Hr as [-> _]; simpl; lia|]. destruct Hr as [?|Hu]; [lia|]. specialize (Hu _ Hc). lia.
Qed.

(** What one call does to the market, to the caller's stage and to every budget, when the
    other requests hold [rest]; [ext] is the overrun of the call. *)
Definition call_effect (over ext : string -> Z) (m m' : Market) (d' : Disk) (rest : list QuotaReservation) (st' : Stage) : Prop :=
  accounts_stay m m' /\ stage_ok m' st'
  /\ quota_ok (fun a => over a + ext a) {| qs_market := m'; qs_disk := d'; qs_open := stage_open st' ++ rest |}
  /\ forall a limit o, limited m a limit ->
       limited m' a limit /\ moves (budget m a limit o) (budget m' a limit (o + ext a)) /\ (obliging = true -> ext a = 0).

Lemma effect_calm over m m' d' rest st' :
  accounts_stay m m' -> stage_ok m' st' ->
  quota_ok over {| qs_market := m'; qs_disk := d'; qs_open := stage_open st' ++ rest |} ->
  (forall a limit o, limited m a limit -> limited m' a limit /\ moves (budget m a limit o) (budget m' a limit o)) ->
  call_effect over (fun _ => 0) m m' d' rest st'.
Proof.
  intros H1 H2 H3 H4. split; [done|]. split; [done|]. split; [by eapply quota_ok_over; [|exact H3]; intros a; simpl; lia|].
  intros a limit o Hl. rewrite Z.add_0_r. destruct (H4 a limit o Hl). by split_and!.
Qed.

Lemma effect_none over m d rest st st' :
  quota_ok over {| qs_market := m; qs_disk := d; qs_open := stage_open st ++ rest |} ->
  stage_ok m st' -> stage_open st' = stage_open st -> call_effect over (fun _ => 0) m m d rest st'.
Proof.
  intros Hok Hs He. apply effect_calm; [by apply same_accounts|done|by rewrite He|].
  intros a limit o Hl. split; [done|by left].
Qed.

Lemma admin_effect over m d rest st nd o op x m' d' :
  admin_call nd o = Some op -> calm m (OMarket o) x -> market_perform o nd (m, d) = Some (x, (m', d')) ->
  stage_ok m st -> quota_ok over {| qs_market := m; qs_disk := d; qs_open := stage_open st ++ rest |} ->
  call_effect over (fun _ => 0) m m' d' rest st.
Proof.
  intros Ho Hc Hx Hs Hok. destruct (calm_admin _ _ _ _ _ Ho Hc) as [Ha Hl]. pose proof (market_admin _ _ _ _ _ _ _ _ Ho Hx) as Hrun.
  destruct (admin_fields _ _ _ _ _ Ha Hrun) as (Hr & Hu & _ & Hold).
  assert (Hst : accounts_stay m m') by (split; [exact Hold|]; intros H; by eapply admin_absent).
  apply effect_calm; [done|by eapply stage_stays|by eapply quota_admin_ok|].
  intros a limit b (c & Hca & <- & Hpos). destruct (Hold _ _ Hca) as (c' & Hc' & Heq). split.
  - exists c'. by rewrite Heq.
  - left. unfold budget, used. by rewrite Hr, Hu.
Qed.

Lemma record_effect over m d rest cid r est pid dn now fault e m' d' :
  stage_ok m (Answered cid r est dn) -> (obliging = false -> record_fits m r cid dn) ->
  quota_ok over {| qs_market := m; qs_disk := d; qs_open := option_list r ++ rest |} ->
  RecordReserved r cid pid dn now fault m d = (e, m', d') ->
  call_effect over (fun a => record_overrun a r cid dn) m m' d' rest Idle.
Proof.
  intros [Hres Hd] Hc Hok Er. pose proof (stage_record_fits _ _ _ _ _ _ _ _ Hres Hd Hc Hok) as Hfit.
  pose proof Hres as (Hne & _ & _ & Hr). destruct (RecordReserved_fields _ _ _ _ _ _ _ _ _ _ _ Er) as (Hcs & _).
  assert (H : quota_ok (fun a => over a + record_overrun a r cid dn) {| qs_market := m'; qs_disk := d'; qs_open := rest |}
    /\ forall a limit, limited m a limit -> used m' a = used m a + (if decide (cid = a) then charged dn else 0)).
  { destruct r as [q|]; [|by eapply quota_charge_ok]. destruct Hr as [Hq _].
    assert (cid = qr_accountID q) as -> by (by rewrite Hq). by apply (quota_settle_ok over m d [] q rest _ _ _ _ _ _ _ Hok Hfit Er). }
  destruct H as [Hok' Hu]. split; [by apply same_accounts|]. split; [done|]. split; [exact Hok'|].
  intros a limit o Hl. split; [by eapply limited_same|]. split.
  - eapply record_moves; [exact Hok|exact Hok'| | | |by eapply Hu].
    + intros b. destruct r as [q|]; simpl; [destruct Hr as [-> _]; simpl; by case_decide|by case_decide].
    + destruct r as [q|]; simpl; [destruct Hr as [-> ?]; simpl; lia|done].
    + intros ->. destruct (Hfit (limited_is _ _ _ Hl)) as (? & ? & _). unfold charged. lia.
  - intros Ho. destruct (Hd Ho) as (_ & _ & ?). by eapply stage_no_overrun.
Qed.

Lemma AuthenticateConsumer_known m key id :
  AuthenticateConsumer m key = Ok id -> account_known m (consumerID (Some id)).
Proof.
  assert (Ha : forall a, activeConsumerIDLocked m a = Ok id -> account_known m (consumerID (Some id))).
  { intros a. unfold activeConsumerIDLocked. destruct (m_consumers m !! a) as [c|] eqn:E; [|done].
    destruct (cn_Disabled c); [done|]. intros [= <-]. unfold consumerID. destruct (a =s ""); [by left|right]. by exists c. }
  unfold AuthenticateConsumer. case_goal; [intros [= <-]; by left|].
  repeat case_goal; try done; apply Ha.
Qed.

Lemma reserve_effect over m d rest cid est r m1 :
  quota_ok over {| qs_market := m; qs_disk := d; qs_open := rest |} -> estimate_fits m cid est -> cid <> "" ->
  account_known m cid -> (obliging = true -> 0 < est) -> ReserveConsumerQuota cid est m = Ok (r, m1) ->
  call_effect over (fun _ => 0) m m1 d rest (Reserved cid r est).
Proof.
  intros Hok Hc Hne Hs Hest Er. destruct (reserve_cases _ _ _ _ _ Er) as (Hcs & Hu & Hr).
  destruct (quota_reserve_ok _ _ _ _ _ _ _ _ Hok Hc Hne Er) as [Hok' Hfit].
  apply effect_calm; [by apply same_accounts| |exact Hok'|].
  - split; [done|]. split; [by unfold account_known; rewrite Hcs|]. split; [done|].
    destruct r as [q|]; [done|]. by destruct Hr as [-> ?].
  - intros a limit o Hl. split; [by eapply limited_same|]. destruct r as [q|].
    + destruct Hr as [-> He]. eapply reserve_moves; [exact Hok|exact Hok'|done..|]. intros ->. by eapply Hfit.
    + destruct Hr as [-> _]. by left.
Qed.

Lemma release_effect over m d rest cid r est :
  stage_ok m (Reserved cid r est) -> quota_ok over {| qs_market := m; qs_disk := d; qs_open := option_list r ++ rest |} ->
  call_effect over (fun _ => 0) m (ReleaseReservation r m) d rest Idle.
Proof.
  intros (Hne & Hk & _ & Hr) Hok. destruct r as [q|]; [|by eapply (effect_none _ _ _ _ Idle)]. destruct Hr as [-> He].
  rewrite ReleaseReservation_pos by done. set (q := {| qr_accountID := cid; qr_tokens := est |}) in *.
  destruct (quota_close_ok _ m d d [] q rest Hok) as (Hok' & _). destruct (release_fields (Some q) m) as (Hcs & Hu & _).
  apply effect_calm; [by apply same_accounts|done|exact Hok'|].
  intros a limit o Hl. split; [by eapply limited_same|]. exact (release_moves _ _ _ _ _ _ _ _ _ _ Hok Hok' Hu).
Qed.

Lemma market_call over m d rest st nd o x m' d' :
  permitted st (OMarket o) -> calm m (OMarket o) x -> market_perform o nd (m, d) = Some (x, (m', d')) ->
  stage_ok m st -> quota_ok over {| qs_market := m; qs_disk := d; qs_open := stage_open st ++ rest |} ->
  call_effect over (fun a => step_overrun a (LCall 0 (OMarket o))) m m' d' rest (after_market st o x).
Proof.
  intros Hp Hc Hx Hs Hok. destruct (admin_call nd o) as [op|] eqn:Ho.
  { assert (Ha : after_market st o x = st) by (destruct o; done). rewrite Ha.
    pose proof (admin_effect _ _ _ _ _ _ _ _ _ _ _ Ho Hc Hx Hs Hok) as H. by destruct o. }
  destruct o as [key|reg|id|id|i|i|id|id|id md ts|cid est|r|r cid pid dn|id|id|]; try discriminate Ho; cbn [market_perform] in Hx.
  - injection Hx as <- <- <-. simpl in Hp. subst st. eapply effect_none; [done| |]; simpl;
      destruct (AuthenticateConsumer m key) as [id|] eqn:E; simpl; try done. by eapply AuthenticateConsumer_known.
  - injection Hx as <- <- <-. by eapply effect_none.
  - injection Hx as <- <- <-. by eapply effect_none.
  - injection Hx as <- <- <-. by eapply effect_none.
  - injection Hx as <- <- <-. by eapply effect_none.
  - simpl in Hp. destruct Hp as (-> & Hne & Hest). cbn [stage_open app] in Hok. simpl in Hs.
    destruct (ReserveConsumerQuota cid est m) as [[r m1]|err] eqn:Er; injection Hx as <- <- <-;
      [by eapply reserve_effect|by apply (effect_none _ _ _ _ (Known cid))].
  - injection Hx as <- <- <-. destruct Hp as (cid & est & ->). by eapply release_effect.
  - destruct Hp as (est & ->). cbn [stage_open] in Hok.
    destruct (RecordReserved r cid pid dn (nd_now nd) (nd_fault nd) m d) as [[e m1] d1] eqn:Er. injection Hx as <- <- <-.
    by eapply record_effect.
  - injection Hx as <- <- <-. by eapply effect_none.
Qed.

(** ** The whole system *)

Definition follows (m : Market) (p : Prog Reply) (st : Stage) : Prop := obeys st p /\ stage_ok m st.

Definition held_open (sts : list Stage) : list QuotaReservation := sts ≫= stage_open.

(** Every running request is at a stage of the protocol, and the market's ledger is the sum of
    what those stages hold. *)
Definition sys_ok (over : string -> Z) (sy : System) : Prop :=
  exists sts, Forall2 (follows (sy_market sy)) (sy_pool sy) sts
    /\ quota_ok over {| qs_market := sy_market sy; qs_disk := snd (w_market (sy_world sy)); qs_open := held_open sts |}.

Definition sys_effect (ext : string -> Z) (m m' : Market) : Prop :=
  forall a limit o, limited m a limit ->
    limited m' a limit /\ moves (budget m a limit o) (budget m' a limit (o + ext a)) /\ (obliging = true -> ext a = 0).

Lemma sys_effect_refl m : sys_effect (fun _ => 0) m m.
Proof. intros a limit o Hl. split; [done|]. split; [left; f_equal; lia|done]. Qed.

Lemma quota_ok_add0 over s : quota_ok over s -> quota_ok (fun a => over a + 0) s.
Proof. apply quota_ok_over. intros a. lia. Qed.

(** A call leaves the market alone unless it is one of the market's. *)
Lemma exec_other s o nd w x w' :
  exec s o nd w = Some (x, w') -> (forall q, o <> OMarket q) -> w_market w' = w_market w.
Proof.
  destruct o as [o|o|o|o|o]; cbn [exec]; unfold lift; intros H Hn; [|by destruct (Hn o)| | |];
    match type of H with match ?c with _ => _ end = _ => destruct c as [[? ?]|] end; first [discriminate H|by injection H as _ <-].
Qed.

Lemma exec_market s o nd w x w' :
  exec s (OMarket o) nd w = Some (x, w') ->
  exists m d m' d', w_market w = (m, d) /\ market_perform o nd (m, d) = Some (x, (m', d')) /\ w_market w' = (m', d').
Proof.
  cbn [exec]. unfold lift. destruct (w_market w) as [m d].
  change (@perform accountMarket market_service o nd (m, d)) with (market_perform o nd (m, d)).
  destruct (market_perform o nd (m, d)) as [[y [m' d']]|] eqn:E; [|done]. intros H. injection H as <- <-.
  by exists m, d, m', d'.
Qed.

Lemma call_step over s i o nd w x w' st rest :
  exec s o nd w = Some (x, w') -> calm (fst (w_market w)) o x -> permitted st o -> stage_ok (fst (w_market w)) st ->
  quota_ok over {| qs_market := fst (w_market w); qs_disk := snd (w_market w); qs_open := stage_open st ++ rest |} ->
  call_effect over (fun a => step_overrun a (LCall i o)) (fst (w_market w)) (fst (w_market w')) (snd (w_market w')) rest (after st o x).
Proof.
  intros Hx Hc Hp Hs Hok. destruct o as [o|o|o|o|o].
  2: { destruct (exec_market _ _ _ _ _ _ Hx) as (m & d & m' & d' & Em & E & ->). rewrite Em in *. simpl in *.
       by eapply market_call. }
  all: rewrite (exec_other _ _ _ _ _ _ Hx) by done.
  1: { destruct (registry_stage _ _ _ _ Hp Hc Hs) as [H1 H2]. by eapply effect_none. }
  all: by eapply effect_none.
Qed.

Lemma follows_stay m m' ps sts :
  accounts_stay m m' -> Forall2 (follows m) ps sts -> Forall2 (follows m') ps sts.
Proof. intros Hs H. eapply Forall2_impl; [exact H|]. intros p st [? ?]. split; [done|]. by eapply stage_stays. Qed.

Lemma sys_step_ok over s page sy l sy' :
  sys_ok over sy -> sys_step s page sy l sy' ->
  sys_ok (fun a => over a + step_overrun a l) sy' /\ sys_effect (fun a => step_overrun a l) (sy_market sy) (sy_market sy').
Proof.
  intros (sts & Hf & Hq) Hs. destruct Hs as [ps w e r He|ps1 o k ps2 w nd x w' Hx Hc|ps1 a ps2 w|ps w w' Hw];
    unfold sy_market in *; cbn [sy_pool sy_world] in *.
  - split; [|apply sys_effect_refl]. exists (Idle :: sts). split; [|by apply quota_ok_add0]. constructor; [|done].
    split; [by apply serve_obeys|done].
  - apply Forall2_app_inv_l in Hf as (s1 & s2' & Hf1 & Hf2 & ->). apply Forall2_cons_inv_l in Hf2 as (st & s2 & [Hob Hst] & Hf2 & ->).
    destruct Hob as [Hp Hk]. unfold held_open in Hq. rewrite bind_app, bind_cons in Hq.
    assert (Hq' : quota_ok over {| qs_market := (w_market w).1; qs_disk := (w_market w).2;
      qs_open := stage_open st ++ (held_open s1 ++ held_open s2) |}) by (eapply quota_ok_perm; [|exact Hq]; solve_Permutation).
    destruct (call_step _ _ (length ps1) _ _ _ _ _ _ _ Hx Hc Hp Hst Hq') as (Hstay & Hst' & Hqq & Heff). split; [|exact Heff].
    exists (s1 ++ after st o x :: s2). split.
    + apply Forall2_app; [by eapply follows_stay|]. constructor; [by split|by eapply follows_stay].
    + unfold held_open. cbn [sy_world]. rewrite bind_app, bind_cons. eapply quota_ok_perm; [|exact Hqq]. solve_Permutation.
  - apply Forall2_app_inv_l in Hf as (s1 & s2' & Hf1 & Hf2 & ->). apply Forall2_cons_inv_l in Hf2 as (st & s2 & [Hob Hst] & Hf2 & ->).
    split; [|apply sys_effect_refl]. exists (s1 ++ s2). split; [by apply Forall2_app|]. apply quota_ok_add0.
    unfold held_open in *. rewrite bind_app, bind_cons in Hq. rewrite bind_app. simpl in *. by rewrite Hob in Hq.
  - split; [|rewrite Hw; apply sys_effect_refl]. exists sts. unfold sy_market. cbn [sy_world]. rewrite Hw. split; [done|].
    by apply quota_ok_add0.
Qed.

Lemma sys_ok_over over over' sy : (forall a, over a = over' a) -> sys_ok over sy -> sys_ok over' sy.
Proof. intros He (sts & Hf & Hq). exists sts. split; [done|]. by eapply quota_ok_over. Qed.

Lemma sys_ok_safe over sy a limit o :
  sys_ok over sy -> limited (sy_market sy) a limit ->
  let b := budget (sy_market sy) a limit o in
  0 <= bg_used b /\ 0 <= bg_held b /\ bg_used b + bg_held b <= limit + over a /\ (sy_pool sy = [] -> bg_held b = 0).
Proof.
  intros (sts & Hf & Hq) Hl. simpl. pose proof (qk_ledger _ _ Hq a) as Hled. pose proof (qk_quota _ _ Hq _ _ Hl) as Hquota.
  pose proof (used_nonneg _ _ _ _ Hq Hl). pose proof (held_by_nonneg a _ (quota_open_pos _ _ Hq)). simpl in *. rewrite Hled.
  split_and!; try done. intros Hp. rewrite Hp in Hf. apply Forall2_nil_inv_l in Hf as ->. done.
Qed.

(** The state of a coordinator that has just started: nothing reserved, usage within the limits. *)
Definition sys_start (w : World) : System := {| sy_pool := []; sy_world := w |}.

Definition market_start (w : World) : Prop :=
  quota_start {| qs_market := fst (w_market w); qs_disk := snd (w_market w); qs_open := [] |}.

(** C2: the coordinator implements the budget machine.  Let any number of
    requests to any endpoint run at the same time, interleaved call by call with each other, with account
    administration, with nodes joining and leaving, with every failure of a store, and with nodes that send any amount
    of output.  Then every step moves the budget of each limited account as one step of the abstract
    machine (or not at all): nothing is reserved that does not fit under the limit; what is used and
    held together is at most the limit and the total by which recordings went past their
    reservations; and once no request runs nothing is held.  If clients and nodes are [obliging] (every
    budget a 64-bit number, every node's output within the limit it was sent; the code enforces neither) no
    recording goes past its reservation and the limit is never exceeded.  Assumed throughout ([calm]):
    the 64-bit sums of a limited account do not wrap (a max_tokens near 2^63 makes them, see [quota_estimate_wraps]),
    and accounts are created with a 64-bit limit under fresh names other than "local". *)
Theorem coordinator_keeps_budgets s page w tr sy a limit :
  market_start w -> steps (sys_step s page) (sys_start w) tr sy -> limited (fst (w_market w)) a limit ->
  let over := run_overrun a tr in
  let b := budget (sy_market sy) a limit over in
  (exists btr, steps budget_step (budget (fst (w_market w)) a limit 0) btr b)
  /\ 0 <= bg_used b /\ 0 <= bg_held b /\ bg_used b + bg_held b <= limit + over
  /\ (obliging = true -> bg_used b + bg_held b <= limit)
  /\ (sy_pool sy = [] -> bg_held b = 0).
Proof.
  intros Hw Hs Hl over b.
  assert (H : sys_ok (fun a => run_overrun a tr) sy /\ limited (sy_market sy) a limit /\ (obliging = true -> over = 0)
    /\ exists btr, steps budget_step (budget (fst (w_market w)) a limit 0) btr b).
  { subst over b. remember (sys_start w) as sy0 eqn:E0. induction Hs as [sy0|sy0 tr1 sy1 l sy2 _ IH Hstep]; subst.
    - split; [|split; [done|split; [done|by eexists; constructor]]]. exists []. split; [by constructor|]. by apply quota_start_ok.
    - destruct (IH eq_refl) as (Hok & Hl1 & Ho & btr & Hb). destruct (sys_step_ok _ _ _ _ _ _ Hok Hstep) as [Hok2 Heff].
      split; [by eapply sys_ok_over; [|exact Hok2]; intros c; by rewrite run_overrun_snoc|].
      rewrite run_overrun_snoc. destruct (Heff _ _ (run_overrun a tr1) Hl1) as (Hl2 & Hm & Hz). split; [done|].
      split; [intros Hob; rewrite Ho, Hz by done; done|]. destruct Hm as [Heq|[bl Hbl]].
      + exists btr. by rewrite <- Heq.
      + exists (btr ++ [bl]). by econstructor. }
  destruct H as (Hok & Hl2 & Hz & Hbtr). split; [done|]. destruct (sys_ok_safe _ _ a limit over Hok Hl2) as (H1 & H2 & H3 & H4).
  split_and!; try done. intros Hob. specialize (Hz Hob). subst b. subst over. lia.
Qed.

End Obliging.

(** ** A run *)

Definition calm_check (obliging : bool) (m : Market) (o : Op) : Ans o -> bool :=
  match o as o return Ans o -> bool with
  | OMarket (ReserveConsumerQuota' a est) => fun _ => used m a + map_get 0 (m_reservedUse m) a + est <=? max_int64
  | OMarket (RecordReserved' r cid _ done) => fun _ =>
      obliging || ((0 <=? id_PromptTokens done) && (0 <=? id_OutputTokens done)
                   && (used m cid + map_get 0 (m_reservedUse m) cid - set_aside r + charged done <=? max_int64))
  | OMarket (CreateConsumer' _) => fun _ => false
  | ORegistry (Dispatch' _ req) => fun out =>
      let chars := meteredSink (dp_chunks out) in
      match dp_error out with
      | Some _ => true
      | None => negb obliging || ((0 <=? chars) && (chars + 3 <=? max_int64)
                && (chars <=? 4 * default defaultReservedOutputTokens (ir_MaxTokens req)))
      end
  | _ => fun _ => true
  end.

Lemma calm_check_ok obliging m o x : calm_check obliging m o x = true -> calm obliging m o x.
Proof.
  destruct o as [[]|[]|?|?|?]; simpl; try done.
  - intros H -> He. rewrite He in H. simpl in H. bsimpl. done.
  - intros H _. bsimpl. lia.
  - intros H -> _. simpl in H. bsimpl. lia.
Qed.

(** A request on its own, checking each call. *)
Fixpoint drive (obliging : bool) (s : server) (p : Prog Reply) (nds : list Nondet) (w : World) {struct nds} : option (Prog Reply * World) :=
  match nds with
  | [] => Some (p, w)
  | nd :: nds =>
      match p with
      | Ret _ => Some (p, w)
      | Call o k =>
          match exec s o nd w with
          | Some (x, w') => if calm_check obliging (fst (w_market w)) o x then drive obliging s (k x) nds w' else None
          | None => None
          end
      end
  end.

Lemma drive_steps ob s page ps p nds w p' w' :
  drive ob s p nds w = Some (p', w') ->
  exists tr, steps (sys_step ob s page) {| sy_pool := p :: ps; sy_world := w |} tr {| sy_pool := p' :: ps; sy_world := w' |}.
Proof.
  assert (H0 : forall p w, Some (p, w) = Some (p', w') ->
    exists tr, steps (sys_step ob s page) {| sy_pool := p :: ps; sy_world := w |} tr {| sy_pool := p' :: ps; sy_world := w' |})
    by (intros q v [= -> ->]; eexists; constructor).
  revert p w. induction nds as [|nd nds IH]; intros p w; simpl; [apply H0|].
  destruct p as [a|o k]; [apply H0|].
  destruct (exec s o nd w) as [[x w1]|] eqn:Ex; [|done]. destruct (calm_check _ _ o x) eqn:Ec; [|done]. intros H.
  destruct (IH _ _ H) as [tr Htr]. exists ([LCall 0 o] ++ tr). eapply steps_app; [|exact Htr].
  apply (steps_snoc _ _ []  {| sy_pool := Call o k :: ps; sy_world := w |}); [constructor|].
  apply (sy_call ob s page [] o k ps w nd x w1); [done|by apply calm_check_ok].
Qed.

Definition demo_server : server :=
  {| sv_modelCatalog := None; sv_idempotency := None; sv_adminToken := "secret"; sv_devAdminOpen := false;
     sv_requireNodeClientCert := false; sv_requestTimeout := 0; sv_maxRequestBytes := 1000 |}.

Definition demo_ledger_state : Ledger :=
  {| l_enabled := true; l_path := ""; l_sqlitePath := ""; l_db := false; l_price := 1000; l_shareBPS := 8000;
     l_targetLatencyMs := 0; l_latencyPenaltyBPS := 0; l_events := []; l_lastHash := genesisHash |}.

Definition demo_world : World :=
  {| w_registry := (demo_registry, []); w_market := (demo_market, blank_disk); w_settlement := (demo_ledger_state, blank_store);
     w_challenges := ({| cl_enabled := true; cl_path := ""; cl_events := []; cl_lastHash := genesisHash |}, None);
     w_server := (∅, 0) |}.

Definition demo_http : HttpRequest :=
  {| hr_Header := fun name => if name =s "Authorization" then "Bearer k1" else ""; hr_Query := fun _ => "";
     hr_PeerCertificates := None |}.

Definition demo_body : RequestBody ChatCompletionRequest :=
  {| rb_decoded := Ok {| cr_Model := "m"; cr_Messages := [{| cm_Role := "user"; cm_Content := "hello there" |}];
       cr_Stream := false; cr_PrivacyTier := "public"; cr_MiBackend := ""; cr_MiDeviceKind := ""; cr_MiSoC := "";
       cr_MiAccelerators := []; cr_Temperature := None; cr_MaxTokens := Some 5 |};
     rb_needed := 100 |}.

(** A node that streams two chunks. *)
Definition demo_nondet : Nondet :=
  {| nd_now := demo_now; nd_random := Ok [1; 2; 3]; nd_fault := None; nd_file := NoFault; nd_order := ["n1"; "n2"];
     nd_attempts := [demo_attempt [(demo_now, "good "); (demo_now, "day")] (Ok empty_InferDone)]; nd_embeds := []; nd_sink := [] |}.

Definition demo_chat_prog : Prog Reply := serve demo_server "" (PostChatCompletions demo_body true) demo_http.

(** After [n] calls. *)
Definition demo_after (n : nat) : option (Prog Reply * World) := drive true demo_server demo_chat_prog (repeat demo_nondet n) demo_world.

Example chat_holds :
  match demo_after 4 with Some (_, w) => map_get 0 (m_reservedUse (fst (w_market w))) "studio" =? 9 | None => false end = true.
Proof. vm_compute. reflexivity. Qed.

Example chat_serves :
  match demo_after 10 with
  | Some (Ret rep, w) =>
      (ry_Status rep =? 200) && (used (fst (w_market w)) "studio" =? 6)
      && (map_get 0 (m_reservedUse (fst (w_market w))) "studio" =? 0)
  | _ => false
  end = true.
Proof. vm_compute. reflexivity. Qed.

(** A node that sends 440 characters where 5 tokens were asked for: the account is charged 114 tokens
    against its limit of 100, so it is 105 past the 9 that were reserved. *)
Definition long_nondet : Nondet :=
  {| nd_now := demo_now; nd_random := Ok [1; 2; 3]; nd_fault := None; nd_file := NoFault; nd_order := ["n1"; "n2"];
     nd_attempts := [demo_attempt (repeat (demo_now, "abcdefghij") 44) (Ok empty_InferDone)]; nd_embeds := []; nd_sink := [] |}.

Example node_overruns :
  match drive false demo_server demo_chat_prog (repeat long_nondet 10) demo_world with
  | Some (Ret rep, w) => (ry_Status rep =? 200) && (used (fst (w_market w)) "studio" =? 114)
  | _ => false
  end = true.
Proof. vm_compute. reflexivity. Qed.

Definition demo_held : World := match demo_after 4 with Some (_, w) => w | None => demo_world end.

Lemma demo_held_steps :
  exists tr p, steps (sys_step true demo_server "") (sys_start demo_world) tr {| sy_pool := [p]; sy_world := demo_held |}.
Proof.
  assert (H : exists p, demo_after 4 = Some (p, demo_held)).
  { unfold demo_held. destruct (demo_after 4) as [[p w]|] eqn:E; [by exists p|].
    assert (Hs : match demo_after 4 with Some _ => true | None => false end = true) by (vm_compute; reflexivity).
    by rewrite E in Hs. }
  destruct H as [p H]. destruct (drive_steps _ _ "" [] _ _ _ _ _ H) as [tr Htr].
  exists ([LStart (PostChatCompletions demo_body true)] ++ tr), p. eapply steps_app; [|exact Htr].
  apply (steps_snoc _ _ [] (sys_start demo_world)); [constructor|]. apply sy_start. intros _. vm_compute. by split.
Qed.

Lemma demo_limited : limited demo_market "studio" 100.
Proof.
  apply (limited_lookup demo_market "studio"
    {| cn_ID := "studio"; cn_DisplayName := "Studio"; cn_TotalTokenLimit := 100; cn_Disabled := false |}); by vm_compute.
Qed.

Lemma coordinator_keeps_budgets_witness :
  bg_held (budget (fst (w_market demo_held)) "studio" 100 0) = 9
  /\ bg_used (budget (fst (w_market demo_held)) "studio" 100 0) + 9 <= 100.
Proof.
  assert (H9 : bg_held (budget (fst (w_market demo_held)) "studio" 100 0) = 9) by (vm_compute; reflexivity).
  split; [exact H9|]. rewrite <- H9. destruct demo_held_steps as (tr & p & Hs).
  pose proof (coordinator_keeps_budgets true demo_server "" demo_world tr _ "studio" 100 demo_quota_start Hs demo_limited) as H.
  exact (proj1 (proj2 (proj2 (proj2 (proj2 H)))) eq_refl).
Defined.
