(* ===== verification/NodeSessions.v ===== *)
(** * Nodes coming and going: administration and websocket sessions on one registry

    What disabling a provider does to its nodes, and two orders of events in which the
    handlers, each correct alone, leave the registry in a state nobody asked for. *)

From S2P Require Import Prelude GoString GoSort GoFloat HashChain Json Privacy Protocol Config ModelCatalog.
From S2P Require Import Settlement Scheduler SchedulerProofs Challenge City CityProofs QuotaProofs Reputation Idempotency NodeConn.
From S2P Require Import Requests Services Handlers AdminHandlers HandlerProofs QuotaSystem.

(** ** Disabling a provider *)

Lemma RemoveProvider_spec id r r' n gone :
  RemoveProvider id r = (r', n, gone) ->
  (forall k node, nodes r' !! k = Some node <-> nodes r !! k = Some node /\ n_ProviderID node <> id)
  /\ (forall k node c, nodes r !! k = Some node -> n_ProviderID node = id -> n_Conn node = Some c -> c ∈ gone)
  /\ n = Z.of_nat (size (filter (fun kn => n_ProviderID kn.2 = id) (nodes r))).
Proof.
  unfold RemoveProvider. intros [= <- <- <-]. split; [|split].
  - intros k node. simpl. by rewrite map_lookup_filter_Some.
  - intros k node c Hk Hp Hc. apply list_elem_of_bind. exists (k, node). rewrite list_elem_of_filter, elem_of_map_to_list.
    simpl. rewrite Hc. split; [by apply list_elem_of_singleton|done].
  - rewrite <- length_map_to_list. f_equal. apply Permutation_length. apply NoDup_Permutation.
    + apply NoDup_filter, NoDup_map_to_list.
    + apply NoDup_map_to_list.
    + intros [k node]. rewrite list_elem_of_filter, !elem_of_map_to_list, map_lookup_filter_Some. simpl. tauto.
Qed.

Lemma DisableProvider_ok id now fault m d p m' d' :
  DisableProvider id now fault m d = (Ok p, m', d') ->
  m_providers m' !! normalizeAccountID id = Some p /\ pv_Disabled p = true
  /\ (exists p0, m_providers m !! normalizeAccountID id = Some p0 /\ p = p0 <| pv_Disabled := true |>)
  /\ m_enabled m' = m_enabled m /\ m_requireProviderTokens m' = m_requireProviderTokens m.
Proof.
  unfold DisableProvider. case_goal; [done|]. destruct (m_providers m !! normalizeAccountID id) as [p0|] eqn:E0; [|done].
  destruct (persist _ _ _ _) as [[e|] d1]; [done|]. intros [= <- <- <-]. simpl. rewrite lookup_insert_eq.
  split_and!; try done. by exists p0.
Qed.

Lemma disabled_refused m reg id p :
  m_enabled m = true -> m_requireProviderTokens m = true -> m_providers m !! id = Some p -> pv_Disabled p = true ->
  AuthenticateProvider m reg <> Ok id.
Proof.
  intros He Hr Hp Hd. assert (Ha : forall a, activeProviderIDLocked m a <> Ok id).
  { intros a. unfold activeProviderIDLocked. destruct (m_providers m !! a) as [q|] eqn:E; [|done].
    destruct (pv_Disabled q) eqn:Eq; [done|]. intros [= ->]. congruence. }
  unfold AuthenticateProvider. rewrite He, Hr. simpl. cbv zeta.
  repeat first [apply Ha | done | case_goal].
Qed.

Lemma exec_registry s o nd w x w' :
  exec s (ORegistry o) nd w = Some (x, w') ->
  exists r closed rc, w_registry w = (r, closed) /\ registry_perform o nd (r, closed) = Some (x, rc)
    /\ w' = w <| w_registry := rc |>.
Proof.
  cbn [exec]. unfold lift. destruct (w_registry w) as [r closed].
  change (@perform nodeRegistry registry_service o nd (r, closed)) with (registry_perform o nd (r, closed)).
  destruct (registry_perform o nd (r, closed)) as [[y rc]|] eqn:E; [|done]. intros H. injection H as <- <-.
  by exists r, closed, rc.
Qed.

Lemma exec_registry_same s o nd w x w' : exec s (OMarket o) nd w = Some (x, w') -> w_registry w' = w_registry w.
Proof.
  cbn [exec]. unfold lift.
  match goal with |- match ?c with _ => _ end = _ -> _ => destruct c as [[y mk]|] end; [|done]. intros H. by injection H as _ <-.
Qed.

(** C24: when the administrator's request to disable a provider succeeds and no other request runs
    meanwhile, the account is disabled, exactly its nodes are gone from the registry and their
    connections closed, and the reply counts them.  In a market that is enabled and requires provider
    tokens no node authenticates as the provider then, nor after any operations of the market that
    follow.  Where the market is disabled or requires no tokens ([configs/coordinator.yaml] ships so) the code
    takes every node under the name it declares, and the removed node may come back. *)
Theorem provider_disabled s id nds w rep w' p :
  run s (adminDisableProvider id) nds w = Some (rep, w') ->
  m_providers (fst (w_market w)) !! normalizeAccountID id = Some p -> pv_ID p = normalizeAccountID id ->
  ry_Status rep = 200 ->
  let m' := fst (w_market w') in
  m_providers m' !! pv_ID p = Some (p <| pv_Disabled := true |>)
  /\ (forall k n, nodes (fst (w_registry w')) !! k = Some n
        <-> nodes (fst (w_registry w)) !! k = Some n /\ n_ProviderID n <> pv_ID p)
  /\ (forall k n c, nodes (fst (w_registry w)) !! k = Some n -> n_ProviderID n = pv_ID p -> n_Conn n = Some c ->
        c ∈ snd (w_registry w'))
  /\ ry_Body rep = BDisabledProvider (p <| pv_Disabled := true |>)
       (Z.of_nat (size (filter (fun kn => n_ProviderID kn.2 = pv_ID p) (nodes (fst (w_registry w))))))
  /\ (m_enabled m' = true -> m_requireProviderTokens m' = true -> forall ops reg,
        AuthenticateProvider (fst (after_ops ops (w_market w'))) reg <> Ok (pv_ID p))
  /\ (m_enabled m' = false \/ m_requireProviderTokens m' = false -> forall reg,
        AuthenticateProvider m' reg = Ok (if reg_ProviderID reg =s "" then reg_NodeID reg else reg_ProviderID reg)).
Proof.
  intros Hrun Hp Hid Hst m'. subst m'. destruct nds as [|nd nds]; [done|]. cbn [run adminDisableProvider] in Hrun.
  destruct (exec s (DisableProvider' id) nd w) as [[x w1]|] eqn:E1; [|done].
  destruct (exec_market _ _ _ _ _ _ E1) as (m & d & m1 & d1 & Em & Hm & Em1). rewrite Em in Hp. simpl in Hp.
  cbn [market_perform] in Hm. unfold stored in Hm.
  destruct (DisableProvider id (nd_now nd) (nd_fault nd) m d) as [[x1 m2] d2] eqn:Ed. injection Hm as <- <- <-.
  destruct x1 as [q|err].
  2: { injection Hrun as <- _. exfalso. by destruct err. }
  destruct (DisableProvider_ok _ _ _ _ _ _ _ _ Ed) as (Hq & Hdis & (p0 & Hp0 & ->) & He & Hr).
  rewrite Hp in Hp0. injection Hp0 as <-. destruct nds as [|nd2 nds]; [done|]. cbn [run] in Hrun.
  destruct (exec s (RemoveProvider' (pv_ID (p <| pv_Disabled := true |>))) nd2 w1) as [[n w2]|] eqn:E2; [|done].
  injection Hrun as <- <-. pose proof (exec_registry_same _ _ _ _ _ _ E1) as Hw1.
  destruct (exec_registry _ _ _ _ _ _ E2) as (r & closed & rc & Er & Hreg & ->). rewrite Hw1 in Er. rewrite Er.
  cbn [registry_perform] in Hreg.
  change (pv_ID (p <| pv_Disabled := true |>)) with (pv_ID p) in Hreg.
  destruct (RemoveProvider (pv_ID p) r) as [[r2 n2] gone] eqn:Erem. injection Hreg as <- <-. cbn [w_market w_registry set].
  destruct (RemoveProvider_spec _ _ _ _ _ Erem) as (R1 & R2 & ->). rewrite <- Hid in Hq.
  rewrite Em1. cbn [fst snd]. split; [exact Hq|]. split; [exact R1|]. split; [|split; [reflexivity|split]].
  - intros k node c Hk Hpk Hc. apply elem_of_app. right. by eapply R2.
  - intros He' Hr' ops reg. destruct (after_ops_disabled ops (m2, d2)) as (A1 & A2 & _ & A4). cbn [fst] in *.
    destruct (A4 (pv_ID p)) as (q & Hq' & Hd'); [by eexists|].
    apply (disabled_refused _ _ _ q); [by rewrite A1|by rewrite A2|done|done].
  - intros Hoff reg. unfold AuthenticateProvider.
    replace (negb (m_enabled m2) || negb (m_requireProviderTokens m2)) with true by (destruct Hoff as [-> | ->]; by rewrite ?orb_true_r).
    by destruct (reg_ProviderID reg =s "").
Qed.

(** ** Sessions that overlap *)

(** Handlers that run at the same time, and the order in which they make their calls. *)
Abbreviation Task := (Prog (Session + Reply)).

Fixpoint run_tasks (s : server) (sched : list (nat * Nondet)) (ts : list Task) (w : World) : option (list Task * World) :=
  match sched with
  | [] => Some (ts, w)
  | (i, nd) :: sched =>
      match ts !! i with
      | Some (Call o k) =>
          match exec s o nd w with
          | Some (x, w) => run_tasks s sched (<[i := k x]> ts) w
          | None => None
          end
      | _ => None
      end
  end.

Definition session_task (p : Prog Session) : Task := do! x := p in Ret (inl x).
Definition reply_task (p : Prog Reply) : Task := do! x := p in Ret (inr x).

(** The node "n1" of the provider "home" connects, and its connection breaks at once. *)
Definition demo_session (conn : Conn) : Task :=
  session_task (nodeWebSocket demo_server demo_http true conn
    (Ok (empty_Envelope <| env_Type := "register" |> <| env_Register := Some demo_join |>)) []).

Definition empty_network : World := demo_world <| w_registry := (NewRegistry, []) |>.

Definition in_turn (l : list nat) : list (nat * Nondet) := (fun i => (i, demo_nondet)) <$> l.

(** A node whose connection broke reconnects; the new session registers it; then the old session
    ends, and its [Remove] takes the reconnected node out of the registry and closes the
    new connection. *)
Theorem stale_session_removes :
  match run_tasks demo_server (in_turn [0; 0; 0; 1; 1; 1]%nat) [demo_session 1; demo_session 2] empty_network with
  | Some (ts, w) =>
      bool_decide ((n_Conn <$> nodes (fst (w_registry w)) !! "n1") = Some (Some 2))
      && match run_tasks demo_server (in_turn [0]%nat) ts w with
         | Some (_, w) => bool_decide (nodes (fst (w_registry w)) !! "n1" = None) && bool_decide (snd (w_registry w) = [2])
         | None => false
         end
  | None => false
  end = true.
Proof. vm_compute. reflexivity. Qed.

(** A session is between its checks and its registration when the administrator disables the
    provider: the reply says that no node was connected, and afterwards the disabled
    provider's node is registered and gets requests. *)
Theorem disabled_provider_joins :
  match run_tasks demo_server (in_turn [0; 0; 1; 1; 0]%nat)
          [demo_session 1; reply_task (adminDisableProvider "home")] empty_network with
  | Some ([_; Ret (inr rep)], w) =>
      (ry_Status rep =? 200)
      && match m_providers (fst (w_market w)) !! "home" with Some p => pv_Disabled p | None => false end
      && is_ok (reserveFiltered demo_now ["n1"] (demo_request <| ir_Backend := "" |> <| ir_Accelerators := [] |>) ∅ "home"
                  (fst (w_registry w)))
  | _ => false
  end = true.
Proof. vm_compute. reflexivity. Qed.

(** ** A witness *)

Definition home_network : World :=
  demo_world <| w_registry := (Register_ (demo_register "n1" "home" 1) (Some 7) demo_now NewRegistry, []) |>.

Definition demo_disabled : option (Reply * World) := run demo_server (adminDisableProvider "home") [demo_nondet; demo_nondet] home_network.

Definition demo_disabled_end : Reply * World := default (httpError [] "" 500, home_network) demo_disabled.

Lemma provider_disabled_witness :
  nodes (fst (w_registry (snd demo_disabled_end))) !! "n1" = None /\ 7 ∈ snd (w_registry (snd demo_disabled_end)).
Proof.
  assert (Hrun : demo_disabled = Some demo_disabled_end).
  { unfold demo_disabled_end. destruct demo_disabled as [[rep w]|] eqn:E; [reflexivity|].
    assert (Hs : match demo_disabled with Some _ => true | None => false end = true) by (vm_compute; reflexivity).
    rewrite E in Hs. discriminate. }
  destruct demo_disabled_end as [rep w'] eqn:Eend.
  assert (H200 : ry_Status (fst demo_disabled_end) = 200) by (vm_compute; reflexivity). rewrite Eend in H200.
  set (home := {| pv_ID := "home"; pv_DisplayName := "Home"; pv_Disabled := false;
                  pv_PrivacyMode := "community"; pv_PrivacyTiers := ["community"; "public"] |}).
  assert (Hp : m_providers (fst (w_market home_network)) !! normalizeAccountID "home" = Some home) by (vm_compute; reflexivity).
  destruct (provider_disabled demo_server "home" _ home_network rep w' home Hrun Hp ltac:(vm_compute; reflexivity) H200)
    as (_ & Hn & Hc & _).
  cbn [snd]. split.
  - destruct (nodes (fst (w_registry w')) !! "n1") as [n|] eqn:E; [|exact eq_refl]. apply Hn in E as [E Hne].
    vm_compute in E. injection E as <-. exfalso. apply Hne. reflexivity.
  - eapply (Hc "n1"); [vm_compute; reflexivity|reflexivity|reflexivity].
Defined.
