(* ===== verification/Backend.v ===== *)
(** * Inference runtimes: the interface [internal/backend/backend.go]

    A runtime answers a request by a computation that, on its way, looks at its context,
    hands chunks to [onChunk], and calls the outside (an HTTP server, for instance).  [Run]
    is the tree of these steps: one branch per answer the step can get.  The node agent is
    written against the interface [Runtime]; [EchoBackend] and [Ollama] implement it. *)

From S2P Require Import Prelude Protocol.

(** A Go error: its text, and whether [errors.Is] finds [context.Canceled] or
    [context.DeadlineExceeded] in it. *)
Record GoError := { ge_msg : string; ge_canceled : bool; ge_deadline : bool }.

Definition errorf (msg : string) : GoError := {| ge_msg := msg; ge_canceled := false; ge_deadline := false |}.

(** ** Computations *)

Section Run.
Context {Call : Type} (Reply : Call -> Type).

Inductive Run (R : Type) : Type :=
| Return (r : R)
| CtxErr (k : option GoError -> Run R)                     (* ctx.Err() *)
| OnChunk (content : string) (k : option GoError -> Run R) (* onChunk(content) *)
| Outside (call : Call) (k : Reply call -> Run R).
End Run.
Arguments Return {Call Reply R} r.
Arguments CtxErr {Call Reply R} k.
Arguments OnChunk {Call Reply R} content k.
Arguments Outside {Call Reply R} call k.

(** [if err != nil { return zero, err }] *)
Definition orReturn {Call} {Reply : Call -> Type} {A} (zero : A) (err : option GoError)
  (k : Run Reply (A * option GoError)) : Run Reply (A * option GoError) :=
  match err with Some e => Return (zero, Some e) | None => k end.

(** [src/internal/backend/backend.go:9-13] Runtime; [Call] and [Reply] are what the implementation asks of
    the outside. *)
Class Runtime (B : Type) := {
  Call : Type;
  Reply : Call -> Type;
  Name : B -> string;
  Chat : B -> InferRequest -> Run Reply (InferDone * option GoError);
  Embed : B -> string -> list string -> Run Reply (EmbedResult * option GoError);
}.

(** A value of the interface type: an implementation with its methods. *)
Record AnyRuntime := { rt_type : Type; rt_methods : Runtime rt_type; rt_value : rt_type }.
#[export] Existing Instance rt_methods.

(** ** What the outside answers *)

(** The answers of [ctx.Err()] and of [onChunk], by the number of the call, and of the outside. *)
Record Env {Call} (Reply : Call -> Type) := {
  ev_ctx : nat -> option GoError;
  ev_sink : nat -> option GoError;
  ev_reply : forall c : Call, Reply c;
}.
Arguments Build_Env {Call Reply}.
Arguments ev_ctx {Call Reply}.
Arguments ev_sink {Call Reply}.
Arguments ev_reply {Call Reply}.

Section Play.
Context {C : Type} {Rep : C -> Type} (env : Env Rep).

(** The chunks a computation offers, the last one being refused if there is one that is, and
    its result. *)
Fixpoint play {R} (i j : nat) (p : Run Rep R) : list string * R :=
  match p with
  | Return r => ([], r)
  | CtxErr k => play (S i) j (k (ev_ctx env i))
  | OnChunk content k => let '(chunks, r) := play i (S j) (k (ev_sink env j)) in (content :: chunks, r)
  | Outside c k => play i j (k (ev_reply env c))
  end.
End Play.

(** Nothing goes wrong with the context or the sink. *)
Definition undisturbed {C} {Rep : C -> Type} (reply : forall c, Rep c) : Env Rep :=
  {| ev_ctx := fun _ => None; ev_sink := fun _ => None; ev_reply := reply |}.

(** ** The contract of [Chat] *)

(** [faithful p]: an error of the context or of [onChunk] ends the computation at once, with that
    error; no chunk is empty. *)
Fixpoint faithful {C} {Rep : C -> Type} {A} (p : Run Rep (A * option GoError)) : Prop :=
  match p with
  | Return _ => True
  | CtxErr k => faithful (k None) /\ forall e, exists a, k (Some e) = Return (a, Some e)
  | OnChunk c k => c <> "" /\ faithful (k None) /\ forall e, exists a, k (Some e) = Return (a, Some e)
  | Outside c k => forall r, faithful (k r)
  end.

Lemma faithful_or_return {C} {Rep : C -> Type} {A} (zero : A) err (p : Run Rep (A * option GoError)) :
  (err = None -> faithful p) -> faithful (orReturn zero err p).
Proof. intros H. destruct err; simpl; auto. Qed.

(** A faithful computation offers no chunk after one that was refused, and fails with the
    sink's or the context's own error, or after all of its chunks were accepted. *)
Lemma faithful_play {C} {Rep : C -> Type} {A} (env : Env Rep) (p : Run Rep (A * option GoError)) i j :
  faithful p ->
  let '(chunks, (_, err)) := play env i j p in
  Forall (fun c => c <> "") chunks
  /\ (forall n e, (n < length chunks)%nat -> ev_sink env (j + n) = Some e -> S n = length chunks /\ err = Some e).
Proof.
  revert i j. induction p as [[a err]|k IH|c k IH|c k IH]; intros i j Hp; cbn [play faithful] in *.
  - split; [constructor|]. intros n e Hn. simpl in Hn. lia.
  - destruct Hp as [Hk He]. destruct (ev_ctx env i) as [e|]; [|by apply IH]. destruct (He e) as [a ->]. simpl.
    split; [constructor|]. intros n e' Hn. simpl in Hn. lia.
  - destruct Hp as (Hc & Hk & He). destruct (ev_sink env j) as [e|] eqn:Ej.
    + destruct (He e) as [a ->]. simpl. split; [by repeat constructor|]. intros n e' Hn. simpl in Hn.
      assert (n = 0)%nat as -> by lia. rewrite Nat.add_0_r, Ej. by intros [= ->].
    + specialize (IH None i (S j) Hk). destruct (play env i (S j) (k None)) as [chunks [a err]]. destruct IH as [IH1 IH2].
      split; [by constructor|]. intros [|n] e Hn; [rewrite Nat.add_0_r, Ej; done|]. simpl in Hn.
      rewrite <- Nat.add_succ_comm. intros He'. destruct (IH2 n e) as [H1 H2]; [lia|done|]. simpl. by rewrite H1.
  - by apply IH.
Qed.
