(* ===== verification/HostMemory.v ===== *)
(** * Free memory of the host: [internal/system/memory.go]

    The number a node puts in its heartbeats.  The output of [vm_stat] and [sysctl], or that
    they failed, and the memory the Go runtime obtained come from outside; the parsing and the
    64-bit unsigned arithmetic are here. *)

From S2P Require Import Prelude GoString Json.

(** ** [uint64] and its numerals *)

Definition max_uint64 : Z := 18446744073709551615.
Definition wrapu64 (z : Z) : Z := z mod 18446744073709551616.

Definition digit (b : Z) : bool := (48 <=? b) && (b <=? 57).

(** [strconv.ParseUint(s, 10, 64)]: digits only, at least one, and a value that fits. *)
Definition parseUint (s : string) : option Z :=
  let l := bytes s in
  if negb (s =s "") && forallb digit l && (digits_value 0 l <=? max_uint64) then Some (digits_value 0 l) else None.

(** ** The commands' output *)

(** [strings.Split(s, "\n")]; [cur] is the line read so far. *)
Fixpoint splitLines (cur : string) (s : string) : list string :=
  match s with
  | EmptyString => [cur]
  | String c s => if byte_val c =? 10 then cur :: splitLines "" s else splitLines (cur +:+ String c "") s
  end.

(** [strings.TrimSuffix(s, ".")]. *)
Definition trimDot (s : string) : string :=
  match rev (bytes s) with b :: rest => if b =? 46 then of_bytes (rev rest) else s | [] => s end.

(** [src/internal/system/memory.go:33-47] darwinFreeMemoryMB (a line): the pages it counts *)
Definition linePages (line : string) : option Z :=
  let line := trim_space line in
  if negb (has_prefix "Pages free:" line) && negb (has_prefix "Pages speculative:" line) then None
  else match fields line with
  | _ :: _ :: value :: _ => parseUint (trimDot value)
  | _ => None
  end.

(** [src/internal/system/memory.go:51-62] darwinPageSize *)
Definition darwinPageSize (sysctl : res string string) : Z :=
  match sysctl with
  | Err _ => 0
  | Ok out => default 0 (parseUint (trim_space out))
  end.

(** [src/internal/system/memory.go:22-49] darwinFreeMemoryMB *)
Definition darwinFreeMemoryMB (vm_stat sysctl : res string string) : Z :=
  match vm_stat with
  | Err _ => 0
  | Ok out =>
      let pageSize := darwinPageSize sysctl in
      let pageSize := if pageSize =? 0 then 16 * 1024 else pageSize in
      let freePages := fold_left (fun n line => wrapu64 (n + default 0 (linePages line))) (splitLines "" out) 0 in
      wrapu64 (freePages * pageSize) / 1024 / 1024
  end.

(** [src/internal/system/memory.go:10-20] FreeMemoryMB; [sys] is what [runtime.ReadMemStats] reports. *)
Definition FreeMemoryMB (goos : string) (vm_stat sysctl : res string string) (sys : Z) : Z :=
  let free := if goos =s "darwin" then darwinFreeMemoryMB vm_stat sysctl else 0 in
  if 0 <? free then free else sys / 1024 / 1024.

(** ** What it reads *)

Lemma is_digit_true b : digit b = true <-> is_digit b.
Proof. unfold digit, is_digit. rewrite andb_true_iff, !Z.leb_le. done. Qed.

(** Every number that fits reads back from its decimal text, with or without a final dot. *)
Lemma parseUint_itoa n : 0 <= n <= max_int64 -> parseUint (itoa n) = Some n.
Proof.
  intros Hn. destruct (itoa_bytes_spec n Hn) as [Hd Hv].
  assert (Hb : bytes (itoa n) = itoa_bytes n).
  { apply bytes_of_bytes. eapply Forall_impl; [done|]. unfold is_digit. intros b Hb. simpl in Hb. lia. }
  assert (Hne : itoa n <> "") by (intros E; rewrite E in Hb; simpl in Hb; destruct (itoa_bytes_spec n Hn) as [_ H];
    rewrite <- Hb in H; simpl in H; subst; by vm_compute in Hb).
  unfold parseUint. rewrite Hb, Hv. apply str_eqb_false in Hne. rewrite Hne.
  replace (forallb digit (itoa_bytes n)) with true.
  - replace (n <=? max_uint64) with true by (unfold max_uint64, max_int64 in *; lia). done.
  - symmetry. apply forallb_forall. intros b Hin. apply is_digit_true. rewrite Forall_forall in Hd. apply Hd. by apply list_elem_of_In.
Qed.

Lemma wrapu64_range z : 0 <= wrapu64 z <= max_uint64.
Proof. unfold wrapu64, max_uint64. pose proof (Z.mod_pos_bound z 18446744073709551616). lia. Qed.

(** The result is a [uint64]. *)
Lemma FreeMemoryMB_bounds goos vm_stat sysctl sys :
  0 <= sys <= max_uint64 -> 0 <= FreeMemoryMB goos vm_stat sysctl sys <= max_uint64.
Proof.
  intros Hsys. unfold FreeMemoryMB.
  assert (Hdiv : forall z, 0 <= z <= max_uint64 -> 0 <= z / 1024 / 1024 <= max_uint64).
  { intros z Hz. rewrite Z.div_div by lia. split; [apply Z.div_pos; lia|].
    apply Z.div_le_upper_bound; unfold max_uint64 in *; lia. }
  assert (Hdarwin : 0 <= darwinFreeMemoryMB vm_stat sysctl <= max_uint64).
  { unfold darwinFreeMemoryMB. destruct vm_stat as [out|]; [apply Hdiv, wrapu64_range|unfold max_uint64; lia]. }
  cbn zeta. destruct (0 <? _); [|by apply Hdiv]. destruct (goos =s "darwin"); [done|unfold max_uint64; lia].
Qed.

Definition newline : string := String (byte_of 10) "".

Definition demo_vm_stat : string :=
  "Mach Virtual Memory Statistics: (page size of 16384 bytes)" +:+ newline
  +:+ "Pages free:                               12345." +:+ newline
  +:+ "Pages active:                            300000." +:+ newline
  +:+ "Pages speculative:                          655." +:+ newline.

Example free_pages : FreeMemoryMB "darwin" (Ok demo_vm_stat) (Ok ("16384" +:+ newline)) 0 = 203.
Proof. vm_compute. reflexivity. Qed.

Example free_fallback : FreeMemoryMB "linux" (Ok demo_vm_stat) (Err "no sysctl") 50331648 = 48.
Proof. vm_compute. reflexivity. Qed.
