(* ===== verification/EchoBackend.v ===== *)
(** * The echo runtime: [internal/echobackend/echobackend.go]

    A runtime without a model: it repeats the last user message word by word, and maps a text
    to a unit vector of eight [float32] entries.  A [float32] is a float that binary32 can
    represent; sums, products, quotients and square roots of such numbers are computed in
    binary64 and rounded once more, which is the correctly rounded binary32 result. *)

From S2P Require Import Prelude GoString GoFloat Protocol Backend.

(** ** [float32] *)

(** Conversion to [float32]: round to nearest even with 24 bits. *)
Definition float32 (f : float) : float :=
  match Prim2SF f with
  | S754_finite s m e => SF2Prim (SpecFloat.binary_normalize 24 128 (if s then Zneg m else Zpos m) e s)
  | _ => f
  end.

(** ** The runtime *)

(** [src/internal/echobackend/echobackend.go:15-15] Backend *)
Inductive Backend := New.

(** [src/internal/echobackend/echobackend.go:19-19] Name *)
Definition Name (b : Backend) : string := "echo".

(** [src/internal/echobackend/echobackend.go:103-108] estimateTokens *)
Definition estimateTokens (chars : Z) : Z := if chars <=? 0 then 0 else (chars +w 3) /w 4.

(** [src/internal/echobackend/echobackend.go:92-96] lastUserMessage (the loop) *)
Definition lastUser (messages : list ProtocolMessage) : option ProtocolMessage :=
  head (filter (fun msg => equal_fold (pm_Role msg) "user") (rev messages)).

(** [src/internal/echobackend/echobackend.go:91-101] lastUserMessage *)
Definition lastUserMessage (req : InferRequest) : string :=
  match lastUser (ir_Messages req) with
  | Some msg => pm_Content msg
  | None => match last (ir_Messages req) with Some msg => pm_Content msg | None => "" end
  end.

(** [src/internal/echobackend/echobackend.go:22-22] Chat (the reply) *)
Definition echoReply (req : InferRequest) : string := "mi echo node online. you said: " +:+ lastUserMessage req.

(** [src/internal/echobackend/echobackend.go:24-27] Chat (the prompt) *)
Definition promptChars (texts : list string) : Z := fold_left (fun n text => n +w rune_count text) texts 0.

(** [src/internal/echobackend/echobackend.go:44-48] Chat (its result) *)
Definition echoDone (req : InferRequest) : InferDone :=
  {| id_FinishReason := "stop"; id_PromptTokens := estimateTokens (promptChars (pm_Content <$> ir_Messages req));
     id_OutputTokens := estimateTokens (rune_count (echoReply req)); id_KeyID := ""; id_Signature := "" |}.

Section Steps.
Context {C : Type} {Rep : C -> Type}.

(** [src/internal/echobackend/echobackend.go:32-42] Chat (the loop) *)
Fixpoint say (words : list string) (done : InferDone) : Run Rep (InferDone * option GoError) :=
  match words with
  | [] => Return (done, None)
  | word :: rest =>
      CtxErr (fun err => orReturn empty_InferDone err
        (let chunk := match rest with [] => word | _ => word +:+ " " end in
         OnChunk chunk (fun err => orReturn empty_InferDone err (say rest done))))
  end.

(** [src/internal/echobackend/echobackend.go:21-50] Chat *)
Definition Chat (b : Backend) (req : InferRequest) : Run Rep (InferDone * option GoError) :=
  say (fields (echoReply req)) (echoDone req).
End Steps.

(** [src/internal/echobackend/echobackend.go:75-77] embedString (the sums): [i] is the byte offset of the rune. *)
Fixpoint addRunes (i : nat) (text : list (Z * list Z)) (vector : list float) : list float :=
  match text with
  | [] => vector
  | (r, raw) :: text =>
      let value := float32 (float32 (float_of_Z r) +f float_of_Z 1) in
      addRunes (i + length raw) text (alter (fun x => float32 (x +f value)) (i mod length vector)%nat vector)
  end.

(** [src/internal/echobackend/echobackend.go:78-81] embedString (the norm) *)
Definition sumSquares (vector : list float) : float :=
  fold_left (fun sum value => sum +f float32 (value *f value)) vector f0.

(** [src/internal/echobackend/echobackend.go:72-89] embedString *)
Definition embedString (text : string) : list float :=
  let vector := addRunes 0 (segments text) (replicate 8 f0) in
  let sum := sumSquares vector in
  if PrimFloat.eqb sum f0 then vector
  else
    let norm := float32 (PrimFloat.sqrt sum) in
    (fun value => float32 (value /f norm)) <$> vector.

Section EmbedSteps.
Context {C : Type} {Rep : C -> Type}.

(** [src/internal/echobackend/echobackend.go:58-64] Embed (the loop) *)
Fixpoint embedAll (input : list string) (vectors : list (list float)) (promptChars : Z)
  : Run Rep (EmbedResult * option GoError) :=
  match input with
  | [] => Return ({| es_Vectors := vectors; es_PromptTokens := estimateTokens promptChars |}, None)
  | text :: input =>
      CtxErr (fun err => orReturn empty_EmbedResult err
        (embedAll input (vectors ++ [embedString text]) (promptChars +w rune_count text)))
  end.

(** [src/internal/echobackend/echobackend.go:52-70] Embed *)
Definition Embed (b : Backend) (model : string) (input : list string) : Run Rep (EmbedResult * option GoError) :=
  CtxErr (fun err => orReturn empty_EmbedResult err (embedAll input [] 0)).
End EmbedSteps.

#[export] Instance echo_runtime : Runtime Backend := {|
  Backend.Call := Empty_set;
  Backend.Reply := fun _ => Empty_set;
  Backend.Name := Name;
  Backend.Chat := Chat;
  Backend.Embed := Embed;
|}.

(** ** What it says *)

Lemma fields_from_nonempty cur l : Forall (fun w => w <> "") (fields_from cur l).
Proof.
  revert cur. induction l as [|[r raw] l IH]; intros [|b cur]; simpl.
  - constructor.
  - by repeat constructor.
  - destruct (is_space r); apply IH.
  - destruct (is_space r); [constructor; [done|]|]; apply IH.
Qed.

Lemma fields_nonempty s : Forall (fun w => w <> "") (fields s).
Proof. apply fields_from_nonempty. Qed.

(** The chunks for a list of words. *)
Fixpoint spaced (words : list string) : list string :=
  match words with
  | [] => []
  | word :: rest => match rest with [] => word | _ => word +:+ " " end :: spaced rest
  end.

Lemma concat_spaced words : String.concat "" (spaced words) = String.concat " " words.
Proof.
  induction words as [|word rest IH]; [done|]. destruct rest as [|next rest]; [done|].
  change (String.concat "" (spaced (word :: next :: rest)))
    with ((word +:+ " ") +:+ "" +:+ String.concat "" (spaced (next :: rest))).
  by rewrite IH, sapp_assoc.
Qed.

Lemma say_faithful {C} {Rep : C -> Type} words done :
  Forall (fun w => w <> "") words -> faithful (say (Rep := Rep) words done).
Proof.
  induction 1 as [|word rest Hw _ IH]; simpl; [done|]. split_and!; eauto.
  destruct rest; [done|]. by destruct word.
Qed.

Lemma echo_faithful {C} {Rep : C -> Type} b req : faithful (Chat (Rep := Rep) b req).
Proof. apply say_faithful, fields_nonempty. Qed.

Lemma play_say {C} {Rep : C -> Type} (reply : forall c, Rep c) words done i j :
  play (undisturbed reply) i j (say words done) = (spaced words, (done, None)).
Proof.
  revert i j. induction words as [|word rest IH]; intros i j; [done|].
  cbn [say play orReturn undisturbed ev_ctx ev_sink]. by rewrite IH.
Qed.

(** Undisturbed, the chunks are the words of the reply with one space between them. *)
Lemma echo_chat {C} {Rep : C -> Type} (reply : forall c, Rep c) b req :
  let '(chunks, result) := play (undisturbed reply) 0 0 (Chat b req) in
  String.concat "" chunks = String.concat " " (fields (echoReply req)) /\ result = (echoDone req, None).
Proof. unfold Chat. rewrite play_say. by rewrite concat_spaced. Qed.

Lemma addRunes_length i text v : length (addRunes i text v) = length v.
Proof. revert i v. induction text as [|[r raw] text IH]; intros i v; simpl; [done|]. by rewrite IH, length_alter. Qed.

Lemma embedString_length text : length (embedString text) = 8%nat.
Proof.
  unfold embedString. destruct (PrimFloat.eqb _ _); rewrite ?length_fmap; apply addRunes_length.
Qed.

Lemma play_embedAll {C} {Rep : C -> Type} (reply : forall c, Rep c) input vectors n i j :
  play (undisturbed reply) i j (embedAll input vectors n)
  = ([], ({| es_Vectors := vectors ++ (embedString <$> input);
             es_PromptTokens := estimateTokens (fold_left (fun n text => n +w rune_count text) input n) |}, None)).
Proof.
  revert i j vectors n. induction input as [|text input IH]; intros i j vectors n; simpl; [by rewrite app_nil_r|].
  rewrite IH. by rewrite <- app_assoc.
Qed.

(** Undisturbed, an embedding has one vector of eight entries per text. *)
Lemma echo_embed {C} {Rep : C -> Type} (reply : forall c, Rep c) b model input :
  let '(chunks, (result, err)) := play (undisturbed reply) 0 0 (Embed b model input) in
  chunks = [] /\ err = None /\ es_Vectors result = embedString <$> input
  /\ es_PromptTokens result = estimateTokens (promptChars input)
  /\ Forall (fun v => length v = 8%nat) (es_Vectors result).
Proof.
  unfold Embed. cbn [play orReturn undisturbed ev_ctx]. rewrite play_embedAll. split_and!; try done.
  simpl. apply Forall_fmap, Forall_true. intros text. apply embedString_length.
Qed.

Definition hello : InferRequest :=
  {| ir_Model := "m"; ir_Messages := [{| pm_Role := "system"; pm_Content := "be brief" |};
       {| pm_Role := "User"; pm_Content := "hello  world" |}; {| pm_Role := "assistant"; pm_Content := "hi" |}];
     ir_Stream := true; ir_PrivacyTier := ""; ir_Backend := ""; ir_DeviceKind := ""; ir_SoC := "";
     ir_Accelerators := []; ir_Temperature := None; ir_MaxTokens := None |}.

Example echo_hello :
  play (undisturbed (Rep := fun _ : Empty_set => Empty_set) (fun c => c)) 0 0 (Chat New hello)
  = (["mi "; "echo "; "node "; "online. "; "you "; "said: "; "hello "; "world"],
     ({| id_FinishReason := "stop"; id_PromptTokens := 6; id_OutputTokens := 11; id_KeyID := ""; id_Signature := "" |}, None)).
Proof. vm_compute. reflexivity. Qed.

Example embed_empty : embedString "" = replicate 8 f0.
Proof. vm_compute. reflexivity. Qed.

(** [ab]: 98 and 99, divided by their norm [float32(sqrt(19405))]. *)
Example embed_ab : head (embedString "ab") = Some (float32 (float_of_Z 98 /f float32 (PrimFloat.sqrt (float_of_Z 19405)))).
Proof. vm_compute. reflexivity. Qed.
