(* ===== verification/Ollama.v ===== *)
(** * The Ollama runtime: [internal/ollama/client.go]

    A client of an HTTP server that streams JSON lines.  The server is outside: [Post] is the
    request [http.Client.Do] gets, [PostReply] what came back.  The body of a chat is its bytes
    and the error reading them ends with; [streamLines] cuts them into the lines the scanner
    yields, each as [json.Unmarshal] decodes it into a zero [chatResponse].  An embedding's body
    is the value it decodes to. *)

From Stdlib Require Import ZifyBool.
From S2P Require Import Prelude GoString GoFloat Json JsonDecode JsonRoundTrip JsonLex ChainFile Protocol Backend.

(** [src/internal/ollama/client.go:15-18] Client; every client uses [http.DefaultClient]. *)
Record Client := { cl_baseURL : string }.

(** [strings.TrimRight(s, "/")]. *)
Fixpoint trimSlashes (rev_bytes : list Z) : list Z :=
  match rev_bytes with
  | b :: rest => if b =? 47 then trimSlashes rest else rev_bytes
  | [] => []
  end.

(** [src/internal/ollama/client.go:20-22] New *)
Definition New (baseURL : string) : Client := {| cl_baseURL := of_bytes (rev (trimSlashes (rev (bytes baseURL)))) |}.

(** [src/internal/ollama/client.go:24-26] Name *)
Definition Name (c : Client) : string := "ollama".

(** The values of [map[string]any] the client stores. *)
Inductive any := AFloat (f : float) | AInt (n : Z).

(** [src/internal/ollama/client.go:28-33] chatRequest *)
Record chatRequest := {
  oc_Model : string;
  oc_Messages : list ProtocolMessage;
  oc_Stream : bool;
  oc_Options : gmap string any;
}.

(** [src/internal/ollama/client.go:35-43] chatResponse *)
Record chatResponse := {
  or_Content : string;
  or_Done : bool;
  or_DoneReason : string;
  or_PromptEvalCount : Z;
  or_EvalCount : Z;
}.

(** [src/internal/ollama/client.go:45-48] embedRequest *)
Record embedRequest := { oe_Model : string; oe_Input : list string }.

(** [src/internal/ollama/client.go:50-53] embedResponse *)
Record embedResponse := { ov_Embeddings : list (list float); ov_PromptEvalCount : Z }.

(** ** The server *)

(** A POST request with its URL and the value its body encodes. *)
Inductive Post := PostChat (url : string) (body : chatRequest) | PostEmbed (url : string) (body : embedRequest).

Record HttpResponse (A : Type) := { rp_StatusCode : Z; rp_Status : string; rp_Body : A }.
Arguments Build_HttpResponse {A}.
Arguments rp_StatusCode {A}.
Arguments rp_Status {A}.
Arguments rp_Body {A}.

(** The bytes of a stream, and the error they end with. *)
Definition ChatBody : Type := list Z * option GoError.

(** The response, or the error of [http.NewRequestWithContext] or [Do]. *)
Definition PostReply (p : Post) : Type :=
  match p with
  | PostChat _ _ => res GoError (HttpResponse ChatBody)
  | PostEmbed _ _ => res GoError (HttpResponse (res GoError embedResponse))
  end.

(** ** The client *)

(** [src/internal/ollama/client.go:56-62] Chat (the options) *)
Definition chatOptions (req : InferRequest) : gmap string any :=
  let options := match ir_Temperature req with Some t => {["temperature" := AFloat t]} | None => ∅ end in
  match ir_MaxTokens req with Some n => <["num_predict" := AInt n]> options | None => options end.

(** [json.Marshal] fails on a float that JSON cannot write, and on nothing else in a [chatRequest]. *)
Definition marshalError (r : chatRequest) : option GoError :=
  match oc_Options r !! "temperature" with
  | Some (AFloat f) =>
      match Prim2SF f with
      | S754_nan => Some (errorf "json: unsupported value: NaN")
      | S754_infinity s => Some (errorf ("json: unsupported value: " +:+ if s then "-Inf" else "+Inf"))
      | _ => None
      end
  | _ => None
  end.

(** [src/internal/ollama/client.go:64-69] Chat (the body) *)
Definition chatBody (req : InferRequest) : chatRequest :=
  {| oc_Model := ir_Model req; oc_Messages := ir_Messages req; oc_Stream := true; oc_Options := chatOptions req |}.

(** [src/internal/ollama/client.go:86-88] Chat (the status); [Embed] has the same test. *)
Definition badStatus {A} (resp : HttpResponse A) : option GoError :=
  if (rp_StatusCode resp <? 200) || (300 <=? rp_StatusCode resp)
  then Some (errorf ("ollama returned " +:+ rp_Status resp)) else None.

(** [src/internal/ollama/client.go:104-110] Chat (the last message) *)
Definition finish (chunk : chatResponse) (done : InferDone) : InferDone :=
  if or_Done chunk then
    {| id_FinishReason := if or_DoneReason chunk =s "" then id_FinishReason done else or_DoneReason chunk;
       id_PromptTokens := or_PromptEvalCount chunk; id_OutputTokens := or_EvalCount chunk;
       id_KeyID := id_KeyID done; id_Signature := id_Signature done |}
  else done.

(** [src/internal/ollama/client.go:35-43] chatResponse (read) *)
Definition chatResponse_fields : list (string * setter chatResponse) :=
  [ ("message", decode_struct [("content", as_string (fun v r =>
      Build_chatResponse v (or_Done r) (or_DoneReason r) (or_PromptEvalCount r) (or_EvalCount r)))]);
    ("done", as_bool (fun v r => Build_chatResponse (or_Content r) v (or_DoneReason r) (or_PromptEvalCount r) (or_EvalCount r)));
    ("done_reason", as_string (fun v r => Build_chatResponse (or_Content r) (or_Done r) v (or_PromptEvalCount r) (or_EvalCount r)));
    ("prompt_eval_count", as_int (fun v r => Build_chatResponse (or_Content r) (or_Done r) (or_DoneReason r) v (or_EvalCount r)));
    ("eval_count", as_int (fun v r => Build_chatResponse (or_Content r) (or_Done r) (or_DoneReason r) (or_PromptEvalCount r) v)) ].

Definition chatResponse_zero : chatResponse := Build_chatResponse "" false "" 0 0.

(** [json.Unmarshal(line, &chunk)] after the scanner dropped a carriage return. *)
Definition chunkLine (w : list Z) : res GoError chatResponse :=
  match unmarshal chatResponse_fields chatResponse_zero (drop_cr w) with
  | Some chunk => Ok chunk | None => Err (errorf "invalid JSON") end.

(** [src/internal/ollama/client.go:91-93] Chat (the scanner); a line of 8 MiB ends it with an error. *)
Fixpoint streamLines (ws : list (list Z)) (readErr : option GoError) : list (res GoError chatResponse) * option GoError :=
  match ws with
  | [] => ([], readErr)
  | w :: ws =>
      if 8388608 <=? Z.of_nat (length w) then ([], Some (errorf "bufio.Scanner: token too long"))
      else let '(lines, err) := streamLines ws readErr in (chunkLine w :: lines, err)
  end.

(** [src/internal/ollama/client.go:94-112] Chat (the loop) *)
Fixpoint scan (lines : list (res GoError chatResponse)) (scanErr : option GoError) (done : InferDone)
  : Run PostReply (InferDone * option GoError) :=
  match lines with
  | [] => Return (done, scanErr)
  | Err err :: _ => Return (done, Some err)
  | Ok chunk :: lines =>
      let next := scan lines scanErr (finish chunk done) in
      if or_Content chunk =s "" then next
      else OnChunk (or_Content chunk) (fun err => orReturn done err next)
  end.

Definition stopDone : InferDone :=
  {| id_FinishReason := "stop"; id_PromptTokens := 0; id_OutputTokens := 0; id_KeyID := ""; id_Signature := "" |}.

(** [src/internal/ollama/client.go:55-113] Chat *)
Definition Chat (c : Client) (req : InferRequest) : Run PostReply (InferDone * option GoError) :=
  let body := chatBody req in
  orReturn empty_InferDone (marshalError body)
    (Outside (PostChat (cl_baseURL c +:+ "/api/chat") body) (fun reply : res GoError (HttpResponse ChatBody) =>
      match reply with
      | Err err => Return (empty_InferDone, Some err)
      | Ok resp =>
          orReturn empty_InferDone (badStatus resp)
            (let '(body, readErr) := rp_Body resp in
             let '(lines, scanErr) := streamLines (split_lines body) readErr in scan lines scanErr stopDone)
      end)).

(** [src/internal/ollama/client.go:115-145] Embed *)
Definition Embed (c : Client) (model : string) (input : list string) : Run PostReply (EmbedResult * option GoError) :=
  Outside (PostEmbed (cl_baseURL c +:+ "/api/embed") {| oe_Model := model; oe_Input := input |})
    (fun reply : res GoError (HttpResponse (res GoError embedResponse)) =>
      match reply with
      | Err err => Return (empty_EmbedResult, Some err)
      | Ok resp =>
          orReturn empty_EmbedResult (badStatus resp)
            (match rp_Body resp with
             | Err err => Return (empty_EmbedResult, Some err)
             | Ok decoded =>
                 Return ({| es_Vectors := ov_Embeddings decoded; es_PromptTokens := ov_PromptEvalCount decoded |}, None)
             end)
      end).

#[export] Instance ollama_runtime : Runtime Client := {|
  Backend.Call := Post;
  Backend.Reply := PostReply;
  Backend.Name := Name;
  Backend.Chat := Chat;
  Backend.Embed := Embed;
|}.

(** ** What it says *)

Lemma scan_faithful lines scanErr d : faithful (scan lines scanErr d).
Proof.
  revert d. induction lines as [|[chunk|e] lines IH]; intros d; simpl; [done| |done].
  destruct (or_Content chunk =s "") eqn:Hc; [apply IH|]. apply str_eqb_false in Hc. simpl. split_and!; [done|apply IH|eauto].
Qed.

Lemma ollama_faithful c req : faithful (Chat c req).
Proof.
  apply faithful_or_return. intros _. simpl. intros [resp|e]; [|done].
  apply faithful_or_return. intros _. destruct (rp_Body resp) as [body readErr]. destruct (streamLines _ _). apply scan_faithful.
Qed.

(** The contents of a stream, and what its last messages say. *)
Definition contents (chunks : list chatResponse) : list string :=
  filter (fun c => c <> "") (or_Content <$> chunks).
Definition summary (chunks : list chatResponse) : InferDone := fold_left (fun d c => finish c d) chunks stopDone.

(** The messages before the first line that does not decode, and the error the stream ends with. *)
Fixpoint decoded (lines : list (res GoError chatResponse)) (scanErr : option GoError)
  : list chatResponse * option GoError :=
  match lines with
  | [] => ([], scanErr)
  | Err e :: _ => ([], Some e)
  | Ok c :: lines => let '(cs, err) := decoded lines scanErr in (c :: cs, err)
  end.

Definition messages (body : ChatBody) : list chatResponse * option GoError :=
  let '(lines, err) := streamLines (split_lines body.1) body.2 in decoded lines err.

Lemma play_scan reply lines scanErr d i j :
  let '(chunks, err) := decoded lines scanErr in
  play (undisturbed reply) i j (scan lines scanErr d)
  = (contents chunks, (fold_left (fun d c => finish c d) chunks d, err)).
Proof.
  revert d i j. induction lines as [|[chunk|e] lines IH]; intros d i j; [done| |done].
  cbn [scan decoded]. destruct (decoded lines scanErr) as [chunks err].
  unfold contents in *. cbn [fmap list_fmap]. destruct (or_Content chunk =s "") eqn:Hc.
  - apply str_eqb_true in Hc. rewrite filter_cons_False by (intros ?; done). apply IH.
  - apply str_eqb_false in Hc. rewrite filter_cons_True by done. cbn [play orReturn undisturbed ev_sink]. by rewrite IH.
Qed.

(** Undisturbed, a chat is the contents of the messages the server sent, in order, and its
    result what they report; a refused request, a bad status, a line that does not decode and
    a read error are the errors they are. *)
Lemma ollama_chat reply c req :
  marshalError (chatBody req) = None ->
  play (undisturbed reply) 0 0 (Chat c req)
  = match reply (PostChat (cl_baseURL c +:+ "/api/chat") (chatBody req)) with
    | Err e => ([], (empty_InferDone, Some e))
    | Ok resp =>
        match badStatus resp with
        | Some e => ([], (empty_InferDone, Some e))
        | None =>
            let '(chunks, err) := messages (rp_Body resp) in (contents chunks, (summary chunks, err))
        end
    end.
Proof.
  intros Hm. unfold Chat. rewrite Hm. cbn [orReturn play undisturbed ev_reply].
  destruct (reply _) as [resp|e]; [|done]. destruct (badStatus resp) as [e|]; [done|]. cbn [orReturn].
  unfold messages. destruct (rp_Body resp) as [body readErr]. cbn [fst snd]. destruct (streamLines _ _) as [lines scanErr].
  pose proof (play_scan reply lines scanErr stopDone 0 0) as H. destruct (decoded lines scanErr). done.
Qed.

(** A message that is not the last one changes nothing but the output. *)
Lemma summary_unfinished chunks : Forall (fun c => or_Done c = false) chunks -> summary chunks = stopDone.
Proof.
  intros H. unfold summary. generalize stopDone. induction H as [|c chunks Hc _ IH]; intros d; [done|].
  simpl. rewrite IH. unfold finish. by rewrite Hc.
Qed.

(** The line [{"error": ...}], which a server sends when generation fails half-way. *)
Definition errorLine (message : string) : list Z := json_object [("error", Some (json_string message))].

(** It decodes to the zero message. *)
Lemma errorLine_zero message :
  valid_utf8 message = true -> visible (errorLine message) /\ chunkLine (errorLine message) = Ok chatResponse_zero.
Proof.
  intros Hv. change (errorLine message) with (json_object (member_fields [("error", Some (VString message))])).
  assert (Hok : Forall member_ok (present [("error", Some (VString message))])) by (apply Forall_singleton; done).
  pose proof (object_visible _ Hok) as Hvis. split; [done|]. unfold chunkLine.
  by rewrite drop_cr_visible, unmarshal_members by done.
Qed.

(** A line the stream yields as a message. *)
Definition message_line (w : list Z) (m : chatResponse) : Prop :=
  visible w /\ Z.of_nat (length w) < 8388608 /\ chunkLine w = Ok m.

Lemma stream_messages ws ms readErr :
  Forall2 message_line ws ms -> messages (flat_map (fun w => w ++ [10]) ws, readErr) = (ms, readErr).
Proof.
  unfold messages. cbn [fst snd]. induction 1 as [|w m ws ms (Hv & Hl & Hc) _ IH]; [done|].
  cbn [flat_map]. rewrite <- app_assoc. cbn [app]. rewrite split_lines_end by done. cbn [streamLines].
  rewrite (proj2 (Z.leb_gt _ _)) by lia. rewrite Hc. destruct (streamLines _ _) as [lines err]. cbn [decoded].
  by rewrite IH.
Qed.

(** A stream that ends with an error line, or with no last message at all, is a success: the
    reason is "stop" and no token is reported. *)
Theorem failed_stream_succeeds (reply : forall p, PostReply p) c req ws (chunks : list chatResponse) message code status :
  marshalError (chatBody req) = None -> 200 <= code < 300 ->
  Forall2 message_line ws chunks -> Forall (fun m => or_Done m = false) chunks ->
  valid_utf8 message = true -> Z.of_nat (length (errorLine message)) < 8388608 ->
  reply (PostChat (cl_baseURL c +:+ "/api/chat") (chatBody req))
    = Ok {| rp_StatusCode := code; rp_Status := status;
            rp_Body := (flat_map (fun w => w ++ [10]) (ws ++ [errorLine message]), None) |} ->
  play (undisturbed reply) 0 0 (Chat c req) = (contents chunks, (stopDone, None)).
Proof.
  intros Hm Hcode Hws Hd Hv Hlen Hr. rewrite ollama_chat, Hr by done. unfold badStatus. simpl rp_StatusCode.
  replace ((code <? 200) || (300 <=? code)) with false by (symmetry; apply orb_false_iff; lia).
  cbn [rp_Body]. destruct (errorLine_zero message Hv) as [Hvis Hzero].
  rewrite (stream_messages _ (chunks ++ [chatResponse_zero])) by (apply Forall2_app; [done|]; by constructor; [|constructor]).
  rewrite summary_unfinished by (apply Forall_app; split; [done|by repeat constructor]).
  unfold contents. rewrite fmap_app, filter_app. simpl. by rewrite app_nil_r.
Qed.

(** Messages of a server, one of them the last, as they decode. *)
Example stream_demo :
  let q := String (byte_of 34) "" in
  messages (bytes ("{" +:+ q +:+ "model" +:+ q +:+ ":" +:+ q +:+ "m" +:+ q +:+ "," +:+ q +:+ "message" +:+ q +:+ ":{" +:+ q +:+ "role" +:+ q +:+ ":"
      +:+ q +:+ "assistant" +:+ q +:+ "," +:+ q +:+ "content" +:+ q +:+ ":" +:+ q +:+ "Hi" +:+ q +:+ "}," +:+ q +:+ "done" +:+ q +:+ ":false}") ++ [13; 10]
    ++ bytes ("{" +:+ q +:+ "done" +:+ q +:+ ":true," +:+ q +:+ "done_reason" +:+ q +:+ ":" +:+ q +:+ "length" +:+ q +:+ "," +:+ q +:+ "eval_count" +:+ q +:+ ":7}"), None)
  = ([Build_chatResponse "Hi" false "" 0 0; Build_chatResponse "" true "length" 0 7], None).
Proof. vm_compute. reflexivity. Qed.

Example url_trimmed : cl_baseURL (New "http://127.0.0.1:11434//") = "http://127.0.0.1:11434".
Proof. vm_compute. reflexivity. Qed.
