(* ===== verification/Agent.v ===== *)
(** * The node agent: [node-agent/cmd/node-agent/main.go]

    The agent connects to the coordinator, registers, sends heartbeats, and answers each
    request in a goroutine of its own with the help of its runtime.  A goroutine is a tree of
    its effects ([Proc]); the agent is a step relation in which all goroutines, the reader and
    the heartbeat interleave.  A connection can be lost at any time, and its goroutines go on. *)

From S2P Require Import Prelude GoString GoFloat Privacy Protocol Config EchoBackend Ollama Backend.

Abbreviation any_echo := {| rt_type := EchoBackend.Backend; rt_methods := echo_runtime; rt_value := EchoBackend.New |}.
Abbreviation any_ollama url := {| rt_type := Client; rt_methods := ollama_runtime; rt_value := Ollama.New url |}.

(** ** Start-up *)

(** [src/node-agent/cmd/node-agent/main.go:251-260] newInferenceBackend *)
Definition newInferenceBackend (cfg : NodeAgent) : res string AnyRuntime :=
  let t := to_lower (bc_Type (na_Backend cfg)) in
  if (t =s "") || (t =s "ollama") then Ok (any_ollama (bc_URL (na_Backend cfg)))
  else if (t =s "echo") || (t =s "mock") then Ok any_echo
  else Err ("unsupported backend type: " +:+ bc_Type (na_Backend cfg)).

(** [src/node-agent/cmd/node-agent/main.go:277-283] defaultNodeID; [os.Hostname] may fail. *)
Definition defaultNodeID (hostname : res string string) : string :=
  match hostname with Ok name => if name =s "" then "mi-node" else name | Err _ => "mi-node" end.

(** [src/node-agent/cmd/node-agent/main.go:76-76] reconnectBaseDelay *)
Definition reconnectBaseDelay : Z := 1 * second.

(** [src/node-agent/cmd/node-agent/main.go:77-77] reconnectJitterRange *)
Definition reconnectJitterRange : Z := 2 * second.

(** [src/node-agent/cmd/node-agent/main.go:80-82] reconnectDelay; [random] is what [rand.Int63n] draws below its argument. *)
Definition reconnectDelay (random : Z) : Z := reconnectBaseDelay +w random mod reconnectJitterRange.

(** [src/node-agent/cmd/node-agent/main.go:139-144] nodePrivacyTiers *)
Definition nodePrivacyTiers (cfg : NodeAgent) : res TierError (list string) :=
  match na_PrivacyTiers cfg with
  | [] => TiersForMode (na_PrivacyMode cfg)
  | tiers => NormalizeTiers tiers
  end.

(** [src/node-agent/cmd/node-agent/main.go:285-297] loadAverage; the flags of the interfaces, whether each is up. *)
Definition loadAverage (ifaces : res string (list bool)) (goroutines : Z) : float :=
  match ifaces with
  | Err _ => f0
  | Ok ifaces =>
      let up := fold_left (fun up (flagUp : bool) => if flagUp then up +w 1 else up) ifaces 0 in
      float_of_Z (goroutines +w up) /f float_of_Z 100
  end.

(** The part of [tls.Config] the agent sets; TLS 1.2 is the least version. *)
Record TlsOptions := { to_InsecureSkipVerify : bool; to_RootCAs : option string; to_Certificates : list (string * string) }.

(** [src/node-agent/cmd/node-agent/main.go:299-330] dialOptions; [None] is the default client.  Reading a file, parsing PEM
    and loading a key pair are the standard library's. *)
Definition dialOptions (readFile : string -> res string string) (appendCertsFromPEM : string -> bool)
  (loadX509KeyPair : string -> string -> option string) (cfg : NodeAgent) : res string (option TlsOptions) :=
  let tls := na_TLS cfg in
  if (ct_CAFile tls =s "") && (ct_CertFile tls =s "") && (ct_KeyFile tls =s "") && negb (ct_InsecureSkipVerify tls)
  then Ok None
  else
    let* roots :=
      (if ct_CAFile tls =s "" then Ok None
       else
         let* certPEM := readFile (ct_CAFile tls) in
         if appendCertsFromPEM certPEM then Ok (Some certPEM) else Err "failed to parse tls.ca_file") in
    let* certificates :=
      (if (ct_CertFile tls =s "") && (ct_KeyFile tls =s "") then Ok []
       else if (ct_CertFile tls =s "") || (ct_KeyFile tls =s "")
       then Err "both tls.cert_file and tls.key_file are required"
       else match loadX509KeyPair (ct_CertFile tls) (ct_KeyFile tls) with
            | Some err => Err err
            | None => Ok [(ct_CertFile tls, ct_KeyFile tls)]
            end) in
    Ok (Some {| to_InsecureSkipVerify := ct_InsecureSkipVerify tls; to_RootCAs := roots; to_Certificates := certificates |}).

(** ** Messages *)

Definition message (typ requestID : string) : Envelope :=
  empty_Envelope <| env_Version := Version |> <| env_Type := typ |> <| env_RequestID := requestID |>.

(** [src/node-agent/cmd/node-agent/main.go:100-126] run (the registration) *)
Definition registerMessage (cfg : NodeAgent) (runtimeName hostname goarch goos : string) (tiers : list string) : Envelope :=
  let hw := na_Hardware cfg in
  (message "register" "") <| env_Register := Some {|
    reg_ProtocolVersion := Version; reg_NodeID := na_NodeID cfg; reg_ProviderID := na_ProviderID cfg;
    reg_ProviderToken := na_ProviderToken cfg; reg_PublicName := na_PublicName cfg; reg_City := na_City cfg;
    reg_PrivacyMode := na_PrivacyMode cfg; reg_PrivacyTiers := tiers; reg_Hostname := hostname; reg_Arch := goarch;
    reg_OS := goos; reg_Backend := runtimeName; reg_DeviceKind := hw_Kind hw; reg_DeviceVendor := hw_Vendor hw;
    reg_DeviceModel := hw_Model hw; reg_SoC := hw_SoC hw; reg_Accelerators := hw_Accelerators hw;
    reg_PowerMode := hw_PowerMode hw; reg_NetworkMode := hw_NetworkMode hw; reg_Models := na_Models cfg;
    reg_MaxConcurrent := na_MaxConcurrent cfg |} |>.

(** [src/node-agent/cmd/node-agent/main.go:154-167] heartbeatLoop (a heartbeat) *)
Definition heartbeatMessage (cfg : NodeAgent) (active memoryFree : Z) (load : float) (now : Time) : Envelope :=
  (message "heartbeat" "") <| env_Heartbeat := Some {|
    hb_ProtocolVersion := Version; hb_NodeID := na_NodeID cfg; hb_Models := na_Models cfg; hb_ActiveRequests := active;
    hb_QueueDepth := 0; hb_MemoryFreeMB := memoryFree; hb_LoadAverage := load; hb_ObservedAt := now |} |>.

(** [src/node-agent/cmd/node-agent/main.go:184-189] readLoop (the rejection) *)
Definition rejection (requestID : string) : Envelope :=
  (message "error" requestID) <| env_Error := Some {| ie_Message := "node at capacity"; ie_Retryable := true |} |>.

(** [src/node-agent/cmd/node-agent/main.go:273-275] retryable *)
Definition retryable (err : GoError) : bool := negb (ge_canceled err) && negb (ge_deadline err).

(** [src/node-agent/cmd/node-agent/main.go:215-220] handleInference (a chunk) *)
Definition chunkMessage (requestID content : string) : Envelope :=
  (message "chunk" requestID) <| env_Chunk := Some {| ic_Content := content |} |>.

(** [src/node-agent/cmd/node-agent/main.go:223-228] handleInference (an error) *)
Definition errorMessage (requestID : string) (err : GoError) : Envelope :=
  (message "error" requestID) <| env_Error := Some {| ie_Message := ge_msg err; ie_Retryable := retryable err |} |>.

(** [src/node-agent/cmd/node-agent/main.go:231-231] handleInference (the end) *)
Definition doneMessage (requestID : string) (done : InferDone) : Envelope :=
  (message "done" requestID) <| env_Done := Some done |>.

(** [src/node-agent/cmd/node-agent/main.go:248-248] handleEmbedding (the end) *)
Definition embeddingsMessage (requestID : string) (result : EmbedResult) : Envelope :=
  (message "embeddings" requestID) <| env_Embeddings := Some result |>.

(** ** Goroutines *)

(** The effects of a handler: the counter, a write to the connection, its context, and what its
    runtime asks of the outside. *)
Inductive Proc {C : Type} {Rep : C -> Type} : Type :=
| End
| Add (delta : Z) (next : Proc)                        (* a.active.Add *)
| Write (msg : Envelope) (k : option GoError -> Proc)  (* conn.writeJSON *)
| Ctx (k : option GoError -> Proc)                     (* ctx.Err() *)
| Ask (call : C) (k : Rep call -> Proc).
Arguments Proc {C} Rep.

Inductive Request := Infer (req : InferRequest) | EmbedTexts (req : EmbedRequest).

Section Agent.
Context (cfg : NodeAgent) {B : Type} {RT : Runtime B} (backend : B).

(** [src/node-agent/cmd/node-agent/main.go:214-221] handleInference (the runtime's effects): chunks are written to the connection. *)
Fixpoint relay {R} (requestID : string) (p : Run Reply R) (k : R -> Proc Reply) : Proc Reply :=
  match p with
  | Return r => k r
  | CtxErr f => Ctx (fun err => relay requestID (f err) k)
  | OnChunk content f => Write (chunkMessage requestID content) (fun err => relay requestID (f err) k)
  | Outside c f => Ask c (fun reply => relay requestID (f reply) k)
  end.

(** The deferred decrement. *)
Definition leave : Proc Reply := Add (-1) End.

(** [src/node-agent/cmd/node-agent/main.go:222-231] handleInference (the answer) *)
Definition finishInference (requestID : string) (result : InferDone * option GoError) : Proc Reply :=
  match result with
  | (_, Some err) => Write (errorMessage requestID err) (fun _ => leave)
  | (done, None) => Write (doneMessage requestID done) (fun _ => leave)
  end.

(** [src/node-agent/cmd/node-agent/main.go:210-232] handleInference *)
Definition handleInference (requestID : string) (req : InferRequest) : Proc Reply :=
  Add 1 (relay requestID (Chat backend req) (finishInference requestID)).

(** [src/node-agent/cmd/node-agent/main.go:239-248] handleEmbedding (the answer) *)
Definition finishEmbedding (requestID : string) (result : EmbedResult * option GoError) : Proc Reply :=
  match result with
  | (_, Some err) => Write (errorMessage requestID err) (fun _ => leave)
  | (result, None) => Write (embeddingsMessage requestID result) (fun _ => leave)
  end.

(** [src/node-agent/cmd/node-agent/main.go:234-249] handleEmbedding *)
Definition handleEmbedding (requestID : string) (req : EmbedRequest) : Proc Reply :=
  Add 1 (relay requestID (Embed backend (er_Model req) (er_Input req)) (finishEmbedding requestID)).

Definition handle (requestID : string) (req : Request) : Proc Reply :=
  match req with Infer req => handleInference requestID req | EmbedTexts req => handleEmbedding requestID req end.

(** ** State *)

(** A goroutine: the connection it writes to, its request, what is left to do, and (ghost) the
    writes it tried with their outcomes. *)
Record Task := {
  tk_conn : nat;
  tk_id : string;
  tk_request : Request;
  tk_proc : Proc Reply;
  tk_writes : list (Envelope * option GoError);
}.

#[export] Instance eta_Task : Settable Task := fun t =>
  Build_Task (tk_conn t) (tk_id t) (tk_request t) (tk_proc t) (tk_writes t).

(** [src/node-agent/cmd/node-agent/main.go:33-37] agent, its goroutines and its connections: their number so far, whether
    the last is open, the rejection its reader is writing, and what reached each of them. *)
Record agent := {
  active : Z;
  ag_tasks : list Task;
  ag_conns : nat;
  ag_open : bool;
  ag_reader : option string;
  ag_wire : list (nat * Envelope);
}.

#[export] Instance eta_agent : Settable agent := fun a =>
  Build_agent (active a) (ag_tasks a) (ag_conns a) (ag_open a) (ag_reader a) (ag_wire a).

Definition newAgent : agent :=
  {| active := 0; ag_tasks := []; ag_conns := 0; ag_open := false; ag_reader := None; ag_wire := [] |}.

(** ** Operations *)

Inductive ReadResult := Ignored | Rejected (requestID : string) | Started (requestID : string) (req : Request).

(** [src/node-agent/cmd/node-agent/main.go:181-206] readLoop (a message): the capacity is checked against the counter
    that the goroutines keep. *)
Definition onRead (active : Z) (msg : Envelope) : ReadResult :=
  let start req :=
    if na_MaxConcurrent cfg <=? active then Rejected (env_RequestID msg) else Started (env_RequestID msg) req in
  match (if env_Type msg =s "infer" then env_Infer msg else None),
        (if env_Type msg =s "embed" then env_Embed msg else None) with
  | Some req, _ => start (Infer req)
  | None, Some req => start (EmbedTexts req)
  | None, None => Ignored
  end.

(** [src/node-agent/cmd/node-agent/main.go:175-208] readLoop (an iteration) *)
Definition readLoop (msg : Envelope) (a : agent) : agent :=
  match onRead (active a) msg with
  | Ignored => a
  | Rejected id => a <| ag_reader := Some id |>
  | Started id req =>
      a <| ag_tasks ::= fun ts => ts ++ [{| tk_conn := ag_conns a; tk_id := id; tk_request := req;
                                            tk_proc := handle id req; tk_writes := [] |}] |>
  end.

(** What a write leaves on the connection [c]: it succeeds only on the open one. *)
Definition writeJSON (c : nat) (msg : Envelope) (err : option GoError) (a : agent) : agent :=
  match err with None => a <| ag_wire ::= fun w => w ++ [(c, msg)] |> | Some _ => a end.

Definition writable (c : nat) (a : agent) : Prop := ag_open a = true /\ c = ag_conns a.

(** [src/node-agent/cmd/node-agent/main.go:84-137] run (a new connection and its registration); the registration may fail,
    and then the connection is closed again. *)
Definition connect (register : Envelope) (err : option GoError) (a : agent) : agent :=
  let a := a <| ag_conns ::= S |> <| ag_reader := None |> in
  writeJSON (ag_conns a) register err (a <| ag_open := match err with None => true | Some _ => false end |>).

(** The next effect of a goroutine. *)
Definition resume (t : Task) (p : Proc Reply) : Task := t <| tk_proc := p |>.

Definition wrote (t : Task) (msg : Envelope) (err : option GoError) (p : Proc Reply) : Task :=
  t <| tk_proc := p |> <| tk_writes ::= fun w => w ++ [(msg, err)] |>.

Definition setTask (i : nat) (t : Task) (a : agent) : agent := a <| ag_tasks ::= <[i := t]> |>.

(** Everything but reading a message. *)
Inductive own_step : relation agent :=
| as_connect a hostname goarch goos tiers err :
    ag_open a = false -> nodePrivacyTiers cfg = Ok tiers ->
    own_step a (connect (registerMessage cfg (Name backend) hostname goarch goos tiers) err a)
| as_close a :
    own_step a (a <| ag_open := false |> <| ag_reader := None |>)
| as_reject a id err :
    ag_reader a = Some id -> (err = None -> writable (ag_conns a) a) ->
    own_step a (writeJSON (ag_conns a) (rejection id) err (a <| ag_reader := None |>))
| as_heartbeat a memory load now err :
    ag_open a = true ->
    own_step a (writeJSON (ag_conns a) (heartbeatMessage cfg (active a) memory load now) err a)
| as_add a i t d p :
    ag_tasks a !! i = Some t -> tk_proc t = Add d p ->
    own_step a (setTask i (resume t p) (a <| active ::= fun n => n +w d |>))
| as_write a i t msg k err :
    ag_tasks a !! i = Some t -> tk_proc t = Write msg k -> (err = None -> writable (tk_conn t) a) ->
    own_step a (setTask i (wrote t msg err (k err)) (writeJSON (tk_conn t) msg err a))
| as_ctx a i t k err :
    ag_tasks a !! i = Some t -> tk_proc t = Ctx k -> own_step a (setTask i (resume t (k err)) a)
| as_ask a i t c k reply :
    ag_tasks a !! i = Some t -> tk_proc t = Ask c k -> own_step a (setTask i (resume t (k reply)) a).

Inductive agent_step : relation agent :=
| as_own a a' : own_step a a' -> agent_step a a'
| as_read a msg : ag_open a = true -> ag_reader a = None -> agent_step a (readLoop msg a).

(** What an agent can come to. *)
Definition agent_reach (a : agent) : Prop := rtc agent_step newAgent a.
End Agent.

(** ** Start-up, proved *)

(** A reconnect waits at least one second and less than three. *)
Lemma reconnectDelay_bounds random :
  reconnectBaseDelay <= reconnectDelay random < reconnectBaseDelay + reconnectJitterRange.
Proof.
  unfold reconnectDelay, reconnectBaseDelay, reconnectJitterRange, second.
  pose proof (Z.mod_pos_bound random (2 * 1000000000)). nowrap; lia.
Qed.

(** TLS options either carry a certificate with its key or neither was configured; verification is
    off only where the configuration says so, and a configured CA file is always used. *)
Lemma dialOptions_complete readFile appendCerts loadPair cfg o :
  dialOptions readFile appendCerts loadPair cfg = Ok (Some o) ->
  to_InsecureSkipVerify o = ct_InsecureSkipVerify (na_TLS cfg)
  /\ (to_Certificates o = [] <-> ct_CertFile (na_TLS cfg) = "" /\ ct_KeyFile (na_TLS cfg) = "")
  /\ (to_RootCAs o = None <-> ct_CAFile (na_TLS cfg) = "").
Proof.
  unfold dialOptions. case_goal; [done|]. destruct (ct_CAFile (na_TLS cfg) =s "") eqn:Eca; simpl.
  2: destruct (readFile _) as [pem|]; [simpl|done]; destruct (appendCerts pem); [simpl|done].
  all: destruct (ct_CertFile (na_TLS cfg) =s "") eqn:Ec, (ct_KeyFile (na_TLS cfg) =s "") eqn:Ek; simpl; try done.
  all: try (destruct (loadPair _ _); [done|]); intros [= <-]; simpl;
    rewrite ?str_eqb_true, ?str_eqb_false in *; naive_solver.
Qed.
