(* ===== verification/AgentProofs.v ===== *)
(** * The node agent keeps its promises

    Every goroutine does what its runtime says and then answers once; the counter is the number
    of goroutines at work; every connection starts with the registration; and what the
    coordinator returns for a request is what the runtime produced for it. *)

From S2P Require Import Prelude GoString GoFloat Privacy Protocol Config Scheduler NodeConn EchoBackend Ollama.
From S2P Require Import Backend Agent.

(** ** The computations of a runtime *)

Section Reaches.
Context {C : Type} {Rep : C -> Type} {R : Type} (start : Run Rep R).

(** The chunks a computation has offered, each with the sink's answer, and what is left of it. *)
Inductive reaches : list (string * option GoError) -> Run Rep R -> Prop :=
| reaches_start : reaches [] start
| reaches_ctx chunks k err : reaches chunks (CtxErr k) -> reaches chunks (k err)
| reaches_chunk chunks content k err : reaches chunks (OnChunk content k) -> reaches (chunks ++ [(content, err)]) (k err)
| reaches_outside chunks c k reply : reaches chunks (Outside c k) -> reaches chunks (k reply).
End Reaches.

(** A faithful computation that returns without an error had every chunk accepted. *)
Lemma faithful_reaches {C} {Rep : C -> Type} {A} (start p : Run Rep (A * option GoError)) chunks :
  faithful start -> reaches start chunks p ->
  faithful p /\ Forall (fun w => snd w = None) chunks
  \/ exists a e, p = Return (a, Some e) /\ (forall n w, chunks !! n = Some w -> snd w <> None -> S n = length chunks /\ snd w = Some e).
Proof.
  intros Hf. induction 1 as [|chunks k err _ IH|chunks c k err _ IH|chunks c k reply _ IH].
  - left. by split.
  - destruct IH as [[H Hall]|(a & e & ? & _)]; [|done]. destruct H as [H1 H2]. destruct err as [e|]; [|by left].
    right. destruct (H2 e) as [a ->]. exists a, e. split; [done|]. intros n w Hw Hne.
    rewrite Forall_lookup in Hall. by apply Hall in Hw.
  - destruct IH as [[H Hall]|(a & e & ? & _)]; [|done]. destruct H as (Hc & H1 & H2). destruct err as [e|].
    + right. destruct (H2 e) as [a ->]. exists a, e. split; [done|]. intros n w Hw Hne. rewrite length_app. simpl.
      rewrite Forall_lookup in Hall. apply lookup_app_Some in Hw as [Hw|[Hn Hw]]; [by apply Hall in Hw|].
      apply list_lookup_singleton_Some in Hw as [Hn' <-]. split; [lia|done].
    + left. split; [done|]. apply Forall_app. split; [done|]. by repeat constructor.
  - destruct IH as [[H Hall]|(a & e & ? & _)]; [|done]. left. split; [apply H|done].
Qed.

(** ** A goroutine *)

(** Whether the counter counts a goroutine: between its [Add 1] and its [Add (-1)]. *)
Definition holding {C} {Rep : C -> Type} (p : Proc Rep) : bool :=
  match p with End => false | Add d _ => d =? -1 | _ => true end.

Definition held {C} {Rep : C -> Type} (p : Proc Rep) : Z := if holding p then 1 else 0.

(** The writes of chunks. *)
Definition chunkWrites (id : string) (chunks : list (string * option GoError)) : list (Envelope * option GoError) :=
  prod_map (chunkMessage id) (fun err => err) <$> chunks.

(** The message that ends a request. *)
Definition inferAnswer (id : string) (result : InferDone * option GoError) : Envelope :=
  match snd result with Some err => errorMessage id err | None => doneMessage id (fst result) end.
Definition embedAnswer (id : string) (result : EmbedResult * option GoError) : Envelope :=
  match snd result with Some err => errorMessage id err | None => embeddingsMessage id (fst result) end.

Section Goroutine.
Context {B : Type} {RT : Runtime B} {R : Type} (id : string) (run : Run Reply R) (answer : R -> Envelope)
  (k : R -> Proc Reply).

(** What is left of a goroutine, and what it wrote: it has not begun, it relays its runtime, it
    has answered, or it is gone. *)
Inductive progress : Proc Reply -> list (Envelope * option GoError) -> Prop :=
| pg_spawned : progress (Add 1 (relay id run k)) []
| pg_running chunks p : reaches run chunks p -> progress (relay id p k) (chunkWrites id chunks)
| pg_answered chunks r err :
    reaches run chunks (Return r) -> progress leave (chunkWrites id chunks ++ [(answer r, err)])
| pg_ended chunks r err :
    reaches run chunks (Return r) -> progress End (chunkWrites id chunks ++ [(answer r, err)]).

Context (Hk : forall r, k r = Write (answer r) (fun _ => leave)).

Lemma holding_relay p : holding (relay id p k) = true.
Proof. destruct p; simpl; [by rewrite Hk|done..]. Qed.

Lemma chunkWrites_snoc chunks content err :
  chunkWrites id chunks ++ [(chunkMessage id content, err)] = chunkWrites id (chunks ++ [(content, err)]).
Proof. unfold chunkWrites. by rewrite fmap_app. Qed.

(** Every effect leads from progress to progress, and changes the counter by what it holds. *)
Lemma progress_next p writes :
  progress p writes ->
  match p with
  | End => True
  | Add d p' => progress p' writes /\ held p' = held p + d
  | Write msg f => forall err, progress (f err) (writes ++ [(msg, err)]) /\ held (f err) = held p
  | Ctx f => forall err, progress (f err) writes /\ held (f err) = held p
  | Ask c f => forall reply, progress (f reply) writes /\ held (f reply) = held p
  end.
Proof.
  destruct 1 as [|chunks p Hp|chunks r err Hp|chunks r err Hp].
  - split; [apply (pg_running []); constructor|]. unfold held. by rewrite holding_relay.
  - destruct p as [r|f|content f|c f]; cbn [relay].
    + rewrite Hk. intros err. split; [by constructor|done].
    + intros err. unfold held at 1. rewrite holding_relay. split; [|done]. apply pg_running. by constructor.
    + intros err. unfold held at 1. rewrite holding_relay. split; [|done]. rewrite chunkWrites_snoc. apply pg_running. by constructor.
    + intros reply. unfold held at 1. rewrite holding_relay. split; [|done]. apply pg_running. by constructor.
  - split; [by apply pg_ended|done].
  - done.
Qed.

(** A goroutine that is gone answered once, after the chunks. *)
Lemma progress_ended writes :
  progress End writes -> exists chunks r err, reaches run chunks (Return r) /\ writes = chunkWrites id chunks ++ [(answer r, err)].
Proof.
  inversion 1 as [|chunks p Hp Hend| |chunks r err Hp Hend]; subst; [|by eauto].
  pose proof (holding_relay p) as Hh. by rewrite Hend in Hh.
Qed.

(** At any time the writes are those of chunks, followed by at most one answer. *)
Lemma progress_writes p writes :
  progress p writes -> exists chunks q, reaches run chunks q
    /\ (writes = chunkWrites id chunks \/ exists r err, q = Return r /\ writes = chunkWrites id chunks ++ [(answer r, err)]).
Proof.
  destruct 1 as [|chunks p Hp|chunks r err Hp|chunks r err Hp]; eauto 8.
  exists [], run. split; [constructor|by left].
Qed.
End Goroutine.

(** ** The agent *)

Section AgentInvariant.
Context (cfg : NodeAgent) {B : Type} {RT : Runtime B} (backend : B).
Implicit Types (a : @agent B RT) (t : @Task B RT).

Lemma finishInference_eq id r : finishInference (RT := RT) id r = Write (inferAnswer id r) (fun _ => leave).
Proof. by destruct r as [done [err|]]. Qed.

Lemma finishEmbedding_eq id r : finishEmbedding (RT := RT) id r = Write (embedAnswer id r) (fun _ => leave).
Proof. by destruct r as [done [err|]]. Qed.

Definition task_progress (t : @Task B RT) : Proc Reply -> list (Envelope * option GoError) -> Prop :=
  match tk_request t with
  | Infer req => progress (tk_id t) (Chat backend req) (inferAnswer (tk_id t)) (finishInference (tk_id t))
  | EmbedTexts req =>
      progress (tk_id t) (Embed backend (er_Model req) (er_Input req)) (embedAnswer (tk_id t)) (finishEmbedding (tk_id t))
  end.

Definition task_ok (t : @Task B RT) : Prop := task_progress t (tk_proc t) (tk_writes t).

Lemma task_next t : task_ok t ->
  match tk_proc t with
  | End => True
  | Add d p => task_ok (resume t p) /\ held p = held (tk_proc t) + d
  | Write msg f => forall err, task_ok (wrote t msg err (f err)) /\ held (f err) = held (tk_proc t)
  | Ctx f => forall err, task_ok (resume t (f err)) /\ held (f err) = held (tk_proc t)
  | Ask c f => forall reply, task_ok (resume t (f reply)) /\ held (f reply) = held (tk_proc t)
  end.
Proof.
  unfold task_ok, task_progress. destruct t as [conn id [req|req] p writes]; simpl.
  - apply progress_next. apply finishInference_eq.
  - apply progress_next. apply finishEmbedding_eq.
Qed.

(** The counter. *)
Definition working (ts : list (@Task B RT)) : Z := foldr Z.add 0 ((fun t => held (tk_proc t)) <$> ts).

Lemma working_count ts : working ts = Z.of_nat (length (filter (fun t => holding (tk_proc t)) ts)).
Proof.
  unfold working, held. induction ts as [|t ts IH]; [done|]. rewrite fmap_cons, filter_cons. simpl. rewrite IH.
  destruct (holding (tk_proc t)); simpl; lia.
Qed.

Lemma working_app ts t : working (ts ++ [t]) = working ts + held (tk_proc t).
Proof.
  unfold working. induction ts as [|x ts IH]; [simpl; lia|]. rewrite <- app_comm_cons, !fmap_cons. cbn [foldr].
  rewrite IH. lia.
Qed.

Lemma working_insert ts i t t' :
  ts !! i = Some t -> working (<[i := t']> ts) = working ts + (held (tk_proc t') - held (tk_proc t)).
Proof.
  unfold working. revert i. induction ts as [|x ts IH]; intros [|i] H; simplify_eq/=; [lia|]. rewrite (IH _ H). lia.
Qed.

(** The messages of a connection, and of a goroutine that reached its connection. *)
Definition on_conn (c : nat) (wire : list (nat * Envelope)) : list Envelope :=
  snd <$> filter (fun w => fst w = c) wire.

Definition arrived (t : @Task B RT) : list Envelope := fst <$> filter (fun w => snd w = None) (tk_writes t).

(** A connection begins with its registration, and has no other. *)
Definition session_ok (msgs : list Envelope) : Prop :=
  match msgs with
  | [] => True
  | first :: rest => env_Type first = "register" /\ Forall (fun m => env_Type m <> "register") rest
  end.

Record agent_ok (a : @agent B RT) : Prop := {
  ao_tasks : Forall task_ok (ag_tasks a);
  ao_active : active a = wrap64 (working (ag_tasks a));
  ao_wire : Forall (fun w => (fst w <= ag_conns a)%nat) (ag_wire a);
  ao_open : ag_open a = true -> on_conn (ag_conns a) (ag_wire a) <> [];
  ao_session : forall c, session_ok (on_conn c (ag_wire a));
  ao_arrived : Forall (fun t => (tk_conn t <= ag_conns a)%nat /\ arrived t `sublist_of` on_conn (tk_conn t) (ag_wire a)) (ag_tasks a);
}.

Lemma on_conn_app c wire c' m :
  on_conn c (wire ++ [(c', m)]) = on_conn c wire ++ (if decide (c' = c) then [m] else []).
Proof. unfold on_conn. rewrite filter_app, fmap_app. f_equal. rewrite filter_cons. simpl. by destruct (decide (c' = c)). Qed.

Lemma session_snoc msgs m : session_ok msgs -> msgs <> [] -> env_Type m <> "register" -> session_ok (msgs ++ [m]).
Proof.
  destruct msgs as [|first rest]; [done|]. intros [H1 H2] _ Hm. split; [done|]. apply Forall_app. split; [done|]. by repeat constructor.
Qed.

(** A message other than a registration on the open connection, if the write succeeds. *)
Lemma write_ok a c m err :
  agent_ok a -> (err = None -> writable c a) -> env_Type m <> "register" -> agent_ok (writeJSON c m err a).
Proof.
  intros [H1 H2 H3 H4 H5 H6] Hw Hm. destruct err as [e|]; [by split|]. destruct (Hw eq_refl) as [Ho ->]. split; simpl; try done.
  - apply Forall_app. split; [done|]. by repeat constructor.
  - rewrite on_conn_app. intros _ Hnil. apply app_eq_nil in Hnil as [Hnil _]. by apply H4.
  - intros c. rewrite on_conn_app. destruct (decide (ag_conns a = c)) as [<-|]; [|by rewrite app_nil_r].
    apply session_snoc; auto.
  - eapply Forall_impl; [done|]. intros t [Hc Ha]. split; [done|]. rewrite on_conn_app. by apply sublist_inserts_r.
Qed.

(** A goroutine's next effect that writes nothing. *)
Lemma still_ok a i t p :
  agent_ok a -> ag_tasks a !! i = Some t -> task_ok (resume t p) -> held p = held (tk_proc t) ->
  agent_ok (setTask i (resume t p) a).
Proof.
  intros [H1 H2 H3 H4 H5 H6] Hi Ht Hd. split; simpl; try done.
  - by apply Forall_insert.
  - rewrite (working_insert _ _ _ _ Hi). simpl. rewrite H2. f_equal. lia.
  - apply Forall_insert; [done|]. apply (Forall_lookup_1 _ _ _ _ H6 Hi).
Qed.

(** One that changes the counter. *)
Lemma added_ok a i t p d :
  agent_ok a -> ag_tasks a !! i = Some t -> task_ok (resume t p) -> held p = held (tk_proc t) + d ->
  agent_ok (setTask i (resume t p) (a <| active ::= fun n => n +w d |>)).
Proof.
  intros [H1 H2 H3 H4 H5 H6] Hi Ht Hd. split; simpl; try done.
  - by apply Forall_insert.
  - rewrite (working_insert _ _ _ _ Hi). simpl. rewrite H2. unfold add64. rewrite wrap64_add. f_equal. lia.
  - apply Forall_insert; [done|]. apply (Forall_lookup_1 _ _ _ _ H6 Hi).
Qed.

(** What a goroutine writes carries its request's id, and is no registration. *)
Definition of_request (id : string) (m : Envelope) : Prop := env_RequestID m = id /\ env_Type m <> "register".

Lemma task_messages t : task_ok t -> Forall (fun w => of_request (tk_id t) (fst w)) (tk_writes t).
Proof.
  assert (Hchunks : forall id chunks, Forall (fun w => of_request id (fst w)) (chunkWrites id chunks)).
  { intros id chunks. unfold chunkWrites. apply Forall_fmap, Forall_true. intros [content err]. by split. }
  assert (Hans : forall id m (err : option GoError), of_request id m -> Forall (fun w => of_request id (fst w)) [(m, err)])
    by (intros; by apply Forall_singleton).
  unfold task_ok, task_progress. destruct (tk_request t) as [req|req]; intros Hp;
    apply progress_writes in Hp as (chunks & q & _ & [->|(r & err & _ & ->)]); rewrite ?Forall_app; auto;
    (split; [done|]); apply Hans; destruct r as [r [e|]]; by split.
Qed.

Lemma task_write t msg f : task_ok t -> tk_proc t = Write msg f -> of_request (tk_id t) msg.
Proof.
  intros Ht Hp. pose proof (task_next _ Ht) as Hn. rewrite Hp in Hn. destruct (Hn None) as [Hw _].
  apply task_messages in Hw. simpl in Hw. apply Forall_app in Hw as [_ Hw]. by rewrite Forall_singleton in Hw.
Qed.

Lemma wrote_ok a i t msg f err :
  agent_ok a -> ag_tasks a !! i = Some t -> tk_proc t = Write msg f -> (err = None -> writable (tk_conn t) a) ->
  agent_ok (setTask i (wrote t msg err (f err)) (writeJSON (tk_conn t) msg err a)).
Proof.
  intros Hok Hi Hp Hw. assert (Ht : task_ok t) by (by eapply (Forall_lookup_1 _ _ _ _ (ao_tasks _ Hok))).
  pose proof (task_write _ _ _ Ht Hp) as [_ Hm]. pose proof (task_next _ Ht) as Hn. rewrite Hp in Hn.
  destruct (Hn err) as [Hnext Hheld].
  assert (Htasks : ag_tasks (writeJSON (tk_conn t) msg err a) = ag_tasks a) by by destruct err.
  pose proof (write_ok _ _ _ _ Hok Hw Hm) as [H1 H2 H3 H4 H5 H6]. split; simpl; try done.
  - rewrite Htasks in *. by apply Forall_insert.
  - rewrite Htasks in *. rewrite (working_insert _ _ _ _ Hi). simpl. rewrite H2. f_equal. rewrite Hp. lia.
  - rewrite Htasks in *. apply Forall_insert; [done|]. destruct (Forall_lookup_1 _ _ _ _ H6 Hi) as [Hc _].
    destruct (Forall_lookup_1 _ _ _ _ (ao_arrived _ Hok) Hi) as [_ Ha]. split; [done|]. unfold arrived. simpl.
    rewrite filter_app, fmap_app. destruct err as [e|].
    + by rewrite filter_cons_False, app_nil_r by done.
    + cbn [writeJSON ag_wire set]. simpl ag_wire. rewrite on_conn_app, decide_True by done. by apply sublist_app.
Qed.

Lemma read_ok' a msg : agent_ok a -> ag_open a = true -> agent_ok (readLoop cfg backend msg a).
Proof.
  intros [H1 H2 H3 H4 H5 H6] Ho. unfold readLoop. destruct (onRead _ _ _) as [|id|id req]; [by split..|].
  split; simpl; try done.
  - apply Forall_app. split; [done|]. apply Forall_singleton. unfold task_ok, task_progress. simpl.
    destruct req as [req|req]; constructor.
  - rewrite working_app. simpl. replace (held (handle backend id req)) with 0 by (by destruct req). by rewrite Z.add_0_r.
  - apply Forall_app. split; [done|]. apply Forall_singleton. split; [done|]. apply sublist_nil_l.
Qed.

Lemma connect_ok a msg err :
  agent_ok a -> env_Type msg = "register" -> ag_open a = false -> agent_ok (connect msg err a).
Proof.
  intros [H1 H2 H3 H4 H5 H6] Hm Ho.
  assert (Hfresh : on_conn (S (ag_conns a)) (ag_wire a) = []).
  { unfold on_conn. destruct (filter _ _) as [|w ws] eqn:E; [done|].
    assert (Hin : w ∈ filter (fun w => fst w = S (ag_conns a)) (ag_wire a)) by (rewrite E; by constructor).
    apply list_elem_of_filter in Hin as [Hw Hin]. rewrite Forall_forall in H3. apply H3 in Hin. simpl in Hin. lia. }
  assert (Hle : Forall (fun w => (fst w <= S (ag_conns a))%nat) (ag_wire a))
    by (eapply Forall_impl; [apply H3|]; intros w Hw; simpl in Hw; lia).
  destruct err as [e|]; split; simpl; try done.
  - eapply Forall_impl; [apply H6|]. intros t [Hc Ha]. split; [lia|done].
  - apply Forall_app. split; [done|]. by repeat constructor.
  - rewrite on_conn_app, decide_True by done. intros _ Hnil. by apply app_eq_nil in Hnil as [_ Hnil].
  - intros c. rewrite on_conn_app. destruct (decide _) as [<-|]; [|by rewrite app_nil_r]. rewrite Hfresh. by split.
  - eapply Forall_impl; [apply H6|]. intros t [Hc Ha]. split; [lia|]. rewrite on_conn_app. by apply sublist_inserts_r.
Qed.

Lemma agent_step_ok a a' : agent_ok a -> agent_step cfg backend a a' -> agent_ok a'.
Proof.
  intros Hok. destruct 1 as [b b' Hown|b msg Ho Hr]; [|by apply read_ok'].
  destruct Hown as [a hostname goarch goos tiers err Ho Ht|a|a id err Hr Hw|a memory load now err Ho
    |a i t d p Hi Hp|a i t msg f err Hi Hp Hw|a i t f err Hi Hp|a i t c f reply Hi Hp].
  - by apply connect_ok.
  - destruct Hok. by split.
  - apply write_ok; [|done..]. destruct Hok. by split.
  - by apply write_ok.
  - assert (Ht : task_ok t) by (by eapply (Forall_lookup_1 _ _ _ _ (ao_tasks _ Hok))).
    apply task_next in Ht. rewrite Hp in Ht. destruct Ht as [Ht Hd]. apply added_ok; [done..|]. by rewrite Hp.
  - by apply wrote_ok.
  - assert (Ht : task_ok t) by (by eapply (Forall_lookup_1 _ _ _ _ (ao_tasks _ Hok))).
    apply task_next in Ht. rewrite Hp in Ht. destruct (Ht err) as [Ht' Hd]. by eapply still_ok; [..|rewrite Hp].
  - assert (Ht : task_ok t) by (by eapply (Forall_lookup_1 _ _ _ _ (ao_tasks _ Hok))).
    apply task_next in Ht. rewrite Hp in Ht. destruct (Ht reply) as [Ht' Hd]. by eapply still_ok; [..|rewrite Hp].
Qed.

Lemma agent_reach_ok a : agent_reach cfg backend a -> agent_ok a.
Proof.
  intros H. unfold agent_reach in H. remember newAgent as a0 eqn:E.
  assert (H0 : agent_ok a0) by (subst; by split). clear E. induction H; [done|]. eauto using agent_step_ok.
Qed.
End AgentInvariant.

(** What a goroutine that is gone has done: its runtime's chunks, then its answer, once. *)
Definition answered {B} {RT : Runtime B} (backend : B) (t : @Task B RT) : Prop :=
  match tk_request t with
  | Infer req =>
      exists chunks r err, reaches (Chat backend req) chunks (Return r)
        /\ tk_writes t = chunkWrites (tk_id t) chunks ++ [(inferAnswer (tk_id t) r, err)]
  | EmbedTexts req =>
      exists chunks r err, reaches (Embed backend (er_Model req) (er_Input req)) chunks (Return r)
        /\ tk_writes t = chunkWrites (tk_id t) chunks ++ [(embedAnswer (tk_id t) r, err)]
  end.

(** C25: in every state the agent can come to, over any number of connections and with
    any failures, the counter is the number of goroutines at work; a goroutine that is gone wrote
    what its runtime said and then exactly one answer, all under its request's id; what it wrote
    with success reached its connection in that order; and each connection starts with the
    registration, which is not repeated. *)
Theorem agent_invariant cfg {B} {RT : Runtime B} (backend : B) a :
  agent_reach cfg backend a ->
  active a = wrap64 (Z.of_nat (length (filter (fun t => holding (tk_proc t)) (ag_tasks a))))
  /\ (forall t, t ∈ ag_tasks a ->
        (tk_proc t = End -> answered backend t)
        /\ Forall (fun w => of_request (tk_id t) (fst w)) (tk_writes t)
        /\ arrived t `sublist_of` on_conn (tk_conn t) (ag_wire a))
  /\ (forall c, session_ok (on_conn c (ag_wire a))).
Proof.
  intros [H1 H2 H3 H4 H5 H6]%agent_reach_ok. rewrite working_count in H2. split_and!; try done.
  rewrite Forall_forall in H1, H6. intros t Ht. split_and!; [|by apply task_messages with backend, H1|by apply H6].
  intros Hend. specialize (H1 t Ht). unfold task_ok, task_progress, answered in *. rewrite Hend in H1.
  destruct (tk_request t); eapply progress_ended, H1; intros r; [apply finishInference_eq|apply finishEmbedding_eq].
Qed.

(** ** From the runtime to the coordinator's caller *)

Definition accepted (chunks : list (string * option GoError)) : list string :=
  fst <$> filter (fun w => snd w = None) chunks.

Lemma arrived_chunks id chunks :
  fst <$> filter (fun w => snd w = None) (chunkWrites id chunks) = chunkMessage id <$> accepted chunks.
Proof.
  unfold chunkWrites, accepted. induction chunks as [|[content err] chunks IH]; [done|].
  rewrite fmap_cons. destruct err as [e|].
  - rewrite !filter_cons_False by done. apply IH.
  - rewrite !filter_cons_True by done. rewrite !fmap_cons, <- IH. done.
Qed.

Lemma chunk_heard id (contents : list string) : omap (fun m => fst (onInferMessage m)) (chunkMessage id <$> contents) = contents.
Proof.
  induction contents as [|c contents IH]; [done|]. rewrite fmap_cons.
  change (c :: omap (fun m => fst (onInferMessage m)) (chunkMessage id <$> contents) = c :: contents). by rewrite IH.
Qed.

Lemma answer_heard id r :
  onInferMessage (inferAnswer id r)
  = (None, Some (match snd r with
      | None => Ok (AnsDone (fst r))
      | Some e => Err {| ne_msg := ge_msg e; ne_retryable := Some (retryable e) |} end)).
Proof. by destruct r as [d [e|]]. Qed.

Lemma accepted_all chunks : Forall (fun w => snd w = None) chunks -> accepted chunks = fst <$> chunks.
Proof.
  unfold accepted. induction 1 as [|w chunks Hw _ IH]; [done|]. rewrite filter_cons_True by done. by rewrite !fmap_cons, IH.
Qed.

(** What a goroutine wrote with success. *)
Lemma progress_arrived {B} {RT : Runtime B} {R} id (run : Run Reply R) (answer : R -> Envelope) k p writes :
  progress id run answer k p writes ->
  exists chunks p, reaches run chunks p
    /\ (fst <$> filter (fun w => snd w = None) writes = chunkMessage id <$> accepted chunks
        \/ exists r, p = Return r /\ fst <$> filter (fun w => snd w = None) writes = (chunkMessage id <$> accepted chunks) ++ [answer r]).
Proof.
  intros (chunks & q & Hq & [->|(r & err & -> & ->)])%progress_writes; exists chunks; eexists; (split; [done|]).
  - left. apply arrived_chunks.
  - rewrite filter_app, fmap_app, arrived_chunks. destruct err as [e|]; [left|right; eauto].
    by rewrite filter_cons_False, app_nil_r.
Qed.

Lemma task_arrived {B} {RT : Runtime B} (backend : B) t req :
  task_ok backend t -> tk_request t = Infer req ->
  exists chunks p, reaches (Chat backend req) chunks p
    /\ (arrived t = chunkMessage (tk_id t) <$> accepted chunks
        \/ exists r, p = Return r /\ arrived t = (chunkMessage (tk_id t) <$> accepted chunks) ++ [inferAnswer (tk_id t) r]).
Proof. unfold task_ok, task_progress, arrived. intros Ht Hreq. rewrite Hreq in Ht. by eapply progress_arrived. Qed.

(** A goroutine for an embedding answers with its runtime's vectors, if the coordinator got an answer. *)
Lemma embed_answer {B} {RT : Runtime B} (backend : B) t req pre m ans :
  task_ok backend t -> tk_request t = EmbedTexts req -> pre ++ [m] `prefix_of` arrived t ->
  snd (onEmbedMessage m) = Some (Ok ans) ->
  exists chunks r, reaches (Embed backend (er_Model req) (er_Input req)) chunks (Return (r, None)) /\ ans = AnsVectors r.
Proof.
  unfold task_ok, task_progress. intros Ht Hreq [rest Hpre] Hm. rewrite Hreq in Ht.
  assert (Hno : forall chunks, m ∉ (chunkMessage (tk_id t) <$> accepted chunks)) by (intros chunks (c & -> & _)%list_elem_of_fmap; done).
  destruct (progress_arrived _ _ _ _ _ _ Ht) as (chunks & p & Hp & Hcase). fold (arrived t) in Hcase. rewrite Hpre in Hcase.
  destruct Hcase as [Ha|([r err] & -> & Ha)].
  - destruct (Hno chunks). rewrite <- Ha. set_solver.
  - destruct rest as [|x rest _] using rev_ind.
    + rewrite app_nil_r in Ha. apply app_inj_tail in Ha as [_ ->]. destruct err as [e|]; [done|]. injection Hm as <-. eauto.
    + rewrite app_assoc in Ha. apply app_inj_tail in Ha as [Ha _]. destruct (Hno chunks). rewrite <- Ha. set_solver.
Qed.

Lemma omap_prefix {A C} (f : A -> option C) (l1 l2 : list A) :
  l1 `prefix_of` l2 -> omap f l1 `prefix_of` omap f l2.
Proof. intros [k ->]. rewrite omap_app. by apply prefix_app_r. Qed.

(** The chunks that reach the coordinator. *)
Lemma arrived_output {B} {RT : Runtime B} (backend : B) t req :
  task_ok backend t -> tk_request t = Infer req ->
  exists chunks p, reaches (Chat backend req) chunks p
    /\ omap (fun m => fst (onInferMessage m)) (arrived t) = accepted chunks.
Proof.
  intros Ht Hreq. destruct (task_arrived _ _ _ Ht Hreq) as (chunks & p & Hp & [->|(r & -> & ->)]); exists chunks; eexists;
    (split; [done|]).
  - apply chunk_heard.
  - rewrite omap_app, chunk_heard. simpl. rewrite answer_heard. apply app_nil_r.
Qed.

(** A message that ends a request is the answer, and the last one. *)
Lemma arrived_answer {B} {RT : Runtime B} (backend : B) t req pre m ans :
  task_ok backend t -> tk_request t = Infer req -> pre ++ [m] `prefix_of` arrived t ->
  snd (onInferMessage m) = Some (Ok ans) ->
  exists chunks d, reaches (Chat backend req) chunks (Return (d, None)) /\ ans = AnsDone d
    /\ pre = chunkMessage (tk_id t) <$> accepted chunks.
Proof.
  intros Ht Hreq [rest Hpre] Hm.
  assert (Hno : forall chunks, m ∉ (chunkMessage (tk_id t) <$> accepted chunks)).
  { intros chunks (c & -> & _)%list_elem_of_fmap. done. }
  destruct (task_arrived _ _ _ Ht Hreq) as (chunks & p & Hp & [Ha|([d err] & -> & Ha)]); rewrite Ha in Hpre.
  - destruct (Hno chunks). rewrite Hpre. set_solver.
  - destruct rest as [|x rest _] using rev_ind.
    + rewrite app_nil_r in Hpre. apply app_inj_tail in Hpre as [<- <-]. rewrite answer_heard in Hm.
      destruct err as [e|]; [done|]. injection Hm as <-. exists chunks, d. done.
    + rewrite app_assoc in Hpre. apply app_inj_tail in Hpre as [Hpre _]. destruct (Hno chunks). rewrite Hpre. set_solver.
Qed.

(** A call of the coordinator that got the first messages of those a goroutine wrote. *)
Lemma prefix_answer {B} {RT : Runtime B} (backend : B) t req c id q :
  task_ok backend t -> tk_request t = Infer req -> faithful (Chat backend req) ->
  conn_reach c -> nc_calls c !! id = Some q -> rq_sender q = Inference -> rq_sent q `prefix_of` arrived t ->
  (exists chunks p, reaches (Chat backend req) chunks p /\ rq_output q `prefix_of` accepted chunks)
  /\ forall ans, rq_phase q = Left (Ok ans) ->
       exists chunks d, reaches (Chat backend req) chunks (Return (d, None))
         /\ Forall (fun w => snd w = None) chunks /\ ans = AnsDone d /\ rq_output q = fst <$> chunks.
Proof.
  intros Ht Hreq Hf Hc Hq Hs Hpre.
  destruct (co_calls _ (conn_reach_ok _ Hc) _ _ Hq) as (_ & _ & Ho & _).
  destruct (call_received _ _ _ Hc Hq) as (got & Hgot & Hseen & Hans). rewrite Hs in Ho, Hans. simpl onMessage in *.
  assert (Hout : rq_output q = omap (fun m => fst (onInferMessage m)) got).
  { rewrite Ho. destruct Hseen as [->| ->]; [done|]. by rewrite omap_app, app_nil_r. }
  split.
  - destruct (arrived_output _ _ _ Ht Hreq) as (chunks & p & Hp & Heq). exists chunks, p. split; [done|].
    rewrite Hout, <- Heq. apply omap_prefix. by etrans.
  - intros ans Hph. destruct (Hans ans) as (pre & m & _ & -> & Hm & _); [by right|].
    destruct (arrived_answer backend t req pre m ans) as (chunks & d & Hp & -> & ->); [done|done|by etrans|done|].
    destruct (faithful_reaches _ _ _ Hf Hp) as [[_ Hall]|(d' & e & [=] & _)].
    exists chunks, d. split_and!; try done. rewrite Hout, omap_app, chunk_heard. simpl.
    rewrite <- (accepted_all _ Hall). destruct (onMessage_one Inference m) as [H1|H1]; simpl in H1.
    + by rewrite H1, app_nil_r.
    + congruence.
Qed.

(** Take an inference a node works on and the call of the coordinator that sent it, each in
    any state of its own system, such that the messages that reached the call are the first of
    those the node wrote.  The output of the call is a prefix of what the runtime said; and when the
    call succeeds the runtime did, the output is everything it said, and the result is its own. *)
Theorem answer_end_to_end cfg {B} {RT : Runtime B} (backend : B) a t req c q :
  agent_reach cfg backend a -> t ∈ ag_tasks a -> tk_request t = Infer req -> faithful (Chat backend req) ->
  conn_reach c -> nc_calls c !! tk_id t = Some q -> rq_sender q = Inference -> rq_sent q `prefix_of` arrived t ->
  (exists chunks p, reaches (Chat backend req) chunks p /\ rq_output q `prefix_of` accepted chunks)
  /\ forall ans, rq_phase q = Left (Ok ans) ->
       exists chunks d, reaches (Chat backend req) chunks (Return (d, None))
         /\ Forall (fun w => snd w = None) chunks /\ ans = AnsDone d /\ rq_output q = fst <$> chunks.
Proof.
  intros Ha Hin. apply prefix_answer. destruct (agent_reach_ok _ _ _ Ha) as [Hts]. rewrite Forall_forall in Hts. auto.
Qed.

(** ** The answer can arrive *)

(** A call that waits for its node, with nothing in between. *)
Record quiet (id : string) (q : NodeConn.Call) (c : NodeConn) : Prop := {
  qt_call : nc_calls c !! id = Some q;
  qt_phase : rq_phase q = Waiting;
  qt_buffer : rq_buffer q = [];
  qt_pending : id ∈ nc_pending c;
  qt_reader : nc_reader c = Reading;
  qt_closing : nc_closing c = None;
}.

(** The reader delivers a message and the call receives it. *)
Lemma hear_steps id q c m :
  quiet id q c -> env_RequestID m = id -> deliverable m = true ->
  exists c1 c2 c', conn_step c (NRead m) c1 /\ conn_step c1 NDelivered c2 /\ conn_step c2 (NReceive id None) c'
    /\ nc_calls c' !! id = Some (receive None m [] (q <| rq_sent ::= fun l => l ++ [m] |> <| rq_buffer := [m] |>))
    /\ id ∈ nc_pending c' /\ nc_reader c' = Reading /\ nc_closing c' = None.
Proof.
  intros [H1 H2 H3 H4 H5 H6] Hm Hd.
  set (c1 := lookupCall m c). set (c2 := (push id m c1) <| nc_reader := Reading |>).
  set (c3 := c2 <| nc_calls ::= alter (receive None m []) id |>).
  assert (E1 : c1 = c <| nc_reader := Delivering id m |> <| nc_calls ::= alter (fun q => q <| rq_sent ::= fun l => l ++ [m] |>) id |>)
    by (unfold c1, lookupCall; rewrite Hd, Hm, bool_decide_eq_true_2 by done; done).
  assert (L1 : nc_calls c1 !! id = Some (q <| rq_sent ::= fun l => l ++ [m] |>))
    by (rewrite E1; simpl; by rewrite lookup_alter_eq, H1).
  assert (L2 : nc_calls c2 !! id = Some (q <| rq_sent ::= fun l => l ++ [m] |> <| rq_buffer := [m] |>)).
  { unfold c2, push. simpl. rewrite lookup_alter_eq, L1. simpl. by rewrite H3. }
  exists c1, c2, c3. split; [by apply (cs_read c m)|]. split.
  { apply (cs_delivered c1 id m); [by rewrite E1|]. eexists. split; [done|]. simpl. rewrite H3. unfold channel_capacity. simpl. lia. }
  split; [eapply (cs_receive c2 id None); [split; [done|]|]; done|].
  split_and!; unfold c3, c2; rewrite ?E1; simpl; try done.
  unfold c2 in L2. rewrite E1 in L2. simpl in L2. rewrite lookup_alter_eq. by rewrite L2.
Qed.

Lemma hear id q c m :
  conn_reach c -> quiet id q c -> env_RequestID m = id -> deliverable m = true ->
  exists c', conn_reach c'
    /\ nc_calls c' !! id = Some (receive None m [] (q <| rq_sent ::= fun l => l ++ [m] |> <| rq_buffer := [m] |>))
    /\ id ∈ nc_pending c' /\ nc_reader c' = Reading /\ nc_closing c' = None.
Proof.
  intros Hc Hq Hm Hd. destruct (hear_steps id q c m Hq Hm Hd) as (c1 & c2 & c3 & S1 & S2 & S3 & H).
  exists c3. split; [|done]. by repeat (eapply conn_reach_step; [|done]).
Qed.

Lemma hear_chunks id contents q c :
  conn_reach c -> quiet id q c -> rq_sender q = Inference ->
  exists c' q', conn_reach c' /\ quiet id q' c' /\ rq_sender q' = Inference
    /\ rq_sent q' = rq_sent q ++ (chunkMessage id <$> contents).
Proof.
  revert q c. induction contents as [|content contents IH]; intros q c Hc Hq Hs; [exists c, q; by rewrite app_nil_r|].
  destruct (hear id q c (chunkMessage id content)) as (c1 & Hc1 & Hcall & Hp & Hr & Hcl); [done..|].
  unfold receive in Hcall. simpl in Hcall. rewrite Hs in Hcall. simpl in Hcall.
  destruct (IH _ c1 Hc1 ltac:(split; [exact Hcall|apply Hq|done..]) eq_refl) as (c' & q' & H1 & H2 & H3 & H4).
  exists c', q'. split_and!; try done. rewrite H4. simpl. by rewrite <- app_assoc.
Qed.

(** Whatever a node says and then answers, a call can have received all of it and returned. *)
Lemma heard id contents d :
  exists c q, conn_reach c /\ nc_calls c !! id = Some q /\ rq_sender q = Inference
    /\ rq_sent q = (chunkMessage id <$> contents) ++ [doneMessage id d] /\ rq_phase q = Left (Ok (AnsDone d)).
Proof.
  set (c0 := startCall id Inference newNodeConn). set (c1 := c0 <| nc_calls ::= alter (written None) id |>).
  assert (L0 : nc_calls c0 !! id = Some (newCall Inference)) by (simpl; apply lookup_insert_eq).
  assert (R1 : conn_reach c1).
  { eapply conn_reach_step; [|eapply (cs_written c0 id None); by split].
    eapply conn_reach_step; [exists []; constructor|]. by apply cs_start. }
  assert (Q1 : quiet id (written None (newCall Inference)) c1).
  { split; try done; [|set_solver]. unfold c1. simpl. by rewrite lookup_alter_eq, lookup_insert_eq. }
  destruct (hear_chunks id contents _ _ R1 Q1 eq_refl) as (c2 & q2 & R2 & Q2 & Hs & Hsent). simpl in Hsent.
  destruct (hear id q2 c2 (doneMessage id d) R2 Q2) as (c3 & R3 & Hcall & Hp & Hr & Hcl); [done..|].
  unfold receive in Hcall. simpl in Hcall. rewrite Hs in Hcall. simpl in Hcall.
  eexists (leaveCall id (Ok (AnsDone d)) c3), _. split; [|split; [simpl; by rewrite lookup_alter_eq, Hcall|]].
  - eapply conn_reach_step; [done|]. eapply cs_leave; [done|]. split; [exact Hcall|done].
  - simpl. by rewrite Hsent.
Qed.

(** ** Runs of an agent *)

Section Drive.
Context (cfg : NodeAgent) {B : Type} {RT : Runtime B} (backend : B).

(** Goroutine [i] runs alone, nothing fails, and [reply] answers for the outside. *)
Fixpoint drive (reply : forall c, Reply c) (fuel : nat) (i : nat) (a : @agent B RT) : @agent B RT :=
  match fuel, ag_tasks a !! i with
  | S fuel, Some t =>
      match tk_proc t with
      | End => a
      | Add d p => drive reply fuel i (setTask i (resume t p) (a <| active ::= fun n => n +w d |>))
      | Write msg k =>
          if decide (ag_open a = true /\ tk_conn t = ag_conns a)
          then drive reply fuel i (setTask i (wrote t msg None (k None)) (writeJSON (tk_conn t) msg None a))
          else a
      | Ctx k => drive reply fuel i (setTask i (resume t (k None)) a)
      | Ask c k => drive reply fuel i (setTask i (resume t (k (reply c))) a)
      end
  | _, _ => a
  end.

Lemma reach_step a a' : agent_reach cfg backend a -> agent_step cfg backend a a' -> agent_reach cfg backend a'.
Proof. intros H Hs. eapply rtc_r; [exact H|done]. Qed.

Lemma drive_own reply fuel i a : rtc (own_step cfg backend) a (drive reply fuel i a).
Proof.
  revert a. induction fuel as [|fuel IH]; intros a; [apply rtc_refl|]. cbn [drive]. destruct (ag_tasks a !! i) as [t|] eqn:Hi; [|apply rtc_refl].
  destruct (tk_proc t) as [|d p|msg k|k|c k] eqn:Hp; [apply rtc_refl|..].
  - eapply rtc_l; [by apply as_add|apply IH].
  - destruct (decide _) as [Hw|]; [|apply rtc_refl]. eapply rtc_l; [by apply (as_write _ _ _ i t msg k None)|apply IH].
  - eapply rtc_l; [by apply (as_ctx _ _ _ i t k None)|apply IH].
  - eapply rtc_l; [by apply (as_ask _ _ _ i t c k)|apply IH].
Qed.

Lemma drive_reach reply fuel i a : agent_reach cfg backend a -> agent_reach cfg backend (drive reply fuel i a).
Proof.
  intros Ha. induction (drive_own reply fuel i a) as [|a b c Hs _ IH]; [done|]. apply IH. eapply reach_step; [done|by apply as_own].
Qed.

(** The agent is connected and has read some messages. *)
Definition connected (msgs : list Envelope) : @agent B RT :=
  fold_left (fun a msg => readLoop cfg backend msg a) msgs
    (connect (registerMessage cfg (Name backend) "host" "arm64" "linux" ["private"]) None newAgent).

Lemma connected_reach msgs :
  nodePrivacyTiers cfg = Ok ["private"] -> 0 < na_MaxConcurrent cfg -> agent_reach cfg backend (connected msgs).
Proof.
  intros Ht Hmax.
  assert (H : agent_reach cfg backend (connected msgs) /\ ag_open (connected msgs) = true
    /\ active (connected msgs) = 0 /\ ag_reader (connected msgs) = None); [|apply H].
  induction msgs as [|msg msgs IH] using rev_ind.
  - split; [|done]. eapply reach_step; [apply rtc_refl|]. by apply as_own, as_connect.
  - unfold connected. rewrite fold_left_app. fold (connected msgs). destruct IH as (H1 & H2 & H3 & H4). simpl.
    assert (Hstep : agent_reach cfg backend (readLoop cfg backend msg (connected msgs)))
      by (eapply reach_step; [done|by apply as_read]).
    split; [done|]. unfold readLoop, onRead. rewrite H3.
    replace (na_MaxConcurrent cfg <=? 0) with false by lia.
    destruct (if env_Type msg =s "infer" then _ else _); [by split_and!|].
    destruct (if env_Type msg =s "embed" then _ else _); by split_and!.
Qed.
End Drive.

Definition demo_cfg : NodeAgent :=
  nodeAgentDefaults {| na_NodeID := "n"; na_ProviderID := "p"; na_ProviderToken := "t"; na_PublicName := ""; na_City := "";
    na_PrivacyMode := "private"; na_PrivacyTiers := ["private"]; na_CoordinatorURL := "";
    na_TLS := {| ct_CAFile := ""; ct_CertFile := ""; ct_KeyFile := ""; ct_InsecureSkipVerify := false |};
    na_Backend := {| bc_Type := "echo"; bc_URL := "" |};
    na_Hardware := {| hw_Kind := ""; hw_Vendor := ""; hw_Model := ""; hw_SoC := ""; hw_Accelerators := []; hw_PowerMode := "";
                      hw_NetworkMode := "" |};
    na_OllamaURL := ""; na_Models := ["m"]; na_HeartbeatInterval := 0; na_MaxConcurrent := 0 |}.

Definition ask_hello (id : string) : Envelope := (message "infer" id) <| env_Infer := Some hello |>.

(** The agent after it answered one request. *)
Definition demo_agent : @agent EchoBackend.Backend echo_runtime :=
  drive (RT := echo_runtime) (fun c => match c with end) 30 0 (connected demo_cfg EchoBackend.New [ask_hello "r"]).

Lemma demo_cfg_ok : nodePrivacyTiers demo_cfg = Ok ["private"] /\ 0 < na_MaxConcurrent demo_cfg.
Proof. vm_compute. done. Qed.

Lemma demo_agent_reach : agent_reach demo_cfg EchoBackend.New demo_agent.
Proof. apply drive_reach. destruct demo_cfg_ok. by apply connected_reach. Qed.

Definition demo_words : list string := ["mi "; "echo "; "node "; "online. "; "you "; "said: "; "hello "; "world"].
Definition demo_done : InferDone :=
  {| id_FinishReason := "stop"; id_PromptTokens := 6; id_OutputTokens := 11; id_KeyID := ""; id_Signature := "" |}.

(** What a task looks like from outside. *)
Definition view {B} {RT : Runtime B} (t : @Task B RT) : string * Request * bool * list Envelope :=
  (tk_id t, tk_request t, match tk_proc t with End => true | _ => false end, arrived t).

Lemma demo_agent_view :
  (active demo_agent, view <$> ag_tasks demo_agent)
  = (0, [("r", Infer hello, true, (chunkMessage "r" <$> demo_words) ++ [doneMessage "r" demo_done])]).
Proof. vm_compute. reflexivity. Qed.

Lemma view_only {B} {RT : Runtime B} (n n' : Z) (ts : list (@Task B RT)) v :
  (n, view <$> ts) = (n', [v]) -> n = n' /\ exists t, t ∈ ts /\ view t = v.
Proof.
  destruct ts as [|t [|? ?]]; intros H; simplify_eq/=. split; [done|]. exists t. split; [by constructor|done].
Qed.

Lemma view_fields {B} {RT : Runtime B} (t : @Task B RT) id req msgs :
  view t = (id, req, true, msgs) -> tk_id t = id /\ tk_request t = req /\ tk_proc t = End /\ arrived t = msgs.
Proof. unfold view. intros [= <- <- Hp <-]. split_and!; try done. by destruct (tk_proc t). Qed.

Lemma demo_agent_task :
  active demo_agent = 0 /\ exists t, t ∈ ag_tasks demo_agent /\ tk_id t = "r" /\ tk_request t = Infer hello
    /\ tk_proc t = End /\ arrived t = (chunkMessage "r" <$> demo_words) ++ [doneMessage "r" demo_done].
Proof.
  destruct (view_only _ _ _ _ demo_agent_view) as [Hn (t & Hin & Hv)]. split; [exact Hn|]. exists t.
  split; [exact Hin|]. exact (view_fields _ _ _ _ Hv).
Qed.

Lemma agent_invariant_witness :
  active demo_agent = 0 /\ exists t, t ∈ ag_tasks demo_agent /\ answered EchoBackend.New t.
Proof.
  destruct (agent_invariant demo_cfg EchoBackend.New demo_agent demo_agent_reach) as (Ha & Ht & _).
  destruct demo_agent_task as [Hn (t & Hi & _ & _ & Hend & _)]. split; [exact Hn|]. exists t. split; [exact Hi|].
  apply (Ht t Hi). exact Hend.
Defined.

Lemma answer_end_to_end_witness :
  exists c q, conn_reach c /\ nc_calls c !! "r" = Some q /\ rq_phase q = Left (Ok (AnsDone demo_done))
    /\ exists chunks, rq_output q = fst <$> chunks /\ reaches (Chat EchoBackend.New hello) chunks (Return (demo_done, None)).
Proof.
  destruct demo_agent_task as [_ (t & Hi & Hid & Hreq & _ & Harr)].
  destruct (heard "r" demo_words demo_done) as (c & q & Hc & Hq & Hs & Hsent & Hph).
  exists c, q. split; [done|]. split; [done|]. split; [done|].
  destruct (answer_end_to_end demo_cfg EchoBackend.New demo_agent t hello c q) as [_ H];
    [apply demo_agent_reach|exact Hi|exact Hreq|apply echo_faithful|exact Hc|by rewrite Hid|exact Hs|by rewrite Hsent, Harr|].
  destruct (H _ Hph) as (chunks & d & H1 & _ & [= <-] & H2). by exists chunks.
Defined.

(** The reader checks the counter before the goroutine it starts has raised it: two requests read
    in a row both pass an agent of capacity one, and it works on both. *)
Theorem capacity_overrun :
  na_MaxConcurrent demo_cfg = 1
  /\ exists a, agent_reach demo_cfg EchoBackend.New a /\ active a = 2.
Proof.
  split; [reflexivity|].
  exists (drive (RT := echo_runtime) (fun c => match c with end) 1 1
    (drive (RT := echo_runtime) (fun c => match c with end) 1 0 (connected demo_cfg EchoBackend.New [ask_hello "a"; ask_hello "b"]))).
  split; [|vm_compute; reflexivity]. apply drive_reach, drive_reach. destruct demo_cfg_ok. by apply connected_reach.
Qed.
