(* ===== verification/Link.v ===== *)
(** * A node agent and the coordinator, joined by the wire

    [Agent] is the node's side of its connections and [NodeConn] the coordinator's side of one.
    Here they run together: what one side has written, in order, is what the other reads.  The
    agent reads only requests the coordinator wrote on its open connection; the coordinator reads,
    on each connection it accepted, the messages that reached it.  A connection can be lost with
    messages unread in both directions; the next one has a coordinator's side of its own. *)

From S2P Require Import Prelude GoString GoFloat Privacy Protocol Config Scheduler NodeConn EchoBackend Ollama.
From S2P Require Import Backend Agent AgentProofs.

(** [src/coordinator/cmd/coordinator/main.go:1361-1374] SendInference (the request it writes);
    [SendEmbedding] writes its own alike. *)
Definition requestMessage (id : string) (req : Request) : Envelope :=
  match req with
  | Infer req => (message "infer" id) <| env_Infer := Some req |>
  | EmbedTexts req => (message "embed" id) <| env_Embed := Some req |>
  end.

(** The request a sender sends. *)
Definition sends (sender : Sender) (req : Request) : Prop :=
  match sender, req with Inference, Infer _ | Embedding, EmbedTexts _ => True | _, _ => False end.

(** The coordinator's side of a connection: its state, how many of the agent's messages it has
    read, the requests it wrote that the agent has not read, and (ghost) all it wrote. *)
Record Session := {
  se_conn : NodeConn;
  se_read : nat;
  se_down : list (string * Request);
  se_asked : gmap string Request;
}.
#[export] Instance eta_Session : Settable Session := fun s =>
  Build_Session (se_conn s) (se_read s) (se_down s) (se_asked s).

(** [src/coordinator/cmd/coordinator/main.go:1300-1331] nodeWebSocket (the connection is accepted): its registration was
    read. *)
Definition newSession : Session := {| se_conn := newNodeConn; se_read := 1; se_down := []; se_asked := ∅ |}.

(** Changing one element of a list, seen through a filter. *)
Lemma filter_insert_other {A} (P : A -> Prop) `{!forall x, Decision (P x)} (l : list A) i x y :
  l !! i = Some x -> ~ P x -> ~ P y -> filter P (<[i := y]> l) = filter P l.
Proof.
  revert i. induction l as [|z l IH]; intros [|i] Hi Hx Hy; simplify_eq/=; [by rewrite !filter_cons_False|].
  rewrite !filter_cons. by rewrite (IH i).
Qed.

Lemma filter_insert_only {A} (P : A -> Prop) `{!forall x, Decision (P x)} (l : list A) i x x0 y :
  l !! i = Some x -> P x -> P y -> filter P l = [x0] -> x0 = x /\ filter P (<[i := y]> l) = [y].
Proof.
  revert i. induction l as [|z l IH]; intros [|i] Hi Hx Hy Hf; simplify_eq/=.
  - rewrite filter_cons_True in Hf by done. injection Hf as -> Hf. rewrite filter_cons_True, Hf by done. done.
  - rewrite filter_cons in Hf |- *. destruct (decide (P z)).
    + injection Hf as -> Hf. exfalso. assert (Hin : x ∈ filter P l) by (apply list_elem_of_filter; split; [done|by eapply list_elem_of_lookup_2]).
      rewrite Hf in Hin. by apply not_elem_of_nil in Hin.
    + by eapply IH.
Qed.

Section Link.
Context (cfg : NodeAgent) {B : Type} {RT : Runtime B} (backend : B).
Implicit Types (a : @agent B RT) (t : @Task B RT).

Record Link := { lk_agent : @agent B RT; lk_sessions : gmap nat Session }.
#[export] Instance eta_Link : Settable Link := fun L => Build_Link (lk_agent L) (lk_sessions L).

Definition newLink : Link := {| lk_agent := newAgent; lk_sessions := ∅ |}.

Definition set_session (k : nat) (s : Session) (L : Link) : Link := L <| lk_sessions ::= <[k := s]> |>.

(** The steps of a connection that neither read nor write the wire. *)
Definition off_wire (l : conn_label) : Prop :=
  match l with NRead _ | NWritten _ None => False | _ => True end.

Inductive link_step : relation Link :=
| ls_agent L a' :
    own_step cfg backend (lk_agent L) a' -> link_step L (L <| lk_agent := a' |>)
| ls_accept L k first :
    lk_sessions L !! k = None -> on_conn k (ag_wire (lk_agent L)) !! 0%nat = Some first -> env_Type first = "register" ->
    link_step L (set_session k newSession L)
| ls_read L k s msg c' :
    lk_sessions L !! k = Some s -> on_conn k (ag_wire (lk_agent L)) !! se_read s = Some msg ->
    conn_step (se_conn s) (NRead msg) c' ->
    link_step L (set_session k (s <| se_conn := c' |> <| se_read ::= S |>) L)
| ls_ask L k s id q req c' :
    lk_sessions L !! k = Some s -> call_at id Writing (se_conn s) q -> sends (rq_sender q) req ->
    conn_step (se_conn s) (NWritten id None) c' ->
    link_step L (set_session k (s <| se_conn := c' |> <| se_down ::= fun d => d ++ [(id, req)] |> <| se_asked ::= <[id := req]> |>) L)
| ls_conn L k s l c' :
    lk_sessions L !! k = Some s -> off_wire l -> conn_step (se_conn s) l c' ->
    link_step L (set_session k (s <| se_conn := c' |>) L)
| ls_deliver L s id req rest :
    ag_open (lk_agent L) = true -> ag_reader (lk_agent L) = None ->
    lk_sessions L !! ag_conns (lk_agent L) = Some s -> se_down s = (id, req) :: rest ->
    link_step L (set_session (ag_conns (lk_agent L)) (s <| se_down := rest |>)
                   (L <| lk_agent := readLoop cfg backend (requestMessage id req) (lk_agent L) |>)).

Definition link_reach (L : Link) : Prop := rtc link_step newLink L.

(** ** What travels for one request *)

(** The messages of a connection that are for a request's call. *)
Definition for_call (id : string) (m : Envelope) : Prop := env_RequestID m = id /\ deliverable m = true.
#[local] Instance for_call_dec id m : Decision (for_call id m).
Proof. unfold for_call. apply _. Defined.

Definition traffic (k : nat) (id : string) (a : @agent B RT) : list Envelope := filter (for_call id) (on_conn k (ag_wire a)).

Definition works_on (k : nat) (id : string) (t : @Task B RT) : Prop := tk_conn t = k /\ tk_id t = id.
#[local] Instance works_on_dec k id t : Decision (works_on k id t).
Proof. unfold works_on. apply _. Defined.

Definition tasks_of (k : nat) (id : string) (a : @agent B RT) : list Task := filter (works_on k id) (ag_tasks a).

Definition rejecting (k : nat) (id : string) (a : @agent B RT) : Prop := k = ag_conns a /\ ag_reader a = Some id.

(** Where a request is: not sent; sent and unread; worked on; about to be rejected or never
    answered; rejected. *)
Inductive status (k : nat) (id : string) (a : @agent B RT) : option Request -> list Request -> Prop :=
| st_unasked : tasks_of k id a = [] -> traffic k id a = [] -> ~ rejecting k id a -> status k id a None []
| st_unread req : tasks_of k id a = [] -> traffic k id a = [] -> ~ rejecting k id a -> status k id a (Some req) [req]
| st_working t :
    tasks_of k id a = [t] -> traffic k id a = arrived t -> ~ rejecting k id a -> status k id a (Some (tk_request t)) []
| st_refusing req : tasks_of k id a = [] -> traffic k id a = [] -> status k id a (Some req) []
| st_refused req :
    tasks_of k id a = [] -> traffic k id a = [rejection id] -> ~ rejecting k id a -> status k id a (Some req) [].

Definition unread (id : string) (s : Session) : list Request := snd <$> filter (fun p => fst p = id) (se_down s).

(** ** The agent's steps *)

Lemma status_same k id a a' x y :
  tasks_of k id a' = tasks_of k id a -> traffic k id a' = traffic k id a -> (rejecting k id a' -> rejecting k id a) ->
  status k id a x y -> status k id a' x y.
Proof.
  intros Ht Htr Hr. destruct 1; [apply st_unasked|apply st_unread|apply st_working|apply st_refusing|apply st_refused];
    rewrite ?Ht, ?Htr; auto.
Qed.

Lemma traffic_write k id c msg (err : option GoError) a :
  traffic k id (writeJSON c msg err a)
  = traffic k id a ++ (if decide (c = k /\ for_call id msg /\ err = None) then [msg] else []).
Proof.
  unfold traffic. destruct err as [e|]; simpl.
  - rewrite decide_False by naive_solver. by rewrite app_nil_r.
  - rewrite on_conn_app, filter_app. f_equal. destruct (decide (c = k)).
    + destruct (decide (for_call id msg)); [rewrite filter_cons_True, decide_True by done|rewrite filter_cons_False, decide_False by naive_solver]; done.
    + rewrite decide_False by naive_solver. done.
Qed.

(** A message that is for no call, or for another one. *)
Lemma traffic_other k id c msg err a : ~ (c = k /\ for_call id msg) -> traffic k id (writeJSON c msg err a) = traffic k id a.
Proof. intros H. rewrite traffic_write, decide_False by naive_solver. by rewrite app_nil_r. Qed.

Lemma works_on_in k id a i t : ag_tasks a !! i = Some t -> works_on k id t -> tasks_of k id a <> [].
Proof.
  intros Hi Hw Hnil. assert (Hin : t ∈ tasks_of k id a) by (apply list_elem_of_filter; split; [done|by eapply list_elem_of_lookup_2]).
  rewrite Hnil in Hin. by apply not_elem_of_nil in Hin.
Qed.

(** A goroutine moved on to [t'], and [a'] is the agent with what it wrote. *)
Lemma status_task k id a a' i t t' w x y :
  ag_tasks a !! i = Some t -> tk_conn t' = tk_conn t -> tk_id t' = tk_id t -> tk_request t' = tk_request t ->
  ag_tasks a' = <[i := t']> (ag_tasks a) -> ag_reader a' = ag_reader a -> ag_conns a' = ag_conns a ->
  arrived t' = arrived t ++ w -> traffic k id a' = traffic k id a ++ (if decide (works_on k id t) then w else []) ->
  status k id a x y -> status k id a' x y.
Proof.
  intros Hi Hc Hid Hreq Htasks Hrd Hcn Harr Htr Hst.
  assert (Hrej : rejecting k id a' -> rejecting k id a) by (unfold rejecting; by rewrite Hrd, Hcn).
  destruct (decide (works_on k id t)) as [Hw|Hw].
  - assert (Hw' : works_on k id t') by (unfold works_on; by rewrite Hc, Hid).
    destruct Hst as [H1|req H1|t0 H1 H2 H3|req H1|req H1]; try by destruct (works_on_in _ _ _ _ _ Hi Hw).
    destruct (filter_insert_only (works_on k id) _ _ _ _ t' Hi Hw Hw' H1) as [-> H1']. rewrite <- Hreq. apply st_working.
    + unfold tasks_of. by rewrite Htasks.
    + by rewrite Htr, H2, Harr.
    + auto.
  - rewrite app_nil_r in Htr. apply (status_same k id a); [|done|done|done]. unfold tasks_of. rewrite Htasks.
    apply filter_insert_other with t; [done|done|]. unfold works_on in *. by rewrite Hc, Hid.
Qed.

Lemma task_deliverable t msg f : task_ok backend t -> tk_proc t = Write msg f -> for_call (tk_id t) msg.
Proof.
  intros Ht Hp. pose proof (task_write _ _ _ _ Ht Hp) as [Hid _]. split; [done|].
  pose proof (task_next _ _ Ht) as Hn. rewrite Hp in Hn. destruct (Hn None) as [Hw _]. unfold task_ok, task_progress in Hw.
  simpl in Hw. destruct (tk_request t) as [req|req]; apply progress_writes in Hw as (chunks & q & _ & [Heq|(r & err & _ & Heq)]).
  all: try (apply (f_equal last) in Heq; rewrite !last_snoc in Heq; injection Heq as -> _; destruct r as [r [e|]]; done).
  all: destruct chunks as [|[content err] chunks _] using rev_ind; [by destruct (tk_writes t)|];
    rewrite <- chunkWrites_snoc in Heq; apply (f_equal last) in Heq; rewrite !last_snoc in Heq; by injection Heq as -> _.
Qed.

Lemma own_status k id a a' x y :
  agent_ok backend a -> own_step cfg backend a a' -> status k id a x y -> status k id a' x y.
Proof.
  intros Hok. destruct 1 as [a hostname goarch goos tiers err Ho Ht|a|a id0 err Hr Hw|a memory load now err Ho
    |a i t d p Hi Hp|a i t msg f err Hi Hp Hw|a i t f err Hi Hp|a i t c f reply Hi Hp]; intros Hst.
  - unfold connect. apply (status_same k id a); [by destruct err|rewrite traffic_other; [done|by intros (_ & _ & ?)]|
      unfold rejecting; by destruct err as [|]; intros [_ ?]|done].
  - apply (status_same k id a); [done|done|unfold rejecting; by intros [_ ?]|done].
  - destruct (decide (rejecting k id a)) as [[-> Hrej]|Hrej].
    + assert (id0 = id) as -> by congruence.
      destruct Hst as [H1 H2 H3|req H1 H2 H3|t H1 H2 H3|req H1 H2|req H1 H2 H3]; try by destruct H3.
      destruct err as [e|]; [by apply st_refusing|]. apply st_refused; [done| |unfold rejecting; by intros [_ ?]].
      rewrite traffic_write, decide_True by done. change (traffic (ag_conns a) id (a <| ag_reader := None |>)) with (traffic (ag_conns a) id a).
      by rewrite H2.
    + apply (status_same k id a); [by destruct err| |unfold rejecting; by destruct err as [|]; intros [_ ?]|done].
      rewrite traffic_other; [done|]. intros (<- & <- & _). by apply Hrej.
  - apply (status_same k id a); [by destruct err|rewrite traffic_other; [done|by intros (_ & _ & ?)]|
      unfold rejecting; by destruct err|done].
  - eapply (status_task k id a _ i t (resume t p) []); try done; [by rewrite app_nil_r|]. destruct (decide _); by rewrite app_nil_r.
  - assert (Ht : task_ok backend t) by (by eapply (Forall_lookup_1 _ _ _ _ (ao_tasks _ _ Hok))).
    pose proof (task_deliverable _ _ _ Ht Hp) as Hfor.
    eapply (status_task k id a _ i t (wrote t msg err (f err)) (if decide (err = None) then [msg] else [])); try done; try by destruct err.
    + unfold arrived. simpl. rewrite filter_app, fmap_app. f_equal. by destruct err.
    + change (traffic k id (setTask i (wrote t msg err (f err)) (writeJSON (tk_conn t) msg err a)))
        with (traffic k id (writeJSON (tk_conn t) msg err a)). rewrite traffic_write. f_equal.
      destruct (decide (works_on k id t)) as [[H1 H2]|Hno].
      * destruct err as [e|]; [by rewrite decide_False by naive_solver|]. rewrite decide_True; [done|]. by rewrite <- H2.
      * rewrite decide_False; [done|]. intros (H1 & [H2 _] & _). apply Hno. split; [done|]. by destruct Hfor as [<- _].
  - eapply (status_task k id a _ i t (resume t (f err)) []); try done; [by rewrite app_nil_r|]. destruct (decide _); by rewrite app_nil_r.
  - eapply (status_task k id a _ i t (resume t (f reply)) []); try done; [by rewrite app_nil_r|]. destruct (decide _); by rewrite app_nil_r.
Qed.

(** ** The coordinator's steps *)

(** What a step that reads nothing changes about the calls of a connection. *)
Definition calls_kept (c c' : NodeConn) : Prop :=
  (forall id q', nc_calls c' !! id = Some q' ->
     match nc_calls c !! id with
     | Some q => rq_sent q' = rq_sent q /\ rq_sender q' = rq_sender q /\ (rq_phase q <> Writing -> rq_phase q' <> Writing)
     | None => rq_sent q' = []
     end)
  /\ (forall id, is_Some (nc_calls c !! id) -> is_Some (nc_calls c' !! id))
  /\ (forall id, id ∈ nc_pending c' -> id ∈ nc_pending c \/ nc_calls c !! id = None).

Lemma calls_kept_alter c id f pending :
  (forall q, nc_calls c !! id = Some q -> rq_sent (f q) = rq_sent q /\ rq_sender (f q) = rq_sender q
     /\ (rq_phase q <> Writing -> rq_phase (f q) <> Writing)) ->
  pending ⊆ nc_pending c ->
  forall c', nc_calls c' = alter f id (nc_calls c) -> nc_pending c' = pending -> calls_kept c c'.
Proof.
  intros Hf Hsub c' Hc Hp. split_and!.
  - intros k q'. rewrite Hc. destruct (decide (k = id)) as [->|Hne].
    + rewrite lookup_alter_eq. intros (q & Hq & ->)%fmap_Some. rewrite Hq. by apply Hf.
    + rewrite lookup_alter_ne by done. intros ->. done.
  - intros k Hk. rewrite Hc. by apply lookup_alter_is_Some.
  - intros k Hk. left. set_solver.
Qed.

Lemma calls_kept_same c c' : nc_calls c' = nc_calls c -> nc_pending c' ⊆ nc_pending c -> calls_kept c c'.
Proof.
  intros Hc Hp. split_and!; [|intros; by rewrite Hc|set_solver]. intros id q'. rewrite Hc. by intros ->.
Qed.

Lemma receive_fields sinkErr msg rest q :
  rq_phase q = Waiting -> rq_sent (receive sinkErr msg rest q) = rq_sent q
  /\ rq_sender (receive sinkErr msg rest q) = rq_sender q /\ rq_phase (receive sinkErr msg rest q) <> Writing.
Proof.
  intros Hp. unfold receive. destruct (onMessage _ _) as [[content|] [r|]]; [destruct sinkErr..| |]; simpl; by rewrite ?Hp.
Qed.

Lemma conn_step_kept c l c' :
  (forall msg, l <> NRead msg) -> conn_step c l c' -> calls_kept c c'.
Proof.
  intros Hl. destruct 1 as [c id sender Hcl Hnew|c id err q [Hq Hp]|c msg Hrd Hcl
    |c id msg Hrd Hroom|c id sinkErr q msg rest [Hq Hp] Hb|c id err q [Hq Hp]|c id r q Hcl [Hq Hp]|c Hrd
    |c order Hcl Hperm|c id rest Hcl Hroom|c Hcl]; try by apply calls_kept_same.
  - split_and!; simpl.
    + intros k q'. destruct (decide (k = id)) as [->|Hne]; [rewrite lookup_insert_eq, Hnew; by intros [= <-]|].
      rewrite lookup_insert_ne by done. by intros ->.
    + intros k Hk. apply lookup_insert_is_Some. destruct (decide (id = k)); auto.
    + intros k Hk. destruct (decide (k = id)) as [->|]; [by right|left; set_solver].
  - eapply (calls_kept_alter c id (written err) (nc_pending c)); [|done|done|done]. intros q' _. by destruct err.
  - by destruct (Hl msg).
  - eapply (calls_kept_alter c id _ (nc_pending c)); [| |reflexivity|reflexivity]; [by intros; split_and!|done].
  - eapply (calls_kept_alter c id _ (nc_pending c)); [|done|done|done]. intros q' Hq'. assert (q' = q) as -> by congruence.
    destruct (receive_fields sinkErr msg rest q Hp) as (? & ? & ?). done.
  - eapply (calls_kept_alter c id _ (nc_pending c)); [| |reflexivity|reflexivity]; [by intros; split_and!|done].
  - eapply (calls_kept_alter c id _ (nc_pending c ∖ {[id]})); [| |reflexivity|reflexivity]; [by intros; split_and!|set_solver].
  - eapply (calls_kept_alter c id _ (nc_pending c)); [| |reflexivity|reflexivity]; [by intros; split_and!|done].
Qed.

(** ** The invariant *)

(** What the coordinator has read of a request's messages. *)
Definition heard_of (k : nat) (s : Session) (id : string) (a : @agent B RT) : list Envelope :=
  filter (for_call id) (take (se_read s) (on_conn k (ag_wire a))).

(** A call got the first of the messages for it, and all that were read while it was pending. *)
Record session_ok (k : nat) (s : Session) (a : @agent B RT) : Prop := {
  so_conn : conn_reach (se_conn s);
  so_read : (se_read s <= length (on_conn k (ag_wire a)))%nat;
  so_asked : forall id req, se_asked s !! id = Some req ->
    exists q, nc_calls (se_conn s) !! id = Some q /\ rq_phase q <> Writing /\ sends (rq_sender q) req;
  so_sent : forall id q, nc_calls (se_conn s) !! id = Some q ->
    rq_sent q `prefix_of` heard_of k s id a /\ (id ∈ nc_pending (se_conn s) -> rq_sent q = heard_of k s id a);
}.

Definition side (k : nat) (L : Link) : Session := default newSession (lk_sessions L !! k).

Record link_ok (L : Link) : Prop := {
  lo_agent : agent_reach cfg backend (lk_agent L);
  lo_sessions : forall k s, lk_sessions L !! k = Some s -> session_ok k s (lk_agent L);
  lo_status : forall k id, status k id (lk_agent L) (se_asked (side k L) !! id) (unread id (side k L));
}.

(** What is on a connection stays there. *)
Lemma wire_grows a a' k : agent_step cfg backend a a' -> on_conn k (ag_wire a) `prefix_of` on_conn k (ag_wire a').
Proof.
  assert (Hw : forall c msg err b, on_conn k (ag_wire b) `prefix_of` on_conn k (ag_wire (@writeJSON B RT c msg err b))).
  { intros c msg [e|] b; [done|]. simpl. rewrite on_conn_app. by apply prefix_app_r. }
  destruct 1 as [b b' Hown|b msg Ho Hr].
  - destruct Hown; try done; try apply Hw; (etrans; [|apply Hw]); done.
  - unfold readLoop. by destruct (onRead _ _ _).
Qed.

Lemma take_prefix_le {A} n (l l' : list A) : l `prefix_of` l' -> (n <= length l)%nat -> take n l' = take n l.
Proof. intros [r ->] Hn. by rewrite take_app_le. Qed.

Lemma session_agent k s a a' : agent_step cfg backend a a' -> session_ok k s a -> session_ok k s a'.
Proof.
  intros Hs [H1 H2 H3 H4]. pose proof (wire_grows _ _ k Hs) as Hp.
  assert (Hh : forall id, heard_of k s id a' = heard_of k s id a) by (intros id; unfold heard_of; by rewrite (take_prefix_le _ _ _ Hp)).
  split; [done| |done|].
  - etrans; [done|]. by apply prefix_length.
  - intros id q Hq. rewrite Hh. by apply H4.
Qed.

Lemma side_set k s L : side k (set_session k s L) = s.
Proof. unfold side. simpl. by rewrite lookup_insert_eq. Qed.

Lemma side_set_ne k k' s L : k' <> k -> side k' (set_session k s L) = side k' L.
Proof. intros H. unfold side. simpl. by rewrite lookup_insert_ne. Qed.

(** Replacing one connection's side, the agent staying as it is. *)
Lemma link_set L k s :
  link_ok L -> session_ok k s (lk_agent L) ->
  (forall id, status k id (lk_agent L) (se_asked s !! id) (unread id s)) -> link_ok (set_session k s L).
Proof.
  intros [H1 H2 H3] Hs Hst. split; [done| |].
  - intros k' s'. simpl. destruct (decide (k' = k)) as [->|Hne]; [rewrite lookup_insert_eq; by intros [= <-]|].
    rewrite lookup_insert_ne by done. apply H2.
  - intros k' id. destruct (decide (k' = k)) as [->|Hne]; [rewrite side_set; apply Hst|]. rewrite side_set_ne by done. apply H3.
Qed.

Lemma status_side L k s id : link_ok L -> lk_sessions L !! k = Some s -> status k id (lk_agent L) (se_asked s !! id) (unread id s).
Proof. intros [_ _ H] Hs. specialize (H k id). unfold side in H. by rewrite Hs in H. Qed.

(** Nothing was heard of a request that was not sent. *)
Lemma unasked_silent k s id a y : status k id a None y -> heard_of k s id a = [].
Proof.
  intros Hst. inversion Hst as [H1 H2 H3| | | |]; subst. unfold heard_of, traffic in *. rewrite <- (take_drop (se_read s) (on_conn k (ag_wire a))), filter_app in H2.
  by apply app_eq_nil in H2 as [? _].
Qed.

Lemma kept_session k s a c' :
  session_ok k s a -> (forall id, nc_calls (se_conn s) !! id = None -> heard_of k s id a = []) ->
  conn_reach c' -> calls_kept (se_conn s) c' -> session_ok k (s <| se_conn := c' |>) a.
Proof.
  intros [H1 H2 H3 H4] Hnone Hr (K1 & K2 & K3). split; [done|done| |].
  - intros id req Hreq. simpl in *. destruct (H3 _ _ Hreq) as (q & Hq & Hph & Hs).
    destruct (K2 id) as [q' Hq']; [by rewrite Hq|]. exists q'. specialize (K1 _ _ Hq'). rewrite Hq in K1. destruct K1 as (_ & Hs' & Hph').
    split_and!; [done|by apply Hph'|by rewrite Hs'].
  - intros id q' Hq'. change (nc_calls c' !! id = Some q') in Hq'. change (heard_of k (s <| se_conn := c' |>) id a) with (heard_of k s id a).
    specialize (K1 _ _ Hq'). destruct (nc_calls (se_conn s) !! id) as [q|] eqn:Hq.
    + destruct K1 as (-> & _). destruct (H4 _ _ Hq) as [Hpre Hpend]. split; [done|]. intros Hid. apply Hpend.
      destruct (K3 _ Hid) as [|Hn]; [done|congruence].
    + rewrite K1, (Hnone id Hq). done.
Qed.

Lemma heard_read k s id msg a :
  on_conn k (ag_wire a) !! se_read s = Some msg ->
  heard_of k (s <| se_read ::= S |>) id a = heard_of k s id a ++ (if decide (for_call id msg) then [msg] else []).
Proof.
  intros Hm. unfold heard_of. simpl. by rewrite (take_S_r _ _ _ Hm), filter_app.
Qed.

(** The coordinator reads its next message. *)
Lemma read_session k s a msg :
  session_ok k s a -> on_conn k (ag_wire a) !! se_read s = Some msg -> conn_step (se_conn s) (NRead msg) (lookupCall msg (se_conn s)) ->
  session_ok k (s <| se_conn := lookupCall msg (se_conn s) |> <| se_read ::= S |>) a.
Proof.
  intros [H1 H2 H3 H4] Hm Hstep. pose proof (fun id => heard_read k s id msg a Hm) as Hh.
  set (s' := s <| se_conn := lookupCall msg (se_conn s) |> <| se_read ::= S |>).
  assert (Hh' : forall id, heard_of k s' id a = heard_of k s id a ++ (if decide (for_call id msg) then [msg] else [])) by exact Hh.
  clear Hh. split; [by eapply conn_reach_step|by apply lookup_lt_Some in Hm| |].
  - intros id req Hreq. destruct (H3 id req Hreq) as (q & Hq & Hph & Hs). unfold s', lookupCall. simpl.
    case_match; [|by exists q]. simpl. destruct (decide (id = env_RequestID msg)) as [->|Hne].
    + exists (q <| rq_sent ::= fun l => l ++ [msg] |>). by rewrite lookup_alter_eq, Hq.
    + exists q. by rewrite lookup_alter_ne.
  - intros id q. rewrite Hh'. unfold s', lookupCall. simpl. destruct (deliverable msg) eqn:Ed; simpl.
    + case_bool_decide as Hin; simpl.
      * destruct (decide (id = env_RequestID msg)) as [->|Hne].
        -- rewrite lookup_alter_eq. intros (q0 & Hq0 & ->)%fmap_Some. rewrite decide_True by done.
           destruct (H4 _ _ Hq0) as [_ Heq]. simpl. by rewrite (Heq Hin).
        -- rewrite lookup_alter_ne by done. intros Hq. rewrite decide_False by (intros [? _]; congruence). rewrite app_nil_r. by apply H4.
      * intros Hq. destruct (H4 _ _ Hq) as [Hpre Hpend]. split; [by apply prefix_app_r|]. intros Hid.
        rewrite decide_False by (intros [? _]; congruence). by rewrite app_nil_r, <- Hpend.
    + intros Hq. rewrite decide_False by (intros [_ ?]; congruence). rewrite app_nil_r. by apply H4.
Qed.

(** The coordinator writes a request. *)
Lemma ask_session k s a id q req c' :
  session_ok k s a -> call_at id Writing (se_conn s) q -> sends (rq_sender q) req ->
  conn_step (se_conn s) (NWritten id None) c' -> (forall id, nc_calls (se_conn s) !! id = None -> heard_of k s id a = []) ->
  session_ok k (s <| se_conn := c' |> <| se_down ::= fun d => d ++ [(id, req)] |> <| se_asked ::= <[id := req]> |>) a.
Proof.
  intros Hok [Hq Hw] Hs Hstep Hnone.
  assert (Hr : conn_reach c') by (eapply conn_reach_step; [apply Hok|done]).
  destruct (kept_session k s a c' Hok Hnone Hr) as [H1 H2 H3 H4]; [by apply (conn_step_kept _ (NWritten id None))|].
  split; [done|done| |done]. intros id' req'. simpl. destruct (decide (id' = id)) as [->|Hne].
  - rewrite lookup_insert_eq. intros [= <-]. inversion Hstep; subst. simpl. rewrite lookup_alter_eq, Hq. by eexists.
  - rewrite lookup_insert_ne by done. apply H3.
Qed.

Lemma unread_snoc id id' req s c' :
  unread id (s <| se_conn := c' |> <| se_down ::= fun d => d ++ [(id', req)] |> <| se_asked ::= <[id' := req]> |>)
  = unread id s ++ (if decide (id' = id) then [req] else []).
Proof. unfold unread. simpl. rewrite filter_app, fmap_app. f_equal. rewrite filter_cons. simpl. by destruct (decide _). Qed.

(** The agent reads a request. *)
Lemma deliver_status k id id' req a x y :
  k = ag_conns a -> status k id a x y ->
  (id' = id -> y = [req]) -> ag_reader a = None ->
  status k id (readLoop cfg backend (requestMessage id' req) a) x (if decide (id' = id) then [] else y).
Proof.
  intros -> Hst Hy Hr.
  assert (Hread : onRead cfg (active a) (requestMessage id' req) = Rejected id' \/ onRead cfg (active a) (requestMessage id' req) = Started id' req)
    by (destruct req; unfold onRead; simpl; destruct (_ <=? _); auto).
  destruct (decide (id' = id)) as [->|Hne].
  - rewrite (Hy eq_refl) in Hst. inversion Hst as [|req' H1 H2 H3| | |]; subst. unfold readLoop. destruct Hread as [-> | ->].
    + by apply st_refusing.
    + set (t := {| tk_conn := ag_conns a; tk_id := id; tk_request := req; tk_proc := handle backend id req; tk_writes := [] |}).
      apply (st_working _ _ _ t); [|exact H2|done]. unfold tasks_of. simpl. rewrite filter_app. fold (tasks_of (ag_conns a) id a). rewrite H1.
      by rewrite filter_cons_True by by split.
  - unfold readLoop. destruct Hread as [-> | ->]; apply (status_same (ag_conns a) id a); try done.
    + unfold rejecting. simpl. intros [_ [= ?]]. done.
    + unfold tasks_of. simpl. rewrite filter_app. rewrite filter_cons_False; [by rewrite app_nil_r|]. intros [_ ?]. done.
Qed.

Lemma deliver_status_other k id id' req a x y :
  k <> ag_conns a -> status k id a x y -> status k id (readLoop cfg backend (requestMessage id' req) a) x y.
Proof.
  intros Hk Hst. unfold readLoop. destruct (onRead _ _ _) as [|id0|id0 req0]; [done|..]; apply (status_same k id a); try done.
  - unfold rejecting. simpl. by intros [? _].
  - unfold tasks_of. simpl. rewrite filter_app. rewrite filter_cons_False; [by rewrite app_nil_r|]. intros [? _]. done.
Qed.

Lemma silent_calls L k s : link_ok L -> lk_sessions L !! k = Some s ->
  forall id, nc_calls (se_conn s) !! id = None -> heard_of k s id (lk_agent L) = [].
Proof.
  intros HL Hs id Hid. pose proof (status_side _ _ _ id HL Hs) as Hst. destruct (se_asked s !! id) as [req|] eqn:Ha; [|by eapply unasked_silent].
  destruct (so_asked _ _ _ (lo_sessions _ HL _ _ Hs) _ _ Ha) as (q & Hq & _). congruence.
Qed.

Lemma link_step_ok L L' : link_ok L -> link_step L L' -> link_ok L'.
Proof.
  intros HL. destruct 1 as [L a' Hown|L k first Hnone Hfirst Hreg|L k s msg c' Hs Hm Hstep|L k s id q req c' Hs Hq Hreq Hstep
    |L k s l c' Hs Hl Hstep|L s id req rest Ho Hr Hs Hd].
  - assert (Hst : agent_step cfg backend (lk_agent L) a') by by apply as_own.
    pose proof (agent_reach_ok _ _ _ (lo_agent _ HL)) as Hok. destruct HL as [H1 H2 H3]. split; simpl.
    + by eapply reach_step.
    + intros k s Hs. eapply session_agent; [done|by apply H2].
    + intros k id. by eapply own_status.
  - apply link_set; [done| |].
    + split; simpl; [exists []; constructor|apply lookup_lt_Some in Hfirst; lia|by intros ? ? []%lookup_empty_Some..].
    + intros id. pose proof (lo_status _ HL k id) as Hst. unfold side in Hst. by rewrite Hnone in Hst.
  - inversion Hstep; subst. apply link_set; [done|by apply read_session; [apply HL| |]|]. intros id. exact (status_side L k s id HL Hs).
  - pose proof (lo_sessions _ HL _ _ Hs) as Hok. pose proof (silent_calls _ _ _ HL Hs) as Hsil.
    apply link_set; [done|by eapply ask_session|]. intros id'. rewrite unread_snoc. simpl.
    pose proof (status_side _ _ _ id' HL Hs) as Hst. destruct (decide (id = id')) as [<-|Hne].
    + rewrite lookup_insert_eq. destruct (se_asked s !! id) as [req'|] eqn:Ha.
      * destruct (so_asked _ _ _ Hok _ _ Ha) as (q' & Hq' & Hw & _). destruct Hq as [Hq Hw']. congruence.
      * inversion Hst; subst. by apply st_unread.
    + rewrite lookup_insert_ne by done. by rewrite app_nil_r.
  - pose proof (lo_sessions _ HL _ _ Hs) as Hok. apply link_set; [done| |].
    + apply kept_session; [done|by apply silent_calls|eapply conn_reach_step; [apply Hok|done]|].
      eapply conn_step_kept; [|done]. by intros msg ->.
    + intros id. exact (status_side L k s id HL Hs).
  - set (k := ag_conns (lk_agent L)) in *. pose proof (lo_sessions _ HL _ _ Hs) as Hok.
    assert (Hst : agent_step cfg backend (lk_agent L) (readLoop cfg backend (requestMessage id req) (lk_agent L))) by by apply as_read.
    split; simpl.
    + eapply reach_step; [apply HL|done].
    + intros k' s'. destruct (decide (k' = k)) as [->|Hne].
      * rewrite lookup_insert_eq. intros [= <-]. apply (session_agent k s) in Hst; [|done]. destruct Hst as [S1 S2 S3 S4]. by split.
      * rewrite lookup_insert_ne by done. intros Hs'. eapply session_agent; [done|by apply HL].
    + intros k' id'. destruct (decide (k' = k)) as [->|Hne].
      * rewrite side_set. pose proof (status_side _ _ _ id' HL Hs) as Hstat. unfold unread in Hstat. rewrite Hd in Hstat.
        change (status k id' (readLoop cfg backend (requestMessage id req) (lk_agent L)) (se_asked s !! id') (snd <$> filter (fun p => fst p = id') rest)).
        rewrite filter_cons in Hstat. cbn [fst] in Hstat.
        destruct (decide (id = id')) as [->|Hne].
        -- rewrite fmap_cons in Hstat. cbn [snd] in Hstat.
           assert (Hnil : snd <$> filter (fun p => fst p = id') rest = []) by (by inversion Hstat). rewrite Hnil in *.
           pose proof (deliver_status k id' id' req (lk_agent L) _ _ eq_refl Hstat (fun _ => eq_refl) Hr) as Hdel.
           by rewrite decide_True in Hdel.
        -- pose proof (deliver_status k id' id req (lk_agent L) _ _ eq_refl Hstat (fun H => False_ind _ (Hne H)) Hr) as Hdel.
           by rewrite decide_False in Hdel.
      * rewrite side_set_ne by done. apply deliver_status_other; [done|]. apply HL.
Qed.

Lemma link_reach_ok L : link_reach L -> link_ok L.
Proof.
  unfold link_reach. intros H. remember newLink as L0 eqn:E. assert (H0 : link_ok L0); [|clear E; induction H; eauto using link_step_ok].
  subst. split; simpl; [apply rtc_refl|by intros ? ? []%lookup_empty_Some|]. intros k id. unfold side. simpl. rewrite lookup_empty. simpl.
  apply st_unasked; [done|done|]. by intros [_ ?].
Qed.

(** ** The answer *)

(** What a call that has an answer was asked, and who worked on it. *)
Lemma answered_by L k s id q :
  link_ok L -> lk_sessions L !! k = Some s -> nc_calls (se_conn s) !! id = Some q -> rq_sent q <> [] ->
  rq_sent q = [rejection id]
  \/ exists t, t ∈ ag_tasks (lk_agent L) /\ se_asked s !! id = Some (tk_request t) /\ sends (rq_sender q) (tk_request t)
       /\ tk_id t = id /\ rq_sent q `prefix_of` arrived t.
Proof.
  intros HL Hs Hq Hne. pose proof (lo_sessions _ HL _ _ Hs) as Hok. destruct (so_sent _ _ _ Hok _ _ Hq) as [Hpre _].
  assert (Hpre' : rq_sent q `prefix_of` traffic k id (lk_agent L)).
  { etrans; [done|]. unfold heard_of, traffic. rewrite <- (take_drop (se_read s) (on_conn k (ag_wire (lk_agent L)))) at 2.
    rewrite filter_app. by apply prefix_app_r. }
  pose proof (status_side _ _ _ id HL Hs) as Hst. destruct (se_asked s !! id) as [req|] eqn:Ha.
  - inversion Hst as [|req' H1 H2 H3|t H1 H2 H3|req' H1 H2|req' H1 H2 H3]; subst.
    + rewrite H2 in Hpre'. by apply prefix_nil_inv in Hpre'.
    + right. exists t. assert (Hin : t ∈ tasks_of k id (lk_agent L)) by (rewrite H1; by constructor).
      apply list_elem_of_filter in Hin as [[_ Hid] Hin]. destruct (so_asked _ _ _ Hok _ _ Ha) as (q' & Hq' & _ & Hsends).
      assert (q' = q) as -> by congruence. split_and!; [done|done|done|done|by rewrite <- H2].
    + rewrite H2 in Hpre'. by apply prefix_nil_inv in Hpre'.
    + left. rewrite H2 in Hpre'. destruct (rq_sent q) as [|m l]; [done|]. destruct Hpre' as [r Hr]. injection Hr as <- Hr.
      by destruct l.
  - inversion Hst as [H1 H2 H3| | | |]; subst. rewrite H2 in Hpre'. by apply prefix_nil_inv in Hpre'.
Qed.

(** C16: run an agent and the coordinator's connections to it together, over any number of connections,
    requests and failures.  The output of an inference's call is a prefix of what the runtime said
    for that call's own request; when the call succeeds, the runtime did, every chunk was
    accepted, the output is all of them in order, and the result is the runtime's own. *)
Theorem link_answers L k s id q :
  link_reach L -> lk_sessions L !! k = Some s -> nc_calls (se_conn s) !! id = Some q -> rq_sender q = Inference ->
  (forall req, faithful (Chat backend req)) ->
  (rq_output q <> [] -> exists req chunks p, se_asked s !! id = Some (Infer req) /\ reaches (Chat backend req) chunks p
     /\ rq_output q `prefix_of` accepted chunks)
  /\ forall ans, rq_phase q = Left (Ok ans) ->
       exists req chunks d, se_asked s !! id = Some (Infer req) /\ reaches (Chat backend req) chunks (Return (d, None))
         /\ Forall (fun w => snd w = None) chunks /\ ans = AnsDone d /\ rq_output q = fst <$> chunks.
Proof.
  intros Hr%link_reach_ok Hs Hq Hsender Hf. pose proof (lo_sessions _ Hr _ _ Hs) as Hok.
  destruct (call_received _ _ _ (so_conn _ _ _ Hok) Hq) as (got & Hgot & Hseen & Hans).
  destruct (co_calls _ (conn_reach_ok _ (so_conn _ _ _ Hok)) _ _ Hq) as (_ & _ & Ho & _). rewrite Hsender in *.
  destruct (decide (rq_sent q = [])) as [Hnil|Hne].
  { rewrite Hnil in Hgot. apply prefix_nil_inv in Hgot as ->. split.
    - intros Hout. destruct Hout. rewrite Ho. destruct Hseen as [->| ->]; done.
    - intros ans Hph. destruct (Hans ans) as (pre & m & _ & Heq & _); [by right|]. by destruct pre. }
  destruct (answered_by _ _ _ _ _ Hr Hs Hq Hne) as [Hrej|(t & Hin & Ha & Hsends & Hid & Hpre)].
  { rewrite Hrej in Hgot. assert (Hcase : got = [] \/ got = [rejection id]).
    { destruct got as [|m got]; [by left|right]. destruct Hgot as [r Hgot]. injection Hgot as <- Hgot. by destruct got. }
    split.
    - intros Hout. destruct Hout. rewrite Ho. destruct Hcase as [-> | ->], Hseen as [-> | ->]; done.
    - intros ans Hph. destruct (Hans ans) as (pre & m & _ & Heq & Hm & _); [by right|]. destruct Hcase as [-> | ->]; [by destruct pre|].
      destruct pre as [|? []]; try done. injection Heq as <-. done. }
  rewrite Hsender in Hsends. destruct (tk_request t) as [req|] eqn:Hreq; [|done].
  assert (Ht : task_ok backend t).
  { destruct (agent_reach_ok _ _ _ (lo_agent _ Hr)) as [Hts]. rewrite Forall_forall in Hts. auto. }
  destruct (prefix_answer backend t req _ _ _ Ht Hreq (Hf req) (so_conn _ _ _ Hok) Hq Hsender Hpre) as [(chunks & p & Hp & Hout) Hsucc].
  split; [intros _; by exists req, chunks, p|]. intros ans Hph. destruct (Hsucc ans Hph) as (ch & d & ? & ? & ? & ?). by exists req, ch, d.
Qed.

(** An embedding that succeeds has the vectors the runtime computed for its own request. *)
Lemma link_embeds L k s id q ans :
  link_reach L -> lk_sessions L !! k = Some s -> nc_calls (se_conn s) !! id = Some q -> rq_sender q = Embedding ->
  rq_phase q = Left (Ok ans) ->
  exists req chunks r, se_asked s !! id = Some (EmbedTexts req)
    /\ reaches (Embed backend (er_Model req) (er_Input req)) chunks (Return (r, None)) /\ ans = AnsVectors r.
Proof.
  intros Hr%link_reach_ok Hs Hq Hsender Hph. pose proof (lo_sessions _ Hr _ _ Hs) as Hok.
  destruct (call_received _ _ _ (so_conn _ _ _ Hok) Hq) as (got & Hgot & _ & Hans). rewrite Hsender in *.
  destruct (Hans ans) as (pre & m & _ & -> & Hm & _); [by right|]. simpl in Hm.
  destruct (answered_by _ _ _ _ _ Hr Hs Hq) as [Hrej|(t & Hin & Ha & Hsends & Hid & Hpre)].
  - intros Hnil. rewrite Hnil in Hgot. apply prefix_nil_inv in Hgot. by destruct pre.
  - rewrite Hrej in Hgot. destruct pre as [|x [|y pre]]; destruct Hgot as [r Hgot]; simplify_eq/=.
  - rewrite Hsender in Hsends. destruct (tk_request t) as [|req] eqn:Hreq; [done|].
    assert (Ht : task_ok backend t) by (destruct (agent_reach_ok _ _ _ (lo_agent _ Hr)) as [Hts]; rewrite Forall_forall in Hts; auto).
    destruct (embed_answer backend t req pre m ans Ht Hreq) as (chunks & r & Hp & ->); [by etrans|done|]. by exists req, chunks, r.
Qed.

(** ** An answer arrives *)

(** Steps of the agent alone. *)
Lemma agent_steps L a' : rtc (own_step cfg backend) (lk_agent L) a' -> rtc link_step L (L <| lk_agent := a' |>).
Proof.
  intros H. remember (lk_agent L) as a eqn:E. revert L E. induction H as [a|a b c Hs _ IH]; intros L ->.
  - by destruct L.
  - eapply rtc_l; [by apply ls_agent|]. exact (IH (L <| lk_agent := b |>) eq_refl).
Qed.

Lemma set_set k s s' L : set_session k s' (set_session k s L) = set_session k s' L.
Proof. unfold set_session. simpl. unfold set. simpl. by rewrite insert_insert_eq. Qed.

Lemma set_same k s L : lk_sessions L !! k = Some s -> set_session k s L = L.
Proof. intros H. unfold set_session, set. destruct L as [a m]. simpl in *. by rewrite insert_id. Qed.

Lemma sessions_set k s L : lk_sessions (set_session k s L) !! k = Some s.
Proof. apply lookup_insert_eq. Qed.

(** The coordinator reads the next message of a connection and its call receives it. *)
Lemma link_hear L k s id q m :
  lk_sessions L !! k = Some s -> quiet id q (se_conn s) -> on_conn k (ag_wire (lk_agent L)) !! se_read s = Some m -> for_call id m ->
  exists c', rtc link_step L (set_session k (s <| se_conn := c' |> <| se_read ::= S |>) L)
    /\ nc_calls c' !! id = Some (receive None m [] (q <| rq_sent ::= fun l => l ++ [m] |> <| rq_buffer := [m] |>))
    /\ id ∈ nc_pending c' /\ nc_reader c' = Reading /\ nc_closing c' = None.
Proof.
  intros Hs Hq Hm [Hid Hd]. destruct (hear_steps id q (se_conn s) m Hq Hid Hd) as (c1 & c2 & c3 & S1 & S2 & S3 & H).
  exists c3. split; [|done].
  set (s1 := s <| se_conn := c1 |> <| se_read ::= S |>). set (s2 := s1 <| se_conn := c2 |>).
  eapply rtc_l; [by eapply (ls_read L k s m c1)|]. eapply rtc_l; [eapply (ls_conn _ k s1 NDelivered c2); [apply sessions_set|done|done]|].
  eapply rtc_l; [|apply rtc_refl]. rewrite set_set.
  pose proof (ls_conn (set_session k s2 L) k s2 (NReceive id None) c3) as Hlast. rewrite set_set in Hlast. by apply Hlast; [apply sessions_set| |].
Qed.

(** It reads chunks until the end. *)
Lemma link_hear_chunks contents d id L k s q :
  lk_sessions L !! k = Some s -> quiet id q (se_conn s) -> rq_sender q = Inference ->
  drop (se_read s) (on_conn k (ag_wire (lk_agent L))) = (chunkMessage id <$> contents) ++ [doneMessage id d] ->
  exists s' q', rtc link_step L (set_session k s' L) /\ se_asked s' = se_asked s
    /\ nc_calls (se_conn s') !! id = Some q' /\ rq_sender q' = Inference /\ rq_phase q' = Left (Ok (AnsDone d)).
Proof.
  revert L s q. induction contents as [|content contents IH]; intros L s q Hs Hq Hsender Hdrop.
  - assert (Hm : on_conn k (ag_wire (lk_agent L)) !! se_read s = Some (doneMessage id d))
      by (rewrite <- (Nat.add_0_r (se_read s)), <- lookup_drop, Hdrop; done).
    destruct (link_hear L k s id q _ Hs Hq Hm) as (c' & Hsteps & Hcall & Hp & Hr & Hcl); [done|].
    unfold receive in Hcall. simpl in Hcall. rewrite Hsender in Hcall. simpl in Hcall.
    set (s1 := s <| se_conn := c' |> <| se_read ::= S |>) in *.
    eexists (s1 <| se_conn := leaveCall id (Ok (AnsDone d)) c' |>), _.
    split_and!; [|done|simpl; by rewrite lookup_alter_eq, Hcall|done|done].
    eapply rtc_r; [exact Hsteps|].
    pose proof (ls_conn (set_session k s1 L) k s1 (NLeave id) (leaveCall id (Ok (AnsDone d)) c')) as Hlast. rewrite set_set in Hlast.
    apply Hlast; [apply sessions_set|done|]. eapply cs_leave; [done|]. split; [exact Hcall|done].
  - rewrite fmap_cons, <- app_comm_cons in Hdrop.
    assert (Hm : on_conn k (ag_wire (lk_agent L)) !! se_read s = Some (chunkMessage id content))
      by (rewrite <- (Nat.add_0_r (se_read s)), <- lookup_drop, Hdrop; done).
    destruct (link_hear L k s id q _ Hs Hq Hm) as (c' & Hsteps & Hcall & Hp & Hr & Hcl); [done|].
    unfold receive in Hcall. simpl in Hcall. rewrite Hsender in Hcall. simpl in Hcall.
    set (s1 := s <| se_conn := c' |> <| se_read ::= S |>) in *.
    edestruct (IH (set_session k s1 L) s1) as (s' & q' & H1 & H2 & H3 & H4 & H5); [apply sessions_set|split; [exact Hcall|apply Hq|done..]|done| |].
    + simpl. rewrite <- Nat.add_1_r, <- drop_drop, Hdrop. done.
    + rewrite set_set in H1. exists s', q'. split_and!; [by etrans|done|done|done|done].
Qed.
End Link.

(** ** Runs *)

(** The echo agent, its connection accepted, one request asked and read. *)
Definition demo_session : Session :=
  newSession <| se_conn := (startCall "r" Inference newNodeConn) <| nc_calls ::= alter (written None) "r" |> |>
             <| se_asked := {["r" := Infer hello]} |>.

Definition demo_link : Link (RT := echo_runtime) :=
  {| lk_agent := demo_agent; lk_sessions := {[1%nat := demo_session]} |}.

Lemma demo_link_reach : link_reach demo_cfg EchoBackend.New demo_link.
Proof.
  destruct demo_cfg_ok as [Htiers _].
  set (a1 := connect (RT := echo_runtime) (registerMessage demo_cfg (Name EchoBackend.New) "host" "arm64" "linux" ["private"]) None newAgent).
  set (L1 := {| lk_agent := a1; lk_sessions := ∅ |}).
  set (s2 := newSession <| se_conn := startCall "r" Inference newNodeConn |>).
  set (s3 := s2 <| se_conn := (startCall "r" Inference newNodeConn) <| nc_calls ::= alter (written None) "r" |> |>
                <| se_down ::= fun d => d ++ [("r", Infer hello)] |> <| se_asked ::= <["r" := Infer hello]> |>).
  unfold link_reach. eapply rtc_l; [apply (ls_agent demo_cfg EchoBackend.New newLink a1); by apply as_connect|].
  eapply rtc_l; [eapply (ls_accept _ _ _ 1%nat); [apply lookup_empty|reflexivity|reflexivity]|].
  eapply rtc_l; [eapply (ls_conn _ _ _ 1%nat newSession (NStart "r" Inference)); [apply sessions_set|done|by apply cs_start]|].
  rewrite set_set. change (newSession <| se_conn := startCall "r" Inference newNodeConn |>) with s2.
  eapply rtc_l; [eapply (ls_ask _ _ _ 1%nat s2 "r" (newCall Inference) (Infer hello)); [apply sessions_set|by split|done|]|].
  { eapply (cs_written _ "r" None (newCall Inference)). by split. }
  rewrite set_set. fold s3.
  eapply rtc_l; [eapply (ls_deliver _ _ _ s3 "r" (Infer hello) []); [reflexivity|reflexivity|apply sessions_set|reflexivity]|].
  pose proof (agent_steps demo_cfg EchoBackend.New {| lk_agent := connected demo_cfg EchoBackend.New [ask_hello "r"]; lk_sessions := {[1%nat := demo_session]} |}
    demo_agent (drive_own _ _ _ _ _ _)) as Hrun.
  exact Hrun.
Qed.

Lemma link_answers_witness :
  exists L s q, link_reach demo_cfg EchoBackend.New L /\ lk_sessions L !! 1%nat = Some s
    /\ nc_calls (se_conn s) !! "r" = Some q /\ rq_phase q = Left (Ok (AnsDone demo_done))
    /\ exists chunks, rq_output q = fst <$> chunks /\ reaches (Chat EchoBackend.New hello) chunks (Return (demo_done, None)).
Proof.
  destruct (link_hear_chunks demo_cfg EchoBackend.New demo_words demo_done "r" demo_link 1 demo_session (written None (newCall Inference)))
    as (s & q & Hsteps & Hasked & Hq & Hsender & Hph).
  - apply lookup_insert_eq.
  - split; [simpl; by rewrite lookup_alter_eq, lookup_insert_eq|done|done|simpl; set_solver|done|done].
  - done.
  - vm_compute. reflexivity.
  - assert (HL : link_reach demo_cfg EchoBackend.New (set_session 1 s demo_link))
      by (unfold link_reach; etrans; [exact demo_link_reach|exact Hsteps]).
    exists (set_session 1 s demo_link), s, q. split; [exact HL|]. split; [apply sessions_set|]. split; [exact Hq|]. split; [exact Hph|].
    destruct (link_answers demo_cfg EchoBackend.New (set_session 1 s demo_link) 1 s "r" q HL (sessions_set _ _ _) Hq Hsender) as [_ H];
      [intros req; apply echo_faithful|].
    destruct (H _ Hph) as (req & chunks & d & Ha & Hreach & _ & Hd & Hout). rewrite Hasked in Ha. injection Ha as <-. injection Hd as <-.
    exists chunks. split; [exact Hout|exact Hreach].
Defined.
