(* ===== verification/Startup.v ===== *)
(** * Starting the coordinator: [main] in [coordinator/cmd/coordinator/main.go]

    [main] opens every component on its store, checks the TLS configuration and builds the
    server; [start] is the server and the world it begins with, or the first error.  What a
    process that stopped had stored, the next one starts with. *)

From S2P Require Import Prelude GoString HashChain Privacy Config ModelCatalog Scheduler Challenge Settlement SettlementProofs.
From S2P Require Import City CityProofs QuotaProofs Idempotency Requests Services.

(** ** The HTTP server *)

(** The fields of [http.Server] and its [tls.Config] that [newHTTPServer] sets; TLS 1.2 is the least
    version and HTTP/2 is off. *)
Record HttpServer := { hs_Addr : string; hs_ClientCAs : option string; hs_VerifyClientCertIfGiven : bool }.

Section Files.
Context (readFile : string -> res string string) (appendCertsFromPEM : string -> bool).

(** [src/coordinator/cmd/coordinator/main.go:1831-1841] loadCertPool *)
Definition loadCertPool (path : string) : res string string :=
  let* certPEM := readFile path in
  if appendCertsFromPEM certPEM then Ok certPEM else Err "failed to parse certificate authority file".

(** [src/coordinator/cmd/coordinator/main.go:1793-1818] newHTTPServer *)
Definition newHTTPServer (cfg : Coordinator) : res string HttpServer :=
  let tls := co_TLS cfg in
  let* pool :=
    (if st_NodeClientCAFile tls =s "" then Ok None
     else res_map Some (loadCertPool (st_NodeClientCAFile tls))) in
  let server := {| hs_Addr := co_ListenAddr cfg; hs_ClientCAs := pool;
                   hs_VerifyClientCertIfGiven := negb (st_NodeClientCAFile tls =s "") |} in
  if negb (st_CertFile tls =s "") || negb (st_KeyFile tls =s "") then
    if (st_CertFile tls =s "") || (st_KeyFile tls =s "")
    then Err "both tls.cert_file and tls.key_file are required" else Ok server
  else if negb (st_NodeClientCAFile tls =s "")
  then Err "tls.node_client_ca_file requires tls.cert_file and tls.key_file"
  else Ok server.

(** How the server listens. *)
Inductive Listener := ListenTLS (certFile keyFile : string) | ListenPlain.

(** [src/coordinator/cmd/coordinator/main.go:1823-1829] listenAndServe *)
Definition listenAndServe (cfg : Coordinator) : Listener :=
  if negb (st_CertFile (co_TLS cfg) =s "") then ListenTLS (st_CertFile (co_TLS cfg)) (st_KeyFile (co_TLS cfg)) else ListenPlain.

(** ** Opening the components *)

(** What is on disk when the process starts, and what fails on the way. *)
Record Stores := {
  so_city : Disk;
  so_settlement : Settlement.Store;
  so_challenges : ChainFile;
  so_idempotency : KeyTable;
}.
Record OpenFaults := { of_city : option string; of_settlement : option string; of_idempotency : option string }.
Definition no_faults : OpenFaults := {| of_city := None; of_settlement := None; of_idempotency := None |}.

Inductive StartError :=
| StartCity (e : CityError)
| StartSettlement (e : LedgerError)
| StartChallenges (e : ChallengeError)
| StartIdempotency (e : string)
| StartHTTP (e : string).

Definition map_err {E F A} (f : E -> F) (x : res E A) : res F A := match x with Ok a => Ok a | Err e => Err (f e) end.

(** [src/coordinator/cmd/coordinator/main.go:98-110] main (the server) *)
Definition newServer (cfg : Coordinator) (idemStore : option IdemStore) : server :=
  {| sv_modelCatalog := Some (ModelCatalog.New (co_Models cfg)); sv_idempotency := idemStore;
     sv_adminToken := co_AdminToken cfg; sv_devAdminOpen := co_DevAdminOpen cfg;
     sv_requireNodeClientCert := negb (st_NodeClientCAFile (co_TLS cfg) =s "");
     sv_requestTimeout := sd_RequestTimeout (co_Scheduler cfg);
     sv_maxRequestBytes := maxRequestBytesOrDefault (co_MaxRequestBytes cfg) |}.

(** [src/coordinator/cmd/coordinator/main.go:72-110] main (until it serves; [newHTTPServer] is called after the routes are set up) *)
Definition start (cfg : Coordinator) (faults : OpenFaults) (d : Stores) : res StartError (server * HttpServer * World) :=
  let* market := map_err StartCity (City.New (co_City cfg) (co_APIKeys cfg) (of_city faults) (so_city d)) in
  let* ledger := map_err StartSettlement (Settlement.New (co_Settlement cfg) (of_settlement faults) (so_settlement d)) in
  let* challenges := map_err StartChallenges (Challenge.New (co_Challenges cfg) (so_challenges d)) in
  let* idemStore := map_err StartIdempotency
    (Idempotency.New (ic_SQLitePath (co_Idempotency cfg)) (ic_TTL (co_Idempotency cfg)) (of_idempotency faults)) in
  let* srv := map_err StartHTTP (newHTTPServer cfg) in
  Ok (newServer cfg idemStore, srv,
      {| w_registry := (NewRegistry, []); w_market := (market, so_city d); w_settlement := (ledger, so_settlement d);
         w_challenges := (challenges, so_challenges d); w_server := (so_idempotency d, 0) |}).

(** ** Stopping *)

Inductive Stop :=
| ServeFailed (serverClosed : bool)  (* listenAndServe returned an error *)
| Signal (drained : bool).           (* a signal; Shutdown ends in time or not *)

Inductive StopAction := CloseState | Fatal | Drain | ForceClose.

(** [src/coordinator/cmd/coordinator/main.go:159-178] main (the end) *)
Definition stopActions (s : Stop) : list StopAction :=
  match s with
  | ServeFailed serverClosed => if serverClosed then [] else [CloseState; Fatal]
  | Signal drained => [Drain] ++ (if drained then [] else [ForceClose]) ++ [CloseState]
  end.
End Files.

(** ** What a process finds *)

(** Configured accounts and keys change neither usage nor reservations, nor which store there is. *)
Record same_usage (m m' : Market) : Prop := {
  su_consumers : m_consumerUse m' = m_consumerUse m;
  su_providers : m_providerUse m' = m_providerUse m;
  su_reserved : m_reservedUse m' = m_reservedUse m;
  su_db : m_db m' = m_db m;
  su_path : m_usageStorePath m' = m_usageStorePath m;
}.

#[export] Instance same_usage_preorder : PreOrder same_usage.
Proof. split; [by split|]. intros m1 m2 m3 [] []. split; by etrans. Qed.

Lemma fold_same_usage {A} (f : Market -> A -> Market) l m :
  (forall m x, same_usage m (f m x)) -> same_usage m (fold_left f l m).
Proof. intros Hf. revert m. induction l as [|x l IH]; intros m; simpl; [done|]. etrans; [apply Hf|apply IH]. Qed.

Lemma addKey_same_usage id m key : same_usage m (addKey id m key).
Proof. unfold addKey. case_goal; by split. Qed.

Lemma addLegacyKeys_same_usage keys m : same_usage m (addLegacyKeys keys m).
Proof.
  unfold addLegacyKeys. pose proof (fold_same_usage (addKey "local") keys m (addKey_same_usage "local")) as H.
  destruct keys; [done|]. etrans; [exact H|by split].
Qed.

Lemma addConsumer_same_usage m c : same_usage m (addConsumer m c).
Proof.
  unfold addConsumer. case_goal; [done|]. etrans; [|apply fold_same_usage]; [by split|].
  intros m' key. case_goal; [done|apply addKey_same_usage].
Qed.

(** A configured provider whose privacy policy cannot be read stops the start. *)
Definition policy_readable (p : ProviderAccount) : Prop :=
  pa_ID p = "" \/ is_ok (providerPrivacy (pa_PrivacyMode p) (pa_PrivacyTiers p)) = true.

Lemma addProviders_ok ps m :
  Forall policy_readable ps -> exists m', fold_left addProvider ps (Ok m) = Ok m' /\ same_usage m m'.
Proof.
  intros H. revert m. induction H as [|p ps Hp _ IH]; intros m; [by exists m|]. cbn [fold_left].
  assert (Hone : exists m1, addProvider (Ok m) p = Ok m1 /\ same_usage m m1).
  { unfold addProvider. cbn [res_bind]. destruct (pa_ID p =s "") eqn:E; [by exists m|].
    destruct Hp as [Hp|Hp]; [by rewrite Hp in E|]. destruct (providerPrivacy _ _) as [[mode tiers]|]; [|done].
    eexists. split; [done|]. case_goal; by split. }
  destruct Hone as (m1 & -> & H1). destruct (IH m1) as (m' & -> & H2). exists m'. split; [done|by etrans].
Qed.

Lemma loadConsumer_reserved l m : m_reservedUse (fold_left loadConsumer l m) = m_reservedUse m.
Proof. revert m. induction l as [|c l IH]; intros m; [done|]. simpl. by rewrite IH. Qed.

Lemma loadProvider_reserved l m m' : fold_left loadProvider l (Ok m) = Ok m' -> m_reservedUse m' = m_reservedUse m.
Proof.
  revert m. induction l as [|p l IH]; intros m; [by intros [= ->]|]. cbn [fold_left]. unfold loadProvider at 2. cbn [res_bind].
  destruct (providerPrivacy _ _) as [[mode tiers]|e]; cbn [res_bind]; [by intros ->%IH|].
  assert (Herr : fold_left loadProvider l (Err e) = Err e) by (clear; induction l; done). by rewrite Herr.
Qed.

(** No reservation survives a restart. *)
Lemma loadStores_reserved cfg fault d m : loadStores cfg fault d = Ok m -> m_reservedUse m = ∅.
Proof.
  unfold loadStores. case_goal; [destruct fault; [done|]; by intros [= <-]|]. case_goal; [|by intros [= <-]].
  unfold loadState. destruct (dk_file d) as [[s|]|]; [|done|by intros [= <-]]. intros [m1 [H1 [= <-]]]%res_bind_ok.
  apply loadProvider_reserved in H1. simpl. by rewrite H1, loadConsumer_reserved.
Qed.

Lemma New_usage cfg legacy fault d m0 :
  loadStores cfg fault d = Ok m0 -> Forall policy_readable (cc_Providers cfg) ->
  exists m, City.New cfg legacy fault d = Ok m /\ same_usage m0 m.
Proof.
  intros Hl Hp. unfold City.New. rewrite Hl. cbn [res_bind].
  destruct (addProviders_ok _ (fold_left addConsumer (cc_Consumers cfg) (addLegacyKeys legacy m0)) Hp) as (m & -> & H).
  exists m. split; [done|]. etrans; [|done]. etrans; [apply addLegacyKeys_same_usage|].
  apply fold_same_usage, addConsumer_same_usage.
Qed.

(** The TLS files the configuration names are usable. *)
Definition tls_usable (readFile : string -> res string string) (appendCerts : string -> bool) (cfg : Coordinator) : Prop :=
  is_ok (newHTTPServer readFile appendCerts cfg) = true.

(** Stop a coordinator between requests and start it again with the same stores.
    If its last write of the accounts succeeded and no ledger write was torn, the next process
    starts, and begins with the usage of every account, nothing reserved, no node, the settlement
    and challenge histories up to their last hashes, and the idempotency keys. *)
Theorem coordinator_restart readFile appendCerts cfg w now d0 :
  let '(m, d) := w_market w in let '(l, st) := w_settlement w in let '(cl, file) := w_challenges w in
  city_reachable (m, d0) -> stores_in (co_City cfg) m -> persistLocked now None m d0 = (None, d) ->
  clean_reach (co_Settlement cfg) l st -> sc_SQLitePath (co_Settlement cfg) <> "" \/ sc_ChainPath (co_Settlement cfg) <> "" ->
  challenge_reach (co_Challenges cfg) cl file -> hc_Path (co_Challenges cfg) <> "" ->
  Forall policy_readable (cc_Providers (co_City cfg)) -> tls_usable readFile appendCerts cfg ->
  exists s srv m' l' cl',
    start readFile appendCerts cfg no_faults
      {| so_city := d; so_settlement := st; so_challenges := file; so_idempotency := fst (w_server w) |}
    = Ok (s, srv, {| w_registry := (NewRegistry, []); w_market := (m', d); w_settlement := (l', st);
                     w_challenges := (cl', file); w_server := (fst (w_server w), 0) |})
    /\ m_consumerUse m' = m_consumerUse m /\ m_providerUse m' = m_providerUse m /\ m_reservedUse m' = ∅
    /\ l_events l' = l_events l /\ l_lastHash l' = l_lastHash l
    /\ cl_events cl' = cl_events cl /\ cl_lastHash cl' = cl_lastHash cl.
Proof.
  destruct (w_market w) as [m d], (w_settlement w) as [l st], (w_challenges w) as [cl file].
  intros Hcity Hin Hp Hset Hsome Hch Hpath Hpol Htls.
  assert (Hm : market_ok m) by apply (city_reachable_ok _ Hcity).
  destruct (persist_then_load (co_City cfg) now m d0 d Hm Hin Hp) as (m0 & Hl0 & Hsame & _).
  destruct (New_usage _ (co_APIKeys cfg) _ _ _ Hl0 Hpol) as (m' & HNew & Huse).
  destruct (clean_reach_stored _ _ _ Hset) as [Hc Hs].
  destruct (New_stored (co_Settlement cfg) l st) as (l' & HNewL & Hev & Hlast);
    [by eapply ledger_reach_ok, clean_reach_reach|done|by apply Hs|done|].
  destruct (New_reads _ _ _ (challenge_reach_ok _ _ _ Hch) Hpath) as (cl' & HNewC & Hev' & Hlast' & _).
  unfold tls_usable in Htls. destruct (newHTTPServer readFile appendCerts cfg) as [srv|] eqn:Esrv; [|done].
  assert (Hidem : exists i, Idempotency.New (ic_SQLitePath (co_Idempotency cfg)) (ic_TTL (co_Idempotency cfg)) None = Ok i)
    by (unfold Idempotency.New; case_goal; eauto).
  destruct Hidem as [i Hi]. exists (newServer cfg i), srv, m', l', cl'. split.
  - unfold start, no_faults. cbn. rewrite HNew, HNewL, HNewC, Hi, Esrv. done.
  - destruct Huse as [U1 U2 U3 _ _]. split_and!; try done; [by rewrite U1, <- (sa_consumer_use _ _ Hsame)
      |by rewrite U2, <- (sa_provider_use _ _ Hsame)|rewrite U3; by eapply loadStores_reserved].
Qed.

(** ** A restart *)

Definition demo_config : Coordinator :=
  {| co_ListenAddr := ":8080"; co_APIKeys := ["legacy"]; co_AdminToken := "admin"; co_DevAdminOpen := false;
     co_TLS := {| st_CertFile := "cert.pem"; st_KeyFile := "key.pem"; st_NodeClientCAFile := "ca.pem" |};
     co_City := json_city; co_Settlement := demo_settlement;
     co_Idempotency := {| ic_SQLitePath := "keys.db"; ic_TTL := 0 |}; co_Challenges := demo_challenges;
     co_Models := {| mc_Aliases := [] |}; co_Scheduler := {| sd_MaxQueuePenalty := 0; sd_RequestTimeout := 0 |};
     co_MaxRequestBytes := 0 |}.

(** The disk after the accounts were written once more. *)
Definition demo_disk : Disk := snd (persistLocked 10 None (fst json_world) (snd json_world)).

Lemma fst_none {A B} (p : option A * B) : match fst p with None => true | Some _ => false end = true -> p = (None, snd p).
Proof. by destruct p as [[|] ?]. Qed.

Lemma demo_persisted : persistLocked 10 None (fst json_world) (snd json_world) = (None, demo_disk).
Proof. refine (fst_none (persistLocked 10 None (fst json_world) (snd json_world)) _). vm_compute. reflexivity. Qed.

Lemma demo_policies : Forall policy_readable (cc_Providers json_city).
Proof. repeat (apply List.Forall_cons; [right; vm_compute; reflexivity|]). apply List.Forall_nil. Qed.

Definition demo_stopped : World :=
  {| w_registry := (NewRegistry, []); w_market := (fst json_world, demo_disk);
     w_settlement := (snd (fst after_two), snd after_two); w_challenges := (snd (fst demo_second), snd demo_second);
     w_server := (∅, 7) |}.

Lemma coordinator_restart_witness :
  exists s srv w,
    start (fun _ => Ok "PEM") (fun _ => true) demo_config no_faults
      {| so_city := demo_disk; so_settlement := snd after_two; so_challenges := snd demo_second; so_idempotency := ∅ |}
    = Ok (s, srv, w)
    /\ m_consumerUse (fst (w_market w)) = m_consumerUse (fst json_world)
    /\ length (l_events (fst (w_settlement w))) = 2%nat /\ length (cl_events (fst (w_challenges w))) = 2%nat.
Proof.
  pose proof json_world_check as Hck. bsimpl.
  destruct (coordinator_restart (fun _ => Ok "PEM") (fun _ => true) demo_config demo_stopped 10 (snd json_world))
    as (s & srv & m' & l' & cl' & Hs & Hu & _ & _ & Hl & _ & Hc & _).
  - rewrite <- (surjective_pairing json_world). exact json_world_reachable.
  - split_and!; [assumption|by apply str_eqb_true|right; discriminate].
  - exact demo_persisted.
  - exact demo_clean.
  - right. discriminate.
  - exact demo_challenge_reach.
  - discriminate.
  - exact demo_policies.
  - reflexivity.
  - exists s, srv. eexists. split; [exact Hs|]. cbn [w_market w_settlement w_challenges fst]. split; [exact Hu|].
    rewrite Hl, Hc. split; vm_compute; reflexivity.
Defined.
