(* ===== verification/Recovery.v ===== *)
(** * Budgets across crashes: what the store keeps of what accounts used

    [QuotaSystem] shows that a running coordinator keeps every budget.  Here the process may also die
    at any call, with requests in flight and reservations open, and start again on whatever its
    store holds.  The abstract machine has a durable part: what an account used and what of it
    is saved; settling or administering may save, a crash falls back to what was saved and frees
    what was held.  [durable_budgets]: the coordinator, its crashes and its restarts implement that
    machine, so the budget of an account, up to the overruns of its recordings, holds over the whole life
    of the service and a recording that was saved is never forgotten. *)

From S2P Require Import Prelude GoString GoSort Sha256 Privacy Protocol Config City CityProofs.
From S2P Require Import QuotaProofs Scheduler Requests Services Handlers AdminHandlers HandlerProofs QuotaSystem Startup.

(** ** The abstract machine *)

Record Durable := { db_budget : Budget; db_saved : Z }.

Inductive durable_label := DMove (l : budget_label) | DSave | DCrash.

Inductive durable_step : Durable -> durable_label -> Durable -> Prop :=
| dr_move b l b' saved saved' :
    budget_step b l b' -> saved' = saved \/ saved' = bg_used b' ->
    durable_step {| db_budget := b; db_saved := saved |} (DMove l) {| db_budget := b'; db_saved := saved' |}
| dr_save b saved :
    durable_step {| db_budget := b; db_saved := saved |} DSave {| db_budget := b; db_saved := bg_used b |}
| dr_crash limit u h o saved :
    durable_step {| db_budget := {| bg_limit := limit; bg_used := u; bg_held := h; bg_over := o |}; db_saved := saved |} DCrash
                 {| db_budget := {| bg_limit := limit; bg_used := saved; bg_held := 0; bg_over := o |}; db_saved := saved |}.

Definition durable_safe (b : Durable) : Prop :=
  0 <= db_saved b <= bg_used (db_budget b) /\ 0 <= bg_held (db_budget b) /\ 0 <= bg_over (db_budget b)
  /\ bg_used (db_budget b) + bg_held (db_budget b) <= bg_limit (db_budget b) + bg_over (db_budget b).

Lemma durable_step_safe b l b' : durable_step b l b' -> durable_safe b -> durable_safe b'.
Proof. unfold durable_safe. destruct 1 as [b l b' s s' Hm Hs|b s|]; simpl; [|lia..]. destruct Hm; simpl in *; lia. Qed.

(** ** Limits *)

Definition limits (m : Market) : gmap string Z := cn_TotalTokenLimit <$> m_consumers m.

Lemma limited_limits m a limit : limited m a limit <-> limits m !! a = Some limit /\ 0 < limit <= max_int64.
Proof.
  unfold limited, limits. rewrite lookup_fmap. split.
  - intros (c & -> & <- & H). done.
  - intros [H ?]. destruct (m_consumers m !! a) as [c|] eqn:E; [|done]. injection H as <-. by exists c.
Qed.

(** The limits the configuration gives. *)
Definition configured (cfg : CityConfig) (legacy : list string) : gmap string Z :=
  fold_left (fun l c => if ca_ID c =s "" then l else <[ca_ID c := ca_TotalTokenLimit c]> l) (cc_Consumers cfg)
    match legacy with [] => ∅ | _ => {["local" := 0]} end.

Lemma limits_put m k c : limits (m <| m_consumers ::= <[k := c]> |>) = <[k := cn_TotalTokenLimit c]> (limits m).
Proof. unfold limits. simpl. by rewrite fmap_insert. Qed.

Lemma limits_same m m' : m_consumers m' = m_consumers m -> limits m' = limits m.
Proof. unfold limits. by intros ->. Qed.

Lemma addConsumer_limits m c :
  limits (addConsumer m c) = if ca_ID c =s "" then limits m else <[ca_ID c := ca_TotalTokenLimit c]> (limits m).
Proof.
  unfold addConsumer. case_goal; [done|]. cbv zeta. case_goal; [by rewrite fold_left_ignore, limits_put|].
  erewrite limits_same by apply addKeys_consumers. by rewrite limits_put.
Qed.

Lemma addLegacy_limits legacy m :
  limits (addLegacyKeys legacy m) = match legacy with [] => ∅ | _ => {["local" := 0]} end ∪ limits m.
Proof.
  unfold addLegacyKeys. destruct legacy as [|k l]; [by rewrite (left_id_L ∅ (∪))|].
  rewrite limits_put, <- insert_union_singleton_l. f_equal. by apply limits_same, addKeys_consumers.
Qed.

Lemma addConsumers_limits cs base l m :
  limits m = base ∪ l ->
  limits (fold_left addConsumer cs m)
  = fold_left (fun l c => if ca_ID c =s "" then l else <[ca_ID c := ca_TotalTokenLimit c]> l) cs base ∪ l.
Proof.
  revert base m. induction cs as [|c cs IH]; intros base m H; [done|]. cbn [fold_left]. apply IH.
  rewrite addConsumer_limits, H. case_goal; [done|]. by rewrite insert_union_l.
Qed.

Lemma addProvider_usage m p m' : addProvider (Ok m) p = Ok m' -> same_usage m m'.
Proof.
  unfold addProvider. cbn [res_bind]. case_goal; [by intros [= <-]|]. intros (mt & _ & [= <-])%res_bind_ok. case_goal; by split.
Qed.

Lemma addProviders_usage ps m m' : fold_left addProvider ps (Ok m) = Ok m' -> same_usage m m'.
Proof.
  revert m. induction ps as [|p ps IH]; intros m H; cbn [fold_left] in H; [by injection H as <-|].
  destruct (addProvider (Ok m) p) as [m1|e] eqn:E; [etrans; [by eapply addProvider_usage|by apply IH]|].
  exfalso. clear -H. by induction ps.
Qed.

(** What a start makes of the stored market. *)
Lemma New_limits cfg legacy d m :
  New cfg legacy None d = Ok m ->
  exists ml, loadStores cfg None d = Ok ml /\ limits m = configured cfg legacy ∪ limits ml /\ same_usage ml m.
Proof.
  unfold New. intros (ml & Hl & Hp)%res_bind_ok. exists ml. split; [done|]. split.
  - erewrite limits_same by (by eapply addProviders_consumers). apply addConsumers_limits, addLegacy_limits.
  - etrans; [|by eapply addProviders_usage]. etrans; [apply addLegacyKeys_same_usage|]. apply fold_same_usage, addConsumer_same_usage.
Qed.

(** Loading keeps the store the configuration names. *)
Lemma loadConsumer_store l m :
  m_db (fold_left loadConsumer l m) = m_db m /\ m_usageStorePath (fold_left loadConsumer l m) = m_usageStorePath m.
Proof. revert m. induction l as [|c l IH]; intros m; [done|]. exact (IH (loadConsumer m c)). Qed.

Lemma loadProvider_store l m m' :
  fold_left loadProvider l (Ok m) = Ok m' -> m_db m' = m_db m /\ m_usageStorePath m' = m_usageStorePath m.
Proof.
  revert m. induction l as [|p l IH]; intros m H; cbn [fold_left] in H; [by injection H as <-|].
  destruct (loadProvider (Ok m) p) as [m1|e] eqn:E; [|exfalso; clear -H; by induction l].
  apply res_bind_ok in E as (mt & _ & [= <-]). exact (IH _ H).
Qed.

Definition with_store (cfg : CityConfig) : Prop := cc_SQLitePath cfg <> "" \/ cc_UsageStorePath cfg <> "".

Lemma loadStores_in cfg d m : with_store cfg -> loadStores cfg None d = Ok m -> stores_in cfg m.
Proof.
  intros Hs. unfold loadStores, stores_in. destruct (negb (cc_SQLitePath cfg =s "")); [by intros [= <-]|].
  case_goal; [|by intros [= <-]]. unfold loadState. destruct (dk_file d) as [[s|]|]; [|done|by intros [= <-]].
  intros (m1 & H1 & [= <-])%res_bind_ok. apply loadProvider_store in H1 as [H1 H2].
  destruct (loadConsumer_store (ps_Consumers s) (emptyMarket cfg)) as [H3 H4]. simpl in *. by rewrite H1, H2, H3, H4.
Qed.

Lemma stores_in_same cfg m m' : m_db m' = m_db m -> m_usageStorePath m' = m_usageStorePath m -> stores_in cfg m -> stores_in cfg m'.
Proof. unfold stores_in. by intros -> ->. Qed.

(** ** What an operation saves *)

(** The store holds the market, or is as before. *)
Definition saves (m' : Market) (d d' : Disk) : Prop := exists now, persistLocked now None m' d = (None, d').

Lemma persist_saves now fault m d e d' : persist now fault m d = (e, d') -> (e = None /\ saves m d d') \/ (e <> None /\ d' = d).
Proof.
  unfold persist, disk_persist, saves, persistLocked. destruct (m_db m).
  - destruct fault as [f|]; [by intros [= <- <-]; right|]. destruct (persistSQLiteLocked m); intros [= <- <-]; [left|by right].
    split; [done|]. by exists now.
  - case_goal; [by intros [= <- <-]; left; split; [|exists now]|].
    destruct fault as [f|]; intros [= <- <-]; [by right|left]. split; [done|]. by exists now.
Qed.

Record op_outcome (m : Market) (d : Disk) (m' : Market) (d' : Disk) : Prop := {
  oo_db : m_db m' = m_db m;
  oo_path : m_usageStorePath m' = m_usageStorePath m;
  oo_limits : limits m ⊆ limits m';
  oo_saved : saves m' d d' \/ (d' = d /\ limits m' = limits m);
}.

Lemma outcome_none m d m' :
  m_db m' = m_db m -> m_usageStorePath m' = m_usageStorePath m -> limits m' = limits m -> op_outcome m d m' d.
Proof. intros H1 H2 H3. split; [done|done|by rewrite H3|by right]. Qed.

(** An operation that changes no limit and then saves. *)
Lemma outcome_persist now fault m m' d e d' :
  persist now fault m' d = (e, d') -> m_db m' = m_db m -> m_usageStorePath m' = m_usageStorePath m -> limits m' = limits m ->
  op_outcome m d m' d'.
Proof.
  intros [[_ H]|[_ ->]]%persist_saves H1 H2 H3; [|by apply outcome_none]. split; [done|done|by rewrite H3|by left].
Qed.

Lemma removal_limits id m : limits (removeConsumerSecretsLocked id m) = limits m.
Proof. done. Qed.

Lemma put_same_limit m k c c' : m_consumers m !! k = Some c -> cn_TotalTokenLimit c' = cn_TotalTokenLimit c ->
  limits (m <| m_consumers ::= <[k := c']> |>) = limits m.
Proof. intros Hc Hl. rewrite limits_put, Hl. apply insert_id. unfold limits. by rewrite lookup_fmap, Hc. Qed.

Lemma used_fields (b : bool) (f : gmap string Usage -> gmap string Usage) m :
  let m' := if b then m <| m_providerUse ::= f |> else m in
  m_db m' = m_db m /\ m_usageStorePath m' = m_usageStorePath m /\ limits m' = limits m.
Proof. by destruct b. Qed.

Lemma release_store r m :
  let m' := releaseReservationLocked r m in m_db m' = m_db m /\ m_usageStorePath m' = m_usageStorePath m /\ limits m' = limits m.
Proof. unfold releaseReservationLocked. by repeat case_goal. Qed.

Lemma op_outcomes (o : city_op) m d m' d' : run_city o (m, d) = (m', d') -> op_outcome m d m' d'.
Proof.
  assert (Hstay : op_outcome m d m d) by (by apply outcome_none). destruct o; cbn [run_city].
  - unfold CreateConsumer. case_goal; [by intros [= <- <-]|]. destruct (randomSecret _ _); [|by intros [= <- <-]].
    destruct (m_consumers m !! _) eqn:E0; [by intros [= <- <-]|]. destruct (persist _ _ _ _) as [[e|] d1] eqn:Ep; intros [= <- <-].
    + apply persist_saves in Ep as [[? _]|[_ ->]]; [done|]. apply outcome_none; [done..|]. unfold limits. simpl. by rewrite delete_insert_id.
    + apply persist_saves in Ep as [[_ H]|[? _]]; [|done].
      split; [done|done| |by left]. unfold limits. simpl. rewrite fmap_insert. apply insert_subseteq. by rewrite lookup_fmap, E0.
  - unfold CreateProvider. case_goal; [by intros [= <- <-]|]. destruct (randomSecret _ _); [|by intros [= <- <-]].
    destruct (m_providers m !! _) eqn:E0; [by intros [= <- <-]|]. destruct (providerPrivacy _ _) as [[? ?]|]; [|by intros [= <- <-]].
    destruct (persist _ _ _ _) as [[e|] d1] eqn:Ep; intros [= <- <-].
    + apply persist_saves in Ep as [[? _]|[_ ->]]; [done|]. by apply outcome_none.
    + by eapply outcome_persist.
  - unfold RotateConsumerKey. case_goal; [by intros [= <- <-]|]. destruct (randomSecret _ _); [|by intros [= <- <-]].
    destruct (m_consumers m !! _) as [c|] eqn:E0; [|by intros [= <- <-]]. case_goal; [by intros [= <- <-]|].
    destruct (persist _ _ _ _) as [[e|] d1] eqn:Ep; intros [= <- <-]; by eapply outcome_persist.
  - unfold RotateProviderToken. case_goal; [by intros [= <- <-]|]. destruct (randomSecret _ _); [|by intros [= <- <-]].
    destruct (m_providers m !! _) as [c|] eqn:E0; [|by intros [= <- <-]]. case_goal; [by intros [= <- <-]|].
    destruct (persist _ _ _ _) as [[e|] d1] eqn:Ep; intros [= <- <-]; by eapply outcome_persist.
  - unfold DisableConsumer. case_goal; [by intros [= <- <-]|]. destruct (m_consumers m !! _) as [c|] eqn:E0; [|by intros [= <- <-]].
    destruct (persist _ _ _ _) as [[e|] d1] eqn:Ep; intros [= <- <-]; (eapply outcome_persist; [exact Ep|done|done|]);
      rewrite removal_limits; by eapply put_same_limit.
  - unfold DisableProvider. case_goal; [by intros [= <- <-]|]. destruct (m_providers m !! _) as [c|] eqn:E0; [|by intros [= <- <-]].
    destruct (persist _ _ _ _) as [[e|] d1] eqn:Ep; intros [= <- <-]; by eapply outcome_persist.
  - unfold ReserveConsumerQuota. cbv zeta. repeat case_goal; intros [= <- <-]; by apply outcome_none.
  - intros [= <- <-]. unfold ReleaseReservation. destruct r as [q|]; [|done]. case_goal; [done|].
    destruct (release_store (Some q) m) as (H1 & H2 & H3). by apply outcome_none.
  - unfold Record_. destruct (persist _ _ _ _) as [e d1] eqn:Ep. intros [= <- <-].
    destruct (used_fields (negb (pid =s "")) (addUsage pid done now) (m <| m_consumerUse ::= addUsage cid done now |>)) as (H1 & H2 & H3).
    by eapply outcome_persist.
  - unfold RecordReserved. destruct (persist _ _ _ _) as [e d1] eqn:Ep. intros [= <- <-].
    destruct (release_store r m) as (R1 & R2 & R3).
    eapply outcome_persist; [exact Ep|destruct (negb _); exact R1|destruct (negb _); exact R2|destruct (negb _); exact R3].
Qed.

(** ** What is saved *)

(** What a process that starts on the store finds the account to have used. *)
Definition saved (cfg : CityConfig) (d : Disk) (a : string) : Z :=
  match loadStores cfg None d with Ok m => used m a | Err _ => 0 end.

(** The usage record of a limited account is exact. *)
Definition exact_at (m : Market) (a : string) : Prop := forall u, m_consumerUse m !! a = Some u -> exact_usage u.

Lemma exact_used m a : exact_at m a -> 0 <= used m a.
Proof. unfold exact_at, used. intros H. destruct (m_consumerUse m !! a) as [u|]; [|done]. destruct (H u eq_refl) as (? & ? & ->). lia. Qed.

Record durable (cfg : CityConfig) (legacy : list string) (m : Market) (d : Disk) : Prop := {
  dr_world : world_ok (m, d);
  dr_store : stores_in cfg m;
  dr_load : exists ml, loadStores cfg None d = Ok ml /\ limits m = configured cfg legacy ∪ limits ml
    /\ forall a limit, limited m a limit -> exact_at ml a /\ used ml a <= used m a;
}.

Lemma durable_saved cfg legacy m d a limit : durable cfg legacy m d -> limited m a limit -> 0 <= saved cfg d a <= used m a.
Proof. intros [_ _ (ml & Hl & _ & H)] Ha. unfold saved. rewrite Hl. destruct (H a limit Ha) as [He Hu]. split; [by apply exact_used|done]. Qed.

(** One operation, on a market whose usage of limited accounts is exact and does not shrink. *)
Lemma durable_op cfg legacy o m d m' d' :
  durable cfg legacy m d -> run_city o (m, d) = (m', d') ->
  (forall a limit, limited m' a limit -> exact_at m' a) -> (forall a limit, limited m a limit -> used m a <= used m' a) ->
  durable cfg legacy m' d' /\ (saved cfg d' = saved cfg d \/ forall a, saved cfg d' a = used m' a).
Proof.
  intros [Hw Hst (ml & Hl & Hlim & Huse)] Hrun Hex Hgrow. destruct (op_outcomes _ _ _ _ _ Hrun) as [Hdb Hpath Hsub Hsv].
  assert (Hw' : world_ok (m', d')) by (rewrite <- Hrun; by apply run_city_ok).
  assert (Hst' : stores_in cfg m') by by eapply stores_in_same.
  destruct Hsv as [[now Hp]|[-> Hle]].
  - destruct (persist_then_load cfg now m' d d' (proj1 Hw') Hst' Hp) as (ml' & Hl' & Hsame & _). split.
    + split; [done|done|]. exists ml'. split; [done|].
      assert (Hml : limits ml' = limits m') by (unfold limits; by rewrite <- (sa_consumers _ _ Hsame)).
      assert (Hu : m_consumerUse ml' = m_consumerUse m') by (by rewrite <- (sa_consumer_use _ _ Hsame)).
      split; [|intros a limit Ha; unfold exact_at, used; rewrite Hu; split; [by eapply Hex|done]].
      rewrite Hml. symmetry. apply map_subseteq_union. etrans; [|exact Hsub]. rewrite Hlim. apply map_union_subseteq_l.
    + right. intros a. unfold saved, used. by rewrite Hl', <- (sa_consumer_use _ _ Hsame).
  - split; [|by left]. split; [done|done|]. exists ml. split; [done|]. split; [by rewrite Hle|].
    intros a limit Ha. assert (Ha0 : limited m a limit) by (apply limited_limits; apply limited_limits in Ha; by rewrite <- Hle).
    destruct (Huse a limit Ha0) as [He Hu]. split; [done|]. etrans; [exact Hu|by eapply Hgrow].
Qed.

(** A recording that is answered without an error is saved, with everything before it. *)
Lemma record_saved cfg legacy r cid pid done now fault m d m' d' :
  durable cfg legacy m d -> RecordReserved r cid pid done now fault m d = (None, m', d') -> forall a, saved cfg d' a = used m' a.
Proof.
  intros [Hw Hst _] Hrec a.
  assert (Hrun : run_city (CoRecordReserved r cid pid done now fault) (m, d) = (m', d')) by (cbn [run_city]; by rewrite Hrec).
  destruct (op_outcomes _ _ _ _ _ Hrun) as [Hdb Hpath _ _].
  assert (Hw' : world_ok (m', d')) by (rewrite <- Hrun; by apply run_city_ok).
  assert (Hst' : stores_in cfg m') by by eapply stores_in_same.
  unfold RecordReserved in Hrec. destruct (persist _ _ _ _) as [e d1] eqn:Ep. injection Hrec as -> <- <-.
  apply persist_saves in Ep as [[_ [t Hp]]|[? _]]; [|done].
  destruct (persist_then_load cfg t _ _ _ (proj1 Hw') Hst' Hp) as (ml & Hl & Hsame & _).
  unfold saved, used. by rewrite Hl, <- (sa_consumer_use _ _ Hsame).
Qed.

(** A restart: the same limits, what was saved is used, nothing is held. *)
Lemma durable_restart cfg legacy m d m' :
  with_store cfg -> durable cfg legacy m d -> New cfg legacy None d = Ok m' ->
  durable cfg legacy m' d /\ limits m' = limits m /\ m_reservedUse m' = ∅ /\ forall a, used m' a = saved cfg d a.
Proof.
  intros Hs [Hw Hst (ml & Hl & Hlim & Huse)] Hn. destruct (New_limits _ _ _ _ Hn) as (ml' & Hl' & Hlim' & Hsu).
  assert (ml' = ml) as -> by congruence. assert (He : limits m' = limits m) by congruence.
  assert (Hu : forall a, used m' a = used ml a) by (intros a; unfold used; by rewrite (su_consumers _ _ Hsu)).
  split; [|split; [done|]; split; [rewrite (su_reserved _ _ Hsu); by eapply loadStores_reserved|]].
  - split.
    + split; [by eapply New_market_ok; [apply Hw|]|apply Hw].
    + eapply stores_in_same; [apply (su_db _ _ Hsu)|apply (su_path _ _ Hsu)|by eapply loadStores_in].
    + exists ml. split; [done|]. split; [by rewrite He|]. intros a limit Ha.
      assert (Ha0 : limited m a limit) by (apply limited_limits; apply limited_limits in Ha; by rewrite <- He).
      destruct (Huse a limit Ha0) as [Hx _]. split; [done|]. by rewrite Hu.
  - intros a. unfold saved. by rewrite Hl, Hu.
Qed.

(** ** The life of the service *)

Inductive life_label := LStep (l : sys_label) | LCrash.

Definition life_step_overrun (a : string) (l : life_label) : Z :=
  match l with LStep l => step_overrun a l | LCrash => 0 end.

(** How far recordings went past their reservations, over all the processes of a life. *)
Fixpoint life_overrun (a : string) (tr : list life_label) : Z :=
  match tr with [] => 0 | l :: tr => life_step_overrun a l + life_overrun a tr end.

Lemma life_overrun_snoc a tr l : life_overrun a (tr ++ [l]) = life_overrun a tr + life_step_overrun a l.
Proof. induction tr as [|x tr IH]; simpl; [lia|]. rewrite IH. lia. Qed.

Section Life.

(** As in [QuotaSystem]: do clients and nodes keep to the limits? *)
Variable obliging : bool.

(** The coordinator runs; or it dies at any call, whatever requests are in flight, and starts again
    on its store.  (A process that dies while it writes the store leaves what was there or all
    that was written, as [CityFile] shows of the file and the database promises of a transaction.) *)
Inductive life_step (s : server) (page : string) (cfg : CityConfig) (legacy : list string) : System -> life_label -> System -> Prop :=
| lf_step sy l sy' : sys_step obliging s page sy l sy' -> life_step s page cfg legacy sy (LStep l) sy'
| lf_crash ps w m w' :
    New cfg legacy None (snd (w_market w)) = Ok m -> w_market w' = (m, snd (w_market w)) ->
    life_step s page cfg legacy {| sy_pool := ps; sy_world := w |} LCrash {| sy_pool := []; sy_world := w' |}.

Definition sy_disk (sy : System) : Disk := snd (w_market (sy_world sy)).

Definition life_ok (over : string -> Z) (cfg : CityConfig) (legacy : list string) (sy : System) : Prop :=
  sys_ok obliging over sy /\ durable cfg legacy (sy_market sy) (sy_disk sy).

(** The part of the coordinator that is one account, with what of it is saved. *)
Definition account (cfg : CityConfig) (sy : System) (a : string) (limit over : Z) : Durable :=
  {| db_budget := budget (sy_market sy) a limit over; db_saved := saved cfg (sy_disk sy) a |}.

Lemma sys_exact over sy a limit : sys_ok obliging over sy -> limited (sy_market sy) a limit -> exact_at (sy_market sy) a.
Proof. intros (sts & _ & Hq) Ha u Hu. by eapply (qk_usage _ _ Hq). Qed.

Lemma moves_grow b b' : moves b b' -> bg_used b <= bg_used b'.
Proof. intros [->|[l H]]; [done|]. destruct H; simpl; lia. Qed.

(** A call of the market is an operation of it, or changes nothing. *)
Lemma perform_op o nd m d x m' d' :
  market_perform o nd (m, d) = Some (x, (m', d')) -> (m' = m /\ d' = d) \/ exists op, run_city op (m, d) = (m', d').
Proof.
  intros H. destruct (admin_call nd o) as [op|] eqn:Eo; [right; exists op; by eapply market_admin|].
  destruct o as [key|reg|id|id|i|i|id|id|id md ts|cid est|r|r cid pid dn|id|id|]; try discriminate Eo; cbn [market_perform] in H;
    try (injection H as _ <- <-; by left).
  - right. exists (CoReserve cid est). cbn [run_city]. destruct (ReserveConsumerQuota cid est m) as [[r m1]|err]; by injection H as _ <- <-.
  - right. exists (CoRelease r). by injection H as _ <- <-.
  - right. exists (CoRecordReserved r cid pid dn (nd_now nd) (nd_fault nd)). cbn [run_city].
    destruct (RecordReserved r cid pid dn (nd_now nd) (nd_fault nd) m d) as [[e m1] d1]. by injection H as _ <- <-.
Qed.

Lemma sys_step_op s page sy l sy' :
  sys_step obliging s page sy l sy' -> w_market (sy_world sy') = w_market (sy_world sy)
  \/ exists op, run_city op (w_market (sy_world sy)) = w_market (sy_world sy').
Proof.
  destruct 1 as [|ps1 o k ps2 w nd x w' Hx _| |ps w w' Hw]; [by left| |by left|by left]. cbn [sy_world].
  destruct o as [o|o|o|o|o]; [left; by apply (exec_other _ _ _ _ _ _ Hx)| |left; by apply (exec_other _ _ _ _ _ _ Hx)..].
  destruct (exec_market _ _ _ _ _ _ Hx) as (m & d & m' & d' & -> & Hp & ->).
  apply perform_op in Hp as [[-> ->]|[op Hop]]; [by left|right]. by exists op.
Qed.

(** The abstract machine stands still or makes one step. *)
Definition advances (b b' : Durable) : Prop := b = b' \/ exists l, durable_step b l b'.

Lemma moves_advance b b' sv sv' : moves b b' -> sv' = sv \/ sv' = bg_used b' ->
  advances {| db_budget := b; db_saved := sv |} {| db_budget := b'; db_saved := sv' |}.
Proof.
  intros [->|[l Hl]] Hs; [|right; exists (DMove l); by constructor]. destruct Hs as [->| ->]; [by left|right]. exists DSave. constructor.
Qed.

(** A process that starts again: what was saved is used, within the limit and the overruns so far. *)
Lemma restart_ok over cfg legacy ps w m w' :
  with_store cfg -> life_ok over cfg legacy {| sy_pool := ps; sy_world := w |} ->
  New cfg legacy None (snd (w_market w)) = Ok m -> w_market w' = (m, snd (w_market w)) ->
  life_ok over cfg legacy {| sy_pool := []; sy_world := w' |}.
Proof.
  unfold life_ok, sy_market, sy_disk. cbn [sy_world]. intros Hcfg [Hok Hd] Hn Hw. rewrite Hw. cbn [fst snd].
  destruct (durable_restart _ _ _ _ _ Hcfg Hd Hn) as (Hd' & Hlim & Hres & Hused). split; [|done].
  pose proof Hok as (sts & _ & Hq). pose proof (qk_limits _ _ Hq) as K. cbn [qs_market sy_market sy_world] in K.
  exists []. split; [constructor|]. unfold sy_market, held_open. cbn [sy_world]. rewrite Hw. cbn [fst snd].
  apply quota_begin_ok. split; [done|]. split; [done|]. split; [by apply Hq|]. cbn [qs_market]. split.
  - intros a c Hc.
    assert (Hm : limits (fst (w_market w)) !! a = Some (cn_TotalTokenLimit c)) by (rewrite <- Hlim; unfold limits; by rewrite lookup_fmap, Hc).
    unfold limits in Hm. rewrite lookup_fmap in Hm. destruct (m_consumers (fst (w_market w)) !! a) as [c0|] eqn:E0; [|done].
    injection Hm as Hm. rewrite <- Hm. by eapply K.
  - intros a limit Ha. destruct Hd' as [_ _ (ml & Hl & _ & Hx)]. destruct (New_limits _ _ _ _ Hn) as (ml' & Hl' & _ & Hsu).
    assert (ml' = ml) as -> by congruence. destruct (Hx a limit Ha) as [He _].
    assert (Ha0 : limited (fst (w_market w)) a limit) by (apply limited_limits; apply limited_limits in Ha; by rewrite <- Hlim).
    rewrite Hused. pose proof (durable_saved _ _ _ _ _ _ Hd Ha0).
    pose proof (sys_ok_safe _ _ _ a limit 0 Hok Ha0) as Hsafe. unfold sy_market, budget in Hsafe. simpl in Hsafe.
    pose proof (qk_sum _ _ Hq a limit Ha0) as Hsum. pose proof (held_by_nonneg a _ (quota_open_pos _ _ Hq)) as Hnn.
    unfold sy_market in Hsum, Hnn. simpl in Hsum, Hnn. split; [lia|]. split; [lia|]. intros u Hu. apply He. by rewrite <- (su_consumers _ _ Hsu).
Qed.

Lemma life_step_ok over s page cfg legacy sy l sy' :
  with_store cfg -> life_ok over cfg legacy sy -> life_step s page cfg legacy sy l sy' ->
  life_ok (fun a => over a + life_step_overrun a l) cfg legacy sy'
  /\ forall a limit o, limited (sy_market sy) a limit ->
       limited (sy_market sy') a limit
       /\ advances (account cfg sy a limit o) (account cfg sy' a limit (o + life_step_overrun a l))
       /\ (obliging = true -> life_step_overrun a l = 0).
Proof.
  intros Hcfg Hlife Hl. pose proof Hlife as [Hok Hd]. destruct Hl as [sy l sy' Hs|ps w m w' Hn Hw].
  - destruct (sys_step_ok _ _ _ _ _ _ _ Hok Hs) as [Hok' Heff].
    assert (H : durable cfg legacy (sy_market sy') (sy_disk sy')
      /\ (saved cfg (sy_disk sy') = saved cfg (sy_disk sy) \/ forall a, saved cfg (sy_disk sy') a = used (sy_market sy') a)).
    { unfold sy_market, sy_disk in *. destruct (sys_step_op _ _ _ _ _ Hs) as [Hw|[op Hop]]; [rewrite Hw; by split; [|left]|].
      eapply (durable_op cfg legacy op); [exact Hd|by rewrite <- !surjective_pairing| |].
      - intros a limit. by eapply (sys_exact _ sy' a limit Hok').
      - intros a limit Ha. destruct (Heff a limit 0 Ha) as (_ & Hm & _). by apply moves_grow in Hm. }
    destruct H as [Hd' Hsv]. split; [done|]. intros a limit o Ha. destruct (Heff a limit o Ha) as (Ha' & Hm & Hz).
    split; [done|]. split; [|done]. apply moves_advance; [done|]. destruct Hsv as [->|Hsv]; [by left|right]. apply Hsv.
  - pose proof (restart_ok _ _ _ _ _ _ _ Hcfg Hlife Hn Hw) as [Hok' Hd']. unfold sy_disk, sy_market in Hd. cbn [sy_world] in Hd.
    destruct (durable_restart _ _ _ _ _ Hcfg Hd Hn) as (_ & Hlim & Hres & Hused).
    split; [split; [|done]; eapply sys_ok_over; [|exact Hok']; intros a; simpl; lia|].
    unfold account, sy_market, sy_disk. cbn [sy_world life_step_overrun]. rewrite Hw. cbn [fst snd].
    intros a limit o Ha. split; [apply limited_limits; apply limited_limits in Ha; by rewrite Hlim|]. split; [|done].
    right. exists DCrash. rewrite Z.add_0_r. unfold budget. rewrite Hused, Hres. unfold map_get. rewrite lookup_empty. constructor.
Qed.

Lemma life_ok_over over over' cfg legacy sy : (forall a, over a = over' a) -> life_ok over cfg legacy sy -> life_ok over' cfg legacy sy.
Proof. intros He [Hok Hd]. split; [by eapply sys_ok_over|done]. Qed.

Lemma life_start cfg legacy w :
  with_store cfg -> disk_ok (snd (w_market w)) -> New cfg legacy None (snd (w_market w)) = Ok (fst (w_market w)) -> market_start w ->
  life_ok (fun _ => 0) cfg legacy (sys_start w).
Proof.
  intros Hcfg Hdisk Hn Hw. split; [exists []; split; [by constructor|by apply quota_start_ok]|].
  destruct (New_limits _ _ _ _ Hn) as (ml & Hld & Hlim & Hsu). split.
  - split; [by eapply New_market_ok|done].
  - eapply stores_in_same; [apply (su_db _ _ Hsu)|apply (su_path _ _ Hsu)|by eapply loadStores_in].
  - exists ml. split; [done|]. split; [done|]. intros b lb Hb. unfold exact_at, used. rewrite <- (su_consumers _ _ Hsu). split; [|done].
    destruct Hw as (_ & _ & _ & Hw). by destruct (Hw b lb Hb).
Qed.

(** C1: the budgets over the whole life of the service.  Let requests,
    administration and nodes interleave as in [coordinator_keeps_budgets], any write of the store fail, and
    let the process die at any call and start again on its store, any number of times.  Then every step
    moves each limited account as one step of the abstract machine with a durable part: what is used and held
    together is at most the limit and the total by which recordings ever went past their
    reservations, and never exceeds the limit if clients and nodes are [obliging] (they keep to the limits, which
    the code does not enforce); what is saved never exceeds what is used, and is what
    the next process finds used; and a recording that is answered without an error is saved with all
    that was used before it.  Assumed of the calls, as there ([calm]): no 64-bit sum of a limited account
    wraps, and accounts are created with a 64-bit limit under fresh names other than "local". *)
Theorem durable_budgets s page cfg legacy w d tr sy a limit :
  with_store cfg -> disk_ok d -> New cfg legacy None d = Ok (fst (w_market w)) -> snd (w_market w) = d ->
  market_start w -> steps (life_step s page cfg legacy) (sys_start w) tr sy -> limited (fst (w_market w)) a limit ->
  let over := life_overrun a tr in
  let b := account cfg sy a limit over in
  (exists btr, steps durable_step (account cfg (sys_start w) a limit 0) btr b)
  /\ 0 <= db_saved b <= bg_used (db_budget b) /\ 0 <= bg_held (db_budget b)
  /\ bg_used (db_budget b) + bg_held (db_budget b) <= limit + over
  /\ (obliging = true -> bg_used (db_budget b) + bg_held (db_budget b) <= limit)
  /\ (forall m', New cfg legacy None (sy_disk sy) = Ok m' -> used m' a = db_saved b /\ limited m' a limit)
  /\ forall r cid pid done nd m' d',
       market_perform (RecordReserved' r cid pid done) nd (sy_market sy, sy_disk sy) = Some (None, (m', d')) ->
       saved cfg d' a = used m' a.
Proof.
  intros Hcfg Hdisk Hn Hd Hw Hs Hl over b. subst d.
  assert (H : life_ok (fun a => life_overrun a tr) cfg legacy sy /\ limited (sy_market sy) a limit /\ (obliging = true -> over = 0)
    /\ exists btr, steps durable_step (account cfg (sys_start w) a limit 0) btr b).
  { subst over b. pose proof (life_start _ _ _ Hcfg Hdisk Hn Hw) as H0.
    remember (sys_start w) as sy0 eqn:E0. induction Hs as [sy0|sy0 tr1 sy1 l sy2 _ IH Hstep]; subst.
    - split; [done|]. split; [done|]. split; [done|]. by eexists; constructor.
    - destruct (IH eq_refl H0) as (Hok & Hl1 & Ho & btr & Hb). destruct (life_step_ok _ _ _ _ _ _ _ _ Hcfg Hok Hstep) as [Hok2 Heff].
      split; [by eapply life_ok_over; [|exact Hok2]; intros c; by rewrite life_overrun_snoc|].
      rewrite life_overrun_snoc. destruct (Heff _ _ (life_overrun a tr1) Hl1) as (Hl2 & Hm & Hz). split; [done|].
      split; [intros Hob; rewrite Ho, Hz by done; done|]. destruct Hm as [Heq|[bl Hbl]].
      + exists btr. by rewrite <- Heq.
      + exists (btr ++ [bl]). by econstructor. }
  destruct H as ([Hok Hdur] & Hl2 & Hz & Hbtr). split; [done|].
  pose proof (sys_ok_safe _ _ _ a limit over Hok Hl2) as (Hu & Hh & Hsum & _). pose proof (durable_saved _ _ _ _ _ _ Hdur Hl2) as Hsv.
  split; [exact Hsv|]. split; [exact Hh|]. split; [exact Hsum|].
  split; [intros Hob; specialize (Hz Hob); fold over in Hsum; rewrite Hz in Hsum; simpl in *; lia|]. split.
  - intros m' Hm'. destruct (durable_restart _ _ _ _ _ Hcfg Hdur Hm') as (_ & Hlim & _ & Hused). split; [apply Hused|].
    apply limited_limits. apply limited_limits in Hl2. by rewrite Hlim.
  - intros r cid pid done nd m' d' Hp. cbn [market_perform] in Hp.
    destruct (RecordReserved r cid pid done (nd_now nd) (nd_fault nd) (sy_market sy) (sy_disk sy)) as [[e m1] d1] eqn:Er.
    injection Hp as -> <- <-. by eapply record_saved.
Qed.

End Life.

(** ** A life *)

Lemma life_steps ob s page cfg legacy sy tr sy' :
  steps (sys_step ob s page) sy tr sy' -> steps (life_step ob s page cfg legacy) sy (LStep <$> tr) sy'.
Proof. induction 1 as [|sy tr sy1 l sy2 _ IH Hl]; [constructor|]. rewrite fmap_app. eapply steps_snoc; [exact IH|by constructor]. Qed.

(** A chat is served and charged six tokens; then the process dies and starts again. *)
Definition demo_served : World := match demo_after 10 with Some (_, w) => w | None => demo_world end.

Definition demo_restarted : World :=
  match New demo_city [] None (snd (w_market demo_served)) with
  | Ok m => {| w_registry := (NewRegistry, []); w_market := (m, snd (w_market demo_served)); w_settlement := w_settlement demo_served;
               w_challenges := w_challenges demo_served; w_server := w_server demo_served |}
  | Err _ => demo_served
  end.

Lemma demo_life :
  exists tr, steps (life_step true demo_server "" demo_city []) (sys_start demo_world) tr {| sy_pool := []; sy_world := demo_restarted |}.
Proof.
  assert (H : exists p, demo_after 10 = Some (p, demo_served)).
  { unfold demo_served. destruct (demo_after 10) as [[p w]|] eqn:E; [by exists p|].
    assert (Hs : match demo_after 10 with Some _ => true | None => false end = true) by (vm_compute; reflexivity).
    by rewrite E in Hs. }
  destruct H as [p H]. destruct (drive_steps _ _ "" [] _ _ _ _ _ H) as [tr Htr].
  exists ((LStep <$> ([LStart (PostChatCompletions demo_body true)] ++ tr)) ++ [LCrash]). eapply steps_snoc.
  - apply life_steps. eapply steps_app; [|exact Htr].
    apply (steps_snoc _ _ [] (sys_start demo_world)); [constructor|]. apply sy_start. intros _. vm_compute. by split.
  - assert (Hn : is_ok (New demo_city [] None (snd (w_market demo_served))) = true) by (vm_compute; reflexivity).
    destruct (New demo_city [] None (snd (w_market demo_served))) as [m|e] eqn:E; [|done].
    apply (lf_crash _ _ _ _ _ _ _ m); [exact E|]. unfold demo_restarted. by rewrite E.
Qed.

Lemma demo_disk_ok : disk_ok blank_disk.
Proof. exact (proj2 (city_reachable_ok _ demo_market_reachable)). Qed.

Lemma durable_budgets_witness :
  let b := account demo_city {| sy_pool := []; sy_world := demo_restarted |} "studio" 100 0 in
  db_saved b = 6 /\ 0 <= db_saved b <= bg_used (db_budget b) /\ bg_used (db_budget b) + bg_held (db_budget b) <= 100.
Proof.
  cbv zeta. split; [vm_compute; reflexivity|]. destruct demo_life as [tr Hs].
  assert (Hstore : with_store demo_city) by (left; discriminate).
  assert (Hn : New demo_city [] None blank_disk = Ok (fst (w_market demo_world))) by exact demo_market_new.
  assert (Hd : snd (w_market demo_world) = blank_disk) by reflexivity.
  pose proof (durable_budgets true demo_server "" demo_city [] demo_world blank_disk tr _ "studio" 100 Hstore demo_disk_ok Hn Hd demo_quota_start Hs demo_limited) as H.
  exact (conj (proj1 (proj2 H)) (proj1 (proj2 (proj2 (proj2 (proj2 H)))) eq_refl)).
Defined.
