(* ===== verification/Js.v ===== *)
(** * What the dashboard's script uses of JavaScript

    The administration page of [coordinator/cmd/coordinator/dashboard.go] carries a script.
    This file has the parts of the language it uses: strings of UTF-16 code units, numbers as
    binary64 with their texts ([String], [toFixed], [Math.round], [Math.min]), [||] on numbers
    and strings, [encodeURIComponent], and the browser's locale: the formats of [Intl], whose
    texts the standard leaves to the implementation, are the operations of a class. *)

From S2P Require Import Prelude GoString GoSort GoFloat GoFormat.

(** ** Strings *)

Definition JsString := list Z.

#[export] Instance JsString_eq_dec : EqDecision JsString.
Proof. unfold JsString. apply _. Defined.

Definition js_eqb (s t : JsString) : bool := bool_decide (s = t).

(** A code point as UTF-16. *)
Definition utf16 (r : Z) : JsString :=
  if r <? 65536 then [r] else [55296 + (r - 65536) / 1024; 56320 + (r - 65536) mod 1024].

(** A Go string as the script has it once the server has written it as JSON and the browser has
    parsed it: its runes, an invalid byte being U+FFFD. *)
Definition js (s : string) : JsString := flat_map utf16 (runes s).

(** A string constant of the script; its double quotes are written as apostrophes here. *)
Definition lit (s : string) : JsString := (fun b => if b =? 39 then 34 else b) <$> bytes s.
#[global] Arguments lit : simpl never.

(** [a || b] on strings. *)
Definition js_or (a b : JsString) : JsString := match a with [] => b | _ => a end.

(** [l.filter(Boolean)] on strings. *)
Definition nonempty (l : list JsString) : list JsString := filter (fun s => s <> []) l.

(** [l.join(sep)]. *)
Fixpoint js_join (sep : JsString) (l : list JsString) : JsString :=
  match l with
  | [] => []
  | [s] => s
  | s :: l => s ++ sep ++ js_join sep l
  end.

(** [s.slice(-n)]. *)
Definition slice_end (n : nat) (s : JsString) : JsString := drop (length s - n) s.

(** [s.includes(t)]. *)
Fixpoint js_includes (s t : JsString) : bool :=
  bool_decide (t `prefix_of` s) || match s with [] => false | _ :: s => js_includes s t end.

(** ** Numbers *)

(** A JSON integer as a number. *)
Definition num (z : Z) : float := float_of_Z z.

Definition js_truthy (f : float) : bool := negb (is_nan f) && negb (PrimFloat.eqb f 0).

(** [n || 0]. *)
Definition or0 (f : float) : float := if js_truthy f then f else f0.

(** [Math.min] and [Math.max], but for the sign of a zero, which no text shows. *)
Definition js_min (a b : float) : float := if is_nan a then a else if is_nan b then b else if flt b a then b else a.
Definition js_max (a b : float) : float := if is_nan a then a else if is_nan b then b else if flt a b then b else a.

(** [Math.round]: the nearest integer, a tie upwards. *)
Definition js_round (f : float) : float :=
  match Prim2SF f with
  | S754_finite s m e =>
      if 0 <=? e then f
      else
        let v := if s then Z.neg m else Z.pos m in
        num ((2 * v + 2 ^ (- e)) / (2 * 2 ^ (- e)))
  | _ => f
  end.

(** [String(n)]: the shortest decimal that reads back as [n], with an exponent when it is
    very large or very small. *)
Definition number_text (f : float) : JsString :=
  match Prim2SF f with
  | S754_nan => bytes "NaN"
  | S754_infinity s => signed s (bytes "Infinity")
  | S754_zero _ => [48]
  | S754_finite sign m e =>
      let '(v, lo, hi, d) := rounding_interval (Z.pos m) e in
      let '(q, s) := shortest 700 309 v lo hi d (Z.even (Z.pos m)) in
      let ds := digits_from 320 q [] in
      let n := Z.of_nat (length ds) + s in
      signed sign
        (if (-6 <? n) && (n <=? 21) then decimal_bytes q s
         else take 1 ds ++ (if (1 <? length ds)%nat then 46 :: drop 1 ds else [])
              ++ [101] ++ (if 0 <=? n - 1 then [43] else []) ++ itoa_bytes (n - 1))
  end.

(** [n.toFixed(k)] for [k > 0]: the nearest decimal, a tie away from zero. *)
Definition to_fixed (k : Z) (f : float) : JsString :=
  match Prim2SF f with
  | S754_zero _ => decimal_bytes 0 (- k)
  | S754_finite sign m e =>
      let '(n, d) := if 0 <=? e then (Z.pos m * 2 ^ e, 1) else (Z.pos m, 2 ^ (- e)) in
      if 10 ^ 21 * d <=? n then number_text f
      else signed sign (decimal_bytes ((2 * (n * 10 ^ k) + d) / (2 * d)) (- k))
  | _ => number_text f
  end.

(** The text of an integer. *)
Definition int_text (z : Z) : JsString := number_text (num z).

Example number_texts :
  number_text (num 0) = bytes "0" /\ number_text (num (-1234)) = bytes "-1234"
  /\ number_text (num (10 ^ 21)) = bytes "1e+21" /\ number_text (num (2 ^ 53 + 1)) = bytes "9007199254740992"
  /\ number_text (fdiv (num 1) (num 10000000)) = bytes "1e-7" /\ number_text (fdiv (num 5) (num 4)) = bytes "1.25"
  /\ number_text (num (15 * 10 ^ 22)) = bytes "1.5e+23".
Proof. vm_compute. split_and!; reflexivity. Qed.

Example to_fixed_texts :
  to_fixed 2 (fdiv (num 1) (num 8)) = bytes "0.13" /\ to_fixed 1 (num 0) = bytes "0.0"
  /\ to_fixed 2 (fdiv (num (-1)) (num 1000)) = bytes "-0.00" /\ to_fixed 1 (fdiv (num 9975) (num 100)) = bytes "99.8".
Proof. vm_compute. split_and!; reflexivity. Qed.

Example js_rounds :
  js_round (fdiv (num 5) (num 2)) = num 3 /\ js_round (fdiv (num (-5)) (num 2)) = num (-2)
  /\ js_round (fdiv (num 7) (num 3)) = num 2 /\ js_round (num 7) = num 7.
Proof. vm_compute. split_and!; reflexivity. Qed.

(** ** [encodeURIComponent] *)

(** The characters it leaves alone: letters, digits and [-_.!~*'()]. *)
Definition uri_unreserved (c : Z) : bool :=
  ((65 <=? c) && (c <=? 90)) || ((97 <=? c) && (c <=? 122)) || ((48 <=? c) && (c <=? 57))
  || (c =? 45) || (c =? 95) || (c =? 46) || (c =? 33) || (c =? 126) || ((39 <=? c) && (c <=? 42)).

Definition hex_upper (d : Z) : Z := if d <? 10 then 48 + d else 55 + d.
Definition percent (b : Z) : list Z := [37; hex_upper (b / 16); hex_upper (b mod 16)].
Definition percents (r : Z) : list Z := flat_map percent (encode_rune r).

(** An unpaired surrogate is a [URIError]. *)
Fixpoint encodeURIComponent (s : JsString) : option JsString :=
  match s with
  | [] => Some []
  | c :: t =>
      if uri_unreserved c then (fun r => c :: r) <$> encodeURIComponent t
      else if (56320 <=? c) && (c <=? 57343) then None
      else if (55296 <=? c) && (c <=? 56319) then
        match t with
        | d :: t' =>
            if (56320 <=? d) && (d <=? 57343)
            then (fun r => percents ((c - 55296) * 1024 + (d - 56320) + 65536) ++ r) <$> encodeURIComponent t'
            else None
        | [] => None
        end
      else (fun r => percents c ++ r) <$> encodeURIComponent t
  end.

Example encode_example :
  encodeURIComponent (js "a b/é.?") = Some (bytes "a%20b%2F%C3%A9.%3F").
Proof. vm_compute. reflexivity. Qed.

(** ** The browser *)

(** The formats of [Intl.NumberFormat] the script makes, the dates, and the clock. *)
Class Browser := {
  fmt_format : float -> JsString;            (* Intl.NumberFormat(undefined) *)
  moneyFmt_format : float -> JsString;       (* ... style currency *)
  compactFmt_format : float -> JsString;     (* ... notation compact *)
  date_getTime : JsString -> float;          (* new Date(value).getTime(), NaN when it is not a date *)
  date_toLocaleDateString : JsString -> JsString;
  date_toLocaleString : JsString -> JsString;
  date_now : float;                          (* Date.now() *)
  now_toLocaleTimeString : JsString;         (* new Date().toLocaleTimeString() *)
}.

(** The characters that are not markup in text. *)
Definition plain (c : Z) : Prop := c <> 60 /\ c <> 38.

#[export] Instance plain_dec c : Decision (plain c).
Proof. unfold plain. apply _. Defined.

(** A formatted number or date is digits, signs, separators and words. *)
Class BrowserLaws (B : Browser) := {
  fmt_plain f : Forall plain (fmt_format f);
  moneyFmt_plain f : Forall plain (moneyFmt_format f);
  compactFmt_plain f : Forall plain (compactFmt_format f);
  dateString_plain v : Forall plain (date_toLocaleDateString v);
  localeString_plain v : Forall plain (date_toLocaleString v);
}.

(** ** Lemmas *)

(** A number is written without markup and without quotes. *)
Definition number_char (c : Z) : Prop := 43 <= c <= 46 \/ 48 <= c <= 57 \/ 65 <= c <= 90 \/ 97 <= c <= 122.

#[export] Instance number_char_dec c : Decision (number_char c).
Proof. unfold number_char. apply _. Defined.

Definition number_like (l : JsString) : Prop := Forall number_char l.

#[export] Instance number_like_dec l : Decision (number_like l).
Proof. unfold number_like. apply _. Defined.

Lemma digits_like fuel z acc : 0 <= z -> number_like acc -> number_like (digits_from fuel z acc).
Proof.
  revert z acc. induction fuel as [|n IH]; intros z acc Hz Ha; [done|]. simpl. destruct (z <? 10) eqn:E; bsimpl.
  - constructor; [unfold number_char; lia|done].
  - apply IH; [apply Z.div_pos; lia|]. constructor; [|done]. pose proof (Z.mod_pos_bound z 10). unfold number_char. lia.
Qed.

Lemma decimal_like q s : 0 <= q -> number_like (decimal_bytes q s).
Proof.
  intros Hq. assert (Hd : number_like (digits_from 320 q [])) by (apply digits_like; [done|constructor]).
  assert (Hz : forall n, number_like (zeros n)) by (intros n; apply Forall_replicate; unfold number_char; lia).
  unfold decimal_bytes. destruct (0 <=? s); [apply Forall_app_2; [done|apply Hz]|].
  set (ds := zeros _ ++ _). assert (number_like ds) by (apply Forall_app_2; [apply Hz|done]).
  apply Forall_app. split; [by apply Forall_take|]. constructor; [unfold number_char; lia|]. by apply Forall_drop.
Qed.

Lemma signed_like s l : number_like l -> number_like (signed s l).
Proof. destruct s; [|done]. intros H. constructor; [unfold number_char; lia|done]. Qed.

Lemma itoa_like z : number_like (itoa_bytes z).
Proof.
  unfold itoa_bytes. destruct (z <? 0) eqn:E; bsimpl.
  - constructor; [unfold number_char; lia|]. apply digits_like; [lia|constructor].
  - apply digits_like; [lia|constructor].
Qed.

Lemma rounding_positive m e v lo hi d : rounding_interval (Z.pos m) e = (v, lo, hi, d) -> 0 <= v /\ 0 < d.
Proof.
  unfold rounding_interval. destruct (2 <=? e) eqn:E; bsimpl; injection 1 as <- _ _ <-.
  - split; [|lia]. apply Z.mul_nonneg_nonneg; [lia|]. apply Z.pow_nonneg. lia.
  - split; [lia|]. apply Z.pow_pos_nonneg; lia.
Qed.

Lemma number_text_like f : number_like (number_text f).
Proof.
  unfold number_text. destruct (Prim2SF f) as [s|s| |sign m e];
    [apply (bool_decide_unpack _); done|apply (bool_decide_unpack _); by destruct s|apply (bool_decide_unpack _); done|].
  destruct (rounding_interval (Z.pos m) e) as [[[v lo] hi] d] eqn:Er. apply rounding_positive in Er as [Hv Hd].
  pose proof (shortest_nonneg 700 309 v lo hi d (Z.even (Z.pos m)) Hv Hd) as Hq.
  destruct (shortest _ _ _ _ _ _ _) as [q s]. cbn [fst] in Hq.
  assert (Hds : number_like (digits_from 320 q [])) by (apply digits_like; [done|constructor]).
  apply signed_like. destruct (_ && _); [by apply decimal_like|]. revert Hds. generalize (digits_from 320 q []). intros ds Hds.
  apply Forall_app_2; [by apply Forall_take|]. apply Forall_app_2.
  { destruct (1 <? _)%nat; [|constructor]. apply Forall_cons. split; [unfold number_char; lia|]. by apply Forall_drop. }
  apply Forall_app_2; [by apply (bool_decide_unpack _)|]. apply Forall_app_2; [|apply itoa_like].
  destruct (0 <=? _); by apply (bool_decide_unpack _).
Qed.

Lemma to_fixed_like k f : 0 <= k -> number_like (to_fixed k f).
Proof.
  intros Hk. pose proof (number_text_like f) as Hn. unfold to_fixed. destruct (Prim2SF f) as [s|s| |sign m e]; try done.
  { by apply decimal_like. }
  destruct (if 0 <=? e then _ else _) as [n d] eqn:E.
  assert (Hnd : 0 <= n /\ 0 < d).
  { destruct (0 <=? e) eqn:Ee; bsimpl; injection E as <- <-.
    - split; [|lia]. apply Z.mul_nonneg_nonneg; [lia|]. apply Z.pow_nonneg. lia.
    - split; [lia|]. apply Z.pow_pos_nonneg; lia. }
  destruct (_ <=? n); [done|]. apply signed_like, decimal_like, Z.div_pos; [|lia].
  assert (0 <= n * 10 ^ k); [|lia]. apply Z.mul_nonneg_nonneg; [lia|]. apply Z.pow_nonneg. lia.
Qed.

Lemma number_like_plain l : number_like l -> Forall plain l.
Proof. intros H. apply (Forall_impl _ _ _ H). unfold number_char, plain. lia. Qed.
