(* ===== verification/JsNumber.v ===== *)
(** * JavaScript numbers as text, both ways: [Number(s)] and [String(n)]

    [js_Number] is the conversion of a string to a number, decimals correctly rounded.  The safe
    integers, those below [2^53], are written as their decimal digits ([number_text_safe]) and a
    text of digits is read as the number it names ([js_Number_digits]). *)

From Stdlib Require Import ZifyBool.
From S2P Require Import Prelude GoString GoSort GoFloat GoFormat Json JsonDecode JsonRoundTrip Js.

(** ** [Number(s)] *)

(** White space and line terminators. *)
Definition js_space (c : Z) : bool :=
  ((9 <=? c) && (c <=? 13)) || (c =? 32) || (c =? 160) || (c =? 5760) || ((8192 <=? c) && (c <=? 8202))
  || (c =? 8232) || (c =? 8233) || (c =? 8239) || (c =? 8287) || (c =? 12288) || (c =? 65279).

Fixpoint trim_left (s : JsString) : JsString :=
  match s with c :: t => if js_space c then trim_left t else s | [] => [] end.

(** [s.trim()]. *)
Definition js_trim (s : JsString) : JsString := rev (trim_left (rev (trim_left s))).

(** [m * 10^e], correctly rounded. *)
Definition decimal_float (m e : Z) : float :=
  if 0 <=? e then num (m * 10 ^ e)
  else SF2Prim match m, 10 ^ (- e) with
  | Z.pos m, Z.pos d => SpecFloat.SFdiv FloatOps.prec FloatOps.emax (S754_finite false m 0) (S754_finite false d 0)
  | _, _ => S754_zero false
  end.

(** An exponent: the digits after an [e] and a sign. *)
Definition exponent (l : JsString) : option Z :=
  match l with
  | [] => Some 0
  | b :: l =>
      if (b =? 101) || (b =? 69) then
        let '(negative, ds) := match l with c :: l' => if c =? 45 then (true, l') else if c =? 43 then (false, l') else (false, l) | [] => (false, []) end in
        if forallb is_dig ds && bool_decide (ds <> [])
        then Some (if negative then - digits_value 0 ds else digits_value 0 ds) else None
      else None
  end.

(** Digits with a point among them, at least one digit, and an exponent. *)
Definition unsigned_decimal (l : JsString) : option float :=
  if js_eqb l (lit "Infinity") then Some (SF2Prim (S754_infinity false))
  else
    let '(whole, l) := span_digits l in
    let '(part, l) := match l with b :: l' => if b =? 46 then span_digits l' else ([], l) | [] => ([], []) end in
    match whole ++ part, exponent l with
    | [], _ | _, None => None
    | ds, Some e => Some (decimal_float (digits_value 0 ds) (e - Z.of_nat (length part)))
    end.

(** The digits of another base. *)
Definition radix_digit (base c : Z) : option Z :=
  if is_hex c && (hex_value c <? base) then Some (hex_value c) else None.

Definition radix_number (base : Z) (l : JsString) : option float :=
  match l with
  | [] => None
  | _ => (fun ds => num (fold_left (fun acc d => base * acc + d) ds 0)) <$> mapM (radix_digit base) l
  end.

(** [Number(s)], NaN when it is not one. *)
Definition js_Number (s : JsString) : float :=
  let s := js_trim s in
  default (SF2Prim S754_nan)
    match s with
    | [] => Some f0
    | b :: l =>
        if b =? 45 then PrimFloat.opp <$> unsigned_decimal l
        else if b =? 43 then unsigned_decimal l
        else if b =? 48 then
          match l with
          | c :: l =>
              if (c =? 120) || (c =? 88) then radix_number 16 l
              else if (c =? 111) || (c =? 79) then radix_number 8 l
              else if (c =? 98) || (c =? 66) then radix_number 2 l
              else unsigned_decimal s
          | [] => unsigned_decimal s
          end
        else unsigned_decimal s
    end.

Example js_numbers :
  number_text (js_Number (lit " 1000000 ")) = bytes "1000000" /\ number_text (js_Number (lit "1e3")) = bytes "1000"
  /\ number_text (js_Number (lit "-.5")) = bytes "-0.5" /\ number_text (js_Number (lit "0.1")) = bytes "0.1"
  /\ number_text (js_Number (lit "0x10")) = bytes "16" /\ number_text (js_Number (lit "1 2")) = bytes "NaN"
  /\ number_text (js_Number (lit "9007199254740993")) = bytes "9007199254740992"
  /\ number_text (js_Number []) = bytes "0" /\ number_text (js_Number (lit "1e-400")) = bytes "0".
Proof. vm_compute. split_and!; reflexivity. Qed.

(** ** The safe integers *)

Lemma iter_double p d : Z.pos (Pos.iter xO p d) = Z.pos p * 2 ^ Z.pos d
  /\ Z.pos (SpecFloat.digits2_pos (Pos.iter xO p d)) = Z.pos (SpecFloat.digits2_pos p) + Z.pos d.
Proof.
  induction d as [|d [IH1 IH2]] using Pos.peano_ind; [cbn; lia|]. rewrite Pos.iter_succ. split.
  - rewrite Pos2Z.inj_succ, Z.pow_succ_r by lia. change (Z.pos (Pos.iter xO p d)~0) with (2 * Z.pos (Pos.iter xO p d)). lia.
  - cbn [SpecFloat.digits2_pos]. lia.
Qed.

Lemma digits_bounds m : 2 ^ (Z.pos (SpecFloat.digits2_pos m) - 1) <= Z.pos m < 2 ^ Z.pos (SpecFloat.digits2_pos m).
Proof.
  induction m as [m IH|m IH|]; cbn [SpecFloat.digits2_pos]; [| |done].
  all: rewrite !Pos2Z.inj_succ; replace (Z.succ (Z.pos (SpecFloat.digits2_pos m)) - 1) with (Z.succ (Z.pos (SpecFloat.digits2_pos m) - 1)) by lia;
    rewrite !Z.pow_succ_r by lia; lia.
Qed.

(** A safe integer is the float with that value. *)
Lemma num_parts z : 0 < z < 2 ^ 53 ->
  exists m e, Prim2SF (num z) = S754_finite false m e /\ -52 <= e <= 0 /\ Z.pos m = z * 2 ^ (- e).
Proof.
  intros Hz. destruct z as [|p|p]; try lia. pose proof (digits_bounds p) as Hb.
  set (n := Z.pos (SpecFloat.digits2_pos p)) in *.
  assert (Hn : 1 <= n <= 53).
  { split; [lia|]. destruct (decide (n <= 53)) as [|H]; [done|]. assert (2 ^ 53 <= 2 ^ (n - 1)) by (apply Z.pow_le_mono_r; lia). lia. }
  assert (Hf : forall m e, Z.pos (SpecFloat.digits2_pos m) = 53 -> e = n - 53 ->
    SpecFloat.fexp 53 1024 (Z.pos (SpecFloat.digits2_pos m) + e) = e) by (intros m e -> ->; unfold SpecFloat.fexp, SpecFloat.emin; lia).
  assert (Ha : exists m, SpecFloat.shl_align p 0 (SpecFloat.fexp 53 1024 (n + 0)) = (m, n - 53)
      /\ Z.pos (SpecFloat.digits2_pos m) = 53 /\ Z.pos m = Z.pos p * 2 ^ (53 - n)).
  { unfold SpecFloat.shl_align, SpecFloat.fexp, SpecFloat.emin. replace (Z.max (n + 0 - 53) (3 - 1024 - 53) - 0) with (n - 53) by lia.
    replace (Z.max (n + 0 - 53) (3 - 1024 - 53)) with (n - 53) by lia.
    destruct (n - 53) as [|d|d] eqn:E; [exists p; replace (53 - n) with 0 by lia; split_and!; [done|subst n; lia|lia]|lia|].
    exists (Pos.iter xO p d). destruct (iter_double p d) as [-> ->]. replace (53 - n) with (Z.pos d) by lia. split_and!; [done|lia|done]. }
  destruct Ha as (m & Ha & Hd & Hm). exists m, (n - 53). replace (- (n - 53)) with (53 - n) by lia. split_and!; [|lia..|done].
  assert (Hs : SpecFloat.shr_fexp 53 1024 (Z.pos m) (n - 53) SpecFloat.loc_Exact = (SpecFloat.Build_shr_record (Z.pos m) false false, n - 53)).
  { unfold SpecFloat.shr_fexp. cbn [SpecFloat.Zdigits2]. rewrite Hf by done. by rewrite Z.sub_diag. }
  assert (Hr : SpecFloat.binary_normalize 53 1024 (Z.pos p) 0 false = S754_finite false m (n - 53)).
  { cbn [SpecFloat.binary_normalize]. unfold SpecFloat.binary_round. fold n. rewrite Ha.
    unfold SpecFloat.binary_round_aux. rewrite Hs. cbn [SpecFloat.shr_m SpecFloat.loc_of_shr_record SpecFloat.round_nearest_even].
    rewrite Hs. cbn [SpecFloat.shr_m]. by replace (n - 53 <=? 1024 - 53) with true by lia. }
  unfold num, float_of_Z. change FloatOps.prec with 53. change FloatOps.emax with 1024. rewrite Hr.
  apply FloatAxioms.Prim2SF_SF2Prim. cbn [SpecFloat.valid_binary]. unfold SpecFloat.bounded, SpecFloat.canonical_mantissa.
  change FloatOps.prec with 53. change FloatOps.emax with 1024. rewrite Hf by done. lia.
Qed.

(** Around an integer [z] only multiples of the power of ten that [z] is one of are near enough. *)
Lemma decimal_at_integer s z d lo hi closed : 0 <= s -> 0 < z -> 4 <= d -> z * d - 2 <= lo < z * d -> z * d < hi <= z * d + 2 ->
  decimal_at s (z * d) lo hi d closed = if z mod 10 ^ s =? 0 then Some (z / 10 ^ s) else None.
Proof.
  intros Hs Hz Hd Hlo Hhi. unfold decimal_at. replace (0 <=? s) with true by lia. set (t := 10 ^ s).
  assert (Ht : 0 < t) by (apply Z.pow_pos_nonneg; lia).
  assert (Hq : z * d / (d * t) = z / t) by (rewrite (Z.mul_comm z d); apply Z.div_mul_cancel_l; lia).
  rewrite Hq. set (q := z / t). set (r := z mod t). assert (Hzq : z = t * q + r) by (subst q r; apply Z.div_mod; lia).
  assert (Hr : 0 <= r < t) by (apply Z.mod_pos_bound; lia). assert (Hq0 : 0 <= q) by (apply Z.div_pos; lia).
  assert (Habove : hi < (q + 1) * (d * t)) by nia.
  destruct (r =? 0) eqn:Er.
  - assert (z * d = q * (d * t)) by nia. assert (0 < q) by nia.
    replace ((if closed then (lo <=? q * (d * t)) && (q * (d * t) <=? hi) else (lo <? q * (d * t)) && (q * (d * t) <? hi))) with true by (destruct closed; lia).
    replace ((if closed then (lo <=? (q + 1) * (d * t)) && ((q + 1) * (d * t) <=? hi) else (lo <? (q + 1) * (d * t)) && ((q + 1) * (d * t) <? hi))) with false
      by (destruct closed; lia).
    by replace (0 <? q) with true by lia.
  - assert (q * (d * t) < lo) by nia.
    replace ((if closed then (lo <=? q * (d * t)) && (q * (d * t) <=? hi) else (lo <? q * (d * t)) && (q * (d * t) <? hi))) with false by (destruct closed; lia).
    replace ((if closed then (lo <=? (q + 1) * (d * t)) && ((q + 1) * (d * t) <=? hi) else (lo <? (q + 1) * (d * t)) && ((q + 1) * (d * t) <? hi))) with false
      by (destruct closed; lia).
    by rewrite !andb_false_r.
Qed.

Lemma shortest_integer z d lo hi closed : 0 < z -> 4 <= d -> z * d - 2 <= lo < z * d -> z * d < hi <= z * d + 2 ->
  forall n s, 0 <= s < Z.of_nat n ->
  exists q s', shortest n s (z * d) lo hi d closed = (q, s') /\ 0 <= s' <= s /\ 0 < q /\ q * 10 ^ s' = z.
Proof.
  intros Hz Hd Hlo Hhi n. induction n as [|n IH]; intros s Hs; [lia|]. cbn [shortest]. rewrite decimal_at_integer by (done || lia).
  assert (Ht : 0 < 10 ^ s) by (apply Z.pow_pos_nonneg; lia). pose proof (Z.div_mod z (10 ^ s) ltac:(lia)).
  destruct (z mod 10 ^ s =? 0) eqn:E.
  - exists (z / 10 ^ s), s. split_and!; [done|lia|lia|nia|nia].
  - assert (s <> 0) by (intros ->; rewrite Z.pow_0_r, Z.mod_1_r in E; done).
    destruct (IH (s - 1) ltac:(lia)) as (q & s' & H1 & H2 & H3 & H4). exists q, s'. split_and!; [done|lia..|done|done].
Qed.

(** The digits of a number, by as many units of fuel as it takes. *)
Lemma digits_acc fuel z acc : digits_from fuel z acc = digits_from fuel z [] ++ acc.
Proof.
  revert z acc. induction fuel as [|n IH]; intros z acc; [done|]. cbn [digits_from]. destruct (z <? 10); [done|].
  rewrite (IH _ (_ :: acc)), (IH _ [_]). by rewrite <- app_assoc.
Qed.

Lemma digits_fuel f g z : 0 < z < 10 ^ Z.of_nat f -> z < 10 ^ Z.of_nat g -> digits_from f z [] = digits_from g z [].
Proof.
  revert g z. induction f as [|f IH]; intros g z Hf Hg; [simpl in Hf; lia|]. destruct g as [|g]; [simpl in Hg; lia|].
  rewrite Nat2Z.inj_succ, Z.pow_succ_r in Hf, Hg by lia. cbn [digits_from]. destruct (z <? 10) eqn:E; [done|].
  rewrite (digits_acc f), (digits_acc g). f_equal. apply IH; dlia.
Qed.

Lemma digits_times f q s : 0 < q -> digits_from (f + s) (q * 10 ^ Z.of_nat s) [] = digits_from f q [] ++ zeros (Z.of_nat s).
Proof.
  intros Hq. induction s as [|s IH].
  - rewrite Nat.add_0_r. change (10 ^ Z.of_nat 0) with 1. by rewrite Z.mul_1_r, app_nil_r.
  - rewrite Nat.add_succ_r. cbn [digits_from]. rewrite Nat2Z.inj_succ, Z.pow_succ_r by lia.
    assert (0 < 10 ^ Z.of_nat s) by (apply Z.pow_pos_nonneg; lia).
    replace (q * (10 * 10 ^ Z.of_nat s)) with (q * 10 ^ Z.of_nat s * 10) by lia.
    replace (q * 10 ^ Z.of_nat s * 10 <? 10) with false by nia. rewrite Z.div_mul, Z.mod_mul, digits_acc, IH by lia.
    rewrite <- app_assoc. f_equal. unfold zeros. rewrite <- Nat2Z.inj_succ, !Nat2Z.id. symmetry. apply replicate_cons_app.
Qed.

Lemma digits_length fuel z : (length (digits_from fuel z []) <= fuel)%nat.
Proof.
  revert z. induction fuel as [|n IH]; intros z; [done|]. cbn [digits_from]. destruct (z <? 10); [simpl; lia|].
  rewrite digits_acc, length_app. simpl. specialize (IH (z / 10)). lia.
Qed.

(** [String(n)] of a safe integer is its digits. *)
Lemma number_text_safe z : 0 <= z < 2 ^ 53 -> number_text (num z) = json_int z.
Proof.
  intros Hz. destruct (decide (z = 0)) as [->|Hz0]; [vm_compute; reflexivity|].
  destruct (num_parts z ltac:(lia)) as (m & e & Hf & He & Hm). unfold number_text. rewrite Hf.
  unfold rounding_interval. replace (2 <=? e) with false by lia.
  set (lo := if _ && _ then _ else _). set (d := 2 ^ (2 - e)).
  assert (Hd : d = 4 * 2 ^ (- e)) by (subst d; replace (2 - e) with (2 + - e) by lia; rewrite Z.pow_add_r by lia; lia).
  assert (H2 : 0 < 2 ^ (- e)) by (apply Z.pow_pos_nonneg; lia).
  replace (4 * Z.pos m) with (z * d) in * by nia.
  destruct (shortest_integer z d lo (z * d + 2) (Z.even (Z.pos m))) with (n := 700%nat) (s := 309) as (q & s & Hsh & Hs & Hq & Hqs);
    [lia|lia|subst lo; case_match; lia|lia|lia|].
  rewrite Hsh. clear Hsh lo Hf. assert (Ht : 0 < 10 ^ s) by (apply Z.pow_pos_nonneg; lia).
  assert (Hs20 : s < 16). { destruct (decide (s < 16)) as [|H]; [done|]. assert (10 ^ 16 <= 10 ^ s) by (apply Z.pow_le_mono_r; lia). nia. }
  assert (Hdig : digits_from 20 z [] = digits_from 320 q [] ++ zeros s).
  { rewrite <- Hqs. replace 20%nat with ((20 - Z.to_nat s) + Z.to_nat s)%nat by lia.
    replace (10 ^ s) with (10 ^ Z.of_nat (Z.to_nat s)) by (f_equal; lia). rewrite digits_times by done.
    replace (Z.of_nat (Z.to_nat s)) with s by lia. f_equal. apply digits_fuel.
    - split; [done|]. replace (Z.of_nat (20 - Z.to_nat s)) with (20 - s) by lia.
      assert (10 ^ (20 - s) * 10 ^ s = 10 ^ 20) by (rewrite <- Z.pow_add_r by lia; f_equal; lia). assert (0 < 10 ^ (20 - s)) by (apply Z.pow_pos_nonneg; lia). nia.
    - assert (q <= z) by nia. apply (Z.lt_le_trans _ (10 ^ 16)); [lia|]. apply Z.pow_le_mono_r; lia. }
  pose proof (digits_length 20 z) as Hl. rewrite Hdig, length_app in Hl. unfold zeros in Hl at 1. rewrite length_replicate in Hl.
  replace (_ && _) with true by lia.
  unfold signed, decimal_bytes. replace (0 <=? s) with true by lia. unfold json_int. by rewrite itoa_bytes_pos, Hdig by lia.
Qed.

(** [Number(s)] of digits. *)
Lemma trim_left_none l : Forall (fun c => js_space c = false) l -> trim_left l = l.
Proof. induction 1 as [|c l Hc _ _]; [done|]. cbn [trim_left]. by rewrite Hc. Qed.

Lemma js_trim_none l : Forall (fun c => js_space c = false) l -> js_trim l = l.
Proof.
  intros H. unfold js_trim. rewrite (trim_left_none l H), trim_left_none; [apply rev_involutive|].
  apply Forall_forall. intros c Hc. apply list_elem_of_In, in_rev, list_elem_of_In in Hc. rewrite Forall_forall in H. by apply H.
Qed.

Lemma js_Number_digits ds : ds <> [] -> forallb is_dig ds = true -> js_Number ds = num (digits_value 0 ds).
Proof.
  intros Hne Hd. assert (Ht : js_trim ds = ds).
  { apply js_trim_none, Forall_forall. intros c Hc. rewrite forallb_forall in Hd. apply list_elem_of_In, Hd in Hc.
    unfold is_dig in Hc. unfold js_space. lia. }
  assert (Hu : unsigned_decimal ds = Some (num (digits_value 0 ds))).
  { unfold unsigned_decimal. destruct ds as [|b ds]; [done|]. assert (Hb : is_dig b = true) by (cbn in Hd; lia).
    replace (js_eqb (b :: ds) (lit "Infinity")) with false by (symmetry; apply bool_decide_eq_false_2; intros H; assert (Hx : head (lit "Infinity") = Some 73) by reflexivity; rewrite <- H in Hx; by injection Hx as ->).
    pose proof (span_digits_app (b :: ds) [] Hd I) as Hs. rewrite app_nil_r in Hs. rewrite Hs. cbn [app exponent]. rewrite app_nil_r. cbn [length]. unfold decimal_float. cbn [Z.of_nat]. change (10 ^ (0 - 0)) with 1. by rewrite Z.mul_1_r. }
  unfold js_Number. rewrite Ht. destruct ds as [|b ds]; [done|]. cbn [forallb] in Hd. apply andb_true_iff in Hd as [Hb Hd].
  assert (Hc : (b =? 45) = false /\ (b =? 43) = false) by (unfold is_dig in Hb; lia). destruct Hc as [Hc1 Hc2].
  rewrite Hc1, Hc2, Hu. destruct (b =? 48); [|done]. destruct ds as [|c ds]; [done|].
  cbn [forallb] in Hd. apply andb_true_iff in Hd as [Hc _]. unfold is_dig in Hc.
  replace ((c =? 120) || (c =? 88)) with false by lia. replace ((c =? 111) || (c =? 79)) with false by lia.
  by replace ((c =? 98) || (c =? 66)) with false by lia.
Qed.
