(* ===== verification/JsJson.v ===== *)
(** * JSON between the dashboard's script and the coordinator

    [JSON.stringify] of the objects the script sends, as the UTF-8 bytes that [fetch] puts in the
    body, and [JSON.parse] of the texts that come back.  The coordinator's decoder
    reads a stringified object member by member: each string as the UTF-8 of the script's string
    ([string_set]) and each safe integer as itself ([number_set]).  The coordinator writes no escaped surrogate, so a
    string it sends is one of well-formed UTF-16 for the script. *)

From Stdlib Require Import ZifyBool.
From S2P Require Import Prelude GoString GoSort GoFloat GoFormat Json JsonDecode JsonRoundTrip JsonTree Js.
From S2P Require Import JsNumber.

(** ** Strings as UTF-8 *)

Definition high_surrogate (c : Z) : bool := (55296 <=? c) && (c <=? 56319).
Definition is_low_surrogate (c : Z) : bool := (56320 <=? c) && (c <=? 57343).

(** The code points of a string; an unpaired surrogate is one by itself. *)
Fixpoint code_points (s : JsString) : list Z :=
  match s with
  | [] => []
  | c :: t =>
      if high_surrogate c then
        match t with
        | d :: t' =>
            if is_low_surrogate d then ((c - 55296) * 1024 + (d - 56320) + 65536) :: code_points t' else c :: code_points t
        | [] => [c]
        end
      else c :: code_points t
  end.

Definition scalar (r : Z) : Prop := 0 <= r <= 1114111 /\ ~ 55296 <= r <= 57343.

#[export] Instance scalar_dec r : Decision (scalar r).
Proof. unfold scalar. apply _. Defined.

(** [s.isWellFormed()]. *)
Definition well_formed (s : JsString) : Prop := Forall scalar (code_points s).

#[export] Instance well_formed_dec s : Decision (well_formed s).
Proof. unfold well_formed. apply _. Defined.

(** The text the coordinator gets of a string; an unpaired surrogate is U+FFFD. *)
Definition go_text (s : JsString) : string := of_bytes (flat_map encode_rune (code_points s)).

(** ** [JSON.stringify] *)

Definition hex4 (r : Z) : list Z :=
  (fun d => byte_val (hex_digit d)) <$> [r / 4096; r / 256 mod 16; r / 16 mod 16; r mod 16].

(** A code point between the quotes, in UTF-8. *)
Definition js_escape (r : Z) : list Z :=
  if (r =? 34) || (r =? 92) then [92; r]
  else if r =? 8 then [92; 98]
  else if r =? 12 then [92; 102]
  else if r =? 10 then [92; 110]
  else if r =? 13 then [92; 114]
  else if r =? 9 then [92; 116]
  else if (r <? 32) || high_surrogate r || is_low_surrogate r then [92; 117] ++ hex4 r
  else encode_rune r.

Definition js_raw (s : JsString) : list Z := flat_map js_escape (code_points s).

(** The values of the objects the script sends. *)
Inductive JsValue :=
| VString (s : JsString)
| VNumber (n : float).

(** A number that is not finite is [null]. *)
Definition js_tree (v : JsValue) : json :=
  match v with
  | VString s => JString (js_raw s)
  | VNumber n => match Prim2SF n with S754_nan | S754_infinity _ => JNull | _ => JNumber (number_text n) end
  end.

Definition js_object : Type := list (string * JsValue).

(** [JSON.stringify] of an object whose members' names need no escape. *)
Definition stringify (o : js_object) : list Z := write false 0 (JObject ((fun m => (bytes m.1, js_tree m.2)) <$> o)).

(** ** [JSON.parse] *)

(** A string of a text the coordinator wrote. *)
Definition js_string (raw : list Z) : JsString := js (unquote raw).

(** [data.key] of an object, the last of its members with the name. *)
Definition js_member (key : string) (j : json) : option json :=
  match j with
  | JObject members => snd <$> find (fun m => js_eqb (js_string m.1) (js key)) (rev members)
  | _ => None
  end.

(** [data.key] where it is a string that is not empty. *)
Definition js_text_member (key : string) (j : json) : JsString :=
  match js_member key j with Some (JString raw) => js_string raw | _ => [] end.

(** ** What the coordinator reads *)

Lemma decode_encode r : scalar r -> 128 <= r -> decode_rune (encode_rune r) = (r, length (encode_rune r)) /\ (2 <= length (encode_rune r))%nat.
Proof.
  intros [Hr Hs] Hlo. unfold encode_rune. replace ((0 <=? r) && (r <? 128)) with false by lia.
  destruct ((128 <=? r) && (r <? 2048)) eqn:E2; [|replace ((r <? 0) || (1114111 <? r) || ((55296 <=? r) && (r <=? 57343))) with false by lia;
    destruct (r <? 65536) eqn:E3]; (split; [|simpl; lia]); unfold decode_rune, first_class, is_cont.
  - assert ((192 + r / 64 <? 128) = false) as -> by dlia. assert (((194 <=? 192 + r / 64) && (192 + r / 64 <=? 223)) = true) as -> by dlia.
    assert ((128 <=? 128 + r mod 64) && (128 + r mod 64 <=? 191) = true) as -> by dlia. simpl. masks. f_equal. dlia.
  - assert ((224 + r / 4096 <? 128) = false) as -> by dlia.
    assert (Hb : forall lo hi, lo <= 128 + r / 64 mod 64 <= hi -> (lo <=? 128 + r / 64 mod 64) && (128 + r / 64 mod 64 <=? hi)
      && ((128 <=? 128 + r mod 64) && (128 + r mod 64 <=? 191)) = true) by dlia.
    assert ((194 <=? 224 + r / 4096) && (224 + r / 4096 <=? 223) = false) as -> by dlia.
    destruct (224 + r / 4096 =? 224) eqn:F1; [rewrite Hb by dlia; simpl; masks; f_equal; dlia|].
    destruct (224 + r / 4096 =? 237) eqn:F2; [rewrite Hb by dlia; simpl; masks; f_equal; dlia|].
    assert ((225 <=? 224 + r / 4096) && (224 + r / 4096 <=? 239) = true) as -> by dlia. rewrite Hb by dlia. simpl. masks. f_equal. dlia.
  - assert ((240 + r / 262144 <? 128) = false) as -> by dlia.
    assert (Hb : forall lo hi, lo <= 128 + r / 4096 mod 64 <= hi -> (lo <=? 128 + r / 4096 mod 64) && (128 + r / 4096 mod 64 <=? hi)
      && ((128 <=? 128 + r / 64 mod 64) && (128 + r / 64 mod 64 <=? 191)) && ((128 <=? 128 + r mod 64) && (128 + r mod 64 <=? 191)) = true) by dlia.
    assert ((194 <=? 240 + r / 262144) && (240 + r / 262144 <=? 223) = false) as -> by dlia.
    assert ((240 + r / 262144 =? 224) = false) as -> by dlia. assert ((240 + r / 262144 =? 237) = false) as -> by dlia.
    assert ((225 <=? 240 + r / 262144) && (240 + r / 262144 <=? 239) = false) as -> by dlia.
    destruct (240 + r / 262144 =? 240) eqn:F1; [rewrite Hb by dlia; simpl; masks; f_equal; dlia|].
    destruct ((241 <=? 240 + r / 262144) && (240 + r / 262144 <=? 243)) eqn:F2; [rewrite Hb by dlia; simpl; masks; f_equal; dlia|].
    assert ((240 + r / 262144 =? 244) = true) as -> by dlia. rewrite Hb by dlia. simpl. masks. f_equal. dlia.
Qed.

Lemma encode_range r : scalar r -> Forall (fun b => 0 <= b < 256) (encode_rune r).
Proof. intros [Hr Hs]. unfold encode_rune. repeat case_goal; repeat (apply Forall_cons; split); try apply Forall_nil_2; dlia. Qed.

(** A scalar value and its bytes. *)
Lemma scalar_stable r : scalar r -> stable (r, encode_rune r).
Proof.
  intros Hr. destruct (decide (r < 128)) as [Hlow|Hhigh].
  - unfold encode_rune. destruct Hr as [Hr Hs]. replace ((0 <=? r) && (r <? 128)) with true by lia. apply stable_low. lia.
  - destruct (decode_encode r Hr ltac:(lia)) as [Hd Hl].
    pose proof (stable_high _ _ _ (encode_range r Hr) Hd Hl) as Hs. by rewrite firstn_all in Hs.
Qed.

Lemma js_readable r : scalar r -> readable (js_escape r) (encode_rune r).
Proof.
  intros Hr. pose proof (scalar_stable r Hr) as Hs. destruct Hr as [Hr Hsur].
  assert (Hlow : r < 128 -> encode_rune r = [r]) by (intros H; unfold encode_rune; by replace ((0 <=? r) && (r <? 128)) with true by lia).
  assert (Hshort : forall c, r < 128 -> is_esc c = true -> c <> 117 -> unescape c = r -> readable [92; c] (encode_rune r))
    by (intros; rewrite Hlow by done; by apply readable_short).
  unfold js_escape. destruct ((r =? 34) || (r =? 92)) eqn:E1.
  { apply Hshort; [lia|unfold is_esc; lia|lia|]. unfold unescape. repeat (rewrite (proj2 (Z.eqb_neq r _)) by lia). done. }
  destruct (r =? 8) eqn:E2; [apply Hshort; [lia|done|lia|unfold unescape; simpl; lia]|].
  destruct (r =? 12) eqn:E3; [apply Hshort; [lia|done|lia|unfold unescape; simpl; lia]|].
  destruct (r =? 10) eqn:E4; [apply Hshort; [lia|done|lia|unfold unescape; simpl; lia]|].
  destruct (r =? 13) eqn:E5; [apply Hshort; [lia|done|lia|unfold unescape; simpl; lia]|].
  destruct (r =? 9) eqn:E6; [apply Hshort; [lia|done|lia|unfold unescape; simpl; lia]|].
  replace (high_surrogate r) with false by (unfold high_surrogate; lia).
  replace (is_low_surrogate r) with false by (unfold is_low_surrogate; lia). rewrite !orb_false_r.
  destruct (r <? 32) eqn:E7.
  - destruct (is_hex_nibble (r / 4096) ltac:(dlia)) as [X1 V1], (is_hex_nibble (r / 256 mod 16) ltac:(dlia)) as [X2 V2],
      (is_hex_nibble (r / 16 mod 16) ltac:(dlia)) as [X3 V3], (is_hex_nibble (r mod 16) ltac:(dlia)) as [X4 V4].
    unfold hex4. cbn [fmap list_fmap app]. apply readable_u4; [by rewrite X1, X2, X3, X4|rewrite V1, V2, V3, V4; dlia|lia].
  - destruct (decide (r < 128)); [rewrite Hlow by done; apply readable_plain; lia|apply (readable_high r); [done|lia]].
Qed.

Lemma js_raw_read points : Forall scalar points ->
  raw_ok (flat_map js_escape points) /\ unquote_from 0 (flat_map js_escape points) = flat_map encode_rune points.
Proof.
  induction 1 as [|r points Hr _ [IH1 IH2]]; [split; [by intros rest|done]|]. cbn [flat_map].
  pose proof (js_readable r Hr) as Hs. split; [|by rewrite (unquote_from_readable _ _ _ Hs), IH2].
  intros rest. destruct Hs as [Hscan _]. by rewrite <- app_assoc, Hscan, IH1.
Qed.

(** The coordinator reads the UTF-8 of the string. *)
Lemma js_raw_ok s : well_formed s -> raw_ok (js_raw s) /\ unquote (js_raw s) = go_text s.
Proof. intros H. destruct (js_raw_read _ H) as [H1 H2]. split; [done|]. unfold unquote, js_raw. by rewrite H2. Qed.

(** *** Objects *)

Definition value_ok (v : JsValue) : Prop :=
  match v with VString s => well_formed s | VNumber n => exists z, n = num z /\ 0 <= z < 2 ^ 53 end.

(** What the coordinator's setters get of a value. *)
Lemma safe_tree z : 0 <= z < 2 ^ 53 -> js_tree (VNumber (num z)) = int_tree z.
Proof.
  intros Hz. cbn [js_tree]. rewrite number_text_safe by done. destruct (decide (z = 0)) as [->|Hz0]; [vm_compute; reflexivity|].
  destruct (num_parts z ltac:(lia)) as (m & e & -> & _). done.
Qed.

Lemma value_writable d v : value_ok v -> writable d (js_tree v).
Proof.
  destruct v as [s|n]; [intros H; constructor; by apply js_raw_ok|]. intros (z & -> & Hz). rewrite safe_tree by done. apply natural_writable. lia.
Qed.

Lemma stringify_writable o : Forall (fun m => raw_ok (bytes m.1) /\ value_ok m.2) o ->
  writable max_depth (JObject ((fun m => (bytes m.1, js_tree m.2)) <$> o)).
Proof.
  intros H. constructor; [done|]. apply Forall_fmap. eapply Forall_impl; [exact H|]. intros [n v] [Hn Hv]. split; [done|]. by apply value_writable.
Qed.

Lemma string_set {S} (set : string -> S -> S) s x : well_formed s -> as_string set (js_tree (VString s)) x = Some (set (go_text s) x).
Proof. intros H. cbn [js_tree as_string]. by destruct (js_raw_ok s H) as [_ ->]. Qed.

Lemma number_set {S} (set : Z -> S -> S) z x : 0 <= z < 2 ^ 53 -> as_int set (js_tree (VNumber (num z))) x = Some (set z x).
Proof. intros H. rewrite safe_tree by done. cbn [as_int int_tree]. rewrite parse_json_int; [done|]. unfold in_int64, min_int64, max_int64. lia. Qed.

(** A name of letters and underscores is written as it is. *)
Lemma name_ok name : Forall (fun b => 32 <= b < 128 /\ b <> 34 /\ b <> 92) (bytes name) -> raw_ok (bytes name).
Proof.
  intros H rest. induction H as [|b l (Hb & H1 & H2) _ IH]; [done|]. cbn [app]. rewrite scan_plain by lia. by rewrite IH.
Qed.
