(* ===== verification/Html.v ===== *)
(** * Reading HTML: what a browser makes of the text given to [innerHTML]

    [step] is the tokenizer of the HTML standard on the part of the language the dashboard's
    script writes: start and end tags in lower case with double-quoted or empty attributes, the
    five character references of [esc], and text.  Whatever leaves that part (comments, unquoted
    values, other references, elements whose content is raw text such as [script]) is [Bad], and
    [Bad] is never left, so a text the reader accepts is read as a browser reads it.  [parse]
    builds the tree, [read_html] does both.  A page's safety is stated on the tree: [node_ok]
    lists the elements, their nesting and the attributes the page may have. *)

From S2P Require Import Prelude GoString GoSort GoFloat GoFormat Js.

Inductive Token :=
| Char (c : Z)
| Open (tag : JsString) (attrs : list (JsString * JsString))
| Close (tag : JsString).

(** The state of the tokenizer, with what it has collected of the current tag. *)
Inductive Lexer :=
| Data
| Ref (ref : JsString)
| TagOpen
| TagName (tag : JsString)
| EndTagOpen
| EndTagName (tag : JsString)
| BeforeAttr (tag : JsString) (attrs : list (JsString * JsString))
| AttrName (tag : JsString) (attrs : list (JsString * JsString)) (name : JsString)
| BeforeValue (tag : JsString) (attrs : list (JsString * JsString)) (name : JsString)
| Value (tag : JsString) (attrs : list (JsString * JsString)) (name value : JsString)
| ValueRef (tag : JsString) (attrs : list (JsString * JsString)) (name value ref : JsString)
| AfterValue (tag : JsString) (attrs : list (JsString * JsString))
| Bad.

Definition is_lower (c : Z) : bool := (97 <=? c) && (c <=? 122).
Definition name_char (c : Z) : bool := is_lower c || ((48 <=? c) && (c <=? 57)) || (c =? 45).

(** The character references. *)
Definition char_ref (name : JsString) : option Z :=
  if js_eqb name (bytes "amp") then Some 38
  else if js_eqb name (bytes "lt") then Some 60
  else if js_eqb name (bytes "gt") then Some 62
  else if js_eqb name (bytes "quot") then Some 34
  else if js_eqb name (bytes "#39") then Some 39
  else None.

(** The elements whose content is not read as markup. *)
Definition raw_text : list JsString :=
  bytes <$> ["script"; "style"; "textarea"; "title"; "xmp"; "iframe"; "noembed"; "noframes"; "noscript"; "plaintext"].

Definition emit (tag : JsString) (attrs : list (JsString * JsString)) : Lexer * list Token :=
  if bool_decide (tag ∈ raw_text) then (Bad, []) else (Data, [Open tag attrs]).

(** An attribute is complete; a second one of the same name would be dropped. *)
Definition push (attrs : list (JsString * JsString)) (name value : JsString) : option (list (JsString * JsString)) :=
  if bool_decide (name ∈ attrs.*1) then None else Some (attrs ++ [(name, value)]).

Definition with_attr (attrs : list (JsString * JsString)) (name value : JsString)
    (k : list (JsString * JsString) -> Lexer * list Token) : Lexer * list Token :=
  match push attrs name value with Some attrs => k attrs | None => (Bad, []) end.

(** One character. *)
Definition step (s : Lexer) (c : Z) : Lexer * list Token :=
  match s with
  | Data => if c =? 60 then (TagOpen, []) else if c =? 38 then (Ref [], []) else (Data, [Char c])
  | Ref ref =>
      if c =? 59 then match char_ref ref with Some d => (Data, [Char d]) | None => (Bad, []) end
      else (Ref (ref ++ [c]), [])
  | TagOpen => if c =? 47 then (EndTagOpen, []) else if is_lower c then (TagName [c], []) else (Bad, [])
  | TagName tag =>
      if c =? 32 then (BeforeAttr tag [], [])
      else if c =? 62 then emit tag []
      else if name_char c then (TagName (tag ++ [c]), []) else (Bad, [])
  | EndTagOpen => if is_lower c then (EndTagName [c], []) else (Bad, [])
  | EndTagName tag =>
      if c =? 62 then (Data, [Close tag])
      else if name_char c then (EndTagName (tag ++ [c]), []) else (Bad, [])
  | BeforeAttr tag attrs =>
      if c =? 32 then (BeforeAttr tag attrs, [])
      else if c =? 62 then emit tag attrs
      else if is_lower c then (AttrName tag attrs [c], []) else (Bad, [])
  | AttrName tag attrs name =>
      if c =? 61 then (BeforeValue tag attrs name, [])
      else if c =? 32 then with_attr attrs name [] (fun attrs => (BeforeAttr tag attrs, []))
      else if c =? 62 then with_attr attrs name [] (emit tag)
      else if name_char c then (AttrName tag attrs (name ++ [c]), []) else (Bad, [])
  | BeforeValue tag attrs name => if c =? 34 then (Value tag attrs name [], []) else (Bad, [])
  | Value tag attrs name value =>
      if c =? 34 then with_attr attrs name value (fun attrs => (AfterValue tag attrs, []))
      else if c =? 38 then (ValueRef tag attrs name value [], [])
      else (Value tag attrs name (value ++ [c]), [])
  | ValueRef tag attrs name value ref =>
      if c =? 59 then match char_ref ref with Some d => (Value tag attrs name (value ++ [d]), []) | None => (Bad, []) end
      else (ValueRef tag attrs name value (ref ++ [c]), [])
  | AfterValue tag attrs =>
      if c =? 32 then (BeforeAttr tag attrs, []) else if c =? 62 then emit tag attrs else (Bad, [])
  | Bad => (Bad, [])
  end.

Fixpoint lex (s : Lexer) (h : JsString) : Lexer * list Token :=
  match h with
  | [] => (s, [])
  | c :: h => let '(s, ts) := step s c in let '(s, us) := lex s h in (s, ts ++ us)
  end.

(** ** Trees *)

Inductive Html :=
| Text (c : Z)
| Elem (tag : JsString) (attrs : list (JsString * JsString)) (children : list Html).

(** The element without an end tag. *)
Definition br : JsString := bytes "br".

(** The children read so far, and the open elements around them. *)
Fixpoint parse (stack : list (JsString * list (JsString * JsString) * list Html)) (cur : list Html) (ts : list Token)
    : option (list Html) :=
  match ts with
  | [] => match stack with [] => Some cur | _ => None end
  | Char c :: ts => parse stack (cur ++ [Text c]) ts
  | Open tag attrs :: ts =>
      if js_eqb tag br then parse stack (cur ++ [Elem tag attrs []]) ts else parse ((tag, attrs, cur) :: stack) [] ts
  | Close tag :: ts =>
      match stack with
      | (tag', attrs, outer) :: stack =>
          if js_eqb tag tag' then parse stack (outer ++ [Elem tag attrs cur]) ts else None
      | [] => None
      end
  end.

Definition read_html (h : JsString) : option (list Html) :=
  match lex Data h with (Data, ts) => parse [] [] ts | _ => None end.

(** The text of a tree, without its markup. *)
Fixpoint text_of (n : Html) : JsString :=
  match n with
  | Text c => [c]
  | Elem _ _ children => flat_map text_of children
  end.

(** [getAttribute]. *)
Definition attr (attrs : list (JsString * JsString)) (name : string) : option JsString :=
  (fun p => p.2.2) <$> list_find (fun p => p.1 = bytes name) attrs.

(** The buttons of a tree, by their attributes. *)
Fixpoint buttons_of (n : Html) : list (list (JsString * JsString)) :=
  match n with
  | Text _ => []
  | Elem tag attrs children =>
      (if js_eqb tag (bytes "button") then [attrs] else []) ++ flat_map buttons_of children
  end.

(** The rows of a table's body: the texts of their cells. *)
Definition cells_of (n : Html) : list JsString :=
  match n with Text _ => [] | Elem _ _ children => text_of <$> children end.

(** ** What the page may contain *)

(** Which element may be in which: the rows of a table's body, their cells, and in a cell or a
    panel blocks with text, spans, line breaks and buttons. *)
Definition fits (parent child : JsString) : bool :=
  if js_eqb parent (bytes "tbody") then js_eqb child (bytes "tr")
  else if js_eqb parent (bytes "tr") then js_eqb child (bytes "td")
  else if js_eqb parent (bytes "td") || js_eqb parent (bytes "div")
    then bool_decide (child ∈ bytes <$> ["div"; "span"; "br"; "button"])
  else false.

Definition takes_text (parent : JsString) : bool := bool_decide (parent ∈ bytes <$> ["td"; "div"; "span"; "button"]).

(** The classes of the page's style sheet that the script uses. *)
Definition classes : list JsString :=
  bytes <$> [""; "kv"; "k"; "stack"; "strong"; "mono"; "muted"; "mono muted"; "pill good"; "pill warn"; "pill bad";
    "chips"; "chip"; "progress"; "good"; "warn"; "bad"; "empty"; "action-buttons"; "danger"].

Definition actions : list JsString :=
  bytes <$> ["rotate-consumer"; "disable-consumer"; "rotate-provider"; "disable-provider"; "run-challenge"].

(** No attribute that runs a script, loads anything or leads anywhere; the value of the account
    attributes may be any text. *)
Definition attr_ok (a : JsString * JsString) : Prop :=
  let '(name, value) := a in
  (name = bytes "class" /\ value ∈ classes)
  \/ (name = bytes "style" /\ exists n : JsString, value = bytes "width:" ++ n ++ [37] /\ number_like n)
  \/ (name = bytes "data-action" /\ value ∈ actions)
  \/ (name = bytes "type" /\ value = bytes "button")
  \/ (name = bytes "id" /\ value = bytes "copyAnchorHash")
  \/ (name = bytes "colspan" /\ number_like value)
  \/ (name = bytes "disabled" /\ value = [])
  \/ name = bytes "data-consumer-id" \/ name = bytes "data-provider-id".

Inductive node_ok (parent : JsString) : Html -> Prop :=
| text_ok c : takes_text parent = true -> node_ok parent (Text c)
| elem_ok tag attrs children :
    fits parent tag = true -> Forall attr_ok attrs -> (tag = br -> children = []) ->
    Forall (node_ok tag) children -> node_ok parent (Elem tag attrs children).

(** ** Lexing piece by piece *)

Lemma lex_app s h1 h2 :
  lex s (h1 ++ h2) = (let '(s1, t1) := lex s h1 in let '(s2, t2) := lex s1 h2 in (s2, t1 ++ t2)).
Proof.
  revert s. induction h1 as [|c h1 IH]; intros s; cbn [app lex]; [by destruct (lex s h2)|].
  destruct (step s c) as [s1 t1]. rewrite IH. destruct (lex s1 h1) as [s2 t2], (lex s2 h2) as [s3 t3].
  by rewrite app_assoc.
Qed.

Lemma lex_cons s c h : lex s (c :: h) = (let '(s1, t1) := step s c in let '(s2, t2) := lex s1 h in (s2, t1 ++ t2)).
Proof. done. Qed.

(** One piece after another, when the first is known. *)
Lemma lex_then s h1 h2 s1 t1 s2 t2 :
  lex s h1 = (s1, t1) -> lex s1 h2 = (s2, t2) -> lex s (h1 ++ h2) = (s2, t1 ++ t2).
Proof. intros H1 H2. by rewrite lex_app, H1, H2. Qed.

Lemma lex_text l : Forall plain l -> lex Data l = (Data, Char <$> l).
Proof.
  induction 1 as [|c l [H1 H2] _ IH]; [done|]. rewrite lex_cons. unfold step.
  rewrite (proj2 (Z.eqb_neq c 60) H1), (proj2 (Z.eqb_neq c 38) H2), IH. done.
Qed.

(** The tokens of a tree. *)
Fixpoint tokens (n : Html) : list Token :=
  match n with
  | Text c => [Char c]
  | Elem tag attrs children => Open tag attrs :: (if js_eqb tag br then [] else flat_map tokens children ++ [Close tag])
  end.

Lemma parse_tokens n p stack cur ts : node_ok p n -> parse stack cur (tokens n ++ ts) = parse stack (cur ++ [n]) ts.
Proof.
  revert n p stack cur ts. fix IH 1. intros [c|tag attrs children] p stack cur ts Hok; [done|].
  inversion Hok as [|? ? ? _ _ Hbr Hch]; subst. cbn [tokens app parse].
  destruct (js_eqb tag br) eqn:E; [apply bool_decide_eq_true in E; by rewrite Hbr|]. clear Hok Hbr.
  rewrite <- app_assoc.
  enough (Hf : forall inner, parse ((tag, attrs, cur) :: stack) inner (flat_map tokens children ++ [Close tag] ++ ts)
    = parse ((tag, attrs, cur) :: stack) (inner ++ children) ([Close tag] ++ ts)).
  { rewrite Hf. cbn. unfold js_eqb. by rewrite bool_decide_eq_true_2. }
  clear E. induction children as [|n children IHc]; intros inner; cbn [flat_map]; [by rewrite app_nil_r|].
  apply Forall_cons in Hch as [Hn Hch]. rewrite <- app_assoc, (IH _ _ _ _ _ Hn), (IHc Hch). by rewrite <- app_assoc.
Qed.

Lemma parse_forest f p cur : Forall (node_ok p) f -> parse [] cur (flat_map tokens f) = Some (cur ++ f).
Proof.
  intros H. revert cur. induction H as [|n f Hn _ IH]; intros cur; cbn [flat_map]; [by rewrite app_nil_r|].
  by rewrite (parse_tokens _ p), IH, <- app_assoc.
Qed.

(** ** The judgement [piece]

    [piece p h txt btns]: the text [h] reads as nodes that may be in a [p], with the text [txt]
    and the buttons [btns]. *)

Definition shows (h : JsString) (f : list Html) : Prop := lex Data h = (Data, flat_map tokens f).

Definition piece (p : JsString) (h txt : JsString) (btns : list (list (JsString * JsString))) : Prop :=
  exists f, shows h f /\ Forall (node_ok p) f /\ flat_map text_of f = txt /\ flat_map buttons_of f = btns.

Lemma shows_read p h f : shows h f -> Forall (node_ok p) f -> read_html h = Some f.
Proof. intros H Hf. unfold read_html. rewrite H. by rewrite (parse_forest f p). Qed.

Lemma shows_app h1 f1 h2 f2 : shows h1 f1 -> shows h2 f2 -> shows (h1 ++ h2) (f1 ++ f2).
Proof. intros H1 H2. unfold shows. rewrite flat_map_app. by apply (lex_then _ _ _ Data). Qed.

Lemma piece_nil p : piece p [] [] [].
Proof. by exists []. Qed.

Lemma piece_app p h1 t1 b1 h2 t2 b2 : piece p h1 t1 b1 -> piece p h2 t2 b2 -> piece p (h1 ++ h2) (t1 ++ t2) (b1 ++ b2).
Proof.
  intros (f1 & H1 & O1 & <- & <-) (f2 & H2 & O2 & <- & <-). exists (f1 ++ f2). rewrite !flat_map_app.
  split_and!; [by apply shows_app|by apply Forall_app_2|done..].
Qed.

Lemma text_tokens l : flat_map tokens (Text <$> l) = Char <$> l.
Proof. induction l as [|c l IH]; [done|]. cbn. by rewrite IH. Qed.

Lemma text_text l : flat_map text_of (Text <$> l) = l.
Proof. induction l as [|c l IH]; [done|]. cbn. by rewrite IH. Qed.

Lemma text_buttons l : flat_map buttons_of (Text <$> l) = [].
Proof. induction l as [|c l IH]; [done|]. cbn. by rewrite IH. Qed.

Lemma piece_chars p h l : takes_text p = true -> lex Data h = (Data, Char <$> l) -> piece p h l [].
Proof.
  intros Hp Hl. exists (Text <$> l). rewrite text_text, text_buttons.
  split_and!; [|by apply Forall_fmap, Forall_true; constructor|done..]. unfold shows. by rewrite text_tokens.
Qed.

Lemma piece_text p l : takes_text p = true -> Forall plain l -> piece p l l [].
Proof. intros Hp Hl. apply piece_chars; [done|by apply lex_text]. Qed.

(** An element: its start tag, its content, its end tag. *)
Lemma shows_elem p tag attrs start h f finish :
  lex Data start = (Data, [Open tag attrs]) -> lex Data finish = (Data, [Close tag]) -> shows h f ->
  fits p tag = true -> tag <> br -> Forall attr_ok attrs -> Forall (node_ok tag) f ->
  shows (start ++ h ++ finish) [Elem tag attrs f] /\ node_ok p (Elem tag attrs f).
Proof.
  intros Hs Hc Hh Hfit Hbr Ha Hf. split; [|by constructor].
  unfold shows. cbn [flat_map tokens]. unfold js_eqb. rewrite bool_decide_eq_false_2 by done. rewrite app_nil_r.
  apply (lex_then _ _ _ Data [Open tag attrs]); [done|]. by apply (lex_then _ _ _ Data).
Qed.

Lemma piece_elem p tag attrs start h t b finish :
  lex Data start = (Data, [Open tag attrs]) -> lex Data finish = (Data, [Close tag]) -> piece tag h t b ->
  fits p tag = true -> tag <> br -> Forall attr_ok attrs ->
  piece p (start ++ h ++ finish) t ((if js_eqb tag (bytes "button") then [attrs] else []) ++ b).
Proof.
  intros Hs Hc (f & Hh & Hf & <- & <-) Hfit Hbr Ha.
  destruct (shows_elem p tag attrs start h f finish) as [H1 H2]; [done..|].
  exists [Elem tag attrs f]. split_and!; [done|by constructor|cbn; by rewrite app_nil_r|cbn; by rewrite app_nil_r].
Qed.
