(* ===== verification/Dashboard.v ===== *)
(** * The administration page: the script of [coordinator/cmd/coordinator/dashboard.go]

    The page asks the coordinator for seven reports ([refresh]), keeps them ([PageState]), and
    writes texts and tables into its elements ([render]); the buttons of the tables are requests
    to the administration endpoints ([click]).  The functions have the script's names and build
    the texts the script builds; the reports are the Go records the server writes as JSON, a
    field JSON omits being the zero value, for which every function of the script that can see
    the difference takes an option.  Setting an element's text, class, markup or display is an
    [Update]. *)

From S2P Require Import Prelude GoString GoSort GoFloat GoFormat Json Protocol Settlement Scheduler Challenge.
From S2P Require Import City Reputation Handlers Js Html.

(** ** The state and its effects *)

(** [src/coordinator/cmd/coordinator/dashboard.go:602-610] state *)
Record PageState := {
  st_status : option NetworkStatus;
  st_nodes : list NodeView;
  st_city : option MarketSnapshot;
  st_settlement : option LedgerSnapshot;
  st_reputation : option Report;
  st_integrity : option IntegrityReport;
  st_challenges : option ChallengeSnapshot;
}.

Inductive Update :=
| SetText (id : string) (v : JsString)
| SetClass (id : string) (v : JsString)
| SetHTML (id : string) (v : JsString)
| SetDisplay (id : string) (v : JsString).

(** ** Texts *)

Definition esc_char (ch : Z) : JsString :=
  if ch =? 38 then lit "&amp;" else if ch =? 60 then lit "&lt;" else if ch =? 62 then lit "&gt;"
  else if ch =? 34 then lit "&quot;" else if ch =? 39 then lit "&#39;" else [ch].

(** [src/coordinator/cmd/coordinator/dashboard.go:612-616] esc *)
Definition esc (value : JsString) : JsString := flat_map esc_char value.

(** [src/coordinator/cmd/coordinator/dashboard.go:1008-1010] td *)
Definition td (html : JsString) : JsString := lit "<td>" ++ html ++ lit "</td>".

(** [src/coordinator/cmd/coordinator/dashboard.go:1012-1014] kv *)
Definition kv (key value : JsString) : JsString :=
  lit "<div class='kv'><div class='k'>" ++ esc key ++ lit "</div><div>" ++ js_or value (lit "-") ++ lit "</div></div>".

(** [src/coordinator/cmd/coordinator/dashboard.go:1016-1018] stack *)
Definition stack (primary secondary secondaryClass : JsString) : JsString :=
  lit "<div class='stack'><span class='strong'>" ++ primary ++ lit "</span><span class='"
  ++ js_or secondaryClass (lit "muted") ++ lit "'>" ++ secondary ++ lit "</span></div>".

(** [src/coordinator/cmd/coordinator/dashboard.go:1020-1022] badge *)
Definition badge (text cls : JsString) : JsString :=
  lit "<span class='pill " ++ cls ++ lit "'>" ++ esc text ++ lit "</span>".

(** [src/coordinator/cmd/coordinator/dashboard.go:1024-1028] chips *)
Definition chips (values : list string) : JsString :=
  let values := nonempty (js <$> values) in
  match values with
  | [] => lit "<span class='muted'>-</span>"
  | _ =>
      lit "<div class='chips'>"
      ++ flat_map (fun v => lit "<span class='chip'>" ++ esc v ++ lit "</span>") (take 8 values)
      ++ (if (8 <? length values)%nat
          then lit "<span class='chip'>+" ++ int_text (Z.of_nat (length values) - 8) ++ lit "</span>" else [])
      ++ lit "</div>"
  end.

(** [src/coordinator/cmd/coordinator/dashboard.go:1045-1047] actionButton *)
Definition actionButton (action label attr id : JsString) (disabled : bool) (cls : JsString) : JsString :=
  lit "<button type='button' class='" ++ esc cls ++ lit "' data-action='" ++ esc action ++ lit "' " ++ attr ++ lit "='"
  ++ esc id ++ lit "'" ++ (if disabled then lit " disabled" else []) ++ lit ">" ++ esc label ++ lit "</button>".

(** [src/coordinator/cmd/coordinator/dashboard.go:1030-1035] consumerActions *)
Definition consumerActions (c : Consumer) : JsString :=
  lit "<div class='action-buttons'>"
  ++ actionButton (lit "rotate-consumer") (lit "Rotate key") (lit "data-consumer-id") (js (cn_ID c)) (cn_Disabled c) []
  ++ actionButton (lit "disable-consumer") (lit "Disable") (lit "data-consumer-id") (js (cn_ID c)) (cn_Disabled c) (lit "danger")
  ++ lit "</div>".

(** [src/coordinator/cmd/coordinator/dashboard.go:1037-1043] providerActions *)
Definition providerActions (p : ProviderReputation) : JsString :=
  let id := js (pr_ProviderID p) in
  lit "<div class='action-buttons'>"
  ++ actionButton (lit "rotate-provider") (lit "Rotate token") (lit "data-provider-id") id (pr_Disabled p) []
  ++ actionButton (lit "disable-provider") (lit "Disable") (lit "data-provider-id") id (pr_Disabled p) (lit "danger")
  ++ actionButton (lit "run-challenge") (lit "Run challenge") (lit "data-provider-id") id (pr_Disabled p) []
  ++ lit "</div>".

(** [s.replace(/\.0$/, '')]. *)
Definition strip_point_zero (s : JsString) : JsString :=
  if js_eqb (slice_end 2 s) (lit ".0") then take (length s - 2) s else s.

(** A number that JSON omits when it is zero. *)
Definition omitempty (z : Z) : option Z := if z =? 0 then None else Some z.

(** [src/coordinator/cmd/coordinator/dashboard.go:1049-1052] formatBPS *)
Definition formatBPS (value : option Z) : JsString :=
  match value with
  | None => lit "-"
  | Some value => strip_point_zero (to_fixed 1 (fdiv (num value) (num 100))) ++ lit "%"
  end.

(** [src/coordinator/cmd/coordinator/dashboard.go:1071-1075] shortHash *)
Definition shortHash (value : string) : JsString :=
  let value := js value in
  if (length value <=? 18)%nat then value else take 10 value ++ lit "..." ++ slice_end 6 value.

(** [src/coordinator/cmd/coordinator/dashboard.go:1077-1079] clamp *)
Definition clamp (value min max : float) : float := js_max min (js_min max (or0 value)).

(** [src/coordinator/cmd/coordinator/dashboard.go:991-995] statusText *)
Definition statusText (value : option (bool * Z)) : JsString :=
  match value with
  | None => lit "-"
  | Some (valid, events) =>
      badge (if valid then lit "Valid" else lit "Invalid") (if valid then lit "good" else lit "bad")
      ++ lit " <span class='muted'>" ++ esc (number_text (or0 (num events))) ++ lit " events</span>"
  end.

(** [src/coordinator/cmd/coordinator/dashboard.go:997-999] sum *)
Definition sum (items : list Z) : float := fold_left (fun total item => fadd total (or0 (num item))) items f0.

(** [src/coordinator/cmd/coordinator/dashboard.go:1001-1006] indexBy, followed by a lookup: the last of
    the rows with the key.  Where there is none the script can find a member every object has,
    which has none of the fields it then reads. *)
Definition indexBy (items : list Usage) (key : string) : option Usage :=
  last (filter (fun u => us_AccountID u = key) items).

(** [n || 0] as text. *)
Definition count (z : Z) : JsString := number_text (or0 (num z)).

Section Page.
Context {B : Browser}.

(** [src/coordinator/cmd/coordinator/dashboard.go:1054-1056] formatMicros *)
Definition formatMicros (value : float) : JsString := moneyFmt_format (fdiv (or0 value) (num 1000000)).

(** [src/coordinator/cmd/coordinator/dashboard.go:1058-1069] timeAgo *)
Definition timeAgo (value : option Time) : JsString :=
  match value with
  | None => lit "-"
  | Some t =>
      let value := rfc3339 t in
      if js_eqb value (lit "0001-01-01T00:00:00Z") then lit "-"
      else
        let then_ := date_getTime value in
        if negb (js_truthy then_) then lit "-"
        else
          let seconds := js_max f0 (js_round (fdiv (fsub date_now then_) (num 1000))) in
          if flt seconds (num 60) then number_text seconds ++ lit "s ago"
          else
            let minutes := js_round (fdiv seconds (num 60)) in
            if flt minutes (num 60) then number_text minutes ++ lit "m ago"
            else
              let hours := js_round (fdiv minutes (num 60)) in
              if flt hours (num 48) then number_text hours ++ lit "h ago"
              else date_toLocaleDateString value
  end.

(** [fmt.format(n || 0)]. *)
Definition fmt0 (z : Z) : JsString := fmt_format (or0 (num z)).

(** [n ? fmt.format(n) + unit : '-'] *)
Definition fmt_unit (z : Z) (unit_ : string) : JsString :=
  if js_truthy (num z) then fmt_format (num z) ++ lit unit_ else lit "-".

(** ** The metrics *)

(** [src/coordinator/cmd/coordinator/dashboard.go:824-852] renderMetrics; the price is the number in its field. *)
Definition renderMetrics (cloudPrice : float) (s : PageState) : list Update :=
  let status := st_status s in
  let consumerUsage := from_option sn_ConsumerUsage [] (st_city s) in
  let totalTokens := sum (us_TotalTokens <$> consumerUsage) in
  let totalRequests := sum (us_Requests <$> consumerUsage) in
  let providerBalances := from_option ls_ProviderBalances [] (st_settlement s) in
  let consumerBalances := from_option ls_ConsumerBalances [] (st_settlement s) in
  let rewards := sum (b_RewardMicros <$> providerBalances) in
  let debit := sum (b_DebitMicros <$> consumerBalances) in
  let cloudCost := fdiv (fmul totalTokens cloudPrice) (num 1000000) in
  let localCost := fdiv debit (num 1000000) in
  let savings := fsub cloudCost localCost in
  let of_status f := from_option f 0 status in
  [ SetText "healthyNodes" (fmt0 (of_status ns_HealthyNodes) ++ lit "/" ++ fmt0 (of_status ns_Nodes));
    SetText "nodeSub" (count (of_status ns_CooldownNodes) ++ lit " cooldown");
    SetText "capacity" (fmt0 (of_status ns_AvailableSlots) ++ lit "/" ++ fmt0 (of_status ns_MaxConcurrent));
    SetText "capacitySub" (fmt0 (of_status ns_ActiveRequests) ++ lit " active");
    SetText "totalTokens" (compactFmt_format (or0 totalTokens));
    SetText "tokenSub" (fmt_format (or0 totalRequests) ++ lit " requests");
    SetText "rewards" (formatMicros rewards);
    SetText "rewardSub" (fmt_format (num (Z.of_nat (length providerBalances))) ++ lit " providers");
    SetText "cloudCost" (moneyFmt_format cloudCost);
    SetText "cloudSub" (moneyFmt_format cloudPrice ++ lit " / 1M tokens");
    SetText "savings" (moneyFmt_format savings);
    SetText "savingsSub" (lit "local debit " ++ formatMicros debit) ].

(** ** The network *)

(** [{}] in place of a report that has not arrived. *)
Definition no_status : NetworkStatus :=
  {| ns_Nodes := 0; ns_HealthyNodes := 0; ns_ActiveRequests := 0; ns_MaxConcurrent := 0; ns_AvailableSlots := 0;
     ns_CooldownNodes := 0; ns_TotalMemoryFreeMB := 0; ns_Models := []; ns_Cities := []; ns_PrivacyTiers := [];
     ns_Backends := []; ns_DeviceKinds := []; ns_Accelerators := []; ns_SoCs := []; ns_CompletedRequests := 0;
     ns_FailedRequests := 0; ns_AverageLatencyMs := 0; ns_AverageTTFTMs := 0; ns_AverageTokensPerSecond := f0 |}.

(** [src/coordinator/cmd/coordinator/dashboard.go:854-869] renderNetwork *)
Definition renderNetwork (st : PageState) : list Update :=
  let s := default no_status (st_status st) in
  [ SetText "networkBadge" (count (ns_HealthyNodes s) ++ lit " healthy");
    SetClass "networkBadge" (lit "pill " ++ (if flt f0 (or0 (num (ns_HealthyNodes s))) then lit "good" else lit "warn"));
    SetHTML "networkBody" (concat
      [ kv (lit "Models") (chips (ns_Models s));
        kv (lit "Backends") (chips (ns_Backends s));
        kv (lit "Devices") (chips (ns_DeviceKinds s));
        kv (lit "Accelerators") (chips (ns_Accelerators s));
        kv (lit "Cities") (chips (ns_Cities s));
        kv (lit "Avg latency") (fmt_unit (ns_AverageLatencyMs s) " ms");
        kv (lit "Avg TTFT") (fmt_unit (ns_AverageTTFTMs s) " ms");
        kv (lit "Avg tok/s") (if js_truthy (ns_AverageTokensPerSecond s) then to_fixed 2 (ns_AverageTokensPerSecond s) else lit "-");
        kv (lit "Free memory") (fmt_unit (ns_TotalMemoryFreeMB s) " MB") ]) ].

(** ** The nodes *)

(** [src/coordinator/cmd/coordinator/dashboard.go:879-879] renderNodes (health) *)
Definition nodeHealth (n : NodeView) : JsString :=
  if v_Healthy n && negb (v_InCooldown n) then badge (lit "Healthy") (lit "good")
  else if v_InCooldown n then badge (lit "Cooldown") (lit "warn") else badge (lit "Unhealthy") (lit "bad").

(** [src/coordinator/cmd/coordinator/dashboard.go:880-880] renderNodes (load) *)
Definition nodeLoad (n : NodeView) : JsString :=
  esc (count (v_Active n) ++ lit "/" ++ count (v_MaxConcurrent n))
  ++ lit "<div class='muted'>queue " ++ esc (count (v_QueueDepth n)) ++ lit "</div>".

(** [src/coordinator/cmd/coordinator/dashboard.go:881-885] renderNodes (observed) *)
Definition nodeObserved (n : NodeView) : JsString :=
  js_or (js_join (lit "<br>") (nonempty
    [ (if js_truthy (num (v_ObservedLatencyMs n)) then esc (int_text (v_ObservedLatencyMs n)) ++ lit " ms latency" else []);
      (if js_truthy (num (v_ObservedTTFTMs n)) then esc (int_text (v_ObservedTTFTMs n)) ++ lit " ms TTFT" else []);
      (if js_truthy (v_ObservedTokensPerSecond n)
       then esc (to_fixed 2 (v_ObservedTokensPerSecond n)) ++ lit " tok/s" else []) ]))
    (lit "<span class='muted'>no observations</span>").

(** [src/coordinator/cmd/coordinator/dashboard.go:886-895] renderNodes (the row) *)
Definition nodeRow (n : NodeView) : JsString :=
  lit "<tr>"
  ++ td (stack (esc (js_or (js (v_PublicName n)) (js (v_ID n)))) (esc (js (v_ID n))) (lit "mono muted"))
  ++ td (nodeHealth n ++ match js (v_LastError n) with [] => [] | e => lit "<div class='muted'>" ++ esc e ++ lit "</div>" end)
  ++ td (stack (esc (js_or (js (v_ProviderID n)) (lit "-"))) (lit "score " ++ esc (count (v_ProviderScore n))) (lit "muted"))
  ++ td (nodeLoad n)
  ++ td (nodeObserved n)
  ++ td (chips (v_Models n))
  ++ td (stack (esc (js_or (js_join (lit " / ") (nonempty [js (v_Backend n); js (v_DeviceKind n); js (v_SoC n)])) (lit "-")))
           (esc (js_join (lit ", ") (js <$> v_Accelerators n))) (lit "muted"))
  ++ td (timeAgo (Some (v_LastSeen n)))
  ++ lit "</tr>".

(** [src/coordinator/cmd/coordinator/dashboard.go:871-897] renderNodes *)
Definition renderNodes (st : PageState) : list Update :=
  let nodes := st_nodes st in
  [ SetText "nodesCount" (int_text (Z.of_nat (length nodes)));
    SetHTML "nodesBody"
      (match nodes with
       | [] => lit "<tr><td colspan='8' class='empty'>No nodes connected</td></tr>"
       | _ => flat_map nodeRow nodes
       end) ].

(** ** The providers *)

(** [src/coordinator/cmd/coordinator/dashboard.go:907-917] renderProviders (the row) *)
Definition providerRow (p : ProviderReputation) : JsString :=
  let score := num (pr_Score p) in
  let cls := if fle (num 75) score then lit "good" else if fle (num 50) score then lit "warn" else lit "bad" in
  lit "<tr>"
  ++ td (stack (esc (js_or (js (pr_DisplayName p)) (js (pr_ProviderID p)))) (esc (js (pr_ProviderID p))) (lit "mono muted"))
  ++ td (lit "<div class='stack'><span class='strong'>" ++ esc (int_text (pr_Score p)) ++ lit " / 100 "
         ++ esc (js (pr_Grade p)) ++ lit "</span><div class='progress'><span class='" ++ cls ++ lit "' style='width:"
         ++ number_text (clamp score f0 (num 100)) ++ lit "%'></span></div></div>")
  ++ td (esc (count (pr_HealthyNodes p) ++ lit "/" ++ count (pr_TotalNodes p))
         ++ lit "<div class='muted'>" ++ esc (count (pr_ActiveRequests p)) ++ lit " active</div>")
  ++ td (esc (count (pr_CompletedEvents p)) ++ lit "<div class='muted'>" ++ esc (count (pr_TotalTokens p)) ++ lit " tokens</div>")
  ++ td (formatMicros (or0 (num (pr_RewardMicros p)))
         ++ (if js_truthy (num (pr_PenaltyMicros p))
             then lit "<div class='muted'>penalty " ++ formatMicros (num (pr_PenaltyMicros p)) ++ lit "</div>" else []))
  ++ td (formatBPS (omitempty (pr_ChallengePassRateBPS p))
         ++ lit "<div class='muted'>" ++ esc (count (pr_Challenges p)) ++ lit " checks</div>")
  ++ td (chips (pr_Notes p))
  ++ td (providerActions p)
  ++ lit "</tr>".

(** [src/coordinator/cmd/coordinator/dashboard.go:899-919] renderProviders *)
Definition renderProviders (st : PageState) : list Update :=
  let providers := from_option rp_Providers [] (st_reputation st) in
  [ SetText "providersCount" (int_text (Z.of_nat (length providers)));
    SetHTML "providersBody"
      (match providers with
       | [] => lit "<tr><td colspan='8' class='empty'>No providers yet</td></tr>"
       | _ => flat_map providerRow providers
       end) ].

(** ** The consumers *)

(** [src/coordinator/cmd/coordinator/dashboard.go:931-935] renderConsumers (the quota) *)
Definition consumerQuota (c : Consumer) (used : float) : JsString :=
  let limit := or0 (num (cn_TotalTokenLimit c)) in
  let pct := if js_truthy limit then js_min (num 100) (js_round (fdiv (fmul used (num 100)) limit)) else f0 in
  let cls := if cn_Disabled c then lit "bad" else if js_truthy limit && flt (num 90) pct then lit "warn" else lit "good" in
  if js_truthy limit
  then lit "<div class='stack'><span>" ++ fmt_format used ++ lit " / " ++ fmt_format limit
       ++ lit "</span><div class='progress'><span class='" ++ cls ++ lit "' style='width:" ++ number_text pct
       ++ lit "%'></span></div></div>"
  else lit "<span class='muted'>unlimited</span>".

(** [src/coordinator/cmd/coordinator/dashboard.go:930-945] renderConsumers (the row) *)
Definition consumerRow (usage : list Usage) (c : Consumer) : JsString :=
  let u := indexBy usage (cn_ID c) in
  let used := or0 (num (from_option us_TotalTokens 0 u)) in
  lit "<tr>"
  ++ td (stack (esc (js_or (js (cn_DisplayName c)) (js (cn_ID c)))) (esc (js (cn_ID c))) (lit "mono muted"))
  ++ td (if cn_Disabled c then badge (lit "Disabled") (lit "bad") else badge (lit "Active") (lit "good"))
  ++ td (fmt0 (from_option us_Requests 0 u))
  ++ td (fmt_format used)
  ++ td (consumerQuota c used)
  ++ td (timeAgo (us_UpdatedAt <$> u))
  ++ td (consumerActions c)
  ++ lit "</tr>".

(** [src/coordinator/cmd/coordinator/dashboard.go:921-947] renderConsumers *)
Definition renderConsumers (st : PageState) : list Update :=
  let consumers := from_option sn_Consumers [] (st_city st) in
  let usage := from_option sn_ConsumerUsage [] (st_city st) in
  [ SetText "consumersCount" (int_text (Z.of_nat (length consumers)));
    SetHTML "consumersBody"
      (match consumers with
       | [] => lit "<tr><td colspan='7' class='empty'>No consumers configured</td></tr>"
       | _ => flat_map (consumerRow usage) consumers
       end) ].

(** ** Settlement, rewards and integrity *)

(** [{}] in place of a report that has not arrived. *)
Definition no_settlement : LedgerSnapshot :=
  {| ls_Enabled := false; ls_ChainPath := ""; ls_SQLitePath := ""; ls_Events := 0; ls_LastHash := "";
     ls_PricePerThousandTokensMicros := 0; ls_ProviderRewardShareBPS := 0; ls_TargetLatencyMs := 0;
     ls_LatencyPenaltyBPS := 0; ls_ConsumerBalances := []; ls_ProviderBalances := []; ls_RecentEvents := [] |}.

(** A hash in a panel, shortened. *)
Definition hashSpan (hash : string) : JsString := lit "<span class='mono'>" ++ esc (shortHash hash) ++ lit "</span>".

(** [src/coordinator/cmd/coordinator/dashboard.go:949-961] renderSettlement *)
Definition renderSettlement (st : PageState) : list Update :=
  let s := default no_settlement (st_settlement st) in
  [ SetText "settlementBadge" (if ls_Enabled s then lit "Enabled" else lit "Off");
    SetClass "settlementBadge" (lit "pill " ++ (if ls_Enabled s then lit "good" else lit "warn"));
    SetHTML "settlementBody" (concat
      [ kv (lit "Events") (fmt0 (ls_Events s));
        kv (lit "Last hash") (match js (ls_LastHash s) with [] => lit "-" | _ => hashSpan (ls_LastHash s) end);
        kv (lit "Price") (if js_truthy (num (ls_PricePerThousandTokensMicros s))
          then formatMicros (num (ls_PricePerThousandTokensMicros s)) ++ lit " / 1K tokens" else lit "-");
        kv (lit "Provider share") (if js_truthy (num (ls_ProviderRewardShareBPS s))
          then formatBPS (Some (ls_ProviderRewardShareBPS s)) else lit "-");
        kv (lit "SLA target") (fmt_unit (ls_TargetLatencyMs s) " ms");
        kv (lit "Store") (esc (js_or (js (ls_SQLitePath s)) (js_or (js (ls_ChainPath s)) (lit "-")))) ]) ].

(** [src/coordinator/cmd/coordinator/dashboard.go:970-975] renderRewards (the row) *)
Definition rewardRow (b : Balance) : JsString :=
  lit "<tr>"
  ++ td (esc (js (b_AccountID b)))
  ++ td (fmt0 (b_TotalTokens b))
  ++ td (formatMicros (or0 (num (b_RewardMicros b)))
         ++ (if js_truthy (num (b_PenaltyMicros b))
             then lit "<div class='muted'>penalty " ++ formatMicros (num (b_PenaltyMicros b)) ++ lit "</div>" else []))
  ++ td (fmt_unit (b_AverageLatencyMs b) " ms")
  ++ lit "</tr>".

(** [src/coordinator/cmd/coordinator/dashboard.go:963-976] renderRewards *)
Definition renderRewards (st : PageState) : list Update :=
  let balances := from_option ls_ProviderBalances [] (st_settlement st) in
  [ SetText "rewardCount" (int_text (Z.of_nat (length balances)));
    SetHTML "rewardsBody"
      (match balances with
       | [] => lit "<tr><td colspan='4' class='empty'>No provider rewards yet</td></tr>"
       | _ => flat_map rewardRow balances
       end) ].

(** [src/coordinator/cmd/coordinator/dashboard.go:978-989] renderIntegrity *)
Definition renderIntegrity (st : PageState) : list Update :=
  let i := st_integrity st in
  let valid := from_option it_Valid false i in
  let anchor_hash := from_option (fun i => an_AnchorHash (it_Anchor i)) "" i in
  [ SetText "integrityBadge" (if valid then lit "Valid" else lit "Check");
    SetClass "integrityBadge" (lit "pill " ++ (if valid then lit "good" else lit "warn"));
    SetHTML "integrityBody" (concat
      [ kv (lit "Settlement") (statusText ((fun i => (vf_Valid (it_Settlement i), vf_Events (it_Settlement i))) <$> i));
        kv (lit "Challenges") (statusText ((fun i => (cv_Valid (it_Challenges i), cv_Events (it_Challenges i))) <$> i));
        kv (lit "Anchor hash") (match js anchor_hash with
          | [] => lit "-"
          | _ => hashSpan anchor_hash ++ lit " <button id='copyAnchorHash' type='button'>Copy anchor hash</button>"
          end);
        kv (lit "Generated") (match i with Some i => date_toLocaleString (rfc3339 (it_GeneratedAt i)) | None => lit "-" end) ]) ].

(** ** The whole page *)

(** The administrator's reports were refused for want of a token. *)
Definition unauthorized (err : JsString) : bool :=
  js_includes err (lit "/admin/") && (js_includes err (lit "401") || js_includes err (lit "403")).

(** [src/coordinator/cmd/coordinator/dashboard.go:805-822] render *)
Definition render (cloudPrice : float) (st : PageState) (errors : list JsString) : list Update :=
  let authed := negb (existsb unauthorized errors) in
  [ SetClass "authStatus" (lit "pill " ++ (if authed then lit "good" else lit "warn"));
    SetText "authStatus" (if authed then lit "Admin data loaded" else lit "Admin token required");
    SetText "lastUpdated" (lit "Updated " ++ now_toLocaleTimeString) ]
  ++ (match errors with
      | [] => []
      | _ => [SetDisplay "errors" (lit "block"); SetText "errors" (js_join [10] errors)]
      end)
  ++ renderMetrics cloudPrice st
  ++ renderNetwork st
  ++ renderNodes st
  ++ renderProviders st
  ++ renderConsumers st
  ++ renderSettlement st
  ++ renderRewards st
  ++ renderIntegrity st.

End Page.

(** ** Asking for the reports *)

(** What [fetch] comes to: a response with its status and its body read as JSON, or no response. *)
Inductive Fetched (A : Type) :=
| Responded (status : Z) (body : res JsString A)
| Unreachable (message : JsString).
Arguments Responded {A} _ _.
Arguments Unreachable {A} _.

(** [src/coordinator/cmd/coordinator/dashboard.go:628-632] getJSON *)
Definition getJSON {A} (path : JsString) (r : Fetched A) : res JsString A :=
  match r with
  | Responded status body =>
      if negb ((200 <=? status) && (status <=? 299)) then Err (path ++ lit " returned " ++ int_text status) else body
  | Unreachable message => Err message
  end.

(** The answers to the seven requests. *)
Record Answers := {
  ans_status : Fetched NetworkStatus;
  ans_nodes : Fetched (list NodeView);
  ans_city : Fetched MarketSnapshot;
  ans_settlement : Fetched LedgerSnapshot;
  ans_reputation : Fetched Report;
  ans_integrity : Fetched IntegrityReport;
  ans_challenges : Fetched ChallengeSnapshot;
}.

(** A report that did not arrive leaves the last one and its error. *)
Definition keep {A} (old : A) (r : res JsString A) : A := match r with Ok new => new | Err _ => old end.
Definition keep_opt {A} (old : option A) (r : res JsString A) : option A := match r with Ok new => Some new | Err _ => old end.
Definition error_of {A} (r : res JsString A) : list JsString := match r with Ok _ => [] | Err err => [err] end.

(** [src/coordinator/cmd/coordinator/dashboard.go:782-799] refresh (the reports) *)
Definition refreshReports (a : Answers) (st : PageState) : PageState * list JsString :=
  let status := getJSON (lit "/network/status") (ans_status a) in
  let nodes := getJSON (lit "/admin/nodes") (ans_nodes a) in
  let city := getJSON (lit "/admin/city") (ans_city a) in
  let settlement := getJSON (lit "/admin/settlement?limit=8") (ans_settlement a) in
  let reputation := getJSON (lit "/admin/reputation") (ans_reputation a) in
  let integrity := getJSON (lit "/admin/integrity") (ans_integrity a) in
  let challenges := getJSON (lit "/admin/challenges?limit=8") (ans_challenges a) in
  ({| st_status := keep_opt (st_status st) status; st_nodes := keep (st_nodes st) nodes;
      st_city := keep_opt (st_city st) city; st_settlement := keep_opt (st_settlement st) settlement;
      st_reputation := keep_opt (st_reputation st) reputation; st_integrity := keep_opt (st_integrity st) integrity;
      st_challenges := keep_opt (st_challenges st) challenges |},
   error_of status ++ error_of nodes ++ error_of city ++ error_of settlement ++ error_of reputation
   ++ error_of integrity ++ error_of challenges).

(** [src/coordinator/cmd/coordinator/dashboard.go:778-803] refresh *)
Definition refresh {B : Browser} (cloudPrice : float) (a : Answers) (st : PageState) : PageState * list Update :=
  let '(st, errors) := refreshReports a st in
  (st, [SetDisplay "errors" (lit "none"); SetText "errors" []] ++ render cloudPrice st errors).

(** ** The buttons *)

(** A request the page makes; its body as the bytes that are sent. *)
Record Fetch := { ft_method : string; ft_path : JsString; ft_headers : list (string * JsString); ft_body : option (list Z) }.

Inductive Effect :=
| EFetch (request : Fetch)
| ECopy (text : JsString)
| EHideSecret
| EError (message : JsString).

(** [src/coordinator/cmd/coordinator/dashboard.go:622-626] headers *)
Definition headers (token : JsString) : list (string * JsString) :=
  ("Accept", lit "application/json")
  :: match token with [] => [] | _ => [("Authorization", lit "Bearer " ++ token)] end.

(** The object without members, which is sent where an action has no body. *)
Definition no_body : list Z := bytes "{}".

(** [src/coordinator/cmd/coordinator/dashboard.go:634-641] postJSON (the request) *)
Definition postJSON (token path : JsString) (body : list Z) : Fetch :=
  {| ft_method := "POST"; ft_path := path; ft_headers := headers token ++ [("Content-Type", lit "application/json")];
     ft_body := Some body |}.

(** [src/coordinator/cmd/coordinator/dashboard.go:688-694] requireAdminToken *)
Definition requireAdminToken (token : JsString) : option Effect :=
  match token with [] => Some (EError (lit "Enter the admin token before using admin actions.")) | _ => None end.

(** [src/coordinator/cmd/coordinator/dashboard.go:645-660] sendAction (the request); only a POST has a body. *)
Definition sendAction (token path : JsString) (method : string) (body : list Z) : list Effect :=
  match requireAdminToken token with
  | Some err => [err]
  | None =>
      [EFetch (if method =s "POST" then postJSON token path body
               else {| ft_method := method; ft_path := path; ft_headers := headers token; ft_body := None |})]
  end.

(** [src/coordinator/cmd/coordinator/dashboard.go:723-741] copyText *)
Definition copyText (value : JsString) : Effect :=
  match value with [] => EError (lit "Nothing to copy.") | _ => ECopy value end.

(** A path with an account in it; an [encodeURIComponent] that throws ends the handler. *)
Definition with_id (id : JsString) (k : JsString -> list Effect) : list Effect :=
  match encodeURIComponent id with Some id => k id | None => [] end.

(** [src/coordinator/cmd/coordinator/dashboard.go:1106-1142] addEventListener (the click listener, for a button given by its attributes); [confirm] is the administrator's answer. *)
Definition onClick (token secretText anchor_hash : JsString) (confirm : JsString -> bool)
    (button : list (JsString * JsString)) : list Effect :=
  let id := default [] (attr button "id") in
  if js_eqb id (lit "copySecret") then [copyText secretText]
  else if js_eqb id (lit "dismissSecret") then [EHideSecret]
  else if js_eqb id (lit "copyAnchorHash") then [copyText anchor_hash]
  else
    let action := default [] (attr button "data-action") in
    match action with
    | [] => []
    | _ =>
        match requireAdminToken token with
        | Some err => [err]
        | None =>
            let consumerID := default [] (attr button "data-consumer-id") in
            let providerID := default [] (attr button "data-provider-id") in
            if js_eqb action (lit "rotate-consumer")
            then with_id consumerID (fun id => sendAction token (lit "/admin/consumers/" ++ id ++ lit "/rotate-key") "POST" no_body)
            else if js_eqb action (lit "disable-consumer")
            then (if confirm (lit "Disable consumer " ++ consumerID ++ lit "?")
                  then with_id consumerID (fun id => sendAction token (lit "/admin/consumers/" ++ id) "DELETE" no_body) else [])
            else if js_eqb action (lit "rotate-provider")
            then with_id providerID (fun id => sendAction token (lit "/admin/providers/" ++ id ++ lit "/rotate-token") "POST" no_body)
            else if js_eqb action (lit "disable-provider")
            then (if confirm (lit "Disable provider " ++ providerID ++ lit "?")
                  then with_id providerID (fun id => sendAction token (lit "/admin/providers/" ++ id) "DELETE" no_body) else [])
            else if js_eqb action (lit "run-challenge")
            then with_id providerID (fun id => sendAction token (lit "/admin/challenges/run?provider_id=" ++ id) "POST" no_body)
            else []
        end
    end.

(** A browser dispatches no click on a button with the [disabled] attribute, which [actionButton] gives the buttons
    of a disabled account. *)
Definition clickable (button : list (JsString * JsString)) : bool :=
  match attr button "disabled" with Some _ => false | None => true end.

(** What the administrator's click on a button asks for. *)
Definition click (token secretText anchor_hash : JsString) (confirm : JsString -> bool)
    (button : list (JsString * JsString)) : list Effect :=
  if clickable button then onClick token secretText anchor_hash confirm button else [].
