(* ===== verification/DashboardProofs.v ===== *)
(** * The administration page: nothing a report says becomes markup, and the tables say what the reports say

    Every text the script gives to [innerHTML] reads back ([Html.read_html]) as rows, cells,
    blocks and buttons of the page's own vocabulary, whatever the reports contain
    ([dashboard_no_injection]); the tables' cells and buttons are those of the reports' rows
    ([dashboard_tables]). *)

From S2P Require Import Prelude GoString GoSort GoFloat GoFormat Json Protocol Settlement Scheduler Challenge.
From S2P Require Import City Reputation Handlers Js Html Dashboard.

Section Reading.
Context {B : Browser} {L : BrowserLaws B}.

(** ** Escaped text *)

Lemma esc_one c : plain c -> c <> 62 -> c <> 34 -> c <> 39 -> esc_char c = [c].
Proof.
  intros [H1 H2] H3 H4 H5. unfold esc_char.
  by rewrite (proj2 (Z.eqb_neq c 38) H2), (proj2 (Z.eqb_neq c 60) H1), (proj2 (Z.eqb_neq c 62) H3),
    (proj2 (Z.eqb_neq c 34) H4), (proj2 (Z.eqb_neq c 39) H5).
Qed.

Lemma esc_cases c : (c = 38 \/ c = 60 \/ c = 62 \/ c = 34 \/ c = 39) \/ (plain c /\ c <> 34 /\ esc_char c = [c]).
Proof.
  destruct (decide (c = 38 \/ c = 60 \/ c = 62 \/ c = 34 \/ c = 39)); [by left|right].
  assert (plain c) by (unfold plain; tauto). split; [done|]. split; [tauto|]. apply esc_one; tauto.
Qed.

Lemma lex_esc v : lex Data (esc v) = (Data, Char <$> v).
Proof.
  induction v as [|c v IH]; [done|]. change (esc (c :: v)) with (esc_char c ++ esc v).
  apply (lex_then _ _ _ Data [Char c]); [|done].
  destruct (esc_cases c) as [[-> | [-> | [-> | [-> | ->]]]] | (Hp & _ & ->)]; [done..|].
  by apply (lex_text [c]), Forall_singleton.
Qed.

(** In an attribute's value. *)
Lemma value_one tag attrs name acc c : c <> 34 -> c <> 38 -> lex (Value tag attrs name acc) [c] = (Value tag attrs name (acc ++ [c]), []).
Proof. intros H1 H2. cbn [lex step]. by rewrite (proj2 (Z.eqb_neq c 34) H1), (proj2 (Z.eqb_neq c 38) H2). Qed.

Lemma value_esc tag attrs name acc v :
  lex (Value tag attrs name acc) (esc v) = (Value tag attrs name (acc ++ v), []).
Proof.
  revert acc. induction v as [|c v IH]; intros acc; [by rewrite app_nil_r|].
  change (esc (c :: v)) with (esc_char c ++ esc v).
  apply (lex_then _ _ _ (Value tag attrs name (acc ++ [c])) []); [|by rewrite IH, <- app_assoc].
  destruct (esc_cases c) as [[-> | [-> | [-> | [-> | ->]]]] | ([H1 H2] & H3 & ->)]; [done..|]. by apply value_one.
Qed.

Lemma value_number tag attrs name acc v :
  number_like v -> lex (Value tag attrs name acc) v = (Value tag attrs name (acc ++ v), []).
Proof.
  intros H. revert acc. induction H as [|c v Hc _ IH]; intros acc; [by rewrite app_nil_r|].
  apply (lex_then _ [c] v (Value tag attrs name (acc ++ [c])) []); [|by rewrite IH, <- app_assoc].
  apply value_one; unfold number_char in Hc; lia.
Qed.

Lemma lex_number v : number_like v -> lex Data v = (Data, Char <$> v).
Proof. intros H. by apply lex_text, number_like_plain. Qed.

(** ** Tactics *)

Ltac in_list := apply (bool_decide_unpack _); vm_compute; exact I.

(** An attribute of the page's vocabulary. *)
Ltac attribute :=
  unfold attr_ok;
  first
    [ left; split; [reflexivity|in_list]
    | do 2 right; left; split; [reflexivity|in_list]
    | do 3 right; left; split; reflexivity
    | do 4 right; left; split; reflexivity
    | do 5 right; left; split; [reflexivity|in_list]
    | do 6 right; left; split; reflexivity ].

Ltac vocabulary :=
  repeat first
    [ apply Forall_nil_2 | apply Forall_cons_2 | attribute
    | apply elem_ok; [reflexivity| | intros; discriminate|]
    | apply text_ok; reflexivity ].

(** One segment of a text after the other. *)
Ltac segment :=
  first [ reflexivity | apply lex_esc | apply value_esc | eassumption
        | apply value_number; first [assumption | apply number_text_like]
        | apply lex_number; first [assumption | apply number_text_like | apply to_fixed_like; lia] ].
Ltac segments := repeat (eapply lex_then; [segment|]); try segment.

Lemma lex_to s h s' ts ts' : lex s h = (s', ts) -> ts = ts' -> lex s h = (s', ts').
Proof. by intros -> ->. Qed.

Lemma texts_ok p l : takes_text p = true -> Forall (node_ok p) (Text <$> l).
Proof. intros H. by apply Forall_fmap, Forall_true; constructor. Qed.

(** ** The helpers *)

(** The same text, its constants cut at other places. *)
Ltac resplit := rewrite <- ?app_assoc; reflexivity.
Tactic Notation "cut_as" constr(h) := match goal with |- piece _ ?x _ _ => replace x with h by resplit end.

(** A class of the page in an attribute. *)
Lemma class_lex cls tag : cls ∈ classes -> lex (Value tag [] (bytes "class") []) cls = (Value tag [] (bytes "class") cls, []).
Proof.
  intros H. assert (Hall : Forall (fun c => Forall (fun c => c <> 34 /\ c <> 38) c) classes) by (apply (bool_decide_unpack _); vm_compute; exact I).
  rewrite Forall_forall in Hall. apply Hall in H. clear Hall.
  enough (Hg : forall acc, lex (Value tag [] (bytes "class") acc) cls = (Value tag [] (bytes "class") (acc ++ cls), [])) by apply Hg.
  induction H as [|c cls [H1 H2] _ IH]; intros acc; [by rewrite app_nil_r|].
  apply (lex_then _ [c] cls (Value tag [] (bytes "class") (acc ++ [c])) []); [by apply value_one|by rewrite IH, <- app_assoc].
Qed.

Lemma div_piece p cls h t b : fits p (bytes "div") = true -> cls ∈ classes -> piece (bytes "div") h t b ->
  piece p ((lit "<div class='" ++ cls ++ lit "'>") ++ h ++ lit "</div>") t b.
Proof.
  intros Hp Hc H. eapply (piece_elem p (bytes "div") [(bytes "class", cls)]) in H; [exact H| |done..|].
  - eapply lex_to; [eapply lex_then; [reflexivity|eapply lex_then; [by apply class_lex|reflexivity]]|reflexivity].
  - apply Forall_singleton. by left.
Qed.

Lemma span_piece p cls h t b : fits p (bytes "span") = true -> cls ∈ classes -> piece (bytes "span") h t b ->
  piece p ((lit "<span class='" ++ cls ++ lit "'>") ++ h ++ lit "</span>") t b.
Proof.
  intros Hp Hc H. eapply (piece_elem p (bytes "span") [(bytes "class", cls)]) in H; [exact H| |done..|].
  - eapply lex_to; [eapply lex_then; [reflexivity|eapply lex_then; [by apply class_lex|reflexivity]]|reflexivity].
  - apply Forall_singleton. by left.
Qed.

Lemma piece_join p h1 t1 b1 h2 t2 b2 t b :
  piece p h1 t1 b1 -> piece p h2 t2 b2 -> t = t1 ++ t2 -> b = b1 ++ b2 -> piece p (h1 ++ h2) t b.
Proof. intros H1 H2 -> ->. by apply piece_app. Qed.

Lemma piece_two p h1 t1 h2 t2 : piece p h1 t1 [] -> piece p h2 t2 [] -> piece p (h1 ++ h2) (t1 ++ t2) [].
Proof. apply piece_app. Qed.

(** The elements that hold a cell's or a panel's content. *)
Definition block (p : JsString) : Prop :=
  takes_text p = true /\ fits p (bytes "div") = true /\ fits p (bytes "span") = true.

Lemma esc_piece p v : takes_text p = true -> piece p (esc v) v [].
Proof. intros Hp. by apply piece_chars, lex_esc. Qed.

Lemma number_piece p v : takes_text p = true -> number_like v -> piece p v v [].
Proof. intros Hp Hv. by apply piece_text, number_like_plain. Qed.

Lemma stack_piece p primary secondary cls t1 t2 :
  block p -> cls ∈ classes -> cls <> [] ->
  piece (bytes "span") primary t1 [] -> piece (bytes "span") secondary t2 [] ->
  piece p (stack primary secondary cls) (t1 ++ t2) [].
Proof.
  intros (_ & Hp & _) Hc Hne H1 H2. assert (Hcl : js_or cls (lit "muted") = cls) by (by destruct cls).
  unfold stack. rewrite Hcl.
  cut_as ((lit "<div class='" ++ lit "stack" ++ lit "'>")
    ++ (((lit "<span class='" ++ lit "strong" ++ lit "'>") ++ primary ++ lit "</span>")
       ++ ((lit "<span class='" ++ cls ++ lit "'>") ++ secondary ++ lit "</span>")) ++ lit "</div>").
  apply div_piece; [done|in_list|].
  eapply piece_join; [apply span_piece; [done|in_list|done]|by apply span_piece|done..].
Qed.

Lemma badge_piece p text cls : block p -> lit "pill " ++ cls ∈ classes -> piece p (badge text cls) text [].
Proof.
  intros (_ & _ & Hp) Hc. unfold badge.
  cut_as ((lit "<span class='" ++ (lit "pill " ++ cls) ++ lit "'>") ++ esc text ++ lit "</span>").
  apply span_piece; [done..|]. by apply esc_piece.
Qed.

(** A small line under a cell's text, and a text that stands for a missing one. *)
Lemma muted_piece p h t : block p -> piece (bytes "div") h t [] -> piece p (lit "<div class='muted'>" ++ h ++ lit "</div>") t [].
Proof.
  intros (_ & Hp & _) H. cut_as ((lit "<div class='" ++ lit "muted" ++ lit "'>") ++ h ++ lit "</div>").
  apply div_piece; [done|in_list|done].
Qed.

Lemma muted_span p h t : block p -> piece (bytes "span") h t [] -> piece p (lit "<span class='muted'>" ++ h ++ lit "</span>") t [].
Proof.
  intros (_ & _ & Hp) H. cut_as ((lit "<span class='" ++ lit "muted" ++ lit "'>") ++ h ++ lit "</span>").
  apply span_piece; [done|in_list|done].
Qed.

(** The text of [chips]. *)
Definition chips_text (values : list string) : JsString :=
  let values := nonempty (js <$> values) in
  match values with
  | [] => lit "-"
  | _ => flat_map id (take 8 values) ++ (if (8 <? length values)%nat then lit "+" ++ int_text (Z.of_nat (length values) - 8) else [])
  end.

Lemma pieces_concat {A} p (f g : A -> JsString) l :
  (forall x, piece p (f x) (g x) []) -> piece p (flat_map f l) (flat_map g l) [].
Proof. intros H. induction l as [|x l IH]; [apply piece_nil|]. cbn. by eapply piece_join. Qed.

Lemma chip_piece p h t : block p -> piece (bytes "span") h t [] -> piece p (lit "<span class='chip'>" ++ h ++ lit "</span>") t [].
Proof.
  intros (_ & _ & Hp) H. cut_as ((lit "<span class='" ++ lit "chip" ++ lit "'>") ++ h ++ lit "</span>").
  apply span_piece; [done|in_list|done].
Qed.

Lemma chips_piece p values : block p -> piece p (chips values) (chips_text values) [].
Proof.
  intros Hp. unfold chips, chips_text. destruct (nonempty _) as [|v vs].
  { apply (muted_span p (lit "-")); [done|]. apply number_piece; [done|in_list]. }
  generalize (v :: vs). intros l.
  set (some := take 8 l). set (more := if (8 <? length l)%nat then _ else _).
  cut_as ((lit "<div class='" ++ lit "chips" ++ lit "'>")
    ++ (flat_map (fun v => lit "<span class='chip'>" ++ esc v ++ lit "</span>") some ++ more) ++ lit "</div>").
  destruct Hp as (_ & Hp & _). apply div_piece; [done|in_list|].
  apply (piece_app _ _ (flat_map id some) [] more _ []); [|subst more; destruct (8 <? length l)%nat].
  - apply pieces_concat. intros x. apply chip_piece; [done|by apply esc_piece].
  - set (n := int_text _). cut_as (lit "<span class='chip'>" ++ (lit "+" ++ n) ++ lit "</span>").
    apply chip_piece; [done|]. eapply piece_join; [apply number_piece; [done|in_list]| |done|done].
    apply number_piece; [done|apply number_text_like].
  - apply piece_nil.
Qed.

(** *** The buttons *)

Definition button_attrs (action attr id : JsString) (disabled : bool) (cls : JsString) : list (JsString * JsString) :=
  [(bytes "type", bytes "button"); (bytes "class", cls); (bytes "data-action", action); (attr, id)]
  ++ (if disabled then [(bytes "disabled", [])] else []).

Lemma button_piece p action label attr id disabled cls :
  fits p (bytes "button") = true -> action ∈ actions -> cls ∈ classes ->
  attr = bytes "data-consumer-id" \/ attr = bytes "data-provider-id" ->
  piece p (actionButton action label attr id disabled cls) label [button_attrs action attr id disabled cls].
Proof.
  intros Hp Ha Hc Hattr. unfold actionButton. set (dis := if disabled then _ else _).
  cut_as ((lit "<button type='button' class='" ++ esc cls ++ lit "' data-action='" ++ esc action ++ lit "' " ++ attr ++ lit "='"
    ++ esc id ++ lit "'" ++ dis ++ lit ">") ++ esc label ++ lit "</button>").
  apply (piece_elem p (bytes "button") (button_attrs action attr id disabled cls) _ _ label []); [|done| |done..|].
  - subst dis. destruct Hattr as [-> | ->], disabled; (eapply lex_to; [segments|reflexivity]).
  - by apply esc_piece.
  - unfold button_attrs. repeat (apply Forall_cons; split); try attribute.
    + by left.
    + do 2 right. by left.
    + destruct Hattr as [-> | ->]; [do 7 right; by left|by do 8 right].
    + destruct disabled; vocabulary.
Qed.

(** ** Formatted numbers and dates *)

Lemma plain_number f : Forall plain (number_text f).
Proof. apply number_like_plain, number_text_like. Qed.

Lemma timeAgo_plain v : Forall plain (timeAgo v).
Proof.
  unfold timeAgo. destruct v as [t|]; [|in_list]. cbv zeta.
  destruct (js_eqb _ _); [in_list|]. destruct (negb _); [in_list|].
  do 3 (destruct (flt _ _); [apply Forall_app_2; [apply plain_number|in_list]|]). apply dateString_plain.
Qed.

Lemma formatMicros_plain f : Forall plain (formatMicros f).
Proof. apply moneyFmt_plain. Qed.

Lemma fmt_unit_plain z u : Forall plain (lit u) -> Forall plain (fmt_unit z u).
Proof. intros H. unfold fmt_unit. destruct (js_truthy _); [apply Forall_app_2; [apply fmt_plain|done]|in_list]. Qed.

Lemma strip_plain s : Forall plain s -> Forall plain (strip_point_zero s).
Proof.
  intros H. unfold strip_point_zero. destruct (js_eqb _ _); [by apply Forall_take|done].
Qed.

Lemma formatBPS_plain v : Forall plain (formatBPS v).
Proof.
  unfold formatBPS. destruct v as [z|]; [|in_list]. apply Forall_app_2; [|in_list].
  apply strip_plain, number_like_plain, to_fixed_like. lia.
Qed.

(** ** Tables *)

Definition tr : JsString := bytes "tr".
Definition tbody : JsString := bytes "tbody".

(** The rows of a table's body. *)
Definition table (h : JsString) (rows : list (list JsString)) (btns : list (list (JsString * JsString))) : Prop :=
  exists f, shows h f /\ Forall (node_ok tbody) f /\ cells_of <$> f = rows /\ flat_map buttons_of f = btns.

(** The cells to the end of a row. *)
Definition row_tail (h : JsString) (cells : list JsString) (btns : list (list (JsString * JsString))) : Prop :=
  exists f, lex Data h = (Data, flat_map tokens f ++ [Close tr]) /\ Forall (node_ok tr) f
    /\ text_of <$> f = cells /\ flat_map buttons_of f = btns.

Lemma tail_end : row_tail (lit "</tr>") [] [].
Proof. by exists []. Qed.

Lemma tail_cell h t b rest cells btns :
  piece (bytes "td") h t b -> row_tail rest cells btns -> row_tail (td h ++ rest) (t :: cells) (b ++ btns).
Proof.
  intros (f & Hf & Of & <- & <-) (g & Hg & Og & <- & <-).
  destruct (shows_elem tr (bytes "td") [] (lit "<td>") h f (lit "</td>")) as [H1 H2]; [done..|].
  exists (Elem (bytes "td") [] f :: g). split_and!; [|by constructor|done|done].
  change (flat_map tokens (Elem (bytes "td") [] f :: g) ++ [Close tr])
    with ((tokens (Elem (bytes "td") [] f) ++ flat_map tokens g) ++ [Close tr]).
  rewrite <- app_assoc. eapply lex_then; [|exact Hg]. unfold td. rewrite H1. cbn [flat_map]. by rewrite app_nil_r.
Qed.

Lemma tail_td h t rest cells btns :
  piece (bytes "td") h t [] -> row_tail rest cells btns -> row_tail (td h ++ rest) (t :: cells) btns.
Proof. apply tail_cell. Qed.

Lemma tail_last h t b : piece (bytes "td") h t b -> row_tail (td h ++ lit "</tr>") [t] b.
Proof. intros H. rewrite <- (app_nil_r b). by apply tail_cell, tail_end. Qed.

Lemma table_row h cells btns : row_tail h cells btns -> table (lit "<tr>" ++ h) [cells] btns.
Proof.
  intros (f & Hf & Of & <- & <-). exists [Elem tr [] f]. split_and!.
  - unfold shows. cbn [flat_map tokens app]. rewrite app_nil_r. by apply (lex_then _ _ _ Data [Open tr []]).
  - by repeat constructor.
  - done.
  - cbn. by rewrite app_nil_r.
Qed.

Lemma table_rows {A} (row : A -> JsString) cells btns l :
  (forall x, table (row x) [cells x] (btns x)) -> table (flat_map row l) (cells <$> l) (flat_map btns l).
Proof.
  intros H. induction l as [|x l (g & Hg & Og & Cg & Bg)]; [by exists []|].
  destruct (H x) as (f & Hf & Of & Cf & Bf). exists (f ++ g). cbn [flat_map]. split_and!.
  - by apply shows_app.
  - by apply Forall_app_2.
  - by rewrite fmap_app, Cf, Cg.
  - by rewrite flat_map_app, Bf, Bg.
Qed.

(** *** The nodes *)

Definition health_text (n : NodeView) : JsString :=
  if v_Healthy n && negb (v_InCooldown n) then lit "Healthy" else if v_InCooldown n then lit "Cooldown" else lit "Unhealthy".

Definition observed_text (n : NodeView) : JsString :=
  js_or ((if js_truthy (num (v_ObservedLatencyMs n)) then int_text (v_ObservedLatencyMs n) ++ lit " ms latency" else [])
    ++ (if js_truthy (num (v_ObservedTTFTMs n)) then int_text (v_ObservedTTFTMs n) ++ lit " ms TTFT" else [])
    ++ (if js_truthy (v_ObservedTokensPerSecond n) then to_fixed 2 (v_ObservedTokensPerSecond n) ++ lit " tok/s" else []))
    (lit "no observations").

(** What the row of a node says, cell by cell. *)
Definition node_cells (n : NodeView) : list JsString :=
  [ js_or (js (v_PublicName n)) (js (v_ID n)) ++ js (v_ID n);
    health_text n ++ js (v_LastError n);
    js_or (js (v_ProviderID n)) (lit "-") ++ lit "score " ++ count (v_ProviderScore n);
    (count (v_Active n) ++ lit "/" ++ count (v_MaxConcurrent n)) ++ lit "queue " ++ count (v_QueueDepth n);
    observed_text n;
    chips_text (v_Models n);
    js_or (js_join (lit " / ") (nonempty [js (v_Backend n); js (v_DeviceKind n); js (v_SoC n)])) (lit "-")
      ++ js_join (lit ", ") (js <$> v_Accelerators n);
    timeAgo (Some (v_LastSeen n)) ].

Lemma td_block : block (bytes "td").
Proof. done. Qed.

(** Text around an escaped value, in a small line. *)
Lemma muted_around p pre v post : block p -> Forall plain (lit pre) -> Forall plain (lit post) ->
  piece p (lit ("<div class='muted'>" +:+ pre) ++ esc v ++ lit (post +:+ "</div>")) (lit pre ++ v ++ lit post) [].
Proof.
  intros Hp H1 H2.
  assert (E : forall a b, lit (a +:+ b) = lit a ++ lit b) by (intros a b; unfold lit; by rewrite bytes_app, fmap_app).
  rewrite !E. cut_as (lit "<div class='muted'>" ++ (lit pre ++ esc v ++ lit post) ++ lit "</div>").
  apply muted_piece; [done|]. eapply piece_join; [by apply piece_text| |done|done].
  eapply piece_join; [by apply esc_piece|by apply piece_text|done|done].
Qed.

Lemma muted_before p pre v : block p -> Forall plain (lit pre) ->
  piece p (lit ("<div class='muted'>" +:+ pre) ++ esc v ++ lit "</div>") (lit pre ++ v) [].
Proof.
  intros Hp H. pose proof (muted_around p pre v "" Hp H (Forall_nil_2 _)) as H'.
  change (lit "") with (@nil Z) in H'. by rewrite app_nil_r in H'.
Qed.

Lemma muted_after p v post : block p -> Forall plain (lit post) ->
  piece p (lit "<div class='muted'>" ++ esc v ++ lit (post +:+ "</div>")) (v ++ lit post) [].
Proof. intros Hp. by apply (muted_around p "" v post). Qed.

Lemma stack_text p primary v secondary : block p -> secondary ∈ classes -> secondary <> [] ->
  piece p (stack (esc primary) (esc v) secondary) (primary ++ v) [].
Proof. intros Hp H1 H2. by apply stack_piece; try apply esc_piece. Qed.

(** A text with a separator, and one that is there or not. *)
Lemma nonempty_app x (u : JsString) l : u <> [] -> nonempty ((x ++ u) :: l) = (x ++ u) :: nonempty l.
Proof. intros H. unfold nonempty. rewrite filter_cons_True; [done|]. intros E. by apply app_eq_nil in E as [_ ?]. Qed.

Lemma nonempty_nil l : nonempty ([] :: l) = nonempty l.
Proof. unfold nonempty. rewrite filter_cons_False; [done|]. by intros H. Qed.

Lemma br_piece p : fits p br = true -> piece p (lit "<br>") [] [].
Proof. intros Hp. exists [Elem br [] []]. split_and!; [done| |done..]. apply Forall_singleton. by constructor. Qed.

Lemma join_piece p l ts : fits p br = true -> Forall2 (fun h t => piece p h t []) l ts -> piece p (js_join (lit "<br>") l) (flat_map id ts) [].
Proof.
  intros Hp. induction 1 as [|h t l ts H Hl IH]; [apply piece_nil|].
  destruct Hl as [|h' t' l ts H' Hl]; [cbn; by rewrite app_nil_r|].
  change (js_join _ (h :: h' :: l)) with (h ++ lit "<br>" ++ js_join (lit "<br>") (h' :: l)).
  eapply piece_join; [done|eapply piece_join; [by apply br_piece|exact IH|done|done]|done|done].
Qed.

Lemma js_or_piece p h t d : piece p h t [] -> t <> [] -> piece p (js_or h d) t [].
Proof.
  intros H Ht. destruct h; [|done]. destruct H as (f & Hf & _ & <- & _). exfalso. apply Ht.
  assert (E : flat_map tokens f = []) by (revert Hf; unfold shows; cbn [lex]; congruence).
  destruct f as [|[c|tag attrs children] f]; [done|discriminate..].
Qed.

Lemma unit_piece p v u : takes_text p = true -> Forall plain (lit u) -> piece p (esc v ++ lit u) (v ++ lit u) [].
Proof. intros Hp Hu. eapply piece_join; [by apply esc_piece|by apply piece_text|done|done]. Qed.

(** Values with their units, of which some are there. *)
Definition part (write : JsString -> JsString) (x : bool * JsString * string) : JsString :=
  let '(there, v, u) := x in if there then write v ++ lit u else [].

Lemma parts_piece p l : takes_text p = true -> Forall (fun x => lit x.2 <> [] /\ Forall plain (lit x.2)) l ->
  exists ts, Forall2 (fun h t => piece p h t []) (nonempty (part esc <$> l)) ts /\ flat_map id ts = flat_map (part id) l
    /\ (flat_map (part id) l = [] -> nonempty (part esc <$> l) = []).
Proof.
  intros Hp. induction 1 as [|[[there v] u] l [Hu Hpl] _ (ts & H1 & H2 & H3)]; [by exists []|]. cbn [snd] in *.
  rewrite fmap_cons. cbn [part flat_map]. destruct there.
  - exists ((v ++ lit u) :: ts). rewrite nonempty_app by done. split_and!.
    + constructor; [by apply unit_piece|done].
    + cbn. by rewrite H2.
    + intros E. by apply app_eq_nil in E as [[_ E]%app_eq_nil _].
  - exists ts. by rewrite nonempty_nil.
Qed.

Lemma observed_piece n : piece (bytes "td") (nodeObserved n) (observed_text n) [].
Proof.
  unfold nodeObserved, observed_text.
  generalize (int_text (v_ObservedLatencyMs n)), (int_text (v_ObservedTTFTMs n)), (to_fixed 2 (v_ObservedTokensPerSecond n)). intros a b c.
  generalize (js_truthy (num (v_ObservedLatencyMs n))), (js_truthy (num (v_ObservedTTFTMs n))), (js_truthy (v_ObservedTokensPerSecond n)).
  intros x y z. destruct (parts_piece (bytes "td") [(x, a, " ms latency"); (y, b, " ms TTFT"); (z, c, " tok/s")]) as (ts & H1 & H2 & H3);
    [done|repeat (constructor; [split; [done|in_list]|]); constructor|].
  cbn [fmap list_fmap part flat_map] in H1, H2, H3. rewrite app_nil_r in H2, H3.
  match goal with |- piece _ _ (js_or ?t _) _ =>
    assert (H2' : flat_map id ts = t) by exact H2; assert (H3' : t = [] -> nonempty _ = []) by exact H3;
    clear H2 H3; revert H2' H3'; generalize t end.
  intros text H2 H3. destruct text as [|d text].
  - match goal with |- piece _ (js_or (js_join _ ?l) _) _ _ => replace l with (@nil JsString) by (symmetry; exact (H3 eq_refl)) end.
    cbn. apply (muted_span (bytes "td") (lit "no observations")); [done|]. by apply piece_text; [|in_list].
  - cbn [js_or]. apply js_or_piece; [|done]. rewrite <- H2. by apply join_piece.
Qed.

Lemma node_row n : table (nodeRow n) [node_cells n] [].
Proof.
  unfold nodeRow, node_cells. apply table_row.
  apply tail_td; [apply stack_text; [done|in_list|done]|].
  apply tail_td.
  { apply piece_two.
    - unfold nodeHealth, health_text. repeat case_goal; (apply badge_piece; [done|in_list]).
    - destruct (js (v_LastError n)) as [|c l]; [apply piece_nil|]. apply muted_piece; [done|by apply esc_piece]. }
  apply tail_td.
  { apply stack_piece; [done|in_list|done|by apply esc_piece|]. apply piece_two; [|by apply esc_piece].
    by apply piece_text; [|in_list]. }
  apply tail_td.
  { apply piece_two; [by apply esc_piece|].
    apply (muted_before _ "queue "); [done|in_list]. }
  apply tail_td; [apply observed_piece|].
  apply tail_td; [by apply chips_piece|].
  apply tail_td; [apply stack_text; [done|in_list|done]|].
  apply tail_last. apply piece_text; [done|apply timeAgo_plain].
Qed.

(** *** The providers *)

(** What the row of a provider says. *)
Definition provider_cells (p : ProviderReputation) : list JsString :=
  [ js_or (js (pr_DisplayName p)) (js (pr_ProviderID p)) ++ js (pr_ProviderID p);
    int_text (pr_Score p) ++ lit " / 100 " ++ js (pr_Grade p);
    (count (pr_HealthyNodes p) ++ lit "/" ++ count (pr_TotalNodes p)) ++ count (pr_ActiveRequests p) ++ lit " active";
    count (pr_CompletedEvents p) ++ count (pr_TotalTokens p) ++ lit " tokens";
    formatMicros (or0 (num (pr_RewardMicros p)))
      ++ (if js_truthy (num (pr_PenaltyMicros p)) then lit "penalty " ++ formatMicros (num (pr_PenaltyMicros p)) else []);
    formatBPS (omitempty (pr_ChallengePassRateBPS p)) ++ count (pr_Challenges p) ++ lit " checks";
    chips_text (pr_Notes p);
    lit "Rotate tokenDisableRun challenge" ].

Definition provider_buttons (p : ProviderReputation) : list (list (JsString * JsString)) :=
  let button action cls := button_attrs (bytes action) (bytes "data-provider-id") (js (pr_ProviderID p)) (pr_Disabled p) (bytes cls) in
  [button "rotate-provider" ""; button "disable-provider" "danger"; button "run-challenge" ""].

(** A bar with its width. *)
Lemma progress_piece p cls n : block p -> cls ∈ classes -> number_like n ->
  piece p (lit "<div class='progress'><span class='" ++ cls ++ lit "' style='width:" ++ n ++ lit "%'></span></div>") [] [].
Proof.
  intros (_ & Hp & _) Hc Hn.
  cut_as ((lit "<div class='" ++ lit "progress" ++ lit "'>")
    ++ ((lit "<span class='" ++ cls ++ lit "' style='width:" ++ n ++ lit "%'>") ++ [] ++ lit "</span>") ++ lit "</div>").
  apply div_piece; [done|in_list|].
  apply (piece_elem _ (bytes "span") [(bytes "class", cls); (bytes "style", bytes "width:" ++ n ++ [37])] _ [] [] []); [|done| |done..|].
  - eapply lex_to; [eapply lex_then; [reflexivity|eapply lex_then; [by apply class_lex|segments]]|reflexivity].
  - apply piece_nil.
  - repeat (apply Forall_cons; split); [by left|right; left; split; [done|by exists n]|done].
Qed.

(** An amount with its penalty. *)
Lemma reward_piece reward penalty : piece (bytes "td")
  (formatMicros reward ++ (if js_truthy penalty then lit "<div class='muted'>penalty " ++ formatMicros penalty ++ lit "</div>" else []))
  (formatMicros reward ++ (if js_truthy penalty then lit "penalty " ++ formatMicros penalty else [])) [].
Proof.
  apply piece_two; [by apply piece_text, formatMicros_plain|]. destruct (js_truthy penalty); [|apply piece_nil].
  set (m := formatMicros penalty). cut_as (lit "<div class='muted'>" ++ (lit "penalty " ++ m) ++ lit "</div>").
  apply muted_piece; [done|]. apply piece_text; [done|]. apply Forall_app_2; [in_list|apply formatMicros_plain].
Qed.

Lemma stack_bar h t cls n : piece (bytes "span") h t [] -> cls ∈ classes -> number_like n ->
  piece (bytes "td") (lit "<div class='stack'>" ++ (lit "<span class='strong'>" ++ h ++ lit "</span>")
    ++ (lit "<div class='progress'><span class='" ++ cls ++ lit "' style='width:" ++ n ++ lit "%'></span></div>") ++ lit "</div>") t [].
Proof.
  intros H Hc Hn.
  cut_as ((lit "<div class='" ++ lit "stack" ++ lit "'>") ++ (((lit "<span class='" ++ lit "strong" ++ lit "'>") ++ h ++ lit "</span>")
    ++ (lit "<div class='progress'><span class='" ++ cls ++ lit "' style='width:" ++ n ++ lit "%'></span></div>")) ++ lit "</div>").
  apply div_piece; [done|in_list|]. rewrite <- (app_nil_r t).
  apply piece_two; [apply span_piece; [done|in_list|done]|by apply progress_piece].
Qed.

Lemma provider_row p : table (providerRow p) [provider_cells p] (provider_buttons p).
Proof.
  unfold providerRow, provider_cells. cbv zeta. apply table_row.
  set (cls := if fle (num 75) _ then _ else _).
  assert (Hcls : cls ∈ classes) by (subst cls; repeat case_goal; in_list).
  apply tail_td; [apply stack_text; [done|in_list|done]|].
  apply tail_td.
  { set (w := number_text (clamp _ _ _)). assert (Hw : number_like w) by apply number_text_like.
    assert (Hs : piece (bytes "span") (esc (int_text (pr_Score p)) ++ lit " / 100 " ++ esc (js (pr_Grade p)))
      (int_text (pr_Score p) ++ lit " / 100 " ++ js (pr_Grade p)) []).
    { apply piece_two; [by apply esc_piece|]. apply piece_two; [by apply piece_text; [|in_list]|by apply esc_piece]. }
    pose proof (stack_bar _ _ cls w Hs Hcls Hw) as H. revert H. match goal with |- piece _ ?a _ _ -> piece _ ?b _ _ =>
      replace a with b by resplit end. done. }
  apply tail_td; [apply piece_two; [by apply esc_piece|apply (muted_after _ _ " active"); [done|in_list]]|].
  apply tail_td; [apply piece_two; [by apply esc_piece|apply (muted_after _ _ " tokens"); [done|in_list]]|].
  apply tail_td; [apply reward_piece|].
  apply tail_td.
  { apply piece_two; [by apply piece_text, formatBPS_plain|]. apply (muted_after _ _ " checks"); [done|in_list]. }
  apply tail_td; [by apply chips_piece|].
  apply tail_last. unfold providerActions, provider_buttons. cbv zeta.
  set (b1 := actionButton (lit "rotate-provider") _ _ _ _ _). set (b2 := actionButton (lit "disable-provider") _ _ _ _ _).
  set (b3 := actionButton (lit "run-challenge") _ _ _ _ _).
  cut_as ((lit "<div class='" ++ lit "action-buttons" ++ lit "'>") ++ (b1 ++ b2 ++ b3) ++ lit "</div>").
  apply div_piece; [done|in_list|].
  eapply piece_join; [apply button_piece|eapply piece_join; [apply button_piece|apply button_piece|reflexivity|reflexivity]|reflexivity|reflexivity];
    first [done|in_list|by left|by right].
Qed.

(** *** The consumers *)

Definition quota_text (c : Consumer) (used : float) : JsString :=
  let limit := or0 (num (cn_TotalTokenLimit c)) in
  if js_truthy limit then fmt_format used ++ lit " / " ++ fmt_format limit else lit "unlimited".

(** What the row of a consumer says, its usage being the last row of the usage table with its id. *)
Definition consumer_cells (usage : list Usage) (c : Consumer) : list JsString :=
  let u := indexBy usage (cn_ID c) in
  let used := or0 (num (from_option us_TotalTokens 0 u)) in
  [ js_or (js (cn_DisplayName c)) (js (cn_ID c)) ++ js (cn_ID c);
    (if cn_Disabled c then lit "Disabled" else lit "Active");
    fmt0 (from_option us_Requests 0 u);
    fmt_format used;
    quota_text c used;
    timeAgo (us_UpdatedAt <$> u);
    lit "Rotate keyDisable" ].

Definition consumer_buttons (c : Consumer) : list (list (JsString * JsString)) :=
  let button action cls := button_attrs (bytes action) (bytes "data-consumer-id") (js (cn_ID c)) (cn_Disabled c) (bytes cls) in
  [button "rotate-consumer" ""; button "disable-consumer" "danger"].

Lemma quota_piece c used : piece (bytes "td") (consumerQuota c used) (quota_text c used) [].
Proof.
  unfold consumerQuota, quota_text. cbv zeta. set (limit := or0 _). destruct (js_truthy limit).
  - set (w := number_text _). set (cls := if cn_Disabled c then _ else _).
    assert (Hcls : cls ∈ classes) by (subst cls; repeat case_goal; in_list).
    assert (Ht : Forall plain (fmt_format used ++ lit " / " ++ fmt_format limit)).
    { repeat apply Forall_app_2; [apply fmt_plain|in_list|apply fmt_plain]. }
    assert (Hw : number_like w) by apply number_text_like.
    cut_as ((lit "<div class='" ++ lit "stack" ++ lit "'>") ++ ((lit "<span>" ++ (fmt_format used ++ lit " / " ++ fmt_format limit) ++ lit "</span>")
      ++ (lit "<div class='progress'><span class='" ++ cls ++ lit "' style='width:" ++ w ++ lit "%'></span></div>")) ++ lit "</div>").
    revert Ht. generalize (fmt_format used ++ lit " / " ++ fmt_format limit). intros t Ht.
    apply div_piece; [done|in_list|]. rewrite <- (app_nil_r t) at 2. apply piece_two; [|by apply progress_piece].
    apply (piece_elem _ (bytes "span") [] _ t t []); [done|done|by apply piece_text|done..].
  - apply (muted_span _ (lit "unlimited")); [done|]. by apply piece_text; [|in_list].
Qed.

Lemma consumer_row usage c : table (consumerRow usage c) [consumer_cells usage c] (consumer_buttons c).
Proof.
  unfold consumerRow, consumer_cells. cbv zeta. apply table_row.
  apply tail_td; [apply stack_text; [done|in_list|done]|].
  apply tail_td; [destruct (cn_Disabled c); (apply badge_piece; [done|in_list])|].
  apply tail_td; [apply piece_text; [done|apply fmt_plain]|].
  apply tail_td; [apply piece_text; [done|apply fmt_plain]|].
  apply tail_td; [apply quota_piece|].
  apply tail_td; [apply piece_text; [done|apply timeAgo_plain]|].
  apply tail_last. unfold consumerActions, consumer_buttons. cbv zeta.
  set (b1 := actionButton (lit "rotate-consumer") _ _ _ _ _). set (b2 := actionButton (lit "disable-consumer") _ _ _ _ _).
  cut_as ((lit "<div class='" ++ lit "action-buttons" ++ lit "'>") ++ (b1 ++ b2) ++ lit "</div>").
  apply div_piece; [done|in_list|].
  eapply piece_join; [apply button_piece|apply button_piece|reflexivity|reflexivity]; first [done|in_list|by left|by right].
Qed.

(** *** The rewards *)

Definition reward_cells (b : Balance) : list JsString :=
  [ js (b_AccountID b);
    fmt0 (b_TotalTokens b);
    formatMicros (or0 (num (b_RewardMicros b)))
      ++ (if js_truthy (num (b_PenaltyMicros b)) then lit "penalty " ++ formatMicros (num (b_PenaltyMicros b)) else []);
    fmt_unit (b_AverageLatencyMs b) " ms" ].

Lemma reward_row b : table (rewardRow b) [reward_cells b] [].
Proof.
  unfold rewardRow, reward_cells. apply table_row.
  apply tail_td; [by apply esc_piece|].
  apply tail_td; [apply piece_text; [done|apply fmt_plain]|].
  apply tail_td; [apply reward_piece|].
  apply tail_last, piece_text; [done|]. apply fmt_unit_plain. in_list.
Qed.

(** A table without rows says so. *)
Lemma empty_row h text :
  lex Data h = (Data, Open tr [] :: Open (bytes "td") [(bytes "colspan", text.1); (bytes "class", bytes "empty")]
    :: (Char <$> text.2) ++ [Close (bytes "td"); Close tr]) ->
  number_like text.1 -> table h [[text.2]] [].
Proof.
  intros Hl Hn. exists [Elem tr [] [Elem (bytes "td") [(bytes "colspan", text.1); (bytes "class", bytes "empty")] (Text <$> text.2)]].
  split_and!.
  - unfold shows. rewrite Hl. f_equal. cbn [flat_map tokens]. change (js_eqb tr br) with false.
    change (js_eqb (bytes "td") br) with false. cbv iota. rewrite text_tokens, !app_nil_r. cbn [app]. by rewrite <- app_assoc.
  - apply Forall_singleton, elem_ok; [done|constructor|done|]. apply Forall_singleton, elem_ok; [done| |done|by apply texts_ok].
    apply Forall_cons. split; [by do 5 right; left|]. apply Forall_singleton. left. split; [done|in_list].
  - cbn. by rewrite text_text.
  - cbn. by rewrite text_buttons.
Qed.

(** ** The panels *)

Definition safe (p : JsString) (h : JsString) : Prop := exists t b, piece p h t b.

Lemma safe_text h : Forall plain h -> safe (bytes "div") h.
Proof. intros H. exists h, []. by apply piece_text. Qed.

Lemma safe_app p h1 h2 : safe p h1 -> safe p h2 -> safe p (h1 ++ h2).
Proof. intros (t1 & b1 & H1) (t2 & b2 & H2). exists (t1 ++ t2), (b1 ++ b2). by apply piece_app. Qed.

Lemma safe_concat p l : Forall (safe p) l -> safe p (concat l).
Proof. induction 1 as [|h l H _ IH]; [exists [], []; apply piece_nil|]. by apply safe_app. Qed.

Lemma plain_div_piece h t b : piece (bytes "div") h t b -> piece (bytes "div") (lit "<div>" ++ h ++ lit "</div>") t b.
Proof. intros H. by apply (piece_elem _ (bytes "div") [] _ h t b). Qed.

Lemma kv_safe key h : safe (bytes "div") h -> safe (bytes "div") (kv key h).
Proof.
  intros H. unfold kv. assert (Hv : safe (bytes "div") (js_or h (lit "-"))).
  { destruct h; [|done]. apply safe_text. in_list. }
  destruct Hv as (t & b & Hv). revert Hv. generalize (js_or h (lit "-")). intros v Hv. exists (key ++ t), b.
  cut_as ((lit "<div class='" ++ lit "kv" ++ lit "'>")
    ++ (((lit "<div class='" ++ lit "k" ++ lit "'>") ++ esc key ++ lit "</div>") ++ (lit "<div>" ++ v ++ lit "</div>")) ++ lit "</div>").
  apply div_piece; [done|in_list|]. apply (piece_app _ _ key [] _ t b); [|by apply plain_div_piece].
  apply div_piece; [done|in_list|by apply esc_piece].
Qed.

Lemma div_block : block (bytes "div").
Proof. done. Qed.

Lemma chips_safe values : safe (bytes "div") (chips values).
Proof. eexists _, []. by apply chips_piece. Qed.

Lemma esc_safe v : safe (bytes "div") (esc v).
Proof. eexists _, []. by apply esc_piece. Qed.

Lemma hash_safe hash : safe (bytes "div") (hashSpan hash).
Proof.
  eexists _, []. unfold hashSpan. set (v := shortHash hash).
  cut_as ((lit "<span class='" ++ lit "mono" ++ lit "'>") ++ esc v ++ lit "</span>").
  apply span_piece; [done|in_list|by apply esc_piece].
Qed.

Lemma statusText_safe v : safe (bytes "div") (statusText v).
Proof.
  destruct v as [[valid events]|]; [|apply safe_text; in_list]. unfold statusText. apply safe_app.
  - eexists _, []. apply badge_piece; [done|destruct valid; in_list].
  - set (n := number_text _). eexists _, [].
    cut_as (lit " " ++ ((lit "<span class='" ++ lit "muted" ++ lit "'>") ++ (esc n ++ lit " events") ++ lit "</span>")).
    apply piece_two; [by apply piece_text; [|in_list]|]. apply span_piece; [done|in_list|].
    apply unit_piece; [done|in_list].
Qed.

(** The button that copies the anchor hash. *)
Definition copy_attrs : list (JsString * JsString) := [(bytes "id", bytes "copyAnchorHash"); (bytes "type", bytes "button")].

Lemma copy_piece : piece (bytes "div") (lit " <button id='copyAnchorHash' type='button'>Copy anchor hash</button>")
  (lit " Copy anchor hash") [copy_attrs].
Proof.
  exists [Text 32; Elem (bytes "button") copy_attrs (Text <$> lit "Copy anchor hash")]. split_and!; [by vm_compute| |done..].
  repeat (apply Forall_cons; split); [by constructor| |done].
  apply elem_ok; [done| |done|by apply texts_ok]. vocabulary.
Qed.

Create HintDb panel.
Hint Resolve chips_safe esc_safe hash_safe statusText_safe kv_safe : panel.

Ltac panel :=
  apply safe_concat; repeat (apply Forall_cons; split); try apply Forall_nil_2; apply kv_safe; try solve [eauto with panel].

Lemma network_safe s : safe (bytes "div") (concat
  [ kv (lit "Models") (chips (ns_Models s)); kv (lit "Backends") (chips (ns_Backends s));
    kv (lit "Devices") (chips (ns_DeviceKinds s)); kv (lit "Accelerators") (chips (ns_Accelerators s));
    kv (lit "Cities") (chips (ns_Cities s)); kv (lit "Avg latency") (fmt_unit (ns_AverageLatencyMs s) " ms");
    kv (lit "Avg TTFT") (fmt_unit (ns_AverageTTFTMs s) " ms");
    kv (lit "Avg tok/s") (if js_truthy (ns_AverageTokensPerSecond s) then to_fixed 2 (ns_AverageTokensPerSecond s) else lit "-");
    kv (lit "Free memory") (fmt_unit (ns_TotalMemoryFreeMB s) " MB") ]).
Proof.
  panel; try (apply safe_text, fmt_unit_plain; in_list).
  destruct (js_truthy _); apply safe_text; [|in_list]. apply number_like_plain, to_fixed_like. lia.
Qed.

(** The elements that take markup: four tables' bodies and three panels. *)
Definition container (el : string) : JsString :=
  if bool_decide (el ∈ ["nodesBody"; "providersBody"; "consumersBody"; "rewardsBody"]) then tbody else bytes "div".

Definition safe_update (u : Update) : Prop :=
  match u with
  | SetHTML el h => exists f, read_html h = Some f /\ Forall (node_ok (container el)) f
  | _ => True
  end.

Lemma safe_html el h : container el = bytes "div" -> safe (bytes "div") h -> safe_update (SetHTML el h).
Proof. intros Hc (t & b & f & Hf & Of & _). exists f. rewrite Hc. split; [by eapply shows_read|done]. Qed.

Lemma table_html el h rows btns : container el = tbody -> table h rows btns -> safe_update (SetHTML el h).
Proof. intros Hc (f & Hf & Of & _). exists f. rewrite Hc. split; [by eapply shows_read|done]. Qed.

(** The rows of a table that says so when it has none. *)
Definition or_empty (text : string) (rows : list (list JsString)) : list (list JsString) :=
  match rows with [] => [[lit text]] | _ => rows end.

Lemma body_table {A} (row : A -> JsString) cells btns none text l :
  (forall x, table (row x) [cells x] (btns x)) -> table none [[lit text]] [] ->
  table (match l with [] => none | _ => flat_map row l end) (or_empty text (cells <$> l)) (flat_map btns l).
Proof. intros H Hn. destruct l as [|x l]; [done|]. exact (table_rows row cells btns (x :: l) H). Qed.

Lemma nodes_body l : table (match l with [] => lit "<tr><td colspan='8' class='empty'>No nodes connected</td></tr>" | _ => flat_map nodeRow l end)
  (or_empty "No nodes connected" (node_cells <$> l)) (flat_map (fun _ => []) l).
Proof. apply body_table; [apply node_row|]. by apply (empty_row _ (bytes "8", lit "No nodes connected")); [|in_list]. Qed.

Lemma providers_body l : table (match l with [] => lit "<tr><td colspan='8' class='empty'>No providers yet</td></tr>" | _ => flat_map providerRow l end)
  (or_empty "No providers yet" (provider_cells <$> l)) (flat_map provider_buttons l).
Proof. apply body_table; [apply provider_row|]. by apply (empty_row _ (bytes "8", lit "No providers yet")); [|in_list]. Qed.

Lemma consumers_body usage l :
  table (match l with [] => lit "<tr><td colspan='7' class='empty'>No consumers configured</td></tr>" | _ => flat_map (consumerRow usage) l end)
  (or_empty "No consumers configured" (consumer_cells usage <$> l)) (flat_map consumer_buttons l).
Proof. apply body_table; [apply consumer_row|]. by apply (empty_row _ (bytes "7", lit "No consumers configured")); [|in_list]. Qed.

Lemma rewards_body l : table (match l with [] => lit "<tr><td colspan='4' class='empty'>No provider rewards yet</td></tr>" | _ => flat_map rewardRow l end)
  (or_empty "No provider rewards yet" (reward_cells <$> l)) (flat_map (fun _ => []) l).
Proof. apply body_table; [apply reward_row|]. by apply (empty_row _ (bytes "4", lit "No provider rewards yet")); [|in_list]. Qed.

Lemma settlement_safe st : Forall safe_update (renderSettlement st).
Proof.
  unfold renderSettlement. set (s := default _ _). repeat (apply Forall_cons; split); try done. apply safe_html; [done|]. panel.
  - apply safe_text, fmt_plain.
  - destruct (js (ls_LastHash s)); [apply safe_text; in_list|apply hash_safe].
  - destruct (js_truthy _); apply safe_text; [apply Forall_app_2; [apply formatMicros_plain|in_list]|in_list].
  - destruct (js_truthy _); apply safe_text; [apply formatBPS_plain|in_list].
  - apply safe_text, fmt_unit_plain. in_list.
Qed.

Lemma integrity_safe st : Forall safe_update (renderIntegrity st).
Proof.
  unfold renderIntegrity. cbv zeta. repeat (apply Forall_cons; split); try done. apply safe_html; [done|]. panel.
  - destruct (js _) as [|c v]; [apply safe_text; in_list|]. apply safe_app; [apply hash_safe|].
    eexists _, _. apply copy_piece.
  - destruct (st_integrity st); apply safe_text; [apply localeString_plain|in_list].
Qed.

(** ** The properties *)

(** C18: Whatever the coordinator's reports contain (names, models, errors, ids and hashes that nodes and
    administrators chose), every markup the page sets is read as the page's own elements in their
    places: rows and cells in the tables, blocks, spans, line breaks and buttons in cells and panels,
    with classes of the style sheet and no attribute that runs or loads anything. *)
Theorem dashboard_no_injection cloudPrice st errors el h :
  SetHTML el h ∈ render cloudPrice st errors -> exists f, read_html h = Some f /\ Forall (node_ok (container el)) f.
Proof.
  enough (H : Forall safe_update (render cloudPrice st errors)).
  { rewrite Forall_forall in H. intros Hin. exact (H _ Hin). }
  unfold render. repeat (apply Forall_app_2).
  - by repeat constructor.
  - destruct errors; by repeat constructor.
  - by repeat constructor.
  - unfold renderNetwork. repeat (apply Forall_cons; split); try done. apply safe_html; [done|apply network_safe].
  - repeat (apply Forall_cons; split); try done. eapply table_html; [done|apply nodes_body].
  - repeat (apply Forall_cons; split); try done. eapply table_html; [done|apply providers_body].
  - repeat (apply Forall_cons; split); try done. eapply table_html; [done|apply consumers_body].
  - apply settlement_safe.
  - repeat (apply Forall_cons; split); try done. eapply table_html; [done|apply rewards_body].
  - apply integrity_safe.
Qed.

(** The markup an update gives an element. *)
Definition html_of (el : string) (us : list Update) : list JsString :=
  omap (fun u => match u with SetHTML el' h => if el' =s el then Some h else None | _ => None end) us.

(** The page shows an element as [f]. *)
Definition shown (el : string) (us : list Update) (f : list Html) : Prop :=
  exists h, html_of el us = [h] /\ read_html h = Some f.

Lemma table_shown el us h rows btns :
  html_of el us = [h] -> table h rows btns -> exists f, shown el us f /\ cells_of <$> f = rows /\ flat_map buttons_of f = btns.
Proof. intros Hh (f & Hf & Of & Cf & Bf). exists f. split; [|done]. exists h. split; [done|]. by eapply shows_read. Qed.

Lemma no_buttons {A} (l : list A) : flat_map (fun _ => @nil (list (JsString * JsString))) l = [].
Proof. by induction l. Qed.

(** C22: The page's tables say what the reports say: a row per node, provider, consumer and provider
    balance, in the reports' order, each cell's text read back from the markup being the text of its
    fields, and the buttons of a row being those of its account. *)
Theorem dashboard_tables cloudPrice st errors :
  let us := render cloudPrice st errors in
  let providers := from_option rp_Providers [] (st_reputation st) in
  let consumers := from_option sn_Consumers [] (st_city st) in
  let usage := from_option sn_ConsumerUsage [] (st_city st) in
  let balances := from_option ls_ProviderBalances [] (st_settlement st) in
  (exists f, shown "nodesBody" us f /\ cells_of <$> f = or_empty "No nodes connected" (node_cells <$> st_nodes st)
    /\ flat_map buttons_of f = [])
  /\ (exists f, shown "providersBody" us f /\ cells_of <$> f = or_empty "No providers yet" (provider_cells <$> providers)
    /\ flat_map buttons_of f = flat_map provider_buttons providers)
  /\ (exists f, shown "consumersBody" us f /\ cells_of <$> f = or_empty "No consumers configured" (consumer_cells usage <$> consumers)
    /\ flat_map buttons_of f = flat_map consumer_buttons consumers)
  /\ (exists f, shown "rewardsBody" us f /\ cells_of <$> f = or_empty "No provider rewards yet" (reward_cells <$> balances)
    /\ flat_map buttons_of f = []).
Proof.
  intros us providers consumers usage balances.
  split_and!.
  - rewrite <- (no_buttons (st_nodes st)). eapply table_shown; [|apply nodes_body]. subst us. destruct errors; reflexivity.
  - eapply table_shown; [|apply providers_body]. subst us. destruct errors; reflexivity.
  - eapply table_shown; [|apply consumers_body]. subst us. destruct errors; reflexivity.
  - rewrite <- (no_buttons balances). eapply table_shown; [|apply rewards_body]. subst us. destruct errors; reflexivity.
Qed.

(** The pass rate of a provider that failed every challenge is a dash, as if there had been none:
    [formatBPS] can write [0%], but the report leaves a zero out. *)
Theorem zero_pass_rate_hidden p : pr_ChallengePassRateBPS p = 0 ->
  nth_error (provider_cells p) 5 = Some (lit "-" ++ count (pr_Challenges p) ++ lit " checks") /\ formatBPS (Some 0) = lit "0%".
Proof. intros H. split; [unfold provider_cells; by rewrite H|by vm_compute]. Qed.
End Reading.
