(* ===== verification/DashboardActions.v ===== *)
(** * The buttons of the administration page reach the account they stand for

    A button's request goes through [encodeURIComponent], the request line, and [http.ServeMux] to
    a handler with an account id.  [encode_unescape] is the round trip of the encoding,
    [dashboard_actions] the whole way, from the markup of a table to the administration endpoint
    of exactly the account of the row. *)

From Stdlib Require Import ZifyBool.
From S2P Require Import Prelude GoString GoSort GoFloat GoFormat Json JsonDecode JsonRoundTrip Privacy Protocol.
From S2P Require Import Config ModelCatalog Settlement Scheduler Challenge City Reputation CityProofs Requests Services.
From S2P Require Import Handlers AdminHandlers Router Js Html Dashboard DashboardProofs.

(** ** [encodeURIComponent] and [url.PathUnescape] *)

Lemma hex_upper_digit d : 0 <= d < 16 -> is_hex (hex_upper d) = true /\ hex_value (hex_upper d) = d.
Proof.
  intros H. unfold hex_upper, is_hex, is_dig, hex_value. destruct (d <? 10) eqn:E;
    [replace (48 + d <=? 57) with true by lia; lia|].
  replace (55 + d <=? 57) with false by lia. replace (55 + d <=? 70) with true by lia. lia.
Qed.

Lemma unescape_percent plus b t : 0 <= b < 256 -> url_unescape plus (percent b ++ t) = cons b <$> url_unescape plus t.
Proof.
  intros Hb. destruct (hex_upper_digit (b / 16)) as [H1 H2]; [dlia|]. destruct (hex_upper_digit (b mod 16)) as [H3 H4]; [dlia|].
  cbn [percent app url_unescape]. change (37 =? 37) with true. cbv iota. rewrite H1, H2, H3, H4. cbn [andb].
  by replace (16 * (b / 16) + b mod 16) with b by dlia.
Qed.

Lemma unescape_percents plus raw t : Forall (fun b => 0 <= b < 256) raw ->
  url_unescape plus (flat_map percent raw ++ t) = app raw <$> url_unescape plus t.
Proof.
  induction 1 as [|b raw Hb _ IH]; [cbn; by destruct (url_unescape plus t)|].
  cbn [flat_map]. rewrite <- app_assoc, unescape_percent, IH by done. by destruct (url_unescape plus t).
Qed.

(** The characters of an encoded component: no separator, no bracket, nothing to escape again. *)
Definition uri_char (c : Z) : bool := uri_unreserved c || (c =? 37).

Lemma percent_chars raw : Forall (fun b => 0 <= b < 256) raw -> Forall (fun c => uri_char c = true) (flat_map percent raw).
Proof.
  assert (Hd : forall d, 0 <= d < 16 -> uri_char (hex_upper d) = true).
  { intros d H. unfold uri_char, uri_unreserved, hex_upper. destruct (d <? 10) eqn:E; lia. }
  induction 1 as [|b raw Hb _ IH]; [constructor|]. cbn [flat_map percent app].
  repeat (apply Forall_cons; split); [done|apply Hd; dlia|apply Hd; dlia|done].
Qed.

(** A rune of valid text is a scalar value. *)
Lemma stable_scalar r raw : stable (r, raw) -> 0 <= r <= 1114111 /\ ~ 55296 <= r <= 57343.
Proof.
  intros Hs. pose proof (stable_nonneg _ _ Hs) as H0. destruct Hs as (Hd & He & _).
  destruct (decide (r <= 1114111 /\ ~ 55296 <= r <= 57343)) as [H|H]; [lia|exfalso]. specialize (Hd []).
  unfold encode_rune in He. replace ((0 <=? r) && (r <? 128)) with false in He by lia.
  replace ((128 <=? r) && (r <? 2048)) with false in He by lia.
  replace ((r <? 0) || (1114111 <? r) || ((55296 <=? r) && (r <=? 57343))) with true in He by lia.
  rewrite <- He in Hd. vm_compute in Hd. injection Hd as <-. lia.
Qed.

Lemma encode_rune_bytes r : 0 <= r <= 1114111 -> Forall (fun b => 0 <= b < 256) (encode_rune r).
Proof. intros H. unfold encode_rune. repeat case_goal; repeat (apply Forall_cons; split); try apply Forall_nil_2; dlia. Qed.

(** What [encodeURIComponent] makes of one rune of valid text. *)
Lemma encode_one r raw rest e : stable (r, raw) -> encodeURIComponent rest = Some e ->
  exists u, encodeURIComponent (utf16 r ++ rest) = Some (u ++ e)
    /\ (forall plus t, url_unescape plus (u ++ t) = app raw <$> url_unescape plus t)
    /\ Forall (fun c => uri_char c = true) u /\ u <> []
    /\ (uri_unreserved r = true -> u = [r]).
Proof.
  intros Hs He. pose proof (stable_scalar _ _ Hs) as [Hr Hsur]. destruct Hs as (_ & Hraw & Hne).
  assert (Hb : Forall (fun b => 0 <= b < 256) raw) by (rewrite <- Hraw; by apply encode_rune_bytes).
  destruct (uri_unreserved r) eqn:Eu.
  - assert (Hlow : r < 128 /\ r <> 37 /\ r <> 43) by (revert Eu; unfold uri_unreserved; lia).
    assert (raw = [r]) as ->.
    { rewrite <- Hraw. unfold encode_rune. by replace ((0 <=? r) && (r <? 128)) with true by lia. }
    exists [r]. split_and!; [| |by repeat constructor; unfold uri_char; rewrite Eu|done|done].
    + unfold utf16. replace (r <? 65536) with true by lia. cbn [app encodeURIComponent]. by rewrite Eu, He.
    + intros plus t. cbn [app url_unescape]. replace (r =? 37) with false by lia. by replace (r =? 43) with false by lia; rewrite andb_false_r.
  - exists (flat_map percent raw). split_and!; [|intros; by apply unescape_percents|by apply percent_chars|by destruct raw|done].
    unfold utf16. destruct (r <? 65536) eqn:E16.
    + cbn [app encodeURIComponent]. rewrite Eu. replace ((56320 <=? r) && (r <=? 57343)) with false by lia.
      replace ((55296 <=? r) && (r <=? 56319)) with false by lia. rewrite He. cbn. unfold percents. by rewrite Hraw.
    + cbn [app encodeURIComponent]. set (hi := 55296 + _). set (lo := 56320 + _).
      assert (Hhi : 55296 <= hi <= 56319) by (subst hi; dlia). assert (Hlo : 56320 <= lo <= 57343) by (subst lo; dlia).
      assert (Hu : uri_unreserved hi = false) by (unfold uri_unreserved; lia). rewrite Hu.
      replace ((56320 <=? hi) && (hi <=? 57343)) with false by lia. replace ((55296 <=? hi) && (hi <=? 56319)) with true by lia.
      replace ((56320 <=? lo) && (lo <=? 57343)) with true by lia. rewrite He. cbn. unfold percents.
      replace ((hi - 55296) * 1024 + (lo - 56320) + 65536) with r by (subst hi lo; dlia). by rewrite Hraw.
Qed.

(** Encoding any valid text and unescaping it, as a path segment or in a query, gives its bytes. *)
Lemma encode_segments segs : Forall stable segs ->
  exists e, encodeURIComponent (flat_map utf16 (fst <$> segs)) = Some e
    /\ (forall plus, url_unescape plus e = Some (flat_map snd segs))
    /\ Forall (fun c => uri_char c = true) e /\ (e = [] -> segs = []).
Proof.
  induction 1 as [|[r raw] segs Hs _ (e & He & Hu & Hc & _)]; [by exists []|].
  destruct (encode_one r raw _ e Hs He) as (u & H1 & H2 & H3 & H4 & _). exists (u ++ e). split_and!; [done| | |].
  - intros plus. rewrite H2, Hu. done.
  - by apply Forall_app_2.
  - intros E. by apply app_eq_nil in E as [? _].
Qed.

Lemma encode_unescape s : valid_utf8 s = true -> s <> "" ->
  exists e, encodeURIComponent (js s) = Some e /\ (forall plus, url_unescape plus e = Some (bytes s))
    /\ Forall (fun c => uri_char c = true) e /\ e <> [].
Proof.
  intros Hv Hne. destruct (segments_stable (bytes s) (bytes_range s) Hv) as [Hs Hc].
  destruct (encode_segments _ Hs) as (e & H1 & H2 & H3 & H4). exists e. rewrite Hc in H2. split_and!; try done.
  intros E. apply H4 in E. apply Hne. apply bytes_inj. by rewrite <- Hc, E.
Qed.

(** ** Paths *)

Lemma unescape_app plus a x t : url_unescape plus a = Some x -> url_unescape plus (a ++ t) = app x <$> url_unescape plus t.
Proof.
  revert x. induction a as [a IH] using (induction_ltof1 _ (@length Z)). unfold ltof in IH.
  intros x H. destruct a as [|c a]; [injection H as <-; cbn; by destruct (url_unescape plus t)|].
  cbn [app url_unescape] in *. destruct (c =? 37).
  - destruct a as [|h [|k a]]; [done..|]. cbn [app]. destruct (is_hex h && is_hex k); [|done].
    destruct (url_unescape plus a) as [y|] eqn:E; [|done]. injection H as <-. rewrite (IH a) with (x := y) by (simpl; first [lia|done]).
    by destruct (url_unescape plus t).
  - destruct (url_unescape plus a) as [y|] eqn:E; [|done]. injection H as <-. rewrite (IH a) with (x := y) by (simpl; first [lia|done]).
    by destruct (url_unescape plus t).
Qed.

(** A segment of a path that is neither empty nor a step in the tree, and what it stands for. *)
Definition segment_for (s u : list Z) : Prop :=
  s <> [] /\ s <> [46] /\ s <> [46; 46] /\ Forall (fun c => uri_char c = true) s /\ url_unescape false s = Some u.

Definition rooted (segs : list (list Z)) : list Z := flat_map (cons 47) segs.

Lemma uri_char_not c : uri_char c = true -> c <> 47 /\ c <> 63 /\ c <> 38 /\ c <> 59 /\ c <> 61.
Proof. unfold uri_char, uri_unreserved. lia. Qed.

Lemma split_on_none c l : Forall (fun d => d <> c) l -> split_on c l = [l].
Proof. induction 1 as [|d l Hd _ IH]; [done|]. cbn [split_on]. by rewrite (proj2 (Z.eqb_neq d c) Hd), IH. Qed.

Lemma split_on_app c a b : Forall (fun d => d <> c) a -> split_on c (a ++ c :: b) = a :: split_on c b.
Proof.
  induction 1 as [|d a Hd _ IH]; cbn [app split_on]; [by rewrite Z.eqb_refl|].
  by rewrite (proj2 (Z.eqb_neq d c) Hd), IH.
Qed.

Lemma cut_at_app c a b : Forall (fun d => d <> c) a -> cut_at c (a ++ c :: b) = (a, Some b).
Proof.
  induction 1 as [|d a Hd _ IH]; cbn [app cut_at]; [by rewrite Z.eqb_refl|].
  by rewrite (proj2 (Z.eqb_neq d c) Hd), IH.
Qed.

Lemma cut_at_none c a : Forall (fun d => d <> c) a -> cut_at c a = (a, None).
Proof. induction 1 as [|d a Hd _ IH]; [done|]. cbn [cut_at]. by rewrite (proj2 (Z.eqb_neq d c) Hd), IH. Qed.

Lemma segment_no s u c : segment_for s u -> c = 47 \/ c = 63 -> Forall (fun d => d <> c) s.
Proof.
  intros (_ & _ & _ & H & _) Hc. eapply Forall_impl; [exact H|]. intros d Hd. apply uri_char_not in Hd. destruct Hc; lia.
Qed.

Lemma split_rooted segs us : Forall2 segment_for segs us -> split_on 47 (rooted segs) = [] :: segs.
Proof.
  intros H. destruct H as [|s u segs us Hs H]; [done|].
  revert s u Hs. induction H as [|s' u' segs us Hs' H IH]; intros s u Hs.
  - cbn. rewrite app_nil_r, split_on_none; [done|]. by apply (segment_no _ u); [|left].
  - change (rooted (s :: s' :: segs)) with (47 :: (s ++ 47 :: (s' ++ rooted segs))).
    cbn [split_on]. change (47 =? 47) with true. cbv iota.
    rewrite split_on_app by (by apply (segment_no _ u); [|left]). f_equal.
    specialize (IH s' u' Hs').
    change (rooted (s' :: segs)) with (47 :: (s' ++ rooted segs)) in IH. cbn [split_on] in IH.
    change (47 =? 47) with true in IH. cbv iota in IH. injection IH as IH. exact (f_equal (cons s) IH).
Qed.

Lemma clean_rooted segs us acc : Forall2 segment_for segs us -> clean_segments acc segs = rev acc ++ segs.
Proof.
  intros H. revert acc. induction H as [|s u segs us (H1 & H2 & H3 & _) _ IH]; intros acc; cbn [clean_segments]; [by rewrite app_nil_r|].
  rewrite (bool_decide_eq_false_2 _ H1), (bool_decide_eq_false_2 _ H2), (bool_decide_eq_false_2 _ H3). cbn [orb].
  rewrite IH. cbn [rev]. by rewrite <- app_assoc.
Qed.

Lemma rooted_last segs us : Forall2 segment_for segs us -> ends_with_slash (rooted segs) = true -> segs = [].
Proof.
  intros H Hl. destruct segs as [|s segs] using rev_ind; [done|exfalso]. clear IHsegs.
  apply Forall2_app_inv_l in H as (us1 & us2 & _ & H & ->). inversion H as [|? u ? ? Hs _]; subst.
  unfold rooted in Hl. rewrite flat_map_app in Hl. cbn [flat_map] in Hl. rewrite app_nil_r in Hl.
  unfold ends_with_slash in Hl. apply bool_decide_eq_true in Hl.
  destruct Hs as (Hne & _ & _ & Hc & _). destruct s as [|c s] using rev_ind; [done|]. clear IHs.
  change (47 :: (s ++ [c])) with ((47 :: s) ++ [c]) in Hl. rewrite app_assoc, last_snoc in Hl. injection Hl as ->.
  apply Forall_app in Hc as [_ Hc]. inversion Hc as [|? ? Hc47 _]; subst. discriminate Hc47.
Qed.

Lemma clean_path_rooted segs us : segs <> [] -> Forall2 segment_for segs us -> clean_path (rooted segs) = rooted segs.
Proof.
  intros Hne H. unfold clean_path. rewrite (split_rooted _ _ H). cbn [clean_segments].
  change (bool_decide (@nil Z = [])) with true. cbn [orb]. rewrite (clean_rooted _ us) by done. cbn [rev app].
  change (flat_map (λ s : list Z, 47 :: s) segs) with (rooted segs).
  destruct (ends_with_slash (rooted segs)) eqn:E; [by apply (rooted_last _ us) in E|].
  by destruct segs.
Qed.

Lemma valid_rooted segs us : Forall2 segment_for segs us ->
  valid_encoded (rooted segs) = true /\ (exists x, url_unescape false (rooted segs) = Some x) /\ Forall (fun d => d <> 63) (rooted segs).
Proof.
  induction 1 as [|s u segs us Hs _ (IH1 & (x & IH2) & IH3)]; [split_and!; [done|by exists []|constructor]|].
  pose proof (segment_no s u 63 Hs ltac:(by right)) as Hq. destruct Hs as (_ & _ & _ & Hc & Hu).
  change (rooted (s :: segs)) with (47 :: s ++ rooted segs). split_and!.
  - unfold valid_encoded in *. cbn [forallb]. rewrite forallb_app, IH1, andb_true_r. change (_ || _) with true at 1. cbn [andb].
    apply forallb_forall. intros c Hin%list_elem_of_In. rewrite Forall_forall in Hc. apply Hc in Hin.
    revert Hin. unfold uri_char, uri_unreserved, path_escape_needed, url_alnum. cbn [existsb]. lia.
  - exists (47 :: u ++ x). cbn [url_unescape]. change (47 =? 37) with false. cbv iota. rewrite andb_false_r.
    by rewrite (unescape_app _ _ u), IH2.
  - constructor; [done|]. by apply Forall_app_2.
Qed.

(** A rooted path of such segments is routed by what the segments stand for. *)
Lemma route_rooted b method segs us query h : segs <> [] -> Forall2 segment_for segs us ->
  (query = [] \/ exists q, query = 63 :: q) -> hd_error (matching b method us) = Some h ->
  route b method (rooted segs ++ query) = RHandler h.
Proof.
  intros Hne H Hq Hm. destruct (valid_rooted _ _ H) as (Hv & (x & Hx) & Hn).
  assert (Hcut : (cut_at 63 (rooted segs ++ query)).1 = rooted segs).
  { destruct Hq as [-> | [q ->]]; [by rewrite app_nil_r, cut_at_none|by rewrite cut_at_app]. }
  unfold route. rewrite Hcut. unfold escaped_path. rewrite Hx, Hv, orb_true_r.
  rewrite (clean_path_rooted _ us) by done. rewrite bool_decide_eq_true_2 by done. cbn [negb].
  assert (Hs : path_segments (rooted segs) = us).
  { unfold path_segments. rewrite (split_rooted _ us) by done. clear -H. induction H as [|s u segs us Hs _ IH]; [done|].
    cbn. destruct Hs as (Hs & _ & _ & _ & Hu). rewrite IH. f_equal. destruct s; [done|]. by rewrite Hu. }
  rewrite Hs. destruct (matching b method us); [done|]. by injection Hm as ->.
Qed.

(** ** Ids in paths *)

(** An id that a path segment can carry. *)
Definition path_id (id : string) : Prop := valid_utf8 id = true /\ id ∉ [""; "."; ".."; "/"].

#[export] Instance path_id_dec id : Decision (path_id id).
Proof. unfold path_id. apply _. Defined.

(** The ids of accounts are such ids. *)
Lemma canonical_path_id id : canonical_id id -> path_id id.
Proof.
  intros Hc. pose proof (canonical_id_ascii _ Hc) as Ha. apply canonical_id_runes in Hc as [Hlen Hb].
  assert (Hlow : Forall (fun b => b < 128) (bytes id)) by (eapply Forall_impl; [exact Ha|]; by intros b [? _]).
  split.
  - unfold valid_utf8. apply forallb_forall. intros seg Hin%list_elem_of_In. unfold valid_segment.
    assert (Hr : seg.1 ∈ runes id) by (unfold runes; apply list_elem_of_fmap; by exists seg).
    rewrite runes_ascii in Hr by done.
    rewrite Forall_forall in Hlow. apply Hlow in Hr. cbv beta in Hr. apply orb_true_iff. left. lia.
  - intros Hin. rewrite !elem_of_cons in Hin. destruct Hin as [->|[->|[->|[->|Hin]]]].
    3: by inversion Hb. 4: by inversion Hin.
    all: revert Hlen; unfold slen; cbn; lia.
Qed.

Lemma id_segment id : path_id id ->
  exists e, encodeURIComponent (js id) = Some e /\ segment_for e (bytes id) /\ (forall plus, url_unescape plus e = Some (bytes id))
    /\ Forall (fun c => uri_char c = true) e.
Proof.
  intros [Hv Hn]. rewrite !elem_of_cons in Hn.
  assert (Hne : id <> "") by (intros ->; tauto).
  destruct (encode_unescape id Hv Hne) as (e & H1 & H2 & H3 & H4). exists e. split_and!; [done| |done..].
  split_and!; [done|intros -> ..|done|apply H2]; specialize (H2 false); injection H2 as H2.
  - assert (id = ".") as -> by (by apply bytes_inj). tauto.
  - assert (id = "..") as -> by (by apply bytes_inj). tauto.
Qed.

(** ** The requests *)

(** The request the server sees: the headers of [fetch], the query of the target. *)
Definition request_of (ft : Fetch) : HttpRequest :=
  {| hr_Header name := of_bytes (from_option snd [] (find (fun h => h.1 =s name) (ft_headers ft)));
     hr_Query := query_get (default [] (cut_at 63 (ft_path ft)).2);
     hr_PeerCertificates := None |}.

(** Which handler an action of the page stands for. *)
Inductive does (b : Bodies) (r : HttpRequest) : JsString -> string -> Prog Reply -> Prop :=
| does_rotate_consumer id : does b r (bytes "rotate-consumer") id (adminRotateConsumerKey id)
| does_disable_consumer id : does b r (bytes "disable-consumer") id (adminDisableConsumer id)
| does_rotate_provider id : does b r (bytes "rotate-provider") id (adminRotateProviderToken id)
| does_disable_provider id : does b r (bytes "disable-provider") id (adminDisableProvider id)
| does_run id : hr_Query r "provider_id" = id -> does b r (bytes "run-challenge") id (adminRunChallenge r (bd_run b)).

(** A click on [btn] sends one request, which the multiplexer gives to the handler of the action
    with the id, past the administrator's check. *)
Definition reaches (s : server) (page : string) (b : Bodies) (token secret anchor : JsString) (confirm : JsString -> bool)
    (btn : list (JsString * JsString)) (action : JsString) (id : string) : Prop :=
  exists ft e reply, click token secret anchor confirm btn = [EFetch ft]
    /\ route b (ft_method ft) (ft_path ft) = RHandler (HEndpoint e)
    /\ serve s page e (request_of ft) = reply /\ does b (request_of ft) action id reply.

Lemma substring_all t : String.substring 0 (String.length t) t = t.
Proof. induction t as [|c t IH]; [done|]. cbn. by rewrite IH. Qed.

Lemma substring_tail a t : String.substring (String.length a) (String.length (a +:+ t) - String.length a) (a +:+ t) = t.
Proof.
  rewrite length_sapp. replace (String.length a + String.length t - String.length a)%nat with (String.length t) by lia.
  induction a as [|c a IH]; [apply substring_all|]. rewrite sapp_cons. exact IH.
Qed.

Section Actions.
Context (s : server) (page : string) (b : Bodies) (token secret anchor : JsString) (confirm : JsString -> bool).
Hypothesis Htoken : token <> [].
Hypothesis Hadmin : of_bytes token = sv_adminToken s.
Hypothesis Hconfirm : forall m, confirm m = true.

Lemma admin_passes next ft : ft_headers ft = headers token \/ ft_headers ft = headers token ++ [("Content-Type", lit "application/json")] ->
  requireAdmin s next (request_of ft) = next.
Proof.
  intros H.
  assert (Hb : bearerToken (request_of ft) = of_bytes token).
  { unfold bearerToken, request_of. cbn [hr_Header].
    assert (E : find (fun h => h.1 =s "Authorization") (ft_headers ft) = Some ("Authorization", lit "Bearer " ++ token)).
    { unfold headers in H. destruct token as [|c t]; [done|]. destruct H as [-> | ->]; reflexivity. }
    rewrite E. cbn [from_option snd].
    assert (Ht : of_bytes (lit "Bearer " ++ token) = "Bearer " +:+ of_bytes token) by reflexivity.
    rewrite Ht. assert (Hs : 0 < slen (of_bytes token)) by (destruct token; [done|]; unfold slen; cbn; lia).
    assert (Hl : slen ("Bearer " +:+ of_bytes token) = 7 + slen (of_bytes token)) by (unfold slen; rewrite length_sapp; cbn; lia).
    rewrite Hl. replace (7 <? 7 + slen (of_bytes token)) with true by lia.
    assert (Hp : has_prefix "Bearer " ("Bearer " +:+ of_bytes token) = true) by (unfold has_prefix; cbn; by destruct (of_bytes token)).
    rewrite Hp. cbn [andb]. clear. change ("Bearer " +:+ of_bytes token) with (String.append "Bearer " (of_bytes token)).
    generalize (of_bytes token). intros t. exact (substring_tail "Bearer " t). }
  unfold requireAdmin. rewrite Hb, Hadmin.
  assert (Hne : (sv_adminToken s =s "") = false).
  { apply str_eqb_false. rewrite <- Hadmin. by destruct token. }
  by rewrite Hne, str_eqb_refl.
Qed.

(** What [click] finds in a button of the tables. *)
Lemma button_lookup action name id disabled cls :
  name = bytes "data-consumer-id" \/ name = bytes "data-provider-id" ->
  let btn := button_attrs action name id disabled cls in
  attr btn "id" = None /\ attr btn "data-action" = Some action
  /\ attr btn "data-consumer-id" = (if bool_decide (name = bytes "data-consumer-id") then Some id else None)
  /\ attr btn "data-provider-id" = (if bool_decide (name = bytes "data-provider-id") then Some id else None)
  /\ clickable btn = negb disabled.
Proof. intros [-> | ->]; destruct disabled; split_and!; reflexivity. Qed.

Lemma with_id_some id e k : encodeURIComponent id = Some e -> with_id id k = k e.
Proof. unfold with_id. by intros ->. Qed.

Lemma send_some path method body : sendAction token path method body =
  [EFetch (if method =s "POST" then postJSON token path body else {| ft_method := method; ft_path := path; ft_headers := headers token; ft_body := None |})].
Proof. unfold sendAction, requireAdminToken. by destruct token. Qed.

Lemma token_some : requireAdminToken token = None.
Proof. unfold requireAdminToken. by destruct token. Qed.

Definition btn_of (action name : string) (id : string) (disabled : bool) (cls : JsString) : list (JsString * JsString) :=
  button_attrs (bytes action) (bytes name) (js id) disabled cls.

Lemma click_of action name id cls : name = "data-consumer-id" \/ name = "data-provider-id" -> action <> "" ->
  click token secret anchor confirm (btn_of action name id false cls) =
  (let consumerID := if bool_decide (name = "data-consumer-id") then js id else [] in
   let providerID := if bool_decide (name = "data-provider-id") then js id else [] in
   if js_eqb (bytes action) (lit "rotate-consumer")
   then with_id consumerID (fun id => sendAction token (lit "/admin/consumers/" ++ id ++ lit "/rotate-key") "POST" no_body)
   else if js_eqb (bytes action) (lit "disable-consumer")
   then with_id consumerID (fun id => sendAction token (lit "/admin/consumers/" ++ id) "DELETE" no_body)
   else if js_eqb (bytes action) (lit "rotate-provider")
   then with_id providerID (fun id => sendAction token (lit "/admin/providers/" ++ id ++ lit "/rotate-token") "POST" no_body)
   else if js_eqb (bytes action) (lit "disable-provider")
   then with_id providerID (fun id => sendAction token (lit "/admin/providers/" ++ id) "DELETE" no_body)
   else if js_eqb (bytes action) (lit "run-challenge")
   then with_id providerID (fun id => sendAction token (lit "/admin/challenges/run?provider_id=" ++ id) "POST" no_body)
   else []).
Proof.
  intros Hn Ha. unfold click, onClick, btn_of.
  destruct (button_lookup (bytes action) (bytes name) (js id) false cls) as (-> & -> & -> & -> & ->);
    [destruct Hn as [-> | ->]; [by left|by right]|].
  cbn [from_option Datatypes.id]. change (js_eqb [] (lit "copySecret")) with false. change (js_eqb [] (lit "dismissSecret")) with false.
  change (js_eqb [] (lit "copyAnchorHash")) with false. cbv iota. rewrite token_some.
  cbn [negb]. destruct Hn as [-> | ->]; cbv zeta; rewrite !Hconfirm; destruct (bytes action) eqn:E; try done;
    exfalso; apply Ha; by apply bytes_inj.
Qed.

(** A request on a path with the id in it. *)
Lemma routed_by method w1 w2 e u rest h path : segment_for e u ->
  path = rooted ([bytes w1; bytes w2; e] ++ (bytes <$> rest)) -> Forall2 segment_for (bytes <$> w1 :: w2 :: rest) (bytes <$> w1 :: w2 :: rest) ->
  is_slash u = false ->
  (forall v, is_slash v = false -> hd_error (matching b method ([bytes w1; bytes w2; v] ++ (bytes <$> rest))) = Some (h (of_bytes v))) ->
  route b method path = RHandler (h (of_bytes u)).
Proof.
  intros He -> Hw Hn Hm. apply Hm in Hn. rewrite <- (app_nil_r (rooted _)). cbn [fmap list_fmap] in Hw.
  apply Forall2_cons in Hw as [H1 Hw]. apply Forall2_cons in Hw as [H2 Hw].
  eapply route_rooted; [done| |by left|exact Hn]. cbn [app]. repeat (apply Forall2_cons; split); done.
Qed.

Ltac words := repeat (apply Forall2_cons; split); try apply Forall2_nil_2;
  (split_and!; [done|done|done|apply (bool_decide_unpack _); vm_compute; exact I|done]).

Lemma seg_eqb_spec a c : seg_eqb a c = true -> a = c.
Proof.
  revert c. induction a as [|x a IH]; intros [|y c]; [done..|]. cbn [seg_eqb]. intros [H1 H2]%andb_true_iff.
  apply Z.eqb_eq in H1 as ->. by rewrite (IH _ H2).
Qed.

Lemma not_slash id : path_id id -> is_slash (bytes id) = false.
Proof.
  intros [_ Hn]. destruct (is_slash (bytes id)) eqn:E; [exfalso|done]. apply seg_eqb_spec in E. apply Hn. rewrite !elem_of_cons. assert (id = "/") as -> by (by apply bytes_inj). tauto. Qed.

(** The branch of [click] for a button of the tables. *)
Ltac choose :=
  repeat match goal with
  | |- context [js_eqb (bytes ?a) (lit ?c)] => let v := eval vm_compute in (js_eqb (bytes a) (lit c)) in change (js_eqb (bytes a) (lit c)) with v
  | |- context [bool_decide (?a = ?c :> string)] => let v := eval vm_compute in (bool_decide (a = c)) in change (bool_decide (a = c)) with v
  end; cbv zeta iota.

Ltac reach id e w2 rest h :=
  eexists _, (h id), _; split; [|split; [|split; [reflexivity|]]];
  [ rewrite click_of by auto; choose; rewrite (with_id_some _ e) by done; rewrite send_some; reflexivity
  | rewrite <- (of_bytes_bytes id);
    apply (routed_by _ "admin" w2 e (bytes id) rest (fun i => HEndpoint (h i))); [done|first [reflexivity|unfold rooted; cbn [fmap list_fmap app flat_map]; rewrite app_nil_r; reflexivity]|words|by apply not_slash|];
    let v := fresh "v" in let Hv := fresh "Hv" in intros v Hv; lazy -[is_slash of_bytes]; by rewrite Hv
  | cbn [serve]; rewrite admin_passes by auto; constructor ].

Lemma reach_rotate_consumer id cls : path_id id ->
  reaches s page b token secret anchor confirm (btn_of "rotate-consumer" "data-consumer-id" id false cls) (bytes "rotate-consumer") id.
Proof. intros Hid. destruct (id_segment id Hid) as (e & He & Hs & _). reach id e "consumers" ["rotate-key"] PostAdminRotateConsumerKey. Qed.

Lemma reach_disable_consumer id cls : path_id id ->
  reaches s page b token secret anchor confirm (btn_of "disable-consumer" "data-consumer-id" id false cls) (bytes "disable-consumer") id.
Proof. intros Hid. destruct (id_segment id Hid) as (e & He & Hs & _). reach id e "consumers" (@nil string) DeleteAdminConsumer. Qed.

Lemma reach_rotate_provider id cls : path_id id ->
  reaches s page b token secret anchor confirm (btn_of "rotate-provider" "data-provider-id" id false cls) (bytes "rotate-provider") id.
Proof. intros Hid. destruct (id_segment id Hid) as (e & He & Hs & _). reach id e "providers" ["rotate-token"] PostAdminRotateProviderToken. Qed.

Lemma reach_disable_provider id cls : path_id id ->
  reaches s page b token secret anchor confirm (btn_of "disable-provider" "data-provider-id" id false cls) (bytes "disable-provider") id.
Proof. intros Hid. destruct (id_segment id Hid) as (e & He & Hs & _). reach id e "providers" (@nil string) DeleteAdminProvider. Qed.

(** A query with one pair. *)
Lemma query_of key e u : Forall (fun c => uri_char c = true) (bytes key) -> url_unescape true (bytes key) = Some (bytes key) ->
  Forall (fun c => uri_char c = true) e -> url_unescape true e = Some u -> query_get (bytes key ++ 61 :: e) key = of_bytes u.
Proof.
  intros Hk Hku He Hu. unfold query_get.
  assert (Hno : forall c l, c = 38 \/ c = 59 \/ c = 61 -> Forall (fun c => uri_char c = true) l -> Forall (fun d => d <> c) l).
  { intros c l Hc Hl. eapply Forall_impl; [exact Hl|]. intros d Hd. apply uri_char_not in Hd. lia. }
  rewrite split_on_none.
  2: { apply Forall_app_2; [apply Hno; auto|]. constructor; [done|]. apply Hno; auto. }
  assert (Hq : query_pair (bytes key ++ 61 :: e) = Some (bytes key, u)).
  { unfold query_pair. rewrite bool_decide_eq_false_2.
    - rewrite cut_at_app by (apply Hno; auto). cbn [from_option Datatypes.id]. rewrite Hku, Hu. by destruct (bytes key).
    - intros Hin. apply elem_of_app in Hin as [Hin|Hin]; [|apply elem_of_cons in Hin as [Hin|Hin]; [done|]].
      + pose proof (Hno 59 _ ltac:(auto) Hk) as H. rewrite Forall_forall in H. by apply (H 59).
      + pose proof (Hno 59 _ ltac:(auto) He) as H. rewrite Forall_forall in H. by apply (H 59). }
  cbn [omap list_omap]. rewrite Hq. cbn. by rewrite decide_True.
Qed.

Lemma reach_run id cls : path_id id ->
  reaches s page b token secret anchor confirm (btn_of "run-challenge" "data-provider-id" id false cls) (bytes "run-challenge") id.
Proof.
  intros Hid. destruct (id_segment id Hid) as (e & He & Hs & Hu & Hc).
  eexists _, (PostAdminChallengesRun (bd_run b)), _. split; [|split; [|split; [reflexivity|]]].
  - rewrite click_of by auto. choose. rewrite (with_id_some _ e) by done. rewrite send_some. reflexivity.
  - assert (Hr : route b "POST" (rooted (bytes <$> ["admin"; "challenges"; "run"]) ++ 63 :: bytes "provider_id=" ++ e)
      = RHandler (HEndpoint (PostAdminChallengesRun (bd_run b)))).
    { apply (route_rooted _ _ _ (bytes <$> ["admin"; "challenges"; "run"])); [done|words|right; by eexists|]. lazy -[bd_run]. reflexivity. }
    exact Hr.
  - cbn [serve]. rewrite admin_passes by auto. constructor.
    transitivity (query_get (bytes "provider_id" ++ 61 :: e) "provider_id"); [reflexivity|].
    rewrite (query_of _ _ (bytes id)); [apply of_bytes_bytes|apply (bool_decide_unpack _); vm_compute; exact I|done|done|apply Hu].
Qed.

(** A button of a disabled account is not clickable, the others do what they say. *)
Definition acts (btn : list (JsString * JsString)) (id : string) (disabled : bool) : Prop :=
  exists action, attr btn "data-action" = Some action
    /\ if disabled then clickable btn = false else reaches s page b token secret anchor confirm btn action id.

Lemma provider_acts p btn : path_id (pr_ProviderID p) -> btn ∈ provider_buttons p -> acts btn (pr_ProviderID p) (pr_Disabled p).
Proof.
  intros Hid Hin. unfold provider_buttons in Hin. rewrite !elem_of_cons in Hin. unfold acts.
  destruct (pr_Disabled p), Hin as [->|[->|[->|Hin]]]; try (by inversion Hin); (eexists; split; [reflexivity|]); [reflexivity..| | |].
  - by apply reach_rotate_provider.
  - by apply reach_disable_provider.
  - by apply reach_run.
Qed.

Lemma consumer_acts c btn : path_id (cn_ID c) -> btn ∈ consumer_buttons c -> acts btn (cn_ID c) (cn_Disabled c).
Proof.
  intros Hid Hin. unfold consumer_buttons in Hin. rewrite !elem_of_cons in Hin. unfold acts.
  destruct (cn_Disabled c), Hin as [->|[->|Hin]]; try (by inversion Hin); (eexists; split; [reflexivity|]); [reflexivity..| |].
  - by apply reach_rotate_consumer.
  - by apply reach_disable_consumer.
Qed.
End Actions.

Definition no_request (es : list Effect) : Prop := Forall (fun e => match e with EFetch _ => False | _ => True end) es.

(** Without a token nothing is sent. *)
Lemma no_token_no_request secret anchor confirm btn : no_request (click [] secret anchor confirm btn).
Proof.
  unfold no_request, click, onClick. cbn [requireAdminToken]. unfold copyText.
  repeat case_goal; first [apply Forall_nil_2|apply Forall_cons_2; [done|apply Forall_nil_2]].
Qed.

(** An account is not disabled if the administrator does not confirm it. *)
Lemma unconfirmed_no_request token secret anchor confirm btn action :
  (forall m, confirm m = false) -> attr btn "data-action" = Some action ->
  action = bytes "disable-consumer" \/ action = bytes "disable-provider" -> no_request (click token secret anchor confirm btn).
Proof.
  intros Hc Ha Hd. unfold no_request, click, onClick. rewrite Ha. cbv zeta. cbn [from_option Datatypes.id]. rewrite !Hc. unfold copyText.
  assert (Hn : forall e, match e with EFetch _ => False | _ => True end ->
    Forall (fun e => match e with EFetch _ => False | _ => True end) [e]) by (intros e He; by repeat constructor).
  destruct (clickable btn); [|constructor]. destruct (js_eqb _ (lit "copySecret")); [apply Hn; by destruct secret|].
  destruct (js_eqb _ (lit "dismissSecret")); [by apply Hn|]. destruct (js_eqb _ (lit "copyAnchorHash")); [apply Hn; by destruct anchor|].
  destruct Hd as [-> | ->]; destruct token as [|x token]; try (by apply Hn); vm_compute; constructor.
Qed.

(** ** The property *)

(** C19: Every button of the page's provider and consumer tables, read from the markup a browser
    gets, belongs to a row of the report.  If the row's account is disabled the button has the attribute and a
    click on it does nothing.  Otherwise, when the administrator has entered the coordinator's token, which is not
    empty, and confirms, a click sends one request, and the coordinator's router and token check let that request
    through to the handler of the button's action, for the account id of that row (an id that a path can carry:
    valid text other than "", ".", ".." and "/"); without a token nothing is sent, and no account
    is disabled that the administrator does not confirm. *)
Theorem dashboard_actions {B : Browser} {L : BrowserLaws B} cloudPrice st errors s page b token secret anchor confirm el rows f btn :
  let us := render cloudPrice st errors in
  (el, rows) ∈ [ ("providersBody", (fun p => (pr_ProviderID p, pr_Disabled p)) <$> from_option rp_Providers [] (st_reputation st));
                 ("consumersBody", (fun c => (cn_ID c, cn_Disabled c)) <$> from_option sn_Consumers [] (st_city st)) ] ->
  Forall path_id rows.*1 -> token <> [] -> of_bytes token = sv_adminToken s ->
  shown el us f -> btn ∈ flat_map buttons_of f ->
  exists id disabled action, (id, disabled) ∈ rows /\ attr btn "data-action" = Some action
    /\ (if disabled : bool then forall token' confirm', click token' secret anchor confirm' btn = []
        else (forall m, confirm m = true) -> reaches s page b token secret anchor confirm btn action id)
    /\ no_request (click [] secret anchor confirm btn)
    /\ (action ∈ [bytes "disable-consumer"; bytes "disable-provider"] -> (forall m, confirm m = false) ->
        no_request (click token secret anchor confirm btn)).
Proof.
  intros us Hel Hids Ht Hs (h & Hh & Hf) Hb.
  assert (Hrest : forall id disabled, (id, disabled) ∈ rows ->
    ((forall m, confirm m = true) -> acts s page b token secret anchor confirm btn id disabled) ->
    acts s page b token secret anchor (fun _ => true) btn id disabled ->
    exists id disabled action, (id, disabled) ∈ rows /\ attr btn "data-action" = Some action
    /\ (if disabled : bool then forall token' confirm', click token' secret anchor confirm' btn = []
        else (forall m, confirm m = true) -> reaches s page b token secret anchor confirm btn action id)
    /\ no_request (click [] secret anchor confirm btn)
    /\ (action ∈ [bytes "disable-consumer"; bytes "disable-provider"] -> (forall m, confirm m = false) ->
        no_request (click token secret anchor confirm btn))).
  { intros id disabled Hin Hacts (action & Ha & Hd). exists id, disabled, action. split; [done|]. split; [done|].
    split; [|split; [apply no_token_no_request|]].
    - destruct disabled; [intros t c; unfold click; by rewrite Hd|]. intros Hc. destruct (Hacts Hc) as (action' & Ha' & Hr).
      rewrite Ha in Ha'. by injection Ha' as <-.
    - rewrite !elem_of_cons, elem_of_nil. intros Hact Hc. eapply unconfirmed_no_request; [done|done|tauto]. }
  rewrite Forall_forall in Hids.
  rewrite !elem_of_cons in Hel. destruct Hel as [[= -> ->]|[[= -> ->]|Hel]]; [| |by inversion Hel].
  - set (l := from_option rp_Providers [] (st_reputation st)) in *.
    destruct (providers_body l) as (g & Hg & Og & _ & Bg).
    assert (E : html_of "providersBody" us = [match l with [] => lit "<tr><td colspan='8' class='empty'>No providers yet</td></tr>" | _ => flat_map providerRow l end])
      by (subst us; destruct errors; reflexivity).
    rewrite E in Hh. injection Hh as <-. rewrite (shows_read tbody _ g) in Hf by done. injection Hf as <-.
    rewrite Bg in Hb. apply list_elem_of_In, in_flat_map in Hb as (p & Hp%list_elem_of_In & Hb%list_elem_of_In).
    assert (Hin : (pr_ProviderID p, pr_Disabled p) ∈ (fun p => (pr_ProviderID p, pr_Disabled p)) <$> l)
      by (apply list_elem_of_fmap; by exists p).
    assert (Hid : path_id (pr_ProviderID p)) by (apply Hids, list_elem_of_fmap; by exists (pr_ProviderID p, pr_Disabled p)).
    apply (Hrest _ _ Hin); [intros Hc|]; by apply provider_acts.
  - set (l := from_option sn_Consumers [] (st_city st)) in *.
    set (usage := from_option sn_ConsumerUsage [] (st_city st)).
    destruct (consumers_body usage l) as (g & Hg & Og & _ & Bg).
    assert (E : html_of "consumersBody" us = [match l with [] => lit "<tr><td colspan='7' class='empty'>No consumers configured</td></tr>" | _ => flat_map (consumerRow usage) l end])
      by (subst us; destruct errors; reflexivity).
    rewrite E in Hh. injection Hh as <-. rewrite (shows_read tbody _ g) in Hf by done. injection Hf as <-.
    rewrite Bg in Hb. apply list_elem_of_In, in_flat_map in Hb as (c & Hp%list_elem_of_In & Hb%list_elem_of_In).
    assert (Hin : (cn_ID c, cn_Disabled c) ∈ (fun c => (cn_ID c, cn_Disabled c)) <$> l)
      by (apply list_elem_of_fmap; by exists c).
    assert (Hid : path_id (cn_ID c)) by (apply Hids, list_elem_of_fmap; by exists (cn_ID c, cn_Disabled c)).
    apply (Hrest _ _ Hin); [intros Hc|]; by apply consumer_acts.
Qed.

(** ** A page with a hostile name *)

(** A browser whose locale writes numbers as the script does. *)
Definition demo_browser : Browser :=
  {| fmt_format := number_text; moneyFmt_format f := 36 :: to_fixed 2 f; compactFmt_format := number_text;
     date_getTime _ := num 1000; date_toLocaleDateString _ := bytes "2026-01-01"; date_toLocaleString _ := bytes "2026-01-01 00:00";
     date_now := num 61000; now_toLocaleTimeString := bytes "00:00" |}.

Lemma demo_browser_laws : @BrowserLaws demo_browser.
Proof.
  split; intros; cbn.
  1,3: apply number_like_plain, number_text_like.
  - constructor; [done|]. apply number_like_plain, to_fixed_like. lia.
  - by apply (bool_decide_unpack _).
  - by apply (bool_decide_unpack _).
Qed.

Definition demo_provider : ProviderReputation :=
  (newReputation "mallory") <| pr_DisplayName := "<img src=x onerror=alert(1)>" |> <| pr_Score := 80 |> <| pr_Challenges := 3 |>
    <| pr_Notes := ["</td><script>"] |>.

Definition demo_page : PageState :=
  {| st_status := None; st_nodes := []; st_city := None; st_settlement := None;
     st_reputation := Some {| rp_GeneratedAt := 0; rp_Providers := [demo_provider] |}; st_integrity := None; st_challenges := None |}.

Definition demo_updates : list Update := @render demo_browser (num 0) demo_page [].

(** The row as a browser reads it; a pass rate of zero, which the report leaves out, is a dash. *)
Example demo_row :
  option_map (map cells_of) (read_html (@providerRow demo_browser demo_provider)) =
  Some [[bytes "<img src=x onerror=alert(1)>mallory"; bytes "80 / 100 "; bytes "0/00 active"; bytes "00 tokens"; bytes "$0.00";
         bytes "-3 checks"; bytes "</td><script>"; bytes "Rotate tokenDisableRun challenge"]].
Proof. vm_compute. reflexivity. Qed.

Lemma dashboard_no_injection_witness :
  @BrowserLaws demo_browser /\ SetHTML "providersBody" (@providerRow demo_browser demo_provider ++ []) ∈ demo_updates
  /\ exists f, read_html (@providerRow demo_browser demo_provider ++ []) = Some f /\ Forall (node_ok (container "providersBody")) f.
Proof.
  assert (H : SetHTML "providersBody" (@providerRow demo_browser demo_provider ++ []) ∈ demo_updates).
  { apply (list_elem_of_lookup_2 _ 21). reflexivity. }
  split; [exact demo_browser_laws|]. split; [exact H|].
  exact (@dashboard_no_injection demo_browser demo_browser_laws (num 0) demo_page [] _ _ H).
Defined.

Lemma dashboard_tables_witness :
  @BrowserLaws demo_browser
  /\ exists f, shown "providersBody" demo_updates f /\ cells_of <$> f = [@provider_cells demo_browser demo_provider]
      /\ flat_map buttons_of f = provider_buttons demo_provider ++ [].
Proof.
  split; [exact demo_browser_laws|].
  destruct (@dashboard_tables demo_browser demo_browser_laws (num 0) demo_page []) as (_ & H & _). exact H.
Defined.

Definition page_server : server :=
  {| sv_modelCatalog := None; sv_idempotency := None; sv_adminToken := "secret"; sv_devAdminOpen := false;
     sv_requireNodeClientCert := false; sv_requestTimeout := 0; sv_maxRequestBytes := 1000 |}.

Definition no_bodies : Bodies :=
  {| bd_chat := {| rb_decoded := Err "EOF"; rb_needed := 0 |}; bd_flusher := true;
     bd_embeddings := {| rb_decoded := Err "EOF"; rb_needed := 0 |}; bd_challenge := Err None; bd_run := Ok empty_ChallengeConfig;
     bd_consumer := Err None; bd_provider := Err None |}.

Definition demo_button : list (JsString * JsString) :=
  button_attrs (bytes "disable-provider") (bytes "data-provider-id") (js "mallory") false (bytes "danger").

Lemma dashboard_actions_witness :
  Forall path_id (pr_ProviderID <$> [demo_provider])
  /\ (exists f, shown "providersBody" demo_updates f /\ demo_button ∈ flat_map buttons_of f
     /\ exists id action, id ∈ pr_ProviderID <$> [demo_provider] /\ attr demo_button "data-action" = Some action
        /\ reaches page_server "" no_bodies (bytes "secret") [] [] (fun _ => true) demo_button action id).
Proof.
  assert (Hids : Forall path_id (pr_ProviderID <$> [demo_provider])) by (apply (bool_decide_unpack _); vm_compute; exact I).
  assert (Hf : exists f, shown "providersBody" demo_updates f /\ demo_button ∈ flat_map buttons_of f).
  { destruct (table_shown "providersBody" demo_updates _ _ _ eq_refl (@providers_body demo_browser demo_browser_laws [demo_provider]))
      as (f & Hs & _ & Hb). exists f. split; [exact Hs|]. rewrite Hb. apply (list_elem_of_lookup_2 _ 1). reflexivity. }
  split; [exact Hids|]. destruct Hf as (f & Hs & Hb). exists f. split; [exact Hs|]. split; [exact Hb|].
  assert (Hne : bytes "secret" <> []) by discriminate.
  assert (Hsec : of_bytes (bytes "secret") = sv_adminToken page_server) by reflexivity.
  destruct (@dashboard_actions demo_browser demo_browser_laws (num 0) demo_page [] page_server "" no_bodies (bytes "secret") [] []
    (fun _ => true) "providersBody" [("mallory", false)] f demo_button (list_elem_of_here _ _) Hids Hne Hsec Hs Hb)
    as (id & disabled & action & Hin & Ha & Hr & _ & _).
  exists id, action. apply list_elem_of_singleton in Hin. injection Hin as -> ->. split; [apply list_elem_of_here|]. split; [exact Ha|].
  apply Hr. reflexivity.
Defined.
