(* ===== verification/DashboardForms.v ===== *)
(** * The administration page at work: fields, requests under way, the one-time secret

    [Page] is what the script of [coordinator/cmd/coordinator/dashboard.go] keeps and what it sets
    in the browser: the reports, the secret on display, the values of the fields, the texts and
    styles of the elements, the disabled buttons, [localStorage], the clipboard and the timer; and
    the requests whose replies it waits for.  An asynchronous function is cut where it waits:
    [sendAction] into the request ([launch]), the reply ([answered]) and the end of the refresh that
    follows ([refreshed]).  [page_step] is one event, [reached] a page after any events in any
    order, several requests and refreshes being under way at once. *)

From S2P Require Import Prelude GoString GoSort GoFloat GoFormat Json JsonDecode JsonTree Protocol Settlement Scheduler.
From S2P Require Import Challenge City Reputation Handlers Js JsNumber JsJson Html Dashboard.

(** ** The page *)

(** A button, by its attributes. *)
Definition Btn : Type := list (JsString * JsString).
Definition by_id (id : string) : Btn := [(bytes "id", bytes id)].

(** A request of [sendAction] whose reply has not come; then its refresh. *)
Record Action := { ac_path : JsString; ac_request : Fetch; ac_button : Btn; ac_form : bool }.

Record Page := {
  pg_state : PageState;
  pg_secretText : JsString;
  pg_timer : bool;
  pg_value : gmap string JsString;
  pg_text : gmap string JsString;
  pg_class : gmap string JsString;
  pg_html : gmap string JsString;
  pg_display : gmap string JsString;
  pg_disabled : list Btn;
  pg_copied : list Btn;
  pg_storage : gmap string JsString;
  pg_query : option JsString;
  pg_clipboard : JsString;
  pg_actions : list Action;
  pg_refreshes : list (option Action);
}.
#[export] Instance eta_Page : Settable Page := fun p =>
  Build_Page (pg_state p) (pg_secretText p) (pg_timer p) (pg_value p) (pg_text p) (pg_class p) (pg_html p) (pg_display p)
    (pg_disabled p) (pg_copied p) (pg_storage p) (pg_query p) (pg_clipboard p) (pg_actions p) (pg_refreshes p).

(** [$(id).value] *)
Definition value (p : Page) (id : string) : JsString := default [] (pg_value p !! id).

Definition update (p : Page) (u : Update) : Page :=
  match u with
  | SetText id v => p <| pg_text ::= <[id := v]> |>
  | SetClass id v => p <| pg_class ::= <[id := v]> |>
  | SetHTML id v => p <| pg_html ::= <[id := v]> |>
  | SetDisplay id v => p <| pg_display ::= <[id := v]> |>
  end.
Definition updates (us : list Update) (p : Page) : Page := fold_left update us p.

Definition disable (b : Btn) (p : Page) : Page := p <| pg_disabled ::= cons b |>.
Definition enable (b : Btn) (p : Page) : Page := p <| pg_disabled ::= filter (fun c => c <> b) |>.

(** [src/coordinator/cmd/coordinator/dashboard.go:618-620] token *)
Definition token (p : Page) : JsString := js_trim (value p "token").

(** ** Messages and secrets *)

(** [src/coordinator/cmd/coordinator/dashboard.go:696-699] showError *)
Definition showError (message : JsString) : Page -> Page :=
  updates [SetDisplay "errors" (lit "block"); SetText "errors" (js_or message (lit "Request failed"))].

(** [src/coordinator/cmd/coordinator/dashboard.go:710-715] showSecret *)
Definition showSecret (title v : JsString) (p : Page) : Page :=
  updates [SetText "secretTitle" title; SetText "secretValue" v; SetDisplay "secretBox" (lit "block")] (p <| pg_secretText := v |>).

(** [src/coordinator/cmd/coordinator/dashboard.go:701-708] showReturnedSecret *)
Definition showReturnedSecret (data : json) (p : Page) : Page :=
  let p := match js_text_member "api_key" data with [] => p | key => showSecret (lit "Consumer API key") key p end in
  match js_text_member "provider_token" data with [] => p | token => showSecret (lit "Provider token") token p end.

(** [src/coordinator/cmd/coordinator/dashboard.go:717-721] hideSecret *)
Definition hideSecret (p : Page) : Page :=
  updates [SetText "secretValue" []; SetDisplay "secretBox" (lit "none")] (p <| pg_secretText := [] |>).

(** What becomes of a copy: the clipboard's own call, or the copy command, which throws or returns
    whether it copied. *)
Inductive Clipboard := ClipWritten | CommandReturned (copied : bool) | CommandThrew.

(** [src/coordinator/cmd/coordinator/dashboard.go:743-760] fallbackCopy; what the command returns is not looked at. *)
Definition fallbackCopy (v : JsString) (button : Btn) (outcome : option bool) (p : Page) : Page :=
  match outcome with
  | Some copied => (if copied then p <| pg_clipboard := v |> else p) <| pg_copied ::= cons button |>
  | None => showError (lit "Copy failed. Select and copy the value manually.") p
  end.

(** [src/coordinator/cmd/coordinator/dashboard.go:723-741] copyText (the copy); [pg_copied] are the buttons that have said so, each for a while. *)
Definition copy (v : JsString) (button : Btn) (c : Clipboard) (p : Page) : Page :=
  match c with
  | ClipWritten => p <| pg_clipboard := v |> <| pg_copied ::= cons button |>
  | CommandReturned copied => fallbackCopy v button (Some copied) p
  | CommandThrew => fallbackCopy v button None p
  end.

(** ** Requests *)

(** The request goes out, its button is disabled until the end of the action. *)
Definition launch (button : Btn) (form : bool) (ft : Fetch) (p : Page) : Page :=
  disable button p <| pg_actions ::= fun l => l ++ [{| ac_path := ft_path ft; ac_request := ft; ac_button := button; ac_form := form |}] |>.

(** What the functions of [Dashboard.v] ask for. *)
Definition perform_effect (button : Btn) (form : bool) (c : Clipboard) (p : Page) (e : Effect) : Page :=
  match e with
  | EFetch ft => launch button form ft p
  | ECopy v => copy v button c p
  | EHideSecret => hideSecret p
  | EError message => showError message p
  end.
Definition perform_effects (button : Btn) (form : bool) (c : Clipboard) (es : list Effect) (p : Page) : Page :=
  fold_left (perform_effect button form c) es p.

(** What [fetch] and [res.text()] come to. *)
Inductive Received := Got (status : Z) (text : list Z) | Lost (message : JsString).

(** The text of a body that is not JSON. *)
Definition plain_text (text : list Z) : JsString := js_trim (js (of_bytes text)).

(** [data.error && data.error.message], [data.message] and the rest of an error's text; the reading
    of a member of [null] fails with the browser's own text. *)
Definition error_message (nullError : JsString) (data : json) (other : JsString) : JsString :=
  match data with
  | JNull => nullError
  | _ =>
      js_or (match js_member "error" data with Some err => js_text_member "message" err | None => [] end)
        (js_or (js_text_member "message" data) other)
  end.

Section Page.
Context {B : Browser} (nullError : JsString).

(** [src/coordinator/cmd/coordinator/dashboard.go:662-678] parseActionResponse *)
Definition parseActionResponse (r : Received) (path : JsString) : res JsString json :=
  match r with
  | Lost message => Err message
  | Got status text =>
      let '(data, message) := match text with
        | [] => (JObject [], [])
        | _ => match JsonDecode.parse text with Some data => (data, []) | None => (JObject [], plain_text text) end
        end in
      if negb ((200 <=? status) && (status <=? 299))
      then Err (js_or message (error_message nullError data (path ++ lit " returned " ++ int_text status)))
      else Ok data
  end.

(** [src/coordinator/cmd/coordinator/dashboard.go:778-792] refresh (the start); the requests go out with it. *)
Definition refreshStart (after : option Action) (p : Page) : Page :=
  updates [SetDisplay "errors" (lit "none"); SetText "errors" []] (disable (by_id "refresh") p)
    <| pg_refreshes ::= fun l => l ++ [after] |>.

(** The price in its field. *)
Definition cloudPrice (p : Page) : float := js_Number (value p "cloudPrice").

(** [src/coordinator/cmd/coordinator/dashboard.go:789-803] refresh (the end: the answers are in) *)
Definition refreshEnd (a : Answers) (p : Page) : Page :=
  let '(st, errors) := refreshReports a (pg_state p) in
  enable (by_id "refresh") (updates (render (cloudPrice p) st errors) (p <| pg_state := st |>)).

(** [event.currentTarget.reset()] of a form.  [currentTarget] is [null] once the event has been
    dispatched, which is before a reply can come: the handler ends there with a [TypeError]. *)
Definition resetForm (currentTarget : option (list string)) (p : Page) : Page :=
  match currentTarget with
  | Some fields => p <| pg_value ::= fun m => foldr (fun f m => <[f := []]> m) m fields |>
  | None => p
  end.

(** [src/coordinator/cmd/coordinator/dashboard.go:645-660] sendAction (after the request) *)
Definition answered (ac : Action) (r : Received) (p : Page) : Page :=
  match parseActionResponse r (ac_path ac) with
  | Ok data => refreshStart (Some ac) (showReturnedSecret data p)
  | Err message => enable (ac_button ac) (showError message p)
  end.

(** The end of a refresh, and of the action it belongs to, if it belongs to one. *)
Definition refreshed (after : option Action) (a : Answers) (p : Page) : Page :=
  let p := refreshEnd a p in
  match after with
  | Some ac => (if ac_form ac then resetForm None else id) (enable (ac_button ac) p)
  | None => p
  end.

(** ** Settings *)

(** [src/coordinator/cmd/coordinator/dashboard.go:762-766] saveSettings *)
Definition saveSettings (p : Page) : Page :=
  refreshStart None
    (p <| pg_storage ::= <["mi.adminToken" := token p]> |> <| pg_storage ::= <["mi.cloudPrice" := value p "cloudPrice"]> |>).

(** [src/coordinator/cmd/coordinator/dashboard.go:768-776] loadSettings; [pg_query] is the token of the page's address. *)
Definition loadSettings (p : Page) : Page :=
  let p := match default [] (pg_query p) with
    | [] => p
    | queryToken => p <| pg_storage ::= <["mi.adminToken" := queryToken]> |> <| pg_query := None |>
    end in
  p <| pg_value ::= <["token" := default [] (pg_storage p !! "mi.adminToken")]> |>
    <| pg_value ::= <["cloudPrice" := js_or (default [] (pg_storage p !! "mi.cloudPrice")) (lit "0.20")]> |>.

(** ** The forms *)

(** [src/coordinator/cmd/coordinator/dashboard.go:1083-1090] createConsumer (the body) *)
Definition consumerBody (p : Page) : js_object :=
  let limit := js_trim (value p "createConsumerLimit") in
  [("id", VString (js_trim (value p "createConsumerID"))); ("display_name", VString (js_trim (value p "createConsumerName")))]
  ++ match limit with [] => [] | _ => [("total_token_limit", VNumber (js_Number limit))] end.

(** [src/coordinator/cmd/coordinator/dashboard.go:1081-1093] createConsumer (the request) *)
Definition submitConsumer (p : Page) : Page :=
  perform_effects (by_id "createConsumerSubmit") true ClipWritten
    (sendAction (token p) (lit "/admin/consumers") "POST" (stringify (consumerBody p))) p.

(** [src/coordinator/cmd/coordinator/dashboard.go:1097-1101] createProvider (the body) *)
Definition providerBody (p : Page) : js_object :=
  [("id", VString (js_trim (value p "createProviderID"))); ("display_name", VString (js_trim (value p "createProviderName")));
   ("privacy_mode", VString (value p "createProviderPrivacy"))].

(** [src/coordinator/cmd/coordinator/dashboard.go:1095-1104] createProvider (the request) *)
Definition submitProvider (p : Page) : Page :=
  perform_effects (by_id "createProviderSubmit") true ClipWritten
    (sendAction (token p) (lit "/admin/providers") "POST" (stringify (providerBody p))) p.

(** ** Events *)

Inductive Event :=
| Edit (id : string) (v : JsString)
| SubmitConsumer
| SubmitProvider
| Press (button : Btn) (confirm : bool) (c : Clipboard)
| Save
| TokenKey (key : JsString)
| Refresh
| Tick
| PriceChange
| AutoRefresh (checked : bool)
| Reply (n : nat) (r : Received)
| Reports (n : nat) (a : Answers).

(** [src/coordinator/cmd/coordinator/dashboard.go:1144-1156] addEventListener (the listeners); an event that cannot happen is none. *)
Definition page_step (p : Page) (e : Event) : Page :=
  match e with
  | Edit id v => p <| pg_value ::= <[id := v]> |>
  | SubmitConsumer => submitConsumer p
  | SubmitProvider => submitProvider p
  | Press button confirm c =>
      if bool_decide (button ∈ pg_disabled p) then p
      else
        let anchor := match st_integrity (pg_state p) with Some i => js (an_AnchorHash (it_Anchor i)) | None => [] end in
        perform_effects button false c (click (token p) (pg_secretText p) anchor (fun _ => confirm) button) p
  | Save => saveSettings p
  | TokenKey key => if js_eqb key (lit "Enter") then saveSettings p else p
  | Refresh => refreshStart None p
  | Tick => if pg_timer p then refreshStart None p else p
  | PriceChange =>
      updates (renderMetrics (cloudPrice p) (pg_state p)) (p <| pg_storage ::= <["mi.cloudPrice" := value p "cloudPrice"]> |>)
  | AutoRefresh checked => p <| pg_timer := checked |>
  | Reply n r =>
      match pg_actions p !! n with
      | Some ac => answered ac r (p <| pg_actions ::= delete n |>)
      | None => p
      end
  | Reports n a =>
      match pg_refreshes p !! n with
      | Some after => refreshed after a (p <| pg_refreshes ::= delete n |>)
      | None => p
      end
  end.

(** The page as the browser has it before the script runs: the markup's texts, the storage, the
    address. *)
Definition blank_page (storage : gmap string JsString) (query : option JsString) : Page :=
  {| pg_state := {| st_status := None; st_nodes := []; st_city := None; st_settlement := None; st_reputation := None;
                    st_integrity := None; st_challenges := None |};
     pg_secretText := []; pg_timer := false; pg_value := {["createProviderPrivacy" := lit "public"]};
     pg_text := {["secretTitle" := lit "One-time secret"]}; pg_class := ∅; pg_html := ∅; pg_display := ∅;
     pg_disabled := []; pg_copied := []; pg_storage := storage; pg_query := query; pg_clipboard := []; pg_actions := [];
     pg_refreshes := [] |}.

(** [src/coordinator/cmd/coordinator/dashboard.go:1158-1160] timer (the start of the script) *)
Definition start (storage : gmap string JsString) (query : option JsString) : Page :=
  refreshStart None (loadSettings (blank_page storage query)) <| pg_timer := true |>.

Definition page_run (p : Page) (es : list Event) : Page := fold_left page_step es p.

Definition reached (p : Page) : Prop := exists storage query es, p = page_run (start storage query) es.
End Page.
