(* ===== verification/DashboardMarkup.v ===== *)
(** * The markup of the administration page

    The body of the page [adminDashboardHTML] of [coordinator/cmd/coordinator/dashboard.go], line by
    line up to its script, and what the script looks up in it.  [markup_ids] are the ids of its
    elements, read with the tokenizer of [Html.v].  [page_elements]: each id is of one element, every
    element that a report sets is there, and so are the fields, buttons and forms the script listens to.
    Double quotes are written as apostrophes, as in the texts of the script; the markup has no
    apostrophe of its own. *)

From S2P Require Import Prelude GoString GoSort GoFloat GoFormat Js JsNumber JsJson Html Dashboard DashboardProofs.
From S2P Require Import DashboardForms.

(** [src/coordinator/cmd/coordinator/dashboard.go:410-501] adminDashboardHTML (the header and the tables) *)
Definition markup_tables : list string := [
    "<body>";
    "  <header>";
    "    <div class='topbar'>";
    "      <div>";
    "        <h1>mi admin dashboard</h1>";
    "        <div class='subtitle'>Nodes, health, usage, rewards, savings, reputation</div>";
    "      </div>";
    "      <div class='controls'>";
    "        <input id='token' type='password' autocomplete='current-password' placeholder='admin_token'>";
    "        <button id='saveToken' class='primary' type='button'>Save</button>";
    "        <button id='refresh' type='button'>Refresh</button>";
    "        <label class='inline'>Cloud $/1M <input id='cloudPrice' type='number' min='0' step='0.01' value='0.20'></label>";
    "        <label class='inline'><input id='autoRefresh' type='checkbox' checked> Auto</label>";
    "      </div>";
    "    </div>";
    "  </header>";
    "";
    "  <main>";
    "    <div class='statusline'>";
    "      <div id='authStatus' class='pill warn'>Admin token required</div>";
    "      <div id='lastUpdated'>Not loaded</div>";
    "    </div>";
    "    <div id='errors' class='errorbox'></div>";
    "    <div id='secretBox' class='secretbox' role='status' aria-live='polite'>";
    "      <div class='secret-head'>";
    "        <div>";
    "          <div class='strong' id='secretTitle'>One-time secret</div>";
    "          <div class='secret-note'>Shown only once and must be stored now.</div>";
    "        </div>";
    "        <div class='secret-actions'>";
    "          <button id='copySecret' type='button'>Copy</button>";
    "          <button id='dismissSecret' type='button'>Dismiss</button>";
    "        </div>";
    "      </div>";
    "      <div id='secretValue' class='secret-value mono'></div>";
    "    </div>";
    "";
    "    <section class='grid metrics' aria-label='Key metrics'>";
    "      <div class='metric'><div class='label'>Healthy nodes</div><div id='healthyNodes' class='value'>-</div><div id='nodeSub' class='sub'></div></div>";
    "      <div class='metric'><div class='label'>Capacity</div><div id='capacity' class='value'>-</div><div id='capacitySub' class='sub'></div></div>";
    "      <div class='metric'><div class='label'>Tokens</div><div id='totalTokens' class='value'>-</div><div id='tokenSub' class='sub'></div></div>";
    "      <div class='metric'><div class='label'>Rewards</div><div id='rewards' class='value'>-</div><div id='rewardSub' class='sub'></div></div>";
    "      <div class='metric'><div class='label'>Cloud equiv</div><div id='cloudCost' class='value'>-</div><div id='cloudSub' class='sub'></div></div>";
    "      <div class='metric'><div class='label'>Est. savings</div><div id='savings' class='value'>-</div><div id='savingsSub' class='sub'></div></div>";
    "    </section>";
    "";
    "    <section class='grid columns'>";
    "      <div>";
    "        <section class='panel'>";
    "          <h2><span>Nodes</span><span id='nodesCount' class='pill'>0</span></h2>";
    "          <div class='table-wrap'>";
    "            <table>";
    "              <thead>";
    "                <tr>";
    "                  <th>Node</th>";
    "                  <th>Health</th>";
    "                  <th>Provider</th>";
    "                  <th>Load</th>";
    "                  <th>Observed</th>";
    "                  <th>Models</th>";
    "                  <th>Hardware</th>";
    "                  <th>Last seen</th>";
    "                </tr>";
    "              </thead>";
    "              <tbody id='nodesBody'></tbody>";
    "            </table>";
    "          </div>";
    "        </section>";
    "";
    "        <section class='panel'>";
    "          <h2><span>Provider Reputation</span><span id='providersCount' class='pill'>0</span></h2>";
    "          <div class='table-wrap'>";
    "            <table>";
    "              <thead>";
    "                <tr>";
    "                  <th>Provider</th>";
    "                  <th>Score</th>";
    "                  <th>Nodes</th>";
    "                  <th>Events</th>";
    "                  <th>Rewards</th>";
    "                  <th>Challenges</th>";
    "                  <th>Notes</th>";
    "                  <th>Actions</th>";
    "                </tr>";
    "              </thead>";
    "              <tbody id='providersBody'></tbody>";
    "            </table>";
    "          </div>";
    "        </section>";
    "";
    "        <section class='panel'>";
    "          <h2><span>Consumers</span><span id='consumersCount' class='pill'>0</span></h2>"].

(** [src/coordinator/cmd/coordinator/dashboard.go:502-592] adminDashboardHTML (the rest of the body) *)
Definition markup_rest : list string := [
    "          <div class='table-wrap'>";
    "            <table>";
    "              <thead>";
    "                <tr>";
    "                  <th>Consumer</th>";
    "                  <th>Status</th>";
    "                  <th>Requests</th>";
    "                  <th>Tokens</th>";
    "                  <th>Quota</th>";
    "                  <th>Updated</th>";
    "                  <th>Actions</th>";
    "                </tr>";
    "              </thead>";
    "              <tbody id='consumersBody'></tbody>";
    "            </table>";
    "          </div>";
    "        </section>";
    "      </div>";
    "";
    "      <aside>";
    "        <section class='panel'>";
    "          <h2><span>Operator Write Actions</span><span class='pill warn'>Admin</span></h2>";
    "          <div class='panel-body'>";
    "            <div class='operator-forms'>";
    "              <form id='createConsumer' class='admin-form' autocomplete='off'>";
    "                <div class='form-title'>Create consumer</div>";
    "                <div class='form-fields'>";
    "                  <label>ID <input id='createConsumerID' name='id' required placeholder='consumer-id'></label>";
    "                  <label>Display name <input id='createConsumerName' name='display_name' placeholder='Display name'></label>";
    "                  <label>Total token limit <input id='createConsumerLimit' name='total_token_limit' type='number' min='0' step='1' placeholder='optional'></label>";
    "                </div>";
    "                <div class='form-actions'>";
    "                  <button id='createConsumerSubmit' class='primary' type='submit'>Create consumer</button>";
    "                </div>";
    "              </form>";
    "";
    "              <form id='createProvider' class='admin-form' autocomplete='off'>";
    "                <div class='form-title'>Create provider</div>";
    "                <div class='form-fields'>";
    "                  <label>ID <input id='createProviderID' name='id' required placeholder='provider-id'></label>";
    "                  <label>Display name <input id='createProviderName' name='display_name' placeholder='Display name'></label>";
    "                  <label>Privacy mode <select id='createProviderPrivacy' name='privacy_mode'>";
    "                    <option value='public'>public</option>";
    "                    <option value='community'>community</option>";
    "                    <option value='private'>private</option>";
    "                  </select></label>";
    "                </div>";
    "                <div class='form-actions'>";
    "                  <button id='createProviderSubmit' class='primary' type='submit'>Create provider</button>";
    "                </div>";
    "              </form>";
    "            </div>";
    "          </div>";
    "        </section>";
    "";
    "        <section class='panel'>";
    "          <h2><span>Network</span><span id='networkBadge' class='pill'>-</span></h2>";
    "          <div id='networkBody' class='panel-body'></div>";
    "        </section>";
    "";
    "        <section class='panel'>";
    "          <h2><span>Settlement</span><span id='settlementBadge' class='pill'>-</span></h2>";
    "          <div id='settlementBody' class='panel-body'></div>";
    "        </section>";
    "";
    "        <section class='panel'>";
    "          <h2><span>Provider Rewards</span><span id='rewardCount' class='pill'>0</span></h2>";
    "          <div class='table-wrap'>";
    "            <table>";
    "              <thead>";
    "                <tr>";
    "                  <th>Provider</th>";
    "                  <th>Tokens</th>";
    "                  <th>Reward</th>";
    "                  <th>Latency</th>";
    "                </tr>";
    "              </thead>";
    "              <tbody id='rewardsBody'></tbody>";
    "            </table>";
    "          </div>";
    "        </section>";
    "";
    "        <section class='panel'>";
    "          <h2><span>Integrity</span><span id='integrityBadge' class='pill'>-</span></h2>";
    "          <div id='integrityBody' class='panel-body'></div>";
    "        </section>";
    "      </aside>";
    "    </section>";
    "";
    "    <footer>Savings assumes settlement micros are USD micros. Adjust the cloud comparison price to match your alternative provider.</footer>";
    "  </main>"].

Definition markup : JsString := flat_map (fun line => lit line ++ [10]) (markup_tables ++ markup_rest).

(** The elements, by tag and attributes. *)
Definition elements : list (JsString * list (JsString * JsString)) :=
  omap (fun t => match t with Open tag attrs => Some (tag, attrs) | _ => None end) (lex Data markup).2.

Definition ids_of (els : list (JsString * list (JsString * JsString))) : list JsString := omap (fun e => attr e.2 "id") els.
Definition markup_ids : list JsString := ids_of elements.

(** [document.getElementById(id)], the first. *)
Definition element_of (els : list (JsString * list (JsString * JsString))) (id : string) : option (JsString * list (JsString * JsString)) :=
  find (fun e => bool_decide (attr e.2 "id" = Some (bytes id))) els.
Definition element : string -> option (JsString * list (JsString * JsString)) := element_of elements.

Definition update_id (u : Update) : string := match u with SetText id _ | SetClass id _ | SetHTML id _ | SetDisplay id _ => id end.

(** The elements that a report is written into. *)
Definition report_ids : list string :=
  ["authStatus"; "lastUpdated"; "errors"; "healthyNodes"; "nodeSub"; "capacity"; "capacitySub"; "totalTokens"; "tokenSub"; "rewards"; "rewardSub";
   "cloudCost"; "cloudSub"; "savings"; "savingsSub"; "networkBadge"; "networkBody"; "nodesCount"; "nodesBody"; "providersCount"; "providersBody";
   "consumersCount"; "consumersBody"; "settlementBadge"; "settlementBody"; "rewardCount"; "rewardsBody"; "integrityBadge"; "integrityBody"].

(** What else the script looks up, with its kind of element. *)
Definition script_ids : list (string * string) :=
  [("token", "input"); ("cloudPrice", "input"); ("autoRefresh", "input"); ("saveToken", "button"); ("refresh", "button");
   ("secretBox", "div"); ("secretTitle", "div"); ("secretValue", "div"); ("copySecret", "button"); ("dismissSecret", "button");
   ("createConsumer", "form"); ("createConsumerID", "input"); ("createConsumerName", "input"); ("createConsumerLimit", "input");
   ("createConsumerSubmit", "button"); ("createProvider", "form"); ("createProviderID", "input"); ("createProviderName", "input");
   ("createProviderPrivacy", "select"); ("createProviderSubmit", "button")].

Lemma render_ids {B : Browser} price st errors : forallb (fun u => bool_decide (update_id u ∈ report_ids)) (render price st errors) = true.
Proof. unfold render. destruct errors; reflexivity. Qed.

Definition elements_ok (els : list (JsString * list (JsString * JsString))) : bool :=
  let ids := ids_of els in
  bool_decide (NoDup ids)
  && forallb (fun id => bool_decide (bytes id ∈ ids)) report_ids
  && forallb (fun e => bool_decide (fst <$> element_of els e.1 = Some (bytes e.2))) script_ids.

Lemma elements_ok_spec els : elements_ok els = true ->
  NoDup (ids_of els) /\ (forall id, id ∈ report_ids -> bytes id ∈ ids_of els)
  /\ (forall id tag, (id, tag) ∈ script_ids -> fst <$> element_of els id = Some (bytes tag)).
Proof.
  unfold elements_ok. cbv zeta. intros [[H1 H2]%andb_true_iff H3]%andb_true_iff. rewrite forallb_forall in H2, H3. split_and!.
  - exact (bool_decide_eq_true_1 _ H1).
  - intros id Hid. exact (bool_decide_eq_true_1 _ (H2 id (proj1 (list_elem_of_In _ _) Hid))).
  - intros id tag Hin. exact (bool_decide_eq_true_1 _ (H3 (id, tag) (proj1 (list_elem_of_In _ _) Hin))).
Qed.

Lemma markup_read : (match (lex Data markup).1 with Data => true | _ => false end) = true.
Proof. vm_compute. reflexivity. Qed.

Lemma markup_elements : elements_ok elements = true.
Proof. vm_compute. reflexivity. Qed.

Lemma data_state (x : Lexer * list Token) : (match x.1 with Data => true | _ => false end) = true -> exists ts, x = (Data, ts).
Proof. destruct x as [[] ts]; try done. by exists ts. Qed.

(** The script finds what it looks for: the markup is read without an error, no id is of two elements,
    every update of a refresh is of an element that is there, and the fields, buttons and forms are. *)
Theorem page_elements :
  (exists ts, lex Data markup = (Data, ts)) /\ NoDup markup_ids
  /\ (forall B price st errors u, u ∈ @render B price st errors -> bytes (update_id u) ∈ markup_ids)
  /\ (forall id tag, (id, tag) ∈ script_ids -> fst <$> element id = Some (bytes tag)).
Proof.
  destruct (elements_ok_spec elements markup_elements) as (H1 & H2 & H3). split; [exact (data_state (lex Data markup) markup_read)|].
  split; [exact H1|]. split; [|exact H3]. intros B price st errors u Hu. apply H2.
  pose proof (@render_ids B price st errors) as Hr. rewrite forallb_forall in Hr.
  exact (bool_decide_eq_true_1 _ (Hr u (proj1 (list_elem_of_In _ _) Hu))).
Qed.
