(* ===== verification/DashboardFlow.v ===== *)
(** * What the administration page guarantees over time

    [account_form]: a submitted form, through its bytes, the router, the handler and the reply, is
    the account with the fields' texts, and the secret the page then shows is the one that
    authenticates as it.  [one_time_secret]: what is shown is what is copied, dismissing wipes it, and
    nothing else of the page (fields, storage, requests, markup) depends on it.  [settings_kept]: the
    settings survive the page; a token in the address is moved to the storage. *)

From Stdlib Require Import ZifyBool.
From S2P Require Import Prelude GoString GoSort GoFloat GoFormat Sha256 Json JsonDecode JsonRoundTrip JsonTree Privacy.
From S2P Require Import Protocol Config ModelCatalog Settlement Scheduler Challenge City Reputation CityProofs.
From S2P Require Import CityFile Requests Services Handlers AdminHandlers Router QuotaSystem AdminJson Js.
From S2P Require Import JsNumber JsJson Html Dashboard DashboardProofs DashboardActions DashboardForms.

(** ** Texts *)

Lemma js_nonempty s : s <> "" -> js s <> [].
Proof.
  intros Hs. unfold js, runes, segments. destruct (bytes s) as [|b l] eqn:E; [exfalso; apply Hs; by apply bytes_inj|].
  rewrite segments_from_cons. destruct (decode_rune (b :: l)) as [r w]. cbn [fmap list_fmap fst flat_map]. unfold utf16. by case_goal.
Qed.

Lemma go_text_valid s : well_formed s -> valid_text (go_text s).
Proof.
  intros H. unfold valid_text, valid_utf8, segments, go_text.
  set (segs := (fun r => (r, encode_rune r)) <$> code_points s).
  assert (Hs : Forall stable segs) by (apply Forall_fmap; eapply Forall_impl; [exact H|]; intros r Hr; by apply scalar_stable).
  assert (Hf : flat_map encode_rune (code_points s) = flat_map snd segs).
  { subst segs. clear. induction (code_points s) as [|r l IH]; [done|]. cbn. by rewrite IH. }
  rewrite bytes_of_bytes.
  - rewrite Hf, stable_segments by done. apply forallb_forall. intros seg Hin. apply list_elem_of_In, list_elem_of_fmap in Hin as (r & -> & Hr).
    unfold well_formed in H. rewrite Forall_forall in H. specialize (H r Hr). unfold valid_segment. cbn [fst snd].
    destruct (decide (r < 128)); [lia|]. destruct (decode_encode r H ltac:(lia)) as [_ Hl]. lia.
  - apply Forall_forall. intros b Hb. apply list_elem_of_In, in_flat_map in Hb as (r & Hr%list_elem_of_In & Hb%list_elem_of_In).
    unfold well_formed in H. rewrite Forall_forall in H. pose proof (encode_range r (H r Hr)) as He. rewrite Forall_forall in He. by apply He.
Qed.

Definition random_ok (raw : res string (list Z)) : Prop := match raw with Ok l => Forall (fun b => 0 <= b < 256) l | Err _ => True end.

Lemma secret_text prefix raw secret : Forall (fun b => b < 128) (bytes prefix) -> prefix <> "" -> random_ok raw ->
  randomSecret prefix raw = Ok secret -> valid_text secret /\ secret <> "".
Proof.
  intros Hp Hne Hr. destruct raw as [raw|e]; [|done]. intros [= <-]. split; [|by intros [-> _]%sapp_empty].
  apply ascii_valid. rewrite bytes_app. apply Forall_app_2; [done|]. destruct (hex_of_bytes_chars raw Hr) as [_ H].
  eapply Forall_impl; [exact H|]. unfold hex_char. lia.
Qed.

(** ** What the coordinator reads of a form *)

Section Decoding.
Context {DE : DecoderErrors}.

Lemma set_value {S} (fields : list (string * setter S)) x n v set x' :
  find_field fields (unquote (bytes n)) = Some set -> set (js_tree v) x = Some x' ->
  set_member fields (Some x) (bytes n, js_tree v) = Some x'.
Proof. intros Hf Hs. unfold set_member. cbn [fst snd]. by rewrite Hf. Qed.

(** The limit a field stands for: none when it is blank. *)
Definition limit_of (text : JsString) (z : Z) : Prop :=
  text = [] /\ z = 0 \/ text <> [] /\ forallb is_dig text = true /\ z = digits_value 0 text /\ 0 <= z < 2 ^ 53.

Ltac named := repeat (apply Forall_cons; split); try apply Forall_nil_2; (split; [apply name_ok, (bool_decide_unpack _); vm_compute; exact I|]).

Lemma consumer_form_read p z : well_formed (js_trim (value p "createConsumerID")) -> well_formed (js_trim (value p "createConsumerName")) ->
  limit_of (js_trim (value p "createConsumerLimit")) z ->
  decode_CreateConsumerInput (stringify (consumerBody p))
  = Ok {| City.ci_ID := go_text (js_trim (value p "createConsumerID")); ci_DisplayName := go_text (js_trim (value p "createConsumerName"));
          ci_TotalTokenLimit := z |}.
Proof.
  intros Hid Hname Hl. unfold consumerBody. set (limit := js_trim (value p "createConsumerLimit")) in *.
  assert (Hn : limit <> [] -> js_Number limit = num z /\ 0 <= z < 2 ^ 53).
  { intros Hne. destruct Hl as [[? _]|(_ & Hd & -> & Hz)]; [done|]. by rewrite js_Number_digits. }
  unfold decode_CreateConsumerInput, stringify. destruct limit as [|c l] eqn:E.
  - assert (z = 0) as -> by (destruct Hl as [[_ ->]|[? _]]; done). apply decode_written.
    + apply stringify_writable. named; done.
    + unfold decode_struct. cbn [app fmap list_fmap fst snd fold_left].
      erewrite set_value; [|reflexivity|by apply string_set]. erewrite set_value; [|reflexivity|by apply string_set]. reflexivity.
  - destruct (Hn ltac:(done)) as [-> Hz]. apply decode_written.
    + apply stringify_writable. named; [done..|]. by exists z.
    + unfold decode_struct. cbn [app fmap list_fmap fst snd fold_left].
      erewrite set_value; [|reflexivity|by apply string_set]. erewrite set_value; [|reflexivity|by apply string_set].
      erewrite set_value; [|reflexivity|by apply number_set]. reflexivity.
Qed.

Lemma provider_form_read p : well_formed (js_trim (value p "createProviderID")) -> well_formed (js_trim (value p "createProviderName")) ->
  well_formed (value p "createProviderPrivacy") ->
  decode_CreateProviderInput (stringify (providerBody p))
  = Ok {| pi_ID := go_text (js_trim (value p "createProviderID")); pi_DisplayName := go_text (js_trim (value p "createProviderName"));
          pi_PrivacyMode := go_text (value p "createProviderPrivacy"); pi_PrivacyTiers := [] |}.
Proof.
  intros H1 H2 H3. unfold decode_CreateProviderInput, stringify, providerBody. apply decode_written.
  - apply stringify_writable. named; done.
  - unfold decode_struct. cbn [app fmap list_fmap fst snd fold_left].
    erewrite set_value; [|reflexivity|by apply string_set]. erewrite set_value; [|reflexivity|by apply string_set].
    erewrite set_value; [|reflexivity|by apply string_set]. reflexivity.
Qed.
End Decoding.

(** ** Requests and replies *)

Section Flow.
Context {DE : DecoderErrors} {B : Browser} (nullError : JsString).

Lemma route_consumers b : route b "POST" (lit "/admin/consumers") = RHandler (HEndpoint (PostAdminConsumers (bd_consumer b))).
Proof. lazy. reflexivity. Qed.
Lemma route_providers b : route b "POST" (lit "/admin/providers") = RHandler (HEndpoint (PostAdminProviders (bd_provider b))).
Proof. lazy. reflexivity. Qed.

(** A form's request, with a token in its field. *)
Definition form_action (p : Page) (path : JsString) (body : list Z) (button : string) : Action :=
  {| ac_path := path; ac_request := postJSON (token p) path body; ac_button := by_id button; ac_form := true |}.

Lemma submit_launch p path body button c : token p <> [] ->
  perform_effects (by_id button) true c (sendAction (token p) path "POST" body) p
  = disable (by_id button) p <| pg_actions ::= fun l => l ++ [form_action p path body button] |>.
Proof. intros Ht. unfold form_action, sendAction, requireAdminToken. by destruct (token p). Qed.

(** A reply of JSON. *)
Lemma parse_json_reply status j path : writable max_depth j ->
  parseActionResponse nullError (Got status (write false 0 j ++ [10])) path
  = if (200 <=? status) && (status <=? 299) then Ok j else Err (error_message nullError j (path ++ lit " returned " ++ int_text status)).
Proof.
  intros Hw. cbn [parseActionResponse]. rewrite parse_encoded by done.
  destruct (write false 0 j ++ [10]) eqn:E; [by apply app_eq_nil in E as [_ ?]|]. by destruct ((200 <=? status) && (status <=? 299)).
Qed.

(** A member of a struct, by its name. *)
Ltac member :=
  unfold struct_tree, present_members, created_consumer, created_provider, error_object;
  cbn [omap list_omap fst snd fmap option_fmap option_map js_member rev app find];
  repeat match goal with
  | |- context [js_eqb (js_string (escaped ?a)) (js ?b)] =>
      let v := eval vm_compute in (js_eqb (js_string (escaped a)) (js b)) in change (js_eqb (js_string (escaped a)) (js b)) with v
  end; reflexivity.

Lemma api_key_read c : valid_text (cd_APIKey c) ->
  js_text_member "api_key" (struct_tree (created_consumer c)) = js (cd_APIKey c)
  /\ js_text_member "provider_token" (struct_tree (created_consumer c)) = [].
Proof.
  intros Hv. assert (H1 : js_member "api_key" (struct_tree (created_consumer c)) = Some (string_tree (cd_APIKey c))) by member.
  assert (H2 : js_member "provider_token" (struct_tree (created_consumer c)) = None) by member.
  unfold js_text_member. rewrite H1, H2. split; [|done]. unfold string_tree, js_string. by rewrite unquote_json_string.
Qed.

Lemma provider_token_read c : valid_text (cp_ProviderToken c) ->
  js_text_member "provider_token" (struct_tree (created_provider c)) = js (cp_ProviderToken c)
  /\ js_text_member "api_key" (struct_tree (created_provider c)) = [].
Proof.
  intros Hv. assert (H1 : js_member "provider_token" (struct_tree (created_provider c)) = Some (string_tree (cp_ProviderToken c))) by member.
  assert (H2 : js_member "api_key" (struct_tree (created_provider c)) = None) by member.
  unfold js_text_member. rewrite H1, H2. split; [|done]. unfold string_tree, js_string. by rewrite unquote_json_string.
Qed.

Lemma error_message_read message type_ other : valid_text message ->
  error_message nullError (struct_tree (error_object message type_)) other = js_or (js message) other.
Proof.
  intros Hv. unfold error_message, struct_tree. change (JObject (present_members (error_object message type_))) with (struct_tree (error_object message type_)).
  assert (H1 : js_member "error" (struct_tree (error_object message type_))
    = Some (struct_tree [("message", Some (string_tree message)); ("type", Some (string_tree type_))])) by member.
  assert (H2 : js_member "message" (struct_tree [("message", Some (string_tree message)); ("type", Some (string_tree type_))])
    = Some (string_tree message)) by member.
  assert (H3 : js_member "message" (struct_tree (error_object message type_)) = None) by member.
  unfold js_text_member. rewrite H1, H2, H3. unfold string_tree, js_string. by rewrite unquote_json_string.
Qed.

(** The secret on display. *)
Definition shows_secret (p : Page) (title secret : JsString) : Prop :=
  pg_secretText p = secret /\ pg_text p !! "secretValue" = Some secret /\ pg_text p !! "secretTitle" = Some title
  /\ pg_display p !! "secretBox" = Some (lit "block").

Lemma show_secret title v p : shows_secret (showSecret title v p) title v.
Proof. split_and!; [done|..]; cbn; by simplify_map_eq. Qed.

(** A refresh starts with the messages only. *)
Lemma refresh_keeps_secret after title v p : shows_secret p title v -> shows_secret (refreshStart after p) title v.
Proof. intros (H1 & H2 & H3 & H4). split_and!; [done|..]; cbn; by simplify_map_eq. Qed.

(** An action whose reply is the object of an error, or of an account with its secret. *)
Lemma answered_error ac status err type_ p : valid_text (city_error_text err) -> valid_text type_ -> 400 <= status ->
  exists p', answered nullError ac (Got status (write false 0 (struct_tree (error_object (city_error_text err) type_)) ++ [10])) p
    = enable (ac_button ac) p' /\ pg_secretText p' = pg_secretText p
    /\ pg_text p' !! "errors" = Some (js_or (js_or (js (city_error_text err)) (ac_path ac ++ lit " returned " ++ int_text status)) (lit "Request failed")).
Proof.
  intros Hv Ht Hs. exists (showError (js_or (js (city_error_text err)) (ac_path ac ++ lit " returned " ++ int_text status)) p). split_and!; [|reflexivity|].
  - unfold answered. rewrite parse_json_reply by by apply error_writable. replace ((200 <=? status) && (status <=? 299)) with false by lia.
    rewrite error_message_read by done. reflexivity.
  - cbn. by simplify_map_eq.
Qed.

Lemma answered_consumer ac c status p : consumer_texts (cd_Consumer c) -> valid_text (cd_APIKey c) -> cd_APIKey c <> "" -> 200 <= status <= 299 ->
  shows_secret (answered nullError ac (Got status (write false 0 (struct_tree (created_consumer c)) ++ [10])) p)
    (lit "Consumer API key") (js (cd_APIKey c)).
Proof.
  intros Hc Hk Hne Hs. unfold answered. rewrite parse_json_reply by by apply created_consumer_writable.
  replace ((200 <=? status) && (status <=? 299)) with true by lia. apply refresh_keeps_secret. unfold showReturnedSecret.
  destruct (api_key_read c Hk) as [-> ->]. pose proof (js_nonempty _ Hne) as Hj. destruct (js (cd_APIKey c)) eqn:E; [done|]. apply show_secret.
Qed.

Lemma answered_provider ac c status p : provider_texts (cp_Provider c) -> valid_text (cp_ProviderToken c) -> cp_ProviderToken c <> "" ->
  200 <= status <= 299 ->
  shows_secret (answered nullError ac (Got status (write false 0 (struct_tree (created_provider c)) ++ [10])) p)
    (lit "Provider token") (js (cp_ProviderToken c)).
Proof.
  intros Hc Hk Hne Hs. unfold answered. rewrite parse_json_reply by by apply created_provider_writable.
  replace ((200 <=? status) && (status <=? 299)) with true by lia. apply refresh_keeps_secret. unfold showReturnedSecret.
  destruct (provider_token_read c Hk) as [-> ->]. pose proof (js_nonempty _ Hne) as Hj. destruct (js (cp_ProviderToken c)) eqn:E; [done|]. apply show_secret.
Qed.

(** The account a creation leaves. *)
Lemma CreateConsumer_ok input raw now fault m d c m' d' : CreateConsumer input raw now fault m d = (Ok c, m', d' : Disk) ->
  let id := normalizeAccountID (City.ci_ID input) in
  cd_Consumer c = {| cn_ID := id; cn_DisplayName := displayName (ci_DisplayName input) id;
                     cn_TotalTokenLimit := ci_TotalTokenLimit input; cn_Disabled := false |}
  /\ randomSecret "sk-mi-" raw = Ok (cd_APIKey c) /\ m_apiKeys m' = m_apiKeys m
  /\ m_consumers m' !! id = Some (cd_Consumer c) /\ m_apiKeyHashes m' !! hashSecret (cd_APIKey c) = Some id.
Proof.
  unfold CreateConsumer. case_goal; [done|]. destruct (randomSecret "sk-mi-" raw) as [key|]; [|done].
  destruct (m_consumers m !! _); [done|]. destruct (persist _ _ _ _) as [[e|] d0]; [done|]. intros [= <- <- <-].
  cbn. split_and!; try done; by simplify_map_eq.
Qed.

Lemma CreateProvider_ok input raw now fault m d c m' d' : CreateProvider input raw now fault m d = (Ok c, m', d' : Disk) ->
  let id := normalizeAccountID (pi_ID input) in
  exists mode tiers, providerPrivacy (pi_PrivacyMode input) (pi_PrivacyTiers input) = Ok (mode, tiers)
  /\ cp_Provider c = {| pv_ID := id; pv_DisplayName := displayName (pi_DisplayName input) id; pv_Disabled := false;
                        pv_PrivacyMode := mode; pv_PrivacyTiers := tiers |}
  /\ randomSecret "pk-mi-" raw = Ok (cp_ProviderToken c) /\ m_tokens m' = m_tokens m
  /\ m_providers m' !! id = Some (cp_Provider c) /\ m_tokenHashes m' !! hashSecret (cp_ProviderToken c) = Some id.
Proof.
  unfold CreateProvider. case_goal; [done|]. destruct (randomSecret "pk-mi-" raw) as [key|]; [|done].
  destruct (m_providers m !! _); [done|]. destruct (providerPrivacy _ _) as [[mode tiers]|]; [|done].
  destruct (persist _ _ _ _) as [[e|] d0]; [done|]. intros [= <- <- <-].
  exists mode, tiers. cbn. split_and!; try done; by simplify_map_eq.
Qed.

Lemma created_consumer_authenticates m c id : m_apiKeys m !! cd_APIKey c = None -> cd_APIKey c <> "" ->
  m_consumers m !! id = Some (cd_Consumer c) -> cn_Disabled (cd_Consumer c) = false -> m_apiKeyHashes m !! hashSecret (cd_APIKey c) = Some id ->
  AuthenticateConsumer m (cd_APIKey c) = Ok id.
Proof.
  intros H1 H2 H3 H4 H5. rewrite AuthenticateConsumer_ok. right. split; [intros [? _]; done|]. split; [|by eexists]. by right.
Qed.

Lemma account_error_range err : 400 <= (writeAccountError err).1 /\ valid_text (writeAccountError err).2.
Proof. unfold valid_text. by destruct err. Qed.

Section Account.
Context (s : server) (page : string) (b : Bodies) (p : Page).
Hypothesis Htoken : token p <> [].
Hypothesis Hadmin : of_bytes (token p) = sv_adminToken s.

Lemma form_passes next path body button : requireAdmin s next (request_of (ac_request (form_action p path body button))) = next.
Proof. apply (admin_passes s (token p)); [done|done|]. by right. Qed.

(** A page that shows why an action failed, its secret as it was. *)
Definition shows_error (q q' : Page) (err : CityError) : Prop :=
  pg_secretText q' = pg_secretText q
  /\ (city_error_text err <> "" -> pg_text q' !! "errors" = Some (js (city_error_text err))).

Lemma account_error_shown ac err : exists text, reply_bytes (accountError err) = Some text
  /\ (valid_text (city_error_text err) -> forall q, shows_error q (answered nullError ac (Got (ry_Status (accountError err)) text) q) err).
Proof.
  unfold accountError. pose proof (account_error_range err) as [Hr Ht]. destruct (writeAccountError err) as [status type_]. cbn [fst snd] in *.
  eexists. split; [reflexivity|]. intros Hv q. cbn [ry_Status writeJSONStatus reply].
  destruct (answered_error ac status err type_ q Hv Ht Hr) as (p' & -> & H1 & H2). split; [exact H1|].
  intros Hne. cbn. rewrite H2. pose proof (js_nonempty _ Hne). by destruct (js (city_error_text err)).
Qed.

(** The endpoint that a submitted form reaches: the request joins those under way, its button is
    disabled, and the router and the administrator's check let it through to [handler]. *)
Definition form_reaches (q : Page) (ac : DashboardForms.Action) (body : list Z) (e : Endpoint) (handler : Prog Handlers.Reply) : Prop :=
  q = disable (ac_button ac) p <| pg_actions ::= fun l => l ++ [ac] |>
  /\ ft_body (ac_request ac) = Some body
  /\ route (bodies b body) (ft_method (ac_request ac)) (ft_path (ac_request ac)) = RHandler (HEndpoint e)
  /\ serve s page e (request_of (ac_request ac)) = handler.

(** C20: Submitting the consumer form sends one request, which the router and the administrator's check
    let through to the handler with the texts of the fields and the limit, exact below [2^53], as the
    decoder reads them from the bytes of [JSON.stringify]; and when the handler has run, the page that
    gets the bytes of its reply shows the key that authenticates as the new account, or the reason
    there is none. *)
Theorem account_form z nd w w' reply :
  well_formed (js_trim (value p "createConsumerID")) -> well_formed (js_trim (value p "createConsumerName")) ->
  limit_of (js_trim (value p "createConsumerLimit")) z -> random_ok (nd_random nd) ->
  let input := {| City.ci_ID := go_text (js_trim (value p "createConsumerID"));
                  ci_DisplayName := go_text (js_trim (value p "createConsumerName")); ci_TotalTokenLimit := z |} in
  let id := normalizeAccountID (City.ci_ID input) in
  let body := stringify (consumerBody p) in
  let ac := form_action p (lit "/admin/consumers") body "createConsumerSubmit" in
  form_reaches (submitConsumer p) ac body (PostAdminConsumers (Ok input)) (adminCreateConsumer (Ok input))
  /\ (run s (adminCreateConsumer (Ok input)) [nd] w = Some (reply, w') ->
      let m := (w_market w').1 in
      exists text, reply_bytes reply = Some text /\
      match (CreateConsumer input (nd_random nd) (nd_now nd) (nd_fault nd) (w_market w).1 (w_market w).2).1.1 with
      | Ok c =>
          m_consumers m !! id = Some {| cn_ID := id; cn_DisplayName := displayName (ci_DisplayName input) id;
                                        cn_TotalTokenLimit := z; cn_Disabled := false |}
          /\ (m_apiKeys m !! cd_APIKey c = None -> AuthenticateConsumer m (cd_APIKey c) = Ok id)
          /\ forall q, shows_secret (answered nullError ac (Got (ry_Status reply) text) q) (lit "Consumer API key") (js (cd_APIKey c))
      | Err err =>
          valid_text (city_error_text err) -> forall q, shows_error q (answered nullError ac (Got (ry_Status reply) text) q) err
      end).
Proof.
  intros Hid Hname Hl Hr input id body ac. split.
  - split_and!; [by apply submit_launch|done| |apply form_passes].
    pose proof (consumer_form_read p z Hid Hname Hl) as Hb. cbn [ft_method ft_path ac_request ac form_action postJSON].
    rewrite route_consumers. cbn [bd_consumer bodies]. unfold body. by rewrite Hb.
  - destruct w as [reg [mk d] st ch sv]. cbn [fst snd run adminCreateConsumer exec w_market perform market_service market_perform].
    destruct (CreateConsumer input (nd_random nd) (nd_now nd) (nd_fault nd) mk d) as [[[c|err] m'] d'] eqn:E; cbn [stored lift run fst snd w_market]; intros [= <- <-].
    + apply CreateConsumer_ok in E as (Hc & Hsec & _ & Hm & Hh).
      destruct (secret_text "sk-mi-" _ _ ltac:(by apply (bool_decide_unpack _)) ltac:(done) Hr Hsec) as [Hk Hne].
      assert (Hct : consumer_texts (cd_Consumer c)).
      { rewrite Hc. split_and!; cbn; [apply canonical_text|apply displayName_text; [by apply go_text_valid|apply canonical_text]|].
        assert (0 <= z < 2 ^ 53) by (destruct Hl as [[_ ->]|(_ & _ & _ & ?)]; lia). unfold in_int64, min_int64, max_int64. lia. }
      exists (write false 0 (struct_tree (created_consumer c)) ++ [10]). split; [unfold reply_bytes; cbn [ry_Body reply writeJSONStatus body_tree]; reflexivity|]. cbn [w_market fst]. split_and!.
      * transitivity (Some (cd_Consumer c)); [exact Hm|by rewrite Hc].
      * intros Hp. apply created_consumer_authenticates; try done. by rewrite Hc.
      * intros q. by apply answered_consumer.
    + by apply account_error_shown.
Qed.

(** The provider form likewise: the account with its privacy policy, and the token whose hash the
    market keeps for it. *)
Theorem provider_form nd w w' reply :
  well_formed (js_trim (value p "createProviderID")) -> well_formed (js_trim (value p "createProviderName")) ->
  well_formed (value p "createProviderPrivacy") -> random_ok (nd_random nd) ->
  let input := {| pi_ID := go_text (js_trim (value p "createProviderID"));
                  pi_DisplayName := go_text (js_trim (value p "createProviderName"));
                  pi_PrivacyMode := go_text (value p "createProviderPrivacy"); pi_PrivacyTiers := [] |} in
  let id := normalizeAccountID (pi_ID input) in
  let body := stringify (providerBody p) in
  let ac := form_action p (lit "/admin/providers") body "createProviderSubmit" in
  form_reaches (submitProvider p) ac body (PostAdminProviders (Ok input)) (adminCreateProvider (Ok input))
  /\ (run s (adminCreateProvider (Ok input)) [nd] w = Some (reply, w') ->
      let m := (w_market w').1 in
      exists text, reply_bytes reply = Some text /\
      match (CreateProvider input (nd_random nd) (nd_now nd) (nd_fault nd) (w_market w).1 (w_market w).2).1.1 with
      | Ok c =>
          (exists mode tiers, providerPrivacy (pi_PrivacyMode input) [] = Ok (mode, tiers)
           /\ m_providers m !! id = Some {| pv_ID := id; pv_DisplayName := displayName (pi_DisplayName input) id; pv_Disabled := false;
                                            pv_PrivacyMode := mode; pv_PrivacyTiers := tiers |})
          /\ m_tokenHashes m !! hashSecret (cp_ProviderToken c) = Some id
          /\ forall q, shows_secret (answered nullError ac (Got (ry_Status reply) text) q) (lit "Provider token") (js (cp_ProviderToken c))
      | Err err =>
          valid_text (city_error_text err) -> forall q, shows_error q (answered nullError ac (Got (ry_Status reply) text) q) err
      end).
Proof.
  intros Hid Hname Hpr Hr input id body ac. split.
  - split_and!; [by apply submit_launch|done| |apply form_passes].
    pose proof (provider_form_read p Hid Hname Hpr) as Hb. cbn [ft_method ft_path ac_request ac form_action postJSON].
    rewrite route_providers. cbn [bd_provider bodies]. unfold body. by rewrite Hb.
  - destruct w as [reg [mk d] st ch sv]. cbn [fst snd run adminCreateProvider exec w_market perform market_service market_perform].
    destruct (CreateProvider input (nd_random nd) (nd_now nd) (nd_fault nd) mk d) as [[[c|err] m'] d'] eqn:E; cbn [stored lift run fst snd w_market]; intros [= <- <-];
      [|by apply account_error_shown].
    apply CreateProvider_ok in E as (mode & tiers & Hp & Hc & Hsec & _ & Hm & Hh).
    destruct (secret_text "pk-mi-" _ _ ltac:(by apply (bool_decide_unpack _)) ltac:(done) Hr Hsec) as [Hk Hne].
    assert (Hct : provider_texts (cp_Provider c)).
    { destruct (privacy_text _ _ _ Hp) as [Ht1 Ht2]. rewrite Hc. split_and!; cbn; [apply canonical_text| |done..].
      apply displayName_text; [by apply go_text_valid|apply canonical_text]. }
    exists (write false 0 (struct_tree (created_provider c)) ++ [10]). split; [unfold reply_bytes; cbn [ry_Body reply writeJSONStatus body_tree]; reflexivity|]. cbn [w_market fst]. split_and!; [|exact Hh|intros q; by apply answered_provider].
    exists mode, tiers. split; [exact Hp|]. transitivity (Some (cp_Provider c)); [exact Hm|by rewrite Hc].
Qed.
End Account.

(** A form keeps its fields after the account is there: nothing resets it, and submitting it again
    asks for the same account. *)
Lemma form_kept after a q : pg_value (refreshed after a q) = pg_value q.
Proof.
  assert (H : forall us q, pg_value (updates us q) = pg_value q) by (intros us; induction us as [|[]]; intros q'; cbn; by try rewrite IHus).
  unfold refreshed, refreshEnd. destruct (refreshReports a (pg_state q)) as [st errors].
  destruct after as [[? ? ? []]|]; cbn [ac_form resetForm id]; unfold enable; cbn; by rewrite H.
Qed.

(** A copy the browser refuses without an exception is reported as one that was made. *)
Lemma failed_copy_reported v b p : let q := copy v b (CommandReturned false) p in b ∈ pg_copied q /\ pg_clipboard q = pg_clipboard p.
Proof. split; [apply list_elem_of_here|done]. Qed.

(** ** The one-time secret *)

(** Updates of other elements than the secret's. *)
Definition keeps_secret (u : Update) : bool :=
  match u with SetText id _ => negb (id =s "secretValue") | SetDisplay id _ => negb (id =s "secretBox") | _ => true end.

Lemma render_keeps_secret price st errors : forallb keeps_secret (render price st errors) = true.
Proof. unfold render. destruct errors; reflexivity. Qed.

(** The secret is what its element shows, and is in sight. *)
Definition secret_in_sight (p : Page) : Prop :=
  default [] (pg_text p !! "secretValue") = pg_secretText p
  /\ (pg_secretText p <> [] -> pg_display p !! "secretBox" = Some (lit "block")).

Lemma updates_in_sight us p : forallb keeps_secret us = true -> secret_in_sight p -> secret_in_sight (updates us p).
Proof.
  revert p. induction us as [|u us IH]; intros p; [done|]. cbn [forallb]. intros [Hu Hus]%andb_true_iff [H1 H2]. apply IH; [done|].
  destruct u as [id v|id v|id v|id v]; cbn in *; try done; apply negb_true_iff, str_eqb_false in Hu.
  - split; cbn; [by rewrite lookup_insert_ne|done].
  - split; cbn; [done|by rewrite lookup_insert_ne].
Qed.

Lemma effects_in_sight b form c es p : secret_in_sight p -> secret_in_sight (perform_effects b form c es p).
Proof.
  revert p. induction es as [|e es IH]; intros p Hp; [done|]. apply IH. destruct e as [ft|v| |message]; cbn [perform_effect].
  - exact Hp.
  - destruct c as [|[]|]; try exact Hp. by apply updates_in_sight.
  - split; cbn; by simplify_map_eq.
  - by apply updates_in_sight.
Qed.

Lemma show_in_sight title v p : secret_in_sight (showSecret title v p).
Proof. split; cbn; by simplify_map_eq. Qed.

Lemma returned_in_sight data p : secret_in_sight p -> secret_in_sight (showReturnedSecret data p).
Proof.
  intros Hp. unfold showReturnedSecret. destruct (js_text_member "provider_token" data); [|apply show_in_sight].
  destruct (js_text_member "api_key" data); [done|apply show_in_sight].
Qed.

Lemma refresh_in_sight after p : secret_in_sight p -> secret_in_sight (refreshStart after p).
Proof. intros Hp. by apply (updates_in_sight [SetDisplay "errors" (lit "none"); SetText "errors" []] (disable (by_id "refresh") p)). Qed.

Lemma end_in_sight a p : secret_in_sight p -> secret_in_sight (refreshEnd a p).
Proof.
  intros Hp. unfold refreshEnd. destruct (refreshReports a (pg_state p)) as [st errors].
  by apply (updates_in_sight (render (cloudPrice p) st errors) (p <| pg_state := st |>)), Hp; apply render_keeps_secret.
Qed.

Lemma step_in_sight e p : secret_in_sight p -> secret_in_sight (page_step nullError p e).
Proof.
  intros Hp. destruct e as [id v| | |btn confirm c| |key| | | |checked|n r|n a]; cbn [page_step].
  - exact Hp.
  - by apply effects_in_sight.
  - by apply effects_in_sight.
  - case_goal; [done|]. by apply effects_in_sight.
  - by apply refresh_in_sight.
  - case_goal; [|done]. by apply refresh_in_sight.
  - by apply refresh_in_sight.
  - case_goal; [|done]. by apply refresh_in_sight.
  - by apply updates_in_sight.
  - exact Hp.
  - destruct (pg_actions p !! n) as [ac|]; [|done]. unfold answered. destruct (parseActionResponse _ _ _) as [data|message].
    + by apply refresh_in_sight, returned_in_sight.
    + by apply (updates_in_sight [SetDisplay "errors" (lit "block"); SetText "errors" (js_or message (lit "Request failed"))]).
  - destruct (pg_refreshes p !! n) as [after|]; [|done]. unfold refreshed.
    assert (H : secret_in_sight (refreshEnd a (p <| pg_refreshes ::= delete n |>))) by (by apply end_in_sight).
    destruct after as [[? ? ? []]|]; exact H.
Qed.

(** *** Nothing else depends on it *)

(** A page without its secret: everything but the secret, the text of its element and the clipboard. *)
Definition public (p : Page) : Page := p <| pg_secretText := [] |> <| pg_text ::= delete "secretValue" |> <| pg_clipboard := [] |>.

(** Pages that differ in their secrets at most. *)
Definition same (p q : Page) : Prop := public p = public q /\ (pg_secretText p = [] <-> pg_secretText q = []).

#[export] Instance same_equivalence : Equivalence same.
Proof.
  split.
  - by split.
  - intros p q [H1 H2]. by split.
  - intros p q r [H1 H2] [H3 H4]. split; [congruence|]. by rewrite H2.
Qed.

(** Replies that differ in the secret they return at most. *)
Definition same_data (d d' : json) : Prop :=
  (js_text_member "api_key" d = [] <-> js_text_member "api_key" d' = [])
  /\ (js_text_member "provider_token" d = [] <-> js_text_member "provider_token" d' = []).

Inductive alike : Event -> Event -> Prop :=
| alike_same e : alike e e
| alike_reply n status text text' d d' :
    200 <= status <= 299 -> text <> [] -> text' <> [] -> JsonDecode.parse text = Some d -> JsonDecode.parse text' = Some d' -> same_data d d' ->
    alike (Reply n (Got status text)) (Reply n (Got status text')).

Lemma public_updates us p : forallb keeps_secret us = true -> public (updates us p) = updates us (public p).
Proof.
  revert p. induction us as [|u us IH]; intros p; [done|]. cbn [forallb]. intros [Hu Hus]%andb_true_iff. cbn [updates fold_left].
  change (fold_left update us (update p u)) with (updates us (update p u)). rewrite IH by done.
  change (fold_left update us (update (public p) u)) with (updates us (update (public p) u)). f_equal.
  destruct u as [id v|id v|id v|id v]; [|done..]. cbn in Hu. apply negb_true_iff, str_eqb_false in Hu.
  unfold public, update. cbn. by rewrite delete_insert_ne.
Qed.

Lemma updates_secret us p : pg_secretText (updates us p) = pg_secretText p.
Proof. revert p. induction us as [|[]]; intros p; cbn; [done|..]; unfold updates in *; by rewrite IHus. Qed.

(** Operations that do not look at the secret. *)
Definition blind (f : Page -> Page) : Prop := forall p, public (f p) = f (public p) /\ pg_secretText (f p) = pg_secretText p.

#[export] Instance blind_proper f : blind f -> Proper (same ==> same) f.
Proof.
  intros Hf p q [H1 H2]. destruct (Hf p) as [E1 S1], (Hf q) as [E2 S2]. split; [congruence|]. by rewrite S1, S2.
Qed.

Lemma blind_same f p q : blind f -> same p q -> same (f p) (f q).
Proof. intros Hf Hs. by apply blind_proper. Qed.

Lemma blind_updates us : forallb keeps_secret us = true -> blind (updates us).
Proof. intros H p. split; [by apply public_updates|apply updates_secret]. Qed.

Lemma blind_refresh after : blind (refreshStart after).
Proof.
  intros p. set (us := [SetDisplay "errors" (lit "none"); SetText "errors" []]).
  destruct (blind_updates us eq_refl (disable (by_id "refresh") p)) as [H1 H2]. split; [|exact H2].
  transitivity ((fun r => r <| pg_refreshes ::= fun l => l ++ [after] |>) (public (updates us (disable (by_id "refresh") p)))); [done|].
  by rewrite H1.
Qed.

Lemma blind_end a : blind (refreshEnd a).
Proof.
  intros p. unfold refreshEnd. change (pg_state (public p)) with (pg_state p). change (cloudPrice (public p)) with (cloudPrice p).
  destruct (refreshReports a (pg_state p)) as [st errors]. set (us := render (cloudPrice p) st errors).
  destruct (blind_updates us (render_keeps_secret _ _ _) (p <| pg_state := st |>)) as [H1 H2]. split; [|exact H2].
  transitivity (enable (by_id "refresh") (public (updates us (p <| pg_state := st |>)))); [done|]. by rewrite H1.
Qed.

Lemma same_error message p q : same p q -> same (showError message p) (showError message q).
Proof. by apply blind_same, blind_updates. Qed.

Lemma same_hide p q : same p q -> same (hideSecret p) (hideSecret q).
Proof.
  intros [H _]. split; [|done]. assert (E : forall p, public (hideSecret p) = updates [SetDisplay "secretBox" (lit "none")] (public p)).
  { intros r. unfold public, hideSecret. cbn. by rewrite delete_insert_eq. }
  by rewrite !E, H.
Qed.

Lemma same_show title v v' p q : v <> [] -> v' <> [] -> same p q -> same (showSecret title v p) (showSecret title v' q).
Proof.
  intros Hv Hv' [H _]. split; [|by split]. assert (E : forall v p, public (showSecret title v p)
    = updates [SetText "secretTitle" title; SetDisplay "secretBox" (lit "block")] (public p)).
  { intros w r. unfold public, showSecret. cbn. f_equal. by rewrite delete_insert_eq, delete_insert_ne. }
  by rewrite !E, H.
Qed.

Lemma same_returned d d' p q : same_data d d' -> same p q -> same (showReturnedSecret d p) (showReturnedSecret d' q).
Proof.
  intros [Hk Ht] Hs. unfold showReturnedSecret.
  assert (H1 : same (match js_text_member "api_key" d with [] => p | key => showSecret (lit "Consumer API key") key p end)
                 (match js_text_member "api_key" d' with [] => q | key => showSecret (lit "Consumer API key") key q end)).
  { destruct (js_text_member "api_key" d), (js_text_member "api_key" d'); [done|discriminate (proj1 Hk eq_refl)|discriminate (proj2 Hk eq_refl)|by apply same_show]. }
  revert H1. generalize (match js_text_member "api_key" d with [] => p | key => showSecret (lit "Consumer API key") key p end).
  generalize (match js_text_member "api_key" d' with [] => q | key => showSecret (lit "Consumer API key") key q end). intros q' p' H1.
  destruct (js_text_member "provider_token" d), (js_text_member "provider_token" d'); [done|discriminate (proj1 Ht eq_refl)|discriminate (proj2 Ht eq_refl)|by apply same_show].
Qed.

Lemma same_copy v v' b c p q : same p q -> same (copy v b c p) (copy v' b c q).
Proof.
  intros Hs. assert (E : forall clip clip', same (p <| pg_clipboard := clip |> <| pg_copied ::= cons b |>) (q <| pg_clipboard := clip' |> <| pg_copied ::= cons b |>)).
  { intros clip clip'. destruct Hs as [H1 H2]. split; [|exact H2].
    assert (X : forall clip r, public (r <| pg_clipboard := clip |> <| pg_copied ::= cons b |>) = (fun r => r <| pg_copied ::= cons b |>) (public r)) by done.
    rewrite (X clip p), (X clip' q). by rewrite H1. }
  destruct c as [|[]|]; [apply E|apply E| |by apply same_error].
  exact (E (pg_clipboard p) (pg_clipboard q)).
Qed.

(** A click does the same, but for the text it copies. *)
Inductive same_effect : Effect -> Effect -> Prop :=
| same_effect_refl e : same_effect e e
| same_effect_copy v v' : same_effect (ECopy v) (ECopy v').

Lemma click_same t v v' anchor confirm btn : (v = [] <-> v' = []) ->
  Forall2 same_effect (click t v anchor confirm btn) (click t v' anchor confirm btn).
Proof.
  intros Hv. unfold click, onClick. destruct (clickable btn); [|constructor]. cbv zeta. destruct (js_eqb (default [] (attr btn "id")) (lit "copySecret")).
  - constructor; [|constructor]. unfold copyText. destruct v, v'; [constructor|discriminate (proj1 Hv eq_refl)|discriminate (proj2 Hv eq_refl)|constructor].
  - match goal with |- Forall2 _ ?l _ => generalize l end. intros l. induction l; by repeat constructor.
Qed.

Lemma same_effects b form c es es' p q : Forall2 same_effect es es' -> same p q ->
  same (perform_effects b form c es p) (perform_effects b form c es' q).
Proof.
  intros H. revert p q. induction H as [|e e' es es' He _ IH]; intros p q Hs; [done|]. cbn [perform_effects fold_left]. apply IH.
  destruct He as [[ft|v| |message]|v v']; cbn [perform_effect]; [|by apply same_copy|by apply same_hide|by apply same_error|by apply same_copy].
  by apply (blind_same (launch b form ft)).
Qed.

(** What the listeners read of a page, its secret aside. *)
Lemma same_value p q id : same p q -> value p id = value q id.
Proof. intros [H _]. change (value (public p) id = value (public q) id). by rewrite H. Qed.
Lemma same_token p q : same p q -> token p = token q.
Proof. intros H. unfold token. by rewrite (same_value p q). Qed.
Lemma same_state p q : same p q -> pg_state p = pg_state q.
Proof. intros [H _]. change (pg_state (public p) = pg_state (public q)). by rewrite H. Qed.

Lemma effects_refl es : Forall2 same_effect es es.
Proof. induction es; by repeat constructor. Qed.

Lemma same_save p q : same p q -> same (saveSettings p) (saveSettings q).
Proof.
  intros Hs. apply (blind_same (refreshStart None)); [apply blind_refresh|]. rewrite (same_token p q), (same_value p q) by done.
  by apply (blind_same (fun r => r <| pg_storage ::= <["mi.adminToken" := token q]> |> <| pg_storage ::= <["mi.cloudPrice" := value q "cloudPrice"]> |>)).
Qed.

Lemma same_answered ac d d' status text text' p q :
  200 <= status <= 299 -> text <> [] -> text' <> [] -> JsonDecode.parse text = Some d -> JsonDecode.parse text' = Some d' -> same_data d d' ->
  same p q -> same (answered nullError ac (Got status text) p) (answered nullError ac (Got status text') q).
Proof.
  intros Hst Ht Ht' Hp Hp' Hd Hs. unfold answered, parseActionResponse. rewrite Hp, Hp'.
  replace ((200 <=? status) && (status <=? 299)) with true by lia.
  destruct text, text'; [done..|]. cbn [negb]. apply (blind_same (refreshStart (Some ac))); [apply blind_refresh|]. by apply same_returned.
Qed.

Lemma same_step e e' p q : alike e e' -> same p q -> same (page_step nullError p e) (page_step nullError q e').
Proof.
  intros He Hs. assert (Hp : public p = public q) by by destruct Hs.
  assert (Ha : pg_actions p = pg_actions q) by (change (pg_actions (public p) = pg_actions (public q)); by rewrite Hp).
  assert (Hr : pg_refreshes p = pg_refreshes q) by (change (pg_refreshes (public p) = pg_refreshes (public q)); by rewrite Hp).
  assert (Hd : pg_disabled p = pg_disabled q) by (change (pg_disabled (public p) = pg_disabled (public q)); by rewrite Hp).
  assert (Ht : pg_timer p = pg_timer q) by (change (pg_timer (public p) = pg_timer (public q)); by rewrite Hp).
  destruct He as [e|n status text text' d d' Hst Ht1 Ht2 Hp1 Hp2 Hdd].
  2: { cbn [page_step]. rewrite Ha. destruct (pg_actions q !! n) as [ac|]; [|done]. eapply same_answered; [done..|].
       by apply (blind_same (fun r => r <| pg_actions ::= delete n |>)). }
  destruct e as [id v| | |btn confirm c| |key| | | |checked|n r|n a]; cbn [page_step].
  - by apply (blind_same (fun r => r <| pg_value ::= <[id := v]> |>)).
  - unfold submitConsumer, consumerBody. rewrite (same_token p q), !(same_value p q) by done. by apply same_effects, Hs; apply effects_refl.
  - unfold submitProvider, providerBody. rewrite (same_token p q), !(same_value p q) by done. by apply same_effects, Hs; apply effects_refl.
  - rewrite Hd, (same_state p q), (same_token p q) by done. destruct (bool_decide _); [done|]. apply same_effects; [|done]. apply click_same, Hs.
  - by apply same_save.
  - case_goal; [by apply same_save|done].
  - by apply (blind_same _ _ _ (blind_refresh None)).
  - rewrite Ht. destruct (pg_timer q); [by apply (blind_same _ _ _ (blind_refresh None))|done].
  - unfold cloudPrice. rewrite (same_state p q), !(same_value p q) by done. apply blind_same; [by apply blind_updates|].
    by apply (blind_same (fun r => r <| pg_storage ::= <["mi.cloudPrice" := value q "cloudPrice"]> |>)).
  - by apply (blind_same (fun r => r <| pg_timer := checked |>)).
  - rewrite Ha. destruct (pg_actions q !! n) as [ac|]; [|done].
    assert (Hs' : same (p <| pg_actions ::= delete n |>) (q <| pg_actions ::= delete n |>)) by by apply (blind_same (fun r => r <| pg_actions ::= delete n |>)).
    unfold answered. destruct (parseActionResponse _ _ _) as [data|message].
    + apply (blind_same (refreshStart (Some ac))); [apply blind_refresh|]. by apply same_returned.
    + apply (blind_same (enable (ac_button ac))); [done|]. by apply same_error.
  - rewrite Hr. destruct (pg_refreshes q !! n) as [after|]; [|done].
    assert (Hs' : same (p <| pg_refreshes ::= delete n |>) (q <| pg_refreshes ::= delete n |>)) by by apply (blind_same (fun r => r <| pg_refreshes ::= delete n |>)).
    assert (He : same (refreshEnd a (p <| pg_refreshes ::= delete n |>)) (refreshEnd a (q <| pg_refreshes ::= delete n |>)))
      by (by apply (blind_same _ _ _ (blind_end a))).
    unfold refreshed. destruct after as [ac|]; [|exact He]. destruct ac as [path ft btn []]; by apply (blind_same (enable btn)).
Qed.

Lemma same_run es es' p q : Forall2 alike es es' -> same p q -> same (page_run nullError p es) (page_run nullError q es').
Proof.
  intros H. revert p q. induction H as [|e e' es es' He _ IH]; intros p q Hs; [done|]. cbn [page_run fold_left]. apply IH. by apply same_step.
Qed.

Lemma reached_in_sight p : reached nullError p -> secret_in_sight p.
Proof.
  intros (storage & query & es & ->).
  assert (H0 : secret_in_sight (start storage query)).
  { assert (secret_in_sight (loadSettings (blank_page storage query))) by by (unfold loadSettings; destruct (default [] (pg_query _))).
    by apply (refresh_in_sight None (loadSettings (blank_page storage query))). }
  revert H0. generalize (start storage query). induction es as [|e es IH]; intros p Hp; [done|]. cbn [page_run fold_left]. apply IH.
  by apply step_in_sight.
Qed.

Lemma reached_run p es : reached nullError p -> reached nullError (page_run nullError p es).
Proof. intros (storage & query & es0 & ->). exists storage, query, (es0 ++ es). unfold page_run. by rewrite fold_left_app. Qed.

(** C21: Whatever the administrator, the timer and the replies do in whatever order, the one-time secret
    is what its element shows, the copy button copies what is shown, and dismissing it wipes it; and
    two runs whose replies differ in the secrets alone leave the same storage, fields, markup, requests
    and texts of all other elements. *)
Theorem one_time_secret p storage query es es' :
  reached nullError p -> Forall2 alike es es' ->
  (secret_in_sight p
   /\ (forall c, by_id "copySecret" ∉ pg_disabled p -> pg_secretText p <> [] -> c = ClipWritten \/ c = CommandReturned true ->
       pg_clipboard (page_step nullError p (Press (by_id "copySecret") true c)) = default [] (pg_text p !! "secretValue"))
   /\ (by_id "dismissSecret" ∉ pg_disabled p ->
       let q := page_step nullError p (Press (by_id "dismissSecret") true ClipWritten) in
       pg_secretText q = [] /\ pg_text q !! "secretValue" = Some [] /\ pg_display q !! "secretBox" = Some (lit "none")))
  /\ (let q := page_run nullError (start storage query) es in
      let q' := page_run nullError (start storage query) es' in
      pg_storage q = pg_storage q' /\ pg_actions q = pg_actions q' /\ pg_html q = pg_html q' /\ pg_value q = pg_value q'
      /\ forall id, id <> "secretValue" -> pg_text q !! id = pg_text q' !! id).
Proof.
  intros Hr Hes. pose proof (reached_in_sight p Hr) as Hp. split; [split_and!; [done|..]|].
  - intros c Hd Hne Hc. cbn [page_step]. rewrite bool_decide_eq_false_2 by done. destruct Hp as [-> _].
    assert (E : forall a, click (token p) (pg_secretText p) a (fun _ => true) (by_id "copySecret") = [ECopy (pg_secretText p)]).
    { intros a. unfold click, onClick, copyText. destruct (pg_secretText p); [done|]. reflexivity. }
    rewrite E. by destruct Hc as [-> | ->].
  - intros Hd. cbn [page_step]. rewrite bool_decide_eq_false_2 by done.
    assert (E : forall v a, click (token p) v a (fun _ => true) (by_id "dismissSecret") = [EHideSecret]) by reflexivity.
    rewrite E. cbn. split_and!; [done|by simplify_map_eq..].
  - destruct (same_run es es' (start storage query) (start storage query) Hes ltac:(reflexivity)) as [H _]. cbv zeta.
    set (q := page_run nullError (start storage query) es) in *. set (q' := page_run nullError (start storage query) es') in *.
    split_and!; [change (pg_storage (public q) = pg_storage (public q'))|change (pg_actions (public q) = pg_actions (public q'))
      |change (pg_html (public q) = pg_html (public q'))|change (pg_value (public q) = pg_value (public q'))|]; [by rewrite H..|].
    intros id Hid. assert (Ht : forall r, pg_text r !! id = pg_text (public r) !! id) by (intros r; cbn; by rewrite lookup_delete_ne).
    by rewrite (Ht q), (Ht q'), H.
Qed.

(** ** The settings *)

Lemma trim_left_suffix l : exists k, trim_left l = drop k l.
Proof. induction l as [|c l [k IH]]; [by exists 0%nat|]. cbn [trim_left]. destruct (js_space c); [by exists (S k)|by exists 0%nat]. Qed.

Lemma trim_left_head l : match trim_left l with c :: _ => js_space c = false | [] => True end.
Proof. induction l as [|c l IH]; [done|]. cbn [trim_left]. destruct (js_space c) eqn:E; [exact IH|exact E]. Qed.

Lemma trim_left_fix l : match l with c :: _ => js_space c = false | [] => True end -> trim_left l = l.
Proof. destruct l as [|c l]; [done|]. cbn [trim_left]. by intros ->. Qed.

Lemma js_trim_trim s : js_trim (js_trim s) = js_trim s.
Proof.
  unfold js_trim. set (u := trim_left s). set (w := trim_left (rev u)).
  assert (Hw : trim_left (rev w) = rev w).
  { apply trim_left_fix. destruct (trim_left_suffix (rev u)) as [k Hk]. fold w in Hk. pose proof (trim_left_head s) as Hu. fold u in Hu.
    assert (Hp : rev w = take (length u - k) u) by (by rewrite Hk, skipn_rev, rev_involutive).
    rewrite Hp. destruct (length u - k)%nat; [done|]. by destruct u. }
  rewrite Hw, rev_involutive. f_equal. apply trim_left_fix, trim_left_head.
Qed.

(** What is saved is what the next page starts with, a blank price being the default; a token in the
    address is used, stored, and taken out of the address. *)
Theorem settings_kept p storage t :
  (let q := start (pg_storage (saveSettings p)) None in
   token q = token p /\ value q "cloudPrice" = js_or (value p "cloudPrice") (lit "0.20"))
  /\ (t <> [] -> let q := start storage (Some t) in
      pg_storage q !! "mi.adminToken" = Some t /\ pg_query q = None /\ value q "token" = t).
Proof.
  split; [split|].
  - assert (E : value (start (pg_storage (saveSettings p)) None) "token" = token p).
    { unfold value. cbn [start loadSettings blank_page pg_query default from_option]. cbn. by simplify_map_eq. }
    unfold token at 1. rewrite E. apply js_trim_trim.
  - unfold value at 1. cbn. by simplify_map_eq.
  - intros Ht. destruct t as [|c t]; [done|]. unfold value. cbn. split_and!; [by simplify_map_eq|done|by simplify_map_eq].
Qed.
End Flow.

(** ** A page, an account, two secrets *)

#[local] Instance demo_errors : DecoderErrors := fun _ => "invalid character".
#[local] Existing Instance demo_browser.

Definition form_page : Page :=
  page_run [] (start {["mi.adminToken" := bytes "secret"]} None)
    [Edit "createConsumerID" (bytes " New-Account "); Edit "createConsumerName" (js "New account"); Edit "createConsumerLimit" (bytes "1000000")].

Definition form_input : CreateConsumerInput :=
  {| City.ci_ID := "New-Account"; ci_DisplayName := "New account"; ci_TotalTokenLimit := 1000000 |}.

Definition form_world : World := demo_world <| w_market := (demo_market, blank_disk) |>.

Definition form_run : option (Handlers.Reply * World) := run page_server (adminCreateConsumer (Ok form_input)) [demo_nondet] form_world.

Lemma form_run_check :
  match form_run, (CreateConsumer form_input (nd_random demo_nondet) (nd_now demo_nondet) (nd_fault demo_nondet) demo_market blank_disk).1.1 with
  | Some (_, w'), Ok c => bool_decide (m_apiKeys (w_market w').1 !! cd_APIKey c = None)
  | _, _ => false
  end = true.
Proof. by vm_compute. Qed.

Lemma account_form_witness :
  token form_page = bytes "secret"
  /\ exists reply w' c text, form_run = Some (reply, w') /\ reply_bytes reply = Some text
      /\ AuthenticateConsumer (w_market w').1 (cd_APIKey c) = Ok "new-account"
      /\ forall q, shows_secret (answered [] (form_action form_page (lit "/admin/consumers") (stringify (consumerBody form_page)) "createConsumerSubmit")
                                  (Got (ry_Status reply) text) q) (lit "Consumer API key") (js (cd_APIKey c)).
Proof.
  split; [reflexivity|].
  assert (H1 : token form_page <> []) by (vm_compute; discriminate).
  assert (H2 : of_bytes (token form_page) = sv_adminToken page_server) by (vm_compute; reflexivity).
  assert (H3 : well_formed (js_trim (value form_page "createConsumerID"))) by (apply (bool_decide_unpack _); vm_compute; exact I).
  assert (H4 : well_formed (js_trim (value form_page "createConsumerName"))) by (apply (bool_decide_unpack _); vm_compute; exact I).
  assert (H5 : limit_of (js_trim (value form_page "createConsumerLimit")) 1000000)
    by (right; split; [vm_compute; discriminate|split; [vm_compute; reflexivity|split; [vm_compute; reflexivity|lia]]]).
  assert (H6 : random_ok (nd_random demo_nondet)) by (apply (bool_decide_unpack _); vm_compute; exact I).
  pose proof form_run_check as Hck. destruct form_run as [[reply w']|] eqn:E; [|discriminate Hck].
  pose proof (account_form [] page_server "" no_bodies form_page H1 H2 1000000 demo_nondet form_world w' reply H3 H4 H5 H6) as [_ H].
  assert (Hi : {| City.ci_ID := go_text (js_trim (value form_page "createConsumerID"));
                  ci_DisplayName := go_text (js_trim (value form_page "createConsumerName")); ci_TotalTokenLimit := 1000000 |} = form_input)
    by (vm_compute; reflexivity).
  rewrite Hi in H. destruct (H E) as (text & Ht & Hc). clear H. change (w_market form_world) with (demo_market, blank_disk) in Hc. cbn [fst snd] in Hc.
  destruct ((CreateConsumer form_input (nd_random demo_nondet) (nd_now demo_nondet) (nd_fault demo_nondet) demo_market blank_disk).1.1) as [c|];
    [|discriminate Hck].
  exists reply, w', c, text. split; [reflexivity|]. split; [exact Ht|]. destruct Hc as (_ & Ha & Hs). split; [|exact Hs].
  exact (Ha (bool_decide_eq_true_1 _ Hck)).
Defined.

(** Two replies with two keys. *)
Definition key_reply (key : string) : list Z := stringify [("api_key", VString (js key))].

Lemma one_time_secret_witness :
  let es key := [SubmitConsumer; Reply 0 (Got 201 (key_reply key))] in
  let run key := page_run [] form_page (es key) in
  pg_secretText (run "sk-1") = js "sk-1" /\ pg_secretText (run "sk-2") = js "sk-2"
  /\ secret_in_sight (run "sk-1")
  /\ forall id, id <> "secretValue" ->
      pg_text (page_run [] (start ∅ None) (es "sk-1")) !! id = pg_text (page_run [] (start ∅ None) (es "sk-2")) !! id.
Proof.
  assert (Hr : reached [] (page_run [] form_page [SubmitConsumer; Reply 0 (Got 201 (key_reply "sk-1"))])).
  { apply reached_run. eexists _, _, _. unfold form_page. reflexivity. }
  assert (Ha : Forall2 alike [SubmitConsumer; Reply 0 (Got 201 (key_reply "sk-1"))] [SubmitConsumer; Reply 0 (Got 201 (key_reply "sk-2"))]).
  { constructor; [constructor|]. constructor; [|constructor].
    eapply alike_reply; [lia|vm_compute; discriminate|vm_compute; discriminate|vm_compute; reflexivity|vm_compute; reflexivity|].
    split; (split; intros H; vm_compute in H; first [discriminate H|vm_compute; reflexivity]). }
  pose proof (one_time_secret [] _ ∅ None _ _ Hr Ha) as [[H1 _] (_ & _ & _ & _ & H2)].
  split; [vm_compute; reflexivity|]. split; [vm_compute; reflexivity|]. split; [exact H1|exact H2].
Defined.
